(* ===== verification/_CoqProject ===== *)
-Q . S2P
Prelude.v
CrcTables.v
Crc32c.v
Sha1.v
Tailq.v
StreamSched.v
SchedProps.v
FairProps.v
Callout.v
AuthLists.v
Mbuf.v
MbufProps.v
Chunk.v
Serial.v
TsnMap.v
SackTable.v
Sack.v
Reasm.v
AuthKeys.v
AuthHmac.v
AuthParams.v
ReasmQueue.v
RecvData.v
TsnMapInv.v
RecvPlan.v
MsgOut.v
MsgOutInv.v
MsgOutProps.v
TsnMapProps.v
SackGaps.v
SackProps.v
RecvInv.v
RecvOps.v
RecvDeliver.v
RecvMerge.v
AuthKeyProps.v
AuthHmacProps.v
AuthParamProps.v
RecvQueue.v
RecvStream.v
RecvStep.v
RecvPacket.v
RecvProps.v
RecvExamples.v
EndToEnd.v
CongState.v
CongCtl.v
CongMod.v
CongInv.v
CongProps.v
CongGrowth.v
CongRto.v
RecvFwd.v
Jni.v
JniProps.v
