(* ===== verification/Prelude.v ===== *)
(** * A verification library for the SCTP stack of sctp4nat

    sctp4nat lets Java programs speak SCTP over UDP: a Java library
    (src/src/main/java) calls, through a JNI binding
    (src/src/main/native/modified_sctp4natlibs/sctp/net_sctp4nat_Sctp.c), a
    userspace SCTP stack written in C (usrsctp/usrsctplib below that directory,
    here "the stack").  This library models the parts of the C code that carry
    its own logic, and proves what makes them correct.

    ** The program and how its parts interact

    Java asks the binding for a socket, connects or listens, and sends messages;
    the binding wraps a stack socket in a handle and passes packets both ways
    ([usrsctp_conninput] inwards, [onSctpOutboundPacket] outwards).  Inside the
    stack a message is queued on a stream of its association; when a packet is
    built the stream scheduler picks the stream to serve, the packet gets an AUTH
    chunk when the peer asks for it (HMAC-SHA-1 under a key both ends derive from
    the parameters of their handshake) and a CRC32c checksum over its mbuf chain.
    How much may be in flight to a destination is decided by a congestion control
    module, which reacts to acknowledgements, losses, ECN marks and timeouts.  When a packet
    is to be filled, the messages of the stream that is served are cut into chunks, which get
    their TSNs and wait on the send queue; the application may hand over the rest of a
    message while its first fragments are on their way.  A packet
    that arrives becomes a chain of mbufs; the receiver marks every TSN in two bit arrays,
    puts fragments together and messages into the order of their stream, hands them to
    the application, decides when to acknowledge, and writes what the arrays hold into a
    SACK or NR-SACK chunk.  Timers run from a callout queue that a timer thread advances.

    ** Files, by component

    - [Prelude] (this file): fixed-width integers, record update, tactics, hints,
      bit lemmas.
    - [CrcTables], [Crc32c]: netinet/sctp_crc32.c.  The nine tables literally, the
      byte-wise and the slicing-by-eight routine, the dispatch between them
      ([calculate_crc32c]), and [sctp_calculate_cksum] over an mbuf chain.
    - [Sha1]: netinet/sctp_sha1.c, the context and its three operations.
    - [Serial]: the modular comparisons of sctp_constants.h, and how they read wrapped
      numbers as numbers of an unbounded sequence.
    - [Tailq]: the TAILQ macros of sys/queue.h, for the queues of pointers below.
    - [StreamSched]: netinet/sctp_ss_functions.c, all six schedulers and the table
      of their functions ([sctp_ss_functions]); the change of scheduler of
      sctp_usrreq.c and the two places of sctp_output.c where a message enters and
      leaves a stream queue ([sched_enqueue], [sched_dequeue]).  State: the record
      [association] with a store of streams, a store of messages, the wheel and
      the first-come-first-served list.
    - [SchedProps], [FairProps]: theorems about [StreamSched].  The classes
      [WheelAdd] and [WheelRemove] say what an add and a remove function owe to
      the wheel; the theorems on interleavings use only them.
    - [Callout]: netinet/sctp_callout.c, with the theorems.  State:
      [callout_state], the clock, the queue, the cursor and the timers.
    - [AuthLists]: netinet/sctp_auth.c, chunk lists and HMAC identifier lists.
    - [AuthKeys], [AuthKeyProps]: netinet/sctp_auth.c, keys, key derivation, the
      list of shared keys, the operations of an association and of an endpoint.
    - [AuthHmac], [AuthHmacProps]: netinet/sctp_auth.c, HMAC, filling in and
      checking the AUTH chunk.
    - [AuthParams], [AuthParamProps]: the parameters of INIT, INIT-ACK and cookie
      (netinet/sctp_auth.c, and the parts of sctp_output.c and sctp_pcb.c that write
      and read them), and reading a packet with [sctp_m_getptr] (sctputil.c).
    - [Mbuf], [MbufProps]: user_mbuf.c, the operations on chains of mbufs, each a list of
      buffers with their bytes and the place of these in the data area; the packet that
      [usrsctp_conninput] makes (user_socket.c).
    - [TsnMap]: the mapping arrays, sctp_indata.c ([sctp_slide_mapping_arrays],
      [sctp_mark_non_revokable], the parts of [sctp_process_a_data_chunk] and
      [sctp_handle_forward_tsn] that look up and mark a TSN), sctputil.c (allocation and
      growth), sctp_input.c (initialisation) and sctp_pcb.c (reneging).  State: the record
      [tsn_map].
    - [TsnMapInv], [TsnMapProps]: the invariant [Repr], which relates the
      arrays to a set of unbounded TSNs, its preservation by every operation, and the
      refinement of the specification [spec_step].
    - [SackTable]: the 256 entries of [sack_array] (sctp_output.c) literally.
    - [Sack]: [sctp_calc_rwnd] and [sctp_sack_check] (sctp_indata.c), [sctp_send_sack]
      (sctp_output.c).  State: the record [ack_state].
    - [SackGaps], [SackProps]: the table is right; the loops write the runs of received
      TSNs; what the chunk that is queued says, and when one is queued.
    - [Chunk]: constants of DATA chunks and of partial reliability.
    - [CongState], [CongCtl], [CongMod]: netinet/sctp_cc_functions.c, all four
      modules and their table; the round-trip estimator (sctputil.c), the backoff of
      the retransmission timeout (sctp_timer.c), the ECN-Echo and dropped-packet
      handlers (sctp_input.c) and the change of module (sctp_usrreq.c).  State: the
      record [sctp_association] with its destinations [sctp_nets].
    - [CongInv], [CongProps], [CongGrowth], [CongRto]: theorems about them.  The class
      [CcModule] says what a module owes to the association; the theorem on
      sequences of events uses only it, and the four modules are its instances.
    - [Reasm], [ReasmQueue], [RecvData], [RecvFwd]: the receive path, sctp_indata.c from
      [sctp_process_data] down to [sctp_invoke_recv_callback] (sctputil.c): controls and
      the small operations on them, the queues of the streams, the chunk and the packet,
      and FORWARD-TSN.  State: the record [receiver], which extends [ack_state] by the
      streams, the store of controls and the read queue; what the code asks others to do
      is its list [effects].
    - [RecvPlan]: the specification of ordered delivery, messages with their fragments
      and the set of TSNs taken.  [RecvInv]: the invariant [rx_inv], which relates the
      queues to it.
    - [RecvOps], [RecvDeliver], [RecvMerge], [RecvQueue], [RecvStream],
      [RecvStep], [RecvPacket]: its preservation by each part of the path, from placing a
      control to a whole packet; [RecvProps], [RecvExamples]: the theorems, and the
      concrete receiver they are applied to.
    - [MsgOut]: the send path, sctp_output.c from the messages of the application
      ([sctp_copy_it_in], [sctp_msg_append], the parts of [sctp_lower_sosend] that touch the
      queues) to the chunks on the send queue ([sctp_fill_outqueue],
      [sctp_move_to_outqueue]).  State: the record [out_state], which extends
      [association] by the data of messages, the streams' counters and the send queue, and
      records what was handed over and which chunks were made.
    - [MsgOutInv], [MsgOutProps]: the invariant [out_inv], which relates queues and chunks
      to a list of outgoing messages, and its preservation by the application's steps and
      by each part of [sctp_move_to_outqueue].
    - [EndToEnd]: runs of a sender, the theorems about them, the theorem that joins them
      with [RecvProps], and the concrete sender they are applied to.
    - [Jni], [JniProps]: net_sctp4nat_Sctp.c, all native methods and upcalls.

    A definition carries the name of the C function it models; a loop or a part of
    a function that is a definition of its own is introduced by a comment.

    ** What the theorems show

    Every property is marked C1, C2, ... in its comment.

    - From application to application (C1): for every run of a sender, whatever the
      application hands over in whatever pieces between the packets, and for whatever of
      the chunks reach a receiver, in whatever order and packets, on every stream the
      receiving application gets a prefix of the messages handed over, whole, in order and
      once, and all of them when all chunks have arrived.  The way of the chunks between the
      two ends (bundling, loss, retransmission) is the hypothesis that the receiver gets
      only chunks the sender has made.
    - Sending (C2, C6): the chunks made are fragments of the messages in their order, of
      one message at a time; and filling a packet ends.  Without an id:
      [failed_allocation_loses_first_flag], [full_packet_overfilled],
      [long_chunk_length_wraps], [priority_interleaves], [lifetime_wraps] and
      [continued_message_freed] show what the code does outside the conditions, and
      [ex_from_application_to_application] runs both ends.
    - Ordered delivery (C3 to C5): whatever chunks arrive in whatever order and packets,
      on every stream the application gets exactly the messages before the first one that
      is not complete, whole, in order and once; the handler always returns, never uses
      freed memory and never aborts; a packet is handled within as many rounds as it has
      chunks, and keeps the invariant.  The path as a whole refines a set of TSNs: the
      controls, the queues and the arrays are not visible in the statement.
    - Checksum (C7 to C9): the optimised routine is division by the Castagnoli
      polynomial, bit by bit, at every alignment and length, without a read
      outside the buffer; the checksum of a chain depends only on its bytes; a change
      of one byte is detected.
    - SHA-1 (C10): any sequence of updates followed by final is FIPS 180-1.
    - Schedulers (C11 to C15): under every interleaving of queueing, dequeueing,
      scheduling and a change of scheduler the wheel holds exactly the streams
      with data, each once; under every interleaving of the first three it stays
      sorted; what the default and the fair-bandwidth selection return and that they
      return.  Without an id: [default_select_diverges], [prio_select_class],
      [fcfs_init_order].
    - Timers (C16): a tick terminates and fires exactly what is due, whatever the
      handlers do to the queue.
    - Authentication (C17 to C26): the chunk list is a set, and what it is packed into
      is unpacked again; the list of shared keys is a sorted map; over any sequence of
      operations on keys, of packets that get their AUTH chunk and of AUTH chunks that
      arrive, the reference counts are right and the association keys that are cached are
      the ones derived from the present keys, as long as no key is replaced while it is
      held; HMAC is RFC 2104; an AUTH chunk is accepted exactly when its digest is right,
      and what one end sends the other accepts; the check of the parameters of a handshake
      decides by the rules of the standards, and both ends derive one key from the
      parameters as they travel in INIT, INIT-ACK and cookie.  Without an id:
      [compute_hmac_m_correct], the HMAC of an mbuf chain, [hashkey_symmetric],
      [key_change_clears_cache], and [replaced_key_freed_in_list], what happens without
      the condition.
    - Congestion control (C27 to C31): under conditions on the configuration that the
      theorem lists, no sequence of events breaks a window or stops the code, under any
      module; the growth of a window in both phases; one reduction per recovery window and
      per window with ECN marks; the bounds of the round-trip estimator.  Without an id:
      [module_switch_fresh], [packet_dropped_exact], [hs_rows], the rows of HighSpeed TCP,
      [backoff_doubles], and [coupled_modes_divide_by_zero], [htcp_divides_by_zero] and
      [dccc_window_wraps], what happens without the conditions.
    - Received TSNs (C32): over any sequence of chunks, moves to the non-renegable array,
      slides, FORWARD-TSNs and drains, through any number of wraps of the TSN, the two
      arrays implement the set of received TSNs, no access leaves them, and every chunk
      is answered as the set says.
    - Acknowledgement (C33 to C35): the SACK and the NR-SACK that are queued report
      exactly the received TSNs above the cumulative one and then the duplicates that were
      recorded, as far as there is room, and the window; and a packet with data is never
      left without an acknowledgement queued, a timer running or, when no memory can be
      had and acknowledgements are not delayed, the flag that one is due.  Without an id:
      [sack_silent_across_wrap], the gap blocks that are missing while the highest TSN
      has wrapped and the base has not.
    - Packets (C36 to C39): the receiver reads of a DATA chunk what the sender wrote,
      chunks that are refused change nothing they should not, the operations on chains
      are typed and are the operations on lists of bytes their names say, and the packet
      the binding passes in reaches the stack.
    - Binding (C40): the safety of handles over any sequence of calls.  Without an id:
      [message_roundtrip], the way of a message from Java to Java,
      [jni_socket_configured].

    Where the code does not do what it means to, a theorem states what it does
    (without an id: [default_select_diverges], [replaced_key_freed_in_list],
    [missing_random_overflows], [coupled_modes_divide_by_zero],
    [sack_silent_across_wrap], [prio_set_value_keeps_place], [stale_priority_is_rounds], [htcp_divides_by_zero],
    [dccc_window_wraps], [nr_sack_siz_wrap], [straddling_message_aborts],
    [partial_delivery_overtaken], [partial_delivery_keeps_bytes],
    [shut_down_reader_uses_freed], [zero_length_chunk_loops], and those named under
    Sending).

    ** Conventions

    - Machine integers are [Z] with the wrap-around written out ([u8], [u16],
      [u32], [i32] below); a signed overflow is taken as two's complement.
    - [None] stands for undefined behaviour (an access outside a buffer, a
      dangling pointer, a division by zero, the removal of an entry that is not in
      the queue) and for exhausted fuel; the theorems conclude with [Some], so they also say that
      neither occurs.  [NULL] is [None] of the pointer's own option type.
    - Allocation is an argument (the outcome, or an allocator that returns memory
      of unspecified contents), and so are the unspecified contents of local
      arrays, the callbacks of timers, the answers of the stack to the binding,
      and the Java virtual machine.
    - The build is the one of the repository's makefiles: Linux, userspace,
      little-endian, no OpenSSL or NSS, SHA-1 as the only hash, SCTP_DEBUG.
    - Checks that a context pointer (association, endpoint) is not [NULL] are not
      modelled where the argument is a record; logging and freeing of memory that
      no model refers to are left out.  Locks are not modelled: an operation that
      runs under a lock is one step, and where a lock is dropped (the timer loop) or a
      second one is taken (the send lock in [sctp_move_to_outqueue]) the other threads'
      operations are part of the step.

    ** Fuel and bounds

    - The selection loops ([default_again], [prio_again], [rrp_again]) take fuel;
      the theorems show that the number of streams on the wheel plus a constant is
      enough, or that no fuel is enough ([default_select_diverges]).  [fb_loop] needs at most three
      rounds of the wheel and four steps.
    - [tick_loop]: the theorems show that fuel exists for every behaviour of the
      handlers, and that the length of the queue plus one is enough for handlers
      that do not touch it.
    - [sha1_update_loop] consumes at least one byte per round; its fuel is the
      size of the piece plus one.  SHA-1 messages are below 2^29 bytes: the
      code's count of bits has 32 bits.
    - [walk] over the parameters of a packet takes the number of bytes plus one as
      fuel; the theorems show that it does not run out, since every parameter has
      at least four bytes.
    - [back_down] searches the arrays from the highest TSN down; its fuel is the number
      of their bits plus one, and the theorems show that it does not run out.  The arrays
      have at most 1056 bytes: a TSN 4096 or more above the base is refused.
    - The theorem on sequences of arrivals assumes that a slide happens before a highest
      TSN has fallen 2^30 behind the base (the code compares serial numbers, and ceases
      to slide when a highest TSN is half the period behind); the theorems on chunks
      assume that no TSN that is reported has wrapped while the base has not.
    - [data_loop] takes a round per chunk; C5 shows that the number of chunks is enough.
      Chunks of length 0 make it run for ever ([zero_length_chunk_loops]).
      [old_unordered_loop] takes a fragment off a control per round, [copyback_loop] fills
      an mbuf per round and [flush_mids] passes a message per round; their fuel is
      computed from the lengths.
    - The theorems on ordered delivery are about ordered DATA chunks, an application with
      a callback and enough memory; messages are shorter than the size from which they
      are delivered in parts, their TSNs do not lie on both sides of [0x7fffffff] in the
      way of [straddling_message_aborts], and a chunk that arrives is less than half the
      number space away from the cumulative TSN.  Nothing bounds how many messages there
      are, and TSNs and message numbers wrap.
    - [fill_loop] makes a chunk or empties a stream per round; C6 shows that the number of
      bytes handed over plus the number of streams is enough.  [one_more_time] takes a
      message off per round ([move_fuel]), and [copy_fill] copies a byte or more per round.
    - The theorems on sending are about ordered messages that are not empty and shorter
      than 10^9 bytes, nothing appended to a message that is complete, without I-DATA and without
      explicit end of records, the default or the round-robin scheduler, a fragmentation
      point of at most 65519 bytes, and memory for chunks and headers; copies of data and
      the allocation of messages and padding may fail.  C6 also assumes that the
      application is silent while the packet is filled.  [os_behaved] records whether a run
      keeps the rules.
    - The loops over tables and lists are structural.
    - The theorems on windows assume an MTU of 13 to 16384 bytes, at most 2^30 bytes
      outstanding or acknowledged on a path, and settings whose products fit 32
      bits; H-TCP and the RTT-based module also need a limit on the window, since they
      grow it without looking at the amount outstanding.  The other conditions are in the
      comment of C27.

    ** What is not modelled

    Most of the handshake, what the sender does with a SACK that arrives and with a
    timeout (but for congestion control), the bundling of chunks into packets, path
    management with its timers, stream reconfiguration, ASCONF and the socket layer of the
    stack (sctp_input.c, sctp_indata.c from [sctp_process_segment_range] to
    [sctp_update_acked], sctp_output.c, sctp_timer.c, sctp_pcb.c, sctp_asconf.c,
    sctputil.c, user_socket.c), including the way of a message to an application that
    reads instead of being called; reference counts of clusters and the cache of chunks;
    system calls, threads and interface enumeration; the Java code.  Next in line are the
    processing of SACKs by the sender, the requests to reset streams and the bundling of
    chunks into packets. *)

From stdpp Require Export base tactics list list_numbers option numbers gmap.
From Stdlib Require Export ZArith Lia.

(** ** Fixed-width integers

    C's unsigned arithmetic is arithmetic on [Z] followed by an explicit
    reduction; [u16] and [u32] are the two widths the modelled code uses and
    [i32] is the two's complement reading of 32 bits (C's [int]). *)

Declare Scope sctp_scope.
Delimit Scope sctp_scope with sctp.
Open Scope Z_scope.

Definition u8 (z : Z) : Z := z mod 256.
Definition u16 (z : Z) : Z := z mod 65536.
Definition u32 (z : Z) : Z := z mod 4294967296.
Definition u64 (z : Z) : Z := z mod 18446744073709551616.
Definition i32 (z : Z) : Z := (z + 2147483648) mod 4294967296 - 2147483648.

(** Every definition above reduces into its range. *)
Definition in_u8 (z : Z) : Prop := 0 <= z < 256.
Definition in_u16 (z : Z) : Prop := 0 <= z < 65536.
Definition in_u32 (z : Z) : Prop := 0 <= z < 4294967296.
Definition in_u64 (z : Z) : Prop := 0 <= z < 18446744073709551616.
Definition in_i32 (z : Z) : Prop := -2147483648 <= z < 2147483648.

Notation "a +u32 b" := (u32 (a + b)) (at level 50, left associativity) : sctp_scope.
Notation "a -u32 b" := (u32 (a - b)) (at level 50, left associativity) : sctp_scope.
Notation "a ⊕ b" := (Z.lxor a b) (at level 50, left associativity) : sctp_scope.
Notation "a .& b" := (Z.land a b) (at level 40, left associativity) : sctp_scope.
Notation "a .| b" := (Z.lor a b) (at level 50, left associativity) : sctp_scope.

(** The tactic that solves goals about the wrap-around definitions: unfold
    them and hand the [mod] equations to [lia]. *)
Ltac width_lia :=
  unfold u8, u16, u32, u64, i32, in_u8, in_u16, in_u32, in_u64, in_i32 in *;
  Z.div_mod_to_equations; lia.

(** Split every boolean comparison the goal or a hypothesis branches on. *)
Ltac zbool :=
  repeat match goal with
  | |- context [Z.ltb ?a ?b] => destruct (Z.ltb_spec a b)
  | |- context [Z.leb ?a ?b] => destruct (Z.leb_spec a b)
  | |- context [Z.eqb ?a ?b] => destruct (Z.eqb_spec a b)
  | |- context [Z.gtb ?a ?b] => rewrite (Z.gtb_ltb a b)
  | |- context [Z.geb ?a ?b] => rewrite (Z.geb_leb a b)
  end.

(** ** Record update

    [r <| f := v |>] is the C assignment [r.f = v].  An instance names the field;
    its body is the eta-expansion of the record with that field replaced. *)

Class FieldUpdate {R T : Type} (field : R -> T) := set_field : T -> R -> R.
Arguments set_field {R T} field {_} v r : assert.

Notation "r <| f := v |>" := (set_field f v r)
  (at level 1, f at level 0, v at level 200, left associativity,
   format "r  <| f  :=  v |>") : sctp_scope.

Ltac field_update eta f :=
  let e := eval unfold eta in eta in
  match eval pattern f in e with
  | ?F _ => let b := eval cbv beta in (fun v => F (fun _ => v)) in exact b
  end.

(** Inequalities between closed terms, by evaluation. *)
Ltac eval_z := vm_compute; repeat split; first [reflexivity | discriminate].

Create HintDb sctp.

Section Widths.

Lemma u32_range z : in_u32 (u32 z).
Proof. width_lia. Qed.

Lemma u32_id z : in_u32 z -> u32 z = z.
Proof. intros H. apply Z.mod_small, H. Qed.

Lemma u16_range z : in_u16 (u16 z).
Proof. width_lia. Qed.

Lemma u16_id z : in_u16 z -> u16 z = z.
Proof. intros H. apply Z.mod_small, H. Qed.

Lemma u64_range z : in_u64 (u64 z).
Proof. width_lia. Qed.

Lemma u64_id z : in_u64 z -> u64 z = z.
Proof. intros H. apply Z.mod_small, H. Qed.

Lemma i32_range z : in_i32 (i32 z).
Proof. width_lia. Qed.

Lemma i32_id z : in_i32 z -> i32 z = z.
Proof. intros H. width_lia. Qed.

Lemma u8_range z : in_u8 (u8 z).
Proof. width_lia. Qed.

End Widths.

#[export] Hint Resolve u8_range u16_range u32_range u64_range i32_range : sctp.

(** ** Bit operations stay inside their width *)

Section Bits.

(** Being below [2 ^ n] is having no bit from [n] on. *)
Lemma bits_bounded n z :
  0 <= n -> 0 <= z -> (forall i, n <= i -> Z.testbit z i = false) -> z < 2 ^ n.
Proof.
  intros Hn Hz Hb. destruct (Z.eq_dec z 0) as [-> | Hne].
  - apply Z.pow_pos_nonneg; lia.
  - apply Z.log2_lt_pow2; [lia|].
    destruct (Z.lt_ge_cases (Z.log2 z) n) as [|Hge]; [done|].
    specialize (Hb (Z.log2 z) Hge). rewrite Z.bit_log2 in Hb by lia. done.
Qed.

Lemma testbit_above n z i : 0 <= z < 2 ^ n -> n <= i -> Z.testbit z i = false.
Proof.
  intros [Hz Hlt] Hi.
  destruct (Z.eq_dec z 0) as [-> | Hne]; [apply Z.bits_0|].
  apply Z.bits_above_log2; [done|].
  apply Z.log2_lt_pow2 in Hlt; lia.
Qed.

Lemma lxor_bound n a b :
  0 <= n -> 0 <= a < 2 ^ n -> 0 <= b < 2 ^ n -> 0 <= Z.lxor a b < 2 ^ n.
Proof.
  intros Hn Ha Hb. assert (0 <= Z.lxor a b) by (apply Z.lxor_nonneg; lia).
  split; [done|]. apply bits_bounded; [done..|]. intros i Hi.
  by rewrite Z.lxor_spec, (testbit_above n a), (testbit_above n b).
Qed.

Lemma lor_bound n a b :
  0 <= n -> 0 <= a < 2 ^ n -> 0 <= b < 2 ^ n -> 0 <= Z.lor a b < 2 ^ n.
Proof.
  intros Hn Ha Hb. assert (0 <= Z.lor a b) by (apply Z.lor_nonneg; lia).
  split; [done|]. apply bits_bounded; [done..|]. intros i Hi.
  by rewrite Z.lor_spec, (testbit_above n a), (testbit_above n b).
Qed.

Lemma land_bound n a b : 0 <= n -> 0 <= b < 2 ^ n -> 0 <= Z.land a b < 2 ^ n.
Proof.
  intros Hn Hb. assert (0 <= Z.land a b) by (apply Z.land_nonneg; lia).
  split; [done|]. apply bits_bounded; [done..|]. intros i Hi.
  by rewrite Z.land_spec, (testbit_above n b), andb_false_r.
Qed.

Lemma shiftr_bound n a k : 0 <= k -> 0 <= a < 2 ^ n -> 0 <= Z.shiftr a k < 2 ^ n.
Proof.
  intros Hk Ha. rewrite Z.shiftr_div_pow2 by done.
  assert (0 < 2 ^ k) by (apply Z.pow_pos_nonneg; lia).
  split; [apply Z.div_pos; lia|].
  apply Z.div_lt_upper_bound; nia.
Qed.

Lemma lxor_u32 a b : in_u32 a -> in_u32 b -> in_u32 (Z.lxor a b).
Proof. apply (lxor_bound 32); lia. Qed.

Lemma lor_u32 a b : in_u32 a -> in_u32 b -> in_u32 (Z.lor a b).
Proof. apply (lor_bound 32); lia. Qed.

Lemma land_u32 a b : in_u32 b -> in_u32 (Z.land a b).
Proof. apply (land_bound 32); lia. Qed.

Lemma shiftr_u32 a k : 0 <= k -> in_u32 a -> in_u32 (Z.shiftr a k).
Proof. apply (shiftr_bound 32). Qed.

Lemma land_255 a : Z.land a 255 = a mod 256.
Proof. apply (Z.land_ones a 8). lia. Qed.

Lemma land_u8 a : in_u8 (Z.land a 255).
Proof. rewrite land_255. width_lia. Qed.

End Bits.

#[export] Hint Resolve lxor_u32 lor_u32 land_u32 shiftr_u32 land_u8 : sctp.
