(* ===== verification/Crc32c.v ===== *)
(** * CRC32c: [sctp_crc32.c]

    The checksum every SCTP packet carries.  The code has a byte-wise routine
    ([singletable_crc32c]), a slicing-by-8 routine that reads the buffer in
    32-bit words ([sctp_crc32c_sb8_64_bit]), a dispatcher between the two and a
    walk over an mbuf chain.  The reference is the bit-serial division by the
    reflected Castagnoli polynomial.  A buffer is the list of its bytes with the
    address it starts at (the alignment prologue depends on it); reading past
    the end is [None], so an equation with [Some] also says that every read is
    inside the buffer.  The host is little-endian, as the build's targets are. *)

From S2P Require Import Prelude CrcTables.

Open Scope sctp_scope.

(** ** Code *)

(** Indexing one of the 256-entry tables.  Every index the code uses is masked
    with [0xFF]. *)
Definition table_at (t : list Z) (i : Z) : Z := nth (Z.to_nat i) t 0.

(** [*p_buf++] on an [unsigned char *]. *)
Definition read_u8 (p_buf : list Z) : option (Z * list Z) :=
  match p_buf with
  | b :: p => Some (b, p)
  | [] => None
  end.

(** [*(const uint32_t * ) p_buf; p_buf += 4] on a little-endian host. *)
Definition read_u32 (p_buf : list Z) : option (Z * list Z) :=
  match p_buf with
  | b0 :: b1 :: b2 :: b3 :: p =>
      Some (b0 .| Z.shiftl b1 8 .| Z.shiftl b2 16 .| Z.shiftl b3 24, p)
  | _ => None
  end.

(** The [for (li = 0; li < n; li++)] loop over single bytes that both routines
    run, with the table it indexes. *)
Fixpoint crc_byte_loop (t : list Z) (n : nat) (crc : Z) (p_buf : list Z)
  : option (Z * list Z) :=
  match n with
  | O => Some (crc, p_buf)
  | S n =>
      '(b, p_buf) ← read_u8 p_buf;
      crc_byte_loop t n (table_at t ((crc ⊕ b) .& 0xFF) ⊕ Z.shiftr crc 8) p_buf
  end.

(** One iteration of the slicing loop: eight bytes, eight table lookups. *)
Definition sb8_iteration (crc : Z) (p_buf : list Z) : option (Z * list Z) :=
  '(w, p_buf) ← read_u32 p_buf;
  let crc := crc ⊕ w in
  let term1 := table_at sctp_crc_tableil8_o88 (crc .& 0xFF)
               ⊕ table_at sctp_crc_tableil8_o80 (Z.shiftr crc 8 .& 0xFF) in
  let term2 := Z.shiftr crc 16 in
  let crc := term1
             ⊕ table_at sctp_crc_tableil8_o72 (term2 .& 0xFF)
             ⊕ table_at sctp_crc_tableil8_o64 (Z.shiftr term2 8 .& 0xFF) in
  '(w, p_buf) ← read_u32 p_buf;
  let term1 := table_at sctp_crc_tableil8_o56 (w .& 0xFF)
               ⊕ table_at sctp_crc_tableil8_o48 (Z.shiftr w 8 .& 0xFF) in
  let term2 := Z.shiftr w 16 in
  let crc := crc
             ⊕ term1
             ⊕ table_at sctp_crc_tableil8_o40 (term2 .& 0xFF)
             ⊕ table_at sctp_crc_tableil8_o32 (Z.shiftr term2 8 .& 0xFF) in
  Some (crc, p_buf).

Fixpoint sb8_loop (n : nat) (crc : Z) (p_buf : list Z) : option (Z * list Z) :=
  match n with
  | O => Some (crc, p_buf)
  | S n =>
      '(crc, p_buf) ← sb8_iteration crc p_buf;
      sb8_loop n crc p_buf
  end.

Definition sctp_crc32c_sb8_64_bit (crc : Z) (p_buf : list Z) (length init_bytes : Z)
  : option Z :=
  let running_length := u32 (u32 (length - init_bytes) / 8 * 8) in
  let end_bytes := u32 (length - init_bytes - running_length) in
  '(crc, p_buf) ← crc_byte_loop sctp_crc_tableil8_o32 (Z.to_nat init_bytes) crc p_buf;
  '(crc, p_buf) ← sb8_loop (Z.to_nat (running_length / 8)) crc p_buf;
  '(crc, _) ← crc_byte_loop sctp_crc_tableil8_o32 (Z.to_nat end_bytes) crc p_buf;
  Some crc.

Definition multitable_crc32c (crc32c addr : Z) (buffer : list Z) (length : Z) : option Z :=
  if length =? 0 then Some crc32c
  else
    let to_even_word := u32 (4 - (addr .& 3)) in
    sctp_crc32c_sb8_64_bit crc32c buffer length to_even_word.

(** The [SCTP_CRC32C] macro. *)
Definition SCTP_CRC32C (c d : Z) : Z :=
  Z.shiftr c 8 ⊕ table_at sctp_crc_c ((c ⊕ d) .& 0xFF).

Fixpoint singletable_loop (n : nat) (crc32c : Z) (buffer : list Z) : option Z :=
  match n with
  | O => Some crc32c
  | S n =>
      '(b, buffer) ← read_u8 buffer;
      singletable_loop n (SCTP_CRC32C crc32c b) buffer
  end.

Definition singletable_crc32c (crc32c : Z) (buffer : list Z) (length : Z) : option Z :=
  singletable_loop (Z.to_nat length) crc32c buffer.

Definition calculate_crc32c (crc32c addr : Z) (buffer : list Z) (length : Z) : option Z :=
  if length <? 4 then singletable_crc32c crc32c buffer length
  else multitable_crc32c crc32c addr buffer length.

(** [~crc32c] in 32 bits; a little-endian host does not swap. *)
Definition sctp_finalize_crc32c (crc32c : Z) : Z := u32 (Z.lnot crc32c).

(** An mbuf as the checksum sees it: the address [m_data] points to and the
    [m_len] bytes there. *)
Record mbuf := Mbuf { m_addr : Z; m_bytes : list Z }.

Definition SCTP_BUF_LEN (m : mbuf) : Z := Z.of_nat (length (m_bytes m)).

(** The first loop: find the mbuf the offset lies in. *)
Fixpoint cksum_seek (at_ : list mbuf) (offset : Z) : list mbuf * Z :=
  match at_ with
  | [] => ([], offset)
  | m :: rest =>
      if SCTP_BUF_LEN m <? offset
      then cksum_seek rest (offset -u32 SCTP_BUF_LEN m)
      else (at_, offset)
  end.

(** The second loop: checksum from the offset on.  [SCTP_BUF_LEN(at) - offset]
    is an unsigned difference, so its test against 0 is a test for equality. *)
Fixpoint cksum_walk (at_ : list mbuf) (offset base : Z) : option Z :=
  match at_ with
  | [] => Some base
  | m :: rest =>
      base ← (if 0 <? (SCTP_BUF_LEN m -u32 offset) then
                calculate_crc32c base (m_addr m + offset)
                  (drop (Z.to_nat offset) (m_bytes m)) (SCTP_BUF_LEN m -u32 offset)
              else Some base);
      let offset := if offset =? 0 then offset
                    else if offset <? SCTP_BUF_LEN m then 0
                    else offset -u32 SCTP_BUF_LEN m in
      cksum_walk rest offset base
  end.

Definition sctp_calculate_cksum (m : list mbuf) (offset : Z) : option Z :=
  let '(at_, offset) := cksum_seek m offset in
  base ← cksum_walk at_ offset 0xFFFFFFFF;
  Some (sctp_finalize_crc32c base).

(** ** Reference: division by the polynomial, one bit at a time *)

(** [0x1EDC6F41], the polynomial the source's comment names, with its 32 bits
    reversed. *)
Definition CRC32C_POLY : Z := 0x82F63B78.

Definition bit_step (c : Z) : Z :=
  Z.shiftr c 1 ⊕ (if Z.odd c then CRC32C_POLY else 0).

Fixpoint bit_steps (n : nat) (c : Z) : Z :=
  match n with
  | O => c
  | S n => bit_steps n (bit_step c)
  end.

Definition crc32c_byte (c b : Z) : Z := bit_steps 8 (c ⊕ b).

Definition crc32c_ref (c : Z) (bytes : list Z) : Z := foldl crc32c_byte c bytes.

Definition crc32c (bytes : list Z) : Z :=
  sctp_finalize_crc32c (crc32c_ref 0xFFFFFFFF bytes).

Definition bytes_ok (l : list Z) : Prop := Forall in_u8 l.

(** The comment's polynomial, reflected. *)
Example poly_reflected :
  forallb (fun i => Bool.eqb (Z.testbit 0x1EDC6F41 i) (Z.testbit CRC32C_POLY (31 - i)))
    (seqZ 0 32) = true.
Proof. reflexivity. Qed.

(** The published check value of CRC-32C, of the digits 1 to 9. *)
Example crc32c_check : crc32c [49; 50; 51; 52; 53; 54; 55; 56; 57] = 0xE3069283.
Proof. reflexivity. Qed.

(** *** The bit step is linear, injective and stays in 32 bits *)

Lemma bit_step_lxor a b : bit_step (a ⊕ b) = bit_step a ⊕ bit_step b.
Proof.
  unfold bit_step. rewrite Z.shiftr_lxor.
  assert (Z.odd (a ⊕ b) = xorb (Z.odd a) (Z.odd b)) as ->.
  { rewrite <- !Z.bit0_odd. apply Z.lxor_spec. }
  rewrite !Z.lxor_assoc. f_equal.
  rewrite (Z.lxor_comm _ (_ ⊕ _)), !Z.lxor_assoc. f_equal.
  destruct (Z.odd a), (Z.odd b); reflexivity.
Qed.

Lemma bit_steps_lxor n : forall a b, bit_steps n (a ⊕ b) = bit_steps n a ⊕ bit_steps n b.
Proof.
  induction n as [|n IH]; intros a b; simpl; [done|].
  by rewrite bit_step_lxor, IH.
Qed.

Lemma bit_steps_add m n : forall c, bit_steps (m + n) c = bit_steps n (bit_steps m c).
Proof. induction m as [|m IH]; intros c; simpl; [done | apply IH]. Qed.

Lemma bit_step_shiftl y k : 0 <= k -> bit_step (Z.shiftl y (k + 1)) = Z.shiftl y k.
Proof.
  intros Hk. unfold bit_step.
  assert (Z.odd (Z.shiftl y (k + 1)) = false) as ->.
  { rewrite <- Z.bit0_odd. apply Z.shiftl_spec_low. lia. }
  rewrite Z.lxor_0_r, Z.shiftr_shiftl_l by lia. f_equal. lia.
Qed.

(** Shifting in [n] zero bits and stepping [n] times undoes itself. *)
Lemma bit_steps_shiftl n : forall y, bit_steps n (Z.shiftl y (Z.of_nat n)) = y.
Proof.
  induction n as [|n IH]; intros y; [apply Z.shiftl_0_r|].
  rewrite Nat2Z.inj_succ, <- Z.add_1_r. cbn [bit_steps].
  rewrite bit_step_shiftl by lia. apply IH.
Qed.

Lemma bit_step_u32 c : in_u32 c -> in_u32 (bit_step c).
Proof.
  intros H. unfold bit_step. apply lxor_u32; [by apply shiftr_u32|].
  destruct (Z.odd c); unfold in_u32, CRC32C_POLY; lia.
Qed.

Lemma bit_steps_u32 n : forall c, in_u32 c -> in_u32 (bit_steps n c).
Proof. induction n; intros c H; simpl; auto using bit_step_u32. Qed.

(** Only the zero register steps to zero: the polynomial's top bit is set. *)
Lemma bit_step_zero z : in_u32 z -> bit_step z = 0 -> z = 0.
Proof.
  intros Hz H. unfold bit_step in H. apply Z.lxor_eq in H.
  assert (Z.testbit (Z.shiftr z 1) 31 = false) as Hb.
  { rewrite Z.shiftr_spec by lia. apply (testbit_above 32); [exact Hz | lia]. }
  destruct (Z.odd z) eqn:Ho.
  - rewrite H in Hb. discriminate Hb.
  - rewrite Z.shiftr_div_pow2 in H by lia.
    rewrite Zodd_mod in Ho. apply Z.eqb_neq in Ho.
    unfold in_u32 in Hz. change (2 ^ 1) with 2 in H.
    Z.div_mod_to_equations. lia.
Qed.

Lemma bit_steps_zero n : forall z, in_u32 z -> bit_steps n z = 0 -> z = 0.
Proof.
  induction n as [|n IH]; intros z Hz H; simpl in H; [done|].
  apply bit_step_zero; [done|]. apply IH; auto using bit_step_u32.
Qed.

Lemma bit_steps_inj n a b :
  in_u32 a -> in_u32 b -> bit_steps n a = bit_steps n b -> a = b.
Proof.
  intros Ha Hb H. apply Z.lxor_eq, (bit_steps_zero n); [by apply lxor_u32|].
  by rewrite bit_steps_lxor, H, Z.lxor_nilpotent.
Qed.

(** *** The tables hold what the polynomial gives *)

Definition table_is (t : list Z) (n : nat) : bool :=
  forallb (fun i => table_at t i =? bit_steps n i) (seqZ 0 256).

Lemma table_is_at t n i : table_is t n = true -> in_u8 i -> table_at t i = bit_steps n i.
Proof.
  unfold table_is. rewrite forallb_forall. intros H Hi.
  apply Z.eqb_eq, H. apply list_elem_of_In, elem_of_seqZ. unfold in_u8 in Hi. lia.
Qed.

(** What each of the nine arrays contains: entry [i] is byte [i] stepped as
    often as the position it is used at requires. *)
Definition tables_ok : Prop :=
  table_is sctp_crc_c 8 = true /\ table_is sctp_crc_tableil8_o32 8 = true /\
  table_is sctp_crc_tableil8_o40 16 = true /\ table_is sctp_crc_tableil8_o48 24 = true /\
  table_is sctp_crc_tableil8_o56 32 = true /\ table_is sctp_crc_tableil8_o64 40 = true /\
  table_is sctp_crc_tableil8_o72 48 = true /\ table_is sctp_crc_tableil8_o80 56 = true /\
  table_is sctp_crc_tableil8_o88 64 = true.

Lemma tables_correct : tables_ok.
Proof. unfold tables_ok. repeat split; vm_compute; reflexivity. Qed.

Lemma table_at_steps t n x : table_is t n = true -> table_at t (x .& 0xFF) = bit_steps n (x .& 0xFF).
Proof. intros H. apply table_is_at; auto with sctp. Qed.

(** *** Splitting a word into its low byte and the rest *)

Lemma split_low_byte x : x = (x .& 0xFF) ⊕ Z.shiftl (Z.shiftr x 8) 8.
Proof.
  apply Z.bits_inj'. intros i Hi.
  rewrite Z.lxor_spec, Z.land_spec.
  change 0xFF with (Z.ones 8).
  destruct (Z.lt_ge_cases i 8).
  - rewrite Z.ones_spec_low, Z.shiftl_spec_low by lia. by destruct (Z.testbit x i).
  - rewrite Z.ones_spec_high, Z.shiftl_spec_high, Z.shiftr_spec by lia.
    rewrite andb_false_r. simpl. f_equal. lia.
Qed.

(** Stepping a shifted word: the shift by whole bytes shortens the run. *)
Lemma bit_steps_shifted k m x :
  bit_steps (k + m) (Z.shiftl x (Z.of_nat k)) = bit_steps m x.
Proof. by rewrite bit_steps_add, bit_steps_shiftl. Qed.

(** Peeling the low byte off before [8 + m] steps. *)
Lemma bit_steps_peel m x :
  bit_steps (8 + m) x = bit_steps (8 + m) (x .& 0xFF) ⊕ bit_steps m (Z.shiftr x 8).
Proof.
  rewrite (split_low_byte x) at 1. rewrite bit_steps_lxor. f_equal.
  apply (bit_steps_shifted 8).
Qed.

(** The table-driven byte step of the code is the eightfold bit step. *)
Lemma byte_step_table t c b :
  table_is t 8 = true -> in_u8 b ->
  table_at t ((c ⊕ b) .& 0xFF) ⊕ Z.shiftr c 8 = crc32c_byte c b.
Proof.
  intros Ht Hb. unfold crc32c_byte.
  change (bit_steps 8 (c ⊕ b)) with (bit_steps (8 + 0) (c ⊕ b)).
  rewrite bit_steps_peel, (table_at_steps _ 8) by done. f_equal. simpl.
  rewrite Z.shiftr_lxor.
  assert (Z.shiftr b 8 = 0) as ->.
  { rewrite Z.shiftr_div_pow2 by lia. apply Z.div_small. exact Hb. }
  by rewrite Z.lxor_0_r.
Qed.

(** *** Whole buffers *)

(** The bytes of a buffer as one little-endian number. *)
Fixpoint le_word (l : list Z) : Z :=
  match l with
  | [] => 0
  | b :: l => b ⊕ Z.shiftl (le_word l) 8
  end.

(** [n] bytes at once: [8 * n] bit steps of the register xored with the bytes. *)
Lemma crc32c_ref_word l : forall c,
  crc32c_ref c l = bit_steps (8 * length l) (c ⊕ le_word l).
Proof.
  induction l as [|b l IH]; intros c.
  - simpl. by rewrite Z.lxor_0_r.
  - change (crc32c_ref c (b :: l)) with (crc32c_ref (crc32c_byte c b) l).
    rewrite IH. cbn [length le_word].
    replace (8 * S (length l))%nat with (8 + 8 * length l)%nat by lia.
    rewrite bit_steps_add. f_equal. unfold crc32c_byte.
    rewrite <- (bit_steps_shiftl 8 (le_word l)) at 1.
    by rewrite <- bit_steps_lxor, Z.lxor_assoc.
Qed.

Lemma crc32c_ref_app c l1 l2 : crc32c_ref c (l1 ++ l2) = crc32c_ref (crc32c_ref c l1) l2.
Proof. apply foldl_app. Qed.

Lemma crc32c_ref_cons c b l : crc32c_ref c (b :: l) = crc32c_ref (crc32c_byte c b) l.
Proof. done. Qed.

Lemma crc32c_byte_u32 c b : in_u32 c -> in_u8 b -> in_u32 (crc32c_byte c b).
Proof.
  intros Hc Hb. unfold crc32c_byte. apply bit_steps_u32, lxor_u32; [done|].
  unfold in_u8, in_u32 in *. lia.
Qed.

Lemma crc32c_byte_inj c b b' :
  in_u32 c -> in_u8 b -> in_u8 b' -> crc32c_byte c b = crc32c_byte c b' -> b = b'.
Proof.
  unfold crc32c_byte. generalize 8%nat as n. intros n Hc Hb Hb' H.
  assert (in_u32 b /\ in_u32 b') as [Hw Hw'] by (unfold in_u8, in_u32 in *; lia).
  apply (bit_steps_inj n _ _ (lxor_u32 c b Hc Hw) (lxor_u32 c b' Hc Hw')) in H.
  apply (f_equal (Z.lxor c)) in H.
  by rewrite <- !Z.lxor_assoc, !Z.lxor_nilpotent, !Z.lxor_0_l in H.
Qed.

Lemma crc32c_ref_u32 l : forall c, in_u32 c -> bytes_ok l -> in_u32 (crc32c_ref c l).
Proof.
  induction l as [|b l IH]; intros c Hc Hl; [done|]. inversion_clear Hl as [|? ? Hb Hl'].
  rewrite crc32c_ref_cons. apply IH; [|done]. by apply crc32c_byte_u32.
Qed.

Lemma byte_loop_ref t : table_is t 8 = true -> forall n c p,
  bytes_ok p -> (n <= length p)%nat ->
  crc_byte_loop t n c p = Some (crc32c_ref c (take n p), drop n p).
Proof.
  intros Ht n. induction n as [|n IH]; intros c p Hp Hn; [done|].
  destruct p as [|b p]; simpl in Hn; [lia|]. inversion_clear Hp as [|? ? Hb Hp'].
  cbn [crc_byte_loop read_u8]. simpl. rewrite byte_step_table by done.
  rewrite IH by (done || lia). done.
Qed.

(** [or] of bytes at disjoint positions is [xor]. *)
Lemma lor_shiftl_byte b x : in_u8 b -> b .| Z.shiftl x 8 = b ⊕ Z.shiftl x 8.
Proof.
  intros Hb. apply Z.bits_inj'. intros i Hi. rewrite Z.lxor_spec, Z.lor_spec.
  destruct (Z.lt_ge_cases i 8).
  - rewrite Z.shiftl_spec_low by lia. by destruct (Z.testbit b i).
  - rewrite (testbit_above 8 b) by (exact Hb || lia). by destruct (Z.testbit (Z.shiftl x 8) i).
Qed.

Lemma read_u32_word l :
  bytes_ok l -> (4 <= length l)%nat -> read_u32 l = Some (le_word (take 4 l), drop 4 l).
Proof.
  intros Hl Hn. destruct l as [|b0 [|b1 [|b2 [|b3 l]]]]; simpl in Hn; try lia.
  inversion_clear Hl as [|? ? H0 Hl1]. inversion_clear Hl1 as [|? ? H1 Hl2].
  inversion_clear Hl2 as [|? ? H2 Hl3]. simpl. do 2 f_equal.
  rewrite Z.lxor_0_r.
  rewrite <- (lor_shiftl_byte b2), <- (lor_shiftl_byte b1), <- (lor_shiftl_byte b0) by done.
  rewrite !Z.shiftl_lor, !Z.shiftl_shiftl by lia. by rewrite !Z.lor_assoc.
Qed.

Lemma le_word_app l1 l2 :
  le_word (l1 ++ l2) = le_word l1 ⊕ Z.shiftl (le_word l2) (Z.of_nat (8 * length l1)).
Proof.
  induction l1 as [|b l1 IH]; cbn [app le_word length]; [by rewrite Z.shiftl_0_r|].
  rewrite IH, Z.shiftl_lxor, Z.shiftl_shiftl, Z.lxor_assoc by lia. do 3 f_equal. lia.
Qed.

Lemma le_word_bound l : bytes_ok l -> 0 <= le_word l < 2 ^ Z.of_nat (8 * length l).
Proof.
  induction 1 as [|b l Hb Hl IH]; [simpl; lia|]. cbn [le_word length].
  assert (2 ^ Z.of_nat (8 * S (length l)) = 256 * 2 ^ Z.of_nat (8 * length l)) as Hpow.
  { change 256 with (2 ^ 8). rewrite <- Z.pow_add_r by lia. f_equal. lia. }
  rewrite Hpow. rewrite <- Hpow. apply lxor_bound; [lia|..]; rewrite Hpow.
  - unfold in_u8 in Hb. lia.
  - rewrite Z.shiftl_mul_pow2 by lia. change (2 ^ 8) with 256. lia.
Qed.

(** A 32-bit word stepped at least 32 times, byte by byte: the shape of the
    four lookups the slicing loop makes per word. *)
Lemma bit_steps_word m x :
  in_u32 x ->
  bit_steps (32 + m) x =
    bit_steps (32 + m) (x .& 0xFF) ⊕ bit_steps (24 + m) (Z.shiftr x 8 .& 0xFF)
    ⊕ (bit_steps (16 + m) (Z.shiftr x 16 .& 0xFF)
       ⊕ bit_steps (8 + m) (Z.shiftr (Z.shiftr x 16) 8 .& 0xFF)).
Proof.
  intros Hx. rewrite !Z.lxor_assoc.
  refine (eq_trans (bit_steps_peel (24 + m) x) (f_equal (Z.lxor _) _)).
  refine (eq_trans (bit_steps_peel (16 + m) _) (f_equal (Z.lxor _) _)).
  rewrite (Z.shiftr_shiftr x 8 8) by lia. change (8 + 8) with 16.
  refine (eq_trans (bit_steps_peel (8 + m) _) (f_equal (Z.lxor _) _)).
  refine (eq_trans (bit_steps_peel m _) _).
  assert (Z.shiftr (Z.shiftr (Z.shiftr x 16) 8) 8 = 0) as ->.
  { rewrite !Z.shiftr_shiftr, Z.shiftr_div_pow2 by lia. apply Z.div_small. exact Hx. }
  assert (bit_steps m 0 = 0) as ->.
  { pose proof (bit_steps_shiftl m 0) as H. by rewrite Z.shiftl_0_l in H. }
  by rewrite Z.lxor_0_r.
Qed.

Lemma bit_steps_two_words x y :
  bit_steps 64 (x ⊕ Z.shiftl y 32) = bit_steps 64 x ⊕ bit_steps 32 y.
Proof. rewrite bit_steps_lxor. f_equal. apply (bit_steps_shifted 32 32). Qed.

(** One iteration of the slicing loop is eight bytes of the reference. *)
Lemma sb8_iteration_ref c l :
  in_u32 c -> bytes_ok l -> (8 <= length l)%nat ->
  sb8_iteration c l = Some (crc32c_ref c (take 8 l), drop 8 l).
Proof.
  intros Hc Hl Hn.
  unfold sb8_iteration. rewrite read_u32_word by (done || lia). cbn [mbind option_bind].
  assert (bytes_ok (drop 4 l)) by (by apply Forall_drop).
  rewrite read_u32_word by (done || (rewrite length_drop; lia)). cbn [mbind option_bind].
  rewrite drop_drop. change (4 + 4)%nat with 8%nat. do 2 f_equal.
  set (w0 := le_word (take 4 l)). set (w1 := le_word (take 4 (drop 4 l))).
  assert (in_u32 w0) as Hw0.
  { pose proof (le_word_bound (take 4 l) (Forall_take _ 4 l Hl)) as Hw.
    rewrite length_take_le in Hw by lia. exact Hw. }
  assert (in_u32 w1) as Hw1.
  { pose proof (le_word_bound (take 4 (drop 4 l))) as H'. rewrite length_take_le in H'.
    - apply H', Forall_take. done.
    - rewrite length_drop. lia. }
  rewrite crc32c_ref_word, length_take_le by lia.
  replace (take 8 l) with (take 4 l ++ take 4 (drop 4 l)) by (by rewrite take_take_drop).
  rewrite le_word_app, length_take_le by lia. fold w0 w1.
  transitivity (bit_steps 64 (c ⊕ w0 ⊕ Z.shiftl w1 32)); [|by rewrite Z.lxor_assoc].
  assert (in_u32 (c ⊕ w0)) as Hcw by (by apply lxor_u32).
  rewrite bit_steps_two_words, (bit_steps_word 32 _ Hcw : bit_steps 64 _ = _),
    (bit_steps_word 0 _ Hw1 : bit_steps 32 _ = _).
  destruct tables_correct as (_&T32&T40&T48&T56&T64&T72&T80&T88).
  rewrite (table_at_steps _ _ _ T32), (table_at_steps _ _ _ T40), (table_at_steps _ _ _ T48),
    (table_at_steps _ _ _ T56), (table_at_steps _ _ _ T64), (table_at_steps _ _ _ T72),
    (table_at_steps _ _ _ T80), (table_at_steps _ _ _ T88).
  rewrite !Z.lxor_assoc. reflexivity.
Qed.

Lemma sb8_loop_ref n : forall c l,
  in_u32 c -> bytes_ok l -> (8 * n <= length l)%nat ->
  sb8_loop n c l = Some (crc32c_ref c (take (8 * n) l), drop (8 * n) l).
Proof.
  induction n as [|n IH]; intros c l Hc Hl Hn; [done|]. cbn [sb8_loop].
  rewrite sb8_iteration_ref by (done || lia). cbn [mbind option_bind].
  rewrite IH.
  - replace (8 * S n)%nat with (8 + 8 * n)%nat by lia.
    by rewrite <- take_take_drop, crc32c_ref_app, drop_drop.
  - apply crc32c_ref_u32; [done | by apply Forall_take].
  - by apply Forall_drop.
  - rewrite length_drop. lia.
Qed.

Lemma single_loop_ref n : forall c l,
  bytes_ok l -> (n <= length l)%nat -> singletable_loop n c l = Some (crc32c_ref c (take n l)).
Proof.
  induction n as [|n IH]; intros c l Hl Hn; [done|].
  destruct l as [|b l]; simpl in Hn; [lia|]. inversion_clear Hl as [|? ? Hb Hl'].
  cbn [singletable_loop read_u8 mbind option_bind]. unfold SCTP_CRC32C.
  rewrite Z.lxor_comm, (byte_step_table _ _ _ (proj1 tables_correct) Hb).
  rewrite IH by (done || lia). done.
Qed.

(** The slicing routine with any split into prologue, body and epilogue. *)
Lemma sb8_64_bit_ref crc l len init :
  in_u32 crc -> bytes_ok l -> in_u32 len -> 0 <= init <= len -> len <= Z.of_nat (length l) ->
  sctp_crc32c_sb8_64_bit crc l len init = Some (crc32c_ref crc (take (Z.to_nat len) l)).
Proof.
  intros Hc Hl Hlen Hi Hn. unfold sctp_crc32c_sb8_64_bit.
  assert (u32 (u32 (len - init) / 8 * 8) = (len - init) / 8 * 8) as ->.
  { rewrite !u32_id; width_lia. }
  set (k := (len - init) / 8). assert (0 <= k /\ k * 8 <= len - init < k * 8 + 8) as Hk.
  { subst k. Z.div_mod_to_equations. lia. }
  rewrite (u32_id (len - init - k * 8)) by width_lia.
  rewrite Z.div_mul by lia.
  rewrite (byte_loop_ref _ (proj1 (proj2 tables_correct))) by (done || lia).
  cbn [mbind option_bind].
  rewrite sb8_loop_ref.
  - cbn [mbind option_bind].
    rewrite (byte_loop_ref _ (proj1 (proj2 tables_correct))).
    + cbn [mbind option_bind]. f_equal.
      rewrite drop_drop, <- !crc32c_ref_app, app_assoc, !take_take_drop. do 2 f_equal. lia.
    + by repeat apply Forall_drop.
    + rewrite !length_drop. lia.
  - apply crc32c_ref_u32; [done | by apply Forall_take].
  - by apply Forall_drop.
  - rewrite length_drop. lia.
Qed.

Lemma calculate_crc32c_ref crc addr l len :
  in_u32 crc -> bytes_ok l -> in_u32 len -> len <= Z.of_nat (length l) ->
  calculate_crc32c crc addr l len = Some (crc32c_ref crc (take (Z.to_nat len) l)).
Proof.
  intros Hc Hl Hlen Hn. unfold calculate_crc32c, multitable_crc32c. zbool.
  - apply single_loop_ref; [done | unfold in_u32 in Hlen; lia].
  - lia.
  - apply sb8_64_bit_ref; try done. change 3 with (Z.ones 2). rewrite Z.land_ones by lia.
    rewrite u32_id; width_lia.
Qed.

(** *** The mbuf walk *)

Definition chain_bytes (m : list mbuf) : list Z := concat (map m_bytes m).

Definition chain_ok (m : list mbuf) : Prop :=
  Forall (fun b => bytes_ok (m_bytes b) /\ in_u32 (SCTP_BUF_LEN b)) m.

Lemma cksum_walk_0 m : forall base, chain_ok m -> in_u32 base ->
  cksum_walk m 0 base = Some (crc32c_ref base (chain_bytes m)).
Proof.
  induction m as [|b m IH]; intros base Hm Hb; [done|].
  inversion_clear Hm as [|? ? [Hby Hlen] Hm']. cbn [cksum_walk chain_bytes map concat].
  rewrite Z.sub_0_r, (u32_id _ Hlen). change (0 =? 0) with true. cbn [drop Z.to_nat].
  change (concat (map m_bytes m)) with (chain_bytes m).
  assert (forall base', base' = crc32c_ref base (m_bytes b) -> in_u32 base' ->
    cksum_walk m 0 base' = Some (crc32c_ref base (m_bytes b ++ chain_bytes m))) as Hrest.
  { intros base' -> Hb'. rewrite IH by done. by rewrite crc32c_ref_app. }
  destruct (Z.ltb_spec 0 (SCTP_BUF_LEN b)) as [Hpos|Hz].
  - rewrite calculate_crc32c_ref by (done || unfold SCTP_BUF_LEN; lia). cbn [mbind option_bind].
    apply Hrest; unfold SCTP_BUF_LEN; rewrite Nat2Z.id, firstn_all; auto using crc32c_ref_u32.
  - cbn [mbind option_bind]. apply Hrest; [|done].
    unfold SCTP_BUF_LEN in Hz. by rewrite (nil_length_inv (m_bytes b)) by lia.
Qed.

Lemma cksum_walk_off b m off base :
  chain_ok (b :: m) -> in_u32 base -> 0 <= off <= SCTP_BUF_LEN b ->
  cksum_walk (b :: m) off base =
    Some (crc32c_ref base (drop (Z.to_nat off) (chain_bytes (b :: m)))).
Proof.
  intros Hm Hb Hoff. inversion_clear Hm as [|? ? [Hby Hlen] Hm'].
  cbn [cksum_walk chain_bytes map concat].
  change (concat (map m_bytes m)) with (chain_bytes m).
  rewrite (u32_id (SCTP_BUF_LEN b - off)) by width_lia. unfold SCTP_BUF_LEN in *.
  rewrite drop_app_le by lia. rewrite crc32c_ref_app.
  assert ((if off =? 0 then off else if off <? Z.of_nat (length (m_bytes b)) then 0
           else off -u32 Z.of_nat (length (m_bytes b))) = 0) as ->.
  { zbool; try lia. rewrite u32_id; width_lia. }
  destruct (Z.ltb_spec 0 (Z.of_nat (length (m_bytes b)) - off)).
  - rewrite calculate_crc32c_ref.
    + cbn [mbind option_bind]. rewrite firstn_all2 by (rewrite length_drop; lia).
      apply cksum_walk_0; [done|]. apply crc32c_ref_u32; [done | by apply Forall_drop].
    + done.
    + by apply Forall_drop.
    + width_lia.
    + rewrite length_drop. lia.
  - cbn [mbind option_bind]. rewrite cksum_walk_0 by done.
    by rewrite (drop_ge (m_bytes b)) by lia.
Qed.

Lemma cksum_seek_spec m : forall off, chain_ok m -> in_u32 off ->
  let '(at_, off') := cksum_seek m off in
  match at_ with
  | [] => m = [] \/ Z.of_nat (length (chain_bytes m)) < off
  | b :: _ => chain_ok at_ /\ 0 <= off' <= SCTP_BUF_LEN b
      /\ drop (Z.to_nat off') (chain_bytes at_) = drop (Z.to_nat off) (chain_bytes m)
      /\ off <= Z.of_nat (length (chain_bytes m))
  end.
Proof.
  induction m as [|b m IH]; intros off Hm Hoff; [by left|].
  cbn [cksum_seek]. destruct (Z.ltb_spec (SCTP_BUF_LEN b) off) as [Hlt|Hge].
  - inversion_clear Hm as [|? ? [Hby Hlen] Hm']. unfold SCTP_BUF_LEN in *.
    assert (in_u32 (off - Z.of_nat (length (m_bytes b)))) as Hoff' by width_lia.
    rewrite u32_id by done. specialize (IH _ Hm' Hoff').
    destruct (cksum_seek m _) as [at_ off'] eqn:E.
    change (chain_bytes (b :: m)) with (m_bytes b ++ chain_bytes m). rewrite length_app.
    destruct at_ as [|b' at_].
    + right. destruct IH as [->|]; simpl in *; lia.
    + destruct IH as (H1&H2&H3&H4). split_and!; try done; [lia.. | |lia].
      rewrite H3, drop_app_ge by lia. f_equal. lia.
  - split_and!; try done; unfold in_u32 in Hoff; [lia|].
    unfold chain_bytes, SCTP_BUF_LEN in *. cbn [map concat]. rewrite length_app. lia.
Qed.

(** ** Properties *)

(** C7. the checksum routine, whatever mix of single-byte, unaligned prologue,
    word-wise slicing and epilogue it uses for the buffer's address and length,
    reads only inside the buffer and returns exactly the bit-serial division of
    the bytes by the Castagnoli polynomial. *)
Theorem calculate_crc32c_correct (crc addr len : Z) (buf : list Z)
  (Hcrc : in_u32 crc) (Hbuf : bytes_ok buf) (Hlen : in_u32 len)
  (Hfit : len <= Z.of_nat (length buf)) :
  calculate_crc32c crc addr buf len = Some (crc32c_ref crc (take (Z.to_nat len) buf)).
Proof. by apply calculate_crc32c_ref. Qed.

Lemma calculate_crc32c_correct_witness :
  calculate_crc32c 0xFFFFFFFF 4097 (replicate 21 0xA5) 21
    = Some (crc32c_ref 0xFFFFFFFF (take 21 (replicate 21 0xA5))).
Proof.
  apply (calculate_crc32c_correct 0xFFFFFFFF 4097 21 (replicate 21 0xA5));
    [unfold in_u32; lia | apply Forall_replicate; unfold in_u8; lia
    | unfold in_u32; lia | simpl; lia].
Defined.

Lemma calculate_cksum_ref (m : list mbuf) (offset : Z) : chain_ok m -> in_u32 offset ->
  sctp_calculate_cksum m offset = Some (crc32c (drop (Z.to_nat offset) (chain_bytes m))).
Proof.
  intros Hm Hoff. unfold sctp_calculate_cksum. pose proof (cksum_seek_spec m offset Hm Hoff) as H.
  destruct (cksum_seek m offset) as [at_ off']. destruct at_ as [|b at_].
  - cbn [cksum_walk mbind option_bind]. do 2 f_equal.
    rewrite drop_ge; [done|]. destruct H as [->|]; simpl; lia.
  - destruct H as (H1&H2&H3&_). rewrite cksum_walk_off by (done || unfold in_u32; lia).
    by rewrite H3.
Qed.

(** C8. over an mbuf chain the checksum is the CRC of the chain's bytes from the
    offset on, however they are split into buffers and wherever those lie in
    memory; an offset past the end of the chain gives the checksum of no bytes. *)
Theorem sctp_calculate_cksum_correct (m : list mbuf) (offset : Z)
  (Hm : chain_ok m) (Hoff : in_u32 offset) :
  sctp_calculate_cksum m offset =
    Some (crc32c (drop (Z.to_nat offset) (chain_bytes m))).
Proof. by apply calculate_cksum_ref. Qed.

Lemma sctp_calculate_cksum_correct_witness :
  sctp_calculate_cksum [Mbuf 4096 [1; 2; 3]; Mbuf 8193 [4; 5; 6; 7; 8; 9; 10; 11; 12; 13]] 2
    = Some (crc32c (drop 2 (chain_bytes
        [Mbuf 4096 [1; 2; 3]; Mbuf 8193 [4; 5; 6; 7; 8; 9; 10; 11; 12; 13]]))).
Proof.
  apply (sctp_calculate_cksum_correct
    [Mbuf 4096 [1; 2; 3]; Mbuf 8193 [4; 5; 6; 7; 8; 9; 10; 11; 12; 13]] 2);
    [|unfold in_u32; lia].
  repeat constructor; unfold in_u8, in_u32, SCTP_BUF_LEN; simpl; lia.
Defined.

Lemma crc32c_ref_inj l : forall c d, in_u32 c -> in_u32 d -> bytes_ok l ->
  crc32c_ref c l = crc32c_ref d l -> c = d.
Proof.
  intros c d Hc Hd Hl. rewrite !crc32c_ref_word, !bit_steps_lxor.
  intros H. apply Z.lxor_eq, (bit_steps_zero (8 * length l)); [by apply lxor_u32|].
  rewrite bit_steps_lxor.
  apply (f_equal (fun z => z ⊕ bit_steps (8 * length l) (le_word l))) in H.
  rewrite !Z.lxor_assoc, !Z.lxor_nilpotent, !Z.lxor_0_r in H. by rewrite H, Z.lxor_nilpotent.
Qed.

Lemma crc32c_ref_byte_inj c pre post b b' :
  in_u32 c -> bytes_ok pre -> bytes_ok post -> in_u8 b -> in_u8 b' ->
  crc32c_ref c (pre ++ b :: post) = crc32c_ref c (pre ++ b' :: post) -> b = b'.
Proof.
  intros Hc Hpre Hpost Hb Hb' H. rewrite !crc32c_ref_app, !crc32c_ref_cons in H.
  pose proof (crc32c_ref_u32 pre c Hc Hpre) as Hmid. revert Hmid H.
  generalize (crc32c_ref c pre) as d. intros d Hd H.
  apply crc32c_ref_inj in H; [| by apply crc32c_byte_u32 .. | done].
  by apply crc32c_byte_inj in H.
Qed.

Lemma finalize_inj x y :
  in_u32 x -> in_u32 y -> sctp_finalize_crc32c x = sctp_finalize_crc32c y -> x = y.
Proof. unfold sctp_finalize_crc32c, Z.lnot. intros Hx Hy. width_lia. Qed.

Lemma crc32c_byte_error pre post b b' :
  bytes_ok pre -> bytes_ok post -> in_u8 b -> in_u8 b' ->
  crc32c (pre ++ b :: post) = crc32c (pre ++ b' :: post) -> b = b'.
Proof.
  intros Hpre Hpost Hb Hb' H. unfold crc32c in H.
  assert (in_u32 0xFFFFFFFF) as Hinit by (unfold in_u32; lia).
  revert H Hinit. generalize 0xFFFFFFFF as c. intros c H Hinit.
  apply finalize_inj in H;
    [| apply crc32c_ref_u32; [done | by apply Forall_app; split; [|constructor]] ..].
  by apply crc32c_ref_byte_inj in H.
Qed.

Lemma chain_ok_bytes m : chain_ok m -> bytes_ok (chain_bytes m).
Proof.
  induction 1 as [|b m [Hb _] _ IH]; [constructor|]. apply Forall_app. by split.
Qed.

(** C9. A packet in which one byte after the offset was corrupted, whatever the
    corruption and whatever surrounds it, and however sender and receiver split
    it into buffers, has a different checksum: every single-byte error is
    detected. *)
Theorem cksum_detects_byte_error (m m' : list mbuf) (offset : Z) (pre post : list Z) (b b' : Z)
  (Hm : chain_ok m) (Hm' : chain_ok m') (Hoff : 0 <= offset <= Z.of_nat (length pre))
  (H32 : in_u32 offset)
  (Hbytes : chain_bytes m = pre ++ b :: post) (Hbytes' : chain_bytes m' = pre ++ b' :: post)
  (Hne : b <> b') :
  sctp_calculate_cksum m offset <> sctp_calculate_cksum m' offset.
Proof.
  rewrite !calculate_cksum_ref by done. intros [= H]. apply Hne.
  pose proof (chain_ok_bytes m Hm) as Hb. pose proof (chain_ok_bytes m' Hm') as Hb'.
  rewrite Hbytes, Hbytes', !drop_app_le in H by lia. rewrite Hbytes in Hb. rewrite Hbytes' in Hb'.
  apply Forall_app in Hb as [Hpre [Hb1 Hpost]%Forall_cons].
  apply Forall_app in Hb' as [_ [Hb1' _]%Forall_cons].
  by apply crc32c_byte_error in H; [| apply Forall_drop | ..].
Qed.

Lemma cksum_detects_byte_error_witness :
  sctp_calculate_cksum [Mbuf 4096 [1; 2; 3]; Mbuf 8193 [4; 5]] 1
    <> sctp_calculate_cksum [Mbuf 4099 [1; 2; 131; 4; 5]] 1.
Proof.
  apply (cksum_detects_byte_error [Mbuf 4096 [1; 2; 3]; Mbuf 8193 [4; 5]]
    [Mbuf 4099 [1; 2; 131; 4; 5]] 1 [1; 2] [4; 5] 3 131);
    [repeat constructor; unfold in_u8, in_u32, SCTP_BUF_LEN; simpl; lia
    | repeat constructor; unfold in_u8, in_u32, SCTP_BUF_LEN; simpl; lia
    | simpl; lia | unfold in_u32; lia | reflexivity | reflexivity | lia].
Defined.
