(* ===== verification/Sha1.v ===== *)
(** * SHA-1: [sctp_sha1.c]

    The hash under SCTP's HMAC: a context that collects 64-byte blocks
    ([sctp_sha1_init], [sctp_sha1_update], [sctp_sha1_final]) and the compression
    of one block ([sctp_sha1_process_a_block]).  The reference is SHA-1 as
    FIPS 180-1 states it: pad the whole message, split it into blocks, fold the
    compression function.  A [memcpy] outside its operands is [None]. *)

From S2P Require Import Prelude.

Open Scope sctp_scope.

(** ** Code *)

Definition F1 (B C D : Z) : Z := (B .& C) .| (u32 (Z.lnot B) .& D).
Definition F2 (B C D : Z) : Z := B ⊕ C ⊕ D.
Definition F3 (B C D : Z) : Z := (B .& C) .| (B .& D) .| (C .& D).
Definition F4 (B C D : Z) : Z := B ⊕ C ⊕ D.

Definition CSHIFT (A B : Z) : Z := u32 (Z.shiftl B A) .| Z.shiftr B (32 - A).

Definition K1 : Z := 0x5a827999.
Definition K2 : Z := 0x6ed9eba1.
Definition K3 : Z := 0x8f1bbcdc.
Definition K4 : Z := 0xca62c1d6.

Definition H0INIT : Z := 0x67452301.
Definition H1INIT : Z := 0xefcdab89.
Definition H2INIT : Z := 0x98badcfe.
Definition H3INIT : Z := 0x10325476.
Definition H4INIT : Z := 0xc3d2e1f0.

(** [struct sctp_sha1_context].  The chaining variables, the working variables
    and the message schedule are kept in it, as in the source. *)
Record sctp_sha1_context := Sha1Ctx {
  ctx_A : Z; ctx_B : Z; ctx_C : Z; ctx_D : Z; ctx_E : Z;
  ctx_H0 : Z; ctx_H1 : Z; ctx_H2 : Z; ctx_H3 : Z; ctx_H4 : Z;
  ctx_words : list Z;
  ctx_TEMP : Z;
  ctx_block : list Z;
  ctx_how_many_in_block : Z;
  ctx_running_total : Z
}.

Definition set_work (c : sctp_sha1_context) (A B C D E TEMP : Z) : sctp_sha1_context :=
  Sha1Ctx A B C D E (ctx_H0 c) (ctx_H1 c) (ctx_H2 c) (ctx_H3 c) (ctx_H4 c)
    (ctx_words c) TEMP (ctx_block c) (ctx_how_many_in_block c) (ctx_running_total c).

Definition set_words (c : sctp_sha1_context) (w : list Z) : sctp_sha1_context :=
  Sha1Ctx (ctx_A c) (ctx_B c) (ctx_C c) (ctx_D c) (ctx_E c)
    (ctx_H0 c) (ctx_H1 c) (ctx_H2 c) (ctx_H3 c) (ctx_H4 c)
    w (ctx_TEMP c) (ctx_block c) (ctx_how_many_in_block c) (ctx_running_total c).

Definition set_hash (c : sctp_sha1_context) (h0 h1 h2 h3 h4 : Z) : sctp_sha1_context :=
  Sha1Ctx (ctx_A c) (ctx_B c) (ctx_C c) (ctx_D c) (ctx_E c) h0 h1 h2 h3 h4
    (ctx_words c) (ctx_TEMP c) (ctx_block c) (ctx_how_many_in_block c) (ctx_running_total c).

Definition set_fill (c : sctp_sha1_context) (block : list Z) (how total : Z)
  : sctp_sha1_context :=
  Sha1Ctx (ctx_A c) (ctx_B c) (ctx_C c) (ctx_D c) (ctx_E c)
    (ctx_H0 c) (ctx_H1 c) (ctx_H2 c) (ctx_H3 c) (ctx_H4 c)
    (ctx_words c) (ctx_TEMP c) block how total.

(** [sctp_sha1_init]: everything but [sha_block], which keeps what the memory
    held. *)
Definition sctp_sha1_init (garbage : list Z) : sctp_sha1_context :=
  Sha1Ctx 0 0 0 0 0 H0INIT H1INIT H2INIT H3INIT H4INIT (replicate 80 0) 0 garbage 0 0.

(** [ntohl(block[i])]: four bytes in network order. *)
Definition be32 (block : list Z) (i : nat) : Z :=
  Z.shiftl (nth (4 * i) block 0) 24 .| Z.shiftl (nth (4 * i + 1) block 0) 16
  .| Z.shiftl (nth (4 * i + 2) block 0) 8 .| nth (4 * i + 3) block 0.

Definition load_word (block : list Z) (words : list Z) (i : nat) : list Z :=
  <[i := be32 block i]> words.

Definition expand_word (words : list Z) (i : nat) : list Z :=
  <[i := CSHIFT 1 (nth (i - 3) words 0 ⊕ nth (i - 8) words 0
                   ⊕ nth (i - 14) words 0 ⊕ nth (i - 16) words 0)]> words.

(** One iteration of step d). *)
Definition sha1_round (c : sctp_sha1_context) (i : nat) : sctp_sha1_context :=
  let f := if (i <? 20)%nat then F1 else if (i <? 40)%nat then F2
           else if (i <? 60)%nat then F3 else F4 in
  let k := if (i <? 20)%nat then K1 else if (i <? 40)%nat then K2
           else if (i <? 60)%nat then K3 else K4 in
  let TEMP := u32 (CSHIFT 5 (ctx_A c) + f (ctx_B c) (ctx_C c) (ctx_D c)
                   + ctx_E c + nth i (ctx_words c) 0 + k) in
  set_work c TEMP (ctx_A c) (CSHIFT 30 (ctx_B c)) (ctx_C c) (ctx_D c) TEMP.

(** Steps a) and b): the message schedule, computed in place in [words]. *)
Definition sha1_schedule (block words : list Z) : list Z :=
  foldl expand_word (foldl (load_word block) words (seq 0 16)) (seq 16 64).

(** Step c). *)
Definition sha1_start (c : sctp_sha1_context) : sctp_sha1_context :=
  set_work c (ctx_H0 c) (ctx_H1 c) (ctx_H2 c) (ctx_H3 c) (ctx_H4 c) (ctx_TEMP c).

(** Step e). *)
Definition sha1_add (c : sctp_sha1_context) : sctp_sha1_context :=
  set_hash c (u32 (ctx_H0 c + ctx_A c)) (u32 (ctx_H1 c + ctx_B c)) (u32 (ctx_H2 c + ctx_C c))
    (u32 (ctx_H3 c + ctx_D c)) (u32 (ctx_H4 c + ctx_E c)).

Definition sctp_sha1_process_a_block (c : sctp_sha1_context) (block : list Z)
  : sctp_sha1_context :=
  let c := set_words c (sha1_schedule block (ctx_words c)) in
  let c := sha1_start c in
  let c := foldl sha1_round c (seq 0 80) in
  sha1_add c.

(** [memcpy(&sha_block[off], ptr, n)]. *)
Definition block_memcpy (block : list Z) (off : Z) (ptr : list Z) (n : Z) : option (list Z) :=
  if (0 <=? off) && (off + n <=? Z.of_nat (length block)) && (n <=? Z.of_nat (length ptr))
  then Some (take (Z.to_nat off) block ++ take (Z.to_nat n) ptr
             ++ drop (Z.to_nat (off + n)) block)
  else None.

(** The [while (number_left > 0)] loop; every iteration but the last consumes
    at least one byte, so [siz + 1] iterations are enough. *)
Fixpoint sha1_update_loop (fuel : nat) (c : sctp_sha1_context) (ptr : list Z)
  (number_left : Z) : option sctp_sha1_context :=
  match fuel with
  | O => None
  | S fuel =>
      if 0 <? number_left then
        let left_to_fill := u32 (64 - ctx_how_many_in_block c) in
        if number_left <? left_to_fill then
          block ← block_memcpy (ctx_block c) (ctx_how_many_in_block c) ptr number_left;
          Some (set_fill c block (ctx_how_many_in_block c + number_left)
                  (ctx_running_total c +u32 number_left))
        else
          block ← block_memcpy (ctx_block c) (ctx_how_many_in_block c) ptr left_to_fill;
          let c := set_fill c block (ctx_how_many_in_block c) (ctx_running_total c) in
          let c := sctp_sha1_process_a_block c (ctx_block c) in
          let number_left := number_left -u32 left_to_fill in
          let c := set_fill c (ctx_block c) 0 (ctx_running_total c +u32 left_to_fill) in
          sha1_update_loop fuel c (drop (Z.to_nat left_to_fill) ptr) number_left
      else Some c
  end.

Definition sctp_sha1_update (c : sctp_sha1_context) (ptr : list Z) (siz : Z)
  : option sctp_sha1_context :=
  sha1_update_loop (S (Z.to_nat siz)) c ptr siz.

(** [for (i = from; i < sizeof(sha_block); i++) sha_block[i] = 0]. *)
Definition zero_from (block : list Z) (from : nat) : list Z :=
  foldl (fun b i => <[i := 0]> b) block (seq from (64 - from)).

(** [*(unsigned int * )&sha_block[60] = htonl(total)]. *)
Definition put_size (block : list Z) (total : Z) : list Z :=
  <[60%nat := Z.shiftr total 24 .& 0xff]>
  (<[61%nat := Z.shiftr total 16 .& 0xff]>
  (<[62%nat := Z.shiftr total 8 .& 0xff]>
  (<[63%nat := total .& 0xff]> block))).

(** [digest[3] = H & 0xff; ... digest[0] = (H >> 24) & 0xff]. *)
Definition digest_word (h : Z) : list Z :=
  [Z.shiftr h 24 .& 0xff; Z.shiftr h 16 .& 0xff; Z.shiftr h 8 .& 0xff; h .& 0xff].

Definition set_block (c : sctp_sha1_context) (block : list Z) : sctp_sha1_context :=
  set_fill c block (ctx_how_many_in_block c) (ctx_running_total c).

Definition sctp_sha1_final (c : sctp_sha1_context) : list Z * sctp_sha1_context :=
  let how := Z.to_nat (ctx_how_many_in_block c) in
  let c :=
    if 55 <? ctx_how_many_in_block c then
      let left_to_fill := 64 - ctx_how_many_in_block c in
      let c :=
        if left_to_fill =? 0 then
          let c := sctp_sha1_process_a_block c (ctx_block c) in
          set_block c (zero_from (<[0%nat := 0x80]> (ctx_block c)) 1)
        else if left_to_fill =? 1 then
          let c := set_block c (<[how := 0x80]> (ctx_block c)) in
          let c := sctp_sha1_process_a_block c (ctx_block c) in
          set_block c (replicate 64 0)
        else
          let c := set_block c (<[how := 0x80]> (ctx_block c)) in
          let c := set_block c (zero_from (ctx_block c) (how + 1)) in
          let c := sctp_sha1_process_a_block c (ctx_block c) in
          set_block c (replicate 64 0) in
      let c := set_fill c (ctx_block c) (ctx_how_many_in_block c) (u32 (ctx_running_total c * 8)) in
      let c := set_block c (put_size (ctx_block c) (ctx_running_total c)) in
      sctp_sha1_process_a_block c (ctx_block c)
    else
      let c := set_block c (<[how := 0x80]> (ctx_block c)) in
      let c := set_block c (zero_from (ctx_block c) (how + 1)) in
      let c := set_fill c (ctx_block c) (ctx_how_many_in_block c) (u32 (ctx_running_total c * 8)) in
      let c := set_block c (put_size (ctx_block c) (ctx_running_total c)) in
      sctp_sha1_process_a_block c (ctx_block c) in
  (digest_word (ctx_H0 c) ++ digest_word (ctx_H1 c) ++ digest_word (ctx_H2 c)
   ++ digest_word (ctx_H3 c) ++ digest_word (ctx_H4 c), c).

(** ** Reference: FIPS 180-1

    [S^n] and the functions [f_t] are the standard's; [sha1_W] is the message
    schedule, [compress] the processing of one block, [sha1_pad] the padding. *)

Definition sha1_state : Type := Z * Z * Z * Z * Z.

Definition sha1_H : sha1_state := (H0INIT, H1INIT, H2INIT, H3INIT, H4INIT).

Fixpoint sha1_W (block : list Z) (n : nat) : list Z :=
  match n with
  | O => map (be32 block) (seq 0 16)
  | S n =>
      let w := sha1_W block n in
      w ++ [CSHIFT 1 (nth (13 + n) w 0 ⊕ nth (8 + n) w 0 ⊕ nth (2 + n) w 0 ⊕ nth n w 0)]
  end.

Definition sha1_f (t : nat) : Z -> Z -> Z -> Z :=
  if (t <? 20)%nat then F1 else if (t <? 40)%nat then F2
  else if (t <? 60)%nat then F3 else F4.

Definition sha1_K (t : nat) : Z :=
  if (t <? 20)%nat then K1 else if (t <? 40)%nat then K2
  else if (t <? 60)%nat then K3 else K4.

Definition sha1_step (W : list Z) (s : sha1_state) (t : nat) : sha1_state :=
  let '(A, B, C, D, E) := s in
  (u32 (CSHIFT 5 A + sha1_f t B C D + E + nth t W 0 + sha1_K t), A, CSHIFT 30 B, C, D).

Definition compress (s : sha1_state) (block : list Z) : sha1_state :=
  let '(H0, H1, H2, H3, H4) := s in
  let '(A, B, C, D, E) := foldl (sha1_step (sha1_W block 64)) s (seq 0 80) in
  (u32 (H0 + A), u32 (H1 + B), u32 (H2 + C), u32 (H3 + D), u32 (H4 + E)).

(** The 64-bit big-endian length field. *)
Definition be64_bytes (z : Z) : list Z := digest_word (z / 4294967296) ++ digest_word (u32 z).

Definition sha1_pad (m : list Z) : list Z :=
  let n := length m in
  m ++ [0x80] ++ replicate ((119 - n mod 64) mod 64) 0 ++ be64_bytes (8 * Z.of_nat n).

Fixpoint blocks64 (n : nat) (p : list Z) : list (list Z) :=
  match n with
  | O => []
  | S n => take 64 p :: blocks64 n (drop 64 p)
  end.

Definition sha1 (m : list Z) : list Z :=
  let p := sha1_pad m in
  let '(H0, H1, H2, H3, H4) := foldl compress sha1_H (blocks64 (length p / 64) p) in
  digest_word H0 ++ digest_word H1 ++ digest_word H2 ++ digest_word H3 ++ digest_word H4.

(** The standard's first test vector, ["abc"]. *)
Example sha1_abc :
  sha1 [97; 98; 99] =
    [0xa9; 0x99; 0x3e; 0x36; 0x47; 0x06; 0x81; 0x6a; 0xba; 0x3e;
     0x25; 0x71; 0x78; 0x50; 0xc2; 0x6c; 0x9c; 0xd0; 0xd8; 0x9d].
Proof. vm_compute. reflexivity. Qed.

(** ** The compression function *)

Definition ctx_hash (c : sctp_sha1_context) : sha1_state :=
  (ctx_H0 c, ctx_H1 c, ctx_H2 c, ctx_H3 c, ctx_H4 c).

Definition ctx_work (c : sctp_sha1_context) : sha1_state :=
  (ctx_A c, ctx_B c, ctx_C c, ctx_D c, ctx_E c).

Lemma length_sha1_W block n : length (sha1_W block n) = (16 + n)%nat.
Proof. induction n as [|n IH]; [done|]. cbn [sha1_W]. rewrite length_app, IH. simpl. lia. Qed.

(** Writing slots [k .. k + n - 1] in order only depends on the slots before. *)
Lemma load_words_prefix block w : length w = 80%nat -> forall n, (n <= 16)%nat ->
  let w' := foldl (load_word block) w (seq 0 n) in
  length w' = 80%nat /\ take n w' = map (be32 block) (seq 0 n).
Proof.
  intros Hw n. induction n as [|n IH]; intros Hn; [done|].
  destruct IH as [IHl IHt]; [lia|]. rewrite seq_S, foldl_app. cbn [foldl Nat.add].
  unfold load_word at 1 3. split; [by rewrite length_insert|].
  rewrite (take_S_r _ _ (be32 block n)) by (apply list_lookup_insert_eq; lia).
  by rewrite take_insert_ge, IHt, map_app by lia.
Qed.

Lemma nth_take {A} (d : A) l i n : (i < n)%nat -> nth i l d = nth i (take n l) d.
Proof.
  revert i n. induction l as [|x l IH]; intros i n Hi; destruct n, i; try lia; try done.
  simpl. apply IH. lia.
Qed.

Lemma expand_words_prefix block w : length w = 80%nat -> take 16 w = sha1_W block 0 ->
  forall n, (n <= 64)%nat ->
  let w' := foldl expand_word w (seq 16 n) in
  length w' = 80%nat /\ take (16 + n) w' = sha1_W block n.
Proof.
  intros Hw H16 n. induction n as [|n IH]; intros Hn; [by rewrite Nat.add_0_r|].
  destruct IH as [IHl IHt]; [lia|]. rewrite seq_S, foldl_app. cbn [foldl sha1_W].
  unfold expand_word at 1 3. split; [by rewrite length_insert|].
  replace (16 + S n)%nat with (S (16 + n)) by lia.
  erewrite take_S_r by (apply list_lookup_insert_eq; lia).
  rewrite take_insert_ge, IHt by lia. do 2 f_equal.
  rewrite (nth_take 0 _ (16 + n - 3) (16 + n)), (nth_take 0 _ (16 + n - 8) (16 + n)),
    (nth_take 0 _ (16 + n - 14) (16 + n)), (nth_take 0 _ (16 + n - 16) (16 + n)), IHt by lia.
  replace (16 + n - 3)%nat with (13 + n)%nat by lia.
  replace (16 + n - 8)%nat with (8 + n)%nat by lia.
  replace (16 + n - 14)%nat with (2 + n)%nat by lia.
  by replace (16 + n - 16)%nat with n by lia.
Qed.

Lemma rounds_work l : forall c,
  let c' := foldl sha1_round c l in
  ctx_work c' = foldl (sha1_step (ctx_words c)) (ctx_work c) l /\ ctx_hash c' = ctx_hash c
  /\ ctx_words c' = ctx_words c /\ ctx_block c' = ctx_block c
  /\ ctx_how_many_in_block c' = ctx_how_many_in_block c
  /\ ctx_running_total c' = ctx_running_total c.
Proof.
  induction l as [|i l IH]; intros c; [done|]. cbn [foldl].
  destruct (IH (sha1_round c i)) as (E1&E2&E3&E4&E5&E6).
  split_and!; [rewrite E1; done | rewrite E2; done | rewrite E3; done
    | rewrite E4; done | rewrite E5; done | rewrite E6; done].
Qed.

(** Steps c) to e) of the routine over an arbitrary schedule. *)
Lemma rounds_and_add c W l :
  let c' := sha1_add (foldl sha1_round (sha1_start (set_words c W)) l) in
  ctx_hash c' =
    (let '(H0, H1, H2, H3, H4) := ctx_hash c in
     let '(A, B, C, D, E) := foldl (sha1_step W) (ctx_hash c) l in
     (u32 (H0 + A), u32 (H1 + B), u32 (H2 + C), u32 (H3 + D), u32 (H4 + E)))
  /\ ctx_words c' = W /\ ctx_block c' = ctx_block c
  /\ ctx_how_many_in_block c' = ctx_how_many_in_block c
  /\ ctx_running_total c' = ctx_running_total c.
Proof.
  pose proof (rounds_work l (sha1_start (set_words c W))) as H. cbv zeta in H.
  revert H. generalize (foldl sha1_round (sha1_start (set_words c W)) l) as c2.
  intros c2 (E1&E2&E3&E4&E5&E6).
  split_and!; [| exact E3 | exact E4 | exact E5 | exact E6].
  change (ctx_words (sha1_start (set_words c W))) with W in E1.
  change (ctx_work (sha1_start (set_words c W))) with (ctx_hash c) in E1.
  rewrite <- E1. unfold ctx_hash, ctx_work in *.
  injection E2 as E20 E21 E22 E23 E24. cbn [sha1_add set_hash ctx_H0 ctx_H1 ctx_H2 ctx_H3 ctx_H4].
  by rewrite E20, E21, E22, E23, E24.
Qed.

Lemma sha1_schedule_W block words :
  length words = 80%nat -> sha1_schedule block words = sha1_W block 64.
Proof.
  intros Hw. destruct (load_words_prefix block _ Hw 16 (le_n 16)) as [Hl1 Ht1].
  destruct (expand_words_prefix block _ Hl1 Ht1 64 (le_n 64)) as [Hl2 Ht2].
  unfold sha1_schedule. rewrite <- Ht2. symmetry. apply firstn_all2. rewrite Hl2. apply le_n.
Qed.

(** One call of the code's block routine is one application of the compression
    function; the collecting fields are not touched. *)
Lemma process_a_block_compress c block :
  length (ctx_words c) = 80%nat ->
  let c' := sctp_sha1_process_a_block c block in
  ctx_hash c' = compress (ctx_hash c) block /\ length (ctx_words c') = 80%nat
  /\ ctx_block c' = ctx_block c /\ ctx_how_many_in_block c' = ctx_how_many_in_block c
  /\ ctx_running_total c' = ctx_running_total c.
Proof.
  intros Hw. unfold sctp_sha1_process_a_block, compress. cbv zeta.
  rewrite (sha1_schedule_W block _ Hw).
  pose proof (rounds_and_add c (sha1_W block 64) (seq 0 80)) as H. cbv zeta in H.
  revert H. generalize (seq 0 80) as l. intros l (H1&H2&H3&H4&H5).
  split_and!; [exact H1 | | exact H3 | exact H4 | exact H5].
  rewrite H2. apply length_sha1_W.
Qed.

(** ** The context as an abstraction of the bytes hashed so far *)

#[local] Opaque compress sctp_sha1_process_a_block.

(** [absorbed c m]: the context is what hashing message [m] leaves, whole blocks
    folded into the chaining variables and the rest at the front of
    [sha_block]. *)
Record absorbed_as (c : sctp_sha1_context) (m : list Z) (bl : list (list Z)) (rest : list Z)
  : Prop := Absorbed {
  ab_split : m = concat bl ++ rest;
  ab_blocks : Forall (fun b => length b = 64%nat) bl;
  ab_rest : (length rest < 64)%nat;
  ab_how : ctx_how_many_in_block c = Z.of_nat (length rest);
  ab_prefix : take (length rest) (ctx_block c) = rest;
  ab_block : length (ctx_block c) = 64%nat;
  ab_words : length (ctx_words c) = 80%nat;
  ab_hash : ctx_hash c = foldl compress sha1_H bl;
  ab_total : ctx_running_total c = u32 (Z.of_nat (length m))
}.

Definition absorbed (c : sctp_sha1_context) (m : list Z) : Prop :=
  exists bl rest, absorbed_as c m bl rest.

Lemma init_absorbed garbage : length garbage = 64%nat -> absorbed (sctp_sha1_init garbage) [].
Proof. intros H. exists [], []. constructor; try done; simpl; lia. Qed.

Lemma ctx_block_set_fill c block how total : ctx_block (set_fill c block how total) = block.
Proof. reflexivity. Qed.

Lemma memcpy_inside block off ptr n :
  0 <= off -> 0 <= n -> off + n <= Z.of_nat (length block) -> n <= Z.of_nat (length ptr) ->
  block_memcpy block off ptr n =
    Some (take (Z.to_nat off) block ++ take (Z.to_nat n) ptr ++ drop (Z.to_nat (off + n)) block).
Proof. intros. unfold block_memcpy. zbool; try lia. done. Qed.

(** A partial fill: the new bytes fit the block without completing it. *)
Lemma fill_partial c m bl rest data :
  absorbed_as c m bl rest -> (length rest + length data < 64)%nat ->
  exists block,
    block_memcpy (ctx_block c) (ctx_how_many_in_block c) data (Z.of_nat (length data)) = Some block
    /\ absorbed_as (set_fill c block (ctx_how_many_in_block c + Z.of_nat (length data))
         (ctx_running_total c +u32 Z.of_nat (length data))) (m ++ data) bl (rest ++ data).
Proof.
  intros [Hs Hb Hr Hh Hp Hl Hw Hash Ht] Hlt. eexists. split.
  { apply memcpy_inside; lia. }
  rewrite Hh, Nat2Z.id, Hp, Nat2Z.id, firstn_all.
  constructor; cbn [set_fill ctx_how_many_in_block ctx_block ctx_words ctx_running_total]; try done.
  - by rewrite Hs, app_assoc.
  - by rewrite length_app.
  - by rewrite length_app, Nat2Z.inj_add.
  - rewrite app_assoc, take_app_le, firstn_all by lia. done.
  - rewrite !length_app, length_drop. lia.
  - rewrite Ht, length_app. unfold u32. rewrite Nat2Z.inj_add, Zplus_mod_idemp_l. done.
Qed.

(** The context after a completed block [block] was compressed into [c1]. *)
Lemma block_done c c1 m bl rest new block :
  absorbed_as c m bl rest -> block = rest ++ new -> length block = 64%nat ->
  ctx_hash c1 = compress (ctx_hash c) block -> length (ctx_words c1) = 80%nat ->
  length (ctx_block c1) = 64%nat -> ctx_running_total c1 = ctx_running_total c ->
  absorbed_as (set_fill c1 (ctx_block c1) 0 (ctx_running_total c1 +u32 Z.of_nat (length new)))
    (m ++ new) (bl ++ [block]) [].
Proof.
  intros [Hs Hb Hr Hh Hp Hl Hw Hash Ht] -> H64 E1 E2 E3 E5. constructor.
  - rewrite concat_app, app_nil_r, Hs. cbn [concat]. by rewrite app_nil_r, app_assoc.
  - apply Forall_app. split; [exact Hb | by constructor].
  - simpl. lia.
  - reflexivity.
  - apply take_0.
  - exact E3.
  - exact E2.
  - rewrite foldl_app. cbn [foldl]. rewrite <- Hash. exact E1.
  - cbn [set_fill ctx_running_total]. rewrite E5, Ht, length_app.
    unfold u32. by rewrite Nat2Z.inj_add, Zplus_mod_idemp_l.
Qed.

(** A completing fill: the first [64 - how] new bytes make a block, which is
    compressed. *)
Lemma fill_block c m bl rest data :
  absorbed_as c m bl rest -> (64 - length rest <= length data)%nat ->
  let k := (64 - length rest)%nat in
  let block := rest ++ take k data in
  block_memcpy (ctx_block c) (ctx_how_many_in_block c) data (Z.of_nat k) = Some block
  /\ forall c1, c1 = sctp_sha1_process_a_block
                      (set_fill c block (ctx_how_many_in_block c) (ctx_running_total c)) block ->
     absorbed_as (set_fill c1 (ctx_block c1) 0 (ctx_running_total c1 +u32 Z.of_nat k))
       (m ++ take k data) (bl ++ [block]) [].
Proof.
  intros Hab Hge k block. pose proof Hab as [Hs Hb Hr Hh Hp Hl Hw Hash Ht].
  assert (length block = 64%nat) as H64.
  { unfold block. rewrite length_app, length_take. lia. }
  split.
  { rewrite memcpy_inside by lia. rewrite Hh, Nat2Z.id, Hp, Nat2Z.id.
    rewrite (drop_ge (ctx_block c)), app_nil_r by lia. done. }
  intros c1 Hc1.
  pose proof (process_a_block_compress
    (set_fill c block (ctx_how_many_in_block c) (ctx_running_total c)) block Hw) as E.
  cbv zeta in E. rewrite <- Hc1 in E. clear Hc1. destruct E as (E1&E2&E3&E4&E5).
  replace k with (length (take k data)) at 1 by (rewrite length_take_le; lia).
  apply (block_done c c1 m bl rest); [exact Hab | reflexivity | exact H64 | exact E1 | exact E2 | | exact E5].
  rewrite E3. exact H64.
Qed.

Lemma update_loop_absorbs fuel : forall c m data,
  absorbed c m -> Z.of_nat (length data) < 4294967296 -> (length data < fuel)%nat ->
  exists c', sha1_update_loop fuel c data (Z.of_nat (length data)) = Some c'
             /\ absorbed c' (m ++ data).
Proof.
  induction fuel as [|fuel IH]; intros c m data Hc Hlen Hf; [lia|]. cbn [sha1_update_loop].
  destruct (Z.ltb_spec 0 (Z.of_nat (length data))) as [Hpos|Hz].
  2: { exists c. rewrite (nil_length_inv data) by lia. by rewrite app_nil_r. }
  destruct Hc as (bl & rest & Hab).
  assert (u32 (64 - ctx_how_many_in_block c) = Z.of_nat (64 - length rest)) as ->.
  { rewrite (ab_how _ _ _ _ Hab). pose proof (ab_rest _ _ _ _ Hab). rewrite u32_id; width_lia. }
  pose proof (ab_rest _ _ _ _ Hab) as Hr.
  destruct (Z.ltb_spec (Z.of_nat (length data)) (Z.of_nat (64 - length rest))) as [Hlt|Hge].
  - destruct (fill_partial c m bl rest data Hab) as (block & -> & H); [lia|].
    cbn [mbind option_bind]. eexists. split; [done|]. by exists bl, (rest ++ data).
  - destruct (fill_block c m bl rest data Hab) as (-> & H); [lia|].
    set (k := (64 - length rest)%nat) in *. set (block := rest ++ take k data) in *.
    cbn [mbind option_bind]. rewrite ctx_block_set_fill, Nat2Z.id. specialize (H _ eq_refl).
    revert H. generalize (sctp_sha1_process_a_block (set_fill c block (ctx_how_many_in_block c)
      (ctx_running_total c)) block) as c1. intros c1 H.
    rewrite (u32_id (Z.of_nat (length data) - Z.of_nat k)) by (unfold in_u32; lia).
    replace (Z.of_nat (length data) - Z.of_nat k) with (Z.of_nat (length (drop k data)))
      by (rewrite length_drop; lia).
    destruct (IH (set_fill c1 (ctx_block c1) 0 (ctx_running_total c1 +u32 Z.of_nat k))
      (m ++ take k data) (drop k data)) as (c' & Hc' & Hab').
    { by exists (bl ++ [block]), []. }
    { rewrite length_drop. lia. }
    { rewrite length_drop. lia. }
    exists c'. split; [exact Hc'|]. by rewrite <- app_assoc, take_drop in Hab'.
Qed.

(** *** Finalisation *)

Definition digest_of (s : sha1_state) : list Z :=
  let '(H0, H1, H2, H3, H4) := s in
  digest_word H0 ++ digest_word H1 ++ digest_word H2 ++ digest_word H3 ++ digest_word H4.

Lemma length_concat64 (bl : list (list Z)) :
  Forall (fun b => length b = 64%nat) bl -> length (concat bl) = (64 * length bl)%nat.
Proof. induction 1 as [|b bl Hb _ IH]; [done|]. cbn [concat length]. rewrite length_app. lia. Qed.

Lemma blocks64_concat (bl : list (list Z)) :
  Forall (fun b => length b = 64%nat) bl -> blocks64 (length bl) (concat bl) = bl.
Proof.
  induction 1 as [|b bl Hb _ IH]; [done|]. cbn [concat length blocks64].
  by rewrite take_app_length', drop_app_length', IH by done.
Qed.

Lemma sha1_of_blocks m bl :
  sha1_pad m = concat bl -> Forall (fun b => length b = 64%nat) bl ->
  sha1 m = digest_of (foldl compress sha1_H bl).
Proof.
  intros Hp Hb. unfold sha1. rewrite Hp, length_concat64 by done.
  rewrite Nat.mul_comm, Nat.div_mul by lia. by rewrite blocks64_concat.
Qed.

Lemma zero_from_spec block from : length block = 64%nat -> (from <= 64)%nat ->
  zero_from block from = take from block ++ replicate (64 - from) 0.
Proof.
  intros Hl Hf. unfold zero_from.
  assert (forall n, (from + n <= 64)%nat ->
    foldl (fun b i => <[i := 0]> b) block (seq from n)
      = take from block ++ replicate n 0 ++ drop (from + n) block) as Hn.
  { induction n as [|n IH]; intros Hle; [simpl; by rewrite Nat.add_0_r, take_drop|].
    rewrite seq_S, foldl_app, IH by lia. cbn [foldl].
    rewrite insert_app_r_alt, length_take, insert_app_r_alt, length_replicate
      by (rewrite ?length_take, ?length_replicate; lia).
    destruct (lookup_lt_is_Some_2 block (from + n)) as [x Hx]; [lia|].
    rewrite (drop_S _ _ _ Hx).
    replace (from + n - from `min` length block - n)%nat with 0%nat by lia.
    cbn [insert list_insert]. rewrite replicate_S_end, <- app_assoc.
    by replace (from + S n)%nat with (S (from + n)) by lia. }
  rewrite Hn by lia. rewrite (drop_ge block), app_nil_r by lia. done.
Qed.

Lemma put_size_spec block t : length block = 64%nat ->
  put_size block t = take 60 block ++ digest_word t.
Proof.
  intros Hl. unfold put_size, digest_word.
  rewrite <- (take_drop 60 block) at 1.
  assert (length (take 60 block) = 60%nat) as H60 by (rewrite length_take; lia).
  assert (length (drop 60 block) = 4%nat) as H4 by (rewrite length_drop; lia).
  destruct (drop 60 block) as [|a [|b [|c [|d [|]]]]]; try discriminate H4.
  by rewrite !insert_app_r_alt, !H60 by lia.
Qed.

(** Rewriting a context through the setters and the block routine. *)
(** The context [c] holds chaining state [s], block [b] and byte count [t]. *)
Definition holds (c : sctp_sha1_context) (s : sha1_state) (b : list Z) (h t : Z) : Prop :=
  ctx_hash c = s /\ length (ctx_words c) = 80%nat /\ ctx_block c = b
  /\ ctx_how_many_in_block c = h /\ ctx_running_total c = t.

Lemma holds_set_block f c s b h t :
  holds c s b h t -> holds (set_block c (f (ctx_block c))) s (f b) h t.
Proof. intros (H1&H2&<-&H4&H5). exact (conj H1 (conj H2 (conj eq_refl (conj H4 H5)))). Qed.

Lemma holds_bits c s b h t :
  holds c s b h t ->
  holds (set_fill c (ctx_block c) (ctx_how_many_in_block c) (u32 (ctx_running_total c * 8)))
    s b h (u32 (t * 8)).
Proof. intros (H1&H2&<-&<-&<-). exact (conj H1 (conj H2 (conj eq_refl (conj eq_refl eq_refl)))). Qed.

Lemma holds_put_size c s b h t :
  holds c s b h t ->
  holds (set_block c (put_size (ctx_block c) (ctx_running_total c))) s (put_size b t) h t.
Proof. intros (H1&H2&<-&<-&<-). exact (conj H1 (conj H2 (conj eq_refl (conj eq_refl eq_refl)))). Qed.

Lemma holds_process c s b h t :
  holds c s b h t -> holds (sctp_sha1_process_a_block c (ctx_block c)) (compress s b) b h t.
Proof.
  intros (<-&H2&<-&<-&<-). unfold holds.
  pose proof (process_a_block_compress c (ctx_block c) H2) as E. cbv zeta in E.
  exact E.
Qed.

Lemma mark_and_zero block rest :
  length block = 64%nat -> take (length rest) block = rest -> (length rest < 64)%nat ->
  zero_from (<[length rest := 0x80]> block) (length rest + 1)
    = rest ++ [0x80] ++ replicate (63 - length rest) 0.
Proof.
  intros Hl Hp Hr. rewrite zero_from_spec by (rewrite ?length_insert; lia).
  rewrite Nat.add_1_r, (take_S_r _ _ 0x80) by (apply list_lookup_insert_eq; lia).
  rewrite take_insert_ge, Hp, <- app_assoc by lia. do 3 f_equal; lia.
Qed.

(** What the last block or blocks are, by how much is left. *)
Definition final_blocks (rest : list Z) (t : Z) : list (list Z) :=
  if (55 <? length rest)%nat
  then [rest ++ [0x80] ++ replicate (63 - length rest) 0; replicate 60 0 ++ digest_word t]
  else [rest ++ [0x80] ++ replicate (59 - length rest) 0 ++ digest_word t].

(** Both orders of filling the first of two last blocks give the same bytes. *)
Lemma first_of_two block rest :
  length block = 64%nat -> take (length rest) block = rest -> length rest = 63%nat ->
  <[length rest := 0x80]> block = rest ++ [0x80] ++ replicate (63 - length rest) 0.
Proof.
  intros Hl Hp Hr. rewrite <- (mark_and_zero block) by (done || lia).
  rewrite zero_from_spec by (rewrite ?length_insert; lia).
  rewrite firstn_all2 by (rewrite length_insert; lia).
  rewrite Hr. by rewrite app_nil_r.
Qed.

Lemma single_last block rest t :
  length block = 64%nat -> take (length rest) block = rest -> (length rest <= 55)%nat ->
  put_size (zero_from (<[length rest := 0x80]> block) (length rest + 1)) t
    = rest ++ [0x80] ++ replicate (59 - length rest) 0 ++ digest_word t.
Proof.
  intros Hl Hp Hr. rewrite mark_and_zero by (done || lia).
  rewrite put_size_spec by (rewrite !length_app, length_replicate; simpl; lia).
  rewrite take_app_ge, take_app_ge, take_replicate by (simpl; lia). simpl length.
  rewrite <- !app_assoc. do 3 f_equal; f_equal; lia.
Qed.

Lemma final_holds c m bl rest :
  absorbed_as c m bl rest ->
  let t := u32 (ctx_running_total c * 8) in
  exists b, length b = 64%nat
    /\ holds (sctp_sha1_final c).2 (foldl compress (ctx_hash c) (final_blocks rest t)) b
         (ctx_how_many_in_block c) t.
Proof.
  intros [Hs Hb Hr Hh Hp Hl Hw Hash Ht] t.
  assert (holds c (ctx_hash c) (ctx_block c) (ctx_how_many_in_block c) (ctx_running_total c))
    as Hc by (exact (conj eq_refl (conj Hw (conj eq_refl (conj eq_refl eq_refl))))).
  unfold sctp_sha1_final, final_blocks. cbv zeta. cbn [snd].
  rewrite Hh, Nat2Z.id. rewrite Hh in Hc.
  destruct (Z.ltb_spec 55 (Z.of_nat (length rest))) as [H55|H55];
    destruct (Nat.ltb_spec 55 (length rest)) as [H55'|H55']; try lia; cbn [foldl].
  - destruct (Z.eqb_spec (64 - Z.of_nat (length rest)) 0); [lia|].
    rewrite <- (put_size_spec (replicate 64 0) t (length_replicate 64 0) : _ = replicate 60 0 ++ _).
    exists (put_size (replicate 64 0) t).
    split; [unfold put_size; by rewrite !length_insert|].
    apply holds_process, holds_put_size, holds_bits.
    destruct (Z.eqb_spec (64 - Z.of_nat (length rest)) 1) as [H63|H63].
    + apply (holds_set_block (fun _ => replicate 64 0)
               _ _ (<[length rest := 0x80]> (ctx_block c))).
      rewrite <- (first_of_two (ctx_block c)) by (done || lia).
      by apply holds_process, (holds_set_block (insert (length rest) 0x80)).
    + apply (holds_set_block (fun _ => replicate 64 0) _ _
               (zero_from (<[length rest := 0x80]> (ctx_block c)) (length rest + 1))).
      rewrite <- (mark_and_zero (ctx_block c)) by (done || lia).
      by apply holds_process, (holds_set_block (fun b => zero_from b (length rest + 1))),
        (holds_set_block (insert (length rest) 0x80)).
  - eexists. rewrite <- (single_last (ctx_block c)) by (done || lia).
    split; [|by apply holds_process, holds_put_size, holds_bits,
      (holds_set_block (fun b => zero_from b (length rest + 1))),
      (holds_set_block (insert (length rest) 0x80))].
    rewrite single_last by (done || lia). rewrite !length_app, length_replicate. simpl. lia.
Qed.

Lemma final_blocks_pad m bl rest :
  m = concat bl ++ rest -> Forall (fun b => length b = 64%nat) bl -> (length rest < 64)%nat ->
  8 * Z.of_nat (length m) < 4294967296 ->
  sha1_pad m = concat (bl ++ final_blocks rest (8 * Z.of_nat (length m))).
Proof.
  intros Hm Hb Hr Hlen. unfold sha1_pad, be64_bytes, final_blocks.
  rewrite Z.div_small, u32_id by (unfold in_u32; lia).
  assert (length m mod 64 = length rest)%nat as ->.
  { rewrite Hm, length_app, length_concat64, Nat.add_comm, Nat.mul_comm, Nat.Div0.mod_add by done.
    by apply Nat.mod_small. }
  change (digest_word 0) with (replicate 4 0).
  rewrite concat_app, Hm at 1. rewrite <- app_assoc. f_equal.
  destruct (Nat.ltb_spec 55 (length rest)); cbn [concat]; rewrite app_nil_r.
  - rewrite Nat.mod_small by lia.
    replace (119 - length rest)%nat with ((63 - length rest) + 56)%nat by lia.
    change (replicate 60 0) with (replicate 56 0 ++ replicate 4 0).
    by rewrite replicate_add, <- !app_assoc.
  - replace (119 - length rest)%nat with ((55 - length rest) + 1 * 64)%nat by lia.
    rewrite Nat.Div0.mod_add, Nat.mod_small by lia.
    replace (59 - length rest)%nat with ((55 - length rest) + 4)%nat by lia.
    by rewrite replicate_add, <- !app_assoc.
Qed.

Lemma final_blocks_64 rest t :
  (length rest < 64)%nat -> Forall (fun b => length b = 64%nat) (final_blocks rest t).
Proof.
  intros Hr. unfold final_blocks. destruct (Nat.ltb_spec 55 (length rest)).
  - constructor; [|constructor; [done | constructor]].
    rewrite !length_app, length_replicate. simpl. lia.
  - constructor; [|constructor]. rewrite !length_app, length_replicate. simpl. lia.
Qed.

Lemma final_digest c : (sctp_sha1_final c).1 = digest_of (ctx_hash (sctp_sha1_final c).2).
Proof. unfold sctp_sha1_final. cbv zeta. cbn [fst snd]. reflexivity. Qed.

Lemma final_absorbed c m :
  absorbed c m -> 8 * Z.of_nat (length m) < 4294967296 -> (sctp_sha1_final c).1 = sha1 m.
Proof.
  intros (bl & rest & Hab) Hlen. rewrite final_digest.
  destruct (final_holds c m bl rest Hab) as (b & _ & Hh & _). rewrite Hh.
  destruct Hab as [Hs Hb Hr _ _ _ _ Hash Ht].
  rewrite Hash, Ht, (u32_id (Z.of_nat (length m))) by (unfold in_u32; lia).
  rewrite (u32_id (Z.of_nat (length m) * 8)), Z.mul_comm, <- foldl_app by (unfold in_u32; lia).
  symmetry. apply sha1_of_blocks.
  - by apply final_blocks_pad.
  - apply Forall_app. split; [done | by apply final_blocks_64].
Qed.

(** The context can be initialised again after the digest is taken. *)
Lemma final_block_length c m : absorbed c m -> length (ctx_block (sctp_sha1_final c).2) = 64%nat.
Proof.
  intros (bl & rest & Hab). destruct (final_holds c m bl rest Hab) as (b & Hl & _ & _ & -> & _). done.
Qed.

(** Hashing a message that arrives in pieces, as the HMAC code feeds it. *)
Fixpoint sha1_updates (c : sctp_sha1_context) (pieces : list (list Z))
  : option sctp_sha1_context :=
  match pieces with
  | [] => Some c
  | p :: pieces => c ← sctp_sha1_update c p (Z.of_nat (length p)); sha1_updates c pieces
  end.

Lemma updates_absorb pieces : forall c m,
  absorbed c m -> Forall (fun p => Z.of_nat (length p) < 4294967296) pieces ->
  exists c', sha1_updates c pieces = Some c' /\ absorbed c' (m ++ concat pieces).
Proof.
  induction pieces as [|p pieces IH]; intros c m Hc Hp.
  - exists c. split; [done | by rewrite app_nil_r].
  - inversion_clear Hp as [|? ? Hlen Hp']. cbn [sha1_updates concat].
    destruct (update_loop_absorbs (S (Z.to_nat (Z.of_nat (length p)))) c m p Hc Hlen)
      as (c1 & E & H1); [lia|].
    unfold sctp_sha1_update. rewrite E. cbn [mbind option_bind].
    destruct (IH c1 (m ++ p) H1 Hp') as (c2 & E2 & H2). exists c2. by rewrite app_assoc.
Qed.

(** ** Properties *)

(** C10. initialise, feed the message in any pieces, finalise: the digest is the
    FIPS 180-1 hash of the concatenation, whatever the stack memory the block
    buffer started with and wherever the pieces cut the 64-byte blocks; no copy
    leaves the block buffer or its source and the fill loop always ends.  The
    message has fewer than 2^29 bytes, the limit the 32-bit bit count sets. *)
Theorem sha1_streaming_correct (garbage : list Z) (pieces : list (list Z))
  (Hg : length garbage = 64%nat)
  (Hlen : 8 * Z.of_nat (length (concat pieces)) < 4294967296) :
  exists c, sha1_updates (sctp_sha1_init garbage) pieces = Some c
            /\ (sctp_sha1_final c).1 = sha1 (concat pieces).
Proof.
  destruct (updates_absorb pieces (sctp_sha1_init garbage) [] (init_absorbed _ Hg))
    as (c & E & Hc).
  - induction pieces as [|p pieces IH]; constructor;
      cbn [concat] in Hlen; rewrite length_app in Hlen; [lia | apply IH; lia].
  - exists c. split; [done | by apply final_absorbed].
Qed.

Lemma sha1_streaming_correct_witness :
  exists c, sha1_updates (sctp_sha1_init (replicate 64 7)) [replicate 60 1; [2; 3]; replicate 70 4] = Some c
            /\ (sctp_sha1_final c).1 = sha1 (concat [replicate 60 1; [2; 3]; replicate 70 4]).
Proof.
  apply (sha1_streaming_correct (replicate 64 7) [replicate 60 1; [2; 3]; replicate 70 4]);
    [reflexivity | reflexivity].
Defined.
