(* ===== verification/Tailq.v ===== *)
(** * Intrusive tail queues: the [TAILQ] macros of [sys/queue.h]

    A queue of objects is the list of their keys; the element's own link fields
    belong to the object and are modelled with it, where the code looks at
    them. *)

From S2P Require Import Prelude.

Definition TAILQ_FIRST (l : list nat) : option nat := head l.
Definition TAILQ_LAST (l : list nat) : option nat := last l.
Definition TAILQ_EMPTY (l : list nat) : bool := match l with [] => true | _ => false end.

(** The successor of an entry; an entry with cleared links has none. *)
Fixpoint TAILQ_NEXT (l : list nat) (p : nat) : option nat :=
  match l with
  | [] => None
  | x :: l => if decide (x = p) then head l else TAILQ_NEXT l p
  end.

Fixpoint TAILQ_PREV (l : list nat) (p : nat) : option nat :=
  match l with
  | [] => None
  | x :: l => if decide (head l = Some p) then Some x else TAILQ_PREV l p
  end.

(** Unlinking an entry that is not in the queue is undefined behaviour. *)
Definition TAILQ_REMOVE (l : list nat) (p : nat) : option (list nat) :=
  if decide (p ∈ l) then Some (filter (.≠ p) l) else None.

Definition opt_eqb (a b : option nat) : bool := bool_decide (a = b).

(** ** Lemmas the queue users share *)

Lemma tailq_next_split u x v : x ∉ u -> TAILQ_NEXT (u ++ x :: v) x = head v.
Proof.
  induction u as [|y u IH]; simpl; intros Hx.
  - by rewrite decide_True.
  - apply not_elem_of_cons in Hx as [Hy Hu]. rewrite decide_False by congruence. auto.
Qed.

Lemma tailq_next_in l x y : TAILQ_NEXT l x = Some y -> y ∈ l.
Proof.
  induction l as [|z l IH]; simpl; [done|]. case_decide; intros Hy.
  - apply elem_of_cons. right. destruct l; [done|]. injection Hy as ->. constructor.
  - apply elem_of_cons. auto.
Qed.

Lemma tailq_next_off l x : x ∉ l -> TAILQ_NEXT l x = None.
Proof.
  induction l as [|y l IH]; simpl; [done|]. intros [H1 H2]%not_elem_of_cons.
  rewrite decide_False by congruence. auto.
Qed.

Lemma tailq_remove_in l p : p ∈ l -> TAILQ_REMOVE l p = Some (filter (.≠ p) l).
Proof. intros H. unfold TAILQ_REMOVE. by rewrite decide_True. Qed.

Lemma filter_ne_app (p : nat) (u v : list nat) :
  filter (.≠ p) (u ++ v) = filter (.≠ p) u ++ filter (.≠ p) v.
Proof. apply filter_app. Qed.

Lemma filter_ne_id (p : nat) (l : list nat) : p ∉ l -> filter (.≠ p) l = l.
Proof.
  induction l as [|x l IH]; [done|]. intros [H1 H2]%not_elem_of_cons.
  rewrite filter_cons_True by congruence. by rewrite IH.
Qed.

Lemma filter_ne_split (p : nat) (u v : list nat) :
  p ∉ u -> p ∉ v -> filter (.≠ p) (u ++ p :: v) = u ++ v.
Proof.
  intros Hu Hv. rewrite filter_app, filter_cons_False by tauto.
  by rewrite !filter_ne_id.
Qed.
