(* ===== verification/StreamSched.v ===== *)
(** * Stream schedulers: [sctp_ss_functions.c]

    An association's outgoing streams queue messages; the scheduler decides which
    stream the next chunk is taken from.  Streams and messages are objects that
    several queues and fields point to, so both live in a store and pointers are
    their keys ([None] is [NULL]).  The wheel ([ss_data.out.wheel]) and the FCFS
    list ([ss_data.out.list]) are intrusive tail queues: what the code can see of
    a queue entry's links is whether both are [NULL], which is kept in the object
    ([so_linked], [sp_linked]) and is separate from the queue itself, because
    [TAILQ_INIT] and [TAILQ_REMOVE] change the queue and not the entry.  The two
    queues share a union in the source; only the installed scheduler's one is
    used, and a change of scheduler empties the old and initialises the new one.
    The send lock the functions take is not modelled: each of them runs under it. *)

From S2P Require Import Prelude Tailq.

(** ** Data *)

(** [struct sctp_stream_queue_pending]: one queued user message. *)
Record pending := Pending {
  sp_net : option nat;
  sp_length : Z;
  sp_sid : nat;
  sp_msg_is_complete : Z;
  sp_some_taken : Z;
  sp_linked : bool
}.

(** [struct sctp_stream_out] with its [ss_params], a union: after the link, which every
    scheduler has at the same place, [so_params] holds the bytes that the priority
    scheduler reads as a 16-bit priority and the fair-bandwidth one as a 32-bit number of
    rounds, least significant byte first. *)
Record stream_out := StreamOut {
  so_outqueue : list nat;
  so_linked : bool;
  so_params : Z;
  so_sid : Z
}.

Definition so_priority (s : stream_out) : Z := u16 (so_params s).
Definition so_rounds (s : stream_out) : Z := i32 (so_params s).

(** The part of [struct sctp_association] the schedulers use. *)
Record association := Asoc {
  locked_on_sending : option nat;
  last_out_stream : option nat;
  wheel : list nat;
  fcfs_list : list nat;
  strmout : list nat;
  streams : gmap nat stream_out;
  pendings : gmap nat pending;
  idata_supported : Z;
  stream_queue_cnt : Z
}.

Definition set_sched (a : association) (locked last : option nat) : association :=
  Asoc locked last (wheel a) (fcfs_list a) (strmout a) (streams a) (pendings a)
    (idata_supported a) (stream_queue_cnt a).

Definition set_wheel (a : association) (w : list nat) : association :=
  Asoc (locked_on_sending a) (last_out_stream a) w (fcfs_list a) (strmout a) (streams a)
    (pendings a) (idata_supported a) (stream_queue_cnt a).

Definition set_streams (a : association) (s : gmap nat stream_out) : association :=
  Asoc (locked_on_sending a) (last_out_stream a) (wheel a) (fcfs_list a) (strmout a) s
    (pendings a) (idata_supported a) (stream_queue_cnt a).

Definition set_fcfs (a : association) (l : list nat) (p : gmap nat pending) : association :=
  Asoc (locked_on_sending a) (last_out_stream a) (wheel a) l (strmout a) (streams a) p
    (idata_supported a) (stream_queue_cnt a).

Definition set_locked (a : association) (locked : option nat) : association :=
  set_sched a locked (last_out_stream a).

Definition set_last (a : association) (last : option nat) : association :=
  set_sched a (locked_on_sending a) last.

(** Dereferencing a stream or message pointer.  A key outside the store reads as
    an object with an empty queue; the invariants keep every used pointer in the
    store. *)
Definition strq_of (a : association) (p : nat) : stream_out :=
  default (StreamOut [] false 0 0) (streams a !! p).

Definition sp_of (a : association) (q : nat) : pending :=
  default (Pending None 0 0 0 0 false) (pendings a !! q).

Definition upd_strq (a : association) (p : nat) (f : stream_out -> stream_out) : association :=
  set_streams a (alter f p (streams a)).

Definition with_linked (b : bool) (s : stream_out) : stream_out :=
  StreamOut (so_outqueue s) b (so_params s) (so_sid s).
Definition with_priority (v : Z) (s : stream_out) : stream_out :=
  StreamOut (so_outqueue s) (so_linked s) (so_params s - u16 (so_params s) + u16 v) (so_sid s).
Definition with_rounds (v : Z) (s : stream_out) : stream_out :=
  StreamOut (so_outqueue s) (so_linked s) (u32 v) (so_sid s).
Definition sp_with_linked (b : bool) (q : pending) : pending :=
  Pending (sp_net q) (sp_length q) (sp_sid q) (sp_msg_is_complete q) (sp_some_taken q) b.

(** [TAILQ_INSERT_BEFORE] the first entry whose key is not below [key p], at the
    tail when there is none: the search loop of [rr_add] and [prio_add]. *)
Fixpoint insert_sorted (key : nat -> Z) (p : nat) (l : list nat) : list nat :=
  match l with
  | [] => [p]
  | x :: l => if key x <? key p then x :: insert_sorted key p l else p :: x :: l
  end.

(** ** The default scheduler *)

Definition queue_empty (a : association) (p : nat) : bool :=
  TAILQ_EMPTY (so_outqueue (strq_of a p)).

Definition sctp_ss_default_add (a : association) (strq : nat) (sp : option nat) : association :=
  if negb (queue_empty a strq) && negb (so_linked (strq_of a strq)) then
    let a := set_wheel a (wheel a ++ [strq]) in
    upd_strq a strq (with_linked true)
  else a.

(** [sctp_ss_default_init]: forget the wheel, then offer every stream to the
    installed scheduler's [add] ([ss_functions.sctp_ss_add_to_stream]). *)
Definition sctp_ss_default_init (add : association -> nat -> option nat -> association)
  (a : association) : association :=
  let a := set_wheel (set_sched a None None) [] in
  foldl (fun a p => add a p None) a (strmout a).

(** The [while (!TAILQ_EMPTY)] loop of the clear functions: [reset] is what is
    done to a stream before it is unlinked. *)
Definition clear_wheel (reset : stream_out -> stream_out) (a : association) : association :=
  let a := foldl (fun a p => upd_strq a p (with_linked false ∘ reset)) a (wheel a) in
  set_last (set_wheel a []) None.

Definition sctp_ss_default_clear (clear_values : Z) (a : association) : association :=
  clear_wheel (fun s => s) a.

(** The pointers that must follow a stream object that moves. *)
Definition redirect_stream (a : association) (strq : nat) (with_strq : option nat) : association :=
  match with_strq with
  | None => a
  | Some w =>
      let a := if opt_eqb (locked_on_sending a) (Some w) then set_locked a (Some strq) else a in
      if opt_eqb (last_out_stream a) (Some w) then set_last a (Some strq) else a
  end.

Definition sctp_ss_default_init_stream (a : association) (strq : nat) (with_strq : option nat)
  : association :=
  upd_strq (redirect_stream a strq with_strq) strq (with_linked false).

Definition sctp_ss_default_is_empty (a : association) : bool := TAILQ_EMPTY (wheel a).

Definition sctp_ss_default_remove (a : association) (strq : nat) (sp : option nat)
  : option association :=
  if queue_empty a strq && so_linked (strq_of a strq) then
    let a :=
      if opt_eqb (last_out_stream a) (Some strq) then
        let last := TAILQ_PREV (wheel a) strq in
        let last := match last with None => TAILQ_LAST (wheel a) | Some _ => last end in
        let last := if opt_eqb last (Some strq) then None else last in
        set_last a last
      else a in
    w ← TAILQ_REMOVE (wheel a) strq;
    Some (upd_strq (set_wheel a w) strq (with_linked false))
  else Some a.

(** The stream's first message is bound for another destination. *)
Definition bound_elsewhere (a : association) (net : nat) (strq : nat) : bool :=
  match TAILQ_FIRST (so_outqueue (strq_of a strq)) with
  | None => false
  | Some q => match sp_net (sp_of a q) with
              | None => false
              | Some n => negb (n =? net)%nat
              end
  end.

(** The check the select loops make on a candidate: [cmt] is the sysctl
    [sctp_cmt_on_off]. *)
Definition rejected (a : association) (cmt : Z) (net : option nat) (strq : option nat) : bool :=
  match net, strq with
  | Some net, Some strq => (cmt =? 0) && bound_elsewhere a net strq
  | _, _ => false
  end.

(** "Find the next stream to use". *)
Definition wheel_next (a : association) (strqt : option nat) : option nat :=
  match strqt with
  | None => TAILQ_FIRST (wheel a)
  | Some t => match TAILQ_NEXT (wheel a) t with
              | None => TAILQ_FIRST (wheel a)
              | Some n => Some n
              end
  end.

(** The [goto default_again] loop: [None] is running out of fuel, [Some r] is
    the function returning [r]. *)
Fixpoint default_again (fuel : nat) (a : association) (cmt : Z) (net strqt : option nat)
  : option (option nat) :=
  match fuel with
  | O => None
  | S fuel =>
      let strq := wheel_next a strqt in
      if rejected a cmt net strq then
        if opt_eqb strq (last_out_stream a) then Some None
        else default_again fuel a cmt net strq
      else Some strq
  end.

Definition sctp_ss_default_select (fuel : nat) (cmt : Z) (net : option nat) (a : association)
  : option (option nat) :=
  match locked_on_sending a with
  | Some s => Some (Some s)
  | None => default_again fuel a cmt net (last_out_stream a)
  end.

(** Whether the stream stays locked for the rest of a partly sent message. *)
Definition lock_after (a : association) (strq : nat) : option nat :=
  if idata_supported a =? 0 then
    match TAILQ_FIRST (so_outqueue (strq_of a strq)) with
    | Some q => if sp_some_taken (sp_of a q) =? 1 then Some strq else None
    | None => None
    end
  else None.

Definition sctp_ss_default_scheduled (a : association) (strq : nat) : association :=
  set_sched a (lock_after a strq) (Some strq).

Definition sctp_ss_default_packet_done (cmt : Z) (net : option nat) (a : association)
  : option association := Some a.

Definition sctp_ss_default_get_value (a : association) (strq : option nat) : Z * option Z :=
  (-1, None).

Definition sctp_ss_default_set_value (a : association) (strq : option nat) (value : Z)
  : option (Z * association) := Some (-1, a).

Definition sctp_ss_default_is_user_msgs_incomplete (a : association) : Z :=
  if negb (stream_queue_cnt a =? 1) then 0
  else match locked_on_sending a with
       | None => 0
       | Some strq =>
           match TAILQ_FIRST (so_outqueue (strq_of a strq)) with
           | None => 0
           | Some q => if sp_msg_is_complete (sp_of a q) =? 0 then 1 else 0
           end
       end.

(** ** Round robin *)

Definition sctp_ss_rr_add (a : association) (strq : nat) (sp : option nat) : association :=
  if negb (queue_empty a strq) && negb (so_linked (strq_of a strq)) then
    let w := if TAILQ_EMPTY (wheel a) then [strq]
             else insert_sorted (fun p => so_sid (strq_of a p)) strq (wheel a) in
    upd_strq (set_wheel a w) strq (with_linked true)
  else a.

(** ** Round robin per packet *)

Definition sctp_ss_rrp_select (fuel : nat) (cmt : Z) (net : option nat) (a : association)
  : option (option nat) := Some (last_out_stream a).

Fixpoint rrp_again (fuel : nat) (a : association) (cmt : Z) (net strqt : option nat)
  : option (option nat) :=
  match fuel with
  | O => None
  | S fuel =>
      let strq := wheel_next a strqt in
      if rejected a cmt net strq then
        if opt_eqb strq (last_out_stream a) then Some None
        else rrp_again fuel a cmt net strq
      else Some strq
  end.

Definition sctp_ss_rrp_packet_done (fuel : nat) (cmt : Z) (net : option nat) (a : association)
  : option association :=
  strq ← rrp_again fuel a cmt net (last_out_stream a);
  Some (set_last a strq).

(** ** Priority *)

Definition sctp_ss_prio_clear (clear_values : Z) (a : association) : association :=
  clear_wheel (fun s => if negb (clear_values =? 0) then with_priority 0 s else s) a.

Definition sctp_ss_prio_init_stream (a : association) (strq : nat) (with_strq : option nat)
  : association :=
  let a := upd_strq (redirect_stream a strq with_strq) strq (with_linked false) in
  upd_strq a strq
    (with_priority (match with_strq with Some w => so_priority (strq_of a w) | None => 0 end)).

Definition sctp_ss_prio_add (a : association) (strq : nat) (sp : option nat) : association :=
  if negb (queue_empty a strq) && negb (so_linked (strq_of a strq)) then
    let w := if TAILQ_EMPTY (wheel a) then [strq]
             else insert_sorted (fun p => so_priority (strq_of a p)) strq (wheel a) in
    upd_strq (set_wheel a w) strq (with_linked true)
  else a.

Definition sctp_ss_prio_remove (a : association) (strq : nat) (sp : option nat)
  : option association :=
  if queue_empty a strq && so_linked (strq_of a strq) then
    let a :=
      if opt_eqb (last_out_stream a) (Some strq) then
        let last := TAILQ_PREV (wheel a) strq in
        let last := match last with None => TAILQ_LAST (wheel a) | Some _ => last end in
        let last := if opt_eqb last (Some strq) then None else last in
        set_last a last
      else a in
    w ← TAILQ_REMOVE (wheel a) strq;
    Some (upd_strq (set_wheel a w) strq (with_linked false))
  else Some a.

Definition prio_next (a : association) (strqt : option nat) : option nat :=
  match strqt with
  | None => TAILQ_FIRST (wheel a)
  | Some t =>
      match TAILQ_NEXT (wheel a) t with
      | Some n => if so_priority (strq_of a n) =? so_priority (strq_of a t)
                  then Some n else TAILQ_FIRST (wheel a)
      | None => TAILQ_FIRST (wheel a)
      end
  end.

Fixpoint prio_again (fuel : nat) (a : association) (cmt : Z) (net strqt : option nat)
  : option (option nat) :=
  match fuel with
  | O => None
  | S fuel =>
      let strq := prio_next a strqt in
      if rejected a cmt net strq then
        if opt_eqb strq (last_out_stream a) then Some None
        else prio_again fuel a cmt net strq
      else Some strq
  end.

Definition sctp_ss_prio_select (fuel : nat) (cmt : Z) (net : option nat) (a : association)
  : option (option nat) := prio_again fuel a cmt net (last_out_stream a).

Definition sctp_ss_prio_get_value (a : association) (strq : option nat) : Z * option Z :=
  match strq with
  | None => (-1, None)
  | Some s => (1, Some (so_priority (strq_of a s)))
  end.

Definition sctp_ss_prio_set_value (a : association) (strq : option nat) (value : Z)
  : option (Z * association) :=
  match strq with
  | None => Some (-1, a)
  | Some s =>
      let a := upd_strq a s (with_priority value) in
      a ← sctp_ss_prio_remove a s None;
      Some (1, sctp_ss_prio_add a s None)
  end.

(** ** Fair bandwidth *)

Definition sctp_ss_fb_clear (clear_values : Z) (a : association) : association :=
  clear_wheel (fun s => if negb (clear_values =? 0) then with_rounds (-1) s else s) a.

Definition sctp_ss_fb_init_stream (a : association) (strq : nat) (with_strq : option nat)
  : association :=
  let a := upd_strq (redirect_stream a strq with_strq) strq (with_linked false) in
  upd_strq a strq
    (with_rounds (match with_strq with Some w => so_rounds (strq_of a w) | None => -1 end)).

(** The length of the first queued message, stored in an [int32_t]. *)
Definition first_length (a : association) (strq : nat) : option Z :=
  q ← TAILQ_FIRST (so_outqueue (strq_of a strq));
  Some (i32 (sp_length (sp_of a q))).

Definition sctp_ss_fb_add (a : association) (strq : nat) (sp : option nat) : association :=
  if negb (queue_empty a strq) && negb (so_linked (strq_of a strq)) then
    let a := match first_length a strq with
             | Some n => if so_rounds (strq_of a strq) <? 0
                         then upd_strq a strq (with_rounds n) else a
             | None => a
             end in
    upd_strq (set_wheel a (wheel a ++ [strq])) strq (with_linked true)
  else a.

Definition sctp_ss_fb_remove (a : association) (strq : nat) (sp : option nat)
  : option association :=
  if queue_empty a strq && so_linked (strq_of a strq) then
    let a :=
      if opt_eqb (last_out_stream a) (Some strq) then
        let last := TAILQ_PREV (wheel a) strq in
        let last := match last with None => TAILQ_LAST (wheel a) | Some _ => last end in
        let last := if opt_eqb last (Some strq) then None else last in
        set_last a last
      else a in
    w ← TAILQ_REMOVE (wheel a) strq;
    Some (upd_strq (set_wheel a w) strq (with_linked false))
  else Some a.

(** The destination test of [sctp_ss_fb_select] on a stream of the wheel. *)
Definition fb_eligible (a : association) (cmt : Z) (net : option nat) (p : nat) : bool :=
  (0 <? cmt)
  || ((cmt =? 0)
      && match net with
         | None => true
         | Some net =>
             match TAILQ_FIRST (so_outqueue (strq_of a p)) with
             | None => false
             | Some q => match sp_net (sp_of a q) with
                         | None => true
                         | Some n => (n =? net)%nat
                         end
             end
         end).

(** What one iteration does to the best candidate so far. *)
Definition fb_better (a : association) (cmt : Z) (net strq strqt : option nat) : option nat :=
  match strqt with
  | Some t =>
      if fb_eligible a cmt net t && (0 <=? so_rounds (strq_of a t))
         && match strq with
            | None => true
            | Some s => so_rounds (strq_of a t) <? so_rounds (strq_of a s)
            end
      then Some t else strq
  | None => strq
  end.

Definition fb_advance (a : association) (strqt : option nat) : option nat :=
  match strqt with
  | Some t => TAILQ_NEXT (wheel a) t
  | None => TAILQ_FIRST (wheel a)
  end.

(** The [do ... while (strqt != strq)] loop. *)
Fixpoint fb_loop (fuel : nat) (a : association) (cmt : Z) (net strq strqt : option nat)
  : option (option nat) :=
  match fuel with
  | O => None
  | S fuel =>
      let strq := fb_better a cmt net strq strqt in
      let strqt := fb_advance a strqt in
      if opt_eqb strqt strq then Some strq
      else fb_loop fuel a cmt net strq strqt
  end.

Definition sctp_ss_fb_select (fuel : nat) (cmt : Z) (net : option nat) (a : association)
  : option (option nat) :=
  let strqt :=
    match last_out_stream a with
    | None => TAILQ_FIRST (wheel a)
    | Some l => if opt_eqb (TAILQ_FIRST (wheel a)) (TAILQ_LAST (wheel a))
                then TAILQ_FIRST (wheel a) else TAILQ_NEXT (wheel a) l
    end in
  fb_loop fuel a cmt net None strqt.

Definition sctp_ss_fb_scheduled (a : association) (strq : nat) : association :=
  let a := set_locked a (lock_after a strq) in
  let subtract := so_rounds (strq_of a strq) in
  let a := foldl (fun a p =>
             upd_strq a p (fun s =>
               let r := i32 (so_rounds s - subtract) in
               with_rounds (if r <? 0 then 0 else r) s)) a (wheel a) in
  let a := upd_strq a strq (with_rounds (default (-1) (first_length a strq))) in
  set_last a (Some strq).

(** ** First come, first served *)

Definition sctp_ss_fcfs_add (a : association) (strq : nat) (sp : option nat) : association :=
  match sp with
  | None => a
  | Some q =>
      if negb (sp_linked (sp_of a q)) then
        set_fcfs a (fcfs_list a ++ [q]) (alter (sp_with_linked true) q (pendings a))
      else a
  end.

(** One round of the [while (add_more)] loop: the [n]-th message of every
    stream; the flag is [add_more]. *)
Definition fcfs_round (n : nat) (a : association) : association * bool :=
  foldl (fun '(a, more) p =>
           match so_outqueue (strq_of a p) !! n with
           | Some q => (sctp_ss_fcfs_add a p (Some q), true)
           | None => (a, more)
           end) (a, false) (strmout a).

Fixpoint fcfs_fill (fuel n : nat) (a : association) : option association :=
  match fuel with
  | O => None
  | S fuel =>
      let '(a, add_more) := fcfs_round n a in
      if add_more then fcfs_fill fuel (S n) a else Some a
  end.

Definition sctp_ss_fcfs_init (fuel : nat) (a : association) : option association :=
  fcfs_fill fuel 0 (set_fcfs a [] (pendings a)).

(** [TAILQ_REMOVE] of the first entry until the list is empty; the entries keep
    their links. *)
Definition sctp_ss_fcfs_clear (clear_values : Z) (a : association) : association :=
  if negb (clear_values =? 0) then set_fcfs a [] (pendings a) else a.

Definition sctp_ss_fcfs_init_stream (a : association) (strq : nat) (with_strq : option nat)
  : association := redirect_stream a strq with_strq.

Definition sctp_ss_fcfs_is_empty (a : association) : bool := TAILQ_EMPTY (fcfs_list a).

Definition sctp_ss_fcfs_remove (a : association) (strq : nat) (sp : option nat)
  : option association :=
  match sp with
  | None => Some a
  | Some q =>
      if sp_linked (sp_of a q) then
        l ← TAILQ_REMOVE (fcfs_list a) q;
        Some (set_fcfs a l (pendings a))
      else Some a
  end.

(** [sctp_ss_fcfs_select]: follow the list; [&asoc->strmout[sp->sid]] is the
    stream of a message. *)
Fixpoint fcfs_scan (l : list nat) (a : association) (cmt : Z) (net : option nat)
  : option nat :=
  match l with
  | [] => None
  | q :: l =>
      let strq := strmout a !! sp_sid (sp_of a q) in
      if rejected a cmt net strq then fcfs_scan l a cmt net else strq
  end.

Definition sctp_ss_fcfs_select (fuel : nat) (cmt : Z) (net : option nat) (a : association)
  : option (option nat) := Some (fcfs_scan (fcfs_list a) a cmt net).

(** ** The module table [sctp_ss_functions[]] *)

Inductive ss_module :=
  SCTP_SS_DEFAULT | SCTP_SS_ROUND_ROBIN | SCTP_SS_ROUND_ROBIN_PACKET
| SCTP_SS_PRIORITY | SCTP_SS_FAIR_BANDWITH | SCTP_SS_FIRST_COME.

Record ss_functions := SsFunctions {
  sctp_ss_init : nat -> association -> option association;
  sctp_ss_clear : Z -> association -> association;
  sctp_ss_init_stream : association -> nat -> option nat -> association;
  sctp_ss_add_to_stream : association -> nat -> option nat -> association;
  sctp_ss_is_empty : association -> bool;
  sctp_ss_remove_from_stream : association -> nat -> option nat -> option association;
  sctp_ss_select_stream : nat -> Z -> option nat -> association -> option (option nat);
  sctp_ss_scheduled : association -> nat -> association;
  sctp_ss_packet_done : nat -> Z -> option nat -> association -> option association;
  sctp_ss_get_value : association -> option nat -> Z * option Z;
  sctp_ss_set_value : association -> option nat -> Z -> option (Z * association);
  sctp_ss_is_user_msgs_incomplete : association -> Z
}.

Definition sctp_ss_functions (m : ss_module) : ss_functions :=
  match m with
  | SCTP_SS_DEFAULT =>
      SsFunctions (fun _ a => Some (sctp_ss_default_init sctp_ss_default_add a))
        sctp_ss_default_clear sctp_ss_default_init_stream sctp_ss_default_add
        sctp_ss_default_is_empty sctp_ss_default_remove sctp_ss_default_select
        sctp_ss_default_scheduled (fun _ => sctp_ss_default_packet_done)
        sctp_ss_default_get_value sctp_ss_default_set_value
        sctp_ss_default_is_user_msgs_incomplete
  | SCTP_SS_ROUND_ROBIN =>
      SsFunctions (fun _ a => Some (sctp_ss_default_init sctp_ss_rr_add a))
        sctp_ss_default_clear sctp_ss_default_init_stream sctp_ss_rr_add
        sctp_ss_default_is_empty sctp_ss_default_remove sctp_ss_default_select
        sctp_ss_default_scheduled (fun _ => sctp_ss_default_packet_done)
        sctp_ss_default_get_value sctp_ss_default_set_value
        sctp_ss_default_is_user_msgs_incomplete
  | SCTP_SS_ROUND_ROBIN_PACKET =>
      SsFunctions (fun _ a => Some (sctp_ss_default_init sctp_ss_rr_add a))
        sctp_ss_default_clear sctp_ss_default_init_stream sctp_ss_rr_add
        sctp_ss_default_is_empty sctp_ss_default_remove sctp_ss_rrp_select
        sctp_ss_default_scheduled sctp_ss_rrp_packet_done
        sctp_ss_default_get_value sctp_ss_default_set_value
        sctp_ss_default_is_user_msgs_incomplete
  | SCTP_SS_PRIORITY =>
      SsFunctions (fun _ a => Some (sctp_ss_default_init sctp_ss_prio_add a))
        sctp_ss_prio_clear sctp_ss_prio_init_stream sctp_ss_prio_add
        sctp_ss_default_is_empty sctp_ss_prio_remove sctp_ss_prio_select
        sctp_ss_default_scheduled (fun _ => sctp_ss_default_packet_done)
        sctp_ss_prio_get_value sctp_ss_prio_set_value
        sctp_ss_default_is_user_msgs_incomplete
  | SCTP_SS_FAIR_BANDWITH =>
      SsFunctions (fun _ a => Some (sctp_ss_default_init sctp_ss_fb_add a))
        sctp_ss_fb_clear sctp_ss_fb_init_stream sctp_ss_fb_add
        sctp_ss_default_is_empty sctp_ss_fb_remove sctp_ss_fb_select
        sctp_ss_fb_scheduled (fun _ => sctp_ss_default_packet_done)
        sctp_ss_default_get_value sctp_ss_default_set_value
        sctp_ss_default_is_user_msgs_incomplete
  | SCTP_SS_FIRST_COME =>
      SsFunctions sctp_ss_fcfs_init
        sctp_ss_fcfs_clear sctp_ss_fcfs_init_stream sctp_ss_fcfs_add
        sctp_ss_fcfs_is_empty sctp_ss_fcfs_remove sctp_ss_fcfs_select
        sctp_ss_default_scheduled (fun _ => sctp_ss_default_packet_done)
        sctp_ss_default_get_value sctp_ss_default_set_value
        sctp_ss_default_is_user_msgs_incomplete
  end.

(** A socket option changes the scheduler of an association: clear with the old
    table, install the new one, initialise with it ([sctp_usrreq.c],
    [SCTP_PLUGGABLE_SS]). *)
Definition change_scheduler (fuel : nat) (old new : ss_module) (a : association)
  : option association :=
  sctp_ss_init (sctp_ss_functions new) fuel (sctp_ss_clear (sctp_ss_functions old) 1 a).
