(* ===== verification/SchedProps.v ===== *)
(** * What the stream schedulers guarantee

    Theorems about [StreamSched]: the wheel holds exactly the streams with queued
    data under every interleaving of the operations, changing the scheduler of a
    live association keeps that, the selection loops return what each policy
    promises when they return, and where they do not. *)

From stdpp Require Import sorting.
From S2P Require Import Prelude Tailq StreamSched.

(** ** Reading through updates *)

Section Store.

Lemma strq_of_upd a p f q :
  strq_of (upd_strq a p f) q =
    if decide (p = q /\ is_Some (streams a !! p)) then f (strq_of a q) else strq_of a q.
Proof.
  unfold strq_of, upd_strq. cbn [streams set_streams].
  destruct (decide (p = q)) as [->|Hne].
  - rewrite lookup_alter_eq. destruct (streams a !! q) eqn:E; simpl.
    + rewrite decide_True; eauto.
    + rewrite decide_False; [done|]. intros [_ [? [=]]].
  - rewrite lookup_alter_ne by done. rewrite decide_False; [done | tauto].
Qed.

Lemma upd_strq_proj {A} (g : stream_out -> A) a p f q :
  (forall s, g (f s) = g s) -> g (strq_of (upd_strq a p f) q) = g (strq_of a q).
Proof. intros Hg. rewrite strq_of_upd. case_decide; auto. Qed.

(** A stream with a queued message, or on the wheel, is in the store. *)
Lemma nonempty_in_store a p : queue_empty a p = false -> is_Some (streams a !! p).
Proof. unfold queue_empty, strq_of. destruct (streams a !! p); [eauto | done]. Qed.

Lemma linked_in_store a p : so_linked (strq_of a p) = true -> is_Some (streams a !! p).
Proof. unfold strq_of. destruct (streams a !! p); [eauto | done]. Qed.

Lemma linked_upd a p b q : is_Some (streams a !! p) ->
  so_linked (strq_of (upd_strq a p (with_linked b)) q)
    = if decide (p = q) then b else so_linked (strq_of a q).
Proof. intros Hp. rewrite strq_of_upd. repeat case_decide; destruct_and?; subst; tauto. Qed.

End Store.

(** ** The wheel invariant *)

(** The link fields of a stream say exactly whether it is on the wheel, and no
    stream is on it twice. *)
Definition wheel_inv (a : association) : Prop :=
  NoDup (wheel a) /\ forall p, p ∈ wheel a <-> so_linked (strq_of a p) = true.

(** ** Interfaces: what a wheel scheduler's [add] and [remove] promise *)

Class WheelAdd (add : association -> nat -> option nat -> association) : Prop := {
  wa_inv : forall a p sp, wheel_inv a -> wheel_inv (add a p sp);
  wa_wheel : forall a p sp q, wheel_inv a ->
    q ∈ wheel (add a p sp) <-> q ∈ wheel a \/ (q = p /\ queue_empty a p = false);
  wa_queue : forall a p sp q, so_outqueue (strq_of (add a p sp) q) = so_outqueue (strq_of a q);
  wa_strmout : forall a p sp, strmout (add a p sp) = strmout a
}.

Class WheelRemove (remove : association -> nat -> option nat -> option association) : Prop := {
  wr_ok : forall a p sp, wheel_inv a -> exists a', remove a p sp = Some a' /\ wheel_inv a'
    /\ (forall q, q ∈ wheel a' <-> q ∈ wheel a /\ ~ (q = p /\ queue_empty a p = true))
    /\ (forall q, so_outqueue (strq_of a' q) = so_outqueue (strq_of a q))
    /\ strmout a' = strmout a
}.

(** Linking one more stream, whatever place on the wheel it gets. *)
Lemma link_wheel_inv a p w :
  wheel_inv a -> is_Some (streams a !! p) -> so_linked (strq_of a p) = false ->
  w ≡ₚ p :: wheel a -> wheel_inv (upd_strq (set_wheel a w) p (with_linked true)).
Proof.
  intros [Hnd Hl] Hp Hf Hw. split; cbn [wheel upd_strq set_streams set_wheel].
  - rewrite Hw. constructor; [|done]. rewrite Hl. congruence.
  - intros q. rewrite (linked_upd (set_wheel a w) p true q Hp).
    change (strq_of (set_wheel a w) q) with (strq_of a q). rewrite Hw, elem_of_cons, Hl.
    case_decide; subst; split; intros; try tauto; destruct_or?; congruence.
Qed.

Lemma unlink_wheel_inv a p w :
  wheel_inv a -> is_Some (streams a !! p) -> w = filter (.≠ p) (wheel a) ->
  wheel_inv (upd_strq (set_wheel a w) p (with_linked false)).
Proof.
  intros [Hnd Hl] Hp ->. split; cbn [wheel upd_strq set_streams set_wheel].
  - by apply NoDup_filter.
  - intros q. rewrite list_elem_of_filter, Hl.
    rewrite (linked_upd (set_wheel a _) p false q Hp).
    change (strq_of (set_wheel a ?w) q) with (strq_of a q).
    case_decide; subst; split; intros; destruct_and?; try done; split; congruence.
Qed.

Lemma insert_sorted_perm key p l : insert_sorted key p l ≡ₚ p :: l.
Proof.
  induction l as [|x l IH]; simpl; [done|]. case_match; [|done]. rewrite IH. constructor.
Qed.

(** The shape all four [add] functions have: the guard, a place on the wheel. *)
Definition guarded_add (place : association -> nat -> list nat) (a : association) (p : nat)
  : association :=
  if negb (queue_empty a p) && negb (so_linked (strq_of a p))
  then upd_strq (set_wheel a (place a p)) p (with_linked true) else a.

Lemma guarded_add_spec place a p :
  place a p ≡ₚ p :: wheel a -> wheel_inv a ->
  wheel_inv (guarded_add place a p)
  /\ (forall q, q ∈ wheel (guarded_add place a p) <-> q ∈ wheel a \/ (q = p /\ queue_empty a p = false)).
Proof.
  intros Hpl Hinv. unfold guarded_add.
  destruct (queue_empty a p) eqn:E; simpl; [split; [done|]; intros q; split; [tauto|intros [?|[_ [=]]]; done]|].
  destruct (so_linked (strq_of a p)) eqn:El; simpl.
  - split; [done|]. intros q. apply Hinv in El. split; [tauto|]. by intros [? | [-> _]].
  - split; [apply link_wheel_inv; auto using nonempty_in_store|].
    intros q. rewrite Hpl, elem_of_cons. tauto.
Qed.

Lemma guarded_add_queue place a p q :
  so_outqueue (strq_of (guarded_add place a p) q) = so_outqueue (strq_of a q).
Proof.
  unfold guarded_add. case_match; [|done].
  by rewrite (upd_strq_proj so_outqueue).
Qed.

Lemma guarded_add_strmout place a p : strmout (guarded_add place a p) = strmout a.
Proof. unfold guarded_add. by case_match. Qed.

Definition place_tail (a : association) (p : nat) : list nat := wheel a ++ [p].

Definition place_sorted (key : stream_out -> Z) (a : association) (p : nat) : list nat :=
  if TAILQ_EMPTY (wheel a) then [p]
  else insert_sorted (fun q => key (strq_of a q)) p (wheel a).

Lemma place_tail_perm a p : place_tail a p ≡ₚ p :: wheel a.
Proof. unfold place_tail. by rewrite Permutation_app_comm. Qed.

Lemma place_sorted_perm key a p : place_sorted key a p ≡ₚ p :: wheel a.
Proof.
  unfold place_sorted. destruct (wheel a); [done|]. apply insert_sorted_perm.
Qed.

Lemma guarded_add_class place :
  (forall a p, place a p ≡ₚ p :: wheel a) -> WheelAdd (fun a p _ => guarded_add place a p).
Proof.
  intros Hp. constructor.
  - intros a p _ H. by apply guarded_add_spec.
  - intros a p _ q H. by apply guarded_add_spec.
  - intros. apply guarded_add_queue.
  - intros. apply guarded_add_strmout.
Qed.

#[export] Instance default_add_wheel : WheelAdd sctp_ss_default_add.
Proof. exact (guarded_add_class place_tail place_tail_perm). Qed.

#[export] Instance rr_add_wheel : WheelAdd sctp_ss_rr_add.
Proof. exact (guarded_add_class (place_sorted so_sid) (place_sorted_perm so_sid)). Qed.

#[export] Instance prio_add_wheel : WheelAdd sctp_ss_prio_add.
Proof. exact (guarded_add_class (place_sorted so_priority) (place_sorted_perm so_priority)). Qed.

(** Fair bandwidth sets the stream's rounds first, which no other field sees. *)
Definition fb_round (a : association) (p : nat) : association :=
  match first_length a p with
  | Some n => if so_rounds (strq_of a p) <? 0 then upd_strq a p (with_rounds n) else a
  | None => a
  end.

Lemma fb_round_same a p :
  wheel (fb_round a p) = wheel a /\ strmout (fb_round a p) = strmout a
  /\ (forall q, so_outqueue (strq_of (fb_round a p) q) = so_outqueue (strq_of a q))
  /\ (forall q, so_linked (strq_of (fb_round a p) q) = so_linked (strq_of a q)).
Proof.
  unfold fb_round. repeat case_match; split_and!; try done; intros q.
  - by apply (upd_strq_proj so_outqueue).
  - by apply (upd_strq_proj so_linked).
Qed.

Lemma fb_add_guarded a p sp :
  sctp_ss_fb_add a p sp =
    if negb (queue_empty a p) && negb (so_linked (strq_of a p))
    then guarded_add place_tail (fb_round a p) p else a.
Proof.
  unfold sctp_ss_fb_add. destruct (fb_round_same a p) as (_&_&Hq&Hl).
  case_match eqn:E; [|done]. unfold guarded_add.
  assert (queue_empty (fb_round a p) p = queue_empty a p) as ->.
  { unfold queue_empty. by rewrite Hq. }
  by rewrite Hl, E.
Qed.

#[export] Instance fb_add_wheel : WheelAdd sctp_ss_fb_add.
Proof.
  assert (forall a p, wheel_inv a -> wheel_inv (fb_round a p)) as Hinv.
  { intros a p [H1 H2]. destruct (fb_round_same a p) as (Hw&_&_&Hl). split; [by rewrite Hw|].
    intros q. by rewrite Hw, Hl. }
  assert (forall a p q, queue_empty (fb_round a p) q = queue_empty a q) as Hqe.
  { intros a p q. destruct (fb_round_same a p) as (_&_&Hq&_). unfold queue_empty. by rewrite Hq. }
  constructor; intros a p sp; rewrite fb_add_guarded.
  - intros H. case_match; [|done]. apply guarded_add_spec; auto using place_tail_perm.
  - intros q H. destruct (fb_round_same a p) as (Hw&_&_&Hl). case_match eqn:E.
    + rewrite (proj2 (guarded_add_spec place_tail (fb_round a p) p
        (place_tail_perm _ p) (Hinv a p H)) q), Hw, Hqe. done.
    + destruct (queue_empty a p) eqn:Eq; simpl in E.
      * split; [tauto|]. by intros [?|[_ [=]]].
      * apply negb_false_iff in E. apply H in E. split; [tauto|]. by intros [? | [-> _]].
  - intros q. case_match; [|done]. rewrite guarded_add_queue. apply fb_round_same.
  - case_match; [|done]. rewrite guarded_add_strmout. apply fb_round_same.
Qed.

#[export] Instance default_remove_wheel : WheelRemove sctp_ss_default_remove.
Proof.
  constructor. intros a p sp Hinv. unfold sctp_ss_default_remove.
  destruct (queue_empty a p) eqn:Eq; simpl.
  2: { exists a. split_and!; try done. intros q. naive_solver. }
  destruct (so_linked (strq_of a p)) eqn:El.
  2: { exists a. split_and!; try done. intros q. split; [|tauto]. intros Hq. split; [done|].
       intros [-> _]. apply Hinv in Hq. congruence. }
  pose proof El as Hin. apply Hinv in Hin.
  set (a1 := if opt_eqb (last_out_stream a) (Some p) then _ else a).
  assert (wheel a1 = wheel a /\ streams a1 = streams a /\ strmout a1 = strmout a)
    as (Hw & Hs & Hm) by (unfold a1; by case_match).
  assert (wheel_inv a1) as Hinv1.
  { destruct Hinv as [H1 H2]. split; [by rewrite Hw|]. intros q. rewrite Hw.
    unfold strq_of. rewrite Hs. apply H2. }
  rewrite Hw. unfold TAILQ_REMOVE. rewrite decide_True by done. cbn [mbind option_bind].
  eexists. split; [done|]. split_and!.
  - apply unlink_wheel_inv; [done | rewrite Hs; by apply linked_in_store | by rewrite Hw].
  - intros q. cbn [wheel upd_strq set_streams set_wheel]. rewrite list_elem_of_filter. tauto.
  - intros q. rewrite (upd_strq_proj so_outqueue) by done.
    unfold strq_of. cbn [streams set_wheel]. by rewrite Hs.
  - exact Hm.
Qed.

#[export] Instance prio_remove_wheel : WheelRemove sctp_ss_prio_remove.
Proof. exact default_remove_wheel. Qed.

#[export] Instance fb_remove_wheel : WheelRemove sctp_ss_fb_remove.
Proof. exact default_remove_wheel. Qed.

(** ** Initialisation and clearing *)

Section WithAdd.

Context (add : association -> nat -> option nat -> association) `{WA : !WheelAdd add}.

Lemma add_all_spec l : forall a, wheel_inv a ->
  let a' := foldl (fun a p => add a p None) a l in
  wheel_inv a'
  /\ (forall q, q ∈ wheel a' <-> q ∈ wheel a \/ (q ∈ l /\ queue_empty a q = false))
  /\ (forall q, so_outqueue (strq_of a' q) = so_outqueue (strq_of a q))
  /\ strmout a' = strmout a.
Proof.
  induction l as [|p l IH]; intros a Hinv; cbn [foldl].
  - split_and!; try done. intros q. set_solver.
  - destruct (IH (add a p None) (wa_inv a p None Hinv)) as (H1&H2&H3&H4).
    assert (forall q, queue_empty (add a p None) q = queue_empty a q) as Hqe.
    { intros q. unfold queue_empty. by rewrite wa_queue. }
    split_and!; [done| |intros q; by rewrite H3, wa_queue | by rewrite H4, wa_strmout].
    intros q. rewrite H2, wa_wheel, Hqe, elem_of_cons by done.
    split; [|naive_solver]. intros [[? | [-> ?]]|[? ?]]; tauto.
Qed.

(** From an association with an empty wheel, [init] puts exactly the streams
    with queued data on the wheel. *)
Lemma default_init_spec a :
  wheel_inv a -> wheel a = [] ->
  let a' := sctp_ss_default_init add a in
  wheel_inv a' /\ (forall q, q ∈ wheel a' <-> q ∈ strmout a /\ queue_empty a q = false)
  /\ (forall q, so_outqueue (strq_of a' q) = so_outqueue (strq_of a q)).
Proof.
  intros [H1 H2] Hw. set (a0 := set_wheel (set_sched a None None) []).
  assert (wheel_inv a0) as H0.
  { split; [constructor|]. intros p. change (strq_of a0 p) with (strq_of a p).
    rewrite <- (H2 p), Hw. done. }
  destruct (add_all_spec (strmout a) a0 H0) as (H3&H4&H5&_).
  cbv zeta. unfold sctp_ss_default_init. fold a0.
  change (strmout a0) with (strmout a). split_and!; [exact H3 | | exact H5].
  intros q. rewrite H4. split; [|tauto]. intros [Hq|?]; [inversion Hq|done].
Qed.

End WithAdd.

Lemma clear_fold_spec reset l : (forall s, so_outqueue (reset s) = so_outqueue s) -> forall a,
  let a' := foldl (fun a p => upd_strq a p (with_linked false ∘ reset)) a l in
  (forall q, so_outqueue (strq_of a' q) = so_outqueue (strq_of a q))
  /\ (forall q, q ∈ l -> so_linked (strq_of a' q) = false)
  /\ (forall q, so_linked (strq_of a q) = false -> so_linked (strq_of a' q) = false)
  /\ strmout a' = strmout a.
Proof.
  intros Hr. induction l as [|p l IH]; intros a; cbn [foldl].
  - split_and!; try done. intros q Hq. inversion Hq.
  - destruct (IH (upd_strq a p (with_linked false ∘ reset))) as (H1&H2&H3&H4).
    assert (forall q, so_linked (strq_of a q) = false \/ q = p ->
      so_linked (strq_of (upd_strq a p (with_linked false ∘ reset)) q) = false) as Hl.
    { intros q Hq. rewrite strq_of_upd. case_decide as Hd; [done|]. destruct Hq as [?| ->]; [done|].
      destruct (so_linked (strq_of a p)) eqn:E; [|done]. apply linked_in_store in E. tauto. }
    split_and!.
    + intros q. rewrite H1. by apply (upd_strq_proj so_outqueue).
    + intros q [-> | Hq]%elem_of_cons; auto.
    + intros q Hq. apply H3. auto.
    + by rewrite H4.
Qed.

(** Clearing empties the wheel, clears every link and leaves the queues alone. *)
Lemma clear_wheel_spec reset a : (forall s, so_outqueue (reset s) = so_outqueue s) ->
  wheel_inv a ->
  let a' := clear_wheel reset a in
  wheel_inv a' /\ wheel a' = [] /\ last_out_stream a' = None
  /\ (forall q, so_outqueue (strq_of a' q) = so_outqueue (strq_of a q)) /\ strmout a' = strmout a.
Proof.
  intros Hr [Hnd Hl]. destruct (clear_fold_spec reset (wheel a) Hr a) as (H1&H2&H3&H4).
  split_and!; try done. split; [constructor|]. intros p. split; [inversion 1|].
  intros Hp. assert (so_linked (strq_of (clear_wheel reset a) p) = false); [|congruence].
  destruct (so_linked (strq_of a p)) eqn:E; [apply H2, Hl, E | apply H3, E].
Qed.

(** ** Changing the scheduler of a live association *)

(** The schedulers that keep their streams on the wheel: all but FCFS. *)
Definition uses_wheel (m : ss_module) : bool :=
  match m with SCTP_SS_FIRST_COME => false | _ => true end.

(** C11. replacing the scheduler of an association that has data queued loses no
    stream: whatever the old and the new wheel scheduler, after the change the
    wheel holds every stream with queued data exactly once, no other stream, and
    the link fields agree with it. *)
Theorem change_scheduler_serves (fuel : nat) (old new : ss_module) (a : association)
  (Hold : uses_wheel old = true) (Hnew : uses_wheel new = true) (Hinv : wheel_inv a) :
  exists a', change_scheduler fuel old new a = Some a' /\ wheel_inv a'
    /\ forall p, p ∈ wheel a' <-> p ∈ strmout a /\ queue_empty a p = false.
Proof.
  assert (exists reset, (forall s, so_outqueue (reset s) = so_outqueue s)
    /\ sctp_ss_clear (sctp_ss_functions old) 1 = clear_wheel reset) as (reset & Hr & Hc).
  { destruct old; try discriminate Hold;
      [exists (fun s => s) | exists (fun s => s) | exists (fun s => s)
      | exists (with_priority 0) | exists (with_rounds (-1))]; done. }
  assert (exists add, WheelAdd add
    /\ sctp_ss_init (sctp_ss_functions new) fuel = fun a => Some (sctp_ss_default_init add a))
    as (add & HA & Hi).
  { destruct new; try discriminate Hnew; eexists; (split; [|reflexivity]); exact _. }
  unfold change_scheduler. rewrite Hc, Hi.
  destruct (clear_wheel_spec reset a Hr Hinv) as (H1&H2&_&H4&H5).
  destruct (default_init_spec add (clear_wheel reset a) H1 H2) as (H6&H7&_).
  eexists. split; [done|]. split; [done|]. intros p. rewrite H7, H5.
  unfold queue_empty. by rewrite H4.
Qed.

Definition demo_streams : gmap nat stream_out :=
  {[ 0%nat := StreamOut [10%nat] true 3 0; 1%nat := StreamOut [] false 1 1;
     2%nat := StreamOut [11%nat; 12%nat] true 0 2 ]}.

Definition demo_asoc : association :=
  Asoc None (Some 0%nat) [0%nat; 2%nat] [] [0%nat; 1%nat; 2%nat] demo_streams
    {[ 10%nat := Pending (Some 1%nat) 100 0 1 0 false;
       11%nat := Pending (Some 2%nat) 40 2 1 0 false;
       12%nat := Pending None 70 2 1 0 false ]} 0 3.

Lemma demo_inv : wheel_inv demo_asoc.
Proof.
  split; [apply (bool_decide_unpack _); vm_compute; exact I|].
  intros p. destruct p as [|[|[|p]]].
  - split; [reflexivity | intros _; set_solver].
  - split; [intros H; exfalso; set_solver | intros H; vm_compute in H; discriminate H].
  - split; [reflexivity | intros _; set_solver].
  - split; [intros H; exfalso; set_solver | intros H; exfalso; revert H].
    unfold strq_of, demo_asoc, demo_streams. cbn [streams].
    rewrite !lookup_insert_ne, lookup_singleton_ne by lia. done.
Qed.

Lemma change_scheduler_serves_witness :
  exists a', change_scheduler 5 SCTP_SS_DEFAULT SCTP_SS_PRIORITY demo_asoc = Some a'
    /\ wheel_inv a'
    /\ forall p, p ∈ wheel a' <-> p ∈ strmout demo_asoc /\ queue_empty demo_asoc p = false.
Proof.
  apply (change_scheduler_serves 5 SCTP_SS_DEFAULT SCTP_SS_PRIORITY demo_asoc);
    [reflexivity | reflexivity | exact demo_inv].
Defined.

(** ** Queueing and sending: no stream with data is ever lost *)

(** A message is queued on a stream ([sctp_msg_append]: [TAILQ_INSERT_TAIL] on
    the stream's queue, then the scheduler's [add]). *)
Definition push_queue (q : nat) (s : stream_out) : stream_out :=
  StreamOut (so_outqueue s ++ [q]) (so_linked s) (so_params s) (so_sid s).

Definition pop_queue (q : nat) (s : stream_out) : stream_out :=
  StreamOut (filter (.≠ q) (so_outqueue s)) (so_linked s) (so_params s) (so_sid s).

Definition sched_enqueue (add : association -> nat -> option nat -> association)
  (a : association) (strm sp : nat) : association :=
  add (upd_strq a strm (push_queue sp)) strm (Some sp).

(** A message leaves its stream's queue ([sctp_move_to_outqueue]: [TAILQ_REMOVE]
    from the stream's queue, then the scheduler's [remove]). *)
Definition sched_dequeue (remove : association -> nat -> option nat -> option association)
  (a : association) (strq sp : nat) : option association :=
  remove (upd_strq a strq (pop_queue sp)) strq (Some sp).

Section Reachable.

Context (add : association -> nat -> option nat -> association) `{WA : !WheelAdd add}.
Context (remove : association -> nat -> option nat -> option association)
  `{WR : !WheelRemove remove}.

(** What the rest of the stack does to the schedulers' state. *)
Inductive sched_step : association -> association -> Prop :=
| step_enqueue a strm sp :
    is_Some (streams a !! strm) -> sched_step a (sched_enqueue add a strm sp)
| step_dequeue a strq sp a' :
    sched_dequeue remove a strq sp = Some a' -> sched_step a a'
| step_scheduled a locked last :
    sched_step a (set_sched a locked last).

(** Every stream is on the wheel exactly when it has data. *)
Definition serving (a : association) : Prop :=
  wheel_inv a /\ forall p, p ∈ wheel a <-> queue_empty a p = false.

Lemma queue_empty_upd_other a p f q : p <> q -> queue_empty (upd_strq a p f) q = queue_empty a q.
Proof.
  intros Hne. unfold queue_empty. rewrite strq_of_upd. rewrite decide_False by tauto. done.
Qed.

Lemma wheel_inv_upd a p f : (forall s, so_linked (f s) = so_linked s) ->
  wheel_inv a -> wheel_inv (upd_strq a p f).
Proof.
  intros Hf [H1 H2]. split; [done|]. intros q. rewrite (upd_strq_proj so_linked) by done. apply H2.
Qed.

Lemma enqueue_serving a strm sp :
  is_Some (streams a !! strm) -> serving a -> serving (sched_enqueue add a strm sp).
Proof.
  intros Hs [Hinv Hserve]. unfold sched_enqueue.
  set (a1 := upd_strq a strm (push_queue sp)).
  assert (wheel_inv a1) as Hinv1 by (by apply wheel_inv_upd).
  split; [by apply wa_inv|]. intros p. rewrite wa_wheel by done.
  assert (queue_empty (add a1 strm (Some sp)) p = queue_empty a1 p) as ->.
  { unfold queue_empty. by rewrite wa_queue. }
  assert (queue_empty a1 strm = false) as Hne.
  { unfold queue_empty, a1. rewrite strq_of_upd, decide_True by done.
    cbn [push_queue so_outqueue]. by destruct (so_outqueue (strq_of a strm)). }
  change (wheel a1) with (wheel a). rewrite Hserve.
  destruct (decide (strm = p)) as [<-|Hp].
  - rewrite Hne. naive_solver.
  - unfold a1. rewrite (queue_empty_upd_other _ _ _ _ Hp). naive_solver.
Qed.

(** A queue that has got shorter. *)
Lemma shrink_serving a strq f sp a' :
  (forall s, so_linked (f s) = so_linked s) -> (forall s, so_outqueue s = [] -> so_outqueue (f s) = []) ->
  serving a -> remove (upd_strq a strq f) strq sp = Some a' -> serving a'.
Proof.
  intros Hf1 Hf2 [Hinv Hserve] H. set (a1 := upd_strq a strq f) in *.
  assert (wheel_inv a1) as Hinv1 by (by apply wheel_inv_upd).
  destruct (wr_ok a1 strq sp Hinv1) as (a2 & E & H1 & H2 & H3 & _).
  rewrite E in H. injection H as <-. split; [done|]. intros p. rewrite H2.
  assert (queue_empty a2 p = queue_empty a1 p) as ->.
  { unfold queue_empty. by rewrite H3. }
  change (wheel a1) with (wheel a). rewrite Hserve.
  destruct (decide (strq = p)) as [<-|Hp].
  - destruct (queue_empty a1 strq) eqn:Eq; [naive_solver|].
    assert (queue_empty a strq = false) as Hne; [|naive_solver].
    revert Eq. unfold a1, queue_empty. rewrite strq_of_upd. case_decide; [|done].
    destruct (so_outqueue (strq_of a strq)) eqn:Eo; [|done]. by rewrite Hf2.
  - unfold a1. rewrite (queue_empty_upd_other _ _ _ _ Hp).
    split; [tauto|]. intros Hq. split; [done|]. intros [-> _]. done.
Qed.

Lemma dequeue_serving a strq sp a' :
  serving a -> sched_dequeue remove a strq sp = Some a' -> serving a'.
Proof. apply shrink_serving; [done|]. intros s Hs. unfold pop_queue. simpl. by rewrite Hs. Qed.

Lemma reachable_serving a a' : serving a -> rtc sched_step a a' -> serving a'.
Proof.
  intros Ha H. induction H as [|a b c Hab _ IH]; [done|]. apply IH.
  destruct Hab; eauto using enqueue_serving, dequeue_serving.
Qed.

End Reachable.

(** C12. whatever the wheel scheduler, under every interleaving of messages being
    queued, messages leaving a queue and streams being scheduled, the wheel
    holds exactly the streams with queued data: no stream is lost and none is
    served empty. *)
Theorem wheel_never_loses_a_stream (m : ss_module) (a a' : association)
  (Hm : uses_wheel m = true) (Ha : serving a)
  (Hstep : rtc (sched_step (sctp_ss_add_to_stream (sctp_ss_functions m))
                 (sctp_ss_remove_from_stream (sctp_ss_functions m))) a a') :
  serving a'.
Proof.
  destruct m; try discriminate Hm; eapply reachable_serving; eauto; exact _.
Qed.

Lemma demo_serving : serving demo_asoc.
Proof.
  split; [exact demo_inv|]. intros p. rewrite (proj2 demo_inv p).
  destruct p as [|[|[|p]]]; [done..|].
  unfold queue_empty, strq_of, demo_asoc, demo_streams. cbn [streams].
  rewrite !lookup_insert_ne, lookup_singleton_ne by lia. done.
Qed.

Lemma wheel_never_loses_a_stream_witness :
  serving (sched_enqueue sctp_ss_rr_add demo_asoc 1 13).
Proof.
  apply (wheel_never_loses_a_stream SCTP_SS_ROUND_ROBIN demo_asoc);
    [reflexivity | exact demo_serving |].
  apply rtc_once. apply step_enqueue. vm_compute. eauto.
Defined.

(** ** Round-robin selection *)

Section Select.

Context (a : association) (cmt : Z) (net : option nat).

Definition acceptable (p : nat) : bool := negb (rejected a cmt net (Some p)).

(** The first acceptable stream of a list. *)
Definition first_ok (l : list nat) : option nat := List.find acceptable l.

Lemma first_ok_cons p l :
  first_ok (p :: l) = if rejected a cmt net (Some p) then first_ok l else Some p.
Proof.
  unfold first_ok. cbn [List.find]. unfold acceptable at 1.
  by destruct (rejected a cmt net (Some p)).
Qed.

Lemma first_ok_app l1 l2 :
  first_ok (l1 ++ l2) = match first_ok l1 with Some r => Some r | None => first_ok l2 end.
Proof.
  induction l1 as [|x l1 IH]; [done|]. cbn [app]. rewrite !first_ok_cons.
  by destruct (rejected a cmt net (Some x)).
Qed.

Lemma wheel_next_split u x v : NoDup (wheel a) -> wheel a = u ++ x :: v ->
  wheel_next a (Some x) = head (v ++ u ++ [x]).
Proof.
  intros Hnd Hw. unfold wheel_next. rewrite Hw in *. apply NoDup_app in Hnd as (_ & Hd & _).
  rewrite tailq_next_split by (intros Hx; eapply Hd; [done | constructor]).
  destruct v; [|done]. simpl. unfold TAILQ_FIRST. by destruct u.
Qed.

(** Walking a stretch [v] of the wheel that does not hold [last_out_stream]. *)
Lemma scan_stretch v : forall u t k, NoDup (wheel a) ->
  (exists w', wheel a = u ++ v ++ w') -> (v <> [] -> wheel_next a t = head v) ->
  (forall x, x ∈ v -> last_out_stream a <> Some x) ->
  default_again (length v + k) a cmt net t =
    match first_ok v with
    | Some r => Some (Some r)
    | None => default_again k a cmt net (match last v with Some x => Some x | None => t end)
    end.
Proof.
  induction v as [|x v IH]; intros u t k Hnd [w' Hw] Ht Hl; [done|].
  rewrite first_ok_cons. cbn [length Nat.add default_again]. rewrite (Ht ltac:(done)). cbn [head].
  destruct (rejected a cmt net (Some x)) eqn:Er; [|done].
  assert (opt_eqb (Some x) (last_out_stream a) = false) as ->.
  { apply bool_decide_eq_false. intros E. apply (Hl x); [constructor | done]. }
  rewrite (IH (u ++ [x]) (Some x) k Hnd).
  - destruct (first_ok v); [done|]. rewrite last_cons. by destruct (last v).
  - exists w'. by rewrite <- app_assoc.
  - intros Hv. rewrite (wheel_next_split u x (v ++ w')) by (done || by rewrite Hw).
    by destruct v.
  - intros y Hy. apply Hl. by constructor.
Qed.

Lemma wheel_next_end v t : NoDup (wheel a) -> wheel a = v -> last v = Some t ->
  wheel_next a (Some t) = head v.
Proof.
  intros Hnd Hw Ht. destruct v as [|x u _] using rev_ind; [done|]. rewrite last_snoc in Ht.
  injection Ht as ->. rewrite (wheel_next_split u t []) by done. done.
Qed.

(** With the last stream on the wheel the loop goes once around it. *)
Lemma default_again_rotation pre l post k :
  NoDup (wheel a) -> wheel a = pre ++ l :: post -> last_out_stream a = Some l ->
  default_again (length (wheel a) + k) a cmt net (Some l) = Some (first_ok (post ++ pre ++ [l])).
Proof.
  intros Hnd Hw Hlast. pose proof Hnd as Hnd'. rewrite Hw in Hnd'.
  apply NoDup_app in Hnd' as (_ & Hd & Hnd').
  apply NoDup_cons in Hnd' as [Hlp _].
  replace (length (wheel a) + k)%nat with (length post + (length pre + S k))%nat
    by (rewrite Hw, length_app; simpl; lia).
  rewrite (scan_stretch post (pre ++ [l])); try done.
  2: { exists []. by rewrite app_nil_r, <- app_assoc. }
  2: { intros Hp. rewrite (wheel_next_split pre l post) by done. by destruct post. }
  2: { intros x Hx [=->]%(eq_trans (eq_sym Hlast)). done. }
  rewrite first_ok_app. destruct (first_ok post) eqn:Ep; [done|].
  set (t := match last post with Some x => Some x | None => Some l end).
  assert (wheel_next a t = head (pre ++ [l])) as Ht.
  { transitivity (TAILQ_FIRST (wheel a)); [|rewrite Hw; by destruct pre].
    destruct (last post) as [x|] eqn:El; subst t.
    - apply (wheel_next_end (wheel a)); [done..|]. rewrite Hw, last_app, last_cons, El. done.
    - apply last_None in El as ->. apply (wheel_next_end (wheel a)); [done..|].
      by rewrite Hw, last_snoc. }
  rewrite (scan_stretch pre []); try done.
  2: { by exists (l :: post). }
  2: { intros Hp. rewrite Ht. by destruct pre. }
  2: { intros x Hx [=->]%(eq_trans (eq_sym Hlast)). apply (Hd x); [done | constructor]. }
  rewrite first_ok_app. destruct (first_ok pre) eqn:Epre; [done|].
  cbn [default_again].
  assert (wheel_next a (match last pre with Some x => Some x | None => t end) = Some l) as ->.
  { destruct (last pre) as [x|] eqn:El; [|by apply last_None in El as ->; rewrite Ht].
    apply last_Some in El as [u ->]. rewrite <- app_assoc in Hw. cbn [app] in Hw.
    by rewrite (wheel_next_split u x (l :: post)). }
  rewrite first_ok_cons. destruct (rejected a cmt net (Some l)); [|done].
  unfold opt_eqb. by rewrite bool_decide_eq_true_2.
Qed.

(** With the last stream not on the wheel it walks the wheel from the front. *)
Lemma default_again_front t k r :
  NoDup (wheel a) -> (forall x, x ∈ wheel a -> last_out_stream a <> Some x) ->
  wheel_next a t = head (wheel a) -> first_ok (wheel a) = Some r ->
  default_again (length (wheel a) + k) a cmt net t = Some (Some r).
Proof.
  intros Hnd Hl Ht Hr. rewrite (scan_stretch (wheel a) []); try done.
  - by rewrite Hr.
  - exists []. by rewrite app_nil_r.
Qed.

Lemma wheel_next_in t : wheel a <> [] -> exists x, wheel_next a t = Some x /\ x ∈ wheel a.
Proof.
  intros Hw. assert (exists x, TAILQ_FIRST (wheel a) = Some x /\ x ∈ wheel a) as Hf.
  { destruct (wheel a) as [|x w]; [done|]. exists x. split; [done | constructor]. }
  destruct t as [t|]; cbn [wheel_next]; [|done].
  destruct (TAILQ_NEXT (wheel a) t) as [y|] eqn:E; [|done].
  exists y. split; [done | by apply tailq_next_in in E].
Qed.

End Select.

(** C13. default and round-robin selection.  When the previously served stream is
    on the wheel, one turn around the wheel suffices and the result is the first
    stream after it, in wheel order and ending with itself, whose first message
    may go to the requested destination; [NULL] when there is none. *)
Theorem default_select_round_robin (a : association) (cmt : Z) (net : option nat)
  (pre post : list nat) (l : nat) (k : nat)
  (Hinv : wheel_inv a) (Hw : wheel a = pre ++ l :: post)
  (Hlast : last_out_stream a = Some l) (Hlock : locked_on_sending a = None) :
  sctp_ss_default_select (length (wheel a) + k) cmt net a
    = Some (first_ok a cmt net (post ++ pre ++ [l])).
Proof.
  unfold sctp_ss_default_select. rewrite Hlock, Hlast.
  apply default_again_rotation; [apply Hinv | done..].
Qed.

Lemma default_select_round_robin_witness :
  sctp_ss_default_select (2 + 0) 0 (Some 2%nat) demo_asoc = Some (Some 2%nat).
Proof.
  exact (default_select_round_robin demo_asoc 0 (Some 2%nat) [] [2%nat] 0 0 demo_inv
           eq_refl eq_refl eq_refl).
Defined.

(** the selection loop of the default scheduler does not always end: when no
    stream was served yet, or the one served last has left the wheel, and every
    stream with data is bound for another destination, it runs forever. *)
Theorem default_select_diverges (a : association) (net : nat) (fuel : nat)
  (Hlock : locked_on_sending a = None) (Hne : wheel a <> [])
  (Hlast : forall x, x ∈ wheel a -> last_out_stream a <> Some x)
  (Hall : forall x, x ∈ wheel a -> bound_elsewhere a net x = true) :
  sctp_ss_default_select fuel 0 (Some net) a = None.
Proof.
  unfold sctp_ss_default_select. rewrite Hlock. generalize (last_out_stream a) as t.
  induction fuel as [|fuel IH]; intros t; [done|]. cbn [default_again].
  destruct (wheel_next_in a t Hne) as (x & -> & Hx). unfold rejected.
  rewrite (Hall x Hx). cbn [andb Z.eqb].
  assert (opt_eqb (Some x) (last_out_stream a) = false) as ->; [|apply IH].
  apply bool_decide_eq_false. intros E. by apply (Hlast x Hx).
Qed.

Lemma default_select_diverges_witness :
  sctp_ss_default_select 1000 0 (Some 7%nat)
    (set_last (set_wheel demo_asoc [0%nat]) None) = None.
Proof.
  apply (default_select_diverges (set_last (set_wheel demo_asoc [0%nat]) None) 7 1000);
    [reflexivity | discriminate | done |].
  intros x Hx. apply list_elem_of_singleton in Hx as ->. reflexivity.
Defined.

(** ** Sorted wheels: round robin and priority *)

Definition sorted_by (key : stream_out -> Z) (a : association) : Prop :=
  StronglySorted (fun p q => key (strq_of a p) <= key (strq_of a q)) (wheel a).

Lemma insert_sorted_sorted (key : nat -> Z) p l :
  StronglySorted (fun x y => key x <= key y) l ->
  StronglySorted (fun x y => key x <= key y) (insert_sorted key p l).
Proof.
  induction l as [|x l IH]; simpl; [repeat constructor|].
  intros [Hx Hl]%StronglySorted_cons. destruct (Z.ltb_spec (key x) (key p)).
  - apply StronglySorted_cons. split; [|auto]. rewrite insert_sorted_perm.
    constructor; [lia | done].
  - apply StronglySorted_cons. split; [|by apply StronglySorted_cons].
    constructor; [lia|]. eapply Forall_impl; [done|]. simpl. lia.
Qed.

Lemma filter_sorted {A} (R : relation A) (P : A -> Prop) `{forall x, Decision (P x)} l :
  StronglySorted R l -> StronglySorted R (filter P l).
Proof.
  induction l as [|x l IH]; [done|]. intros [Hx Hl]%StronglySorted_cons. rewrite filter_cons.
  case_decide; [|auto]. apply StronglySorted_cons. split; [|auto].
  apply Forall_forall. intros y [_ Hy]%list_elem_of_filter. by apply (proj1 (Forall_forall _ _) Hx).
Qed.

(** A wheel is sorted whichever equivalent way its keys are read. *)
Lemma sorted_ext (k1 k2 : nat -> Z) l : (forall p, k1 p = k2 p) ->
  StronglySorted (fun x y => k1 x <= k1 y) l -> StronglySorted (fun x y => k2 x <= k2 y) l.
Proof.
  intros Hk. induction 1 as [|x l Hl IH Hx]; constructor; [done|].
  eapply Forall_impl; [done|]. intros y. simpl. by rewrite !Hk.
Qed.

Section Sorted.

Context (key : stream_out -> Z).
Hypothesis key_linked : forall b s, key (with_linked b s) = key s.
Hypothesis key_push : forall q s, key (push_queue q s) = key s.
Hypothesis key_pop : forall q s, key (pop_queue q s) = key s.

Lemma upd_sorted a p f : (forall s, key (f s) = key s) ->
  sorted_by key a -> sorted_by key (upd_strq a p f).
Proof.
  intros Hf. unfold sorted_by. cbn [wheel upd_strq set_streams].
  apply sorted_ext. intros q. symmetry. by apply (upd_strq_proj key).
Qed.

Lemma guarded_add_sorted a p :
  sorted_by key a -> sorted_by key (guarded_add (place_sorted key) a p).
Proof.
  intros Ha. unfold guarded_add. case_match; [|done]. apply upd_sorted; [apply key_linked|].
  unfold sorted_by, place_sorted. cbn [wheel set_wheel].
  destruct (TAILQ_EMPTY (wheel a)); [repeat constructor|].
  by apply (insert_sorted_sorted (fun q => key (strq_of a q))).
Qed.

Lemma remove_sorted a p sp a' :
  sctp_ss_default_remove a p sp = Some a' -> sorted_by key a -> sorted_by key a'.
Proof.
  unfold sctp_ss_default_remove. intros H Ha. case_match; [|by injection H as <-].
  set (a1 := if opt_eqb (last_out_stream a) (Some p) then _ else a) in H.
  assert (wheel a1 = wheel a /\ streams a1 = streams a) as (Hw & Hs)
    by (unfold a1; by destruct (opt_eqb (last_out_stream a) (Some p))).
  rewrite Hw in H. unfold TAILQ_REMOVE in H. case_decide; [|done].
  cbn [mbind option_bind] in H. injection H as <-.
  apply upd_sorted; [apply key_linked|]. unfold sorted_by. cbn [wheel set_wheel].
  apply filter_sorted. eapply sorted_ext; [|exact Ha].
  intros q. unfold strq_of. cbn [streams set_wheel]. by rewrite Hs.
Qed.

Lemma reachable_sorted a a' :
  sorted_by key a ->
  rtc (sched_step (fun a p _ => guarded_add (place_sorted key) a p) sctp_ss_default_remove) a a' ->
  sorted_by key a'.
Proof.
  intros Ha H. induction H as [|a b c Hab _ IH]; [done|]. apply IH. destruct Hab as [a strm sp _|a strq sp a' E|].
  - apply guarded_add_sorted. by apply upd_sorted.
  - eapply remove_sorted; [exact E|]. by apply upd_sorted.
  - exact Ha.
Qed.

End Sorted.

(** The field the wheel of a scheduler is sorted by. *)
Definition sort_key (m : ss_module) : option (stream_out -> Z) :=
  match m with
  | SCTP_SS_ROUND_ROBIN | SCTP_SS_ROUND_ROBIN_PACKET => Some so_sid
  | SCTP_SS_PRIORITY => Some so_priority
  | _ => None
  end.

(** C14. The round-robin schedulers keep the wheel in ascending stream number and
    the priority scheduler keeps it in ascending priority, under every
    interleaving of queueing, dequeueing and scheduling. *)
Theorem wheel_stays_sorted (m : ss_module) (key : stream_out -> Z) (a a' : association)
  (Hm : sort_key m = Some key) (Ha : sorted_by key a)
  (Hstep : rtc (sched_step (sctp_ss_add_to_stream (sctp_ss_functions m))
                 (sctp_ss_remove_from_stream (sctp_ss_functions m))) a a') :
  sorted_by key a'.
Proof.
  destruct m; try discriminate Hm; injection Hm as <-;
    match goal with H : sorted_by ?key _ |- _ =>
      exact (reachable_sorted key (fun _ _ => eq_refl) (fun _ _ => eq_refl)
               (fun _ _ => eq_refl) a a' Ha Hstep) end.
Qed.

Lemma wheel_stays_sorted_witness :
  sorted_by so_sid (sched_enqueue sctp_ss_rr_add demo_asoc 1 13).
Proof.
  apply (wheel_stays_sorted SCTP_SS_ROUND_ROBIN so_sid demo_asoc); [reflexivity | |].
  - apply (bool_decide_unpack _). vm_compute. exact I.
  - apply rtc_once, step_enqueue. vm_compute. eauto.
Defined.

(** The two readings of the union. *)
Lemma so_priority_set v s : so_priority (with_priority v s) = u16 v.
Proof. unfold so_priority, with_priority. cbn [so_params]. width_lia. Qed.

Lemma so_rounds_set v s : so_rounds (with_rounds v s) = i32 v.
Proof. unfold so_rounds, with_rounds. cbn [so_params]. width_lia. Qed.

(** A priority change of a stream that has data queued is stored but its
    place on the wheel stays: the wheel is returned unchanged, so it is in
    general no longer sorted by priority. *)
Theorem prio_set_value_keeps_place (a : association) (p : nat) (v : Z)
  (Hinv : wheel_inv a) (Hp : p ∈ wheel a) (Hq : queue_empty a p = false) :
  exists a', sctp_ss_prio_set_value a (Some p) v = Some (1, a')
    /\ wheel a' = wheel a /\ sctp_ss_prio_get_value a' (Some p) = (1, Some (u16 v)).
Proof.
  apply Hinv in Hp as Hl. pose proof (linked_in_store a p Hl) as Hs.
  cbn [sctp_ss_prio_set_value]. set (a1 := upd_strq a p (with_priority v)).
  assert (queue_empty a1 p = false) as Hq1.
  { unfold queue_empty, a1. by rewrite (upd_strq_proj so_outqueue). }
  assert (so_linked (strq_of a1 p) = true) as Hl1.
  { unfold a1. by rewrite (upd_strq_proj so_linked). }
  unfold sctp_ss_prio_remove, sctp_ss_prio_add. rewrite Hq1. cbn [andb mbind option_bind].
  rewrite Hq1, Hl1. cbn [negb andb]. exists a1. split_and!; try done.
  unfold sctp_ss_prio_get_value, a1. by rewrite strq_of_upd, decide_True, so_priority_set.
Qed.

Lemma prio_set_value_keeps_place_witness :
  exists a', sctp_ss_prio_set_value demo_asoc (Some 0%nat) 9 = Some (1, a')
    /\ wheel a' = wheel demo_asoc /\ sctp_ss_prio_get_value a' (Some 0%nat) = (1, Some 9).
Proof.
  apply (prio_set_value_keeps_place demo_asoc 0 9);
    [exact demo_inv | vm_compute; constructor | reflexivity].
Defined.

Example prio_set_value_unsorts :
  let a := upd_strq demo_asoc 0 (with_priority 0) in
  bool_decide (sorted_by so_priority a) = true
  /\ option_map (fun r => bool_decide (sorted_by so_priority r.2))
       (sctp_ss_prio_set_value a (Some 0%nat) 9) = Some false.
Proof. vm_compute. done. Qed.

(** Stream 1 of [demo_asoc] is idle and has priority 1.  A change to the fair-bandwidth
    scheduler resets only the streams on the wheel, so the priority is taken for a number
    of rounds, and the stream's first message, of 500 bytes, does not set it. *)
Example stale_priority_is_rounds :
  option_map (fun a => so_rounds (strq_of (sched_enqueue sctp_ss_fb_add a 1 13) 1))
    (change_scheduler 10 SCTP_SS_PRIORITY SCTP_SS_FAIR_BANDWITH demo_asoc) = Some 1.
Proof. vm_compute. reflexivity. Qed.

(** Priority selection without a destination constraint returns either the
    wheel's neighbour of the stream served last when it has the same priority,
    or a stream that no stream on the wheel precedes in priority. *)
Theorem prio_select_class (a : association) (cmt : Z) (k : nat)
  (Hsort : sorted_by so_priority a) (Hne : wheel a <> []) :
  exists r, sctp_ss_prio_select (S k) cmt None a = Some (Some r) /\ r ∈ wheel a
    /\ ((exists l, last_out_stream a = Some l /\ TAILQ_NEXT (wheel a) l = Some r
                   /\ so_priority (strq_of a r) = so_priority (strq_of a l))
        \/ forall q, q ∈ wheel a -> so_priority (strq_of a r) <= so_priority (strq_of a q)).
Proof.
  assert (exists r, TAILQ_FIRST (wheel a) = Some r /\ r ∈ wheel a
    /\ forall q, q ∈ wheel a -> so_priority (strq_of a r) <= so_priority (strq_of a q)) as Hf.
  { unfold sorted_by in Hsort. destruct (wheel a) as [|r w]; [done|]. exists r.
    split; [done|]. split; [constructor|]. apply StronglySorted_cons in Hsort as [Hr _].
    intros q [-> | Hq]%elem_of_cons; [lia|]. by apply (proj1 (Forall_forall _ _) Hr). }
  unfold sctp_ss_prio_select. cbn [prio_again]. unfold rejected.
  destruct Hf as (f & Hf & Hfin & Hfmin).
  destruct (last_out_stream a) as [l|] eqn:El; cbn [prio_next]; [|rewrite Hf; naive_solver].
  destruct (TAILQ_NEXT (wheel a) l) as [n|] eqn:En; [|rewrite Hf; naive_solver].
  destruct (Z.eqb_spec (so_priority (strq_of a n)) (so_priority (strq_of a l))).
  - exists n. split; [done|]. split; [by apply tailq_next_in in En | left; by exists l].
  - rewrite Hf. naive_solver.
Qed.

Lemma prio_select_class_witness :
  exists r, sctp_ss_prio_select 1 0 None (set_wheel demo_asoc [2%nat; 0%nat]) = Some (Some r)
    /\ r ∈ [2%nat; 0%nat]
    /\ ((exists l, Some 0%nat = Some l /\ TAILQ_NEXT [2%nat; 0%nat] l = Some r
                   /\ so_priority (strq_of demo_asoc r) = so_priority (strq_of demo_asoc l))
        \/ forall q, q ∈ [2%nat; 0%nat]
             -> so_priority (strq_of demo_asoc r) <= so_priority (strq_of demo_asoc q)).
Proof.
  apply (prio_select_class (set_wheel demo_asoc [2%nat; 0%nat]) 0 0); [|discriminate].
  apply (bool_decide_unpack _). vm_compute. exact I.
Defined.
