(* ===== verification/FairProps.v ===== *)
(** * Fair-bandwidth and first-come-first-served scheduling

    The two policies of [StreamSched] whose selection is not a walk to the next
    stream: the [do ... while] search of [sctp_ss_fb_select] for the stream with
    the fewest outstanding rounds, and the message list of the FCFS functions. *)

From S2P Require Import Prelude Tailq StreamSched SchedProps.

(** ** The fair-bandwidth search *)

Section FbSearch.

Context (a : association) (cmt : Z) (net : option nat).

Abbreviation rounds := (fun p => so_rounds (strq_of a p)).
Abbreviation better := (fb_better a cmt net).

Hypothesis Hnd : NoDup (wheel a).
Hypothesis Hok : forall p, p ∈ wheel a -> fb_eligible a cmt net p = true /\ 0 <= rounds p.

(** The loop just after an iteration: test, then go on. *)
Definition fb_post (fuel : nat) (strq strqt : option nat) : option (option nat) :=
  if opt_eqb strqt strq then Some strq else fb_loop fuel a cmt net strq strqt.

Lemma fb_loop_post fuel strq strqt :
  fb_loop (S fuel) a cmt net strq strqt
    = fb_post fuel (better strq strqt) (fb_advance a strqt).
Proof. done. Qed.

Definition best_of (s : option nat) (l : list nat) : option nat :=
  foldl (fun s p => better s (Some p)) s l.

Lemma better_spec s p : p ∈ wheel a ->
  better s (Some p) = match s with
                      | None => Some p
                      | Some b => if rounds p <? rounds b then Some p else Some b
                      end.
Proof.
  intros [He Hr]%Hok. unfold fb_better. rewrite He. destruct (Z.leb_spec 0 (rounds p)); [|lia].
  destruct s; simpl; [|done]. by destruct (_ <? _).
Qed.

(** The best of a stretch of the wheel is at most every one seen. *)
Lemma best_of_spec l : forall b, (forall p, p ∈ l -> p ∈ wheel a) ->
  exists r, best_of (Some b) l = Some r /\ (r = b \/ r ∈ l)
    /\ rounds r <= rounds b /\ forall p, p ∈ l -> rounds r <= rounds p.
Proof.
  induction l as [|x l IH]; intros b Hl.
  { exists b. split_and!; [done | by left | lia | set_solver]. }
  cbn [best_of foldl]. rewrite better_spec by (apply Hl; constructor).
  assert (forall p, p ∈ l -> p ∈ wheel a) as Hl' by (intros p Hp; apply Hl; by constructor).
  destruct (Z.ltb_spec (rounds x) (rounds b)).
  - destruct (IH x Hl') as (r & E & Hin & H1 & H2). exists r.
    split_and!; [exact E | set_solver | lia |].
    intros p [-> | Hp]%elem_of_cons; [lia | auto].
  - destruct (IH b Hl') as (r & E & Hin & H1 & H2). exists r.
    split_and!; [exact E | set_solver | lia |].
    intros p [-> | Hp]%elem_of_cons; [lia | auto].
Qed.

Lemma advance_split u x v : wheel a = u ++ x :: v -> fb_advance a (Some x) = head v.
Proof.
  intros Hw. cbn [fb_advance]. rewrite Hw. apply tailq_next_split.
  rewrite Hw in Hnd. apply NoDup_app in Hnd as (_ & Hd & _).
  intros Hx. apply (Hd x Hx). constructor.
Qed.

(** Walking a stretch [v] that does not hold the best stream found so far. *)
Lemma fb_walk v : forall u w' s k,
  wheel a = u ++ v ++ w' -> (forall b, s = Some b -> b ∉ v) ->
  fb_post (length v + k) s (head (v ++ w')) = fb_post k (best_of s v) (head w').
Proof.
  induction v as [|x v IH]; intros u w' s k Hw Hs; [done|].
  cbn [length Nat.add app head]. unfold fb_post at 1.
  assert (opt_eqb (Some x) s = false) as ->.
  { apply bool_decide_eq_false. intros <-. apply (Hs x eq_refl). constructor. }
  rewrite fb_loop_post, (advance_split u x (v ++ w')) by (by rewrite Hw).
  rewrite (IH (u ++ [x])); [done | by rewrite <- app_assoc |].
  assert (x ∈ wheel a) as Hx by (rewrite Hw; set_solver).
  rewrite better_spec by done. intros b Hb.
  assert (x ∉ v) as Hxv.
  { rewrite Hw in Hnd. apply NoDup_app in Hnd as (_ & _ & Hnd').
    apply NoDup_cons in Hnd' as [Hnx _]. set_solver. }
  destruct s as [b0|]; [|by injection Hb as <-].
  destruct (rounds x <? rounds b0); injection Hb as <-; [done|].
  specialize (Hs b0 eq_refl). set_solver.
Qed.

(** Passing the end of the wheel. *)
Lemma fb_wrap b k :
  fb_post (S k) (Some b) None = fb_post k (Some b) (head (wheel a)).
Proof. unfold fb_post at 1. change (opt_eqb None (Some b)) with false. done. Qed.

Lemma best_of_keep b l : (forall p, p ∈ l -> p ∈ wheel a /\ rounds b <= rounds p) ->
  best_of (Some b) l = Some b.
Proof.
  induction l as [|x l IH]; intros Hl; [done|]. cbn [best_of foldl].
  destruct (Hl x) as [Hx Hr]; [constructor|]. rewrite better_spec by done.
  destruct (Z.ltb_spec (rounds x) (rounds b)); [lia|].
  apply IH. intros p Hp. apply Hl. by constructor.
Qed.

(** Once the best stream of the whole wheel is found the loop stops at it. *)
Lemma fb_chase b u v k :
  wheel a = u ++ v -> b ∈ wheel a -> (forall p, p ∈ wheel a -> rounds b <= rounds p) ->
  fb_post (2 * length (wheel a) + 1 + k) (Some b) (head v) = Some (Some b).
Proof.
  intros Hw Hb Hmin.
  assert (forall u v k', wheel a = u ++ v -> b ∈ v -> 
    fb_post (length (wheel a) + k') (Some b) (head v) = Some (Some b)) as Hreach.
  { clear u v Hw k. intros u v k' Hw Hbv. apply list_elem_of_split in Hbv as (p & q & ->).
    assert (b ∉ p) as Hbp.
    { rewrite Hw in Hnd. apply NoDup_app in Hnd as (_ & _ & Hnd').
      apply NoDup_app in Hnd' as (_ & Hd & _). intros Hin. apply (Hd b Hin). constructor. }
    replace (length (wheel a) + k')%nat with (length p + (length u + S (length q) + k'))%nat
      by (rewrite Hw, !length_app; simpl; lia).
    rewrite (fb_walk p u (b :: q)) by (done || naive_solver).
    rewrite best_of_keep.
    - unfold fb_post. unfold opt_eqb. by rewrite bool_decide_eq_true_2.
    - intros x Hx. split; [rewrite Hw; set_solver | apply Hmin; rewrite Hw; set_solver]. }
  destruct (decide (b ∈ v)) as [Hbv|Hbv].
  { replace (2 * length (wheel a) + 1 + k)%nat with (length (wheel a) + (length (wheel a) + 1 + k))%nat by lia.
    by apply (Hreach u). }
  replace (2 * length (wheel a) + 1 + k)%nat
    with (length v + S (length (wheel a) + (length u + k)))%nat
    by (rewrite Hw, !length_app; lia).
  rewrite <- (app_nil_r v) at 2. rewrite (fb_walk v u []).
  - rewrite best_of_keep.
    + rewrite fb_wrap. by apply (Hreach []).
    + intros x Hx. split; [rewrite Hw; set_solver | apply Hmin; rewrite Hw; set_solver].
  - by rewrite app_nil_r.
  - naive_solver.
Qed.

Definition fb_fair (r : nat) : Prop :=
  r ∈ wheel a /\ forall p, p ∈ wheel a -> so_rounds (strq_of a r) <= so_rounds (strq_of a p).

(** A full search from any place of the wheel finds a stream with the fewest
    rounds. *)
Lemma fb_search u v k : wheel a = u ++ v -> v <> [] ->
  exists r, fb_post (3 * length (wheel a) + 3 + k) None (head v) = Some (Some r) /\ fb_fair r.
Proof.
  intros Hw Hv. destruct v as [|x v]; [done|].
  assert (forall p, p ∈ v -> p ∈ wheel a) as Hvin by (intros p Hp; rewrite Hw; set_solver).
  assert (forall p, p ∈ u -> p ∈ wheel a) as Huin by (intros p Hp; rewrite Hw; set_solver).
  destruct (best_of_spec v x Hvin) as (b1 & E1 & Hb1 & Hx1 & Hm1).
  destruct (best_of_spec u b1 Huin) as (b2 & E2 & Hb2 & Hx2 & Hm2).
  assert (best_of None (x :: v) = Some b1) as E1'.
  { cbn [best_of foldl]. rewrite better_spec by (rewrite Hw; set_solver). exact E1. }
  assert (b1 ∈ x :: v) as Hb1v by set_solver.
  assert (b1 ∉ u) as Hb1u.
  { intros Hin. rewrite Hw in Hnd. apply NoDup_app in Hnd as (_ & Hd & _). by apply (Hd b1). }
  assert (b2 ∈ wheel a) as Hb2w by (rewrite Hw; set_solver).
  assert (forall p, p ∈ wheel a -> rounds b2 <= rounds p) as Hmin.
  { intros p. rewrite Hw, elem_of_app, elem_of_cons. intros [Hp|[-> | Hp]]; [auto| |].
    - lia.
    - specialize (Hm1 p Hp). lia. }
  exists b2. split; [|done].
  replace (3 * length (wheel a) + 3 + k)%nat
    with (length (x :: v) + S (length u + (2 * length (wheel a) + 1 + S k)))%nat
    by (rewrite Hw, length_app; lia).
  rewrite <- (app_nil_r (x :: v)) at 2.
  rewrite (fb_walk (x :: v) u []) by (rewrite ?app_nil_r; naive_solver).
  rewrite E1', fb_wrap. rewrite Hw at 2.
  rewrite (fb_walk u [] (x :: v)) by naive_solver.
  rewrite E2. by apply (fb_chase b2 u).
Qed.

Lemma fb_select_fair k : wheel a <> [] ->
  exists r, sctp_ss_fb_select (3 * length (wheel a) + 4 + k) cmt net a = Some (Some r)
            /\ fb_fair r.
Proof.
  intros Hne. unfold sctp_ss_fb_select.
  assert (forall u v, wheel a = u ++ v -> v <> [] ->
    exists r, fb_loop (3 * length (wheel a) + 4 + k) a cmt net None (head v) = Some (Some r)
              /\ fb_fair r) as Hstart.
  { intros u v Hw Hv. destruct (fb_search u v (S k) Hw Hv) as (r & E & Hr). exists r.
    split; [|done]. destruct v as [|x v]; [done|]. unfold fb_post in E.
    change (opt_eqb (head (x :: v)) None) with false in E. rewrite <- E. f_equal. lia. }
  assert (exists r, fb_loop (3 * length (wheel a) + 4 + k) a cmt net None None = Some (Some r)
              /\ fb_fair r) as Hwrap.
  { replace (3 * length (wheel a) + 4 + k)%nat with (S (3 * length (wheel a) + 3 + k)) by lia.
    rewrite fb_loop_post. by apply (fb_search [] (wheel a)). }
  destruct (last_out_stream a) as [l|]; [|by apply (Hstart [])].
  destruct (opt_eqb _ _); [by apply (Hstart [])|].
  destruct (decide (l ∈ wheel a)) as [Hl|Hl].
  - apply list_elem_of_split in Hl as (u & v & Hw).
    change (TAILQ_NEXT (wheel a) l) with (fb_advance a (Some l)).
    rewrite (advance_split u l v Hw). destruct v as [|y v]; [exact Hwrap|].
    apply (Hstart (u ++ [l])); [by rewrite Hw, <- app_assoc | done].
  - rewrite tailq_next_off by done. exact Hwrap.
Qed.

End FbSearch.

(** C15. When the destination does not exclude any stream, fair-bandwidth
    selection always ends and returns a stream of the wheel with the fewest
    outstanding rounds, wherever on the wheel the search starts. *)
Theorem fb_select_least_rounds (a : association) (cmt : Z) (net : option nat) (k : nat)
  (Hinv : wheel_inv a) (Hne : wheel a <> [])
  (Hok : forall p, p ∈ wheel a -> fb_eligible a cmt net p = true
                                  /\ 0 <= so_rounds (strq_of a p)) :
  exists r, sctp_ss_fb_select (3 * length (wheel a) + 4 + k) cmt net a = Some (Some r)
    /\ r ∈ wheel a
    /\ forall p, p ∈ wheel a -> so_rounds (strq_of a r) <= so_rounds (strq_of a p).
Proof.
  destruct (fb_select_fair a cmt net (proj1 Hinv) Hok k Hne) as (r & E & H1 & H2).
  by exists r.
Qed.

Lemma fb_select_least_rounds_witness :
  exists r, sctp_ss_fb_select 10 0 None demo_asoc = Some (Some r)
    /\ r ∈ [0%nat; 2%nat]
    /\ forall p, p ∈ [0%nat; 2%nat] -> so_rounds (strq_of demo_asoc r) <= so_rounds (strq_of demo_asoc p).
Proof.
  apply (fb_select_least_rounds demo_asoc 0 None 0); [exact demo_inv | discriminate |].
  intros p Hp. change (wheel demo_asoc) with [0%nat; 2%nat] in Hp.
  apply elem_of_cons in Hp as [-> | Hp]; [vm_compute; split; [done | discriminate]|].
  apply list_elem_of_singleton in Hp as ->. vm_compute. split; [done | discriminate].
Defined.

(** with a destination constraint it can give up too early: when the search
    reaches the end of the wheel without a candidate it returns [NULL] although
    a stream before its starting point has data for the requested destination. *)
Theorem fb_select_gives_up (a : association) (net : nat) (u v : list nat) (l : nat) (k : nat)
  (Hnd : NoDup (wheel a)) (Hw : wheel a = u ++ l :: v) (Hv : v <> [])
  (Hlast : last_out_stream a = Some l)
  (Hout : forall p, p ∈ v -> fb_eligible a 0 (Some net) p = false) :
  sctp_ss_fb_select (length v + k) 0 (Some net) a = Some None.
Proof.
  unfold sctp_ss_fb_select. rewrite Hlast.
  assert (opt_eqb (TAILQ_FIRST (wheel a)) (TAILQ_LAST (wheel a)) = false) as ->.
  { apply bool_decide_eq_false. rewrite Hw in Hnd |- *. intros E.
    destruct v as [|y v _] using rev_ind; [done|].
    unfold TAILQ_FIRST, TAILQ_LAST in E. rewrite app_comm_cons, app_assoc, last_snoc in E.
    destruct u as [|z u]; simpl in E, Hnd; injection E as ->; apply NoDup_cons in Hnd as [Hin _];
      apply Hin; set_solver. }
  change (TAILQ_NEXT (wheel a) l) with (fb_advance a (Some l)).
  rewrite (advance_split a Hnd u l v Hw).
  assert (exists u', wheel a = u' ++ v) as [u' Hu'] by (exists (u ++ [l]); by rewrite Hw, <- app_assoc).
  clear Hw Hlast l u. revert u' Hu'. induction v as [|x v IH]; intros u' Hu'; [done|].
  cbn [length Nat.add head fb_loop]. unfold fb_better. rewrite (Hout x) by constructor. cbn [andb].
  rewrite (advance_split a Hnd u' x v Hu'). destruct v as [|y v]; [done|].
  change (opt_eqb (head (y :: v)) None) with false. cbv match.
  apply (IH ltac:(done)) with (u' := u' ++ [x]).
  - intros p Hp. apply Hout. by constructor.
  - by rewrite Hu', <- app_assoc.
Qed.

Lemma fb_select_gives_up_witness :
  sctp_ss_fb_select (1 + 9) 0 (Some 1%nat) demo_asoc = Some None.
Proof.
  apply (fb_select_gives_up demo_asoc 1 [] [2%nat] 0 9);
    [exact (proj1 demo_inv) | reflexivity | discriminate | reflexivity |].
  intros p Hp. apply list_elem_of_singleton in Hp as ->. reflexivity.
Defined.

(** Stream 0 of the same association has data for destination 1. *)
Example fb_select_misses_candidate : fb_eligible demo_asoc 0 (Some 1%nat) 0 = true.
Proof. reflexivity. Qed.

(** ** First come, first served *)

(** The [n]-th messages of all streams, in stream order: one round of the
    initialisation loop. *)
Definition column (a : association) (n : nat) : list nat :=
  omap (fun p => so_outqueue (strq_of a p) !! n) (strmout a).

(** The order the initialisation gives to messages already queued. *)
Definition fcfs_order (a : association) (N : nat) : list nat :=
  concat (map (column a) (seq 0 N)).

Definition queues_below (a : association) (N : nat) : Prop :=
  forall p, p ∈ strmout a -> (length (so_outqueue (strq_of a p)) <= N)%nat.

(** Only the FCFS list and the link flags differ. *)
Definition same_queues (a a' : association) : Prop :=
  streams a' = streams a /\ strmout a' = strmout a /\ dom (pendings a') = dom (pendings a).

Definition add_new (l : list nat) (q : nat) : list nat := if decide (q ∈ l) then l else l ++ [q].

Definition fcfs_inv (a : association) : Prop :=
  forall q, q ∈ dom (pendings a) -> (sp_linked (sp_of a q) = true <-> q ∈ fcfs_list a).

Lemma fcfs_add_spec a p q : fcfs_inv a -> q ∈ dom (pendings a) ->
  let a' := sctp_ss_fcfs_add a p (Some q) in
  fcfs_list a' = add_new (fcfs_list a) q /\ fcfs_inv a' /\ same_queues a a'.
Proof.
  intros Hinv Hq. unfold sctp_ss_fcfs_add, add_new. pose proof (Hinv q Hq) as Hl.
  destruct (sp_linked (sp_of a q)) eqn:E; cbn [negb].
  - rewrite decide_True by tauto. done.
  - rewrite decide_False by (rewrite <- Hl; done). split; [done|]. split.
    + intros q' Hq'. cbn [pendings fcfs_list set_fcfs] in *. rewrite dom_alter_L in Hq'.
      unfold sp_of in *. cbn [pendings set_fcfs]. rewrite elem_of_app, list_elem_of_singleton.
      destruct (decide (q = q')) as [<-|Hne].
      * rewrite lookup_alter_eq. apply elem_of_dom in Hq as [s ->]. cbn. tauto.
      * rewrite lookup_alter_ne by done. rewrite (Hinv q' Hq'). naive_solver.
    + unfold same_queues. cbn [pendings streams strmout set_fcfs]. by rewrite dom_alter_L.
Qed.

Lemma same_queues_trans a b c : same_queues a b -> same_queues b c -> same_queues a c.
Proof. unfold same_queues. intros (->&->&->) (->&->&->). done. Qed.

Lemma same_queues_strq a a' p : same_queues a a' -> strq_of a' p = strq_of a p.
Proof. intros (H&_). unfold strq_of. by rewrite H. Qed.

Lemma omap_pointwise {A B} (f g : A -> option B) (l : list A) :
  (forall x, f x = g x) -> omap f l = omap g l.
Proof. intros Hfg. induction l as [|x l IH]; [done|]. cbn. by rewrite Hfg, IH. Qed.

(** One round over any list of streams. *)
Lemma fcfs_round_spec n l : forall a b, fcfs_inv a ->
  (forall p q, p ∈ l -> so_outqueue (strq_of a p) !! n = Some q -> q ∈ dom (pendings a)) ->
  let col := omap (fun p => so_outqueue (strq_of a p) !! n) l in
  let r := foldl (fun '(a, more) p =>
             match so_outqueue (strq_of a p) !! n with
             | Some q => (sctp_ss_fcfs_add a p (Some q), true)
             | None => (a, more)
             end) (a, b) l in
  fcfs_list r.1 = foldl add_new (fcfs_list a) col /\ fcfs_inv r.1 /\ same_queues a r.1
  /\ r.2 = b || negb (bool_decide (col = [])).
Proof.
  induction l as [|p l IH]; intros a b Hinv Hdom; cbn [foldl omap list_omap].
  { split_and!; try done. by rewrite orb_false_r. }
  destruct (so_outqueue (strq_of a p) !! n) as [q|] eqn:Eq.
  - assert (q ∈ dom (pendings a)) as Hq by (apply (Hdom p); [constructor | done]).
    destruct (fcfs_add_spec a p q Hinv Hq) as (H1 & H2 & H3).
    set (a1 := sctp_ss_fcfs_add a p (Some q)) in *.
    assert (omap (fun p => so_outqueue (strq_of a1 p) !! n) l
            = omap (fun p => so_outqueue (strq_of a p) !! n) l) as Hcol.
    { apply omap_pointwise. intros x. by rewrite (same_queues_strq a a1). }
    destruct (IH a1 true H2) as (I1 & I2 & I3 & I4).
    { intros p' q' Hp'. rewrite (same_queues_strq a a1) by done. destruct H3 as (_&_&->).
      apply Hdom. by constructor. }
    rewrite Hcol, H1 in I1. split_and!; [exact I1 | exact I2 | |].
    + eapply same_queues_trans; [exact H3 | exact I3].
    + rewrite I4. by rewrite orb_true_r.
  - apply IH; [done|]. intros p' q' Hp'. apply Hdom. by constructor.
Qed.

Definition all_stored (a : association) : Prop :=
  forall p q, p ∈ strmout a -> q ∈ so_outqueue (strq_of a p) -> q ∈ dom (pendings a).

Lemma column_same a a' n : same_queues a a' -> column a' n = column a n.
Proof.
  intros H. unfold column. destruct H as (Hs & -> & Hd).
  apply omap_pointwise. intros p. unfold strq_of. by rewrite Hs.
Qed.

Lemma column_nil a n N : queues_below a N -> (N <= n)%nat -> column a n = [].
Proof.
  unfold column, queues_below. intros Hb Hn. induction (strmout a) as [|p l IH]; [done|].
  cbn [omap list_omap]. rewrite (lookup_ge_None_2 (so_outqueue (strq_of a p)) n).
  - apply IH. intros p' Hp'. apply Hb. by constructor.
  - specialize (Hb p ltac:(constructor)). lia.
Qed.

(** The initialisation loop from round [n] on adds the remaining columns. *)
Lemma fcfs_fill_spec N : forall k a n, fcfs_inv a -> all_stored a -> queues_below a N ->
  (N <= n + k)%nat ->
  exists a', fcfs_fill (S k) n a = Some a'
    /\ fcfs_list a' = foldl add_new (fcfs_list a) (concat (map (column a) (seq n k)))
    /\ same_queues a a'.
Proof.
  induction k as [|k IH]; intros a n Hinv Hst Hb Hn.
  - cbn [fcfs_fill]. unfold fcfs_round.
    destruct (fcfs_round_spec n (strmout a) a false Hinv) as (H1 & _ & H3 & H4).
    { intros p q Hp Hq. apply (Hst p); [done | by eapply list_elem_of_lookup_2]. }
    destruct (foldl _ _ _) as [a1 more]. cbn [fst snd] in *. fold (column a n) in *.
    rewrite (column_nil a n N) in * by (done || lia). subst more. cbn. by exists a1.
  - cbn [fcfs_fill]. unfold fcfs_round.
    destruct (fcfs_round_spec n (strmout a) a false Hinv) as (H1 & H2 & H3 & H4).
    { intros p q Hp Hq. apply (Hst p); [done | by eapply list_elem_of_lookup_2]. }
    destruct (foldl _ _ _) as [a1 more]. cbn [fst snd] in *. fold (column a n) in *.
    cbn [seq map concat]. rewrite foldl_app, <- H1. subst more. cbn [orb].
    destruct (bool_decide_reflect (column a n = [])) as [Hnil|Hcol]; cbn [negb].
    + exists a1. split; [done|]. split; [|done].
      assert (concat (map (column a) (seq (S n) k)) = []) as ->; [|done].
      assert (forall m, (n <= m)%nat -> column a m = []) as Hrest.
      { intros m Hm. unfold column in *. clear -Hnil Hm. induction (strmout a) as [|p l IHl]; [done|].
        cbn [omap list_omap] in *. destruct (so_outqueue (strq_of a p) !! n) eqn:E; [done|].
        apply lookup_ge_None_1 in E. rewrite (lookup_ge_None_2 _ m) by lia. auto. }
      assert (forall j m, (n <= m)%nat -> concat (map (column a) (seq m j)) = []) as Hj.
      { induction j as [|j IHj]; intros m Hm; [done|]. cbn [seq map concat].
        rewrite (Hrest m Hm). apply IHj. lia. }
      apply Hj. lia.
    + destruct (IH a1 (S n)) as (a' & E & E1 & E2).
      * done.
      * intros p q. destruct H3 as (Hs & Hm & Hd). unfold strq_of. rewrite Hs, Hm, Hd. apply Hst.
      * intros p. rewrite (same_queues_strq a a1) by done. destruct H3 as (_ & -> & _). apply Hb.
      * lia.
      * exists a'. split; [exact E|]. split; [|by eapply same_queues_trans].
        rewrite E1. f_equal. clear -H3. generalize (seq (S n) k) as l.
        induction l as [|m l IHl]; [done|]. cbn [map concat]. by rewrite IHl, (column_same a a1).
Qed.

Lemma foldl_add_new l : forall acc, NoDup (acc ++ l) -> foldl add_new acc l = acc ++ l.
Proof.
  induction l as [|x l IH]; intros acc Hnd; cbn [foldl]; [by rewrite app_nil_r|].
  unfold add_new at 2. rewrite decide_False.
  - rewrite IH; by rewrite <- app_assoc.
  - apply NoDup_app in Hnd as (_ & Hd & _). intros Hx. apply (Hd x Hx). constructor.
Qed.

(** Switching an association to first-come-first-served with messages
    already queued puts every one of them on the list exactly once: first the
    first message of each stream in stream order, then the second ones, and so
    on; the two nested loops end. *)
Theorem fcfs_init_order (a : association) (N : nat)
  (Hfree : forall q, sp_linked (sp_of a q) = false) (Hst : all_stored a)
  (Hb : queues_below a N) (Hnd : NoDup (fcfs_order a N)) :
  exists a', sctp_ss_fcfs_init (S N) a = Some a' /\ fcfs_list a' = fcfs_order a N.
Proof.
  set (a0 := set_fcfs a [] (pendings a)).
  destruct (fcfs_fill_spec N N a0 0) as (a' & E & E1 & _); try done.
  - intros q _. change (sp_of a0 q) with (sp_of a q). rewrite Hfree.
    change (fcfs_list a0) with (@nil nat). set_solver.
  - exists a'. split; [exact E|]. rewrite E1. exact (foldl_add_new _ [] Hnd).
Qed.

Lemma fcfs_init_order_witness :
  exists a', sctp_ss_fcfs_init 3 demo_asoc = Some a' /\ fcfs_list a' = [10; 11; 12]%nat.
Proof.
  apply (fcfs_init_order demo_asoc 2).
  - intros q. unfold sp_of, demo_asoc. cbn [pendings].
    destruct (decide (q = 10%nat)) as [->|]; [done|].
    destruct (decide (q = 11%nat)) as [->|]; [done|].
    destruct (decide (q = 12%nat)) as [->|]; [done|].
    by rewrite !lookup_insert_ne, lookup_singleton_ne by done.
  - intros p q Hp Hq. change (strmout demo_asoc) with [0; 1; 2]%nat in Hp.
    repeat (apply elem_of_cons in Hp as [-> | Hp]); [..| set_solver];
      vm_compute in Hq; vm_compute; repeat (apply elem_of_cons in Hq as [-> | Hq]); try done;
      set_solver.
  - intros p Hp. change (strmout demo_asoc) with [0; 1; 2]%nat in Hp.
    repeat (apply elem_of_cons in Hp as [-> | Hp]); [vm_compute; lia.. | set_solver].
  - apply (bool_decide_unpack _). vm_compute. exact I.
Defined.

Lemma fcfs_round_linked n l : forall a b,
  (forall p q, p ∈ l -> so_outqueue (strq_of a p) !! n = Some q -> sp_linked (sp_of a q) = true) ->
  exists b', foldl (fun '(a, more) p =>
    match so_outqueue (strq_of a p) !! n with
    | Some q => (sctp_ss_fcfs_add a p (Some q), true)
    | None => (a, more)
    end) (a, b) l = (a, b')
    /\ (b' = true -> b = true \/ exists p q, p ∈ l /\ so_outqueue (strq_of a p) !! n = Some q).
Proof.
  induction l as [|p l IH]; intros a b Hl; cbn [foldl]; [exists b; auto|].
  destruct (so_outqueue (strq_of a p) !! n) as [q|] eqn:E.
  - cbn [sctp_ss_fcfs_add]. rewrite (Hl p q) by (done || constructor). cbn [negb].
    destruct (IH a true) as (b' & E' & _); [intros; apply (Hl p0); by (done || constructor)|].
    exists b'. split; [exact E'|]. intros _. right. exists p, q. split; [constructor | done].
  - destruct (IH a b) as (b' & E' & Hb'); [intros; apply (Hl p0); by (done || constructor)|].
    exists b'. split; [exact E'|]. intros H. destruct (Hb' H) as [?|(p' & q' & ? & ?)]; [auto|].
    right. exists p', q'. split; [by constructor | done].
Qed.

(** re-initialising first-come-first-served scheduling on an association
    that already uses it (as adding streams or setting the scheduler again does)
    loses everything that is queued: the messages keep their link fields, so
    none is put back on the emptied list and the scheduler reports itself
    empty. *)
Theorem fcfs_reinit_loses_messages (a : association) (clear_values : Z) (N : nat)
  (Hlinked : forall p q, p ∈ strmout a -> q ∈ so_outqueue (strq_of a p) ->
     sp_linked (sp_of a q) = true)
  (Hb : queues_below a N) :
  exists a', sctp_ss_fcfs_init (S N) (sctp_ss_fcfs_clear clear_values a) = Some a'
    /\ sctp_ss_fcfs_is_empty a' = true
    /\ forall p, so_outqueue (strq_of a' p) = so_outqueue (strq_of a p).
Proof.
  set (a0 := set_fcfs a [] (pendings a)).
  assert (set_fcfs (sctp_ss_fcfs_clear clear_values a) []
            (pendings (sctp_ss_fcfs_clear clear_values a)) = a0) as Ha0.
  { unfold sctp_ss_fcfs_clear. by destruct (negb (clear_values =? 0)). }
  exists a0. unfold sctp_ss_fcfs_init. rewrite Ha0. split; [|done].
  assert (forall k n, (N <= n + k)%nat -> fcfs_fill (S k) n a0 = Some a0) as Hfill.
  { induction k as [|k IH]; intros n Hn; cbn [fcfs_fill]; unfold fcfs_round;
      (destruct (fcfs_round_linked n (strmout a0) a0 false) as (b' & -> & Hb');
       [intros p q Hp Hq; apply (Hlinked p); [done | by eapply list_elem_of_lookup_2]|]);
      destruct b'; try done.
    - destruct (Hb' eq_refl) as [[=]|(p & q & Hp & Hq)].
      apply lookup_lt_Some in Hq. specialize (Hb p Hp).
      change (strq_of a0 p) with (strq_of a p) in Hq. lia.
    - apply IH. lia. }
  apply Hfill. lia.
Qed.

Lemma fcfs_reinit_loses_messages_witness :
  let a := Asoc None None [] [10%nat] [0%nat] {[ 0%nat := StreamOut [10%nat] false 0 0 ]}
             {[ 10%nat := Pending None 100 0 1 0 true ]} 0 1 in
  exists a', sctp_ss_fcfs_init 2 (sctp_ss_fcfs_clear 0 a) = Some a'
    /\ sctp_ss_fcfs_is_empty a' = true
    /\ forall p, so_outqueue (strq_of a' p) = so_outqueue (strq_of a p).
Proof.
  intros a. apply (fcfs_reinit_loses_messages a 0 1).
  - intros p q Hp Hq. change (strmout a) with [0%nat] in Hp.
    apply list_elem_of_singleton in Hp as ->. vm_compute in Hq.
    apply list_elem_of_singleton in Hq as ->. reflexivity.
  - intros p Hp. change (strmout a) with [0%nat] in Hp.
    apply list_elem_of_singleton in Hp as ->. vm_compute. lia.
Defined.
