(* ===== verification/Callout.v ===== *)
(** * Timers: [sctp_callout.c]

    The userspace stack runs its own callout queue: timers are started and
    stopped from any thread, and a timer thread advances the tick count and calls
    the functions of the timers that are due.  The queue lock is dropped around
    each call, so the called function and the other threads may start and stop
    timers, the ones still to be visited included; [sctp_os_timer_next] is the
    cursor that makes this safe.  What happens while the lock is dropped is the
    parameter [handler], a list of queue operations that may depend on the state;
    the called functions themselves are not part of this component. *)

From S2P Require Import Prelude Tailq.

(** ** Data *)

Definition SCTP_CALLOUT_ACTIVE : Z := 0x0002.
Definition SCTP_CALLOUT_PENDING : Z := 0x0004.

(** [struct sctp_callout]; function and argument pointers are opaque. *)
Record sctp_callout := Callout { c_time : Z; c_arg : Z; c_func : Z; c_flags : Z }.

(** The static variables and the queue, all under the queue lock. *)
Record callout_state := CState {
  ticks : Z;
  sctp_os_timer_next : option nat;
  callqueue : list nat;
  timers : gmap nat sctp_callout
}.

Definition timer_of (s : callout_state) (c : nat) : sctp_callout :=
  default (Callout 0 0 0 0) (timers s !! c).

Definition set_timer (s : callout_state) (c : nat) (t : sctp_callout) : callout_state :=
  CState (ticks s) (sctp_os_timer_next s) (callqueue s) (<[c := t]> (timers s)).

Definition set_next (s : callout_state) (n : option nat) : callout_state :=
  CState (ticks s) n (callqueue s) (timers s).

Definition set_queue (s : callout_state) (q : list nat) : callout_state :=
  CState (ticks s) (sctp_os_timer_next s) q (timers s).

Definition set_ticks (s : callout_state) (t : Z) : callout_state :=
  CState t (sctp_os_timer_next s) (callqueue s) (timers s).

Definition with_flags (t : sctp_callout) (f : Z) : sctp_callout :=
  Callout (c_time t) (c_arg t) (c_func t) f.

Definition pending (t : sctp_callout) : bool :=
  negb (Z.land (c_flags t) SCTP_CALLOUT_PENDING =? 0).

(** ** Operations *)

Definition sctp_get_tick_count (s : callout_state) : Z := ticks s.

Definition sctp_os_timer_init (s : callout_state) (c : nat) : callout_state :=
  set_timer s c (Callout 0 0 0 0).

(** Unlinking a timer moves the cursor off it. *)
Definition callout_unlink (s : callout_state) (c : nat) : option callout_state :=
  let s := if opt_eqb (sctp_os_timer_next s) (Some c)
           then set_next s (TAILQ_NEXT (callqueue s) c) else s in
  q ← TAILQ_REMOVE (callqueue s) c;
  Some (set_queue s q).

Definition sctp_os_timer_start (s : callout_state) (c : option nat) (to_ticks : Z)
  (ftn : option Z) (arg : Z) : option callout_state :=
  match c, ftn with
  | Some c, Some ftn =>
      s ← (if pending (timer_of s c) then callout_unlink s c else Some s);
      let to_ticks := if to_ticks <=? 0 then 1 else to_ticks in
      let t := Callout (i32 (ticks s + to_ticks)) arg ftn
                 (Z.lor SCTP_CALLOUT_ACTIVE SCTP_CALLOUT_PENDING) in
      let s := set_timer s c t in
      Some (set_queue s (callqueue s ++ [c]))
  | _, _ => Some s
  end.

Definition sctp_os_timer_stop (s : callout_state) (c : nat) : option (Z * callout_state) :=
  let t := timer_of s c in
  if negb (pending t) then
    Some (0, set_timer s c (with_flags t (Z.land (c_flags t) (Z.lnot SCTP_CALLOUT_ACTIVE))))
  else
    let s := set_timer s c (with_flags t
      (Z.land (c_flags t) (Z.lnot (Z.lor SCTP_CALLOUT_ACTIVE SCTP_CALLOUT_PENDING)))) in
    s ← callout_unlink s c;
    Some (1, s).

(** What may run while the queue lock is dropped. *)
Inductive timer_op :=
| OpStart (c : nat) (to_ticks : Z) (ftn arg : Z)
| OpStop (c : nat).

Definition run_op (s : callout_state) (o : timer_op) : option callout_state :=
  match o with
  | OpStart c n f x => sctp_os_timer_start s (Some c) n (Some f) x
  | OpStop c => '(_, s) ← sctp_os_timer_stop s c; Some s
  end.

Fixpoint run_ops (s : callout_state) (l : list timer_op) : option callout_state :=
  match l with
  | [] => Some s
  | o :: l => s ← run_op s o; run_ops s l
  end.

Section Tick.

(** [c_func(c_arg)] with everything that happens before the lock is taken
    again. *)
Context (handler : Z -> Z -> callout_state -> list timer_op).

(** The [while (c)] loop; the second result is the timers called, in order. *)
Fixpoint tick_loop (fuel : nat) (s : callout_state) (c : option nat) (fired : list nat)
  : option (callout_state * list nat) :=
  match fuel with
  | O => None
  | S fuel =>
      match c with
      | None => Some (s, fired)
      | Some c =>
          let t := timer_of s c in
          if c_time t <=? ticks s then
            let s := set_next s (TAILQ_NEXT (callqueue s) c) in
            q ← TAILQ_REMOVE (callqueue s) c;
            let s := set_queue s q in
            let s := set_timer s c
              (with_flags t (Z.land (c_flags t) (Z.lnot SCTP_CALLOUT_PENDING))) in
            s ← run_ops s (handler (c_func t) (c_arg t) s);
            tick_loop fuel s (sctp_os_timer_next s) (fired ++ [c])
          else tick_loop fuel s (TAILQ_NEXT (callqueue s) c) fired
      end
  end.

Definition sctp_handle_tick (fuel : nat) (delta : Z) (s : callout_state)
  : option (callout_state * list nat) :=
  let s := set_ticks s (i32 (ticks s + delta)) in
  '(s, fired) ← tick_loop fuel s (TAILQ_FIRST (callqueue s)) [];
  Some (set_next s None, fired).

End Tick.

(** ** The queue invariant *)

(** The pending flag of a timer says whether it is queued; the cursor points
    into the queue. *)
Record callout_inv (s : callout_state) : Prop := CInv {
  ci_nodup : NoDup (callqueue s);
  ci_pending : forall c, c ∈ callqueue s <-> pending (timer_of s c) = true;
  ci_next : forall c, sctp_os_timer_next s = Some c -> c ∈ callqueue s
}.

Lemma timer_of_set s c t c' :
  timer_of (set_timer s c t) c' = if decide (c = c') then t else timer_of s c'.
Proof.
  unfold timer_of. cbn [timers set_timer]. rewrite lookup_insert. by case_decide.
Qed.

Lemma pending_started : pending (Callout 0 0 0 (Z.lor SCTP_CALLOUT_ACTIVE SCTP_CALLOUT_PENDING)) = true.
Proof. done. Qed.

Lemma pending_cleared t f :
  Z.land f SCTP_CALLOUT_PENDING = 0 -> pending (with_flags t (Z.land (c_flags t) f)) = false.
Proof.
  intros Hf. unfold pending. cbn [c_flags with_flags]. by rewrite <- Z.land_assoc, Hf, Z.land_0_r.
Qed.

Lemma pending_kept t f :
  Z.land f SCTP_CALLOUT_PENDING = SCTP_CALLOUT_PENDING ->
  pending (with_flags t (Z.land (c_flags t) f)) = pending t.
Proof.
  intros Hf. unfold pending. cbn [c_flags with_flags]. by rewrite <- Z.land_assoc, Hf.
Qed.

(** The cursor splits the queue: what is behind it and what it will visit. *)
Definition cursor_at (s : callout_state) (behind ahead : list nat) : Prop :=
  callqueue s = behind ++ ahead /\ sctp_os_timer_next s = head ahead.

Lemma unlink_spec s c behind ahead :
  NoDup (callqueue s) -> c ∈ callqueue s -> cursor_at s behind ahead ->
  exists s', callout_unlink s c = Some s'
    /\ cursor_at s' (filter (.≠ c) behind) (filter (.≠ c) ahead)
    /\ callqueue s' = filter (.≠ c) (callqueue s) /\ timers s' = timers s /\ ticks s' = ticks s.
Proof.
  intros Hnd Hc [Hq Hn]. unfold callout_unlink.
  set (s1 := if opt_eqb (sctp_os_timer_next s) (Some c) then _ else s).
  assert (callqueue s1 = callqueue s /\ timers s1 = timers s /\ ticks s1 = ticks s)
    as (E1 & E2 & E3) by (unfold s1; by case_match).
  rewrite E1, tailq_remove_in by done. cbn [mbind option_bind].
  eexists. split; [done|]. split; [|done]. split.
  - cbn [callqueue set_queue]. by rewrite Hq, filter_ne_app.
  - cbn [sctp_os_timer_next set_queue]. unfold s1, opt_eqb. rewrite Hn.
    case_bool_decide as Hh.
    + destruct ahead as [|x ahead]; [done|]. injection Hh as ->. cbn [sctp_os_timer_next set_next].
      rewrite Hq in Hnd |- *. apply NoDup_app in Hnd as (_ & Hd & Hnd').
      rewrite tailq_next_split by (intros Hx; apply (Hd c Hx); constructor).
      apply NoDup_cons in Hnd' as [Hnc _]. rewrite filter_cons_False by tauto.
      by rewrite filter_ne_id.
    + destruct ahead as [|x ahead]; [done|]. rewrite filter_cons_True by (intros ->; done). done.
Qed.

Definition due (s : callout_state) (c : nat) : bool := c_time (timer_of s c) <=? ticks s.

(** The state during a pass: the queue split at the cursor, nothing due behind
    it. *)
Record scanning (s : callout_state) (behind ahead : list nat) : Prop := Scanning {
  sc_nodup : NoDup (callqueue s);
  sc_pending : forall c, c ∈ callqueue s <-> pending (timer_of s c) = true;
  sc_cursor : cursor_at s behind ahead;
  sc_behind : forall c, c ∈ behind -> due s c = false
}.

(** How many timers the pass still has to call. *)
Fixpoint due_count (s : callout_state) (l : list nat) : nat :=
  match l with
  | [] => 0
  | c :: l => (if due s c then 1 else 0) + due_count s l
  end.

(** The same with one timer out of the queue and its flags not yet settled. *)
Record detached (s : callout_state) (x : nat) (behind ahead : list nat) : Prop := Detached {
  dt_nodup : NoDup (callqueue s);
  dt_out : x ∉ callqueue s;
  dt_pending : forall c, c <> x -> (c ∈ callqueue s <-> pending (timer_of s c) = true);
  dt_cursor : cursor_at s behind ahead;
  dt_behind : forall c, c ∈ behind -> due s c = false
}.

Lemma due_set_other s x t c : x <> c -> due (set_timer s x t) c = due s c.
Proof. intros Hne. unfold due. rewrite timer_of_set, decide_False by done. done. Qed.

Lemma due_count_ext s s' l : (forall c, c ∈ l -> due s' c = due s c) ->
  due_count s' l = due_count s l.
Proof.
  induction l as [|x l IH]; intros H; [done|]. cbn [due_count].
  rewrite (H x) by constructor. f_equal. apply IH. intros c Hc. apply H. by constructor.
Qed.

Lemma due_count_app s l1 l2 : due_count s (l1 ++ l2) = (due_count s l1 + due_count s l2)%nat.
Proof. induction l1 as [|x l1 IH]; [done|]. cbn [app due_count]. lia. Qed.

Lemma due_count_filter s x l : (due_count s (filter (.≠ x) l) <= due_count s l)%nat.
Proof.
  induction l as [|y l IH]; [done|]. rewrite filter_cons. cbn [due_count].
  case_decide; cbn [due_count]; lia.
Qed.

Lemma scan_detach s x behind ahead :
  scanning s behind ahead -> pending (timer_of s x) = true ->
  exists s', callout_unlink s x = Some s'
    /\ detached s' x (filter (.≠ x) behind) (filter (.≠ x) ahead)
    /\ ticks s' = ticks s /\ timers s' = timers s.
Proof.
  intros [Hnd Hp Hc Hb] Hx. apply Hp in Hx as Hin.
  destruct (unlink_spec s x behind ahead Hnd Hin Hc) as (s' & E & Hc' & Hq & Ht & Hk).
  exists s'. split; [done|]. split; [|done].
  assert (forall c, timer_of s' c = timer_of s c) as Hto by (intros c; unfold timer_of; by rewrite Ht).
  constructor.
  - rewrite Hq. by apply NoDup_filter.
  - rewrite Hq, list_elem_of_filter. tauto.
  - intros c Hne. rewrite Hq, list_elem_of_filter, Hto, <- Hp. tauto.
  - done.
  - intros c [_ Hcb]%list_elem_of_filter. unfold due. rewrite Hto, Hk. by apply Hb.
Qed.

(** Queueing a detached timer with a deadline in the future. *)
Lemma attach_scan s x t behind ahead :
  detached s x behind ahead -> pending t = true -> ticks s < c_time t ->
  let s' := set_queue (set_timer s x t) (callqueue s ++ [x]) in
  exists behind' ahead', scanning s' behind' ahead'
    /\ due_count s' ahead' = due_count s ahead.
Proof.
  intros [Hnd Hout Hp [Hq Hn] Hb] Ht Hlt s'.
  assert (forall c, c <> x -> due s' c = due s c) as Hdue by (intros c Hc; by apply due_set_other).
  assert (due s' x = false) as Hx.
  { unfold due, s'. change (timer_of (set_queue ?a ?b) x) with (timer_of a x).
    rewrite timer_of_set, decide_True by done. cbn [ticks set_queue set_timer]. apply Z.leb_gt. done. }
  assert (NoDup (callqueue s')) as Hnd'.
  { cbn [s' callqueue set_queue]. apply NoDup_app. split; [done|]. split; [|apply NoDup_singleton].
    intros y Hy [=->]%list_elem_of_singleton. done. }
  assert (forall c, c ∈ callqueue s' <-> pending (timer_of s' c) = true) as Hp'.
  { intros c. cbn [s' callqueue set_queue]. rewrite elem_of_app, list_elem_of_singleton.
    change (timer_of s' c) with (timer_of (set_timer s x t) c). rewrite timer_of_set.
    case_decide as Hc; [subst; tauto|]. rewrite Hp by congruence. naive_solver. }
  assert (x ∉ behind /\ x ∉ ahead) as [Hxb Hxa] by (rewrite Hq in Hout; set_solver).
  destruct ahead as [|y ahead].
  - exists (behind ++ [x]), []. split; [|done]. constructor; [done | done | |].
    + split; [|done]. cbn [s' callqueue set_queue]. rewrite Hq. by rewrite !app_nil_r.
    + intros c [Hc | ->%list_elem_of_singleton]%elem_of_app; [|done].
      rewrite Hdue by set_solver. auto.
  - exists behind, ((y :: ahead) ++ [x]). split.
    + constructor; [done | done | |].
      * split; [|done]. cbn [s' callqueue set_queue]. by rewrite Hq, <- app_assoc.
      * intros c Hc. rewrite Hdue by set_solver. auto.
    + rewrite due_count_app. cbn [due_count]. rewrite Hx, Hdue by set_solver.
      rewrite (due_count_ext s s') by (intros c Hc; apply Hdue; set_solver). lia.
Qed.

(** Leaving a detached timer out of the queue. *)
Lemma drop_scan s x t behind ahead :
  detached s x behind ahead -> pending t = false ->
  scanning (set_timer s x t) behind ahead
  /\ due_count (set_timer s x t) ahead = due_count s ahead.
Proof.
  intros [Hnd Hout Hp [Hq Hn] Hb] Ht.
  assert (x ∉ behind /\ x ∉ ahead) as [Hxb Hxa] by (rewrite Hq in Hout; set_solver).
  split; [|apply due_count_ext; intros c Hc; apply due_set_other; set_solver].
  constructor; [done | | done |].
  - intros c. cbn [callqueue set_timer]. rewrite timer_of_set.
    case_decide as Hc; [subst; rewrite Ht; naive_solver|]. apply Hp. congruence.
  - intros c Hc. rewrite due_set_other by set_solver. auto.
Qed.

(** No operation's deadline passes the largest [int]. *)
Definition op_fits (now : Z) (o : timer_op) : Prop :=
  match o with
  | OpStart _ n _ _ => now + Z.max 1 n < 2147483648
  | OpStop _ => True
  end.

Lemma not_pending_detached s x behind ahead :
  scanning s behind ahead -> pending (timer_of s x) = false -> detached s x behind ahead.
Proof.
  intros [Hnd Hp Hc Hb] Hx. constructor; auto. rewrite Hp. congruence.
Qed.

(** Every operation keeps the split: the cursor is never left dangling, nothing
    due slips behind it and nothing due is added. *)
Lemma run_op_scan s o behind ahead :
  scanning s behind ahead -> in_i32 (ticks s) -> op_fits (ticks s) o ->
  exists s' behind' ahead', run_op s o = Some s' /\ scanning s' behind' ahead'
    /\ ticks s' = ticks s /\ (due_count s' ahead' <= due_count s ahead)%nat.
Proof.
  intros Hs Hk Ho. destruct o as [x n f r|x]; cbn [run_op op_fits] in *.
  - unfold sctp_os_timer_start.
    assert (exists s1 b1 a1, (if pending (timer_of s x) then callout_unlink s x else Some s) = Some s1
      /\ detached s1 x b1 a1 /\ ticks s1 = ticks s /\ (due_count s1 a1 <= due_count s ahead)%nat)
      as (s1 & b1 & a1 & -> & Hd & Ht & Hle).
    { destruct (pending (timer_of s x)) eqn:E.
      - destruct (scan_detach s x _ _ Hs E) as (s1 & E1 & Hd & Ht & Hti).
        exists s1, (filter (.≠ x) behind), (filter (.≠ x) ahead). split_and!; try done.
        etransitivity; [|apply due_count_filter].
        rewrite (due_count_ext s s1); [done|]. intros c _. unfold due, timer_of. by rewrite Hti, Ht.
      - exists s, behind, ahead. split_and!; auto using not_pending_detached. }
    cbn [mbind option_bind].
    set (n' := if n <=? 0 then 1 else n). assert (n' = Z.max 1 n) as Hn.
    { unfold n'. destruct (Z.leb_spec n 0); lia. }
    set (t := Callout (i32 (ticks s1 + n')) r f _).
    destruct (attach_scan s1 x t b1 a1 Hd) as (b' & a' & Hs' & Hc').
    { done. }
    { unfold t. cbn [c_time]. rewrite i32_id; width_lia. }
    eexists _, b', a'. split; [reflexivity|]. split; [exact Hs'|]. split; [exact Ht|].
    cbn [callqueue set_timer] in *. rewrite Hc'. exact Hle.
  - unfold sctp_os_timer_stop. destruct (pending (timer_of s x)) eqn:E; cbn [negb].
    + destruct Hs as [Hnd Hp Hc Hb]. apply Hp in E as Hin.
      set (t := with_flags _ _).
      destruct (unlink_spec (set_timer s x t) x behind ahead Hnd Hin Hc)
        as (s1 & -> & Hc1 & Hq1 & Ht1 & Hk1).
      cbn [mbind option_bind]. exists s1, (filter (.≠ x) behind), (filter (.≠ x) ahead).
      assert (forall c, timer_of s1 c = timer_of (set_timer s x t) c) as Hto
        by (intros c; unfold timer_of; by rewrite Ht1).
      assert (forall c, c <> x -> due s1 c = due s c) as Hdue.
      { intros c Hne. rewrite <- (due_set_other s x t) by congruence.
        unfold due. by rewrite Hto, Hk1. }
      split_and!; [done | | done |].
      * constructor; [rewrite Hq1; by apply NoDup_filter | | done |].
        -- intros c. rewrite Hq1, list_elem_of_filter, Hto, timer_of_set. cbn [callqueue set_timer].
           case_decide as Hcx; [subst; unfold t; rewrite pending_cleared by done; naive_solver|].
           rewrite Hp. naive_solver.
        -- intros c [Hcx Hcb]%list_elem_of_filter. rewrite Hdue by done. auto.
      * etransitivity; [|apply due_count_filter]. rewrite (due_count_ext s s1); [done|].
        intros c [Hcx _]%list_elem_of_filter. auto.
    + cbn [mbind option_bind]. eexists _, behind, ahead. split; [reflexivity|].
      destruct (drop_scan s x (with_flags (timer_of s x)
        (Z.land (c_flags (timer_of s x)) (Z.lnot SCTP_CALLOUT_ACTIVE))) behind ahead) as [H1 H2].
      * by apply not_pending_detached.
      * by rewrite pending_kept.
      * split; [exact H1|]. split; [done|]. rewrite H2. done.
Qed.

Lemma run_ops_scan l : forall s behind ahead,
  scanning s behind ahead -> in_i32 (ticks s) -> Forall (op_fits (ticks s)) l ->
  exists s' behind' ahead', run_ops s l = Some s' /\ scanning s' behind' ahead'
    /\ ticks s' = ticks s /\ (due_count s' ahead' <= due_count s ahead)%nat.
Proof.
  induction l as [|o l IH]; intros s behind ahead Hs Hk Hl.
  { exists s, behind, ahead. done. }
  inversion_clear Hl as [|? ? Ho Hl'].
  destruct (run_op_scan s o behind ahead Hs Hk Ho) as (s1 & b1 & a1 & E & Hs1 & Ht1 & Hc1).
  destruct (IH s1 b1 a1 Hs1) as (s2 & b2 & a2 & E2 & Hs2 & Ht2 & Hc2); [by rewrite Ht1..|].
  exists s2, b2, a2. cbn [run_ops]. rewrite E. cbn [mbind option_bind].
  split_and!; [done | done | congruence | lia].
Qed.

(** ** The pass over the queue *)

(** The timers of the queue that are due. *)
Definition waiting (s : callout_state) (c : nat) : Prop := c ∈ callqueue s /\ due s c = true.

Lemma unlink_frame s c s' : callout_unlink s c = Some s' ->
  callqueue s' = filter (.≠ c) (callqueue s) /\ timers s' = timers s /\ ticks s' = ticks s.
Proof.
  unfold callout_unlink, TAILQ_REMOVE. intros H.
  by case_match; simpl in H; case_decide; simplify_eq/=.
Qed.

Lemma waiting_unlink s x s' c : callout_unlink s x = Some s' -> waiting s' c ->
  waiting s c /\ c <> x.
Proof.
  intros (Hq & Ht & Hk)%unlink_frame [Hc Hd]. rewrite Hq, list_elem_of_filter in Hc.
  unfold waiting, due, timer_of in *. rewrite Ht, Hk in Hd. tauto.
Qed.

(** No operation makes a queued timer due. *)
Lemma run_op_waiting s o s' c :
  in_i32 (ticks s) -> op_fits (ticks s) o -> run_op s o = Some s' ->
  waiting s' c -> waiting s c.
Proof.
  intros Hk Ho E Hw. destruct o as [x n f r|x]; cbn [run_op op_fits] in *.
  - unfold sctp_os_timer_start in E.
    destruct (if pending (timer_of s x) then callout_unlink s x else Some s) as [s1|] eqn:E1;
      [|done]. cbn [mbind option_bind] in E. injection E as <-.
    assert (ticks s1 = ticks s /\ (c <> x -> waiting s1 c -> waiting s c)) as [Ht1 Hw1].
    { destruct (pending (timer_of s x)); [|by simplify_eq]. split.
      - by apply unlink_frame in E1 as (_ & _ & ?).
      - intros _ H. by destruct (waiting_unlink _ _ _ _ E1 H). }
    destruct Hw as [Hc Hd]. cbn [callqueue set_queue set_timer] in Hc.
    unfold due in Hd. change (timer_of (set_queue ?a ?b) c) with (timer_of a c) in Hd.
    rewrite timer_of_set in Hd. cbn [ticks set_queue set_timer] in Hd. case_decide as Hcx.
    + cbn [c_time] in Hd. apply Z.leb_le in Hd. rewrite i32_id in Hd; rewrite Ht1 in *;
        destruct (Z.leb_spec n 0); width_lia.
    + apply Hw1; [congruence|]. split; [|done].
      apply elem_of_app in Hc as [?|?%list_elem_of_singleton]; [done | congruence].
  - unfold sctp_os_timer_stop in E. destruct (pending (timer_of s x)); cbn [negb] in E.
    + destruct (callout_unlink _ x) as [s1|] eqn:E1; [|done]. cbn in E. injection E as <-.
      destruct (waiting_unlink _ _ _ _ E1 Hw) as [[Hc Hd] Hne]. split; [done|].
      by rewrite due_set_other in Hd.
    + cbn in E. injection E as <-. destruct Hw as [Hc Hd]. split; [done|].
      unfold due in *. rewrite timer_of_set in Hd. by case_decide; subst.
Qed.

Lemma run_ops_waiting l : forall s s' c,
  in_i32 (ticks s) -> Forall (op_fits (ticks s)) l -> run_ops s l = Some s' ->
  (exists b a, scanning s b a) -> waiting s' c -> waiting s c.
Proof.
  induction l as [|o l IH]; intros s s' c Hk Hl E (b & a & Hs) Hw; [by simplify_eq/=|].
  inversion_clear Hl as [|? ? Ho Hl']. cbn [run_ops] in E.
  destruct (run_op_scan s o b a Hs Hk Ho) as (s1 & b1 & a1 & E1 & Hs1 & Ht1 & _).
  rewrite E1 in E. cbn [mbind option_bind] in E.
  apply (run_op_waiting s o s1); [done..|].
  apply (IH s1 s'); [by rewrite Ht1 | by rewrite Ht1 | done | eauto | done].
Qed.

(** Taking a due timer off the queue and pointing the cursor at its successor. *)
Lemma fire_scan s x behind ahead n :
  scanning (set_next s n) behind (x :: ahead) ->
  let s1 := set_queue (set_next s (TAILQ_NEXT (callqueue s) x)) (behind ++ ahead) in
  TAILQ_REMOVE (callqueue s) x = Some (behind ++ ahead)
  /\ detached s1 x behind ahead.
Proof.
  intros [Hnd Hp [Hq _] Hb]. cbn [callqueue set_next] in *.
  assert (x ∉ behind /\ x ∉ ahead) as [Hxb Hxa].
  { rewrite Hq in Hnd. apply NoDup_app in Hnd as (_ & Hd & [Hx _]%NoDup_cons).
    split; [intros Hx'; apply (Hd x Hx'); constructor | done]. }
  assert (filter (.≠ x) (callqueue s) = behind ++ ahead) as Hf.
  { rewrite Hq, filter_ne_app, filter_cons_False by tauto. by rewrite !filter_ne_id. }
  split.
  - rewrite tailq_remove_in by (rewrite Hq; set_solver). by rewrite Hf.
  - constructor; cbn [callqueue set_queue].
    + rewrite <- Hf. by apply NoDup_filter.
    + set_solver.
    + intros c Hne. change (timer_of _ c) with (timer_of s c).
      rewrite <- (Hp c : _ <-> pending (timer_of s c) = true), Hq. set_solver.
    + split; [done|]. cbn [sctp_os_timer_next set_queue set_next].
      rewrite Hq. by apply tailq_next_split.
    + done.
Qed.

Section Pass.

Context (handler : Z -> Z -> callout_state -> list timer_op) (now : Z).
Hypothesis Hnow : in_i32 now.
Hypothesis Hfits : forall f x s, ticks s = now -> Forall (op_fits now) (handler f x s).

Lemma waiting_head s n behind x ahead :
  scanning (set_next s n) behind (x :: ahead) -> due s x = true -> waiting s x.
Proof.
  intros [_ _ [Hq _] _] Hd. split; [|done]. cbn [callqueue set_next] in Hq.
  rewrite Hq. set_solver.
Qed.

(** One iteration on a due timer. *)
Lemma fire_step s n behind x ahead :
  ticks s = now -> due s x = true -> scanning (set_next s n) behind (x :: ahead) ->
  exists s' behind' ahead',
    (forall fuel fired, tick_loop handler (S fuel) s (Some x) fired
       = tick_loop handler fuel s' (head ahead') (fired ++ [x]))
    /\ ticks s' = now /\ scanning (set_next s' (head ahead')) behind' ahead'
    /\ (due_count s' ahead' <= due_count s ahead)%nat
    /\ (forall c, waiting s' c -> waiting s c /\ c <> x).
Proof.
  intros Ht Hd Hs. destruct (fire_scan s x behind ahead _ Hs) as [Hrem Hdet].
  set (s1 := set_queue _ _) in Hdet.
  set (t' := with_flags (timer_of s x)
               (Z.land (c_flags (timer_of s x)) (Z.lnot SCTP_CALLOUT_PENDING))).
  destruct (drop_scan s1 x t' behind ahead Hdet) as [Hs2 Hc2]; [by apply pending_cleared|].
  set (s2 := set_timer s1 x t') in *.
  set (ops := handler (c_func (timer_of s x)) (c_arg (timer_of s x)) s2).
  assert (Forall (op_fits (ticks s2)) ops) as Hops by (change (ticks s2) with (ticks s); rewrite Ht; by apply Hfits).
  assert (in_i32 (ticks s2)) as Hk2 by (change (ticks s2) with (ticks s); by rewrite Ht).
  destruct (run_ops_scan ops s2 behind ahead Hs2 Hk2 Hops) as (s3 & b3 & a3 & E3 & Hs3 & Ht3 & Hc3).
  exists s3, b3, a3. split_and!.
  - intros fuel fired. cbn [tick_loop].
    change (c_time (timer_of s x) <=? ticks s) with (due s x). rewrite Hd.
    cbn [callqueue set_next]. rewrite Hrem. cbn [mbind option_bind].
    fold s1 t' s2 ops. rewrite E3. cbn [mbind option_bind].
    by destruct (sc_cursor _ _ _ Hs3) as [_ ->].
  - by rewrite Ht3.
  - destruct Hs3 as [? ? [? ?] ?]. by constructor.
  - rewrite <- (due_count_ext s s1 ahead) by done. lia.
  - intros c Hw. apply (run_ops_waiting ops) with (s := s2) in Hw as [Hc Hdc]; [|eauto..].
    assert (c <> x) as Hne by (intros ->; apply (dt_out _ _ _ _ Hdet), Hc).
    unfold s2 in Hdc. rewrite due_set_other in Hdc by congruence. split; [|done]. split; [|done].
    destruct Hs as [_ _ [Hq _] _]. cbn [callqueue set_next s2 s1 set_timer set_queue] in Hq, Hc.
    rewrite Hq. set_solver.
Qed.

(** One iteration on a timer that is not due. *)
Lemma skip_step s n behind x ahead :
  due s x = false -> scanning (set_next s n) behind (x :: ahead) ->
  (forall fuel fired, tick_loop handler (S fuel) s (Some x) fired
     = tick_loop handler fuel s (head ahead) fired)
  /\ scanning (set_next s (head ahead)) (behind ++ [x]) ahead.
Proof.
  intros Hd [Hnd Hp [Hq _] Hb]. split.
  - intros fuel fired. cbn [tick_loop].
    change (c_time (timer_of s x) <=? ticks s) with (due s x). rewrite Hd.
    cbn [callqueue set_next] in Hq, Hnd. rewrite Hq in Hnd |- *.
    rewrite tailq_next_split; [done|].
    apply NoDup_app in Hnd as (_ & Hdj & _). intros Hx. apply (Hdj x Hx). constructor.
  - constructor; [done | done | |].
    + split; [|done]. by rewrite <- app_assoc.
    + intros c [Hc | ->%list_elem_of_singleton]%elem_of_app; [exact (Hb c Hc) | done].
Qed.

(** The loop from a split of the queue: it ends, nothing due is left, and the
    timers it called are distinct and were waiting when it started. *)
Lemma tick_loop_spec n : forall ahead s behind fired,
  (due_count s ahead <= n)%nat -> ticks s = now ->
  scanning (set_next s (head ahead)) behind ahead ->
  exists fuel s' new, tick_loop handler fuel s (head ahead) fired = Some (s', fired ++ new)
    /\ ticks s' = now /\ scanning (set_next s' None) (callqueue s') []
    /\ NoDup new /\ (forall c, c ∈ new -> waiting s c)
    /\ (forall c, waiting s' c -> waiting s c).
Proof.
  induction n as [n IHn] using lt_wf_ind. induction ahead as [|x ahead IHa];
    intros s behind fired Hn Ht Hs.
  { exists 1%nat, s, []. rewrite app_nil_r. split_and!; try done.
    - destruct Hs as [? ? [Hq ?] ?]. rewrite app_nil_r in Hq. cbn [callqueue set_next] in Hq.
      constructor; [done | done | by split; rewrite ?app_nil_r | by rewrite Hq].
    - constructor.
    - intros c Hc. by apply elem_of_nil in Hc. }
  cbn [head due_count] in *. destruct (due s x) eqn:Hd.
  - destruct (fire_step s _ behind x ahead Ht Hd Hs) as (s3 & b3 & a3 & E3 & Ht3 & Hs3 & Hc3 & Hw3).
    destruct (IHn (due_count s3 a3)) with (ahead := a3) (s := s3) (behind := b3)
      (fired := fired ++ [x]) as (fuel & s' & new & E & Ht' & Hs' & Hnd & Hnew & Hw'); [lia..|done|done|].
    exists (S fuel), s', (x :: new). split_and!; try done.
    + by rewrite E3, E, <- app_assoc.
    + constructor; [|done]. intros Hx. by destruct (Hw3 x (Hnew x Hx)).
    + intros c [-> | Hc]%elem_of_cons; [by eapply waiting_head | apply Hw3, Hnew, Hc].
    + intros c Hc. apply Hw3, Hw', Hc.
  - destruct (skip_step s _ behind x ahead Hd Hs) as [E1 Hs1].
    destruct (IHa s (behind ++ [x]) fired) as (fuel & s' & new & E & Hr); [lia | done | done |].
    exists (S fuel), s', new. by rewrite E1.
Qed.

End Pass.

(** ** What a tick does *)

Lemma scanning_start s d : callout_inv s ->
  scanning (set_next (set_ticks s d) (head (callqueue s))) [] (callqueue s).
Proof.
  intros [Hnd Hp _]. constructor; [done | exact Hp | done|].
  intros c Hc. by apply elem_of_nil in Hc.
Qed.

Lemma scanning_end s : scanning (set_next s None) (callqueue s) [] ->
  callout_inv (set_next s None) /\ (forall c, c ∈ callqueue s -> due s c = false).
Proof. intros [Hnd Hp _ Hb]. split; [by constructor | exact Hb]. Qed.

(** C16. A tick terminates whatever the called functions and the other threads
    do to the queue while the lock is dropped, as long as no deadline passes the
    largest [int]: the pass never follows a dangling cursor, no timer it leaves
    in the queue is due, the timers it called are distinct and were all queued
    and due when the pass started, and the queue invariant holds again. *)
Theorem handle_tick_fires_due (handler : Z -> Z -> callout_state -> list timer_op) s delta :
  callout_inv s -> in_i32 (ticks s + delta) ->
  (forall f x s', ticks s' = ticks s + delta -> Forall (op_fits (ticks s + delta)) (handler f x s')) ->
  exists fuel s' fired, sctp_handle_tick handler fuel delta s = Some (s', fired)
    /\ callout_inv s' /\ sctp_get_tick_count s' = ticks s + delta
    /\ (forall c, c ∈ callqueue s' -> due s' c = false)
    /\ NoDup fired
    /\ (forall c, c ∈ fired -> c ∈ callqueue s /\ c_time (timer_of s c) <= ticks s + delta).
Proof.
  intros Hi Hd Hf. unfold sctp_handle_tick. rewrite (i32_id _ Hd).
  set (s0 := set_ticks s (ticks s + delta)).
  destruct (tick_loop_spec handler (ticks s + delta) Hd Hf (due_count s0 (callqueue s0))
              (callqueue s0) s0 [] []) as (fuel & s' & fired & E & Ht & Hs & Hnd & Hw & _);
    [done | done | exact (scanning_start s _ Hi) |].
  exists fuel, (set_next s' None), fired. change (TAILQ_FIRST (callqueue s0)) with (head (callqueue s0)).
  rewrite E. cbn [mbind option_bind app]. destruct (scanning_end _ Hs) as [Hinv Hnone].
  split_and!; [done | done | done | exact Hnone | done |].
  intros c [Hc Hdue]%Hw. split; [exact Hc | by apply Z.leb_le].
Qed.

(** Timers 1 (due), 2 (due later) and 3 (due) in the queue; the function of
    timer 1 stops timer 2, which the cursor points at, and starts timer 1
    again. *)
Definition demo_timers : callout_state :=
  CState 10 None [1; 2; 3]%nat
    {[ 1%nat := Callout 11 1 100 6; 2%nat := Callout 50 2 100 6; 3%nat := Callout 20 3 100 6 ]}.

Definition demo_handler (f x : Z) (s : callout_state) : list timer_op :=
  if x =? 1 then [OpStop 2; OpStart 1 5 100 9] else [].

Lemma demo_timers_inv : callout_inv demo_timers.
Proof.
  constructor; [by apply (bool_decide_unpack _) | | done].
  intros c. unfold demo_timers, timer_of. cbn [callqueue timers].
  rewrite !elem_of_cons, elem_of_nil, !lookup_insert, lookup_singleton.
  repeat case_decide; subst; cbn; naive_solver.
Qed.

Lemma handle_tick_fires_due_witness :
  (exists fuel s' fired, sctp_handle_tick demo_handler fuel 10 demo_timers = Some (s', fired)
    /\ callout_inv s' /\ sctp_get_tick_count s' = ticks demo_timers + 10
    /\ (forall c, c ∈ callqueue s' -> due s' c = false)
    /\ NoDup fired
    /\ (forall c, c ∈ fired -> c ∈ callqueue demo_timers /\ c_time (timer_of demo_timers c) <= ticks demo_timers + 10))
  /\ (option_map snd (sctp_handle_tick demo_handler 10 10 demo_timers) = Some [1; 3]%nat).
Proof.
  split; [|vm_compute; reflexivity].
  apply (handle_tick_fires_due demo_handler demo_timers 10).
  - exact demo_timers_inv.
  - vm_compute; split; congruence.
  - intros f x s' _. unfold demo_handler. destruct (x =? 1); repeat constructor.
Defined.

(** ** With functions that leave the queue alone *)

Lemma quiet_loop : forall ahead s behind fired,
  scanning (set_next s (head ahead)) behind ahead ->
  exists s', tick_loop (fun _ _ _ => []) (S (length ahead)) s (head ahead) fired
    = Some (s', fired ++ List.filter (due s) ahead)
    /\ callqueue s' = behind ++ List.filter (fun c => negb (due s c)) ahead
    /\ (forall c, c ∈ callqueue s' -> timer_of s' c = timer_of s c) /\ ticks s' = ticks s.
Proof.
  induction ahead as [|x ahead IH]; intros s behind fired Hs.
  { exists s. cbn. destruct Hs as [_ _ [Hq _] _]. cbn in Hq. by rewrite app_nil_r. }
  cbn [head length List.filter]. destruct (due s x) eqn:Hd.
  - destruct (fire_scan s x behind ahead _ Hs) as [Hrem Hdet].
    set (s1 := set_queue _ _) in Hdet.
    set (t' := with_flags (timer_of s x)
                 (Z.land (c_flags (timer_of s x)) (Z.lnot SCTP_CALLOUT_PENDING))).
    destruct (drop_scan s1 x t' behind ahead Hdet) as [Hs2 _]; [by apply pending_cleared|].
    set (s2 := set_timer s1 x t') in *.
    assert (x ∉ behind ++ ahead) as Hx by apply (dt_out _ _ _ _ Hdet).
    assert (forall c, c ∈ behind ++ ahead -> timer_of s2 c = timer_of s c) as Hto.
    { intros c Hc. unfold s2. rewrite timer_of_set, decide_False by congruence. done. }
    assert (forall c, c ∈ ahead -> due s2 c = due s c) as Hdue.
    { intros c Hc. unfold due. rewrite Hto by set_solver. done. }
    destruct (IH s2 behind (fired ++ [x])) as (s' & E & Hq & Hk & Ht).
    { destruct Hs2 as [? ? [? ?] ?]. by constructor. }
    rewrite (filter_ext_in (due s2) (due s)) in E
      by (intros c Hc; apply Hdue, list_elem_of_In; done).
    rewrite (filter_ext_in _ (fun c => negb (due s c))) in Hq
      by (intros c Hc; rewrite Hdue; [done | apply list_elem_of_In; done]).
    exists s'. split_and!; [|done| |done].
    + remember (S (length ahead)) as k eqn:Hlen. clear Hlen. cbn [tick_loop].
      change (c_time (timer_of s x) <=? ticks s) with (due s x). rewrite Hd.
      cbn [callqueue set_next]. rewrite Hrem. cbn [mbind option_bind run_ops].
      fold s1 t' s2. destruct Hs2 as [_ _ [_ Hn] _]. rewrite Hn, E. by rewrite <- app_assoc.
    + intros c Hc. rewrite Hk by done. apply Hto. rewrite Hq in Hc.
      apply elem_of_app in Hc as [?|Hc]; [set_solver|].
      apply list_elem_of_In, filter_In in Hc as [Hc _]. apply list_elem_of_In in Hc. set_solver.
  - destruct (skip_step (fun _ _ _ => []) s _ behind x ahead Hd Hs) as [E1 Hs1].
    destruct (IH s (behind ++ [x]) fired Hs1) as (s' & E & Hq & Hr).
    exists s'. rewrite E1, E. split; [done|]. split; [|done]. rewrite Hq. by rewrite <- app_assoc.
Qed.

(** When the called functions leave the queue alone, a tick calls exactly
    the queued timers whose deadline has passed, in the order they were started,
    and leaves exactly the others in the queue, unchanged; one visit per queued
    timer is enough. *)
Theorem handle_tick_quiet s delta :
  callout_inv s -> in_i32 (ticks s + delta) ->
  let expired c := c_time (timer_of s c) <=? ticks s + delta in
  exists s', sctp_handle_tick (fun _ _ _ => []) (S (length (callqueue s))) delta s
    = Some (s', List.filter expired (callqueue s))
    /\ callqueue s' = List.filter (fun c => negb (expired c)) (callqueue s)
    /\ (forall c, c ∈ callqueue s' -> timer_of s' c = timer_of s c).
Proof.
  intros Hi Hd expired. unfold sctp_handle_tick. rewrite (i32_id _ Hd).
  set (s0 := set_ticks s (ticks s + delta)).
  destruct (quiet_loop (callqueue s) s0 [] [] (scanning_start s _ Hi)) as (s' & E & Hq & Hk & _).
  change (TAILQ_FIRST (callqueue s0)) with (head (callqueue s)).
  rewrite E. cbn [mbind option_bind app]. exists (set_next s' None). done.
Qed.

Lemma handle_tick_quiet_witness :
  exists s', sctp_handle_tick (fun _ _ _ => []) 4 10 demo_timers = Some (s', [1; 3]%nat)
    /\ callqueue s' = [2%nat] /\ (forall c, c ∈ callqueue s' -> timer_of s' c = timer_of demo_timers c).
Proof.
  apply (handle_tick_quiet demo_timers 10).
  - exact demo_timers_inv.
  - vm_compute; split; congruence.
Defined.

(** ** Starting and stopping a timer *)

Lemma inv_cursor s : (forall c, sctp_os_timer_next s = Some c -> c ∈ callqueue s) ->
  exists behind ahead, cursor_at s behind ahead.
Proof.
  intros Hn. unfold cursor_at. destruct (sctp_os_timer_next s) as [c|] eqn:E.
  - destruct (list_elem_of_split _ _ (Hn c eq_refl)) as (l1 & l2 & ->). by exists l1, (c :: l2).
  - exists (callqueue s), []. by rewrite app_nil_r.
Qed.

Lemma cursor_inside s behind ahead c : cursor_at s behind ahead ->
  sctp_os_timer_next s = Some c -> c ∈ callqueue s.
Proof. intros [-> ->] Hc. apply head_Some_elem_of in Hc. set_solver. Qed.

(** Unlinking keeps the cursor inside the queue. *)
Lemma unlink_inv s c : NoDup (callqueue s) -> (forall x, sctp_os_timer_next s = Some x -> x ∈ callqueue s) ->
  c ∈ callqueue s -> exists s', callout_unlink s c = Some s'
    /\ callqueue s' = filter (.≠ c) (callqueue s) /\ timers s' = timers s /\ ticks s' = ticks s
    /\ (forall x, sctp_os_timer_next s' = Some x -> x ∈ callqueue s').
Proof.
  intros Hnd Hn Hc.
  destruct (inv_cursor s Hn) as (b & a & Hcur).
  destruct (unlink_spec s c b a Hnd Hc Hcur) as (s' & E & Hcur' & Hq & Ht & Hk).
  exists s'. split_and!; try done. intros x. by eapply cursor_inside.
Qed.

(** Stopping a timer reports whether it was pending and takes exactly it
    off the queue, also when the running pass was about to visit it. *)
Theorem timer_stop_correct s c : callout_inv s ->
  exists s', sctp_os_timer_stop s c = Some ((if pending (timer_of s c) then 1 else 0), s')
    /\ callout_inv s' /\ pending (timer_of s' c) = false
    /\ callqueue s' = filter (.≠ c) (callqueue s).
Proof.
  intros [Hnd Hp Hn]. unfold sctp_os_timer_stop. destruct (pending (timer_of s c)) eqn:E; cbn [negb].
  - apply Hp in E as Hin. set (t := with_flags _ _).
    destruct (unlink_inv (set_timer s c t) c Hnd Hn Hin) as (s' & -> & Hq & Ht & _ & Hn').
    cbn [mbind option_bind]. exists s'. split; [done|].
    assert (forall x, timer_of s' x = if decide (c = x) then t else timer_of s x) as Hto.
    { intros x. rewrite <- timer_of_set. unfold timer_of. by rewrite Ht. }
    split_and!; [constructor | | done].
    + rewrite Hq. by apply NoDup_filter.
    + intros x. rewrite Hq, list_elem_of_filter, Hto. cbn [callqueue set_timer]. case_decide.
      * subst. unfold t. rewrite pending_cleared by done. naive_solver.
      * rewrite Hp. naive_solver.
    + done.
    + rewrite Hto, decide_True by done. by apply pending_cleared.
  - eexists. split; [reflexivity|].
    assert (c ∉ callqueue s) as Hout by (rewrite Hp; congruence).
    split_and!; [constructor; [done | | done] | |].
    + intros x. cbn [callqueue set_timer]. rewrite timer_of_set, Hp. case_decide; [|done].
      subst. by rewrite pending_kept.
    + by rewrite timer_of_set, decide_True, pending_kept.
    + cbn [callqueue set_timer]. by rewrite filter_ne_id.
Qed.

(** Timer 2 is stopped while the pass is about to visit it. *)
Lemma timer_stop_correct_witness :
  callout_inv (set_next demo_timers (Some 2%nat)) /\
  exists s', sctp_os_timer_stop (set_next demo_timers (Some 2%nat)) 2 = Some (1, s')
    /\ callout_inv s' /\ pending (timer_of s' 2) = false /\ callqueue s' = [1; 3]%nat.
Proof.
  assert (callout_inv (set_next demo_timers (Some 2%nat))) as H.
  { destruct demo_timers_inv as [Hnd Hp _]. constructor; [exact Hnd | exact Hp |].
    intros c Hc. injection Hc as <-. do 2 constructor. }
  split; [exact H|]. exact (timer_stop_correct (set_next demo_timers (Some 2%nat)) 2 H).
Defined.

(** Starting a timer, for the first time or again, queues it last with a
    deadline at least one tick ahead, as long as the deadline fits an [int];
    when it does not fit, the deadline wraps into the past and the timer is
    due at once, although it was asked to wait [to_ticks]. *)
Theorem timer_start_deadline s c to_ticks ftn arg :
  callout_inv s -> in_i32 (ticks s) -> in_i32 to_ticks ->
  exists s', sctp_os_timer_start s (Some c) to_ticks (Some ftn) arg = Some s'
    /\ callout_inv s' /\ ticks s' = ticks s
    /\ callqueue s' = filter (.≠ c) (callqueue s) ++ [c]
    /\ c_func (timer_of s' c) = ftn /\ c_arg (timer_of s' c) = arg
    /\ (if ticks s + Z.max 1 to_ticks <? 2147483648
        then c_time (timer_of s' c) = ticks s + Z.max 1 to_ticks
        else due s' c = true).
Proof.
  intros [Hnd Hp Hn] Hk Hto. unfold sctp_os_timer_start.
  assert (exists s1, (if pending (timer_of s c) then callout_unlink s c else Some s) = Some s1
    /\ callqueue s1 = filter (.≠ c) (callqueue s) /\ timers s1 = timers s /\ ticks s1 = ticks s
    /\ (forall x, sctp_os_timer_next s1 = Some x -> x ∈ callqueue s1))
    as (s1 & -> & Hq & Ht & Hk1 & Hn1).
  { destruct (pending (timer_of s c)) eqn:E; [apply unlink_inv; [done..|by apply Hp]|].
    exists s. split_and!; try done. rewrite filter_ne_id; [done|]. rewrite Hp. congruence. }
  cbn [mbind option_bind]. eexists. split; [reflexivity|].
  set (n := if to_ticks <=? 0 then 1 else to_ticks).
  assert (n = Z.max 1 to_ticks) as Hmax by (unfold n; destruct (Z.leb_spec to_ticks 0); lia).
  set (t := Callout _ _ _ _).
  assert (forall x q, timer_of (set_queue (set_timer s1 c t) q) x
    = if decide (c = x) then t else timer_of s x) as Hto'.
  { intros x q. change (timer_of (set_queue ?a ?b) x) with (timer_of a x).
    rewrite timer_of_set. unfold timer_of. by rewrite Ht. }
  split_and!; [constructor | done | | | |].
  - cbn [callqueue set_queue set_timer]. rewrite Hq. apply NoDup_app.
    split; [by apply NoDup_filter|]. split; [|apply NoDup_singleton].
    intros x [Hx _]%list_elem_of_filter Hx'%list_elem_of_singleton. done.
  - intros x. rewrite Hto'. cbn [callqueue set_queue set_timer].
    rewrite Hq, elem_of_app, list_elem_of_filter, list_elem_of_singleton.
    case_decide; [subst; naive_solver|]. rewrite <- Hp. naive_solver.
  - intros x Hx. cbn [callqueue set_queue set_timer sctp_os_timer_next] in *.
    apply elem_of_app. left. by apply Hn1.
  - cbn [callqueue set_queue set_timer]. by rewrite Hq.
  - by rewrite Hto', decide_True.
  - by rewrite Hto', decide_True.
  - unfold due. rewrite Hto', decide_True by done. cbn [ticks set_queue set_timer c_time t].
    rewrite Hk1, Hmax. destruct (Z.ltb_spec (ticks s + Z.max 1 to_ticks) 2147483648).
    + rewrite i32_id; [done | width_lia].
    + apply Z.leb_le. width_lia.
Qed.

(** Timer 2 is restarted with the tick count near its largest value, after
    24 days at 1000 ticks a second: it is due 1000 ticks early. *)
Lemma timer_start_deadline_witness :
  callout_inv (set_ticks demo_timers 2147483000) /\
  exists s', sctp_os_timer_start (set_ticks demo_timers 2147483000) (Some 2%nat) 1000 (Some 7) 8 = Some s'
    /\ callout_inv s' /\ callqueue s' = [1; 3; 2]%nat /\ due s' 2 = true.
Proof.
  assert (callout_inv (set_ticks demo_timers 2147483000)) as H.
  { destruct demo_timers_inv as [Hnd Hp Hn]. constructor; [exact Hnd | exact Hp | exact Hn]. }
  split; [exact H|].
  destruct (timer_start_deadline (set_ticks demo_timers 2147483000) 2 1000 7 8 H)
    as (s' & E & Hi & _ & Hq & _ & _ & Hd); [vm_compute; split; congruence..|].
  exists s'. split; [exact E|]. split; [exact Hi|]. split; [exact Hq | exact Hd].
Defined.
