(* ===== verification/AuthLists.v ===== *)
(** * Authentication parameter lists: [sctp_auth.c], chunk and HMAC id lists

    The list of chunk types a peer must authenticate is a table of 256 flags and
    a count; it is packed for the wire either as one byte per chunk or, beyond 32
    chunks, as a 32-byte bit field.  The HMAC identifiers an end supports are an
    array in order of preference.  A [NULL] pointer is [None]; the outcome of an
    allocation is an argument; an access outside a buffer is [None]. *)

From S2P Require Import Prelude.

Open Scope sctp_scope.

(** ** Chunk lists *)

Definition SCTP_INITIATION : Z := 0x01.
Definition SCTP_INITIATION_ACK : Z := 0x02.
Definition SCTP_SHUTDOWN_COMPLETE : Z := 0x0e.
Definition SCTP_AUTHENTICATION : Z := 0x0f.

Record sctp_auth_chklist := ChkList { chunks : list Z; num_chunks : Z }.

Definition sctp_clear_chunklist : sctp_auth_chklist := ChkList (replicate 256 0) 0.

Definition sctp_alloc_chunklist (ok : bool) : option sctp_auth_chklist :=
  if ok then Some sctp_clear_chunklist else None.

Definition sctp_copy_chunklist (ok : bool) (lst : option sctp_auth_chklist)
  : option sctp_auth_chklist :=
  l ← lst;
  _ ← sctp_alloc_chunklist ok;
  Some l.

Definition restricted (chunk : Z) : bool :=
  (chunk =? SCTP_INITIATION) || (chunk =? SCTP_INITIATION_ACK)
  || (chunk =? SCTP_SHUTDOWN_COMPLETE) || (chunk =? SCTP_AUTHENTICATION).

Definition chunk_at (l : sctp_auth_chklist) (chunk : Z) : Z := nth (Z.to_nat chunk) (chunks l) 0.

Definition set_chunk (l : sctp_auth_chklist) (chunk v n : Z) : sctp_auth_chklist :=
  ChkList (<[Z.to_nat chunk := v]> (chunks l)) n.

(** The result code and the list the pointer refers to. *)
Definition sctp_auth_add_chunk (chunk : Z) (lst : option sctp_auth_chklist)
  : Z * option sctp_auth_chklist :=
  match lst with
  | None => (-1, None)
  | Some l =>
      if restricted chunk then (-1, Some l)
      else if chunk_at l chunk =? 0
           then (0, Some (set_chunk l chunk 1 (u8 (num_chunks l + 1))))
           else (0, Some l)
  end.

Definition sctp_auth_delete_chunk (chunk : Z) (lst : option sctp_auth_chklist)
  : Z * option sctp_auth_chklist :=
  match lst with
  | None => (-1, None)
  | Some l =>
      if chunk_at l chunk =? 1
      then (0, Some (set_chunk l chunk 0 (u8 (num_chunks l - 1))))
      else (0, Some l)
  end.

Definition sctp_auth_get_chklist_size (lst : option sctp_auth_chklist) : Z :=
  match lst with None => 0 | Some l => num_chunks l end.

Definition sctp_auth_is_required_chunk (chunk : Z) (lst : option sctp_auth_chklist) : bool :=
  match lst with None => false | Some l => negb (chunk_at l chunk =? 0) end.

(** [*ptr++ = v], with the number of bytes written so far. *)
Definition put_byte (buf : list Z) (pos : nat) (v : Z) : option (list Z) :=
  if (pos <? length buf)%nat then Some (<[pos := v]> buf) else None.

(** The loop over the 256 types from [i] on that writes the listed ones. *)
Fixpoint list_chunks (fuel : nat) (i : nat) (l : sctp_auth_chklist) (buf : list Z) (count : nat)
  : option (nat * list Z) :=
  match fuel with
  | O => Some (count, buf)
  | S fuel =>
      if negb (chunk_at l (Z.of_nat i) =? 0) then
        buf ← put_byte buf count (Z.of_nat i);
        list_chunks fuel (S i) l buf (S count)
      else list_chunks fuel (S i) l buf count
  end.

Definition sctp_serialize_auth_chunks (lst : option sctp_auth_chklist) (ptr : list Z)
  : option (Z * list Z) :=
  match lst with
  | None => Some (0, ptr)
  | Some l => '(n, b) ← list_chunks 256 0 l ptr 0; Some (Z.of_nat n, b)
  end.

(** [ptr[i / 8] |= 1 << (i % 8)]. *)
Definition set_bit (buf : list Z) (i : nat) : option (list Z) :=
  b ← buf !! (i / 8)%nat;
  Some (<[(i / 8)%nat := Z.lor b (Z.shiftl 1 (Z.of_nat (i mod 8)))]> buf).

Fixpoint pack_bits (fuel : nat) (i : nat) (l : sctp_auth_chklist) (buf : list Z)
  : option (list Z) :=
  match fuel with
  | O => Some buf
  | S fuel =>
      buf ← (if negb (chunk_at l (Z.of_nat i) =? 0) then set_bit buf i else Some buf);
      pack_bits fuel (S i) l buf
  end.

Definition sctp_pack_auth_chunks (lst : option sctp_auth_chklist) (ptr : list Z)
  : option (Z * list Z) :=
  match lst with
  | None => Some (0, ptr)
  | Some l =>
      if num_chunks l <=? 32 then
        '(n, b) ← list_chunks 256 0 l ptr 0; Some (Z.of_nat n, b)
      else b ← pack_bits 256 0 l ptr; Some (32, b)
  end.

Definition add_chunk (l : sctp_auth_chklist) (c : Z) : sctp_auth_chklist :=
  default l (sctp_auth_add_chunk c (Some l)).2.

Fixpoint unpack_bits (fuel : nat) (i : nat) (buf : list Z) (l : sctp_auth_chklist)
  : option sctp_auth_chklist :=
  match fuel with
  | O => Some l
  | S fuel =>
      b ← buf !! (i / 8)%nat;
      unpack_bits fuel (S i) buf
        (if negb (Z.land b (Z.shiftl 1 (Z.of_nat (i mod 8))) =? 0)
         then add_chunk l (Z.of_nat i) else l)
  end.

(** The two nested loops of the bit field visit [index * 8 + offset] in order. *)
Definition sctp_unpack_auth_chunks (ptr : list Z) (num_chunks : Z)
  (lst : option sctp_auth_chklist) : option (Z * option sctp_auth_chklist) :=
  match lst with
  | None => Some (0, None)
  | Some l =>
      if num_chunks <=? 32 then
        if (Z.to_nat num_chunks <=? length ptr)%nat
        then Some (num_chunks, Some (foldl add_chunk l (take (Z.to_nat num_chunks) ptr)))
        else None
      else l ← unpack_bits 256 0 ptr l; Some (32, Some l)
  end.

(** ** HMAC identifier lists *)

Definition SCTP_AUTH_HMAC_ID_RSVD : Z := 0x0000.
Definition SCTP_AUTH_HMAC_ID_SHA1 : Z := 0x0001.

(** [hmac] is the flexible array of [max_algo] entries, the unused ones with
    whatever the memory held. *)
Record sctp_hmaclist := HmacList { max_algo : Z; num_algo : Z; hmac : list Z }.

Definition sctp_alloc_hmaclist (memory : option (list Z)) (num_hmacs : Z) : option sctp_hmaclist :=
  garbage ← memory;
  Some (HmacList num_hmacs 0 garbage).

(** The entries in use. *)
Definition hmac_ids (l : sctp_hmaclist) : list Z := take (Z.to_nat (num_algo l)) (hmac l).

Definition sctp_auth_add_hmacid (lst : option sctp_hmaclist) (hmac_id : Z)
  : Z * option sctp_hmaclist :=
  match lst with
  | None => (-1, None)
  | Some l =>
      if num_algo l =? max_algo l then (-1, Some l)
      else if negb (hmac_id =? SCTP_AUTH_HMAC_ID_SHA1) then (-1, Some l)
      else if existsb (Z.eqb hmac_id) (hmac_ids l) then (-1, Some l)
      else (0, Some (HmacList (max_algo l) (u16 (num_algo l + 1))
                       (<[Z.to_nat (num_algo l) := hmac_id]> (hmac l))))
  end.

Definition sctp_copy_hmaclist (memory : option (list Z)) (lst : option sctp_hmaclist)
  : option sctp_hmaclist :=
  l ← lst;
  n ← sctp_alloc_hmaclist memory (max_algo l);
  Some (HmacList (max_algo l) (num_algo l)
          (hmac_ids l ++ drop (Z.to_nat (num_algo l)) (hmac n))).

Definition sctp_default_supported_hmaclist (memory : option (list Z)) : option sctp_hmaclist :=
  l ← sctp_alloc_hmaclist memory 1;
  (sctp_auth_add_hmacid (Some l) SCTP_AUTH_HMAC_ID_SHA1).2.

(** The two nested loops. *)
Definition sctp_negotiate_hmacid (peer local : option sctp_hmaclist) : Z :=
  match local, peer with
  | Some local, Some peer =>
      default SCTP_AUTH_HMAC_ID_RSVD
        (List.find (fun p => existsb (Z.eqb p) (hmac_ids local)) (hmac_ids peer))
  | _, _ => SCTP_AUTH_HMAC_ID_RSVD
  end.

(** [htons]: the two bytes of a 16-bit value in network order. *)
Definition htons_bytes (v : Z) : list Z := [Z.shiftr v 8 .& 0xff; v .& 0xff].

(** The bytes written and their number. *)
Definition sctp_serialize_hmaclist (lst : option sctp_hmaclist) : Z * list Z :=
  match lst with
  | None => (0, [])
  | Some l => (num_algo l * 2, flat_map htons_bytes (hmac_ids l))
  end.

(** [ntohs(hmacs->hmac_ids[i])] over the bytes of the parameter value. *)
Definition ntohs_at (b : list Z) (i : nat) : Z :=
  Z.shiftl (nth (2 * i) b 0) 8 .| nth (2 * i + 1) b 0.

Definition sctp_verify_hmac_param (hmacs : list Z) (num_hmacs : nat) : Z :=
  if existsb (fun i => ntohs_at hmacs i =? SCTP_AUTH_HMAC_ID_SHA1) (seq 0 num_hmacs)
  then 0 else -1.

Definition sctp_auth_is_supported_hmac (lst : option sctp_hmaclist) (id : Z) : bool :=
  match lst with
  | None => false
  | Some l =>
      if id =? SCTP_AUTH_HMAC_ID_RSVD then false else existsb (Z.eqb id) (hmac_ids l)
  end.

(** ** The chunk list as a set *)

Fixpoint sum (l : list Z) : Z := match l with [] => 0 | v :: l => v + sum l end.

(** Every entry is a flag, the count is the number of flags set and a restricted
    chunk type is never listed. *)
Record chklist_wf (l : sctp_auth_chklist) : Prop := ChkWf {
  wf_length : length (chunks l) = 256%nat;
  wf_flags : Forall (fun v => v = 0 \/ v = 1) (chunks l);
  wf_count : num_chunks l = sum (chunks l);
  wf_restricted : forall c, 0 <= c < 256 -> restricted c = true -> chunk_at l c = 0
}.

Definition listed (l : sctp_auth_chklist) (c : Z) : bool := negb (chunk_at l c =? 0).

Lemma sum_insert l i v : (i < length l)%nat -> sum (<[i := v]> l) = sum l + v - nth i l 0.
Proof.
  revert i. induction l as [|x l IH]; intros i Hi; cbn in Hi; [lia|].
  destruct i as [|i]; cbn; [lia|]. rewrite IH by lia. lia.
Qed.

Lemma sum_le l1 l2 : Forall2 Z.le l1 l2 -> sum l1 <= sum l2.
Proof. induction 1; cbn; lia. Qed.

Lemma sum_nonneg l : Forall (fun v => v = 0 \/ v = 1) l -> 0 <= sum l.
Proof. induction 1 as [|? ? [|]]; cbn; lia. Qed.

Lemma nth_insert l i j v : (i < length l)%nat ->
  nth j (<[i := v]> l) 0 = if decide (j = i) then v else nth j l 0.
Proof.
  intros Hi. rewrite !nth_lookup. case_decide as E.
  - subst j. by rewrite list_lookup_insert_eq.
  - by rewrite list_lookup_insert_ne.
Qed.

Lemma chunk_at_set l c v n i : length (chunks l) = 256%nat -> 0 <= c < 256 -> 0 <= i ->
  chunk_at (set_chunk l c v n) i = if decide (i = c) then v else chunk_at l i.
Proof.
  intros Hl Hc Hi. unfold chunk_at, set_chunk. cbn [chunks]. rewrite nth_insert by lia.
  destruct (decide (i = c)), (decide (Z.to_nat i = Z.to_nat c)); subst; lia || done.
Qed.

(** At most 252 chunk types can be listed, so the 8-bit count never wraps. *)
Lemma chklist_count_bound l : length (chunks l) = 256%nat ->
  Forall (fun v => v = 0 \/ v = 1) (chunks l) ->
  (forall c, 0 <= c < 256 -> restricted c = true -> chunk_at l c = 0) ->
  0 <= sum (chunks l) <= 252.
Proof.
  intros Hl Hf Hr. split; [by apply sum_nonneg|].
  set (cap := map (fun i => if restricted (Z.of_nat i) then 0 else 1) (seq 0 256)).
  transitivity (sum cap); [|by vm_compute]. apply sum_le.
  apply Forall2_same_length_lookup. split; [by rewrite Hl|].
  intros i x y Hx Hy. unfold cap in Hy. rewrite list_lookup_fmap in Hy.
  apply fmap_Some in Hy as (j & Hj & ->). apply lookup_seq in Hj as [-> Hi]. cbn [Nat.add].
  destruct (restricted (Z.of_nat i)) eqn:E.
  - apply Hr in E; [|lia]. unfold chunk_at in E. rewrite Nat2Z.id, nth_lookup, Hx in E.
    cbn in E. lia.
  - apply (Forall_lookup_1 _ _ _ _ Hf) in Hx. lia.
Qed.

Lemma set_chunk_wf l c v : chklist_wf l -> 0 <= c < 256 -> v = 0 \/ v = 1 -> restricted c = false ->
  chklist_wf (set_chunk l c v (u8 (num_chunks l + v - chunk_at l c))).
Proof.
  intros [Hl Hf Hn Hr] Hc Hv Hrc.
  assert (length (chunks (set_chunk l c v 0)) = 256%nat) as Hl'
    by (cbn [chunks set_chunk]; by rewrite length_insert).
  assert (Forall (fun v => v = 0 \/ v = 1) (chunks (set_chunk l c v 0))) as Hf'
    by (cbn [chunks set_chunk]; by apply Forall_insert).
  assert (forall d, 0 <= d < 256 -> restricted d = true -> chunk_at (set_chunk l c v 0) d = 0) as Hr'.
  { intros d Hd E. rewrite chunk_at_set by (done || lia). case_decide; [congruence | auto]. }
  constructor; [done | done | | done]. cbn [num_chunks chunks set_chunk].
  pose proof (chklist_count_bound _ Hl' Hf' Hr') as Hb. cbn [chunks set_chunk] in Hb.
  rewrite sum_insert in Hb |- * by lia. rewrite Hn. unfold chunk_at. width_lia.
Qed.

Lemma chunk_at_flag l c : chklist_wf l -> chunk_at l c = 0 \/ chunk_at l c = 1.
Proof.
  intros [_ Hf _ _]. unfold chunk_at. rewrite nth_lookup.
  destruct (chunks l !! Z.to_nat c) eqn:E; [|by left].
  by apply (Forall_lookup_1 _ _ _ _ Hf) in E.
Qed.

(** Two well-formed lists with the same members are the same. *)
Lemma chklist_ext l1 l2 : chklist_wf l1 -> chklist_wf l2 ->
  (forall c, 0 <= c < 256 -> listed l1 c = listed l2 c) -> l1 = l2.
Proof.
  intros H1 H2 He.
  assert (chunks l1 = chunks l2) as E.
  { apply (nth_ext _ _ 0 0); [by rewrite (wf_length l1), (wf_length l2)|].
    intros n Hn. rewrite (wf_length l1 H1) in Hn. specialize (He (Z.of_nat n)).
    unfold listed in He.
    pose proof (chunk_at_flag l1 (Z.of_nat n) H1) as F1.
    pose proof (chunk_at_flag l2 (Z.of_nat n) H2) as F2.
    unfold chunk_at in *. rewrite Nat2Z.id in *.
    specialize (He ltac:(lia)).
    destruct F1 as [F1 | F1], F2 as [F2 | F2]; rewrite F1, F2 in *; done. }
  destruct H1 as [_ _ N1 _], H2 as [_ _ N2 _], l1, l2. cbn in *. by subst.
Qed.

Lemma add_chunk_spec l c : chklist_wf l -> 0 <= c < 256 ->
  chklist_wf (add_chunk l c)
  /\ forall d, 0 <= d -> listed (add_chunk l c) d = listed l d || (bool_decide (d = c) && negb (restricted c)).
Proof.
  intros Hw Hc. unfold add_chunk, sctp_auth_add_chunk. destruct (restricted c) eqn:Er.
  { cbn. split; [done|]. intros d _. by rewrite andb_false_r, orb_false_r. }
  destruct (Z.eqb_spec (chunk_at l c) 0) as [E0|E0]; cbn [snd from_option id].
  - split.
    + rewrite <- (Z.sub_0_r (num_chunks l + 1)), <- E0. apply set_chunk_wf; auto.
    + intros d Hd. unfold listed. rewrite chunk_at_set by (done || lia || apply Hw).
      case_decide; [subst; by rewrite bool_decide_true, orb_true_r|].
      by rewrite bool_decide_false, orb_false_r.
  - split; [done|]. intros d _. case_bool_decide; [|by rewrite orb_false_r]. subst.
    unfold listed. by apply Z.eqb_neq in E0 as ->.
Qed.

(** C17. The chunk list is the set of chunk types it lists: adding puts a type
    in unless it is one of the four that must never be authenticated, which is
    reported; deleting takes it out; no other type is touched; and the flags,
    the 8-bit count and the exclusion of the four types are kept. *)
Theorem auth_chunk_set l c : chklist_wf l -> 0 <= c < 256 ->
  let '(r, la) := sctp_auth_add_chunk c (Some l) in
  let '(r', ld) := sctp_auth_delete_chunk c (Some l) in
  r = (if restricted c then -1 else 0) /\ r' = 0
  /\ exists a d, la = Some a /\ ld = Some d /\ chklist_wf a /\ chklist_wf d
  /\ forall x, 0 <= x < 256 ->
       sctp_auth_is_required_chunk x la
         = sctp_auth_is_required_chunk x (Some l) || (bool_decide (x = c) && negb (restricted c))
       /\ sctp_auth_is_required_chunk x ld
         = sctp_auth_is_required_chunk x (Some l) && negb (bool_decide (x = c)).
Proof.
  intros Hw Hc.
  assert (sctp_auth_add_chunk c (Some l) = (if restricted c then -1 else 0, Some (add_chunk l c))) as ->.
  { unfold add_chunk, sctp_auth_add_chunk. destruct (restricted c); [done|]. by case_match. }
  destruct (add_chunk_spec l c Hw Hc) as [Hwa Ha].
  unfold sctp_auth_delete_chunk. destruct (Z.eqb_spec (chunk_at l c) 1) as [E1|E1].
  - split_and!; [done..|]. do 2 eexists. split_and!; [done | done | done | |].
    + destruct (restricted c) eqn:Er; [rewrite (wf_restricted l Hw c Hc Er) in E1; done|].
      replace (num_chunks l - 1) with (num_chunks l + 0 - chunk_at l c) by lia.
      apply set_chunk_wf; auto.
    + intros x Hx. split; [apply Ha; lia|]. cbn [sctp_auth_is_required_chunk].
      rewrite chunk_at_set by (apply Hw || lia).
      case_decide; [subst; by rewrite bool_decide_true, andb_false_r|].
      by rewrite bool_decide_false, andb_true_r.
  - split_and!; [done..|]. do 2 eexists. split_and!; [done | done | done | done |].
    intros x Hx. split; [apply Ha; lia|]. cbn [sctp_auth_is_required_chunk].
    case_bool_decide; [|by rewrite andb_true_r]. subst.
    destruct (chunk_at_flag l c Hw) as [->|?]; done.
Qed.

Definition demo_chunks : sctp_auth_chklist := foldl add_chunk sctp_clear_chunklist [0xc1; 0x80; 0].

Lemma cleared_wf : chklist_wf sctp_clear_chunklist.
Proof.
  constructor; [done | by apply Forall_replicate; left | done |].
  intros c Hc _. unfold chunk_at. cbn [chunks sctp_clear_chunklist].
  rewrite nth_lookup. destruct (replicate 256 0 !! Z.to_nat c) eqn:E; [|done].
  by apply lookup_replicate in E as [-> _].
Qed.

Lemma add_chunks_spec cs : forall l, chklist_wf l -> Forall (fun c => 0 <= c < 256) cs ->
  chklist_wf (foldl add_chunk l cs)
  /\ forall d, 0 <= d -> listed (foldl add_chunk l cs) d
       = listed l d || (bool_decide (d ∈ cs) && negb (restricted d)).
Proof.
  induction cs as [|c cs IH]; intros l Hw Hcs.
  { split; [done|]. intros d _. cbn. by rewrite orb_false_r. }
  inversion_clear Hcs as [|? ? Hc Hcs']. cbn [foldl].
  destruct (add_chunk_spec l c Hw Hc) as [Hw1 H1]. destruct (IH _ Hw1 Hcs') as [Hw2 H2].
  split; [done|]. intros d Hd. rewrite H2, H1, <- orb_assoc by done. f_equal.
  destruct (decide (d = c)) as [->|Hne].
  - rewrite (bool_decide_true (c = c)), (bool_decide_true (c ∈ c :: cs)) by (done || constructor).
    cbn [andb]. destruct (restricted c); cbn; [by rewrite andb_false_r | done].
  - rewrite (bool_decide_false (d = c)) by done. cbn [andb orb]. f_equal.
    apply bool_decide_ext. set_solver.
Qed.

Lemma auth_chunk_set_witness : chklist_wf demo_chunks /\
  let '(r, la) := sctp_auth_add_chunk 1 (Some demo_chunks) in
  let '(r', ld) := sctp_auth_delete_chunk 1 (Some demo_chunks) in
  r = -1 /\ r' = 0
  /\ exists a d, la = Some a /\ ld = Some d /\ chklist_wf a /\ chklist_wf d
  /\ forall x, 0 <= x < 256 ->
       sctp_auth_is_required_chunk x la
         = sctp_auth_is_required_chunk x (Some demo_chunks) || (bool_decide (x = 1) && negb (restricted 1))
       /\ sctp_auth_is_required_chunk x ld
         = sctp_auth_is_required_chunk x (Some demo_chunks) && negb (bool_decide (x = 1)).
Proof.
  assert (chklist_wf demo_chunks) as H.
  { apply add_chunks_spec; [exact cleared_wf | repeat constructor; lia]. }
  split; [exact H|]. apply (auth_chunk_set demo_chunks 1 H). lia.
Defined.

(** ** Packing and unpacking *)

(** The types listed from index [i] on, in order. *)
Fixpoint listed_from (i : nat) (cs : list Z) : list Z :=
  match cs with
  | [] => []
  | c :: cs => if c =? 0 then listed_from (S i) cs else Z.of_nat i :: listed_from (S i) cs
  end.

Lemma length_listed i cs : Forall (fun v => v = 0 \/ v = 1) cs ->
  Z.of_nat (length (listed_from i cs)) = sum cs.
Proof.
  intros H. revert i. induction H as [|v cs [-> | ->] _ IH]; intros i; cbn; [done | apply IH |].
  specialize (IH (S i)). lia.
Qed.

Lemma elem_of_listed d cs : forall i, d ∈ listed_from i cs <->
  exists j, (j < length cs)%nat /\ d = Z.of_nat (i + j) /\ nth j cs 0 <> 0.
Proof.
  induction cs as [|c cs IH]; intros i; cbn [listed_from length].
  { split; [intros H; by apply elem_of_nil in H | intros (j & ? & _); lia]. }
  assert (d ∈ listed_from (S i) cs <->
    exists j, (j < length cs)%nat /\ d = Z.of_nat (i + S j) /\ nth (S j) (c :: cs) 0 <> 0) as Ht.
  { rewrite IH. setoid_rewrite Nat.add_succ_r. done. }
  destruct (Z.eqb_spec c 0) as [->|Hc]; rewrite ?elem_of_cons, Ht; split.
  - intros (j & ? & ? & ?). exists (S j). split_and!; [lia | done | done].
  - intros ([|j] & ? & ? & ?); [done|]. exists j. split_and!; [lia | done | done].
  - intros [->|(j & ? & ? & ?)].
    + exists 0%nat. split_and!; [lia | f_equal; lia | done].
    + exists (S j). split_and!; [lia | done | done].
  - intros ([|j] & ? & Hd & ?); [left; rewrite Hd; f_equal; lia|].
    right. exists j. split_and!; [lia | done | done].
Qed.

Lemma list_chunks_spec l : forall cs i buf count,
  drop i (chunks l) = cs -> (count + length (listed_from i cs) <= length buf)%nat ->
  list_chunks (length cs) i l buf count
    = Some ((count + length (listed_from i cs))%nat,
            take count buf ++ listed_from i cs
            ++ drop (count + length (listed_from i cs)) buf).
Proof.
  induction cs as [|c cs IH]; intros i buf count Hd Hlen; cbn [list_chunks length listed_from] in *.
  { rewrite Nat.add_0_r. cbn [app]. by rewrite take_drop. }
  assert (chunk_at l (Z.of_nat i) = c) as ->.
  { unfold chunk_at. rewrite Nat2Z.id, nth_lookup, <- (Nat.add_0_r i), <- lookup_drop, Hd. done. }
  assert (drop (S i) (chunks l) = cs) as Hd'.
  { rewrite <- Nat.add_1_r, <- drop_drop, Hd. done. }
  destruct (c =? 0); cbn [negb length] in *; [by apply IH|].
  unfold put_byte. rewrite (proj2 (Nat.ltb_lt _ _)) by lia. cbn [mbind option_bind].
  rewrite IH; [|done | rewrite length_insert; lia]. do 2 f_equal; [lia|].
  replace (S count + length (listed_from (S i) cs))%nat
    with (count + S (length (listed_from (S i) cs)))%nat by lia.
  rewrite (take_S_r _ _ (Z.of_nat i)) by (apply list_lookup_insert_eq; lia).
  rewrite take_insert_ge, drop_insert_lt by lia. by rewrite <- app_assoc.
Qed.

Lemma lor_bit b k j : 0 <= j -> 0 <= k ->
  Z.testbit (Z.lor b (Z.shiftl 1 k)) j = Z.testbit b j || (j =? k).
Proof.
  intros Hj Hk. rewrite Z.lor_spec, Z.shiftl_1_l. f_equal.
  destruct (Z.eqb_spec j k) as [->|Hne]; [by apply Z.pow2_bits_true | by apply Z.pow2_bits_false].
Qed.

(** The flag of type [d] in a bit field. *)
Definition bit_of (buf : list Z) (d : nat) : bool :=
  Z.testbit (nth (d / 8) buf 0) (Z.of_nat (d mod 8)).

Lemma set_bit_spec buf i : (i / 8 < length buf)%nat ->
  exists buf', set_bit buf i = Some buf' /\ length buf' = length buf
    /\ forall d, bit_of buf' d = bit_of buf d || bool_decide (d = i).
Proof.
  intros Hi. unfold set_bit. destruct (lookup_lt_is_Some_2 _ _ Hi) as [b Hb].
  rewrite Hb. cbn [mbind option_bind]. eexists. split; [done|].
  split; [by rewrite length_insert|]. intros d. unfold bit_of.
  rewrite nth_insert by done. case_decide as E.
  - rewrite lor_bit, E, nth_lookup, Hb by lia. cbn [from_option id]. f_equal.
    pose proof (Nat.div_mod_eq d 8). pose proof (Nat.div_mod_eq i 8).
    case_bool_decide; [apply Z.eqb_eq; congruence | apply Z.eqb_neq; lia].
  - rewrite bool_decide_false by congruence. by rewrite orb_false_r.
Qed.

Lemma pack_bits_spec l fuel : forall i buf, (i + fuel <= 8 * length buf)%nat ->
  exists buf', pack_bits fuel i l buf = Some buf' /\ length buf' = length buf
    /\ forall d, bit_of buf' d
         = bit_of buf d || (bool_decide (i <= d < i + fuel)%nat && listed l (Z.of_nat d)).
Proof.
  induction fuel as [|fuel IH]; intros i buf Hlen; cbn [pack_bits].
  { exists buf. split_and!; [done..|]. intros d. rewrite bool_decide_false by lia.
    by rewrite orb_false_r. }
  assert (exists b1, (if negb (chunk_at l (Z.of_nat i) =? 0) then set_bit buf i else Some buf) = Some b1
    /\ length b1 = length buf
    /\ forall d, bit_of b1 d = bit_of buf d || (bool_decide (d = i) && listed l (Z.of_nat d)))
    as (b1 & -> & Hl1 & H1).
  { unfold listed. destruct (Z.eqb_spec (chunk_at l (Z.of_nat i)) 0) as [E|E]; cbn [negb].
    - exists buf. split_and!; [done..|]. intros d. case_bool_decide; [|by rewrite orb_false_r].
      subst. by rewrite E, orb_false_r.
    - destruct (set_bit_spec buf i) as (b1 & -> & Hl & Hb).
      { apply Nat.Div0.div_lt_upper_bound. lia. }
      exists b1. split_and!; [done..|]. intros d. rewrite Hb. f_equal.
      case_bool_decide; [|done]. subst. by apply Z.eqb_neq in E as ->. }
  cbn [mbind option_bind]. destruct (IH (S i) b1) as (b2 & -> & Hl2 & H2); [lia|].
  exists b2. split_and!; [done | lia |]. intros d. rewrite H2, H1, <- orb_assoc. f_equal.
  destruct (decide (d = i)) as [->|Hne].
  - rewrite (bool_decide_true (i = i)), (bool_decide_true (i <= i < i + S fuel)%nat) by lia.
    rewrite (bool_decide_false (S i <= i < S i + fuel)%nat) by lia. by rewrite orb_false_r.
  - rewrite (bool_decide_false (d = i)) by done. cbn [andb orb]. f_equal.
    apply bool_decide_ext. lia.
Qed.

Lemma land_bit b k : 0 <= k -> negb (Z.land b (Z.shiftl 1 k) =? 0) = Z.testbit b k.
Proof.
  intros Hk. rewrite Z.shiftl_1_l. destruct (Z.testbit b k) eqn:E.
  - apply negb_true_iff, Z.eqb_neq. intros H0.
    assert (Z.testbit (Z.land b (2 ^ k)) k = false) as Hf by (by rewrite H0, Z.bits_0).
    by rewrite Z.land_spec, E, Z.pow2_bits_true in Hf.
  - apply negb_false_iff, Z.eqb_eq. apply Z.bits_inj'. intros j Hj.
    rewrite Z.land_spec, Z.bits_0. destruct (Z.eq_dec j k) as [->|Hne]; [by rewrite E|].
    by rewrite Z.pow2_bits_false, andb_false_r.
Qed.

Lemma unpack_bits_spec buf fuel : forall i l, (i + fuel <= 8 * length buf)%nat ->
  unpack_bits fuel i buf l = Some (foldl add_chunk l (map Z.of_nat (List.filter (bit_of buf) (seq i fuel)))).
Proof.
  induction fuel as [|fuel IH]; intros i l Hlen; cbn [unpack_bits seq List.filter]; [done|].
  assert (i / 8 < length buf)%nat as Hi by (apply Nat.Div0.div_lt_upper_bound; lia).
  destruct (lookup_lt_is_Some_2 _ _ Hi) as [b Hb]. rewrite Hb. cbn [mbind option_bind].
  rewrite land_bit, IH by lia. unfold bit_of at 2. rewrite nth_lookup, Hb. cbn [from_option id].
  by destruct (Z.testbit b _).
Qed.

(** Adding the members of a well-formed list to an empty one rebuilds it. *)
Lemma rebuild l cs : chklist_wf l -> Forall (fun c => 0 <= c < 256) cs ->
  (forall d, 0 <= d < 256 -> d ∈ cs <-> listed l d = true) ->
  foldl add_chunk sctp_clear_chunklist cs = l.
Proof.
  intros Hw Hcs Hm. destruct (add_chunks_spec cs _ cleared_wf Hcs) as [Hwf Hl].
  apply chklist_ext; [done | done|]. intros d Hd. rewrite Hl by lia.
  assert (listed sctp_clear_chunklist d = false) as ->.
  { unfold listed. destruct (chunk_at_flag _ d cleared_wf) as [->|E]; [done|].
    unfold chunk_at in E. cbn [chunks sctp_clear_chunklist] in E. rewrite nth_lookup in E.
    destruct (replicate 256 0 !! Z.to_nat d) eqn:E'; [|done].
    by apply lookup_replicate in E' as [-> _]. }
  cbn [orb]. destruct (listed l d) eqn:E.
  - rewrite bool_decide_true by (by apply Hm). cbn [andb]. destruct (restricted d) eqn:Er; [|done].
    unfold listed in E. by rewrite (wf_restricted l Hw d Hd Er) in E.
  - rewrite bool_decide_false; [done|]. rewrite Hm by done. congruence.
Qed.

Lemma listed_members l : chklist_wf l ->
  Forall (fun c => 0 <= c < 256) (listed_from 0 (chunks l))
  /\ forall d, 0 <= d < 256 -> d ∈ listed_from 0 (chunks l) <-> listed l d = true.
Proof.
  intros Hw. pose proof (wf_length l Hw) as Hlen. split.
  - apply Forall_forall. intros d (j & Hj & -> & _)%elem_of_listed. lia.
  - intros d Hd. rewrite elem_of_listed. unfold listed, chunk_at. split.
    + intros (j & Hj & -> & Hn). cbn [Nat.add]. rewrite Nat2Z.id. by apply Z.eqb_neq in Hn as ->.
    + intros Hn%negb_true_iff%Z.eqb_neq. exists (Z.to_nat d). split_and!; [lia | lia | done].
Qed.

Lemma bits_members l buf : (forall d, (d < 256)%nat -> bit_of buf d = listed l (Z.of_nat d)) ->
  let cs := map Z.of_nat (List.filter (bit_of buf) (seq 0 256)) in
  Forall (fun c => 0 <= c < 256) cs /\ forall d, 0 <= d < 256 -> d ∈ cs <-> listed l d = true.
Proof.
  intros Hb cs.
  assert (forall d, d ∈ cs <-> exists j, (j < 256)%nat /\ d = Z.of_nat j /\ bit_of buf j = true) as Hcs.
  { intros d. unfold cs. rewrite list_elem_of_In, in_map_iff. split.
    - intros (j & <- & [Hj Hbj]%filter_In). exists j. apply in_seq in Hj. split_and!; [lia | done..].
    - intros (j & Hj & -> & Hbj). exists j. split; [done|]. apply filter_In. split; [|done].
      apply in_seq. lia. }
  split.
  - apply Forall_forall. intros d (j & Hj & -> & _)%Hcs. lia.
  - intros d Hd. rewrite Hcs. split.
    + intros (j & Hj & -> & Hbj). by rewrite <- Hb.
    + intros Hl. exists (Z.to_nat d). split_and!; [lia | lia |]. rewrite Hb by lia. by rewrite Z2Nat.id by lia.
Qed.

Lemma pack_listed l ptr : chklist_wf l -> num_chunks l <= 32 -> (32 <= length ptr)%nat ->
  exists ptr', sctp_pack_auth_chunks (Some l) ptr = Some (num_chunks l, ptr')
    /\ length ptr' = length ptr
    /\ take (Z.to_nat (num_chunks l)) ptr' = listed_from 0 (chunks l).
Proof.
  intros Hw Hn Hp. unfold sctp_pack_auth_chunks. rewrite (proj2 (Z.leb_le _ _)) by done.
  pose proof (length_listed 0 (chunks l) (wf_flags l Hw)) as Hlen. rewrite <- (wf_count l Hw) in Hlen.
  replace 256%nat with (length (chunks l)) by apply (wf_length l Hw).
  rewrite (list_chunks_spec l (chunks l) 0 ptr 0 eq_refl) by lia.
  cbn [mbind option_bind Nat.add]. rewrite take_0. cbn [app]. eexists. rewrite Hlen. split_and!; [done | |].
  - rewrite length_app, length_drop. lia.
  - apply take_app_length'. lia.
Qed.

(** C18. Packing a well-formed chunk list into a zeroed buffer of 32 bytes or
    more and unpacking it into an empty list gives the list back, in the
    one-byte-per-chunk form (at most 32 chunks) and in the bit-field form; both
    calls report the same number of bytes, at most 32, and stay inside the
    buffer. *)
Theorem auth_chunks_roundtrip l n :
  chklist_wf l -> (32 <= n)%nat ->
  exists ptr' size, sctp_pack_auth_chunks (Some l) (replicate n 0) = Some (size, ptr')
    /\ length ptr' = n /\ 0 <= size <= 32
    /\ sctp_unpack_auth_chunks ptr' (num_chunks l) (Some sctp_clear_chunklist) = Some (size, Some l).
Proof.
  intros Hw Hn. pose proof (sum_nonneg _ (wf_flags l Hw)) as H0. rewrite <- (wf_count l Hw) in H0.
  destruct (Z.leb_spec (num_chunks l) 32) as [Hle|Hgt].
  - destruct (pack_listed l (replicate n 0) Hw Hle) as (ptr' & -> & Hlen & Ht);
      rewrite ?length_replicate in *; [done|].
    exists ptr', (num_chunks l). split_and!; [done | done | done | done |].
    unfold sctp_unpack_auth_chunks. rewrite (proj2 (Z.leb_le _ _)), (proj2 (Nat.leb_le _ _)), Ht by lia.
    destruct (listed_members l Hw) as [Hr Hm]. by rewrite (rebuild l).
  - unfold sctp_pack_auth_chunks, sctp_unpack_auth_chunks. rewrite !(proj2 (Z.leb_gt _ _)) by done.
    destruct (pack_bits_spec l 256 0 (replicate n 0)) as (ptr' & -> & Hlen & Hb);
      rewrite ?length_replicate in *; [lia|].
    cbn [mbind option_bind]. exists ptr', 32. split_and!; [done | done | done | done |].
    rewrite unpack_bits_spec by lia. cbn [mbind option_bind].
    destruct (bits_members l ptr') as [Hr Hm]; [|by rewrite (rebuild l)].
    intros d Hd. rewrite Hb, bool_decide_true by lia. unfold bit_of. rewrite nth_lookup.
    destruct (replicate n 0 !! (d / 8)%nat) eqn:E; [apply lookup_replicate in E as [-> _]|];
      cbn [from_option id]; by rewrite Z.bits_0.
Qed.

(** Both forms: three chunks, and the forty types from 0x40 on. *)
Lemma auth_chunks_roundtrip_witness :
  (exists ptr' size, sctp_pack_auth_chunks (Some demo_chunks) (replicate 32 0) = Some (size, ptr')
    /\ length ptr' = 32%nat /\ 0 <= size <= 32
    /\ sctp_unpack_auth_chunks ptr' (num_chunks demo_chunks) (Some sctp_clear_chunklist)
       = Some (size, Some demo_chunks))
  /\ let many := foldl add_chunk sctp_clear_chunklist (map (fun i => 0x40 + Z.of_nat i) (seq 0 40)) in
     exists ptr' size, sctp_pack_auth_chunks (Some many) (replicate 32 0) = Some (size, ptr')
    /\ length ptr' = 32%nat /\ 0 <= size <= 32
    /\ sctp_unpack_auth_chunks ptr' (num_chunks many) (Some sctp_clear_chunklist)
       = Some (size, Some many).
Proof.
  split; (apply auth_chunks_roundtrip; [|lia]); apply add_chunks_spec; try exact cleared_wf.
  - repeat constructor; lia.
  - apply Forall_forall. intros x [y [-> Hy%elem_of_seq]]%list_elem_of_fmap. lia.
Defined.

(** ** HMAC identifiers *)

(** The list of identifiers fits its allocation and has no duplicates; only
    SHA-1 is supported by this build. *)
Record hmaclist_wf (l : sctp_hmaclist) : Prop := HmacWf {
  hw_max : in_u16 (max_algo l);
  hw_alloc : Z.of_nat (length (hmac l)) = max_algo l;
  hw_num : 0 <= num_algo l <= max_algo l;
  hw_nodup : NoDup (hmac_ids l);
  hw_known : Forall (fun i => i = SCTP_AUTH_HMAC_ID_SHA1) (hmac_ids l)
}.

Lemma existsb_elem (v : Z) l : existsb (Z.eqb v) l = bool_decide (v ∈ l).
Proof.
  apply eq_bool_prop_intro. rewrite !Is_true_true, existsb_exists, bool_decide_eq_true.
  setoid_rewrite Z.eqb_eq. rewrite list_elem_of_In. naive_solver.
Qed.

Lemma add_hmacid_spec l id : hmaclist_wf l ->
  exists r l', sctp_auth_add_hmacid (Some l) id = (r, Some l') /\ hmaclist_wf l'
    /\ hmac_ids l' = (if r =? 0 then hmac_ids l ++ [id] else hmac_ids l)
    /\ (r = 0 \/ r = -1).
Proof.
  intros Hw. unfold sctp_auth_add_hmacid. rewrite existsb_elem.
  destruct (Z.eqb_spec (num_algo l) (max_algo l)) as [|Hfull]; [by exists (-1), l; auto|].
  destruct (Z.eqb_spec id SCTP_AUTH_HMAC_ID_SHA1) as [Hid|]; cbn [negb]; [|by exists (-1), l; auto].
  case_bool_decide as Hin; [by exists (-1), l; auto|].
  destruct Hw as [Hm Ha Hn Hnd Hk]. eexists 0, _. split; [done|].
  rewrite u16_id by width_lia. set (l' := HmacList _ _ _).
  assert (hmac_ids l' = hmac_ids l ++ [id]) as E.
  { unfold hmac_ids, l'. cbn [num_algo hmac].
    replace (Z.to_nat (num_algo l + 1)) with (S (Z.to_nat (num_algo l))) by lia.
    rewrite (take_S_r _ _ id) by (apply list_lookup_insert_eq; lia).
    by rewrite take_insert_ge by lia. }
  split; [|by rewrite E; auto]. constructor; rewrite ?E; cbn [l' max_algo num_algo hmac].
  - done.
  - by rewrite length_insert.
  - lia.
  - apply NoDup_app. split; [done|]. split; [|apply NoDup_singleton].
    intros x Hx ->%list_elem_of_singleton. done.
  - apply Forall_app. auto.
Qed.

(** Negotiation: the HMAC identifier chosen for the peer is the first of
    the peer's identifiers, in its order of preference, that is supported
    locally, and the reserved identifier when there is none; a chosen
    identifier is accepted by [sctp_auth_is_supported_hmac] on both lists. *)
Theorem negotiate_hmacid_best peer local :
  hmaclist_wf peer -> hmaclist_wf local ->
  let best := sctp_negotiate_hmacid (Some peer) (Some local) in
  (best <> SCTP_AUTH_HMAC_ID_RSVD ->
     sctp_auth_is_supported_hmac (Some peer) best = true
     /\ sctp_auth_is_supported_hmac (Some local) best = true
     /\ exists before after, hmac_ids peer = before ++ best :: after
        /\ Forall (fun p => p ∉ hmac_ids local) before)
  /\ (best = SCTP_AUTH_HMAC_ID_RSVD -> Forall (fun p => p ∉ hmac_ids local) (hmac_ids peer)).
Proof.
  intros Hp Hl best. unfold best, sctp_negotiate_hmacid.
  assert (forall x, x ∈ hmac_ids local -> x <> SCTP_AUTH_HMAC_ID_RSVD) as Hnz.
  { intros x Hx. pose proof (hw_known local Hl) as Hk. rewrite Forall_forall in Hk.
    rewrite (Hk x Hx). done. }
  set (ids := hmac_ids peer).
  assert (match List.find (fun p => existsb (Z.eqb p) (hmac_ids local)) ids with
    | Some x => x ∈ hmac_ids local /\ exists before after, ids = before ++ x :: after
        /\ Forall (fun p => p ∉ hmac_ids local) before
    | None => Forall (fun p => p ∉ hmac_ids local) ids end) as Hf.
  { induction ids as [|x ids IH]; cbn [List.find]; [constructor|].
    rewrite existsb_elem. case_bool_decide as Hx; [split; [done|]; by exists [], ids|].
    destruct (List.find _ ids) as [y|]; [|by constructor].
    destruct IH as (Hy & b & a & -> & Hb). split; [done|]. exists (x :: b), a. by auto. }
  destruct (List.find _ ids) as [x|]; cbn [from_option id]; [|done].
  destruct Hf as (Hx & b & a & Hids & Hb). pose proof (Hnz x Hx) as Hne. split; [|done]. intros _.
  unfold sctp_auth_is_supported_hmac. apply Z.eqb_neq in Hne as ->. rewrite !existsb_elem.
  fold ids. rewrite Hids, !bool_decide_true by set_solver.
  split_and!; [done | done | by exists b, a].
Qed.

Lemma negotiate_hmacid_best_witness :
  exists peer local, sctp_default_supported_hmaclist (Some [7]) = Some local
    /\ (sctp_auth_add_hmacid (sctp_alloc_hmaclist (Some [9; 9]) 2) 1).2 = Some peer
    /\ let id := sctp_negotiate_hmacid (Some peer) (Some local) in
       id = SCTP_AUTH_HMAC_ID_SHA1 /\ sctp_auth_is_supported_hmac (Some peer) id = true.
Proof.
  assert (forall g n, in_u16 n -> Z.of_nat (length g) = n -> hmaclist_wf (HmacList n 0 g)) as H0.
  { intros g n Hn Hg. constructor; cbn; [done | done | width_lia | constructor | constructor]. }
  destruct (add_hmacid_spec (HmacList 1 0 [7]) 1) as (r1 & l1 & E1 & W1 & _);
    [by apply H0; [vm_compute|]|].
  destruct (add_hmacid_spec (HmacList 2 0 [9; 9]) 1) as (r2 & l2 & E2 & W2 & _);
    [by apply H0; [vm_compute|]|].
  exists l2, l1. vm_compute in E1, E2. simplify_eq. split; [reflexivity|]. split; [reflexivity|].
  split; [reflexivity|].
  apply (negotiate_hmacid_best (HmacList 2 1 [1; 9]) (HmacList 1 1 [1]) W2 W1). vm_compute. discriminate.
Defined.
