(* ===== verification/Mbuf.v ===== *)
(** * Packet buffers: [user_mbuf.c]

    A packet is a chain of mbufs.  An mbuf holds up to 216 bytes of its own, 176 when it
    starts a packet, or refers to a cluster of 2048 bytes that it may share with other
    mbufs.  A chain is the list of its mbufs, [NULL] is the empty list; [m_bytes] are the
    [m_len] bytes from [m_data] on, and [m_data] is the distance of the first of them
    from the start of the mbuf's own data area [m_dat] or of its cluster.

    The outcome of the [k]-th allocation is [alloc k].  Writing past the end of a data area
    and following [NULL] are [None]; a function that returns [NULL] because memory ran out
    or the chain is too short returns [Some None].  Packet tags, which the stack does not
    use, and the freeing of memory are left out.  The last part is the way of a packet from
    the application into a chain: [sctp_get_mbuf_for_msg] (netinet/sctp_bsd_addr.c) and
    [usrsctp_conninput] (user_socket.c). *)

From S2P Require Import Prelude.

Open Scope sctp_scope.

Definition MLEN : Z := 216.
Definition MHLEN : Z := 176.
Definition MCLBYTES : Z := 2048.
Definition M_COPYALL : Z := 1000000000.
Definition max_protohdr : Z := 5.
(** The place of [m_pktdat] in [m_dat]: the size of [struct pkthdr]. *)
Definition pktdat : Z := 40.

(** [m_ext] is the size of the cluster of an mbuf with [M_EXT]; [m_pkthdr] is
    [m_pkthdr.len] of an mbuf with [M_PKTHDR]. *)
Record mbuf := Mbuf {
  m_bytes : list Z;
  m_data : Z;
  m_ext : option Z;
  m_pkthdr : option Z
}.

Definition mbuf_eta (m : mbuf) : mbuf := Mbuf (m_bytes m) (m_data m) (m_ext m) (m_pkthdr m).

#[export] Instance set_m_bytes : FieldUpdate m_bytes := ltac:(field_update mbuf_eta m_bytes).
#[export] Instance set_m_data : FieldUpdate m_data := ltac:(field_update mbuf_eta m_data).
#[export] Instance set_m_ext : FieldUpdate m_ext := ltac:(field_update mbuf_eta m_ext).
#[export] Instance set_m_pkthdr : FieldUpdate m_pkthdr := ltac:(field_update mbuf_eta m_pkthdr).

Definition m_len (m : mbuf) : Z := Z.of_nat (length (m_bytes m)).

(** The bytes of a chain, and their number. *)
Definition chain_bytes (c : list mbuf) : list Z := concat (map m_bytes c).
Definition chain_len (c : list mbuf) : Z := Z.of_nat (length (chain_bytes c)).

(** The end of the data area. *)
Definition m_end (m : mbuf) : Z := default MLEN (m_ext m).

(** The bytes from [off] on, at most [n]. *)
Definition slice (off n : Z) (l : list Z) : list Z := take (Z.to_nat n) (drop (Z.to_nat off) l).

(** [memcpy] of [src] to the byte [at_] of the mbuf, which ends there or before. *)
Definition m_put (m : mbuf) (at_ : Z) (src : list Z) : option mbuf :=
  if (m_end m <? m_data m + at_ + Z.of_nat (length src)) || (m_len m <? at_) then None
  else Some (m <| m_bytes := take (Z.to_nat at_) (m_bytes m) ++ src
                             ++ drop (Z.to_nat at_ + length src) (m_bytes m) |>).

(** ** Allocation *)

Definition m_get (ok : bool) : option mbuf := if ok then Some (Mbuf [] 0 None None) else None.
Definition m_gethdr (ok : bool) : option mbuf := if ok then Some (Mbuf [] pktdat None (Some 0)) else None.

(** Without memory for the cluster the code dereferences [NULL] later on; the
    allocators of the stack's build end the program instead. *)
Definition m_clget (m : mbuf) : mbuf := m <| m_ext := Some MCLBYTES |> <| m_data := 0 |>.

(** [MT_NOINIT] is not used. *)
Definition m_move_pkthdr (to from : mbuf) : mbuf * mbuf :=
  let to := match m_ext to with None => to <| m_data := pktdat |> | Some _ => to end in
  (to <| m_pkthdr := m_pkthdr from |>, from <| m_pkthdr := None |>).

(** There are no tags to copy, so the function succeeds. *)
Definition m_dup_pkthdr (to from : mbuf) : mbuf :=
  let to := match m_ext to with None => to <| m_data := pktdat |> | Some _ => to end in
  to <| m_pkthdr := m_pkthdr from |>.

(** ** Reading *)

(** The loop that skips [off] bytes, in [m_copydata] and [m_copym]. *)
Fixpoint m_seek (c : list mbuf) (off : Z) : option (list mbuf * Z) :=
  match c with
  | [] => if 0 <? off then None else Some ([], off)
  | m :: r => if off <=? 0 then Some (c, off)
              else if off <? m_len m then Some (c, off) else m_seek r (off - m_len m)
  end.

(** The loop that copies [len] bytes. *)
Fixpoint copydata_loop (c : list mbuf) (off len : Z) : option (list Z) :=
  if len <=? 0 then Some []
  else
    match c with
    | [] => None
    | m :: r =>
        let count := Z.min (m_len m - off) len in
        rest ← copydata_loop r 0 (len - count);
        Some (slice off count (m_bytes m) ++ rest)
    end.

Definition m_copydata (c : list mbuf) (off len : Z) : option (list Z) :=
  if (off <? 0) || (len <? 0) then None
  else r ← m_seek c off; copydata_loop r.1 r.2 len.

(** The packet header of the first mbuf of the copy; [copyhdr] is set when the chain
    starts a packet. *)
Definition copym_hdr (copyhdr : bool) (n m : mbuf) (off0 len : Z) : mbuf :=
  if copyhdr then
    let n := m_dup_pkthdr n m in
    n <| m_pkthdr := (fun l => if len =? M_COPYALL then l - off0 else len) <$> m_pkthdr n |>
  else n.

(** One mbuf of the copy. *)
Definition copym_mbuf (copyhdr : bool) (n m : mbuf) (off off0 len : Z) : option mbuf :=
  let n := copym_hdr copyhdr n m off0 len in
  let l := Z.min len (m_len m - off) in
  match m_ext m with
  | Some size => Some (n <| m_ext := Some size |> <| m_data := m_data m + off |>
                         <| m_bytes := slice off l (m_bytes m) |>)
  | None => m_put n 0 (slice off l (m_bytes m))
  end.

(** The loop of [m_copym]; [k] counts allocations.  [Some None] is [nospace]. *)
Fixpoint copym_loop (alloc : nat -> bool) (k : nat) (copyhdr : bool) (c : list mbuf) (off off0 len : Z)
  : option (option (list mbuf)) :=
  if len <=? 0 then Some (Some [])
  else
    match c with
    | [] => Some (Some [])
    | m :: r =>
        match (if copyhdr then m_gethdr (alloc k) else m_get (alloc k)) with
        | None => Some None
        | Some n =>
            n ← copym_mbuf copyhdr n m off off0 len;
            rest ← copym_loop alloc (S k) false r 0 off0
                     (if len =? M_COPYALL then len else len - m_len n);
            Some (match rest with None => None | Some t => Some (n :: t) end)
        end
    end.

Definition m_copym (alloc : nat -> bool) (c : list mbuf) (off0 len : Z) : option (option (list mbuf)) :=
  if (off0 <? 0) || (len <? 0) then None
  else
    match c with
    | [] => None
    | m :: _ =>
        let copyhdr := (off0 =? 0) && (match m_pkthdr m with Some _ => true | None => false end) in
        r ← m_seek c off0;
        copym_loop alloc 0 copyhdr r.1 r.2 off0 len
    end.

(** The loop of [pack_send_buffer]; the buffer is as long as it needs to be. *)
Definition pack_send_buffer (c : list mbuf) : option (list Z) :=
  match c with [] => None | _ => Some (chain_bytes c) end.

(** ** Trimming *)

(** The loop that trims from the head: the chain and what is left of [len]. *)
Fixpoint trim_head (c : list mbuf) (len : Z) : list mbuf * Z :=
  match c with
  | [] => ([], len)
  | m :: r =>
      if len <=? 0 then (c, len)
      else if m_len m <=? len then
        let t := trim_head r (len - m_len m) in (m <| m_bytes := [] |> :: t.1, t.2)
      else (m <| m_bytes := drop (Z.to_nat len) (m_bytes m) |> <| m_data := m_data m + len |> :: r, 0)
  end.

(** The last loop of [m_adj]: keep [count] bytes. *)
Fixpoint trim_tail (c : list mbuf) (count : Z) : list mbuf :=
  match c with
  | [] => []
  | m :: r => if count <=? m_len m then [m <| m_bytes := take (Z.to_nat count) (m_bytes m) |>]
              else m :: trim_tail r (count - m_len m)
  end.

(** [m_pkthdr.len] of the first mbuf. *)
Definition adjust_pkthdr (f : Z -> Z) (c : list mbuf) : list mbuf :=
  match c with [] => [] | m :: r => m <| m_pkthdr := f <$> m_pkthdr m |> :: r end.

Definition m_adj (c : list mbuf) (req_len : Z) : list mbuf :=
  match last c with
  | None => []
  | Some m =>
      if 0 <=? req_len then
        let t := trim_head c req_len in
        adjust_pkthdr (fun l => l - (req_len - t.2)) t.1
      else
        let len := - req_len in
        if len <=? m_len m then
          adjust_pkthdr (fun l => l - len)
            (removelast c ++ [m <| m_bytes := take (Z.to_nat (m_len m - len)) (m_bytes m) |>])
        else
          let count := if chain_len c - len <? 0 then 0 else chain_len c - len in
          trim_tail (adjust_pkthdr (fun _ => count) c) count
  end.

(** ** Making the head contiguous *)

(** The loop of [m_pullup]: the mbuf that is filled, the rest of the chain and what is
    still needed.  When the mbuf is full before [len] bytes are there, the loop does not
    end. *)
Fixpoint pullup_loop (m : mbuf) (c : list mbuf) (len space : Z) : option (mbuf * list mbuf * Z) :=
  match c with
  | [] => None
  | n :: r =>
      let count := Z.min (Z.min (Z.max len max_protohdr) space) (m_len n) in
      m ← m_put m (m_len m) (slice 0 count (m_bytes n));
      let len := len - count in
      let n := n <| m_bytes := drop (Z.to_nat count) (m_bytes n) |> in
      if m_len n =? 0 then
        match r with
        | [] => Some (m, [], len)
        | _ :: _ => if 0 <? len then pullup_loop m r len (space - count) else Some (m, r, len)
        end
      else if 0 <? len then None
      else Some (m, n <| m_data := m_data n + count |> :: r, len)
  end.

Definition pullup_finish (r : mbuf * list mbuf * Z) : option (list mbuf) :=
  let '(m, c, len) := r in if 0 <? len then None else Some (m :: c).

Definition m_pullup (ok : bool) (c : list mbuf) (len : Z) : option (option (list mbuf)) :=
  match c with
  | [] => None
  | n :: r =>
      if (match m_ext n with None => true | Some _ => false end)
         && (m_data n + len <? MLEN) && negb (match r with [] => true | _ => false end)
      then
        if len <=? m_len n then Some (Some c)
        else
          let len := len - m_len n in
          r ← pullup_loop n r len (MLEN - (m_data n + m_len n));
          Some (pullup_finish r)
      else if MHLEN <? len then Some None
      else
        match m_get ok with
        | None => Some None
        | Some m =>
            let '(m, n) := match m_pkthdr n with
                           | Some _ => m_move_pkthdr m n
                           | None => (m, n)
                           end in
            r ← pullup_loop m (n :: r) len (MLEN - (m_data m + m_len m));
            Some (pullup_finish r)
        end
  end.

(** ** Joining and splitting *)

(** The second loop of [m_cat], on the last mbuf of the first chain. *)
Fixpoint cat_loop (m : mbuf) (c : list mbuf) : option (list mbuf) :=
  match c with
  | [] => Some [m]
  | n :: r =>
      if (match m_ext m with Some _ => true | None => false end)
         || (MLEN <=? m_data m + m_len m + m_len n)
      then Some (m :: c)
      else m ← m_put m (m_len m) (m_bytes n); cat_loop m r
  end.

Definition m_cat (c n : list mbuf) : option (list mbuf) :=
  match last c with
  | None => None
  | Some m => t ← cat_loop m n; Some (removelast c ++ t)
  end.

(** [M_ALIGN] and [MH_ALIGN]: room for [len] bytes at the end, on a word boundary. *)
Definition align (cap len : Z) : Z := 8 * ((cap - len) / 8).

(** The loop of [m_split]: the mbufs that stay, and the one that is cut after [len] bytes
    with its successors. *)
Fixpoint split_seek (c : list mbuf) (len : Z) : option (list mbuf * mbuf * list mbuf * Z) :=
  match c with
  | [] => None
  | m :: r =>
      if m_len m <? len then
        '(u, x, v, l) ← split_seek r (len - m_len m); Some (m :: u, x, v, l)
      else Some ([], m, r, len)
  end.

(** "extpacket": the bytes from [len] on go to [n]. *)
Definition split_into (n m : mbuf) (len : Z) : option mbuf :=
  let tail := drop (Z.to_nat len) (m_bytes m) in
  match m_ext m with
  | Some size => Some (n <| m_data := m_data m + len |> <| m_ext := Some size |> <| m_bytes := tail |>)
  | None => m_put n 0 tail
  end.

Definition cut (m : mbuf) (len : Z) : mbuf := m <| m_bytes := take (Z.to_nat len) (m_bytes m) |>.

(** The head and the tail of the chain; a tail of [None] is [NULL], in which case the head
    is the chain as it was.  A head that starts a packet, cut inside an mbuf of 177 bytes or
    more, calls [m_split] once more, on an mbuf that does not start a packet. *)
Definition split_plain (ok : bool) (u : list mbuf) (m : mbuf) (v : list mbuf) (len : Z)
  : option (list mbuf * option (list mbuf)) :=
  let remain := m_len m - len in
  if remain =? 0 then Some (u ++ [m], match v with [] => None | _ => Some v end)
  else
    match m_get ok with
    | None => Some (u ++ m :: v, None)
    | Some n =>
        n ← split_into (n <| m_data := align MLEN remain |>) m len;
        Some (u ++ [cut m len], Some (n :: v))
    end.

Definition m_split (alloc : nat -> bool) (c : list mbuf) (len0 : Z)
  : option (list mbuf * option (list mbuf)) :=
  if len0 <? 0 then None
  else
    match split_seek c len0, c with
    | None, _ => Some (c, None)
    | Some (u, m, v, len), m0 :: _ =>
        match m_pkthdr m0 with
        | None => split_plain (alloc 0%nat) u m v len
        | Some total =>
            match m_gethdr (alloc 0%nat) with
            | None => Some (c, None)
            | Some n =>
                let n := n <| m_pkthdr := Some (total - len0) |> in
                let remain := m_len m - len in
                let first (l : list mbuf) := adjust_pkthdr (fun _ => len0) l in
                if (match m_ext m with Some _ => false | None => true end) && (MHLEN <? remain) then
                  r ← split_plain (alloc 1%nat) [] m v len;
                  Some match r.2 with
                       | None => (first (u ++ m :: v), None)
                       | Some t => (first (u ++ r.1), Some (n <| m_data := pktdat + align MHLEN 0 |> :: t))
                       end
                else
                  let n := match m_ext m with
                           | Some _ => n
                           | None => n <| m_data := pktdat + align MHLEN remain |>
                           end in
                  n ← split_into n m len;
                  Some (first (u ++ [cut m len]), Some (n :: v))
            end
        end
    | _, _ => None
    end.

(** ** Writing *)

(** The first loop of [m_copyback]: the mbufs passed and the rest of the chain, which is
    lengthened by zeros.  The flag is cleared when memory runs out.  Each mbuf takes fuel. *)
Fixpoint copyback_seek (fuel : nat) (alloc : nat -> bool) (k : nat) (m : mbuf) (c : list mbuf) (off len : Z)
  : option (list mbuf * list mbuf * Z * nat * bool) :=
  if m_len m <? off then
    let off := off - m_len m in
    match fuel, c with
    | O, _ => None
    | S fuel, n :: r =>
        '(u, v, o, k, b) ← copyback_seek fuel alloc k n r off len; Some (m :: u, v, o, k, b)
    | S fuel, [] =>
        match m_get (alloc k) with
        | None => Some ([], [m], off, S k, false)
        | Some n =>
            let n := n <| m_bytes := replicate (Z.to_nat (Z.min MLEN (len + off))) 0 |> in
            '(u, v, o, k, b) ← copyback_seek fuel alloc (S k) n [] off len; Some (m :: u, v, o, k, b)
        end
    end
  else Some ([], m :: c, off, k, true).

(** The second loop: [cp] are the bytes left.  The bytes of a new mbuf are unspecified
    until they are written; [fill] stands for them. *)
Fixpoint copyback_loop (fuel : nat) (alloc : nat -> bool) (fill : Z) (k : nat) (m : mbuf) (c : list mbuf)
  (off : Z) (cp : list Z) : option (list mbuf * list Z) :=
  match cp with
  | [] => Some (m :: c, [])
  | _ :: _ =>
      let mlen := Z.min (m_len m - off) (Z.of_nat (length cp)) in
      m ← m_put m off (slice 0 mlen cp);
      let cp := drop (Z.to_nat mlen) cp in
      match cp, c, fuel with
      | [], _, _ => Some (m :: c, [])
      | _ :: _, _, O => None
      | _ :: _, n :: r, S fuel => t ← copyback_loop fuel alloc fill k n r 0 cp; Some (m :: t.1, t.2)
      | _ :: _, [], S fuel =>
          match m_get (alloc k) with
          | None => Some ([m], cp)
          | Some n =>
              let n := n <| m_bytes := replicate (Z.to_nat (Z.min MLEN (Z.of_nat (length cp)))) fill |> in
              t ← copyback_loop fuel alloc fill (S k) n [] 0 cp; Some (m :: t.1, t.2)
          end
      end
  end.

(** [totlen] is where the last byte written ends; the packet is at least as long. *)
Definition m_copyback (alloc : nat -> bool) (fill : Z) (c : list mbuf) (off : Z) (cp : list Z)
  : option (list mbuf) :=
  match c with
  | [] => Some []
  | m :: r =>
      let len := Z.of_nat (length cp) in
      let fuel := S (length c + Z.to_nat (off + len)) in
      '(u, v, off', k, ok) ← copyback_seek fuel alloc 0 m r off len;
      match v with
      | [] => None
      | n :: w =>
          '(v, totlen) ← (if (ok : bool) && (0 <? len)
                          then t ← copyback_loop fuel alloc fill k n w off' cp;
                               Some (t.1, off + len - Z.of_nat (length t.2))
                          else Some (n :: w, off - off'));
          Some (adjust_pkthdr (Z.max totlen) (u ++ v))
      end
  end.

(** ** From the application *)

(** The outcomes of two allocations are taken from [alloc]: of the mbuf and, when one is
    needed, of the cluster; see [m_clget]. *)
Definition sctp_get_mbuf_for_msg (sctp_mbuf_threshold_count : Z) (ok : bool)
  (space_needed : Z) (want_header allonebuf : bool) : option mbuf :=
  match (if want_header then m_gethdr ok else m_get ok) with
  | None => None
  | Some m =>
      let mbuf_threshold := if allonebuf then 1 else sctp_mbuf_threshold_count in
      Some (if (mbuf_threshold - 1) * MLEN + MHLEN <? i32 space_needed then m_clget m else m)
  end.

(** The chain that [usrsctp_conninput] hands to [sctp_common_input_processing]. *)
Definition conninput_chain (alloc : nat -> bool) (fill sctp_mbuf_threshold_count : Z) (buffer : list Z)
  : option (option (list mbuf)) :=
  let length := Z.of_nat (length buffer) in
  match sctp_get_mbuf_for_msg sctp_mbuf_threshold_count (alloc 0%nat) (u32 length) true false with
  | None => Some None
  | Some m =>
      c ← m_copyback (fun k => alloc (S k)) fill [m] 0 buffer;
      match c with
      | [] => None
      | m :: _ => if m_len m <? 16 then m_pullup (alloc (S (S (Datatypes.length c)))) c 16 else Some (Some c)
      end
  end.
