(* ===== verification/MbufProps.v ===== *)
(** * Packet buffers: properties

    Every operation on a chain is determined by the bytes of the chain: copying is a
    slice, trimming drops bytes at one end, [m_pullup] moves the head into one mbuf,
    [m_split] cuts in two; none writes outside a data area. *)

From S2P Require Import Prelude Mbuf.

Open Scope sctp_scope.

(** The bytes of an mbuf lie in its data area. *)
Record mbuf_ok (m : mbuf) : Prop := MbufOk {
  ok_start : 0 <= m_data m;
  ok_end : m_data m + m_len m <= m_end m;
  ok_pkthdr : m_ext m = None -> is_Some (m_pkthdr m) -> pktdat <= m_data m
}.

Abbreviation chain_ok := (Forall mbuf_ok).

(** ** Slices and chains *)

Section Slices.

Lemma slice_length off n l :
  0 <= off -> 0 <= n -> off + n <= Z.of_nat (length l) -> Z.of_nat (length (slice off n l)) = n.
Proof. intros ???. unfold slice. rewrite length_take, length_drop. lia. Qed.

Lemma slice_length_le off n l : 0 <= n -> Z.of_nat (length (slice off n l)) <= n.
Proof. intros ?. unfold slice. rewrite length_take. lia. Qed.

Lemma slice_0 n l : slice 0 n l = take (Z.to_nat n) l.
Proof. done. Qed.

Lemma slice_nil off n l : n <= 0 -> slice off n l = [].
Proof. intros ?. unfold slice. by replace (Z.to_nat n) with 0%nat by lia. Qed.

Lemma slice_all l n : Z.of_nat (length l) <= n -> slice 0 n l = l.
Proof. intros ?. rewrite slice_0. apply take_ge. lia. Qed.

(** A slice of two parts joined. *)
Lemma slice_app_l off n a b :
  0 <= off <= Z.of_nat (length a) -> off + n <= Z.of_nat (length a) -> slice off n (a ++ b) = slice off n a.
Proof.
  intros ??. unfold slice. rewrite drop_app_le by lia. by rewrite take_app_le by (rewrite length_drop; lia).
Qed.

Lemma slice_app_r off n a b : Z.of_nat (length a) <= off -> slice off n (a ++ b) = slice (off - Z.of_nat (length a)) n b.
Proof.
  intros ?. unfold slice. rewrite drop_app_ge by lia. do 2 f_equal. lia.
Qed.

Lemma slice_app off n a b :
  0 <= off <= Z.of_nat (length a) -> Z.of_nat (length a) <= off + n ->
  slice off n (a ++ b) = drop (Z.to_nat off) a ++ slice 0 (n - (Z.of_nat (length a) - off)) b.
Proof.
  intros ??. unfold slice. rewrite drop_app_le by lia. rewrite take_app_ge by (rewrite length_drop; lia).
  rewrite length_drop, drop_0. do 2 f_equal. lia.
Qed.

Lemma slice_to_end off n l :
  0 <= off -> Z.of_nat (length l) <= off + n -> slice off n l = drop (Z.to_nat off) l.
Proof. intros ??. apply take_ge. rewrite length_drop. lia. Qed.

Lemma chain_bytes_cons m c : chain_bytes (m :: c) = m_bytes m ++ chain_bytes c.
Proof. done. Qed.

Lemma chain_bytes_app a b : chain_bytes (a ++ b) = chain_bytes a ++ chain_bytes b.
Proof. unfold chain_bytes. by rewrite map_app, concat_app. Qed.

Lemma chain_size_cons m c : chain_len (m :: c) = m_len m + chain_len c.
Proof. unfold chain_len, m_len. rewrite chain_bytes_cons, length_app. lia. Qed.

Lemma chain_size_app a b : chain_len (a ++ b) = chain_len a + chain_len b.
Proof. unfold chain_len. rewrite chain_bytes_app, length_app. lia. Qed.

Lemma chain_size_nonneg c : 0 <= chain_len c.
Proof. unfold chain_len. lia. Qed.

Lemma m_len_nonneg m : 0 <= m_len m.
Proof. unfold m_len. lia. Qed.

Lemma adjust_pkthdr_bytes f c : chain_bytes (adjust_pkthdr f c) = chain_bytes c.
Proof. by destruct c. Qed.

Lemma adjust_pkthdr_ok f c : chain_ok c -> chain_ok (adjust_pkthdr f c).
Proof.
  destruct c as [|m c]; [done|]. intros [[H1 H2 H3] Hc]%Forall_cons. constructor; [|done].
  split; [done..|]. simpl. intros He Hs. apply H3; [done|]. destruct (m_pkthdr m); [by eexists|by destruct Hs].
Qed.

End Slices.

#[export] Hint Resolve m_len_nonneg chain_size_nonneg : sctp.

(** Writing inside the data area succeeds and changes the bytes written. *)
Lemma m_put_ok m i src :
  0 <= i <= m_len m -> m_data m + i + Z.of_nat (length src) <= m_end m ->
  m_put m i src = Some (m <| m_bytes := take (Z.to_nat i) (m_bytes m) ++ src
                                        ++ drop (Z.to_nat i + length src) (m_bytes m) |>).
Proof.
  intros Hi He. unfold m_put. destruct (Z.ltb_spec (m_end m) (m_data m + i + Z.of_nat (length src))); [lia|].
  destruct (Z.ltb_spec (m_len m) i); [lia | done].
Qed.

(** Appending to the bytes of an mbuf. *)
Lemma m_put_end m src :
  m_data m + m_len m + Z.of_nat (length src) <= m_end m ->
  m_put m (m_len m) src = Some (m <| m_bytes := m_bytes m ++ src |>).
Proof.
  intros He. pose proof (m_len_nonneg m). rewrite m_put_ok by lia. f_equal. unfold m_len. rewrite Nat2Z.id.
  rewrite firstn_all, (drop_ge (m_bytes m)) by lia. by rewrite app_nil_r.
Qed.

(** ** Copying *)

Section Copying.

(** Skipping bytes leaves the chain from there on. *)
Lemma m_skip_spec c off :
  0 <= off <= chain_len c -> exists d o, m_seek c off = Some (d, o) /\ 0 <= o <= off /\
    (forall n, slice off n (chain_bytes c) = slice o n (chain_bytes d)) /\
    chain_len d = chain_len c - off + o /\ (o <= match d with [] => 0 | m :: _ => m_len m end) /\
    (chain_ok c -> chain_ok d) /\ (off = 0 -> d = c /\ o = 0).
Proof.
  revert off. induction c as [|m c IH]; intros off Ho.
  - change (chain_len []) with 0 in *. replace off with 0 by lia. exists [], 0. simpl.
    repeat split; try done; lia.
  - rewrite chain_size_cons in Ho. simpl. pose proof (m_len_nonneg m).
    destruct (Z.leb_spec off 0); [|destruct (Z.ltb_spec off (m_len m))].
    1,2: exists (m :: c), off; repeat split; try done; lia.
    destruct (IH (off - m_len m)) as (d & o & E & Ho' & Hs & Hd & Hle & Hok & _); [lia|].
    exists d, o. split; [done|]. split; [lia|]. split.
    { intros n. rewrite chain_bytes_cons, slice_app_r; [apply Hs | unfold m_len in *; lia]. }
    rewrite chain_size_cons. split; [lia|]. split; [done|]. split; [|lia].
    intros Hc. apply Hok. by inversion Hc.
Qed.

Lemma copydata_loop_spec c off len :
  0 <= off <= match c with [] => 0 | m :: _ => m_len m end -> off + len <= chain_len c ->
  copydata_loop c off len = Some (slice off len (chain_bytes c)).
Proof.
  revert off len. induction c as [|m c IH]; intros off len Ho Hl; simpl.
  - change (chain_len []) with 0 in Hl. destruct (Z.leb_spec len 0); [|lia]. by rewrite slice_nil.
  - destruct (Z.leb_spec len 0); [by rewrite slice_nil|]. rewrite chain_size_cons in Hl.
    rewrite chain_bytes_cons. destruct (Z.le_gt_cases (m_len m - off) len).
    + rewrite Z.min_l by lia. rewrite IH; [|destruct c; [lia | pose proof (m_len_nonneg m0); lia]|lia].
      simpl. rewrite slice_app by (unfold m_len in *; lia). rewrite slice_to_end by (unfold m_len in *; lia).
      done.
    + rewrite Z.min_r by lia. replace (len - len) with 0 by lia.
      rewrite slice_app_l by (unfold m_len in *; lia). destruct c; simpl; by rewrite app_nil_r.
Qed.

Lemma m_copydata_slice c off len :
  0 <= off -> 0 <= len -> off + len <= chain_len c ->
  m_copydata c off len = Some (slice off len (chain_bytes c)).
Proof.
  intros Ho Hl Hc. unfold m_copydata.
  destruct (Z.ltb_spec off 0); [lia|]. destruct (Z.ltb_spec len 0); [lia|]. simpl.
  destruct (m_skip_spec c off) as (d & o & -> & H1 & H2 & H3 & H4 & _); [lia|]. simpl.
  rewrite copydata_loop_spec by lia. by rewrite H2.
Qed.

(** The copy of one mbuf. *)
Lemma copym_mbuf_spec (copyhdr : bool) n m off off0 len :
  mbuf_ok m -> m_bytes n = [] -> m_ext n = None -> m_data n = (if copyhdr then pktdat else 0) ->
  m_pkthdr n = (if copyhdr then Some 0 else None) -> (copyhdr = true -> is_Some (m_pkthdr m)) ->
  0 <= off <= m_len m -> 0 < len ->
  exists n', copym_mbuf copyhdr n m off off0 len = Some n' /\ mbuf_ok n' /\
    m_bytes n' = slice off (Z.min len (m_len m - off)) (m_bytes m).
Proof.
  intros [H1 H2 H3] Hb He Hd Hp Hh Ho Hl. unfold copym_mbuf.
  set (l := slice off (Z.min len (m_len m - off)) (m_bytes m)).
  assert (Ll : Z.of_nat (length l) <= m_len m - off).
  { unfold l. etrans; [apply slice_length_le; lia | lia]. }
  unfold m_end in *. destruct (m_ext m) as [size|] eqn:Ex.
  - eexists. split; [reflexivity|]. split; [|done]. simpl in *.
    split; simpl; [lia | unfold m_len, m_end in *; simpl; lia | done].
  - assert (Hcase : exists n1, copym_hdr copyhdr n m off0 len = n1 /\
       m_bytes n1 = [] /\ m_ext n1 = None /\ 0 <= m_data n1 <= m_data m /\ m_data n1 = (if copyhdr then pktdat else 0) /\
       (is_Some (m_pkthdr n1) -> copyhdr = true)).
    { unfold copym_hdr, m_dup_pkthdr. rewrite He. simpl in H2. destruct copyhdr; simpl.
      - specialize (H3 eq_refl (Hh eq_refl)). eexists. split; [reflexivity|]. simpl. unfold pktdat in *.
        repeat split; try done; lia.
      - exists n. rewrite Hd, Hp. repeat split; try done; try lia; intros Hs; by destruct Hs. }
    destruct Hcase as (n1 & -> & B1 & E1 & D1 & D2 & P1). simpl in H2.
    rewrite m_put_ok; [|unfold m_len; rewrite B1; simpl; lia |unfold m_end; rewrite E1; simpl; lia].
    rewrite B1. eexists. split; [reflexivity|]. simpl. rewrite drop_nil, app_nil_r. split; [|done].
    split; simpl; [lia | unfold m_len, m_end; simpl; rewrite E1; simpl; lia|].
    intros _ Hs. rewrite D2, (P1 Hs). done.
Qed.

Lemma copym_loop_spec alloc k copyhdr c off off0 len :
  chain_ok c -> 0 <= off <= match c with [] => 0 | m :: _ => m_len m end -> 0 <= len <= M_COPYALL ->
  chain_len c <= M_COPYALL ->
  (copyhdr = true -> match c with [] => False | m :: _ => is_Some (m_pkthdr m) end) ->
  exists r, copym_loop alloc k copyhdr c off off0 len = Some r /\
    ((forall i, (k <= i)%nat -> alloc i = true) -> is_Some r) /\
    forall d, r = Some d -> chain_ok d /\
      chain_bytes d = slice off (if len =? M_COPYALL then chain_len c else len) (chain_bytes c).
Proof.
  revert k copyhdr off len. induction c as [|m c IH]; intros k copyhdr off len Hc Ho Hl HL Hh; simpl.
  - destruct (len <=? 0); (eexists; split; [reflexivity|]; split; [by eexists|]; intros d [= <-]; split; [done|]);
      unfold slice, chain_bytes; simpl; by rewrite drop_nil, take_nil.
  - apply Forall_cons in Hc as [Hm Hc]. destruct (Z.leb_spec len 0) as [Hz|Hz].
    { eexists. split; [reflexivity|]. split; [by eexists|]. intros d [= <-]. split; [done|].
      replace (len =? M_COPYALL) with false by (symmetry; apply Z.eqb_neq; unfold M_COPYALL; lia).
      by rewrite slice_nil. }
    destruct (if copyhdr then m_gethdr (alloc k) else m_get (alloc k)) as [n|] eqn:En.
    2: { exists None. split; [done|]. split; [|done]. intros Ha. specialize (Ha k ltac:(lia)).
         exfalso. destruct copyhdr; simpl in En; rewrite Ha in En; discriminate. }
    assert (Hn : n = if copyhdr then Mbuf [] pktdat None (Some 0) else Mbuf [] 0 None None).
    { destruct copyhdr; unfold m_gethdr, m_get in En; destruct (alloc k); congruence. }
    destruct (copym_mbuf_spec copyhdr n m off off0 len) as (n' & -> & On & Bn);
      [done | by subst; destruct copyhdr..| done | done | lia |].
    simpl.
    rewrite chain_size_cons in HL. pose proof (m_len_nonneg m). pose proof (chain_size_nonneg c).
    assert (Ln : m_len n' = Z.min len (m_len m - off)).
    { unfold m_len at 1. rewrite Bn. apply slice_length; [lia|lia|]. unfold m_len. lia. }
    destruct (IH (S k) false 0 (if len =? M_COPYALL then len else len - m_len n')) as (r & -> & Hs & Hr);
      [done | destruct c; [lia | pose proof (m_len_nonneg m0); lia]| | lia | done |].
    { destruct (len =? M_COPYALL); lia. }
    simpl. eexists. split; [reflexivity|]. split.
    { intros Ha. destruct Hs as [d ->]; [|by eexists]. intros i Hi. apply Ha. lia. }
    intros d Hd. destruct r as [t|]; [|discriminate]. injection Hd as <-.
    destruct (Hr t eq_refl) as [Ot Bt]. split; [by constructor|].
    clear IH Hs Hr. rewrite !chain_bytes_cons, Bn, Bt, chain_size_cons.
    destruct (Z.eqb_spec len M_COPYALL) as [Heq|Hne].
    + unfold chain_len in *.
      rewrite Z.min_r by lia. rewrite (slice_app off) by (rewrite ?length_app; unfold m_len in *; lia).
      rewrite (slice_to_end off) by (unfold m_len; lia). f_equal.
      rewrite (proj2 (Z.eqb_eq _ _) Heq). by rewrite !slice_all by (unfold m_len in *; lia).
    + destruct (Z.le_gt_cases (m_len m - off) len) as [Hle|Hgt].
      * rewrite Ln, Z.min_r by lia. rewrite (slice_to_end off) by (unfold m_len; lia).
        replace (len - (m_len m - off) =? M_COPYALL) with false by (symmetry; apply Z.eqb_neq; lia).
        rewrite slice_app by (unfold m_len in *; lia). done.
      * rewrite Ln, Z.min_l by lia. rewrite Z.sub_diag. change (0 =? M_COPYALL) with false. cbv iota.
        rewrite (slice_nil 0 0), app_nil_r by lia. rewrite slice_app_l by (unfold m_len in *; lia). done.
Qed.

(** The copy of [len] bytes from [off] on, or of everything from [off] on: without memory
    for every mbuf the answer is [NULL]. *)
Lemma m_copym_slice alloc c off len :
  chain_ok c -> c <> [] -> 0 <= off <= chain_len c -> 0 <= len <= M_COPYALL -> chain_len c <= M_COPYALL ->
  exists r, m_copym alloc c off len = Some r /\
    ((forall i, alloc i = true) -> is_Some r) /\
    forall d, r = Some d -> chain_ok d /\
      chain_bytes d = slice off (if len =? M_COPYALL then chain_len c else len) (chain_bytes c).
Proof.
  intros Hc Hne Ho Hl HL. unfold m_copym.
  destruct (Z.ltb_spec off 0); [lia|]. destruct (Z.ltb_spec len 0); [lia|]. simpl.
  destruct c as [|m c]; [done|].
  destruct (m_skip_spec (m :: c) off) as (d & o & -> & H1 & H2 & H3 & H4 & H5 & H6); [done|]. simpl.
  set (hdr := (off =? 0) && match m_pkthdr m with Some _ => true | None => false end).
  destruct (copym_loop_spec alloc 0 hdr d o off len) as (r & E & Hs & Hr); [auto | lia | done | lia| |].
  { unfold hdr. intros [Hz%Z.eqb_eq Hp]%andb_true_iff. destruct (H6 Hz) as [-> _].
    destruct (m_pkthdr m); [by eexists | done]. }
  unfold hdr in E. exists r. split; [exact E|]. split; [auto|]. intros x Hx.
  destruct (Hr x Hx) as [Ox Bx]. split; [done|]. rewrite Bx, <- H2.
  destruct (len =? M_COPYALL); [|done].
  by rewrite !slice_to_end by (unfold chain_len in *; lia).
Qed.

End Copying.

(** ** Trimming *)

Section Trimming.

Lemma trim_head_spec c len :
  0 <= len -> chain_ok c ->
  chain_bytes (trim_head c len).1 = drop (Z.to_nat len) (chain_bytes c) /\ chain_ok (trim_head c len).1.
Proof.
  revert len. induction c as [|m c IH]; intros len Hl Hc; simpl.
  { split; [symmetry; apply drop_nil | done]. }
  apply Forall_cons in Hc as [Hm Hc].
  destruct (Z.leb_spec len 0) as [Hz|Hz]; [|destruct (Z.leb_spec (m_len m) len) as [Hm'|Hm']]; simpl.
  - replace len with 0 by lia. by rewrite drop_0; split; [|constructor].
  - destruct (IH (len - m_len m)) as [IH1 IH2]; [lia|done|]. split.
    + rewrite !chain_bytes_cons, IH1. simpl. rewrite drop_app_ge by (unfold m_len in *; lia).
      f_equal. unfold m_len. lia.
    + constructor; [|done]. destruct Hm. split; simpl; try done. unfold m_len, m_end in *. simpl. lia.
  - split.
    + rewrite !chain_bytes_cons. simpl. by rewrite drop_app_le by (unfold m_len in *; lia).
    + constructor; [|done]. destruct Hm as [H1 H2 H3].
      split; simpl; [lia | unfold m_len, m_end in *; simpl; rewrite length_drop; lia|].
      intros He Hs. specialize (H3 He Hs). lia.
Qed.

Lemma trim_tail_spec c count :
  0 <= count -> chain_ok c ->
  chain_bytes (trim_tail c count) = take (Z.to_nat count) (chain_bytes c) /\ chain_ok (trim_tail c count).
Proof.
  revert count. induction c as [|m c IH]; intros count Hn Hc; simpl.
  { split; [symmetry; apply take_nil | done]. }
  apply Forall_cons in Hc as [Hm Hc]. destruct (Z.leb_spec count (m_len m)) as [Hle|Hgt].
  - split; [rewrite !chain_bytes_cons; simpl; rewrite app_nil_r; by rewrite take_app_le by (unfold m_len in *; lia)|].
    constructor; [|done]. destruct Hm as [H1 H2 H3].
    split; simpl; [done | unfold m_len, m_end in *; simpl; rewrite length_take; lia | done].
  - destruct (IH (count - m_len m)) as [IH1 IH2]; [lia|done|]. split; [|by constructor].
    rewrite !chain_bytes_cons, IH1. rewrite take_app_ge by (unfold m_len in *; lia). do 2 f_equal.
    unfold m_len. lia.
Qed.

Lemma last_split (c : list mbuf) m : last c = Some m -> c = removelast c ++ [m].
Proof.
  intros Hl. destruct c as [|x c]; [done|]. rewrite (app_removelast_last m) at 1 by done. f_equal.
  f_equal. apply last_Some in Hl as [u Hu]. rewrite Hu. by rewrite List.last_last.
Qed.

(** [m_adj] drops [n] bytes from the head, or [- n] from the tail. *)
Lemma m_adj_bytes c n :
  chain_ok c ->
  chain_ok (m_adj c n) /\
  chain_bytes (m_adj c n) =
    (if 0 <=? n then drop (Z.to_nat n) (chain_bytes c) else take (Z.to_nat (chain_len c + n)) (chain_bytes c)).
Proof.
  intros Hc. unfold m_adj. destruct (last c) as [m|] eqn:El.
  2: { apply last_None in El as ->. split; [done|].
       destruct (0 <=? n); symmetry; [apply drop_nil | apply take_nil]. }
  destruct (Z.leb_spec 0 n) as [Hn|Hn].
  - destruct (trim_head_spec c n Hn Hc) as [H1 H2]. simpl.
    split; [by apply adjust_pkthdr_ok | by rewrite adjust_pkthdr_bytes].
  - pose proof (last_split c m El) as Ec. destruct (Z.leb_spec (- n) (m_len m)) as [Hm|Hm].
    + assert (Hm' : mbuf_ok m /\ chain_ok (removelast c)).
      { rewrite Ec in Hc. apply Forall_app in Hc as [? Hm1]. by inversion Hm1. }
      destruct Hm' as [[H1 H2 H3] Hr]. rewrite adjust_pkthdr_bytes. split.
      * apply adjust_pkthdr_ok, Forall_app. split; [done|]. constructor; [|done].
        split; simpl; [done | unfold m_len, m_end in *; simpl; rewrite length_take; lia | done].
      * clear El Hc. revert Hr Ec. generalize (removelast c). intros u _ ->.
        rewrite !chain_bytes_app, chain_size_app, chain_size_cons.
        change (chain_len []) with 0. rewrite take_app_ge by (unfold chain_len, m_len in *; lia).
        f_equal. rewrite !chain_bytes_cons. change (chain_bytes []) with (@nil Z). rewrite !app_nil_r. simpl.
        f_equal. unfold chain_len, m_len in *. lia.
    + destruct (trim_tail_spec (adjust_pkthdr (fun _ => if chain_len c - - n <? 0 then 0 else chain_len c - - n) c)
                 (if chain_len c - - n <? 0 then 0 else chain_len c - - n)) as [H1 H2].
      { destruct (Z.ltb_spec (chain_len c - - n) 0); lia. }
      { by apply adjust_pkthdr_ok. }
      split; [done|]. rewrite H1, adjust_pkthdr_bytes. f_equal.
      destruct (Z.ltb_spec (chain_len c - - n) 0); lia.
Qed.

End Trimming.

(** ** Making the head contiguous *)

Section Pullup.

Lemma mbuf_ok_drop n count :
  mbuf_ok n -> 0 <= count <= m_len n ->
  mbuf_ok ((n <| m_bytes := drop (Z.to_nat count) (m_bytes n) |>) <| m_data := m_data n + count |>).
Proof.
  intros [H1 H2 H3] Hc. split; simpl; [lia | unfold m_len, m_end in *; simpl; rewrite length_drop; lia|].
  intros He Hs. specialize (H3 He Hs). lia.
Qed.

Lemma pullup_loop_spec m c len space :
  mbuf_ok m -> m_ext m = None -> c <> [] -> chain_ok c -> len <= space ->
  space = MLEN - (m_data m + m_len m) ->
  exists m' c' l', pullup_loop m c len space = Some (m', c', l') /\
    m_bytes m' ++ chain_bytes c' = m_bytes m ++ chain_bytes c /\ chain_ok (m' :: c') /\
    m_len m' = m_len m + (len - l') /\ (0 < l' -> c' = []).
Proof.
  intros Hm He Hne Hc. revert m len space Hm He Hne. induction c as [|n c IH]; intros m len space Hm He Hne Hl Hs; [done|].
  apply Forall_cons in Hc as [Hn Hc]. specialize (IH Hc). simpl.
  set (count := Z.min (Z.min (Z.max len max_protohdr) space) (m_len n)).
  assert (Hcount : 0 <= count <= m_len n).
  { pose proof (m_len_nonneg n). destruct Hm as [H1 H2 H3]. unfold m_end in H2. rewrite He in H2.
    unfold count, max_protohdr. simpl in H2. lia. }
  assert (Lc : Z.of_nat (length (slice 0 count (m_bytes n))) = count) by (apply slice_length; unfold m_len in *; lia).
  assert (Hend : m_end m = MLEN) by (unfold m_end; by rewrite He).
  rewrite m_put_end by (rewrite Lc, Hend; unfold count in *; lia). simpl.
  set (m1 := m <| m_bytes := m_bytes m ++ slice 0 count (m_bytes n) |>).
  assert (Lm1 : m_len m1 = m_len m + count) by (unfold m1, m_len; simpl; rewrite length_app; lia).
  assert (Dm1 : m_data m1 = m_data m) by done.
  assert (Hm1 : mbuf_ok m1).
  { destruct Hm as [H1 H2 H3]. split; [done| |done]. unfold m1, m_end in *. simpl. rewrite Lm1, He in *.
    simpl in *. unfold count in *. lia. }
  assert (Hbytes : m_bytes m1 ++ drop (Z.to_nat count) (m_bytes n) = m_bytes m ++ m_bytes n).
  { unfold m1. simpl. rewrite <- app_assoc, slice_0. by rewrite take_drop. }
  assert (Ln : m_len (n <| m_bytes := drop (Z.to_nat count) (m_bytes n) |>) = m_len n - count).
  { unfold m_len. simpl. rewrite length_drop. unfold m_len in *. lia. }
  rewrite Ln. destruct (Z.eqb_spec (m_len n - count) 0) as [Hz|Hz].
  - assert (Hd : drop (Z.to_nat count) (m_bytes n) = []).
    { apply drop_ge. unfold m_len in *. lia. }
    rewrite Hd, app_nil_r in Hbytes. destruct c as [|x c].
    + do 3 eexists. split; [reflexivity|]. rewrite Hbytes. split; [by rewrite chain_bytes_cons, app_assoc|].
      split; [by constructor|]. split; [lia | done].
    + destruct (Z.ltb_spec 0 (len - count)).
      * destruct (IH m1 (len - count) (space - count)) as (m' & c' & l' & E & Hb & Hok & Hlen & Hl');
          [done | done | done | lia | lia |].
        do 3 eexists. split; [exact E|]. rewrite Hb, Hbytes, <- app_assoc. split; [done|].
        split; [done|]. split; [lia | done].
      * do 3 eexists. split; [reflexivity|]. rewrite Hbytes, <- app_assoc. split; [done|].
        split; [by constructor|]. split; [lia | lia].
  - destruct (Z.ltb_spec 0 (len - count)); [exfalso; unfold count in *; unfold max_protohdr in *; lia|].
    do 3 eexists. split; [reflexivity|]. rewrite !chain_bytes_cons. simpl.
    rewrite (app_assoc (m_bytes m1)), Hbytes, <- app_assoc. split; [done|].
    split; [|split; lia]. constructor; [done|]. constructor; [by apply mbuf_ok_drop | done].
Qed.

(** [m_pullup] puts the first [len] bytes of the chain into its first mbuf and leaves the
    bytes of the chain as they are; it fails exactly when the chain is too short, or a new
    mbuf is needed and cannot be had. *)
Lemma m_pullup_spec ok c len :
  chain_ok c -> c <> [] ->
  exists r, m_pullup ok c len = Some r /\
    (forall d, r = Some d -> chain_bytes d = chain_bytes c /\ chain_ok d /\
       exists m d', d = m :: d' /\ len <= m_len m) /\
    (len <= chain_len c -> len <= MHLEN -> ok = true -> is_Some r) /\
    (chain_len c < len -> r = None).
Proof.
  intros Hc Hne. destruct c as [|n c]; [done|]. pose proof Hc as [Hn Hc']%Forall_cons. unfold m_pullup.
  rewrite chain_size_cons. pose proof (chain_size_nonneg c) as Hc0. pose proof (m_len_nonneg n) as Hn0.
  assert (Hfin : forall m d l0 l space, mbuf_ok m -> m_ext m = None -> d <> [] -> chain_ok d ->
    l <= space -> space = MLEN - (m_data m + m_len m) -> l0 = m_len m + l ->
    exists r, (x ← pullup_loop m d l space; Some (pullup_finish x)) = Some r /\
      (forall d', r = Some d' -> chain_bytes d' = m_bytes m ++ chain_bytes d /\ chain_ok d' /\
         exists m' d'', d' = m' :: d'' /\ l0 <= m_len m') /\
      (l0 <= m_len m + chain_len d -> is_Some r) /\ (m_len m + chain_len d < l0 -> r = None)).
  { intros m d l0 l space Hm He Hd Hcd Hl Hs ->.
    destruct (pullup_loop_spec m d l space) as (m' & c' & l' & -> & Hb & Hok & Hlen & Hl'); [done..|].
    simpl. eexists. split; [reflexivity|]. unfold pullup_finish.
    assert (Hlen2 : m_len m' + chain_len c' = m_len m + chain_len d).
    { unfold m_len, chain_len in *. rewrite <- !Nat2Z.inj_add, <- !length_app. by rewrite Hb. }
    destruct (Z.ltb_spec 0 l') as [Hpos|Hpos].
    - rewrite (Hl' Hpos) in *. change (chain_len []) with 0 in *.
      split; [done|]. split; [lia | done].
    - pose proof (chain_size_nonneg c'). split; [|split; [by eexists | lia]].
      intros d' [= <-]. rewrite chain_bytes_cons. split; [done|]. split; [done|]. do 2 eexists. split; [done|]. lia. }
  destruct (_ && _ && _) eqn:E1.
  - apply andb_true_iff in E1 as [[E1 E2%Z.ltb_lt]%andb_true_iff E3].
    destruct (m_ext n) eqn:Ex; [done|]. destruct c as [|x c]; [done|].
    destruct (Z.leb_spec len (m_len n)).
    + eexists. split; [reflexivity|]. split; [|split; [by eexists|lia]].
      intros d [= <-]. split; [done|]. split; [done|]. do 2 eexists. by split.
    + destruct (Hfin n (x :: c) len (len - m_len n) (MLEN - (m_data n + m_len n))) as (r & -> & Hr1 & Hr2 & Hr3);
        [done | done | done | done | lia | lia | lia |].
      eexists. split; [reflexivity|]. split; [exact Hr1|]. split; auto.
  - clear E1. destruct (Z.ltb_spec MHLEN len) as [Hbig|Hsmall].
    { eexists. split; [reflexivity|]. split; [done|]. split; [lia | done]. }
    destruct ok; cbn [m_get].
    2: { eexists. split; [reflexivity|]. by split. }
    assert (Hpk : exists m n', (match m_pkthdr n with
                           | Some _ => m_move_pkthdr (Mbuf [] 0 None None) n
                           | None => (Mbuf [] 0 None None, n)
                           end) = (m, n') /\
      mbuf_ok m /\ m_ext m = None /\ m_bytes m = [] /\ mbuf_ok n' /\ m_bytes n' = m_bytes n /\ MHLEN <= MLEN - m_data m).
    { destruct (m_pkthdr n) as [p|] eqn:Ep.
      - unfold m_move_pkthdr. simpl. do 2 eexists. split; [reflexivity|]. rewrite Ep. destruct Hn as [H1 H2 H3].
        repeat split; simpl; try done; intros _ Hs; by destruct Hs.
      - do 2 eexists. split; [reflexivity|]. repeat split; simpl; try done; try apply Hn; intros _ Hs; by destruct Hs. }
    destruct Hpk as (m & n' & -> & Om & Em & Bm & On & Bn & Sm).
    assert (Lm : m_len m = 0) by (unfold m_len; by rewrite Bm).
    assert (Ln : m_len n' = m_len n) by (unfold m_len; by rewrite Bn).
    destruct (Hfin m (n' :: c) len len (MLEN - (m_data m + m_len m))) as (r & -> & Hr1 & Hr2 & Hr3);
      [done | done | done | by constructor | lia | lia | lia |].
    rewrite chain_size_cons in Hr2, Hr3. eexists. split; [reflexivity|].
    split; [|split; [intros; apply Hr2; lia | intros; apply Hr3; lia]].
    intros d Hd. destruct (Hr1 d Hd) as (Hb & Ho & Hf). rewrite Hb, Bm, !chain_bytes_cons, Bn. done.
Qed.

End Pullup.

(** ** Splitting *)

Section Split.

Lemma split_seek_spec c len :
  0 <= len ->
  match split_seek c len with
  | None => chain_len c < len \/ c = []
  | Some (u, m, v, l) => c = u ++ m :: v /\ len = chain_len u + l /\ 0 <= l <= m_len m
  end.
Proof.
  revert len. induction c as [|m c IH]; intros len Hl; simpl; [by right|].
  pose proof (m_len_nonneg m). destruct (Z.ltb_spec (m_len m) len).
  - specialize (IH (len - m_len m) ltac:(lia)). destruct (split_seek c _) as [[[[u x] v] l]|]; simpl.
    + destruct IH as (-> & Hlen & Hl'). rewrite chain_size_cons. split; [done|]. split; [lia | done].
    + left. rewrite chain_size_cons. destruct IH as [| ->]; [lia|]. change (chain_len []) with 0. lia.
  - change (chain_len []) with 0. split; [done|]. lia.
Qed.

Lemma cut_ok m l : mbuf_ok m -> mbuf_ok (cut m l).
Proof.
  intros [H1 H2 H3]. split; simpl; [done | unfold m_len, m_end in *; simpl; rewrite length_take; lia | done].
Qed.

(** The second part of an mbuf that is cut after [l] bytes. *)
Lemma split_into_spec n m l :
  mbuf_ok m -> 0 <= l <= m_len m -> m_bytes n = [] -> m_ext n = None ->
  (m_ext m = None -> 0 <= m_data n /\ m_data n + (m_len m - l) <= MLEN) ->
  (is_Some (m_pkthdr n) -> m_ext m = None -> pktdat <= m_data n) ->
  exists n', split_into n m l = Some n' /\ mbuf_ok n' /\ m_bytes n' = drop (Z.to_nat l) (m_bytes m).
Proof.
  intros [H1 H2 H3] Hl Hb He Hr Hp. unfold split_into. unfold m_end in H2.
  destruct (m_ext m) as [size|] eqn:Ex.
  - eexists. split; [reflexivity|]. split; [|done].
    split; simpl in *; [lia | unfold m_len, m_end in *; simpl; rewrite length_drop; lia | done].
  - specialize (Hr eq_refl). rewrite m_put_ok.
    + rewrite Hb, drop_nil, app_nil_r. eexists. split; [reflexivity|]. simpl. split; [|done].
      split; simpl; [lia | unfold m_len, m_end in *; simpl; rewrite He, length_drop; simpl; lia|]. auto.
    + unfold m_len. rewrite Hb. simpl. lia.
    + unfold m_end. rewrite He, length_drop. unfold m_len in *. simpl. lia.
Qed.

Lemma align_bounds cap len : len <= cap -> 0 <= cap -> 0 <= len -> 0 <= align cap len /\ align cap len + len <= cap.
Proof. intros ???. unfold align. Z.div_mod_to_equations. lia. Qed.

Lemma cut_bytes m l : m_bytes (cut m l) ++ drop (Z.to_nat l) (m_bytes m) = m_bytes m.
Proof. apply take_drop. Qed.

Lemma cut_len m l : 0 <= l <= m_len m -> m_len (cut m l) = l.
Proof. intros ?. unfold m_len, cut in *. simpl. rewrite length_take. lia. Qed.

(** The two halves of a chain, or the chain as it was. *)
Definition halves (c : list mbuf) (len0 : Z) (enough : Prop) (r : list mbuf * option (list mbuf)) : Prop :=
  match r.2 with
  | Some d => chain_bytes r.1 ++ chain_bytes d = chain_bytes c /\ chain_len r.1 = len0 /\ chain_ok r.1 /\ chain_ok d
  | None => chain_bytes r.1 = chain_bytes c /\ (enough -> chain_len c <= len0)
  end.

Lemma split_plain_spec ok u m v l :
  chain_ok (u ++ m :: v) -> 0 <= l <= m_len m ->
  exists r, split_plain ok u m v l = Some r /\ halves (u ++ m :: v) (chain_len u + l) (ok = true) r.
Proof.
  intros Hc Hl. pose proof Hc as [Hu [Hm Hv]%Forall_cons]%Forall_app. unfold split_plain.
  destruct (Z.eqb_spec (m_len m - l) 0) as [Hz|Hz].
  - eexists. split; [reflexivity|]. unfold halves. destruct v as [|x v]; simpl.
    + split; [done|]. intros _. rewrite chain_size_app, chain_size_cons. change (chain_len []) with 0. lia.
    + split; [by rewrite <- chain_bytes_app, <- app_assoc|]. rewrite chain_size_app, chain_size_cons.
      change (chain_len []) with 0. split; [lia|]. split; [|done]. apply Forall_app. by split; [|constructor].
  - destruct ok; cbn [m_get]; [|eexists; split; [reflexivity|]; by split].
    destruct (split_into_spec ((Mbuf [] 0 None None) <| m_data := align MLEN (m_len m - l) |>) m l)
      as (n' & -> & On & Bn); [done | done | done | done | | by intros [? ?] |].
    { intros He. simpl. destruct Hm as [H1 H2 _]. unfold m_end in H2. rewrite He in H2. simpl in H2.
      apply align_bounds; unfold MLEN in *; lia. }
    simpl. eexists. split; [reflexivity|]. unfold halves. simpl.
    rewrite chain_bytes_app, !chain_bytes_cons, Bn. change (chain_bytes []) with (@nil Z).
    rewrite app_nil_r, <- app_assoc, (app_assoc (m_bytes (cut m l))), cut_bytes, chain_bytes_app, chain_bytes_cons.
    split; [done|]. rewrite chain_size_app, chain_size_cons, cut_len by done. change (chain_len []) with 0.
    split; [lia|]. split; [|by constructor]. apply Forall_app. split; [done|]. constructor; [by apply cut_ok | done].
Qed.

Lemma halves_hdr f c len0 P Q u t :
  halves c len0 P (u, t) -> (Q -> P) -> halves c len0 Q (adjust_pkthdr f u, t).
Proof.
  unfold halves. simpl. destruct t as [d|].
  - intros (H1 & H2 & H3 & H4) _. rewrite adjust_pkthdr_bytes. split; [done|].
    split; [unfold chain_len in *; by rewrite adjust_pkthdr_bytes|]. split; [by apply adjust_pkthdr_ok | done].
  - intros (H1 & H2) Hq. rewrite adjust_pkthdr_bytes. auto.
Qed.

(** [m_split] cuts the chain after [len0] bytes; [NULL] is returned without memory, or when
    nothing is left for the second half, and the chain keeps its bytes. *)
Lemma m_split_spec alloc c len0 :
  chain_ok c -> 0 <= len0 ->
  exists r, m_split alloc c len0 = Some r /\ halves c len0 (forall i, alloc i = true) r.
Proof.
  intros Hc Hl. unfold m_split. destruct (Z.ltb_spec len0 0); [lia|].
  pose proof (split_seek_spec c len0 Hl) as Hs. destruct (split_seek c len0) as [[[[u m] v] l]|].
  2: { eexists. split; [reflexivity|]. unfold halves. simpl. split; [done|]. intros _.
       destruct Hs as [| ->]; [lia | done]. }
  destruct Hs as (Ec & El & Hlm). destruct c as [|m0 c]; [by destruct u|].
  destruct (m_pkthdr m0) as [total|] eqn:Ep.
  2: { rewrite Ec in *. rewrite El. destruct (split_plain_spec (alloc 0%nat) u m v l) as (r & -> & Hr); [done..|].
       exists r. split; [done|]. destruct r as [a b]. unfold halves in *. simpl in *. destruct b; [done|].
       destruct Hr as [Hr1 Hr2]. auto. }
  destruct (alloc 0%nat) eqn:Ea; cbn [m_gethdr].
  2: { eexists. split; [reflexivity|]. unfold halves. simpl. split; [done|]. intros Ha. by rewrite Ha in Ea. }
  rewrite Ec in Hc |- *. pose proof Hc as [Hu [Hm Hv]%Forall_cons]%Forall_app.
  destruct (_ && _) eqn:Eb.
  - apply andb_true_iff in Eb as [Eb1 Eb2%Z.ltb_lt]. destruct (m_ext m) eqn:Ex; [done|].
    destruct (split_plain_spec (alloc 1%nat) [] m v l) as ([a b] & -> & Hr); [by constructor | done|].
    simpl in Hr |- *. change (chain_len []) with 0 in Hr. unfold halves in Hr. simpl in Hr.
    destruct b as [t|]; simpl; eexists; (split; [reflexivity|]);
      apply (halves_hdr _ _ _ (alloc 1%nat = true)); try (intros Ha; apply Ha); unfold halves; simpl.
    + destruct Hr as (H1 & H2 & H3 & H4). rewrite chain_bytes_app, chain_bytes_cons, chain_bytes_app. simpl.
      rewrite <- app_assoc, H1. split; [done|]. rewrite chain_size_app, El. split; [lia|].
      split; [by apply Forall_app|]. constructor; [|done]. by split.
    + destruct Hr as (H1 & H2). split; [done|]. intros Ha. rewrite chain_size_app, El. specialize (H2 Ha). lia.
  - assert (Hn : exists n, match m_ext m with
                 | Some _ => (Mbuf [] pktdat None (Some 0)) <| m_pkthdr := Some (total - len0) |>
                 | None => ((Mbuf [] pktdat None (Some 0)) <| m_pkthdr := Some (total - len0) |>)
                             <| m_data := pktdat + align MHLEN (m_len m - l) |>
                 end = n /\ m_bytes n = [] /\ m_ext n = None /\
              (m_ext m = None -> pktdat <= m_data n /\ m_data n + (m_len m - l) <= MLEN)).
    { destruct (m_ext m) eqn:Ex; eexists; (split; [reflexivity|]); (split; [done|]); (split; [done|]); [done|].
      intros _. simpl in Eb |- *. apply Z.ltb_ge in Eb. pose proof (align_bounds MHLEN (m_len m - l) Eb).
      unfold MHLEN, MLEN, pktdat in *. lia. }
    destruct Hn as (n & -> & Bn & En & Dn).
    destruct (split_into_spec n m l) as (n' & -> & On & Bn'); [done..| | by intros _ He; apply Dn |].
    { intros He. destruct (Dn He). unfold pktdat in *. lia. }
    simpl. eexists. split; [reflexivity|]. apply (halves_hdr _ _ _ True); [|done]. unfold halves. simpl.
    rewrite chain_bytes_app, !chain_bytes_cons, Bn'. change (chain_bytes []) with (@nil Z).
    rewrite app_nil_r, <- app_assoc, (app_assoc (m_bytes (cut m l))), cut_bytes, chain_bytes_app, chain_bytes_cons.
    split; [done|]. rewrite chain_size_app, chain_size_cons, cut_len by done. change (chain_len []) with 0.
    split; [lia|]. split; [|by constructor]. apply Forall_app. split; [done|]. constructor; [by apply cut_ok | done].
Qed.

End Split.

(** ** From the application *)

Section Conninput.

Lemma copyback_loop_spec fuel alloc fill k m cp :
  mbuf_ok m -> m_len m <= Z.of_nat (length cp) -> (length cp - length (m_bytes m) <= fuel)%nat ->
  exists d rest, copyback_loop fuel alloc fill k m [] 0 cp = Some (d, rest) /\
    chain_bytes d ++ rest = cp /\ chain_ok d /\ d <> [] /\ ((forall i, alloc i = true) -> rest = []).
Proof.
  revert k m cp. induction fuel as [|fuel IH]; intros k m cp Hm Hlen Hfuel.
  all: destruct cp as [|b cp]; [exists [m], []; simpl;
    split; [done|]; split; [|by split; [constructor|]];
    unfold m_len in Hlen; simpl in Hlen; unfold chain_bytes; simpl; by destruct (m_bytes m)|].
  all: set (l := b :: cp) in *; unfold l at 1; simpl copyback_loop; fold l.
  all: rewrite Z.sub_0_r, Z.min_l by done.
  all: assert (Ls : Z.of_nat (length (slice 0 (m_len m) l)) = m_len m)
         by (apply slice_length; unfold m_len in *; lia).
  all: rewrite m_put_ok; [|pose proof (m_len_nonneg m); lia | destruct Hm; lia].
  all: simpl take; rewrite (drop_ge (m_bytes m)) by (unfold m_len in *; lia); rewrite app_nil_r; simpl app; cbn [mbind option_bind].
  all: set (m' := m <| m_bytes := slice 0 (m_len m) l |>).
  all: assert (Hm' : mbuf_ok m')
         by (destruct Hm as [H1 H2 H3]; split; [done | unfold m_len at 1, m_end; simpl; unfold m_end in H2; lia | done]).
  all: assert (Hb : m_bytes m' ++ drop (Z.to_nat (m_len m)) l = l) by apply take_drop.
  - rewrite drop_ge in * by (unfold m_len in *; lia). exists [m'], []. split; [done|].
    rewrite chain_bytes_cons. change (chain_bytes []) with (@nil Z). rewrite !app_nil_r in *.
    split; [done|]. split; [by constructor|]. by split.
  - destruct (drop (Z.to_nat (m_len m)) l) as [|x r] eqn:Ed.
    + exists [m'], []. split; [done|]. rewrite chain_bytes_cons. change (chain_bytes []) with (@nil Z).
      rewrite !app_nil_r in *. split; [done|]. split; [by constructor|]. by split.
    + destruct (m_get (alloc k)) as [n|] eqn:En.
      2: { exists [m'], (x :: r). split; [done|]. rewrite chain_bytes_cons. change (chain_bytes []) with (@nil Z).
           rewrite app_nil_r. split; [done|]. split; [by constructor|]. split; [done|].
           intros Ha. unfold m_get in En. by rewrite Ha in En. }
      unfold m_get in En. destruct (alloc k); [|done]. injection En as <-.
      set (n := (Mbuf [] 0 None None) <| m_bytes := replicate (Z.to_nat (Z.min MLEN (Z.of_nat (length (x :: r))))) fill |>).
      assert (Ln : m_len n = Z.min MLEN (Z.of_nat (length (x :: r)))).
      { unfold m_len, n. cbn [m_bytes set_field set_m_bytes]. rewrite length_replicate. unfold MLEN. lia. }
      assert (Lr : length (x :: r) = (length l - Z.to_nat (m_len m))%nat).
      { rewrite <- Ed. apply length_drop. }
      destruct (IH (S k) n (x :: r)) as (d & rest & E & Hd & Hok & Hne & Hrest).
      { split; [done | unfold m_end; simpl; rewrite Ln; simpl; lia|]. intros _ [? ?]. done. }
      { lia. }
      { rewrite Lr. assert (1 <= length (m_bytes n))%nat.
        { apply Nat2Z.inj_le. change (Z.of_nat (length (m_bytes n))) with (m_len n). rewrite Ln. unfold MLEN.
          simpl length. lia. }
        unfold m_len. lia. }
      rewrite E. exists (m' :: d), rest. split; [done|]. rewrite chain_bytes_cons, <- app_assoc, Hd.
      split; [done|]. split; [by constructor|]. by split.
Qed.

(** What [usrsctp_conninput] hands on: the packet, in a chain whose first mbuf holds the
    common header and the header of the first chunk.  Without memory for all of it the
    chain holds a part of the packet, or the packet is dropped. *)
Lemma conninput_chain_spec alloc fill threshold buffer :
  Z.of_nat (length buffer) < 2147483648 ->
  exists r, conninput_chain alloc fill threshold buffer = Some r /\
    (forall c, r = Some c -> chain_ok c /\ (exists rest, chain_bytes c ++ rest = buffer) /\
       exists m d, c = m :: d /\ 16 <= m_len m) /\
    ((forall i, alloc i = true) ->
       match r with
       | Some c => 16 <= Z.of_nat (length buffer) /\ chain_bytes c = buffer
       | None => Z.of_nat (length buffer) < 16
       end).
Proof.
  intros Hlen. unfold conninput_chain, sctp_get_mbuf_for_msg.
  destruct (alloc 0%nat) eqn:Ea; cbn [m_gethdr].
  2: { eexists. split; [reflexivity|]. split; [done|]. intros Ha. by rewrite Ha in Ea. }
  set (m := if _ <? _ then _ else _).
  assert (Hm : mbuf_ok m /\ m_bytes m = []).
  { unfold m. destruct (_ <? _); (split; [|done]); split; simpl; done. }
  clearbody m. destruct Hm as [Hm Bm].
  assert (Lm : m_len m = 0) by (unfold m_len; by rewrite Bm).
  assert (Hcb : exists d rest, m_copyback (fun k => alloc (S k)) fill [m] 0 buffer = Some d /\
    chain_bytes d ++ rest = buffer /\ chain_ok d /\ d <> [] /\ ((forall i, alloc i = true) -> rest = [])).
  { unfold m_copyback. cbn [copyback_seek]. rewrite Lm, Z.ltb_irrefl. cbn [mbind option_bind andb].
    destruct (Z.ltb_spec 0 (Z.of_nat (length buffer))) as [Hpos|Hz].
    - destruct (copyback_loop_spec (S (length [m] + Z.to_nat (0 + Z.of_nat (length buffer))))
                  (fun k => alloc (S k)) fill 0 m buffer)
        as (d & rest & -> & H1 & H2 & H3 & H4); [done | lia | lia |].
      cbn [mbind option_bind fst snd app]. eexists _, rest. split; [reflexivity|].
      rewrite adjust_pkthdr_bytes. split; [done|]. split; [by apply adjust_pkthdr_ok|].
      split; [by destruct d|]. intros Ha. apply H4. intros i. apply Ha.
    - assert (buffer = []) as -> by (destruct buffer; [done | simpl in Hz; lia]).
      eexists _, []. split; [reflexivity|]. cbn [app]. rewrite adjust_pkthdr_bytes. unfold chain_bytes. simpl.
      rewrite Bm. split; [done|]. split; [apply (adjust_pkthdr_ok _ [m]); by constructor | by split]. }
  destruct Hcb as (d & rest & -> & Hb & Hok & Hne & Hrest). cbn [mbind option_bind].
  destruct d as [|x d]; [done|].
  destruct (Z.ltb_spec (m_len x) 16) as [Hx|Hx].
  - destruct (m_pullup_spec (alloc (S (S (length (x :: d))))) (x :: d) 16 Hok ltac:(done))
      as (r & -> & H1 & H2 & H3).
    exists r. split; [done|]. split.
    + intros c Hc. destruct (H1 c Hc) as (E1 & E2 & E3). split; [done|]. split; [|done].
      exists rest. by rewrite E1.
    + intros Ha. rewrite (Hrest Ha), app_nil_r in Hb. unfold chain_len in H2, H3. rewrite Hb in H2, H3.
      destruct r as [c|].
      * destruct (H1 c eq_refl) as (E1 & E2 & m' & d' & -> & Hge). rewrite E1. split; [|done].
        rewrite <- Hb, <- E1. rewrite chain_bytes_cons, length_app. unfold m_len in Hge. lia.
      * destruct (Z.lt_ge_cases (Z.of_nat (length buffer)) 16); [done|]. exfalso.
        destruct H2 as [? ?]; [done | unfold MHLEN; lia | apply Ha | done].
  - eexists. split; [reflexivity|]. split.
    + intros c [= <-]. split; [done|]. split; [by exists rest|]. by exists x, d.
    + intros Ha. rewrite (Hrest Ha), app_nil_r in Hb. split; [|done].
      rewrite <- Hb, chain_bytes_cons, length_app. unfold m_len in Hx. lia.
Qed.

End Conninput.

(** ** The operations as a whole *)

Section Joining.

(** Small mbufs are copied into the last one of the first chain. *)
Lemma cat_loop_spec n : forall m, mbuf_ok m -> chain_ok n ->
  exists t, cat_loop m n = Some t /\ chain_bytes t = m_bytes m ++ chain_bytes n /\ chain_ok t.
Proof.
  induction n as [|x n IH]; intros m Hm Hn; simpl.
  { exists [m]. split; [done|]. split; [done | by constructor]. }
  pose proof Hn as [Hx Hn']%Forall_cons.
  destruct (_ || _) eqn:E; [exists (m :: x :: n); split; [done|]; split; [done | by constructor]|].
  apply orb_false_iff in E as [Ee Hl%Z.leb_gt]. destruct (m_ext m) eqn:Ex; [done|].
  assert (Hend : m_end m = MLEN) by (unfold m_end; by rewrite Ex).
  rewrite m_put_end by (rewrite Hend; unfold m_len in *; lia). cbn [mbind option_bind].
  destruct (IH (m <| m_bytes := m_bytes m ++ m_bytes x |>)) as (t & -> & Ht & Hok); [|done|].
  - destruct Hm as [H1 H2 H3]. split; [done | | done]. change (m_end (m <| m_bytes := _ |>)) with (m_end m).
    rewrite Hend. unfold m_len in *. cbn [m_bytes m_data set_field set_m_bytes]. rewrite length_app. lia.
  - exists t. split; [done|]. split; [|done]. rewrite Ht, chain_bytes_cons, app_assoc. done.
Qed.

Lemma m_cat_spec c n : chain_ok c -> chain_ok n -> c <> [] ->
  exists t, m_cat c n = Some t /\ chain_bytes t = chain_bytes c ++ chain_bytes n /\ chain_ok t.
Proof.
  intros Hc Hn Hne. unfold m_cat. destruct (last c) as [m|] eqn:El; [|by apply last_None in El].
  apply last_split in El. rewrite El in Hc |- *. apply Forall_app in Hc as [Hr [Hm _]%Forall_cons].
  destruct (cat_loop_spec n m Hm Hn) as (t & -> & Ht & Hok). cbn [mbind option_bind]. eexists. split; [reflexivity|].
  rewrite removelast_last, !chain_bytes_app, chain_bytes_cons, Ht, app_nil_r, <- app_assoc. split; [done|].
  by apply Forall_app.
Qed.

End Joining.

(** C38. The operations on packets are typed: on a chain whose bytes lie in their data areas
    each of them returns, writes inside data areas only, gives such chains again, and does
    to the bytes of the chain what its name says, wherever the mbufs cut them: copying out
    and copying a part ([m_copydata], [m_copym]) gives the slice, trimming ([m_adj]) drops
    bytes at one end, [m_pullup] changes no byte and brings [len] of them into the first
    mbuf, [m_cat] appends and [m_split] cuts in two. *)
Theorem chain_operations c : chain_ok c -> c <> [] -> chain_len c < M_COPYALL ->
  (forall off len, 0 <= off -> 0 <= len -> off + len <= chain_len c ->
     m_copydata c off len = Some (slice off len (chain_bytes c)) /\
     forall alloc, exists r, m_copym alloc c off len = Some r /\ ((forall i, alloc i = true) -> is_Some r) /\
       forall d, r = Some d -> chain_ok d /\ chain_bytes d = slice off len (chain_bytes c)) /\
  (forall n, 0 <= n -> chain_ok (m_adj c n) /\ chain_bytes (m_adj c n) = drop (Z.to_nat n) (chain_bytes c)) /\
  (forall n, n < 0 -> chain_ok (m_adj c n) /\ chain_bytes (m_adj c n) = take (Z.to_nat (chain_len c + n)) (chain_bytes c)) /\
  (forall len, len <= chain_len c -> len <= MHLEN -> exists m d, m_pullup true c len = Some (Some (m :: d)) /\
     chain_ok (m :: d) /\ chain_bytes (m :: d) = chain_bytes c /\ len <= m_len m) /\
  (forall n, chain_ok n -> exists d, m_cat c n = Some d /\ chain_ok d /\ chain_bytes d = chain_bytes c ++ chain_bytes n) /\
  (forall alloc len, 0 <= len < chain_len c -> (forall i, alloc i = true) -> exists a b,
     m_split alloc c len = Some (a, Some b) /\ chain_ok a /\ chain_ok b /\
     chain_bytes a = take (Z.to_nat len) (chain_bytes c) /\ chain_bytes b = drop (Z.to_nat len) (chain_bytes c)).
Proof.
  intros Hc Hne Hs. split; [|split; [|split; [|split; [|split]]]].
  - intros off len Ho Hl He. split; [by apply m_copydata_slice|]. intros alloc.
    destruct (m_copym_slice alloc c off len) as (r & E & Hr & Hd); [done..| lia | lia | lia |].
    rewrite (proj2 (Z.eqb_neq len M_COPYALL)) in Hd by lia. by exists r.
  - intros n Hn. destruct (m_adj_bytes c n Hc) as [H1 H2]. by rewrite (proj2 (Z.leb_le 0 n)) in H2.
  - intros n Hn. destruct (m_adj_bytes c n Hc) as [H1 H2]. by rewrite (proj2 (Z.leb_gt 0 n)) in H2.
  - intros len Hl Hm. destruct (m_pullup_spec true c len Hc Hne) as (r & E & H1 & H2 & _).
    destruct H2 as [d ->]; [done..|]. destruct (H1 d eq_refl) as (Hb & Hok & m & d' & -> & Hlen). by exists m, d'.
  - intros n Hn. destruct (m_cat_spec c n Hc Hn Hne) as (t & E & Ht & Hok). by exists t.
  - intros alloc len Hl Ha. destruct (m_split_spec alloc c len Hc) as (r & E & H); [lia|]. unfold halves in H.
    destruct r as [a [b|]]; cbn [fst snd] in H; [|destruct H as [_ H]; specialize (H Ha); lia].
    destruct H as (Hb & Hlen & Ha1 & Hb1). exists a, b. split; [done|]. split; [done|]. split; [done|].
    rewrite <- Hb. unfold chain_len in Hlen. rewrite <- Hlen, Nat2Z.id.
    split; [by rewrite take_app_length | by rewrite drop_app_length].
Qed.

(** C39. What [usrsctp_conninput] hands to the stack is the packet it was given: in a chain
    whose first mbuf holds the common header and the header of the first chunk, or nothing
    when the packet is shorter than these; without memory for all of it a first part of the
    packet, or nothing. *)
Theorem packet_reaches_stack alloc fill threshold buffer :
  Z.of_nat (length buffer) < 2147483648 ->
  exists r, conninput_chain alloc fill threshold buffer = Some r /\
    (forall c, r = Some c -> chain_ok c /\ (exists rest, chain_bytes c ++ rest = buffer) /\
       exists m d, c = m :: d /\ 16 <= m_len m) /\
    ((forall i, alloc i = true) -> r = None <-> Z.of_nat (length buffer) < 16) /\
    ((forall i, alloc i = true) -> forall c, r = Some c -> chain_bytes c = buffer).
Proof.
  intros Hl. destruct (conninput_chain_spec alloc fill threshold buffer Hl) as (r & E & H1 & H2).
  exists r. split; [done|]. split; [done|]. split; intros Ha; specialize (H2 Ha); destruct r as [c|].
  - split; [done | lia].
  - split; [intros _; exact H2 | done].
  - intros c' [= <-]. apply H2.
  - done.
Qed.

(** A chain of two mbufs, one of them a cluster. *)
Definition ex_chain : list mbuf := [Mbuf [1; 2; 3] 100 None (Some 5); Mbuf [4; 5] 0 (Some 2048) None].

Lemma ex_chain_ok : chain_ok ex_chain.
Proof. repeat constructor; unfold m_end, m_len; cbn; try lia; intros; unfold pktdat; lia || done. Qed.

Lemma chain_operations_witness :
  m_copydata ex_chain 2 2 = Some [3; 4] /\
  (forall n, chain_ok n -> exists d, m_cat ex_chain n = Some d /\ chain_ok d /\
     chain_bytes d = chain_bytes ex_chain ++ chain_bytes n) /\
  chain_bytes (m_adj ex_chain (-1)) = [1; 2; 3; 4].
Proof.
  destruct (chain_operations ex_chain ex_chain_ok) as (H1 & H2 & H3 & H4 & H5 & H6); [done | by vm_compute |].
  split; [|split].
  - destruct (H1 2 2) as [H _]; [lia | lia | by vm_compute | exact H].
  - exact H5.
  - destruct (H3 (-1)) as [_ H]; [lia | exact H].
Defined.

Lemma packet_reaches_stack_witness :
  exists r, conninput_chain (fun _ => true) 0 4 (repeat 7 300) = Some r /\
    (forall c, r = Some c -> chain_ok c /\ (exists rest, chain_bytes c ++ rest = repeat 7 300) /\
       exists m d, c = m :: d /\ 16 <= m_len m) /\
    ((forall i : nat, (fun _ : nat => true) i = true) -> r = None <-> Z.of_nat (length (repeat 7 300)) < 16) /\
    ((forall i : nat, (fun _ : nat => true) i = true) -> forall c, r = Some c -> chain_bytes c = repeat 7 300).
Proof. apply packet_reaches_stack. by vm_compute. Defined.
