(* ===== verification/Chunk.v ===== *)
(** * Constants of DATA chunks

    Time stamps, the partial reliability policies of a message, the flags of a fragment and
    the state of a chunk that waits on the send queue, for the files on the sender's state,
    on sending and on receiving. *)

From S2P Require Import Prelude.

Open Scope sctp_scope.

Record timeval := Timeval { tv_sec : Z; tv_usec : Z }.

(** The value of [sent] of a chunk on the send queue. *)
Definition SCTP_DATAGRAM_UNSENT : Z := 0.

(** ** Partial reliability policies *)

Definition SCTP_PR_SCTP_NONE : Z := 0.
Definition SCTP_PR_SCTP_TTL : Z := 1.
Definition SCTP_PR_SCTP_BUF : Z := 2.
Definition SCTP_PR_SCTP_RTX : Z := 3.
Definition SCTP_PR_SCTP_ALL : Z := 15.

Definition PR_SCTP_POLICY (x : Z) : Z := Z.land x 15.
Definition PR_SCTP_ENABLED (x : Z) : bool :=
  negb (PR_SCTP_POLICY x =? SCTP_PR_SCTP_NONE) && negb (PR_SCTP_POLICY x =? SCTP_PR_SCTP_ALL).

(** ** Fragments *)

Definition SCTP_DATA_LAST_FRAG : Z := 0x01.
Definition SCTP_DATA_FIRST_FRAG : Z := 0x02.
Definition SCTP_DATA_NOT_FRAG : Z := 0x03.
Definition SCTP_DATA_UNORDERED : Z := 0x04.
