(* ===== verification/Serial.v ===== *)
(** * Serial numbers: the modular comparisons of sctp_constants.h

    Transmission sequence numbers, stream sequence numbers and message identifiers
    wrap around, so the stack compares them modulo 2^32 or 2^16 (RFC 1982).  This
    file holds the macros, and the lemmas that read a wrapped number as one of an
    unbounded sequence: as long as two numbers of the sequence are less than half
    the period apart, the macros order their remainders as the numbers are ordered. *)

From S2P Require Import Prelude.

Open Scope sctp_scope.

Definition SCTP_UINT16_GT (a b : Z) : bool :=
  ((a <? b) && (32768 <? u16 (b - a))) || ((b <? a) && (u16 (a - b) <? 32768)).
Definition SCTP_UINT16_GE (a b : Z) : bool := SCTP_UINT16_GT a b || (a =? b).

Definition SCTP_UINT32_GT (a b : Z) : bool :=
  ((a <? b) && (2147483648 <? u32 (b - a))) || ((b <? a) && (u32 (a - b) <? 2147483648)).
Definition SCTP_UINT32_GE (a b : Z) : bool := SCTP_UINT32_GT a b || (a =? b).

Definition SCTP_TSN_GT (a b : Z) : bool := SCTP_UINT32_GT a b.
Definition SCTP_TSN_GE (a b : Z) : bool := SCTP_UINT32_GE a b.

(** Message identifiers have 32 bits with I-DATA and 16 without. *)
Definition SCTP_MID_GT (i a b : Z) : bool :=
  if i =? 1 then SCTP_UINT32_GT a b else SCTP_UINT16_GT (u16 a) (u16 b).
Definition SCTP_MID_GE (i a b : Z) : bool :=
  if i =? 1 then SCTP_UINT32_GE a b else SCTP_UINT16_GE (u16 a) (u16 b).
Definition SCTP_MID_EQ (i a b : Z) : bool :=
  if i =? 1 then a =? b else u16 a =? u16 b.

Definition MAX_TSN : Z := 4294967295.

(** How far [tsn] is above the TSN of the first bit of the mapping arrays. *)
Definition SCTP_CALC_TSN_TO_GAP (tsn mapping_tsn : Z) : Z :=
  if mapping_tsn <=? tsn then u32 (tsn - mapping_tsn)
  else u32 (u32 (MAX_TSN - mapping_tsn) + tsn + 1).

(** Half the period of a TSN. *)
Abbreviation half32 := 2147483648 (only parsing).

Section Unbounded.

Lemma u32_add_l a b : u32 (u32 a + b) = u32 (a + b).
Proof. apply Zplus_mod_idemp_l. Qed.

Lemma u32_add_r a b : u32 (a + u32 b) = u32 (a + b).
Proof. apply Zplus_mod_idemp_r. Qed.

Lemma u32_sub_l a b : u32 (u32 a - b) = u32 (a - b).
Proof. apply Zminus_mod_idemp_l. Qed.

Lemma u32_sub_r a b : u32 (a - u32 b) = u32 (a - b).
Proof. apply Zminus_mod_idemp_r. Qed.

(** Equal remainders of numbers less than a period apart. *)
Lemma u32_inj a b : - 4294967296 < a - b < 4294967296 -> u32 a = u32 b -> a = b.
Proof. intros H E. width_lia. Qed.

Lemma u32_eqb a b : - 4294967296 < a - b < 4294967296 -> (u32 a =? u32 b) = (a =? b).
Proof.
  intros H. destruct (Z.eqb_spec a b) as [-> | Hne]; [apply Z.eqb_refl|].
  apply Z.eqb_neq. intros E. by apply Hne, u32_inj.
Qed.

Lemma tsn_gt_spec a b :
  - half32 < a - b < half32 -> SCTP_TSN_GT (u32 a) (u32 b) = (b <? a).
Proof.
  intros H. unfold SCTP_TSN_GT, SCTP_UINT32_GT.
  rewrite !u32_sub_l, !u32_sub_r. zbool; width_lia.
Qed.

Lemma tsn_ge_spec a b :
  - half32 < a - b < half32 -> SCTP_TSN_GE (u32 a) (u32 b) = (b <=? a).
Proof.
  intros H. unfold SCTP_TSN_GE, SCTP_UINT32_GE. fold (SCTP_TSN_GT (u32 a) (u32 b)).
  rewrite tsn_gt_spec, u32_eqb by lia. zbool; simpl; lia.
Qed.

(** Nothing is at or above a number half a period ahead. *)
Lemma tsn_ge_window a b :
  - half32 <= a - b < half32 -> SCTP_TSN_GE (u32 a) (u32 b) = (b <=? a).
Proof.
  intros H. destruct (Z.eq_dec b (a + half32)) as [-> |]; [|apply tsn_ge_spec; lia].
  replace (a + half32 <=? a) with false by (symmetry; apply Z.leb_gt; lia).
  unfold SCTP_TSN_GE, SCTP_UINT32_GE, SCTP_UINT32_GT. rewrite !u32_sub_l, !u32_sub_r.
  rewrite u32_eqb by lia. zbool; width_lia.
Qed.

Lemma calc_gap_spec a b :
  0 <= a - b < 4294967296 -> SCTP_CALC_TSN_TO_GAP (u32 a) (u32 b) = a - b.
Proof.
  intros H. unfold SCTP_CALC_TSN_TO_GAP, MAX_TSN. zbool; width_lia.
Qed.

End Unbounded.

Create Rewrite HintDb tsn.
#[export] Hint Rewrite u32_add_l u32_add_r u32_sub_l u32_sub_r : tsn.
