(* ===== verification/TsnMap.v ===== *)
(** * Which TSNs have arrived: the mapping arrays of [sctp_indata.c]

    The receiver remembers the TSNs above its cumulative acknowledgement in two bit
    arrays that start at the same TSN, [mapping_array_base_tsn]: [mapping_array] for
    chunks it may still drop ("renege" on), [nr_mapping_array] for those it may not.
    This file models the arrays and every operation on them: the macros of
    sctp_constants.h, [sctp_mark_non_revokable] and [sctp_slide_mapping_arrays]
    (sctp_indata.c), the parts of [sctp_process_a_data_chunk] and
    [sctp_handle_forward_tsn] that look a TSN up and record it, the allocation and
    growth of the arrays (sctputil.c), their initialisation (sctp_input.c) and the
    search for the new highest TSN after reneging (sctp_pcb.c).

    An access outside an array is [None]. *)

From S2P Require Import Prelude Serial.

Open Scope sctp_scope.

Definition SCTP_MAPPING_ARRAY : Z := 512.
Definition SCTP_INITIAL_MAPPING_ARRAY : Z := 16.
Definition SCTP_MAPPING_ARRAY_INCR : Z := 32.
Definition SCTP_MAX_DUP_TSNS : Z := 20.

(** ** State

    The fields of [struct sctp_association] that the arrays consist of. *)

Record tsn_map := TsnMap {
  mapping_array : list Z;
  nr_mapping_array : list Z;
  mapping_array_size : Z;
  mapping_array_base_tsn : Z;
  cumulative_tsn : Z;
  highest_tsn_inside_map : Z;
  highest_tsn_inside_nr_map : Z;
  dup_tsns : list Z;
  numduptsns : Z;
  send_sack : Z
}.

Definition tsn_map_eta (r : tsn_map) : tsn_map :=
  TsnMap (mapping_array r) (nr_mapping_array r) (mapping_array_size r)
    (mapping_array_base_tsn r) (cumulative_tsn r) (highest_tsn_inside_map r)
    (highest_tsn_inside_nr_map r) (dup_tsns r) (numduptsns r) (send_sack r).

#[export] Instance set_mapping_array : FieldUpdate mapping_array :=
  ltac:(field_update tsn_map_eta mapping_array).
#[export] Instance set_nr_mapping_array : FieldUpdate nr_mapping_array :=
  ltac:(field_update tsn_map_eta nr_mapping_array).
#[export] Instance set_mapping_array_size : FieldUpdate mapping_array_size :=
  ltac:(field_update tsn_map_eta mapping_array_size).
#[export] Instance set_mapping_array_base_tsn : FieldUpdate mapping_array_base_tsn :=
  ltac:(field_update tsn_map_eta mapping_array_base_tsn).
#[export] Instance set_cumulative_tsn : FieldUpdate cumulative_tsn :=
  ltac:(field_update tsn_map_eta cumulative_tsn).
#[export] Instance set_highest_tsn_inside_map : FieldUpdate highest_tsn_inside_map :=
  ltac:(field_update tsn_map_eta highest_tsn_inside_map).
#[export] Instance set_highest_tsn_inside_nr_map : FieldUpdate highest_tsn_inside_nr_map :=
  ltac:(field_update tsn_map_eta highest_tsn_inside_nr_map).
#[export] Instance set_dup_tsns : FieldUpdate dup_tsns :=
  ltac:(field_update tsn_map_eta dup_tsns).
#[export] Instance set_numduptsns : FieldUpdate numduptsns :=
  ltac:(field_update tsn_map_eta numduptsns).
#[export] Instance set_send_sack : FieldUpdate send_sack :=
  ltac:(field_update tsn_map_eta send_sack).

(** ** Memory *)

(** [arr[i]] *)
Definition get_at {A} (arr : list A) (i : Z) : option A :=
  if i <? 0 then None else arr !! Z.to_nat i.

(** [arr[i] = v] *)
Definition set_at {A} (arr : list A) (i : Z) (v : A) : option (list A) :=
  if (i <? 0) || (Z.of_nat (length arr) <=? i) then None
  else Some (<[Z.to_nat i := v]> arr).

(** [memset(arr, 0, n)] *)
Definition memset0 (arr : list Z) (n : Z) : option (list Z) :=
  if Z.of_nat (length arr) <? n then None
  else Some (replicate (Z.to_nat n) 0 ++ drop (Z.to_nat n) arr).

(** ** The bit macros *)

Definition SCTP_IS_TSN_PRESENT (arry : list Z) (gap : Z) : option bool :=
  b ← get_at arry (Z.shiftr gap 3);
  Some (negb (Z.land (Z.shiftr b (Z.land gap 7)) 1 =? 0)).

Definition SCTP_SET_TSN_PRESENT (arry : list Z) (gap : Z) : option (list Z) :=
  b ← get_at arry (Z.shiftr gap 3);
  set_at arry (Z.shiftr gap 3) (u8 (Z.lor b (Z.shiftl 1 (Z.land gap 7)))).

Definition SCTP_UNSET_TSN_PRESENT (arry : list Z) (gap : Z) : option (list Z) :=
  b ← get_at arry (Z.shiftr gap 3);
  set_at arry (Z.shiftr gap 3)
    (Z.land b (Z.land (Z.lnot (Z.shiftl 1 (Z.land gap 7))) 255)).

(** ** Allocation and initialisation *)

(** The part of [sctp_init_asoc] on the arrays; the outcomes of the two allocations
    are arguments, [None] is [ENOMEM]. *)
Definition sctp_init_asoc_map (ok1 ok2 : bool) (a : tsn_map) : option tsn_map :=
  let size := SCTP_INITIAL_MAPPING_ARRAY in
  if negb ok1 then None
  else if negb ok2 then None
  else Some (a <| mapping_array_size := size |>
               <| mapping_array := replicate (Z.to_nat size) 0 |>
               <| nr_mapping_array := replicate (Z.to_nat size) 0 |>).

(** The part of [sctp_process_init] on the arrays. *)
Definition sctp_process_init_map (initial_tsn : Z) (a : tsn_map) : tsn_map :=
  let asconf_seq_in := u32 (initial_tsn - 1) in
  a <| highest_tsn_inside_map := asconf_seq_in |>
    <| highest_tsn_inside_nr_map := asconf_seq_in |>
    <| mapping_array_base_tsn := initial_tsn |>
    <| cumulative_tsn := asconf_seq_in |>.

(** [memcpy] of the old array to the start of a zeroed one of [new_size] bytes. *)
Definition grow (old : list Z) (size new_size : Z) : option (list Z) :=
  if (Z.of_nat (length old) <? size) || (new_size <? size) then None
  else Some (take (Z.to_nat size) old ++ replicate (Z.to_nat (new_size - size)) 0).

(** The result code and the state; the size has 16 bits. *)
Definition sctp_expand_mapping_array (ok1 ok2 : bool) (a : tsn_map) (needed : Z)
  : option (Z * tsn_map) :=
  let new_size := u32 (mapping_array_size a + (u32 (needed + 7) / 8 + SCTP_MAPPING_ARRAY_INCR)) in
  if negb ok1 || negb ok2 then Some (-1, a)
  else
    m ← grow (mapping_array a) (mapping_array_size a) new_size;
    nr ← grow (nr_mapping_array a) (mapping_array_size a) new_size;
    Some (0, a <| mapping_array := m |> <| nr_mapping_array := nr |>
               <| mapping_array_size := u16 new_size |>).

(** ** Looking a TSN up and recording it *)

(** "Record a dup for the next outbound sack". *)
Definition record_dup (a : tsn_map) (tsn : Z) : option tsn_map :=
  a' ← (if numduptsns a <? SCTP_MAX_DUP_TSNS then
          d ← set_at (dup_tsns a) (numduptsns a) (i32 tsn);
          Some (a <| dup_tsns := d |> <| numduptsns := u32 (numduptsns a + 1) |>)
        else Some a);
  Some (a' <| send_sack := 1 |>).

Inductive tsn_verdict := Duplicate | TooFar | NoMemory | Fresh (gap : Z).

(** [sctp_process_a_data_chunk], from the comparison with the cumulative TSN to the
    end of the test for duplicates.  [high_tsn] is the caller's variable. *)
Definition data_chunk_lookup (ok1 ok2 : bool) (a : tsn_map) (tsn high_tsn : Z)
  : option (tsn_verdict * Z * tsn_map) :=
  if SCTP_TSN_GE (cumulative_tsn a) tsn then
    a' ← record_dup a tsn; Some (Duplicate, high_tsn, a')
  else
    let gap := SCTP_CALC_TSN_TO_GAP tsn (mapping_array_base_tsn a) in
    if Z.shiftl SCTP_MAPPING_ARRAY 3 <=? gap then Some (TooFar, high_tsn, a)
    else
      r ← (if Z.shiftl (mapping_array_size a) 3 <=? gap
           then sctp_expand_mapping_array ok1 ok2 a gap else Some (0, a));
      if negb (r.1 =? 0) then Some (NoMemory, high_tsn, r.2)
      else
        let a := r.2 in
        let high := if SCTP_TSN_GT tsn high_tsn then tsn else high_tsn in
        in_r ← SCTP_IS_TSN_PRESENT (mapping_array a) gap;
        in_nr ← SCTP_IS_TSN_PRESENT (nr_mapping_array a) gap;
        if in_r || in_nr then
          a' ← record_dup a tsn; Some (Duplicate, high, a')
        else Some (Fresh gap, high, a).

(** Set the bit of [tsn] in the non-renegable array and raise its highest TSN
    (invalid stream, express delivery, and [sctp_do_drain] switched off). *)
Definition mark_nr (a : tsn_map) (gap tsn : Z) : option tsn_map :=
  nr ← SCTP_SET_TSN_PRESENT (nr_mapping_array a) gap;
  let a := a <| nr_mapping_array := nr |> in
  Some (if SCTP_TSN_GT tsn (highest_tsn_inside_nr_map a)
        then a <| highest_tsn_inside_nr_map := tsn |> else a).

(** Set the bit of [tsn] in the renegable array and raise its highest TSN. *)
Definition mark_r (a : tsn_map) (gap tsn : Z) : option tsn_map :=
  m ← SCTP_SET_TSN_PRESENT (mapping_array a) gap;
  let a := a <| mapping_array := m |> in
  Some (if SCTP_TSN_GT tsn (highest_tsn_inside_map a)
        then a <| highest_tsn_inside_map := tsn |> else a).

(** "Set the appropriate TSN mark". *)
Definition data_chunk_mark (sctp_do_drain : Z) (a : tsn_map) (gap tsn : Z) : option tsn_map :=
  if sctp_do_drain =? 0 then mark_nr a gap tsn else mark_r a gap tsn.

(** "Update cum-ack". *)
Definition data_chunk_cumack (a : tsn_map) (tsn : Z) : tsn_map :=
  if tsn =? u32 (cumulative_tsn a + 1) then a <| cumulative_tsn := tsn |> else a.

(** ** Moving a TSN from the renegable to the non-renegable array *)

(** The loop that looks for the highest TSN left in the renegable array, from [i]
    down to the base. *)
Fixpoint back_down (fuel : nat) (a : tsn_map) (i : Z) : option Z :=
  match fuel with
  | O => None
  | S fuel =>
      if SCTP_TSN_GE i (mapping_array_base_tsn a) then
        p ← SCTP_IS_TSN_PRESENT (mapping_array a)
              (SCTP_CALC_TSN_TO_GAP i (mapping_array_base_tsn a));
        if (p : bool) then Some i else back_down fuel a (u32 (i - 1))
      else Some (u32 (mapping_array_base_tsn a - 1))
  end.

Definition back_down_fuel (a : tsn_map) : nat := S (Z.to_nat (Z.shiftl (mapping_array_size a) 3)).

Definition sctp_mark_non_revokable (sctp_do_drain : Z) (a : tsn_map) (tsn : Z)
  : option tsn_map :=
  if sctp_do_drain =? 0 then Some a
  else
    let cumackp1 := u32 (cumulative_tsn a + 1) in
    if SCTP_TSN_GT cumackp1 tsn then Some a
    else
      let gap := SCTP_CALC_TSN_TO_GAP tsn (mapping_array_base_tsn a) in
      in_r ← SCTP_IS_TSN_PRESENT (mapping_array a) gap;
      in_nr ← SCTP_IS_TSN_PRESENT (nr_mapping_array a) gap;
      nr ← (if (in_nr : bool) then Some (nr_mapping_array a)
            else SCTP_SET_TSN_PRESENT (nr_mapping_array a) gap);
      m ← (if (in_r : bool) then SCTP_UNSET_TSN_PRESENT (mapping_array a) gap
           else Some (mapping_array a));
      let a := a <| nr_mapping_array := nr |> <| mapping_array := m |> in
      let a := if SCTP_TSN_GT tsn (highest_tsn_inside_nr_map a)
               then a <| highest_tsn_inside_nr_map := tsn |> else a in
      if tsn =? highest_tsn_inside_map a then
        h ← back_down (back_down_fuel a) a (u32 (tsn - 1));
        Some (a <| highest_tsn_inside_map := h |>)
      else Some a.

(** ** Sliding the arrays *)

Definition sctp_map_lookup_tab : list Z := [
  0; 1; 0; 2; 0; 1; 0; 3; 0; 1; 0; 2; 0; 1; 0; 4;
  0; 1; 0; 2; 0; 1; 0; 3; 0; 1; 0; 2; 0; 1; 0; 5;
  0; 1; 0; 2; 0; 1; 0; 3; 0; 1; 0; 2; 0; 1; 0; 4;
  0; 1; 0; 2; 0; 1; 0; 3; 0; 1; 0; 2; 0; 1; 0; 6;
  0; 1; 0; 2; 0; 1; 0; 3; 0; 1; 0; 2; 0; 1; 0; 4;
  0; 1; 0; 2; 0; 1; 0; 3; 0; 1; 0; 2; 0; 1; 0; 5;
  0; 1; 0; 2; 0; 1; 0; 3; 0; 1; 0; 2; 0; 1; 0; 4;
  0; 1; 0; 2; 0; 1; 0; 3; 0; 1; 0; 2; 0; 1; 0; 7;
  0; 1; 0; 2; 0; 1; 0; 3; 0; 1; 0; 2; 0; 1; 0; 4;
  0; 1; 0; 2; 0; 1; 0; 3; 0; 1; 0; 2; 0; 1; 0; 5;
  0; 1; 0; 2; 0; 1; 0; 3; 0; 1; 0; 2; 0; 1; 0; 4;
  0; 1; 0; 2; 0; 1; 0; 3; 0; 1; 0; 2; 0; 1; 0; 6;
  0; 1; 0; 2; 0; 1; 0; 3; 0; 1; 0; 2; 0; 1; 0; 4;
  0; 1; 0; 2; 0; 1; 0; 3; 0; 1; 0; 2; 0; 1; 0; 5;
  0; 1; 0; 2; 0; 1; 0; 3; 0; 1; 0; 2; 0; 1; 0; 4;
  0; 1; 0; 2; 0; 1; 0; 3; 0; 1; 0; 2; 0; 1; 0; 8
].

(** The loop over the bytes without a zero bit: [n] bytes are left, [slide_from] is
    the index of the next one, [at_] the number of bits seen. *)
Fixpoint slide_scan (n : nat) (a : tsn_map) (slide_from at_ : Z) : option (Z * Z) :=
  match n with
  | O => Some (slide_from, at_)
  | S n =>
      x ← get_at (nr_mapping_array a) slide_from;
      y ← get_at (mapping_array a) slide_from;
      let val := Z.lor x y in
      if val =? 255 then slide_scan n a (slide_from + 1) (at_ + 8)
      else t ← get_at sctp_map_lookup_tab val; Some (slide_from, at_ + t)
  end.

(** [arr[ii] = arr[slide_from + ii]] for [n] values of [ii], upwards. *)
Fixpoint copy_down (n : nat) (arr : list Z) (slide_from ii : Z) : option (list Z) :=
  match n with
  | O => Some arr
  | S n =>
      b ← get_at arr (slide_from + ii);
      arr ← set_at arr ii b;
      copy_down n arr slide_from (ii + 1)
  end.

(** [arr[ii] = 0] for [n] values of [ii], upwards. *)
Fixpoint zero_up (n : nat) (arr : list Z) (ii : Z) : option (list Z) :=
  match n with
  | O => Some arr
  | S n => arr ← set_at arr ii 0; zero_up n arr (ii + 1)
  end.

(** The two loops that move an array down by [slide_from] bytes. *)
Definition slide_array (arr : list Z) (slide_from distance size : Z) : option (list Z) :=
  arr ← copy_down (Z.to_nat distance) arr slide_from 0;
  zero_up (Z.to_nat (size - distance)) arr distance.

(** The higher of the two highest TSNs. *)
Definition highest_tsn (a : tsn_map) : Z :=
  if SCTP_TSN_GT (highest_tsn_inside_nr_map a) (highest_tsn_inside_map a)
  then highest_tsn_inside_nr_map a else highest_tsn_inside_map a.

(** "we can slide the mapping array down". *)
Definition slide_down (a : tsn_map) (slide_from : Z) : option tsn_map :=
  let size := mapping_array_size a in
  let lgap := i32 (SCTP_CALC_TSN_TO_GAP (highest_tsn a) (mapping_array_base_tsn a)) in
  let slide_end := Z.shiftr lgap 3 in
  if slide_end <? slide_from then Some a
  else
    let slide_end := if size <? slide_end then size else slide_end in
    let distance := slide_end - slide_from + 1 in
    if (size <? distance + slide_from) || (distance <? 0) then Some a
    else
      m ← slide_array (mapping_array a) slide_from distance size;
      nr ← slide_array (nr_mapping_array a) slide_from distance size;
      let base := mapping_array_base_tsn a in
      let moved (h : Z) := if u32 (h + 1) =? base then u32 (h + Z.shiftl slide_from 3) else h in
      Some (a <| mapping_array := m |> <| nr_mapping_array := nr |>
              <| highest_tsn_inside_map := moved (highest_tsn_inside_map a) |>
              <| highest_tsn_inside_nr_map := moved (highest_tsn_inside_nr_map a) |>
              <| mapping_array_base_tsn := u32 (base + Z.shiftl slide_from 3) |>).

(** "clear the array": everything up to the highest TSN has arrived. *)
Definition slide_clear (a : tsn_map) (at_ : Z) : option tsn_map :=
  let clr := Z.shiftr (at_ + 7) 3 in
  let clr := if mapping_array_size a <? clr then mapping_array_size a else clr in
  m ← memset0 (mapping_array a) clr;
  nr ← memset0 (nr_mapping_array a) clr;
  Some (a <| mapping_array := m |> <| nr_mapping_array := nr |>
          <| mapping_array_base_tsn := u32 (cumulative_tsn a + 1) |>
          <| highest_tsn_inside_map := cumulative_tsn a |>
          <| highest_tsn_inside_nr_map := cumulative_tsn a |>).

Definition sctp_slide_mapping_arrays (a : tsn_map) : option tsn_map :=
  r ← slide_scan (Z.to_nat (mapping_array_size a)) a 0 0;
  let '(slide_from, at_) := (r : Z * Z) in
  let a := a <| cumulative_tsn := u32 (mapping_array_base_tsn a + (at_ - 1)) |> in
  let a := if SCTP_TSN_GT (cumulative_tsn a) (highest_tsn_inside_map a)
              && SCTP_TSN_GT (cumulative_tsn a) (highest_tsn_inside_nr_map a)
           then a <| highest_tsn_inside_map := cumulative_tsn a |>
                  <| highest_tsn_inside_nr_map := cumulative_tsn a |>
           else a in
  if (cumulative_tsn a =? highest_tsn a) && (8 <=? at_) then slide_clear a at_
  else if 8 <=? at_ then slide_down a slide_from
  else Some a.

(** ** Forward TSN *)

(** The loop that marks the TSNs up to the new cumulative one as arrived: [n] are
    left, [i] is the next. *)
Fixpoint fwd_fill (n : nat) (a : tsn_map) (i : Z) : option tsn_map :=
  match n with
  | O => Some a
  | S n =>
      in_r ← SCTP_IS_TSN_PRESENT (mapping_array a) i;
      in_nr ← SCTP_IS_TSN_PRESENT (nr_mapping_array a) i;
      a ← (if in_r || in_nr then Some a
           else mark_nr a i (u32 (mapping_array_base_tsn a + i)));
      fwd_fill n a (i + 1)
  end.

Inductive fwd_result := FwdOld | FwdAbort (a : tsn_map) | FwdDone (a : tsn_map).

(** Part 1 of [sctp_handle_forward_tsn], "update local cumTSN and shift the bitmap
    array"; [sbspace] is the free space of the receive buffer. *)
Definition forward_tsn_map (sbspace : Z) (a : tsn_map) (new_cum_tsn : Z) : option fwd_result :=
  let m_size := Z.shiftl (mapping_array_size a) 3 in
  if SCTP_TSN_GE (cumulative_tsn a) new_cum_tsn then Some FwdOld
  else
    let gap := SCTP_CALC_TSN_TO_GAP new_cum_tsn (mapping_array_base_tsn a) in
    let a := a <| cumulative_tsn := new_cum_tsn |> in
    if m_size <=? gap then
      if sbspace <? gap then Some (FwdAbort a)
      else
        m ← memset0 (mapping_array a) (mapping_array_size a);
        nr ← memset0 (nr_mapping_array a) (mapping_array_size a);
        Some (FwdDone (a <| mapping_array := m |> <| nr_mapping_array := nr |>
                         <| mapping_array_base_tsn := u32 (new_cum_tsn + 1) |>
                         <| highest_tsn_inside_map := new_cum_tsn |>
                         <| highest_tsn_inside_nr_map := new_cum_tsn |>))
    else
      a ← fwd_fill (Z.to_nat (gap + 1)) a 0;
      Some (FwdDone a).

(** ** Reneging *)

(** The end of [sctp_drain_mbufs]: after chunks were dropped, "see what the new
    highest is". *)
Definition drain_highest (a : tsn_map) : option tsn_map :=
  h ← back_down (S (back_down_fuel a)) a (highest_tsn_inside_map a);
  Some (a <| highest_tsn_inside_map := h |>).

(** What [sctp_drain_mbufs] does to the arrays for one chunk it drops. *)
Definition drain_chunk (a : tsn_map) (tsn : Z) : option tsn_map :=
  m ← SCTP_UNSET_TSN_PRESENT (mapping_array a)
        (SCTP_CALC_TSN_TO_GAP tsn (mapping_array_base_tsn a));
  Some (a <| mapping_array := m |>).

(** What [sctp_drain_mbufs] does to the arrays: the queued messages, each with the
    TSN of its read-queue entry and those of its fragments, are dropped when the former
    is beyond the next TSN expected. *)
Definition drain_victims (cumulative_tsn_p1 : Z) (queued : list (Z * list Z)) : list Z :=
  flat_map (fun c => if SCTP_TSN_GT c.1 cumulative_tsn_p1 then c.1 :: c.2 else []) queued.

Fixpoint drain_chunks (a : tsn_map) (tsns : list Z) : option tsn_map :=
  match tsns with
  | [] => Some a
  | t :: rest => a ← drain_chunk a t; drain_chunks a rest
  end.

Definition sctp_drain_mbufs_map (a : tsn_map) (queued : list (Z * list Z)) : option tsn_map :=
  if cumulative_tsn a =? highest_tsn_inside_map a then Some a
  else
    let victims := drain_victims (u32 (cumulative_tsn a + 1)) queued in
    a ← drain_chunks a victims;
    match victims with [] => Some a | _ => drain_highest a end.
