(* ===== verification/SackTable.v ===== *)
(** * The table of gap blocks of a byte: [sack_array] of [sctp_output.c]

    For every value of a byte of a mapping array, the runs of ones in it, and whether
    the first run starts at bit 0 and the last one ends at bit 7. *)

From S2P Require Import Prelude.

(** [struct sack_track]; a gap block is a pair of its start and end. *)
Record sack_track := SackTrack {
  right_edge : Z;
  left_edge : Z;
  num_entries : Z;
  spare : Z;
  gaps : list (Z * Z)
}.

(** Entries 0x00 to 0x0f. *)
Definition sack_array_0 : list sack_track := [
  SackTrack 0 0 0 0 [(0, 0); (0, 0); (0, 0); (0, 0)];
  SackTrack 1 0 1 0 [(0, 0); (0, 0); (0, 0); (0, 0)];
  SackTrack 0 0 1 0 [(1, 1); (0, 0); (0, 0); (0, 0)];
  SackTrack 1 0 1 0 [(0, 1); (0, 0); (0, 0); (0, 0)];
  SackTrack 0 0 1 0 [(2, 2); (0, 0); (0, 0); (0, 0)];
  SackTrack 1 0 2 0 [(0, 0); (2, 2); (0, 0); (0, 0)];
  SackTrack 0 0 1 0 [(1, 2); (0, 0); (0, 0); (0, 0)];
  SackTrack 1 0 1 0 [(0, 2); (0, 0); (0, 0); (0, 0)];
  SackTrack 0 0 1 0 [(3, 3); (0, 0); (0, 0); (0, 0)];
  SackTrack 1 0 2 0 [(0, 0); (3, 3); (0, 0); (0, 0)];
  SackTrack 0 0 2 0 [(1, 1); (3, 3); (0, 0); (0, 0)];
  SackTrack 1 0 2 0 [(0, 1); (3, 3); (0, 0); (0, 0)];
  SackTrack 0 0 1 0 [(2, 3); (0, 0); (0, 0); (0, 0)];
  SackTrack 1 0 2 0 [(0, 0); (2, 3); (0, 0); (0, 0)];
  SackTrack 0 0 1 0 [(1, 3); (0, 0); (0, 0); (0, 0)];
  SackTrack 1 0 1 0 [(0, 3); (0, 0); (0, 0); (0, 0)]
].

(** Entries 0x10 to 0x1f. *)
Definition sack_array_1 : list sack_track := [
  SackTrack 0 0 1 0 [(4, 4); (0, 0); (0, 0); (0, 0)];
  SackTrack 1 0 2 0 [(0, 0); (4, 4); (0, 0); (0, 0)];
  SackTrack 0 0 2 0 [(1, 1); (4, 4); (0, 0); (0, 0)];
  SackTrack 1 0 2 0 [(0, 1); (4, 4); (0, 0); (0, 0)];
  SackTrack 0 0 2 0 [(2, 2); (4, 4); (0, 0); (0, 0)];
  SackTrack 1 0 3 0 [(0, 0); (2, 2); (4, 4); (0, 0)];
  SackTrack 0 0 2 0 [(1, 2); (4, 4); (0, 0); (0, 0)];
  SackTrack 1 0 2 0 [(0, 2); (4, 4); (0, 0); (0, 0)];
  SackTrack 0 0 1 0 [(3, 4); (0, 0); (0, 0); (0, 0)];
  SackTrack 1 0 2 0 [(0, 0); (3, 4); (0, 0); (0, 0)];
  SackTrack 0 0 2 0 [(1, 1); (3, 4); (0, 0); (0, 0)];
  SackTrack 1 0 2 0 [(0, 1); (3, 4); (0, 0); (0, 0)];
  SackTrack 0 0 1 0 [(2, 4); (0, 0); (0, 0); (0, 0)];
  SackTrack 1 0 2 0 [(0, 0); (2, 4); (0, 0); (0, 0)];
  SackTrack 0 0 1 0 [(1, 4); (0, 0); (0, 0); (0, 0)];
  SackTrack 1 0 1 0 [(0, 4); (0, 0); (0, 0); (0, 0)]
].

(** Entries 0x20 to 0x2f. *)
Definition sack_array_2 : list sack_track := [
  SackTrack 0 0 1 0 [(5, 5); (0, 0); (0, 0); (0, 0)];
  SackTrack 1 0 2 0 [(0, 0); (5, 5); (0, 0); (0, 0)];
  SackTrack 0 0 2 0 [(1, 1); (5, 5); (0, 0); (0, 0)];
  SackTrack 1 0 2 0 [(0, 1); (5, 5); (0, 0); (0, 0)];
  SackTrack 0 0 2 0 [(2, 2); (5, 5); (0, 0); (0, 0)];
  SackTrack 1 0 3 0 [(0, 0); (2, 2); (5, 5); (0, 0)];
  SackTrack 0 0 2 0 [(1, 2); (5, 5); (0, 0); (0, 0)];
  SackTrack 1 0 2 0 [(0, 2); (5, 5); (0, 0); (0, 0)];
  SackTrack 0 0 2 0 [(3, 3); (5, 5); (0, 0); (0, 0)];
  SackTrack 1 0 3 0 [(0, 0); (3, 3); (5, 5); (0, 0)];
  SackTrack 0 0 3 0 [(1, 1); (3, 3); (5, 5); (0, 0)];
  SackTrack 1 0 3 0 [(0, 1); (3, 3); (5, 5); (0, 0)];
  SackTrack 0 0 2 0 [(2, 3); (5, 5); (0, 0); (0, 0)];
  SackTrack 1 0 3 0 [(0, 0); (2, 3); (5, 5); (0, 0)];
  SackTrack 0 0 2 0 [(1, 3); (5, 5); (0, 0); (0, 0)];
  SackTrack 1 0 2 0 [(0, 3); (5, 5); (0, 0); (0, 0)]
].

(** Entries 0x30 to 0x3f. *)
Definition sack_array_3 : list sack_track := [
  SackTrack 0 0 1 0 [(4, 5); (0, 0); (0, 0); (0, 0)];
  SackTrack 1 0 2 0 [(0, 0); (4, 5); (0, 0); (0, 0)];
  SackTrack 0 0 2 0 [(1, 1); (4, 5); (0, 0); (0, 0)];
  SackTrack 1 0 2 0 [(0, 1); (4, 5); (0, 0); (0, 0)];
  SackTrack 0 0 2 0 [(2, 2); (4, 5); (0, 0); (0, 0)];
  SackTrack 1 0 3 0 [(0, 0); (2, 2); (4, 5); (0, 0)];
  SackTrack 0 0 2 0 [(1, 2); (4, 5); (0, 0); (0, 0)];
  SackTrack 1 0 2 0 [(0, 2); (4, 5); (0, 0); (0, 0)];
  SackTrack 0 0 1 0 [(3, 5); (0, 0); (0, 0); (0, 0)];
  SackTrack 1 0 2 0 [(0, 0); (3, 5); (0, 0); (0, 0)];
  SackTrack 0 0 2 0 [(1, 1); (3, 5); (0, 0); (0, 0)];
  SackTrack 1 0 2 0 [(0, 1); (3, 5); (0, 0); (0, 0)];
  SackTrack 0 0 1 0 [(2, 5); (0, 0); (0, 0); (0, 0)];
  SackTrack 1 0 2 0 [(0, 0); (2, 5); (0, 0); (0, 0)];
  SackTrack 0 0 1 0 [(1, 5); (0, 0); (0, 0); (0, 0)];
  SackTrack 1 0 1 0 [(0, 5); (0, 0); (0, 0); (0, 0)]
].

(** Entries 0x40 to 0x4f. *)
Definition sack_array_4 : list sack_track := [
  SackTrack 0 0 1 0 [(6, 6); (0, 0); (0, 0); (0, 0)];
  SackTrack 1 0 2 0 [(0, 0); (6, 6); (0, 0); (0, 0)];
  SackTrack 0 0 2 0 [(1, 1); (6, 6); (0, 0); (0, 0)];
  SackTrack 1 0 2 0 [(0, 1); (6, 6); (0, 0); (0, 0)];
  SackTrack 0 0 2 0 [(2, 2); (6, 6); (0, 0); (0, 0)];
  SackTrack 1 0 3 0 [(0, 0); (2, 2); (6, 6); (0, 0)];
  SackTrack 0 0 2 0 [(1, 2); (6, 6); (0, 0); (0, 0)];
  SackTrack 1 0 2 0 [(0, 2); (6, 6); (0, 0); (0, 0)];
  SackTrack 0 0 2 0 [(3, 3); (6, 6); (0, 0); (0, 0)];
  SackTrack 1 0 3 0 [(0, 0); (3, 3); (6, 6); (0, 0)];
  SackTrack 0 0 3 0 [(1, 1); (3, 3); (6, 6); (0, 0)];
  SackTrack 1 0 3 0 [(0, 1); (3, 3); (6, 6); (0, 0)];
  SackTrack 0 0 2 0 [(2, 3); (6, 6); (0, 0); (0, 0)];
  SackTrack 1 0 3 0 [(0, 0); (2, 3); (6, 6); (0, 0)];
  SackTrack 0 0 2 0 [(1, 3); (6, 6); (0, 0); (0, 0)];
  SackTrack 1 0 2 0 [(0, 3); (6, 6); (0, 0); (0, 0)]
].

(** Entries 0x50 to 0x5f. *)
Definition sack_array_5 : list sack_track := [
  SackTrack 0 0 2 0 [(4, 4); (6, 6); (0, 0); (0, 0)];
  SackTrack 1 0 3 0 [(0, 0); (4, 4); (6, 6); (0, 0)];
  SackTrack 0 0 3 0 [(1, 1); (4, 4); (6, 6); (0, 0)];
  SackTrack 1 0 3 0 [(0, 1); (4, 4); (6, 6); (0, 0)];
  SackTrack 0 0 3 0 [(2, 2); (4, 4); (6, 6); (0, 0)];
  SackTrack 1 0 4 0 [(0, 0); (2, 2); (4, 4); (6, 6)];
  SackTrack 0 0 3 0 [(1, 2); (4, 4); (6, 6); (0, 0)];
  SackTrack 1 0 3 0 [(0, 2); (4, 4); (6, 6); (0, 0)];
  SackTrack 0 0 2 0 [(3, 4); (6, 6); (0, 0); (0, 0)];
  SackTrack 1 0 3 0 [(0, 0); (3, 4); (6, 6); (0, 0)];
  SackTrack 0 0 3 0 [(1, 1); (3, 4); (6, 6); (0, 0)];
  SackTrack 1 0 3 0 [(0, 1); (3, 4); (6, 6); (0, 0)];
  SackTrack 0 0 2 0 [(2, 4); (6, 6); (0, 0); (0, 0)];
  SackTrack 1 0 3 0 [(0, 0); (2, 4); (6, 6); (0, 0)];
  SackTrack 0 0 2 0 [(1, 4); (6, 6); (0, 0); (0, 0)];
  SackTrack 1 0 2 0 [(0, 4); (6, 6); (0, 0); (0, 0)]
].

(** Entries 0x60 to 0x6f. *)
Definition sack_array_6 : list sack_track := [
  SackTrack 0 0 1 0 [(5, 6); (0, 0); (0, 0); (0, 0)];
  SackTrack 1 0 2 0 [(0, 0); (5, 6); (0, 0); (0, 0)];
  SackTrack 0 0 2 0 [(1, 1); (5, 6); (0, 0); (0, 0)];
  SackTrack 1 0 2 0 [(0, 1); (5, 6); (0, 0); (0, 0)];
  SackTrack 0 0 2 0 [(2, 2); (5, 6); (0, 0); (0, 0)];
  SackTrack 1 0 3 0 [(0, 0); (2, 2); (5, 6); (0, 0)];
  SackTrack 0 0 2 0 [(1, 2); (5, 6); (0, 0); (0, 0)];
  SackTrack 1 0 2 0 [(0, 2); (5, 6); (0, 0); (0, 0)];
  SackTrack 0 0 2 0 [(3, 3); (5, 6); (0, 0); (0, 0)];
  SackTrack 1 0 3 0 [(0, 0); (3, 3); (5, 6); (0, 0)];
  SackTrack 0 0 3 0 [(1, 1); (3, 3); (5, 6); (0, 0)];
  SackTrack 1 0 3 0 [(0, 1); (3, 3); (5, 6); (0, 0)];
  SackTrack 0 0 2 0 [(2, 3); (5, 6); (0, 0); (0, 0)];
  SackTrack 1 0 3 0 [(0, 0); (2, 3); (5, 6); (0, 0)];
  SackTrack 0 0 2 0 [(1, 3); (5, 6); (0, 0); (0, 0)];
  SackTrack 1 0 2 0 [(0, 3); (5, 6); (0, 0); (0, 0)]
].

(** Entries 0x70 to 0x7f. *)
Definition sack_array_7 : list sack_track := [
  SackTrack 0 0 1 0 [(4, 6); (0, 0); (0, 0); (0, 0)];
  SackTrack 1 0 2 0 [(0, 0); (4, 6); (0, 0); (0, 0)];
  SackTrack 0 0 2 0 [(1, 1); (4, 6); (0, 0); (0, 0)];
  SackTrack 1 0 2 0 [(0, 1); (4, 6); (0, 0); (0, 0)];
  SackTrack 0 0 2 0 [(2, 2); (4, 6); (0, 0); (0, 0)];
  SackTrack 1 0 3 0 [(0, 0); (2, 2); (4, 6); (0, 0)];
  SackTrack 0 0 2 0 [(1, 2); (4, 6); (0, 0); (0, 0)];
  SackTrack 1 0 2 0 [(0, 2); (4, 6); (0, 0); (0, 0)];
  SackTrack 0 0 1 0 [(3, 6); (0, 0); (0, 0); (0, 0)];
  SackTrack 1 0 2 0 [(0, 0); (3, 6); (0, 0); (0, 0)];
  SackTrack 0 0 2 0 [(1, 1); (3, 6); (0, 0); (0, 0)];
  SackTrack 1 0 2 0 [(0, 1); (3, 6); (0, 0); (0, 0)];
  SackTrack 0 0 1 0 [(2, 6); (0, 0); (0, 0); (0, 0)];
  SackTrack 1 0 2 0 [(0, 0); (2, 6); (0, 0); (0, 0)];
  SackTrack 0 0 1 0 [(1, 6); (0, 0); (0, 0); (0, 0)];
  SackTrack 1 0 1 0 [(0, 6); (0, 0); (0, 0); (0, 0)]
].

(** Entries 0x80 to 0x8f. *)
Definition sack_array_8 : list sack_track := [
  SackTrack 0 1 1 0 [(7, 7); (0, 0); (0, 0); (0, 0)];
  SackTrack 1 1 2 0 [(0, 0); (7, 7); (0, 0); (0, 0)];
  SackTrack 0 1 2 0 [(1, 1); (7, 7); (0, 0); (0, 0)];
  SackTrack 1 1 2 0 [(0, 1); (7, 7); (0, 0); (0, 0)];
  SackTrack 0 1 2 0 [(2, 2); (7, 7); (0, 0); (0, 0)];
  SackTrack 1 1 3 0 [(0, 0); (2, 2); (7, 7); (0, 0)];
  SackTrack 0 1 2 0 [(1, 2); (7, 7); (0, 0); (0, 0)];
  SackTrack 1 1 2 0 [(0, 2); (7, 7); (0, 0); (0, 0)];
  SackTrack 0 1 2 0 [(3, 3); (7, 7); (0, 0); (0, 0)];
  SackTrack 1 1 3 0 [(0, 0); (3, 3); (7, 7); (0, 0)];
  SackTrack 0 1 3 0 [(1, 1); (3, 3); (7, 7); (0, 0)];
  SackTrack 1 1 3 0 [(0, 1); (3, 3); (7, 7); (0, 0)];
  SackTrack 0 1 2 0 [(2, 3); (7, 7); (0, 0); (0, 0)];
  SackTrack 1 1 3 0 [(0, 0); (2, 3); (7, 7); (0, 0)];
  SackTrack 0 1 2 0 [(1, 3); (7, 7); (0, 0); (0, 0)];
  SackTrack 1 1 2 0 [(0, 3); (7, 7); (0, 0); (0, 0)]
].

(** Entries 0x90 to 0x9f. *)
Definition sack_array_9 : list sack_track := [
  SackTrack 0 1 2 0 [(4, 4); (7, 7); (0, 0); (0, 0)];
  SackTrack 1 1 3 0 [(0, 0); (4, 4); (7, 7); (0, 0)];
  SackTrack 0 1 3 0 [(1, 1); (4, 4); (7, 7); (0, 0)];
  SackTrack 1 1 3 0 [(0, 1); (4, 4); (7, 7); (0, 0)];
  SackTrack 0 1 3 0 [(2, 2); (4, 4); (7, 7); (0, 0)];
  SackTrack 1 1 4 0 [(0, 0); (2, 2); (4, 4); (7, 7)];
  SackTrack 0 1 3 0 [(1, 2); (4, 4); (7, 7); (0, 0)];
  SackTrack 1 1 3 0 [(0, 2); (4, 4); (7, 7); (0, 0)];
  SackTrack 0 1 2 0 [(3, 4); (7, 7); (0, 0); (0, 0)];
  SackTrack 1 1 3 0 [(0, 0); (3, 4); (7, 7); (0, 0)];
  SackTrack 0 1 3 0 [(1, 1); (3, 4); (7, 7); (0, 0)];
  SackTrack 1 1 3 0 [(0, 1); (3, 4); (7, 7); (0, 0)];
  SackTrack 0 1 2 0 [(2, 4); (7, 7); (0, 0); (0, 0)];
  SackTrack 1 1 3 0 [(0, 0); (2, 4); (7, 7); (0, 0)];
  SackTrack 0 1 2 0 [(1, 4); (7, 7); (0, 0); (0, 0)];
  SackTrack 1 1 2 0 [(0, 4); (7, 7); (0, 0); (0, 0)]
].

(** Entries 0xa0 to 0xaf. *)
Definition sack_array_a : list sack_track := [
  SackTrack 0 1 2 0 [(5, 5); (7, 7); (0, 0); (0, 0)];
  SackTrack 1 1 3 0 [(0, 0); (5, 5); (7, 7); (0, 0)];
  SackTrack 0 1 3 0 [(1, 1); (5, 5); (7, 7); (0, 0)];
  SackTrack 1 1 3 0 [(0, 1); (5, 5); (7, 7); (0, 0)];
  SackTrack 0 1 3 0 [(2, 2); (5, 5); (7, 7); (0, 0)];
  SackTrack 1 1 4 0 [(0, 0); (2, 2); (5, 5); (7, 7)];
  SackTrack 0 1 3 0 [(1, 2); (5, 5); (7, 7); (0, 0)];
  SackTrack 1 1 3 0 [(0, 2); (5, 5); (7, 7); (0, 0)];
  SackTrack 0 1 3 0 [(3, 3); (5, 5); (7, 7); (0, 0)];
  SackTrack 1 1 4 0 [(0, 0); (3, 3); (5, 5); (7, 7)];
  SackTrack 0 1 4 0 [(1, 1); (3, 3); (5, 5); (7, 7)];
  SackTrack 1 1 4 0 [(0, 1); (3, 3); (5, 5); (7, 7)];
  SackTrack 0 1 3 0 [(2, 3); (5, 5); (7, 7); (0, 0)];
  SackTrack 1 1 4 0 [(0, 0); (2, 3); (5, 5); (7, 7)];
  SackTrack 0 1 3 0 [(1, 3); (5, 5); (7, 7); (0, 0)];
  SackTrack 1 1 3 0 [(0, 3); (5, 5); (7, 7); (0, 0)]
].

(** Entries 0xb0 to 0xbf. *)
Definition sack_array_b : list sack_track := [
  SackTrack 0 1 2 0 [(4, 5); (7, 7); (0, 0); (0, 0)];
  SackTrack 1 1 3 0 [(0, 0); (4, 5); (7, 7); (0, 0)];
  SackTrack 0 1 3 0 [(1, 1); (4, 5); (7, 7); (0, 0)];
  SackTrack 1 1 3 0 [(0, 1); (4, 5); (7, 7); (0, 0)];
  SackTrack 0 1 3 0 [(2, 2); (4, 5); (7, 7); (0, 0)];
  SackTrack 1 1 4 0 [(0, 0); (2, 2); (4, 5); (7, 7)];
  SackTrack 0 1 3 0 [(1, 2); (4, 5); (7, 7); (0, 0)];
  SackTrack 1 1 3 0 [(0, 2); (4, 5); (7, 7); (0, 0)];
  SackTrack 0 1 2 0 [(3, 5); (7, 7); (0, 0); (0, 0)];
  SackTrack 1 1 3 0 [(0, 0); (3, 5); (7, 7); (0, 0)];
  SackTrack 0 1 3 0 [(1, 1); (3, 5); (7, 7); (0, 0)];
  SackTrack 1 1 3 0 [(0, 1); (3, 5); (7, 7); (0, 0)];
  SackTrack 0 1 2 0 [(2, 5); (7, 7); (0, 0); (0, 0)];
  SackTrack 1 1 3 0 [(0, 0); (2, 5); (7, 7); (0, 0)];
  SackTrack 0 1 2 0 [(1, 5); (7, 7); (0, 0); (0, 0)];
  SackTrack 1 1 2 0 [(0, 5); (7, 7); (0, 0); (0, 0)]
].

(** Entries 0xc0 to 0xcf. *)
Definition sack_array_c : list sack_track := [
  SackTrack 0 1 1 0 [(6, 7); (0, 0); (0, 0); (0, 0)];
  SackTrack 1 1 2 0 [(0, 0); (6, 7); (0, 0); (0, 0)];
  SackTrack 0 1 2 0 [(1, 1); (6, 7); (0, 0); (0, 0)];
  SackTrack 1 1 2 0 [(0, 1); (6, 7); (0, 0); (0, 0)];
  SackTrack 0 1 2 0 [(2, 2); (6, 7); (0, 0); (0, 0)];
  SackTrack 1 1 3 0 [(0, 0); (2, 2); (6, 7); (0, 0)];
  SackTrack 0 1 2 0 [(1, 2); (6, 7); (0, 0); (0, 0)];
  SackTrack 1 1 2 0 [(0, 2); (6, 7); (0, 0); (0, 0)];
  SackTrack 0 1 2 0 [(3, 3); (6, 7); (0, 0); (0, 0)];
  SackTrack 1 1 3 0 [(0, 0); (3, 3); (6, 7); (0, 0)];
  SackTrack 0 1 3 0 [(1, 1); (3, 3); (6, 7); (0, 0)];
  SackTrack 1 1 3 0 [(0, 1); (3, 3); (6, 7); (0, 0)];
  SackTrack 0 1 2 0 [(2, 3); (6, 7); (0, 0); (0, 0)];
  SackTrack 1 1 3 0 [(0, 0); (2, 3); (6, 7); (0, 0)];
  SackTrack 0 1 2 0 [(1, 3); (6, 7); (0, 0); (0, 0)];
  SackTrack 1 1 2 0 [(0, 3); (6, 7); (0, 0); (0, 0)]
].

(** Entries 0xd0 to 0xdf. *)
Definition sack_array_d : list sack_track := [
  SackTrack 0 1 2 0 [(4, 4); (6, 7); (0, 0); (0, 0)];
  SackTrack 1 1 3 0 [(0, 0); (4, 4); (6, 7); (0, 0)];
  SackTrack 0 1 3 0 [(1, 1); (4, 4); (6, 7); (0, 0)];
  SackTrack 1 1 3 0 [(0, 1); (4, 4); (6, 7); (0, 0)];
  SackTrack 0 1 3 0 [(2, 2); (4, 4); (6, 7); (0, 0)];
  SackTrack 1 1 4 0 [(0, 0); (2, 2); (4, 4); (6, 7)];
  SackTrack 0 1 3 0 [(1, 2); (4, 4); (6, 7); (0, 0)];
  SackTrack 1 1 3 0 [(0, 2); (4, 4); (6, 7); (0, 0)];
  SackTrack 0 1 2 0 [(3, 4); (6, 7); (0, 0); (0, 0)];
  SackTrack 1 1 3 0 [(0, 0); (3, 4); (6, 7); (0, 0)];
  SackTrack 0 1 3 0 [(1, 1); (3, 4); (6, 7); (0, 0)];
  SackTrack 1 1 3 0 [(0, 1); (3, 4); (6, 7); (0, 0)];
  SackTrack 0 1 2 0 [(2, 4); (6, 7); (0, 0); (0, 0)];
  SackTrack 1 1 3 0 [(0, 0); (2, 4); (6, 7); (0, 0)];
  SackTrack 0 1 2 0 [(1, 4); (6, 7); (0, 0); (0, 0)];
  SackTrack 1 1 2 0 [(0, 4); (6, 7); (0, 0); (0, 0)]
].

(** Entries 0xe0 to 0xef. *)
Definition sack_array_e : list sack_track := [
  SackTrack 0 1 1 0 [(5, 7); (0, 0); (0, 0); (0, 0)];
  SackTrack 1 1 2 0 [(0, 0); (5, 7); (0, 0); (0, 0)];
  SackTrack 0 1 2 0 [(1, 1); (5, 7); (0, 0); (0, 0)];
  SackTrack 1 1 2 0 [(0, 1); (5, 7); (0, 0); (0, 0)];
  SackTrack 0 1 2 0 [(2, 2); (5, 7); (0, 0); (0, 0)];
  SackTrack 1 1 3 0 [(0, 0); (2, 2); (5, 7); (0, 0)];
  SackTrack 0 1 2 0 [(1, 2); (5, 7); (0, 0); (0, 0)];
  SackTrack 1 1 2 0 [(0, 2); (5, 7); (0, 0); (0, 0)];
  SackTrack 0 1 2 0 [(3, 3); (5, 7); (0, 0); (0, 0)];
  SackTrack 1 1 3 0 [(0, 0); (3, 3); (5, 7); (0, 0)];
  SackTrack 0 1 3 0 [(1, 1); (3, 3); (5, 7); (0, 0)];
  SackTrack 1 1 3 0 [(0, 1); (3, 3); (5, 7); (0, 0)];
  SackTrack 0 1 2 0 [(2, 3); (5, 7); (0, 0); (0, 0)];
  SackTrack 1 1 3 0 [(0, 0); (2, 3); (5, 7); (0, 0)];
  SackTrack 0 1 2 0 [(1, 3); (5, 7); (0, 0); (0, 0)];
  SackTrack 1 1 2 0 [(0, 3); (5, 7); (0, 0); (0, 0)]
].

(** Entries 0xf0 to 0xff. *)
Definition sack_array_f : list sack_track := [
  SackTrack 0 1 1 0 [(4, 7); (0, 0); (0, 0); (0, 0)];
  SackTrack 1 1 2 0 [(0, 0); (4, 7); (0, 0); (0, 0)];
  SackTrack 0 1 2 0 [(1, 1); (4, 7); (0, 0); (0, 0)];
  SackTrack 1 1 2 0 [(0, 1); (4, 7); (0, 0); (0, 0)];
  SackTrack 0 1 2 0 [(2, 2); (4, 7); (0, 0); (0, 0)];
  SackTrack 1 1 3 0 [(0, 0); (2, 2); (4, 7); (0, 0)];
  SackTrack 0 1 2 0 [(1, 2); (4, 7); (0, 0); (0, 0)];
  SackTrack 1 1 2 0 [(0, 2); (4, 7); (0, 0); (0, 0)];
  SackTrack 0 1 1 0 [(3, 7); (0, 0); (0, 0); (0, 0)];
  SackTrack 1 1 2 0 [(0, 0); (3, 7); (0, 0); (0, 0)];
  SackTrack 0 1 2 0 [(1, 1); (3, 7); (0, 0); (0, 0)];
  SackTrack 1 1 2 0 [(0, 1); (3, 7); (0, 0); (0, 0)];
  SackTrack 0 1 1 0 [(2, 7); (0, 0); (0, 0); (0, 0)];
  SackTrack 1 1 2 0 [(0, 0); (2, 7); (0, 0); (0, 0)];
  SackTrack 0 1 1 0 [(1, 7); (0, 0); (0, 0); (0, 0)];
  SackTrack 1 1 1 0 [(0, 7); (0, 0); (0, 0); (0, 0)]
].

Definition sack_array : list sack_track :=
  sack_array_0 ++ sack_array_1 ++ sack_array_2 ++ sack_array_3 ++ sack_array_4 ++ sack_array_5 ++ sack_array_6 ++ sack_array_7
  ++ sack_array_8 ++ sack_array_9 ++ sack_array_a ++ sack_array_b ++ sack_array_c ++ sack_array_d ++ sack_array_e ++ sack_array_f.
