(* ===== verification/Sack.v ===== *)
(** * Acknowledging: [sctp_send_sack] and [sctp_sack_check]

    The receiver's side of acknowledgements: the advertised window
    ([sctp_calc_rwnd], sctp_indata.c), the decision whether to acknowledge now or to
    start the delayed-acknowledgement timer ([sctp_sack_check], sctp_indata.c), and
    building a SACK or NR-SACK chunk from the mapping arrays ([sctp_send_sack],
    sctp_output.c).

    The chunk is built in memory that is an argument: its words after the chunk's
    header are pairs of 16-bit halves, in network order, of unspecified contents.  The
    destination chosen by [sctp_find_alternate_net] is an argument too. *)

From S2P Require Import Prelude Serial TsnMap SackTable.

Open Scope sctp_scope.

Definition SCTP_SELECTIVE_ACK : Z := 0x03.
Definition SCTP_NR_SELECTIVE_ACK : Z := 0x10.
Definition SCTP_STATE_SHUTDOWN_SENT : Z := 0x0010.
Definition SCTP_STATE_MASK : Z := 0x007f.
Definition sizeof_sctp_sack_chunk : Z := 16.
Definition sizeof_sctp_nr_sack_chunk : Z := 20.
Definition sizeof_sctp_gap_ack_block : Z := 4.
(** [sizeof(struct ip6_hdr) + sizeof(struct sctphdr)] *)
Definition SCTP_MIN_OVERHEAD : Z := 52.
Definition MCLBYTES : Z := 2048.
Definition MSIZE : Z := 256.
Definition SCTP_MINIMAL_RWND : Z := 4096.

(** ** State *)

(** A SACK or NR-SACK chunk as it is queued: the fields of its header and the words
    that follow. *)
Record sack_chunk := SackChunk {
  chunk_flags : Z;
  chunk_length : Z;
  cum_tsn_ack : Z;
  a_rwnd : Z;
  num_gap_ack_blks : Z;
  num_nr_gap_ack_blks : Z;
  num_dup_tsns : Z;
  payload : list (Z * Z)
}.

(** A chunk of the control queue; its destination is named by a number, and [body] is
    [None] for chunks other than acknowledgements. *)
Record ctl_chunk := CtlChunk { chunk_id : Z; whoTo : option Z; body : option sack_chunk }.

Record ack_state := AckState {
  arrays : tsn_map;
  assoc_state : Z;
  my_rwnd : Z;
  my_last_reported_rwnd : Z;
  my_rwnd_control_len : Z;
  sb_cc : Z;
  size_on_reasm_queue : Z;
  cnt_on_reasm_queue : Z;
  size_on_all_streams : Z;
  cnt_on_all_streams : Z;
  delayed_ack : Z;
  sack_freq : Z;
  data_pkts_seen : Z;
  cmt_dac_pkts_rcvd : Z;
  sctp_cmt_on_off : Z;
  nrsack_supported : Z;
  control_send_queue : list ctl_chunk;
  ctrl_queue_cnt : Z;
  last_data_chunk_from : option Z;
  freed_by_sorcv_sincelast : Z;
  dack_timer_pending : bool
}.

Definition ack_state_eta (r : ack_state) : ack_state :=
  AckState (arrays r) (assoc_state r) (my_rwnd r) (my_last_reported_rwnd r)
    (my_rwnd_control_len r) (sb_cc r) (size_on_reasm_queue r) (cnt_on_reasm_queue r)
    (size_on_all_streams r) (cnt_on_all_streams r) (delayed_ack r) (sack_freq r)
    (data_pkts_seen r) (cmt_dac_pkts_rcvd r) (sctp_cmt_on_off r) (nrsack_supported r)
    (control_send_queue r) (ctrl_queue_cnt r) (last_data_chunk_from r)
    (freed_by_sorcv_sincelast r) (dack_timer_pending r).

#[export] Instance set_arrays : FieldUpdate arrays := ltac:(field_update ack_state_eta arrays).
#[export] Instance set_my_rwnd : FieldUpdate my_rwnd := ltac:(field_update ack_state_eta my_rwnd).
#[export] Instance set_my_last_reported_rwnd : FieldUpdate my_last_reported_rwnd :=
  ltac:(field_update ack_state_eta my_last_reported_rwnd).
#[export] Instance set_data_pkts_seen : FieldUpdate data_pkts_seen :=
  ltac:(field_update ack_state_eta data_pkts_seen).
#[export] Instance set_cmt_dac_pkts_rcvd : FieldUpdate cmt_dac_pkts_rcvd :=
  ltac:(field_update ack_state_eta cmt_dac_pkts_rcvd).
#[export] Instance set_control_send_queue : FieldUpdate control_send_queue :=
  ltac:(field_update ack_state_eta control_send_queue).
#[export] Instance set_ctrl_queue_cnt : FieldUpdate ctrl_queue_cnt :=
  ltac:(field_update ack_state_eta ctrl_queue_cnt).
#[export] Instance set_freed_by_sorcv_sincelast : FieldUpdate freed_by_sorcv_sincelast :=
  ltac:(field_update ack_state_eta freed_by_sorcv_sincelast).
#[export] Instance set_dack_timer_pending : FieldUpdate dack_timer_pending :=
  ltac:(field_update ack_state_eta dack_timer_pending).

(** ** The advertised window *)

Definition sctp_maxspace (sb_hiwat : Z) : Z := Z.max sb_hiwat SCTP_MINIMAL_RWND.

Definition sctp_sbspace (sb_cc sb_hiwat : Z) : Z :=
  if sb_cc <? sctp_maxspace sb_hiwat then u32 (sctp_maxspace sb_hiwat - sb_cc) else 0.

Definition sctp_sbspace_sub (a b : Z) : Z := if b <? a then a - b else 0.

(** [sb_hiwat] is the limit of the receive buffer, [None] without a socket. *)
Definition sctp_calc_rwnd (sb_hiwat : option Z) (a : ack_state) : Z :=
  match sb_hiwat with
  | None => 0
  | Some hiwat =>
      if (sb_cc a =? 0) && (size_on_reasm_queue a =? 0) && (size_on_all_streams a =? 0)
      then Z.max hiwat SCTP_MINIMAL_RWND
      else
        let calc := u32 (sctp_sbspace (sb_cc a) hiwat) in
        let calc := sctp_sbspace_sub calc (u32 (size_on_reasm_queue a + cnt_on_reasm_queue a * MSIZE)) in
        let calc := sctp_sbspace_sub calc (u32 (size_on_all_streams a + cnt_on_all_streams a * MSIZE)) in
        if calc =? 0 then 0
        else
          let calc := sctp_sbspace_sub calc (my_rwnd_control_len a) in
          if calc <? my_rwnd_control_len a then 1 else calc
  end.

Definition sctp_set_rwnd (sb_hiwat : option Z) (a : ack_state) : ack_state :=
  a <| my_rwnd := sctp_calc_rwnd sb_hiwat a |>.

(** ** Gap blocks *)

(** The loops that write gap blocks: the memory after the chunk's header, the index
    of [gap_descriptor] in it, the number of blocks counted, and [mergeable]. *)
Record gap_state := GapState { gp_buf : list (Z * Z); gp_at : Z; gp_num : Z; mergeable : bool }.

(** The loop over the [n] entries of a byte from the [j]-th on.  [room] is the number of
    words before [limit]; the flag is [limit_reached]. *)
Fixpoint put_entries (n : nat) (j : Z) (sel : sack_track) (offset room : Z) (st : gap_state)
  : option (gap_state * bool) :=
  match n with
  | O => Some (st, false)
  | S n =>
      g ← get_at (gaps sel) j;
      let '(gstart, gend) := (g : Z * Z) in
      old ← get_at (gp_buf st) (gp_at st);
      let start := if mergeable st && negb (right_edge sel =? 0)
                   then (old : Z * Z).1 else u16 (gstart + offset) in
      buf ← set_at (gp_buf st) (gp_at st) (start, u16 (gend + offset));
      let st := GapState buf (gp_at st + 1) (u32 (gp_num st + 1)) false in
      if room <? gp_at st + 1 then Some (st, true)
      else put_entries n (j + 1) sel offset room st
  end.

(** One byte of the arrays. *)
Definition put_byte_gaps (tsn_map_byte offset room : Z) (st : gap_state)
  : option (gap_state * bool) :=
  sel ← get_at sack_array tsn_map_byte;
  let st := if mergeable st && negb (right_edge sel =? 0)
            then GapState (gp_buf st) (gp_at st - 1) (u32 (gp_num st - 1)) (mergeable st) else st in
  if num_entries sel =? 0 then
    Some (GapState (gp_buf st) (gp_at st) (gp_num st) false, false)
  else
    r ← put_entries (Z.to_nat (num_entries sel)) 0 sel offset room st;
    let st := r.1 in
    Some (GapState (gp_buf st) (gp_at st) (gp_num st)
            (if negb (left_edge sel =? 0) then true else mergeable st), r.2).

(** "Clear all bits corresponding to TSNs smaller or equal to the cumulative TSN"; a
    shift by less than 0 or more than 31 is undefined. *)
Definition mask_acked (tsn_map_byte offset : Z) : option Z :=
  if (1 - offset <? 0) || (31 <? 1 - offset) then None
  else Some (u8 (Z.land tsn_map_byte (u32 (Z.shiftl 4294967295 (1 - offset))))).

(** The loop over the bytes of an array from the [i]-th on, [n] of which are left. *)
Fixpoint gap_loop (n : nat) (i : Z) (get : Z -> option Z) (offset room : Z) (st : gap_state)
  : option (gap_state * bool) :=
  match n with
  | O => Some (st, false)
  | S n =>
      b ← get i;
      b ← (if i =? 0 then mask_acked b offset else Some b);
      r ← put_byte_gaps b offset room st;
      if (r.2 : bool) then Some r else gap_loop n (i + 1) get (offset + 8) room r.1
  end.

(** The bytes of both arrays, and of one. *)
Definition union_byte (a : tsn_map) (i : Z) : option Z :=
  x ← get_at (mapping_array a) i; y ← get_at (nr_mapping_array a) i; Some (Z.lor x y).

(** [siz] of a SACK and of the two parts of an NR-SACK. *)
Definition sack_siz (highest base : Z) : Z :=
  if base <? highest then u32 (u32 (u32 (highest - base) + 1) + 7) / 8
  else u32 (u32 (u32 (MAX_TSN - highest) + 1) + highest + 7) / 8.

Definition nr_sack_siz (highest base : Z) : Z :=
  if base <? highest then u32 (u32 (u32 (highest - base) + 1) + 7) / 8
  else u32 (u32 (u32 (MAX_TSN - base) + 1) + highest + 7) / 8.

Definition first_offset (a : tsn_map) : Z :=
  if SCTP_TSN_GT (mapping_array_base_tsn a) (cumulative_tsn a) then 1
  else i32 (mapping_array_base_tsn a - cumulative_tsn a).

(** The higher of the two highest TSNs, as [sctp_send_sack] determines it. *)
Definition sack_highest_tsn (a : tsn_map) : Z :=
  if SCTP_TSN_GT (highest_tsn_inside_map a) (highest_tsn_inside_nr_map a)
  then highest_tsn_inside_map a else highest_tsn_inside_nr_map a.

(** The blocks of a SACK or the first part of those of an NR-SACK. *)
Definition gap_blocks (type : Z) (a : tsn_map) (room : Z) (buf : list (Z * Z))
  : option (gap_state * bool) :=
  let st := GapState buf 0 0 false in
  if type =? SCTP_SELECTIVE_ACK then
    if SCTP_TSN_GT (sack_highest_tsn a) (cumulative_tsn a)
    then gap_loop (Z.to_nat (sack_siz (sack_highest_tsn a) (mapping_array_base_tsn a))) 0
           (union_byte a) (first_offset a) room st
    else Some (st, false)
  else
    if SCTP_TSN_GT (highest_tsn_inside_map a) (cumulative_tsn a)
    then gap_loop (Z.to_nat (nr_sack_siz (highest_tsn_inside_map a) (mapping_array_base_tsn a))) 0
           (get_at (mapping_array a)) (first_offset a) room st
    else Some (st, false).

(** The second part of the blocks of an NR-SACK. *)
Definition nr_gap_blocks (a : tsn_map) (room : Z) (st : gap_state) : option (gap_state * bool) :=
  let st := GapState (gp_buf st) (gp_at st) 0 false in
  if SCTP_TSN_GT (highest_tsn_inside_nr_map a) (cumulative_tsn a)
  then gap_loop (Z.to_nat (nr_sack_siz (highest_tsn_inside_nr_map a) (mapping_array_base_tsn a))) 0
         (get_at (nr_mapping_array a)) (first_offset a) room st
  else Some (st, false).

(** The loop that reports duplicates from the [i]-th on, [n] of which are left; a TSN
    fills one word.  The result is the memory and the number reported. *)
Fixpoint put_dups (n : nat) (i : Z) (dups : list Z) (room : Z) (buf : list (Z * Z)) (pos num : Z)
  : option (list (Z * Z) * Z) :=
  match n with
  | O => Some (buf, num)
  | S n =>
      d ← get_at dups i;
      buf ← set_at buf pos (u32 d / 65536, u32 d mod 65536);
      if room <? pos + 2 then Some (buf, num + 1)
      else put_dups n (i + 1) dups room buf (pos + 1) (num + 1)
  end.

(** ** Building and queueing the chunk *)

(** What [sctp_send_sack] gets from outside: the limit of the receive buffer, whether a
    chunk can be allocated, whether a destination is reachable, what
    [sctp_find_alternate_net] answers, the allocation of an mbuf for a number of bytes
    (its trailing space after [SCTP_BUF_RESV_UF] and the words after the chunk's header),
    the MTU of a destination, and [sctp_cmt_use_dac]. *)
Record sack_env := SackEnv {
  env_hiwat : option Z;
  env_alloc_chunk : bool;
  env_reachable : Z -> bool;
  env_alternate : Z -> option Z;
  env_mbuf : Z -> option (Z * list (Z * Z));
  env_mtu : Z -> Z;
  env_use_dac : Z
}.

(** [TAILQ_FOREACH] and [TAILQ_REMOVE] of the first chunk of a type. *)
Fixpoint remove_chunk (type : Z) (q : list ctl_chunk) : option (list ctl_chunk) :=
  match q with
  | [] => None
  | c :: q => if chunk_id c =? type then Some q else q' ← remove_chunk type q; Some (c :: q')
  end.

(** No memory: "we drop the idea, and set a timer". *)
Definition sack_no_memory (a : ack_state) : ack_state :=
  if negb (delayed_ack a =? 0) then a <| dack_timer_pending := true |>
  else a <| arrays := (arrays a) <| send_sack := 1 |> |>.

(** The destination: "if the destination for the SACK is unreachable, lets see if we can
    select an alternate". *)
Definition sack_destination (env : sack_env) (from : Z) : Z :=
  if env_reachable env from then from else default from (env_alternate env from).

(** [space], the bytes available for the chunk. *)
Definition sack_space (trailing mtu : Z) : Z :=
  let space := u32 trailing in
  if u64 (mtu - SCTP_MIN_OVERHEAD) <? space then u32 (mtu - SCTP_MIN_OVERHEAD) else space.

(** Reporting the duplicates and filling in the header: [num] and [nr_num] blocks have
    been written, [limited] says that there is no room for more words. *)
Definition finish_sack (header flags room num nr_num : Z) (limited : bool) (a : ack_state)
    (st : gap_state) : option (sack_chunk * ack_state) :=
  let m := arrays a in
  r ← (if negb limited && negb (numduptsns m =? 0) then
         d ← put_dups (Z.to_nat (numduptsns m)) 0 (dup_tsns m) room (gp_buf st) (gp_at st) 0;
         Some (d.1, d.2, m <| numduptsns := 0 |>)
       else Some (gp_buf st, 0, m));
  let '(buf, num_dups, m) := (r : list (Z * Z) * Z * tsn_map) in
  let send_size := u16 (header + u32 (num + nr_num) * sizeof_sctp_gap_ack_block + num_dups * 4) in
  Some (SackChunk flags send_size (cumulative_tsn m) (my_rwnd a) (u16 num) (u16 nr_num)
          (u16 num_dups) (take (Z.to_nat ((send_size - header) / 4)) buf),
        a <| arrays := m |>).

(** Filling in the chunk, whose header has [header] bytes, in [space] bytes. *)
Definition fill_sack (type flags : Z) (a : ack_state) (space : Z) (buf : list (Z * Z))
  : option (sack_chunk * ack_state) :=
  let header := if type =? SCTP_SELECTIVE_ACK then sizeof_sctp_sack_chunk
                else sizeof_sctp_nr_sack_chunk in
  let room := (space - header) / sizeof_sctp_gap_ack_block in
  r ← gap_blocks type (arrays a) room buf;
  let '(st, limited) := (r : gap_state * bool) in
  if (type =? SCTP_NR_SELECTIVE_ACK) && negb limited then
    r ← nr_gap_blocks (arrays a) room st;
    finish_sack header flags room (gp_num st) (gp_num r.1) r.2 a r.1
  else finish_sack header flags room (gp_num st) 0 limited a st.

Definition sctp_send_sack (env : sack_env) (a : ack_state) : option ack_state :=
  let type := if nrsack_supported a =? 1 then SCTP_NR_SELECTIVE_ACK else SCTP_SELECTIVE_ACK in
  match last_data_chunk_from a with
  | None => Some a
  | Some from =>
      m ← sctp_slide_mapping_arrays (arrays a);
      let a := sctp_set_rwnd (env_hiwat env) (a <| arrays := m |>) in
      let old := remove_chunk type (control_send_queue a) in
      let a := match old with
               | Some q => a <| control_send_queue := q |>
                             <| ctrl_queue_cnt := i32 (ctrl_queue_cnt a - 1) |>
               | None => a
               end in
      if negb (bool_decide (is_Some old)) && negb (env_alloc_chunk env) then
        Some (sack_no_memory a)
      else
        let a := a <| data_pkts_seen := 0 |> in
        let who := sack_destination env from in
        let space_req := if sack_highest_tsn m =? cumulative_tsn m then
                           if type =? SCTP_SELECTIVE_ACK then sizeof_sctp_sack_chunk
                           else sizeof_sctp_nr_sack_chunk
                         else MCLBYTES in
        match env_mbuf env space_req with
        | None => Some (sack_no_memory a)
        | Some (trailing, buf) =>
            let space := sack_space trailing (env_mtu env who) in
            let dac := (0 <? sctp_cmt_on_off a) && negb (env_use_dac env =? 0) in
            let flags := if dac then u8 (Z.shiftl (cmt_dac_pkts_rcvd a) 6) else 0 in
            let a := if dac then a <| cmt_dac_pkts_rcvd := 0 |> else a in
            let a := a <| freed_by_sorcv_sincelast := 0 |> in
            r ← fill_sack type flags a space buf;
            let '(chunk, a) := (r : sack_chunk * ack_state) in
            Some (a <| control_send_queue := control_send_queue a
                                             ++ [CtlChunk type (Some who) (Some chunk)] |>
                    <| my_last_reported_rwnd := my_rwnd a |>
                    <| ctrl_queue_cnt := i32 (ctrl_queue_cnt a + 1) |>
                    <| arrays := (arrays a) <| send_sack := 0 |> |>)
        end
  end.

(** ** Acknowledge now or later *)

(** "Now we need to see if we need to queue a sack or just start the timer". *)
Definition sack_now (was_a_gap is_a_gap : bool) (a : ack_state) : bool :=
  (send_sack (arrays a) =? 1) || (was_a_gap && negb is_a_gap)
  || negb (numduptsns (arrays a) =? 0) || is_a_gap || (delayed_ack a =? 0)
  || (sack_freq a <=? data_pkts_seen a).

(** "CMT DAC algorithm: With CMT, delay acks even in the face of reordering". *)
Definition dac_delays (env : sack_env) (a : ack_state) : bool :=
  (0 <? sctp_cmt_on_off a) && negb (env_use_dac env =? 0) && (send_sack (arrays a) =? 0)
  && (numduptsns (arrays a) =? 0) && negb (delayed_ack a =? 0) && negb (dack_timer_pending a).

(** The flag says that [sctp_send_shutdown] was called. *)
Definition sctp_sack_check (env : sack_env) (was_a_gap : bool) (a : ack_state)
  : option (bool * ack_state) :=
  m ← sctp_slide_mapping_arrays (arrays a);
  let a := a <| arrays := m |> in
  let is_a_gap := SCTP_TSN_GT (highest_tsn m) (cumulative_tsn m) in
  if Z.land (assoc_state a) SCTP_STATE_MASK =? SCTP_STATE_SHUTDOWN_SENT then
    let a := a <| dack_timer_pending := false |> in
    if is_a_gap then a ← sctp_send_sack env a; Some (true, a) else Some (true, a)
  else
    let a := a <| cmt_dac_pkts_rcvd := u8 (cmt_dac_pkts_rcvd a + 1) |> in
    if sack_now was_a_gap is_a_gap a then
      if dac_delays env a then Some (false, a <| dack_timer_pending := true |>)
      else
        a ← sctp_send_sack env (a <| dack_timer_pending := false |>); Some (false, a)
    else Some (false, a <| dack_timer_pending := true |>).
