(* ===== verification/Reasm.v ===== *)
(** * Receiving user data: state and small operations

    What has arrived of a message is kept in a [sctp_queued_to_read], here "control".  A
    control waits on the queue of its stream until the messages before it are there, and
    is then put on the read queue of the endpoint; a message that is delivered in parts is
    on both.  Controls are therefore kept in a store and the queues hold their keys; a key
    that is not in the store is a pointer to freed memory, and using it is [None].

    This file has the state and the operations on one control: the bytes of a message
    (sctp_indata.c: [sctp_setup_tail_pointer], [sctp_add_to_tail_pointer],
    [sctp_add_chk_to_control]; the accounting macros of sctp_var.h), and handing it to the
    application ([sctp_add_to_readq], [sctp_invoke_recv_callback], sctputil.c).

    A fragment that is out of order ([sctp_tmit_chunk]) belongs to one control.  Its data
    are a chain of mbufs, [NULL] is the empty chain.  Reference counts of destinations,
    the cache of free chunks and statistics are left out.  The application's callback is
    called without the association's lock; what other threads do meanwhile is not part of
    the step. *)

From S2P Require Import Prelude Serial Tailq TsnMap Sack Mbuf.

Open Scope sctp_scope.

Definition SCTP_DATA_LAST_FRAG : Z := 1.
Definition SCTP_DATA_FIRST_FRAG : Z := 2.
Definition SCTP_DATA_NOT_FRAG : Z := 3.
Definition SCTP_DATA_UNORDERED : Z := 4.
Definition SCTP_DATA_SACK_IMMEDIATELY : Z := 8.
Definition SCTP_ON_ORDERED : Z := 1.
Definition SCTP_ON_UNORDERED : Z := 2.
Definition SCTP_PARTIAL_DELIVERY_SHIFT : Z := 1.
Definition SCTP_STATE_CLOSED_SOCKET : Z := 0x0100.

(** [flags & bit] as a condition. *)
Definition has_flag (flags bit : Z) : bool := negb (Z.land flags bit =? 0).
Definition not_frag (flags : Z) : bool := Z.land flags SCTP_DATA_NOT_FRAG =? SCTP_DATA_NOT_FRAG.

(** ** State *)

(** A fragment as the receiver keeps it. *)
Record rx_chunk := RxChunk {
  rec_tsn : Z;
  rec_fsn : Z;
  rec_mid : Z;
  rec_sid : Z;
  rec_ppid : Z;
  rcv_flags : Z;
  send_size : Z;
  chk_data : list mbuf
}.

Definition rx_chunk_eta (r : rx_chunk) : rx_chunk :=
  RxChunk (rec_tsn r) (rec_fsn r) (rec_mid r) (rec_sid r) (rec_ppid r) (rcv_flags r)
    (send_size r) (chk_data r).

#[export] Instance set_rec_tsn : FieldUpdate rec_tsn := ltac:(field_update rx_chunk_eta rec_tsn).
#[export] Instance set_rec_fsn : FieldUpdate rec_fsn := ltac:(field_update rx_chunk_eta rec_fsn).
#[export] Instance set_rec_ppid : FieldUpdate rec_ppid := ltac:(field_update rx_chunk_eta rec_ppid).
#[export] Instance set_rx_send_size : FieldUpdate send_size := ltac:(field_update rx_chunk_eta send_size).
#[export] Instance set_chk_data : FieldUpdate chk_data := ltac:(field_update rx_chunk_eta chk_data).

(** [struct sctp_queued_to_read].  [ctl_length] is [length]; [tail_mbuf] is a place in
    [data]; [has_stcb] says that [stcb] is not [NULL]. *)
Record queued_to_read := QueuedToRead {
  sinfo_stream : Z;
  sinfo_flags : Z;
  sinfo_ppid : Z;
  sinfo_tsn : Z;
  sinfo_cumtsn : Z;
  mid : Z;
  ctl_length : Z;
  top_fsn : Z;
  fsn_included : Z;
  data : list mbuf;
  tail_mbuf : option nat;
  has_stcb : bool;
  reasm : list rx_chunk;
  end_added : Z;
  pdapi_aborted : Z;
  pdapi_started : Z;
  last_frag_seen : Z;
  first_frag_seen : Z;
  on_read_q : Z;
  on_strm_q : Z
}.

Definition queued_eta (r : queued_to_read) : queued_to_read :=
  QueuedToRead (sinfo_stream r) (sinfo_flags r) (sinfo_ppid r) (sinfo_tsn r) (sinfo_cumtsn r)
    (mid r) (ctl_length r) (top_fsn r) (fsn_included r) (data r) (tail_mbuf r) (has_stcb r)
    (reasm r) (end_added r) (pdapi_aborted r) (pdapi_started r) (last_frag_seen r)
    (first_frag_seen r) (on_read_q r) (on_strm_q r).

#[export] Instance set_sinfo_ppid : FieldUpdate sinfo_ppid := ltac:(field_update queued_eta sinfo_ppid).
#[export] Instance set_sinfo_tsn : FieldUpdate sinfo_tsn := ltac:(field_update queued_eta sinfo_tsn).
#[export] Instance set_ctl_length : FieldUpdate ctl_length := ltac:(field_update queued_eta ctl_length).
#[export] Instance set_top_fsn : FieldUpdate top_fsn := ltac:(field_update queued_eta top_fsn).
#[export] Instance set_fsn_included : FieldUpdate fsn_included := ltac:(field_update queued_eta fsn_included).
#[export] Instance set_data : FieldUpdate data := ltac:(field_update queued_eta data).
#[export] Instance set_tail_mbuf : FieldUpdate tail_mbuf := ltac:(field_update queued_eta tail_mbuf).
#[export] Instance set_reasm : FieldUpdate reasm := ltac:(field_update queued_eta reasm).
#[export] Instance set_end_added : FieldUpdate end_added := ltac:(field_update queued_eta end_added).
#[export] Instance set_pdapi_aborted : FieldUpdate pdapi_aborted := ltac:(field_update queued_eta pdapi_aborted).
#[export] Instance set_pdapi_started : FieldUpdate pdapi_started := ltac:(field_update queued_eta pdapi_started).
#[export] Instance set_last_frag_seen : FieldUpdate last_frag_seen := ltac:(field_update queued_eta last_frag_seen).
#[export] Instance set_first_frag_seen : FieldUpdate first_frag_seen := ltac:(field_update queued_eta first_frag_seen).
#[export] Instance set_on_read_q : FieldUpdate on_read_q := ltac:(field_update queued_eta on_read_q).
#[export] Instance set_on_strm_q : FieldUpdate on_strm_q := ltac:(field_update queued_eta on_strm_q).

(** [struct sctp_stream_in]. *)
Record stream_in := StreamIn {
  inqueue : list nat;
  uno_inqueue : list nat;
  last_mid_delivered : Z;
  pd_api_started : Z
}.

Definition stream_in_eta (r : stream_in) : stream_in :=
  StreamIn (inqueue r) (uno_inqueue r) (last_mid_delivered r) (pd_api_started r).

#[export] Instance set_inqueue : FieldUpdate inqueue := ltac:(field_update stream_in_eta inqueue).
#[export] Instance set_uno_inqueue : FieldUpdate uno_inqueue := ltac:(field_update stream_in_eta uno_inqueue).
#[export] Instance set_last_mid_delivered : FieldUpdate last_mid_delivered :=
  ltac:(field_update stream_in_eta last_mid_delivered).
#[export] Instance set_pd_api_started : FieldUpdate pd_api_started :=
  ltac:(field_update stream_in_eta pd_api_started).

(** [struct sctp_stream_reset_list]: a request to reset streams that waits for [rst_tsn]. *)
Record stream_reset := StreamReset {
  rst_seq : Z;
  rst_tsn : Z;
  number_entries : Z;
  list_of_streams : list Z
}.

(** What the application's callback gets: the bytes, the fields of [sctp_rcvinfo], and
    [MSG_EOR]. *)
Record upcall := Upcall {
  up_bytes : list Z;
  up_sid : Z;
  up_ssn : Z;
  up_flags : Z;
  up_ppid : Z;
  up_tsn : Z;
  up_cumtsn : Z;
  up_eor : bool
}.

(** What the code asks others to do, in order. *)
Inductive rx_effect :=
| RecvCallback (u : upcall)
| WakeReader
| AbortAssociation (location : Z)
| InvalidStream (sid : Z)
| StreamsReset (number_entries : Z) (streams : list Z)
| ResetResponse (seq : Z)
| PartialDeliveryAborted (p : nat)
| UnrecognizedChunk (length : Z) (copy : list Z)
| PacketDropped.

Record receiver := Receiver {
  ack : ack_state;
  strmin : list stream_in;
  controls : gmap nat queued_to_read;
  next_control : nat;
  read_queue : list nat;
  so_sb_cc : Z;
  so_sb_mbcnt : Z;
  cnt_msg_on_sb : Z;
  resetHead : list stream_reset;
  pending_reply_queue : list nat;
  allocs : nat;
  effects : list rx_effect
}.

Definition receiver_eta (r : receiver) : receiver :=
  Receiver (ack r) (strmin r) (controls r) (next_control r) (read_queue r) (so_sb_cc r)
    (so_sb_mbcnt r) (cnt_msg_on_sb r) (resetHead r) (pending_reply_queue r) (allocs r) (effects r).

#[export] Instance set_ack : FieldUpdate ack := ltac:(field_update receiver_eta ack).
#[export] Instance set_strmin : FieldUpdate strmin := ltac:(field_update receiver_eta strmin).
#[export] Instance set_controls : FieldUpdate controls := ltac:(field_update receiver_eta controls).
#[export] Instance set_next_control : FieldUpdate next_control := ltac:(field_update receiver_eta next_control).
#[export] Instance set_read_queue : FieldUpdate read_queue := ltac:(field_update receiver_eta read_queue).
#[export] Instance set_so_sb_cc : FieldUpdate so_sb_cc := ltac:(field_update receiver_eta so_sb_cc).
#[export] Instance set_so_sb_mbcnt : FieldUpdate so_sb_mbcnt := ltac:(field_update receiver_eta so_sb_mbcnt).
#[export] Instance set_resetHead : FieldUpdate resetHead := ltac:(field_update receiver_eta resetHead).
#[export] Instance set_pending_reply_queue : FieldUpdate pending_reply_queue :=
  ltac:(field_update receiver_eta pending_reply_queue).
#[export] Instance set_allocs : FieldUpdate allocs := ltac:(field_update receiver_eta allocs).
#[export] Instance set_rx_effects : FieldUpdate effects := ltac:(field_update receiver_eta effects).

#[export] Instance set_sb_cc : FieldUpdate sb_cc := ltac:(field_update ack_state_eta sb_cc).
#[export] Instance set_my_rwnd_control_len : FieldUpdate my_rwnd_control_len :=
  ltac:(field_update ack_state_eta my_rwnd_control_len).
#[export] Instance set_size_on_reasm_queue : FieldUpdate size_on_reasm_queue :=
  ltac:(field_update ack_state_eta size_on_reasm_queue).
#[export] Instance set_cnt_on_reasm_queue : FieldUpdate cnt_on_reasm_queue :=
  ltac:(field_update ack_state_eta cnt_on_reasm_queue).
#[export] Instance set_size_on_all_streams : FieldUpdate size_on_all_streams :=
  ltac:(field_update ack_state_eta size_on_all_streams).
#[export] Instance set_cnt_on_all_streams : FieldUpdate cnt_on_all_streams :=
  ltac:(field_update ack_state_eta cnt_on_all_streams).
#[export] Instance set_last_data_chunk_from : FieldUpdate last_data_chunk_from :=
  ltac:(field_update ack_state_eta last_data_chunk_from).

(** What does not change: of the association and the endpoint, the settings, and the
    outcome of the [k]-th allocation.  [so_hiwat] is the limit of the receive buffer,
    [None] without a socket; [cant_read] and [socket_gone] are bits of [sctp_flags]. *)
Record rx_env := RxEnv {
  idata_supported : Z;
  so_hiwat : option Z;
  partial_delivery_point : Z;
  recv_callback : bool;
  cant_read : bool;
  socket_gone : bool;
  sctp_do_drain : Z;
  sctp_max_chunks_on_queue : Z;
  rx_alloc : nat -> bool
}.

(** ** The store *)

Definition ctl (s : receiver) (p : nat) : option queued_to_read := controls s !! p.
Definition put_ctl (p : nat) (c : queued_to_read) (s : receiver) : receiver :=
  s <| controls := <[p := c]> (controls s) |>.

(** [sctp_free_a_readq] *)
Definition free_ctl (p : nat) (s : receiver) : receiver := s <| controls := delete p (controls s) |>.

(** [sctp_alloc_a_readq] and the initialisation of the new control. *)
Definition alloc_ok (env : rx_env) (s : receiver) : bool * receiver :=
  (rx_alloc env (allocs s), s <| allocs := S (allocs s) |>).

Definition new_ctl (c : queued_to_read) (s : receiver) : nat * receiver :=
  (next_control s, (s <| controls := <[next_control s := c]> (controls s) |>) <| next_control := S (next_control s) |>).

Definition strm (s : receiver) (sid : nat) : option stream_in := strmin s !! sid.
Definition put_strm (sid : nat) (x : stream_in) (s : receiver) : receiver :=
  s <| strmin := <[sid := x]> (strmin s) |>.

Definition emit (e : rx_effect) (s : receiver) : receiver := s <| effects := effects s ++ [e] |>.

Definition on_ack (f : ack_state -> ack_state) (s : receiver) : receiver := s <| ack := f (ack s) |>.

(** [TAILQ_INSERT_TAIL]: the entry must not be on the queue. *)
Definition insert_tail (q : list nat) (p : nat) : option (list nat) :=
  if decide (p ∈ q) then None else Some (q ++ [p]).

(** [TAILQ_REMOVE] from one of the two queues of a stream. *)
Definition unlink_ordered (sid p : nat) (s : receiver) : option receiver :=
  x ← strm s sid; q ← TAILQ_REMOVE (inqueue x) p; Some (put_strm sid (x <| inqueue := q |>) s).
Definition unlink_unordered (sid p : nat) (s : receiver) : option receiver :=
  x ← strm s sid; q ← TAILQ_REMOVE (uno_inqueue x) p; Some (put_strm sid (x <| uno_inqueue := q |>) s).

(** ** Counters (sctp_var.h) *)

(** [SCTP_SAVE_ATOMIC_DECREMENT] *)
Definition save_decr (x v : Z) : Z := if i32 x <? v then 0 else u32 (x - v).

Definition sctp_ucount_incr (v : Z) : Z := u32 (v + 1).
Definition sctp_ucount_decr (v : Z) : Z := if 0 <? v then v - 1 else 0.

Definition sctp_sballoc (m : mbuf) (s : receiver) : receiver :=
  let s := (s <| so_sb_cc := u32 (so_sb_cc s + m_len m) |>)
             <| so_sb_mbcnt := u32 (so_sb_mbcnt s + MSIZE) |> in
  on_ack (fun a => (a <| sb_cc := u32 (sb_cc a + m_len m) |>)
                     <| my_rwnd_control_len := u32 (my_rwnd_control_len a + MSIZE) |>) s.

Definition sctp_sbfree (m : mbuf) (s : receiver) : receiver :=
  let s := (s <| so_sb_cc := save_decr (so_sb_cc s) (m_len m) |>)
             <| so_sb_mbcnt := save_decr (so_sb_mbcnt s) MSIZE |> in
  on_ack (fun a => (a <| sb_cc := save_decr (sb_cc a) (m_len m) |>)
                     <| my_rwnd_control_len := save_decr (my_rwnd_control_len a) MSIZE |>) s.

Definition sballoc_all (l : list mbuf) (s : receiver) : receiver := fold_left (fun s m => sctp_sballoc m s) l s.
Definition sbfree_all (l : list mbuf) (s : receiver) : receiver := fold_left (fun s m => sctp_sbfree m s) l s.

(** "if (asoc->size_on_all_streams >= control->length) ... -= ...; else ... = 0", and the
    count of messages. *)
Definition leave_streams (length : Z) (a : ack_state) : ack_state :=
  (a <| size_on_all_streams :=
          if length <=? size_on_all_streams a then size_on_all_streams a - length else 0 |>)
    <| cnt_on_all_streams := sctp_ucount_decr (cnt_on_all_streams a) |>.

(** The same for a fragment and the reassembly queue. *)
Definition leave_reasm (size : Z) (a : ack_state) : ack_state :=
  (a <| size_on_reasm_queue :=
          if size <=? size_on_reasm_queue a then size_on_reasm_queue a - size else 0 |>)
    <| cnt_on_reasm_queue := sctp_ucount_decr (cnt_on_reasm_queue a) |>.

Definition join_reasm (size : Z) (a : ack_state) : ack_state :=
  (a <| size_on_reasm_queue := u32 (size_on_reasm_queue a + size) |>)
    <| cnt_on_reasm_queue := sctp_ucount_incr (cnt_on_reasm_queue a) |>.

Definition add_on_streams (n : Z) (a : ack_state) : ack_state :=
  a <| size_on_all_streams := u32 (size_on_all_streams a + n) |>.

(** [sctp_mark_non_revokable] *)
Definition mark_non_revokable (env : rx_env) (tsn : Z) (s : receiver) : option receiver :=
  m ← sctp_mark_non_revokable (sctp_do_drain env) (arrays (ack s)) tsn;
  Some (on_ack (fun a => a <| arrays := m |>) s).

(** ** The bytes of a message *)

Definition nonempty (m : mbuf) : bool := negb (m_len m =? 0).

(** The sum of the lengths, as it is added up in 32 bits. *)
Definition sum_len (l : list mbuf) : Z := fold_left (fun n m => u32 (n + m_len m)) l 0.

(** [prev] after the loop that skips mbufs without data: the last one kept, [start] if it
    is at place [start] of the chain. *)
Definition last_place (start : nat) (kept : list mbuf) : option nat :=
  match kept with [] => None | _ => Some (start + (length kept - 1))%nat end.

Definition sctp_setup_tail_pointer (p : nat) (s : receiver) : option receiver :=
  c ← ctl s p;
  let kept := filter nonempty (data c) in
  let s := if on_read_q c =? 0 then s else sballoc_all kept s in
  let tail := match data c with [] => tail_mbuf c | _ => last_place 0 kept end in
  Some (put_ctl p ((c <| ctl_length := sum_len kept |> <| data := kept |>) <| tail_mbuf := tail |>) s).

(** The result is [*added], which the caller starts with 0. *)
Definition sctp_add_to_tail_pointer (p : nat) (m : list mbuf) (s : receiver) : option (Z * receiver) :=
  c ← ctl s p;
  if negb (has_stcb c) then Some (0, s)
  else
    match tail_mbuf c with
    | None =>
        s ← sctp_setup_tail_pointer p (put_ctl p (c <| data := m |>) s);
        Some (0, s)
    | Some t =>
        if (length (data c) <=? t)%nat then None
        else
          let kept := filter nonempty m in
          let s := if on_read_q c =? 0 then s else sballoc_all kept s in
          let tail := match m with [] => Some t | _ => last_place (S t) kept end in
          Some (sum_len kept,
                put_ctl p (((c <| ctl_length := u32 (ctl_length c + sum_len kept) |>)
                              <| data := take (S t) (data c) ++ kept |>) <| tail_mbuf := tail |>) s)
    end.

(** The end of a message is on the control: it leaves the queue of its stream when it is
    being read already. *)
Definition complete_chk (sid p : nat) (s : receiver) : option receiver :=
  c ← ctl s p;
  s ← (if (on_strm_q c =? 0) || (on_read_q c =? 0) then Some s
       else
         x ← strm s sid;
         let '(c, s) := (if pdapi_started c =? 0 then (c, s)
                         else (c <| pdapi_started := 0 |>, put_strm sid (x <| pd_api_started := 0 |>) s)) in
         if on_strm_q c =? SCTP_ON_UNORDERED then
           s ← unlink_unordered sid p s; Some (put_ctl p (c <| on_strm_q := 0 |>) s)
         else if on_strm_q c =? SCTP_ON_ORDERED then
           s ← unlink_ordered sid p s;
           Some (put_ctl p (c <| on_strm_q := 0 |>) (on_ack (leave_streams (ctl_length c)) s))
         else Some (put_ctl p c s));
  c ← ctl s p;
  Some (put_ctl p ((c <| end_added := 1 |>) <| last_frag_seen := 1 |>) s).

(** Merge a fragment into its control; the result is the number of bytes added.  The
    fragment has been taken off the list. *)
Definition sctp_add_chk_to_control (env : rx_env) (sid p : nat) (chk : rx_chunk) (s : receiver)
  : option (Z * receiver) :=
  c ← ctl s p;
  r ← (match data c with
       | [] => s ← sctp_setup_tail_pointer p (put_ctl p (c <| data := chk_data chk |>) s); Some (0, s)
       | _ => sctp_add_to_tail_pointer p (chk_data chk) s
       end);
  let '(added, s) := (r : Z * receiver) in
  c ← ctl s p;
  let s := put_ctl p (c <| fsn_included := rec_fsn chk |>) s in
  let s := on_ack (fun a => (a <| size_on_reasm_queue := u32 (size_on_reasm_queue a - send_size chk) |>)
                              <| cnt_on_reasm_queue := sctp_ucount_decr (cnt_on_reasm_queue a) |>) s in
  s ← mark_non_revokable env (rec_tsn chk) s;
  c ← ctl s p;
  let s := if has_flag (rcv_flags chk) SCTP_DATA_FIRST_FRAG
           then put_ctl p (((c <| first_frag_seen := 1 |>) <| sinfo_tsn := rec_tsn chk |>)
                             <| sinfo_ppid := rec_ppid chk |>) s
           else s in
  s ← (if has_flag (rcv_flags chk) SCTP_DATA_LAST_FRAG then complete_chk sid p s else Some s);
  Some (added, s).

(** ** To the application *)

Definition pd_point (env : rx_env) : Z :=
  match so_hiwat env with
  | Some hiwat => Z.min (Z.shiftr hiwat SCTP_PARTIAL_DELIVERY_SHIFT) (partial_delivery_point env)
  | None => partial_delivery_point env
  end.

(** The part under the lock: the data are copied out, and a complete message is freed. *)
Definition call_up (c : queued_to_read) (bytes : list Z) : upcall :=
  Upcall bytes (sinfo_stream c) (u16 (mid c)) (sinfo_flags c) (sinfo_ppid c) (sinfo_tsn c)
    (sinfo_cumtsn c) (end_added c =? 1).

Definition sctp_invoke_recv_callback (env : rx_env) (p : nat) (s : receiver) : option receiver :=
  if negb (recv_callback env) then Some s
  else
    match so_hiwat env with
    | None => Some s
    | Some _ =>
        c ← ctl s p;
        let length := ctl_length c in
        if (end_added c =? 1) || (pd_point env <=? length) then
          let '(ok, s) := alloc_ok env s in
          if negb ok then Some s
          else
            let s := sbfree_all (data c) s in
            buffer ← m_copydata (data c) 0 length;
            let c' := ((c <| data := [] |>) <| tail_mbuf := None |>) <| ctl_length := 0 |> in
            s ← (if end_added c =? 0 then Some (put_ctl p c' s)
                 else
                   q ← TAILQ_REMOVE (read_queue s) p;
                   Some (free_ctl p (s <| read_queue := q |>)));
            Some (emit (RecvCallback (call_up c buffer)) s)
        else Some s
    end.

(** [end_] says that the message is complete. *)
Definition sctp_add_to_readq (env : rx_env) (p : nat) (end_ : Z) (s : receiver) : option receiver :=
  c ← ctl s p;
  if cant_read env then Some (free_ctl p s)
  else
    let kept := filter nonempty (data c) in
    s ← (match so_hiwat env, kept with None, _ :: _ => None | _, _ => Some (sballoc_all kept s) end);
    match last_place 0 kept with
    | None => Some (free_ctl p s)
    | Some t =>
        let c := ((c <| ctl_length := sum_len kept |>) <| data := kept |>) <| tail_mbuf := Some t |> in
        let c := if end_ =? 0 then c else c <| end_added := 1 |> in
        q ← insert_tail (read_queue s) p;
        let s := put_ctl p (c <| on_read_q := 1 |>) (s <| read_queue := q |>) in
        s ← sctp_invoke_recv_callback env p s;
        Some (match so_hiwat env with Some _ => emit WakeReader s | None => s end)
    end.
