(* ===== verification/AuthKeys.v ===== *)
(** * Authentication keys: [sctp_auth.c], keys and shared-key lists

    A key is its [keylen] bytes.  Both ends of an association derive the same
    association key from the two random vectors and the shared key
    ([sctp_compute_hashkey]).  Shared keys live in a list sorted by key id, with a
    reference count that queued messages hold; the cached association keys in
    [authinfo] must follow every change of the list.  The allocator is an
    argument: [malloc n] is either [None] or [n] bytes of unspecified contents. *)

From S2P Require Import Prelude Sha1 AuthLists.

Open Scope sctp_scope.

(** ** Keys *)

Definition sctp_key : Type := list Z.

Definition sctp_get_keylen (key : option sctp_key) : Z :=
  match key with Some k => Z.of_nat (length k) | None => 0 end.

(** The loop of [sctp_compare_key]: [i] runs to [maxlen], the pointers advance
    once the left padding is over. *)
Fixpoint compare_loop (fuel : nat) (i maxlen key1len key2len : Z) (key_1 key_2 : list Z) : option Z :=
  match fuel with
  | O => None
  | S fuel =>
      if i <? maxlen then
        '(val1, key_1) ← (if i <? (maxlen -u32 key1len) then Some (0, key_1)
                          else match key_1 with v :: k => Some (v, k) | [] => None end);
        '(val2, key_2) ← (if i <? (maxlen -u32 key2len) then Some (0, key_2)
                          else match key_2 with v :: k => Some (v, k) | [] => None end);
        if val1 >? val2 then Some 1
        else if val1 <? val2 then Some (-1)
        else compare_loop fuel (i +u32 1) maxlen key1len key2len key_1 key_2
      else
        Some (if key1len =? key2len then 0 else if key1len <? key2len then -1 else 1)
  end.

Definition sctp_compare_key (key1 key2 : option sctp_key) : option Z :=
  let key1len := sctp_get_keylen key1 in
  let key2len := sctp_get_keylen key2 in
  match key1, key2 with
  | Some key_1, Some key_2 =>
      if (key1len =? 0) && (key2len =? 0) then Some 0
      else if key1len =? 0 then Some (-1)
      else if key2len =? 0 then Some 1
      else
        let maxlen := if key1len <? key2len then key2len else key1len in
        compare_loop (S (Z.to_nat maxlen)) 0 maxlen key1len key2len key_1 key_2
  | _, _ =>
      if (key1len =? 0) && (key2len =? 0) then Some 0
      else if key1len =? 0 then Some (-1) else Some 1
  end.

Section Allocator.

Context (malloc : Z -> option (list Z)).

Definition sctp_alloc_key (keylen : Z) : option sctp_key := malloc keylen.

(** [SCTP_READ_RANDOM] fills the key; the bytes come from [rnd]. *)
Definition sctp_generate_random_key (rnd : nat -> Z) (keylen : Z) : option sctp_key :=
  k ← sctp_alloc_key keylen;
  Some (map rnd (seq 0 (length k))).

(** The outer [None] is a copy outside the two buffers. *)
Definition sctp_set_key (key : list Z) (keylen : Z) : option (option sctp_key) :=
  match sctp_alloc_key keylen with
  | None => Some None
  | Some k => k ← block_memcpy k 0 key keylen; Some (Some k)
  end.

(** [if (sctp_get_keylen(k)) { memcpy(key_ptr, k->key, k->keylen); key_ptr += k->keylen; }] *)
Definition append_key (st : list Z * Z) (k : option sctp_key) : option (list Z * Z) :=
  let '(buf, pos) := st in
  match k with
  | Some bytes =>
      if sctp_get_keylen k =? 0 then Some (buf, pos)
      else buf ← block_memcpy buf pos bytes (sctp_get_keylen k);
           Some (buf, pos + sctp_get_keylen k)
  | None => Some (buf, pos)
  end.

Definition sctp_compute_hashkey (key1 key2 shared : option sctp_key) : option (option sctp_key) :=
  let keylen := u32 (sctp_get_keylen key1 + sctp_get_keylen key2 + sctp_get_keylen shared) in
  if 0 <? keylen then
    match sctp_alloc_key keylen with
    | None => Some None
    | Some buf =>
        c ← sctp_compare_key key1 key2;
        st ← append_key (buf, 0) shared;
        st ← append_key st (if c <=? 0 then key1 else key2);
        st ← append_key st (if c <=? 0 then key2 else key1);
        Some (Some st.1)
    end
  else Some None.

End Allocator.

(** ** Shared keys *)

Definition EINVAL : Z := 22.
Definition EBUSY : Z := 16.
Definition ENOMEM : Z := 12.

Record sctp_sharedkey := SKey {
  sk_key : option sctp_key; sk_refcount : Z; sk_keyid : Z; sk_deactivated : Z
}.

Definition sctp_alloc_sharedkey (ok : bool) : option sctp_sharedkey :=
  if ok then Some (SKey None 1 0 0) else None.

Definition set_refcount (k : sctp_sharedkey) (n : Z) : sctp_sharedkey :=
  SKey (sk_key k) n (sk_keyid k) (sk_deactivated k).

Definition set_deactivated (k : sctp_sharedkey) (d : Z) : sctp_sharedkey :=
  SKey (sk_key k) (sk_refcount k) (sk_keyid k) d.

(** Dropping a reference; [None] when the last one is gone and the key is
    freed. *)
Definition sctp_free_sharedkey (k : sctp_sharedkey) : option sctp_sharedkey :=
  if sk_refcount k =? 1 then None else Some (set_refcount k (u32 (sk_refcount k - 1))).

Fixpoint sctp_find_sharedkey (keys : list sctp_sharedkey) (key_id : Z) : option sctp_sharedkey :=
  match keys with
  | [] => None
  | k :: keys => if sk_keyid k =? key_id then Some k else sctp_find_sharedkey keys key_id
  end.

(** The [LIST_FOREACH] of [sctp_insert_sharedkey].  A replaced key is unlinked
    and one reference to it dropped, so it is out of the list either way. *)
Fixpoint insert_loop (keys : list sctp_sharedkey) (new : sctp_sharedkey)
  : Z * list sctp_sharedkey :=
  match keys with
  | [] => (EINVAL, [])
  | skey :: rest =>
      if sk_keyid new <? sk_keyid skey then (0, new :: skey :: rest)
      else if sk_keyid new =? sk_keyid skey then
        if negb (sk_deactivated skey =? 0) && (1 <? sk_refcount skey)
        then (EBUSY, skey :: rest)
        else (0, new :: rest)
      else match rest with
           | [] => (0, [skey; new])
           | _ :: _ => let '(r, rest) := insert_loop rest new in (r, skey :: rest)
           end
  end.

Definition sctp_insert_sharedkey (keys : list sctp_sharedkey) (new : option sctp_sharedkey)
  : Z * list sctp_sharedkey :=
  match new with
  | None => (EINVAL, keys)
  | Some new =>
      match keys with
      | [] => (0, [new])
      | _ :: _ => insert_loop keys new
      end
  end.

(** A change of the first key with the given id, in place. *)
Fixpoint update_key (keys : list sctp_sharedkey) (id : Z) (f : sctp_sharedkey -> sctp_sharedkey)
  : list sctp_sharedkey :=
  match keys with
  | [] => []
  | k :: keys => if sk_keyid k =? id then f k :: keys else k :: update_key keys id f
  end.

Fixpoint remove_key (keys : list sctp_sharedkey) (id : Z) : list sctp_sharedkey :=
  match keys with
  | [] => []
  | k :: keys => if sk_keyid k =? id then keys else k :: remove_key keys id
  end.

(** [sctp_copy_sharedkey]; the key text is copied with [sctp_set_key]. *)
Definition sctp_copy_sharedkey (malloc : Z -> option (list Z)) (ok : bool) (skey : sctp_sharedkey)
  : option (option sctp_sharedkey) :=
  match sctp_alloc_sharedkey ok with
  | None => Some None
  | Some n =>
      key ← match sk_key skey with
            | Some k => sctp_set_key malloc k (sctp_get_keylen (Some k))
            | None => Some None
            end;
      Some (Some (SKey key (sk_refcount n) (sk_keyid skey) (sk_deactivated n)))
  end.

(** The loop over the source list; [ok] is the outcome of each allocation of a
    list entry. *)
Fixpoint sctp_copy_skeylist (malloc : Z -> option (list Z)) (ok : nat -> bool)
  (src dest : list sctp_sharedkey) : option (Z * list sctp_sharedkey) :=
  match src with
  | [] => Some (0, dest)
  | skey :: src =>
      n ← sctp_copy_sharedkey malloc (ok (length src)) skey;
      let '(inserted, dest) :=
        match n with
        | None => (false, dest)
        | Some n => let '(r, dest) := sctp_insert_sharedkey dest (Some n) in (r =? 0, dest)
        end in
      '(count, dest) ← sctp_copy_skeylist malloc ok src dest;
      Some ((if inserted then 1 else 0) + count, dest)
  end.

(** ** The authentication state of an association *)

Record sctp_authinfo := AuthInfo {
  ai_random : option sctp_key;
  ai_random_len : Z;
  ai_peer_random : option sctp_key;
  ai_assoc_key : option sctp_key;
  ai_recv_key : option sctp_key;
  ai_active_keyid : Z;
  ai_assoc_keyid : Z;
  ai_recv_keyid : Z
}.

(** The indications that leave the component: to the upper layer, that a key is
    no longer used or that the peer has switched to another one; to the peer, an
    error chunk with an unsupported HMAC identifier. *)
Inductive auth_event :=
| SCTP_NOTIFY_AUTH_FREE_KEY (keyid : Z)
| SCTP_AUTH_NEW_KEY (keyid alt_keyid : Z)
| SCTP_CAUSE_UNSUPPORTED_HMACID (hmac_id : Z).

(** The part of [struct sctp_association] this component owns. *)
Record auth_assoc := AuthAssoc {
  authinfo : sctp_authinfo;
  shared_keys : list sctp_sharedkey;
  local_hmacs : option sctp_hmaclist;
  peer_hmacs : option sctp_hmaclist;
  local_auth_chunks : option sctp_auth_chklist;
  peer_hmac_id : Z;
  notified : list auth_event
}.

Definition set_authinfo (a : auth_assoc) (i : sctp_authinfo) : auth_assoc :=
  AuthAssoc i (shared_keys a) (local_hmacs a) (peer_hmacs a) (local_auth_chunks a)
    (peer_hmac_id a) (notified a).

Definition set_shared_keys (a : auth_assoc) (k : list sctp_sharedkey) : auth_assoc :=
  AuthAssoc (authinfo a) k (local_hmacs a) (peer_hmacs a) (local_auth_chunks a)
    (peer_hmac_id a) (notified a).

Definition notify (a : auth_assoc) (e : auth_event) : auth_assoc :=
  AuthAssoc (authinfo a) (shared_keys a) (local_hmacs a) (peer_hmacs a) (local_auth_chunks a)
    (peer_hmac_id a) (notified a ++ [e]).

Definition set_assoc_key (i : sctp_authinfo) (k : option sctp_key) (id : Z) : sctp_authinfo :=
  AuthInfo (ai_random i) (ai_random_len i) (ai_peer_random i) k (ai_recv_key i)
    (ai_active_keyid i) id (ai_recv_keyid i).

Definition set_recv_key (i : sctp_authinfo) (k : option sctp_key) (id : Z) : sctp_authinfo :=
  AuthInfo (ai_random i) (ai_random_len i) (ai_peer_random i) (ai_assoc_key i) k
    (ai_active_keyid i) (ai_assoc_keyid i) id.

Definition set_active_keyid (i : sctp_authinfo) (id : Z) : sctp_authinfo :=
  AuthInfo (ai_random i) (ai_random_len i) (ai_peer_random i) (ai_assoc_key i) (ai_recv_key i)
    id (ai_assoc_keyid i) (ai_recv_keyid i).

Definition sctp_auth_key_acquire (a : auth_assoc) (key_id : Z) : auth_assoc :=
  match sctp_find_sharedkey (shared_keys a) key_id with
  | Some _ => set_shared_keys a
      (update_key (shared_keys a) key_id (fun k => set_refcount k (u32 (sk_refcount k + 1))))
  | None => a
  end.

(** [None] when the key is freed although it is still linked in the list. *)
Definition sctp_auth_key_release (a : auth_assoc) (key_id : Z) : option auth_assoc :=
  match sctp_find_sharedkey (shared_keys a) key_id with
  | Some skey =>
      let a := if (sk_refcount skey <=? 2) && negb (sk_deactivated skey =? 0)
               then notify a (SCTP_NOTIFY_AUTH_FREE_KEY key_id) else a in
      skey ← sctp_free_sharedkey skey;
      Some (set_shared_keys a (update_key (shared_keys a) key_id (fun _ => skey)))
  | None => Some a
  end.

Definition sctp_clear_cachedkeys (a : auth_assoc) (keyid : Z) : auth_assoc :=
  let a := if keyid =? ai_assoc_keyid (authinfo a)
           then set_authinfo a (set_assoc_key (authinfo a) None (ai_assoc_keyid (authinfo a))) else a in
  if keyid =? ai_recv_keyid (authinfo a)
  then set_authinfo a (set_recv_key (authinfo a) None (ai_recv_keyid (authinfo a))) else a.

Definition sctp_delete_sharedkey (a : auth_assoc) (keyid : Z) : Z * auth_assoc :=
  if keyid =? ai_active_keyid (authinfo a) then (-1, a)
  else match sctp_find_sharedkey (shared_keys a) keyid with
       | None => (-1, a)
       | Some skey =>
           if 1 <? sk_refcount skey then (-1, a)
           else (0, sctp_clear_cachedkeys
                      (set_shared_keys a (remove_key (shared_keys a) keyid)) keyid)
       end.

Definition sctp_auth_setactivekey (a : auth_assoc) (keyid : Z) : Z * auth_assoc :=
  match sctp_find_sharedkey (shared_keys a) keyid with
  | None => (-1, a)
  | Some skey =>
      if negb (sk_deactivated skey =? 0) && (1 <? sk_refcount skey) then (-1, a)
      else
        let a := set_authinfo a (set_active_keyid (authinfo a) keyid) in
        (0, set_shared_keys a (update_key (shared_keys a) keyid (fun k => set_deactivated k 0)))
  end.

Definition sctp_deact_sharedkey (a : auth_assoc) (keyid : Z) : Z * auth_assoc :=
  if keyid =? ai_active_keyid (authinfo a) then (-1, a)
  else match sctp_find_sharedkey (shared_keys a) keyid with
       | None => (-1, a)
       | Some skey =>
           let a := if sk_refcount skey =? 1
                    then notify a (SCTP_NOTIFY_AUTH_FREE_KEY keyid) else a in
           (0, set_shared_keys a (update_key (shared_keys a) keyid (fun k => set_deactivated k 1)))
       end.

(** [setsockopt(SCTP_AUTH_KEY)] on one association, after the length checks:
    [bytes] is the key text the user passed, [size] of them. *)
Definition setopt_auth_key (malloc : Z -> option (list Z)) (ok : bool) (a : auth_assoc)
  (keynumber : Z) (bytes : list Z) (size : Z) : option (Z * auth_assoc) :=
  let a := sctp_clear_cachedkeys a keynumber in
  key ← (if 0 <? size then sctp_set_key malloc bytes (u32 size) else Some None);
  if (0 <? size) && match key with None => true | Some _ => false end then Some (ENOMEM, a)
  else match sctp_alloc_sharedkey ok with
       | None => Some (ENOMEM, a)
       | Some n =>
           let n := SKey key (sk_refcount n) keynumber (sk_deactivated n) in
           let '(error, keys) := sctp_insert_sharedkey (shared_keys a) (Some n) in
           Some (error, set_shared_keys a keys)
       end.

(** ** The endpoint's defaults for new associations *)

Record auth_ep := AuthEp {
  ep_shared_keys : list sctp_sharedkey;
  default_keyid : Z;
  ep_local_hmacs : option sctp_hmaclist;
  ep_local_auth_chunks : option sctp_auth_chklist;
  sctp_asoc_list : list auth_assoc
}.

Definition set_ep_keys (e : auth_ep) (keys : list sctp_sharedkey) : auth_ep :=
  AuthEp keys (default_keyid e) (ep_local_hmacs e) (ep_local_auth_chunks e) (sctp_asoc_list e).

Definition sctp_clear_cachedkeys_ep (e : auth_ep) (keyid : Z) : auth_ep :=
  AuthEp (ep_shared_keys e) (default_keyid e) (ep_local_hmacs e) (ep_local_auth_chunks e)
    (map (fun a => sctp_clear_cachedkeys a keyid) (sctp_asoc_list e)).

Definition sctp_delete_sharedkey_ep (e : auth_ep) (keyid : Z) : Z * auth_ep :=
  if keyid =? default_keyid e then (-1, e)
  else match sctp_find_sharedkey (ep_shared_keys e) keyid with
       | None => (-1, e)
       | Some _ => (0, sctp_clear_cachedkeys_ep
                         (set_ep_keys e (remove_key (ep_shared_keys e) keyid)) keyid)
       end.

Definition sctp_auth_setactivekey_ep (e : auth_ep) (keyid : Z) : Z * auth_ep :=
  match sctp_find_sharedkey (ep_shared_keys e) keyid with
  | None => (-1, e)
  | Some _ => (0, AuthEp (ep_shared_keys e) keyid (ep_local_hmacs e) (ep_local_auth_chunks e)
                    (sctp_asoc_list e))
  end.

Definition sctp_deact_sharedkey_ep (e : auth_ep) (keyid : Z) : Z * auth_ep :=
  if keyid =? default_keyid e then (-1, e)
  else match sctp_find_sharedkey (ep_shared_keys e) keyid with
       | None => (-1, e)
       | Some _ => (0, set_ep_keys e (remove_key (ep_shared_keys e) keyid))
       end.
