(* ===== verification/AuthHmac.v ===== *)
(** * Message authentication: [sctp_auth.c], HMAC and the AUTH chunk

    HMAC (RFC 2104) over a buffer and over an mbuf chain, the computation of the
    AUTH chunk of an outgoing packet ([sctp_fill_hmac_digest_m]) and the check of
    an incoming one ([sctp_handle_auth]).  An mbuf chain is the list of its
    buffers' bytes.  A read or write outside a buffer is [None]; the unspecified
    contents of local arrays are arguments. *)

From S2P Require Import Prelude Sha1 AuthLists AuthKeys.

Open Scope sctp_scope.

(** ** Algorithms *)

Definition SCTP_AUTH_DIGEST_LEN_SHA1 : Z := 20.

Definition SCTP_SIZE32 (x : Z) : Z := Z.shiftl (Z.shiftr (x + 3) 2) 2.

Definition sctp_get_hmac_digest_len (hmac_algo : Z) : Z :=
  if hmac_algo =? SCTP_AUTH_HMAC_ID_SHA1 then SCTP_AUTH_DIGEST_LEN_SHA1 else 0.

(** [sizeof(struct sctp_auth_chunk)]. *)
Definition sizeof_auth_chunk : Z := 8.

Definition sctp_get_auth_chunk_len (hmac_algo : Z) : Z :=
  SCTP_SIZE32 (sizeof_auth_chunk + sctp_get_hmac_digest_len hmac_algo).

Definition sctp_get_hmac_block_len (hmac_algo : Z) : Z :=
  if hmac_algo =? SCTP_AUTH_HMAC_ID_SHA1 then 64 else 0.

(** [sctp_hash_context_t] is the SHA-1 context; an unknown algorithm leaves it
    as it is. *)
Definition sctp_hmac_init (hmac_algo : Z) (ctx : sctp_sha1_context) : sctp_sha1_context :=
  if hmac_algo =? SCTP_AUTH_HMAC_ID_SHA1 then sctp_sha1_init (ctx_block ctx) else ctx.

Definition sctp_hmac_update (hmac_algo : Z) (ctx : sctp_sha1_context) (text : list Z) (textlen : Z)
  : option sctp_sha1_context :=
  if hmac_algo =? SCTP_AUTH_HMAC_ID_SHA1 then sctp_sha1_update ctx text textlen else Some ctx.

(** The digest is written only by a known algorithm. *)
Definition sctp_hmac_final (hmac_algo : Z) (ctx : sctp_sha1_context) (digest : list Z)
  : list Z * sctp_sha1_context :=
  if hmac_algo =? SCTP_AUTH_HMAC_ID_SHA1 then sctp_sha1_final ctx else (digest, ctx).

(** [if (keylen > blocklen)]: the key the pads are made of. *)
Definition hash_long_key (hmac_algo : Z) (ctx : sctp_sha1_context) (key : list Z) (temp : list Z)
  : option (list Z * sctp_sha1_context) :=
  if Z.of_nat (length key) >? sctp_get_hmac_block_len hmac_algo then
    let ctx := sctp_hmac_init hmac_algo ctx in
    ctx ← sctp_hmac_update hmac_algo ctx key (Z.of_nat (length key));
    Some (sctp_hmac_final hmac_algo ctx temp)
  else Some (key, ctx).

(** The two pads: zeroes, the key copied in, every byte XORed. *)
Definition key_pad (hmac_algo : Z) (key : list Z) (x : Z) : option (list Z) :=
  p ← block_memcpy (replicate (Z.to_nat (sctp_get_hmac_block_len hmac_algo)) 0) 0 key
        (Z.of_nat (length key));
  Some (map (fun b => b ⊕ x) p).

(** The outer hash. *)
Definition hmac_outer (hmac_algo : Z) (ctx : sctp_sha1_context) (opad temp : list Z)
  : option (list Z) :=
  let ctx := sctp_hmac_init hmac_algo ctx in
  ctx ← sctp_hmac_update hmac_algo ctx opad (sctp_get_hmac_block_len hmac_algo);
  ctx ← sctp_hmac_update hmac_algo ctx temp (sctp_get_hmac_digest_len hmac_algo);
  Some (sctp_hmac_final hmac_algo ctx []).1.

(** ** HMAC of a buffer

    The digest length and the digest, [None] when nothing was written. *)
Definition sctp_hmac (hmac_algo : Z) (key text : option (list Z)) (ctx : sctp_sha1_context)
  (temp : list Z) : option (Z * option (list Z)) :=
  match key, text with
  | Some key, Some text =>
      if (Z.of_nat (length key) =? 0) || (Z.of_nat (length text) =? 0) then Some (0, None)
      else
        let digestlen := sctp_get_hmac_digest_len hmac_algo in
        if digestlen =? 0 then Some (0, None)
        else
          '(key, ctx) ← hash_long_key hmac_algo ctx key temp;
          ipad ← key_pad hmac_algo key 0x36;
          opad ← key_pad hmac_algo key 0x5c;
          let ctx := sctp_hmac_init hmac_algo ctx in
          ctx ← sctp_hmac_update hmac_algo ctx ipad (sctp_get_hmac_block_len hmac_algo);
          ctx ← sctp_hmac_update hmac_algo ctx text (Z.of_nat (length text));
          let '(temp, ctx) := sctp_hmac_final hmac_algo ctx temp in
          digest ← hmac_outer hmac_algo ctx opad temp;
          Some (digestlen, Some digest)
  | _, _ => Some (0, None)
  end.

(** ** HMAC of an mbuf chain *)

(** Find the mbuf the offset lies in. *)
Fixpoint m_seek (m : list (list Z)) (m_offset : Z) : list (list Z) * Z :=
  match m with
  | [] => ([], m_offset)
  | b :: rest =>
      if Z.of_nat (length b) <=? m_offset
      then m_seek rest (m_offset -u32 Z.of_nat (length b)) else (m, m_offset)
  end.

(** Feed the rest of the chain; a trailer is left out of the last mbuf. *)
Fixpoint hmac_chain (hmac_algo : Z) (ctx : sctp_sha1_context) (m : list (list Z))
  (m_offset trailer : Z) : option sctp_sha1_context :=
  match m with
  | [] => Some ctx
  | b :: rest =>
      let len := if match rest with [] => true | _ => false end && negb (trailer =? 0)
                 then u32 (Z.of_nat (length b) - (trailer + m_offset))
                 else u32 (Z.of_nat (length b) - m_offset) in
      ctx ← sctp_hmac_update hmac_algo ctx (drop (Z.to_nat m_offset) b) len;
      hmac_chain hmac_algo ctx rest 0 trailer
  end.

Definition sctp_hmac_m (hmac_algo : Z) (key : option (list Z)) (m : list (list Z)) (m_offset : Z)
  (trailer : Z) (ctx : sctp_sha1_context) (temp : list Z) : option (Z * option (list Z)) :=
  match key, m with
  | Some key, _ :: _ =>
      if Z.of_nat (length key) =? 0 then Some (0, None)
      else
        let digestlen := sctp_get_hmac_digest_len hmac_algo in
        if digestlen =? 0 then Some (0, None)
        else
          '(key, ctx) ← hash_long_key hmac_algo ctx key temp;
          ipad ← key_pad hmac_algo key 0x36;
          opad ← key_pad hmac_algo key 0x5c;
          let ctx := sctp_hmac_init hmac_algo ctx in
          ctx ← sctp_hmac_update hmac_algo ctx ipad (sctp_get_hmac_block_len hmac_algo);
          let '(m_tmp, m_offset) := m_seek m m_offset in
          ctx ← hmac_chain hmac_algo ctx m_tmp m_offset trailer;
          let '(temp, ctx) := sctp_hmac_final hmac_algo ctx temp in
          digest ← hmac_outer hmac_algo ctx opad temp;
          Some (digestlen, Some digest)
  | _, _ => Some (0, None)
  end.

(** [memcmp(digest, temp, digestlen) != 0] is a difference of the bytes. *)
Definition sctp_verify_hmac (hmac_algo : Z) (key text : option (list Z)) (digest : list Z)
  (digestlen : Z) (ctx : sctp_sha1_context) (temp : list Z) : option Z :=
  match key, text with
  | Some k, Some t =>
      if (Z.of_nat (length k) =? 0) || (Z.of_nat (length t) =? 0) then Some (-1)
      else
        let len := sctp_get_hmac_digest_len hmac_algo in
        if (len =? 0) || negb (digestlen =? len) then Some (-1)
        else
          '(n, d) ← sctp_hmac hmac_algo key text ctx temp;
          if negb (n =? len) then Some (-1)
          else d ← d;
               Some (if bool_decide (take (Z.to_nat digestlen) digest = take (Z.to_nat digestlen) d)
                     then 0 else -1)
  | _, _ => Some (-1)
  end.

(** The key is shortened in place when it is longer than a block; the third
    component is the key afterwards. *)
Definition sctp_compute_hmac (hmac_algo : Z) (key : option sctp_key) (text : option (list Z))
  (ctx : sctp_sha1_context) (temp : list Z) : option (Z * option (list Z) * option sctp_key) :=
  match key, text with
  | Some k, Some t =>
      if (Z.of_nat (length t) =? 0) || (sctp_get_hmac_digest_len hmac_algo =? 0)
      then Some (0, None, key)
      else
        '(k, ctx) ← hash_long_key hmac_algo ctx k temp;
        r ← sctp_hmac hmac_algo (Some k) text ctx temp;
        Some (r, Some k)
  | _, _ => Some (0, None, key)
  end.

Definition sctp_compute_hmac_m (hmac_algo : Z) (key : option sctp_key) (m : list (list Z))
  (m_offset : Z) (ctx : sctp_sha1_context) (temp : list Z)
  : option (Z * option (list Z) * option sctp_key) :=
  match key, m with
  | Some k, _ :: _ =>
      if sctp_get_hmac_digest_len hmac_algo =? 0 then Some (0, None, key)
      else
        '(k, ctx) ← hash_long_key hmac_algo ctx k temp;
        r ← sctp_hmac_m hmac_algo (Some k) m m_offset 0 ctx temp;
        Some (r, Some k)
  | _, _ => Some (0, None, key)
  end.

(** ** Writing into a packet *)

(** Zero bytes in one buffer. *)
Definition buf_zero (b : list Z) (off n : Z) : option (list Z) :=
  block_memcpy b off (replicate (Z.to_nat n) 0) n.

(** The second loop of [sctp_zero_m]. *)
Fixpoint zero_chain (m : list (list Z)) (m_offset size : Z) : option (list (list Z)) :=
  match m with
  | [] => Some []
  | b :: rest =>
      if 0 <? size then
        let len := Z.of_nat (length b) in
        if len <? size then
          b ← buf_zero b m_offset len;
          rest ← zero_chain rest 0 (u32 (size - len));
          Some (b :: rest)
        else
          b ← buf_zero b m_offset size;
          Some (b :: rest)
      else Some m
  end.

Fixpoint zero_seek (m : list (list Z)) (m_offset size : Z) : option (list (list Z)) :=
  match m with
  | [] => Some []
  | b :: rest =>
      if Z.of_nat (length b) <=? m_offset then
        rest ← zero_seek rest (m_offset -u32 Z.of_nat (length b)) size;
        Some (b :: rest)
      else zero_chain m m_offset size
  end.

Definition sctp_zero_m (m : list (list Z)) (m_offset size : Z) : option (list (list Z)) :=
  zero_seek m m_offset size.

(** A write through a pointer into the buffer that holds the given offset. *)
Fixpoint chain_write (m : list (list Z)) (off : Z) (bytes : list Z) : option (list (list Z)) :=
  match m with
  | [] => None
  | b :: rest =>
      if Z.of_nat (length b) <=? off then
        rest ← chain_write rest (off - Z.of_nat (length b)) bytes;
        Some (b :: rest)
      else
        b ← block_memcpy b off bytes (Z.of_nat (length bytes));
        Some (b :: rest)
  end.

(** ** The AUTH chunk *)

Section Packets.

Context (malloc : Z -> option (list Z)).
(** The uninitialised local variables. *)
Context (ctx0 : sctp_sha1_context) (stack : list Z).

(** The association key to send with, cached under its key id. *)
Definition cache_send_key (a : auth_assoc) (keyid : Z) : option auth_assoc :=
  let i := authinfo a in
  if negb (keyid =? ai_assoc_keyid i) || match ai_assoc_key i with None => true | Some _ => false end
  then
    let key := sctp_find_sharedkey (shared_keys a) keyid ≫= sk_key in
    k ← sctp_compute_hashkey malloc (ai_random i) (ai_peer_random i) key;
    Some (set_authinfo a (set_assoc_key i k keyid))
  else Some a.

(** [auth] points to the AUTH chunk at [auth_offset] of the chain, in one
    buffer. *)
Definition sctp_fill_hmac_digest_m (m : list (list Z)) (auth_offset : Z) (a : auth_assoc)
  (keyid : Z) : option (list (list Z) * auth_assoc) :=
  let digestlen := sctp_get_hmac_digest_len (peer_hmac_id a) in
  m ← chain_write m (auth_offset + 8) (replicate (Z.to_nat (SCTP_SIZE32 digestlen)) 0);
  a ← cache_send_key a keyid;
  m ← chain_write m (auth_offset + 4) (htons_bytes keyid);
  '(_, digest, k) ← sctp_compute_hmac_m (peer_hmac_id a) (ai_assoc_key (authinfo a)) m auth_offset
                      ctx0 stack;
  let a := set_authinfo a (set_assoc_key (authinfo a) k (ai_assoc_keyid (authinfo a))) in
  match digest with
  | None => Some (m, a)
  | Some d => m ← chain_write m (auth_offset + 8) d; Some (m, a)
  end.

(** The key to check with, cached under its key id; [None] inside when the key
    id is unknown. *)
Definition cache_recv_key (a : auth_assoc) (shared_key_id : Z) : option (option auth_assoc) :=
  let i := authinfo a in
  if match ai_recv_key i with None => true | Some _ => false end
     || negb (ai_recv_keyid i =? shared_key_id)
  then
    match sctp_find_sharedkey (shared_keys a) shared_key_id with
    | None => Some None
    | Some skey =>
        let a := if negb (ai_recv_keyid i =? shared_key_id)
                 then notify a (SCTP_AUTH_NEW_KEY shared_key_id (ai_recv_keyid i)) else a in
        k ← sctp_compute_hashkey malloc (ai_random i) (ai_peer_random i) (sk_key skey);
        Some (Some (set_authinfo a (set_recv_key i k shared_key_id)))
    end
  else Some (Some a).

(** [auth] is the chunk, copied out of the packet by the caller, [m] and
    [offset] the packet and where the chunk starts in it; [err_ok] says whether
    the error chunk could be allocated. *)
Definition sctp_handle_auth (err_ok : bool) (a : auth_assoc) (auth : list Z) (m : list (list Z))
  (offset : Z) : option (Z * auth_assoc * list (list Z)) :=
  let chunklen := ntohs_at auth 1 in
  if chunklen <? sizeof_auth_chunk then Some (-1, a, m)
  else
    let shared_key_id := ntohs_at auth 2 in
    let hmac_id := ntohs_at auth 3 in
    if negb (sctp_auth_is_supported_hmac (local_hmacs a) hmac_id) then
      Some (-1, if err_ok then notify a (SCTP_CAUSE_UNSUPPORTED_HMACID hmac_id) else a, m)
    else
      cached ← cache_recv_key a shared_key_id;
      match cached with
      | None => Some (-1, a, m)
      | Some a =>
          let digestlen := sctp_get_hmac_digest_len hmac_id in
          if chunklen <? sizeof_auth_chunk + digestlen then Some (-1, a, m)
          else
            digest ← (if Z.of_nat (length auth) <? sizeof_auth_chunk + digestlen then None
                      else Some (take (Z.to_nat digestlen) (drop 8 auth)));
            m ← sctp_zero_m m (u32 (offset + sizeof_auth_chunk)) (SCTP_SIZE32 digestlen);
            '(_, d, k) ← sctp_compute_hmac_m hmac_id (ai_recv_key (authinfo a)) m offset ctx0 stack;
            let a := set_authinfo a (set_recv_key (authinfo a) k (ai_recv_keyid (authinfo a))) in
            let computed_digest := default stack d in
            if bool_decide (digest = take (Z.to_nat digestlen) computed_digest)
            then Some (0, a, m) else Some (-1, a, m)
      end.

End Packets.
