(* ===== verification/AuthParams.v ===== *)
(** * Authentication parameters of the handshake

    INIT and INIT-ACK carry three authentication parameters (RANDOM, HMAC-ALGO and
    CHUNKS).  This file models how they are made ([sctp_initialize_auth_params] of
    [sctp_auth.c], the authentication part of [sctp_send_initiate] and
    [sctp_send_initiate_ack] of [sctp_output.c]), how an incoming INIT is checked
    ([sctp_validate_init_auth_params]), how the receiver takes them over (the
    authentication part of [sctp_load_addresses_from_init] of [sctp_pcb.c]) and
    how the server gets its own back from the state cookie
    ([sctp_auth_get_cookie_params]); with [sctp_m_getptr] of [sctputil.c], through
    which all of them read the packet.  A packet is an mbuf chain, the list of its
    buffers' bytes.  The outer [None] is an access outside a buffer or exhausted
    fuel; [NULL] is the inner [None]. *)

From S2P Require Import Prelude Sha1 AuthLists AuthKeys AuthHmac.

Open Scope sctp_scope.

Definition SCTP_RANDOM : Z := 0x8002.
Definition SCTP_CHUNK_LIST : Z := 0x8003.
Definition SCTP_HMAC_LIST : Z := 0x8004.
Definition SCTP_SUPPORTED_CHUNK_EXT : Z := 0x8008.
Definition SCTP_ASCONF : Z := 0xc1.
Definition SCTP_ASCONF_ACK : Z := 0x80.
Definition SCTP_PARAM_BUFFER_SIZE : Z := 512.
Definition SCTP_SMALL_CHUNK_STORE : Z := 260.
Definition SCTP_AUTH_RANDOM_SIZE_DEFAULT : Z := 32.
Definition SCTP_AUTH_RANDOM_SIZE_REQUIRED : Z := 32.

(** [sizeof(struct sctp_paramhdr)], also the size of the headers of the three
    parameters. *)
Definition sizeof_paramhdr : Z := 4.

Definition blen (b : list Z) : Z := Z.of_nat (length b).

(** ** Reading a packet *)

(** Find the start. *)
Fixpoint getptr_seek (m : list (list Z)) (off : Z) : list (list Z) * Z :=
  match m with
  | [] => ([], off)
  | b :: rest =>
      if 0 <? off then
        if off <? blen b then (m, off) else getptr_seek rest (off - blen b)
      else (m, off)
  end.

(** Copy over the borders of the buffers; [room] is what is left of the
    destination.  The result is the number of bytes still missing and what was
    copied. *)
Fixpoint getptr_copy (m : list (list Z)) (off len room : Z) (got : list Z)
  : option (Z * list Z) :=
  match m with
  | [] => Some (len, got)
  | b :: rest =>
      if 0 <? len then
        let count := Z.min (blen b - off) len in
        if count <=? room
        then getptr_copy rest 0 (len - count) (room - count)
               (got ++ take (Z.to_nat count) (drop (Z.to_nat off) b))
        else None
      else Some (len, got)
  end.

(** [size] is the size of the buffer [in_ptr].  The result is the [len] bytes the
    returned pointer leads to. *)
Definition sctp_m_getptr (m : list (list Z)) (off len size : Z) : option (option (list Z)) :=
  if (off <? 0) || (len <=? 0) then Some None
  else
    let '(m, off) := getptr_seek m off in
    match m with
    | [] => Some None
    | b :: _ =>
        if len <=? blen b - off
        then Some (Some (take (Z.to_nat len) (drop (Z.to_nat off) b)))
        else
          '(missing, got) ← getptr_copy m off len size [];
          Some (if 0 <? missing then None else Some got)
    end.

Definition sctp_get_next_param (m : list (list Z)) (offset pull_limit size : Z)
  : option (option (list Z)) :=
  sctp_m_getptr m offset pull_limit size.

(** ** The loop over the parameters

    The three functions below walk over the parameters in the same way; they
    differ in the checks before and after a parameter and in its treatment. *)

Inductive outcome (St : Type) : Type :=
| Next (s : St)
| Break (s : St)
| Return (r : Z) (s : St).
Arguments Next {St} s.
Arguments Break {St} s.
Arguments Return {St} r s.

Section Walk.

Context {St : Type}.
(** [offset + plen] in the type of the function's offset; when the loop ends
    before and after a parameter; the body. *)
Context (wrap : Z -> Z) (stop_before : Z -> Z -> bool) (stop_after : Z -> bool).
Context (param : Z -> Z -> Z -> St -> option (outcome St)).

(** The final state, and the value when the function returned from the loop. *)
Fixpoint walk (fuel : nat) (m : list (list Z)) (offset : Z) (phdr : option (list Z)) (s : St)
  : option (St * option Z) :=
  match fuel with
  | O => None
  | S fuel =>
      match phdr with
      | None => Some (s, None)
      | Some h =>
          let ptype := ntohs_at h 0 in
          let plen := ntohs_at h 1 in
          if stop_before offset plen then Some (s, None)
          else
            o ← param offset ptype plen s;
            match o with
            | Break s => Some (s, None)
            | Return r s => Some (s, Some r)
            | Next s =>
                let offset := wrap (offset + SCTP_SIZE32 plen) in
                if stop_after offset then Some (s, None)
                else
                  phdr ← sctp_get_next_param m (i32 offset) sizeof_paramhdr sizeof_paramhdr;
                  walk fuel m offset phdr s
            end
      end
  end.

Definition walk_from (fuel : nat) (m : list (list Z)) (offset : Z) (s : St)
  : option (St * option Z) :=
  phdr ← sctp_get_next_param m (i32 offset) sizeof_paramhdr sizeof_paramhdr;
  walk fuel m offset phdr s.

End Walk.

(** The value of a parameter, as [n] bytes and as [n] 16-bit numbers. *)
Definition param_bytes (p : list Z) (n : Z) : option (list Z) :=
  if sizeof_paramhdr + n <=? blen p
  then Some (take (Z.to_nat n) (drop (Z.to_nat sizeof_paramhdr) p)) else None.

Definition param_words (p : list Z) (n : Z) : option (list Z) :=
  b ← param_bytes p (2 * n);
  Some (map (ntohs_at b) (seq 0 (Z.to_nat n))).

(** ** Checking an INIT *)

Record init_flags := Flags {
  peer_supports_asconf : bool; got_random : bool; got_hmacs : bool; got_chklist : bool;
  saw_asconf : bool; saw_asconf_ack : bool
}.

Definition note_extension (f : init_flags) (c : Z) : init_flags :=
  if (c =? SCTP_ASCONF) || (c =? SCTP_ASCONF_ACK)
  then Flags true (got_random f) (got_hmacs f) (got_chklist f) (saw_asconf f) (saw_asconf_ack f)
  else f.

Definition note_chunk (f : init_flags) (c : Z) : init_flags :=
  Flags (peer_supports_asconf f) (got_random f) (got_hmacs f) (got_chklist f)
    (saw_asconf f || (c =? SCTP_ASCONF)) (saw_asconf_ack f || (c =? SCTP_ASCONF_ACK)).

Definition validate_param (m : list (list Z)) (offset ptype plen : Z) (f : init_flags)
  : option (outcome init_flags) :=
  if ptype =? SCTP_SUPPORTED_CHUNK_EXT then
    if SCTP_SMALL_CHUNK_STORE <? plen then Some (Break f)
    else
      phdr ← sctp_get_next_param m offset plen SCTP_SMALL_CHUNK_STORE;
      match phdr with
      | None => Some (Return (-1) f)
      | Some p => types ← param_bytes p (plen - sizeof_paramhdr);
                  Some (Next (foldl note_extension f types))
      end
  else if ptype =? SCTP_RANDOM then
    if negb (plen =? sizeof_paramhdr + SCTP_AUTH_RANDOM_SIZE_REQUIRED) then Some (Return (-1) f)
    else Some (Next (Flags (peer_supports_asconf f) true (got_hmacs f) (got_chklist f)
                       (saw_asconf f) (saw_asconf_ack f)))
  else if ptype =? SCTP_HMAC_LIST then
    if SCTP_PARAM_BUFFER_SIZE <? plen then Some (Break f)
    else
      phdr ← sctp_get_next_param m offset plen SCTP_PARAM_BUFFER_SIZE;
      match phdr with
      | None => Some (Return (-1) f)
      | Some p =>
          let num_hmacs := (plen - sizeof_paramhdr) / 2 in
          v ← param_bytes p (2 * num_hmacs);
          if negb (sctp_verify_hmac_param v (Z.to_nat num_hmacs) =? 0) then Some (Return (-1) f)
          else Some (Next (Flags (peer_supports_asconf f) (got_random f) true (got_chklist f)
                             (saw_asconf f) (saw_asconf_ack f)))
      end
  else if ptype =? SCTP_CHUNK_LIST then
    if SCTP_SMALL_CHUNK_STORE <? plen then Some (Break f)
    else
      phdr ← sctp_get_next_param m offset plen SCTP_SMALL_CHUNK_STORE;
      match phdr with
      | None => Some (Return (-1) f)
      | Some p =>
          let num_chunks := plen - sizeof_paramhdr in
          types ← param_bytes p num_chunks;
          let f := foldl note_chunk f types in
          Some (Next (if negb (num_chunks =? 0)
                      then Flags (peer_supports_asconf f) (got_random f) (got_hmacs f) true
                             (saw_asconf f) (saw_asconf_ack f)
                      else f))
      end
  else Some (Next f).

(** The checks after the loop. *)
Definition validate_flags (f : init_flags) : Z :=
  let peer_supports_auth := got_random f && got_hmacs f in
  if negb peer_supports_auth && got_chklist f then -1
  else if peer_supports_asconf f && negb peer_supports_auth then -1
  else if peer_supports_asconf f && peer_supports_auth
            && (negb (saw_asconf f) || negb (saw_asconf_ack f)) then -2
  else 0.

Definition sctp_validate_init_auth_params (fuel : nat) (m : list (list Z)) (offset limit : Z)
  : option Z :=
  '(f, r) ← walk_from i32
              (fun offset plen => (limit <? i32 (offset + plen)) || (plen <? sizeof_paramhdr))
              (fun offset => limit <=? offset)
              (validate_param m) fuel m offset (Flags false false false false false false);
  Some match r with Some r => r | None => validate_flags f end.

(** ** Taking over the parameters *)

(** The local variables in which [sctp_load_addresses_from_init] and
    [sctp_auth_get_cookie_params] keep the three parameters. *)
Record pulled := Pulled {
  p_random : option (list Z); random_len : Z;
  p_hmacs : option (list Z); hmacs_len : Z;
  p_chunks : option (list Z); n_chunks : Z
}.

Definition nothing_pulled : pulled := Pulled None 0 None 0 None 0.

(** [memcpy(new_key->key + keylen, p, n)]; both functions end with the same
    sequence of them.  The inner [None] is a failed allocation. *)
Definition concat_random_key (malloc : Z -> option (list Z)) (v : pulled) : option (option sctp_key) :=
  let keylen := sizeof_paramhdr + random_len v + sizeof_paramhdr + hmacs_len v in
  let keylen := match p_chunks v with
                | Some _ => keylen + (sizeof_paramhdr + n_chunks v)
                | None => keylen
                end in
  match sctp_alloc_key malloc keylen with
  | None => Some None
  | Some key =>
      '(key, keylen) ← match p_random v with
                       | Some p => let keylen := sizeof_paramhdr + random_len v in
                                   key ← block_memcpy key 0 p keylen; Some (key, keylen)
                       | None => Some (key, keylen)
                       end;
      '(key, keylen) ← match p_chunks v with
                       | Some p => key ← block_memcpy key keylen p (sizeof_paramhdr + n_chunks v);
                                   Some (key, keylen + (sizeof_paramhdr + n_chunks v))
                       | None => Some (key, keylen)
                       end;
      key ← match p_hmacs v with
            | Some p => block_memcpy key keylen p (sizeof_paramhdr + hmacs_len v)
            | None => Some key
            end;
      Some (Some key)
  end.

(** [for (i = 0; i < num_hmacs; i++) sctp_auth_add_hmacid(...)] on a new list. *)
Definition hmaclist_of (memory : option (list Z)) (num_hmacs : Z) (ids : list Z) : option sctp_hmaclist :=
  foldl (fun l id => (sctp_auth_add_hmacid l id).2) (sctp_alloc_hmaclist memory num_hmacs) ids.

(** Clear the chunk list, or allocate it, and add the types. *)
Definition chklist_of (ok : bool) (l : option sctp_auth_chklist) (types : list Z)
  : option sctp_auth_chklist :=
  let l := match l with Some _ => Some sctp_clear_chunklist | None => sctp_alloc_chunklist ok end in
  foldl (fun l c => (sctp_auth_add_chunk c l).2) l types.

(** The fields of the association that are set below. *)
Definition set_random (i : sctp_authinfo) (k : option sctp_key) (len : Z) : sctp_authinfo :=
  AuthInfo k len (ai_peer_random i) (ai_assoc_key i) (ai_recv_key i)
    (ai_active_keyid i) (ai_assoc_keyid i) (ai_recv_keyid i).

Definition set_peer_random (i : sctp_authinfo) (k : option sctp_key) : sctp_authinfo :=
  AuthInfo (ai_random i) (ai_random_len i) k (ai_assoc_key i) (ai_recv_key i)
    (ai_active_keyid i) (ai_assoc_keyid i) (ai_recv_keyid i).

Definition set_local_hmacs (a : auth_assoc) (l : option sctp_hmaclist) : auth_assoc :=
  AuthAssoc (authinfo a) (shared_keys a) l (peer_hmacs a) (local_auth_chunks a)
    (peer_hmac_id a) (notified a).

Definition set_peer_hmacs (a : auth_assoc) (l : option sctp_hmaclist) : auth_assoc :=
  AuthAssoc (authinfo a) (shared_keys a) (local_hmacs a) l (local_auth_chunks a)
    (peer_hmac_id a) (notified a).

Definition set_local_chunks (a : auth_assoc) (l : option sctp_auth_chklist) : auth_assoc :=
  AuthAssoc (authinfo a) (shared_keys a) (local_hmacs a) (peer_hmacs a) l
    (peer_hmac_id a) (notified a).

Definition set_peer_hmac_id (a : auth_assoc) (id : Z) : auth_assoc :=
  AuthAssoc (authinfo a) (shared_keys a) (local_hmacs a) (peer_hmacs a) (local_auth_chunks a)
    id (notified a).

(** ** The server's own parameters from the state cookie *)

Section Cookie.

(** The allocator of keys, of HMAC lists (by the number of entries), of the chunk
    list, and of the entries of the shared-key list. *)
Context (malloc : Z -> option (list Z)) (hmac_memory : Z -> option (list Z)).
Context (chunks_ok : bool) (skey_ok : nat -> bool).

Definition cookie_param (m : list (list Z)) (offset ptype plen : Z) (s : auth_assoc * pulled)
  : option (outcome (auth_assoc * pulled)) :=
  let '(a, v) := s in
  if ptype =? SCTP_RANDOM then
    if SCTP_PARAM_BUFFER_SIZE <? plen then Some (Break s)
    else
      phdr ← sctp_get_next_param m (i32 offset) plen SCTP_PARAM_BUFFER_SIZE;
      match phdr with
      | None => Some (Return 0 s)
      | Some p =>
          Some (Next (a, Pulled (Some p) (u16 (plen - sizeof_paramhdr)) (p_hmacs v) (hmacs_len v)
                           (p_chunks v) (n_chunks v)))
      end
  else if ptype =? SCTP_HMAC_LIST then
    if SCTP_PARAM_BUFFER_SIZE <? plen then Some (Break s)
    else
      phdr ← sctp_get_next_param m (i32 offset) plen SCTP_PARAM_BUFFER_SIZE;
      match phdr with
      | None => Some (Return 0 s)
      | Some p =>
          let len := u16 (plen - sizeof_paramhdr) in
          let num_hmacs := len / 2 in
          let v := Pulled (p_random v) (random_len v) (Some p) len (p_chunks v) (n_chunks v) in
          match sctp_alloc_hmaclist (hmac_memory num_hmacs) num_hmacs with
          | None => Some (Next (set_local_hmacs a None, v))
          | Some _ =>
              ids ← param_words p num_hmacs;
              Some (Next (set_local_hmacs a (hmaclist_of (hmac_memory num_hmacs) num_hmacs ids), v))
          end
      end
  else if ptype =? SCTP_CHUNK_LIST then
    if SCTP_PARAM_BUFFER_SIZE <? plen then Some (Break s)
    else
      phdr ← sctp_get_next_param m (i32 offset) plen SCTP_PARAM_BUFFER_SIZE;
      match phdr with
      | None => Some (Return 0 s)
      | Some p =>
          let num := u16 (plen - sizeof_paramhdr) in
          types ← param_bytes p num;
          Some (Next (set_local_chunks a (chklist_of chunks_ok (local_auth_chunks a) types),
                      Pulled (p_random v) (random_len v) (p_hmacs v) (hmacs_len v) (Some p) num))
      end
  else Some (Next s).

(** What follows the loop. *)
Definition cookie_finish (e : auth_ep) (a : auth_assoc) (v : pulled) : option auth_assoc :=
  new_key ← concat_random_key malloc v;
  let a := set_authinfo a (set_random (authinfo a) new_key (random_len v)) in
  let a := sctp_clear_cachedkeys a (ai_assoc_keyid (authinfo a)) in
  let a := sctp_clear_cachedkeys a (ai_recv_keyid (authinfo a)) in
  let a := set_peer_hmac_id a (sctp_negotiate_hmacid (peer_hmacs a) (local_hmacs a)) in
  let a := set_authinfo a (set_active_keyid (authinfo a) (default_keyid e)) in
  '(_, keys) ← sctp_copy_skeylist malloc skey_ok (ep_shared_keys e) (shared_keys a);
  Some (set_shared_keys a keys).

Definition sctp_auth_get_cookie_params (fuel : nat) (e : auth_ep) (a : auth_assoc)
  (m : list (list Z)) (offset length : Z) : option auth_assoc :=
  let length := length +u32 offset in
  '((a, v), r) ← walk_from u32
                   (fun offset plen => (plen =? 0) || (length <? (offset +u32 plen)))
                   (fun offset => length <? (offset +u32 sizeof_paramhdr))
                   (cookie_param m) fuel m offset (a, nothing_pulled);
  match r with
  | Some _ => Some a
  | None => cookie_finish e a v
  end.

End Cookie.

(** ** The peer's parameters: the authentication part of
    [sctp_load_addresses_from_init] *)

Record load_state := Load {
  ld_asoc : auth_assoc; ld_peer_chunks : option sctp_auth_chklist; ld_pulled : pulled;
  ld_flags : init_flags; ld_auth : bool; ld_asconf_ack : bool
}.

(** The parameters about addresses and other extensions, and the ones that are
    skipped. *)
Definition other_types : list Z := [0x0005; 0x0006; 0x8000; 0xc006; 0xc004; 0xc007; 0xc000].
Definition skipped_types : list Z :=
  [0x0001; 0x0007; 0x0008; 0x0009; 0x000c; 0xc001; 0xc002; 0xc003; 0xc005].

Definition load_extension (s : load_state) (c : Z) : load_state :=
  let f := ld_flags s in
  if c =? SCTP_ASCONF then
    Load (ld_asoc s) (ld_peer_chunks s) (ld_pulled s)
      (Flags true (got_random f) (got_hmacs f) (got_chklist f) (saw_asconf f) (saw_asconf_ack f))
      (ld_auth s) (ld_asconf_ack s)
  else if c =? SCTP_ASCONF_ACK then
    Load (ld_asoc s) (ld_peer_chunks s) (ld_pulled s) f (ld_auth s) true
  else if c =? SCTP_AUTHENTICATION then
    Load (ld_asoc s) (ld_peer_chunks s) (ld_pulled s) f true (ld_asconf_ack s)
  else s.

Section LoadParams.

Context (malloc : Z -> option (list Z)) (hmac_memory : Z -> option (list Z)) (chunks_ok : bool).
(** What the function does with a parameter of [other_types]: it returns with a
    value or goes on. *)
Context (other : Z -> Z -> Z -> option Z).

Definition load_param (m : list (list Z)) (offset ptype plen : Z) (s : load_state)
  : option (outcome load_state) :=
  let v := ld_pulled s in
  let f := ld_flags s in
  if existsb (Z.eqb ptype) other_types then
    Some match other ptype offset plen with Some r => Return r s | None => Next s end
  else if ptype =? SCTP_SUPPORTED_CHUNK_EXT then
    if SCTP_PARAM_BUFFER_SIZE <? plen then Some (Return (-35) s)
    else
      phdr ← sctp_get_next_param m offset plen SCTP_PARAM_BUFFER_SIZE;
      match phdr with
      | None => Some (Return (-25) s)
      | Some p =>
          types ← (if plen <? sizeof_paramhdr then Some []
                   else param_bytes p (plen - sizeof_paramhdr));
          Some (Next (foldl load_extension s types))
      end
  else if ptype =? SCTP_RANDOM then
    if SCTP_PARAM_BUFFER_SIZE <? plen then Some (Break s)
    else if got_random f then Some (Next s)
    else
      phdr ← sctp_get_next_param m offset plen SCTP_PARAM_BUFFER_SIZE;
      match phdr with
      | None => Some (Return (-26) s)
      | Some p =>
          let len := u16 (plen - sizeof_paramhdr) in
          let v := Pulled (Some p) len (p_hmacs v) (hmacs_len v) (p_chunks v) (n_chunks v) in
          if negb (len =? SCTP_AUTH_RANDOM_SIZE_REQUIRED)
          then Some (Return (-27) (Load (ld_asoc s) (ld_peer_chunks s) v f (ld_auth s) (ld_asconf_ack s)))
          else Some (Next (Load (ld_asoc s) (ld_peer_chunks s) v
                 (Flags (peer_supports_asconf f) true (got_hmacs f) (got_chklist f)
                    (saw_asconf f) (saw_asconf_ack f)) (ld_auth s) (ld_asconf_ack s)))
      end
  else if ptype =? SCTP_HMAC_LIST then
    if SCTP_PARAM_BUFFER_SIZE <? plen then Some (Break s)
    else if got_hmacs f then Some (Next s)
    else
      phdr ← sctp_get_next_param m offset plen SCTP_PARAM_BUFFER_SIZE;
      match phdr with
      | None => Some (Return (-28) s)
      | Some p =>
          let len := u16 (plen - sizeof_paramhdr) in
          let num_hmacs := len / 2 in
          let v := Pulled (p_random v) (random_len v) (Some p) len (p_chunks v) (n_chunks v) in
          value ← param_bytes p (2 * num_hmacs);
          if negb (sctp_verify_hmac_param value (Z.to_nat num_hmacs) =? 0)
          then Some (Return (-29) (Load (ld_asoc s) (ld_peer_chunks s) v f (ld_auth s) (ld_asconf_ack s)))
          else
            ids ← param_words p num_hmacs;
            Some (Next (Load (set_peer_hmacs (ld_asoc s) (hmaclist_of (hmac_memory num_hmacs) num_hmacs ids))
                   (ld_peer_chunks s) v
                   (Flags (peer_supports_asconf f) (got_random f) true (got_chklist f)
                      (saw_asconf f) (saw_asconf_ack f)) (ld_auth s) (ld_asconf_ack s)))
      end
  else if ptype =? SCTP_CHUNK_LIST then
    if SCTP_PARAM_BUFFER_SIZE <? plen then Some (Break s)
    else if got_chklist f then Some (Next s)
    else
      phdr ← sctp_get_next_param m offset plen SCTP_PARAM_BUFFER_SIZE;
      match phdr with
      | None => Some (Return (-30) s)
      | Some p =>
          let num := u16 (plen - sizeof_paramhdr) in
          types ← param_bytes p num;
          let f := foldl note_chunk f types in
          Some (Next (Load (ld_asoc s) (chklist_of chunks_ok (ld_peer_chunks s) types)
                 (Pulled (p_random v) (random_len v) (p_hmacs v) (hmacs_len v) (Some p) num)
                 (Flags (peer_supports_asconf f) (got_random f) (got_hmacs f) true
                    (saw_asconf f) (saw_asconf_ack f)) (ld_auth s) (ld_asconf_ack s)))
      end
  else if existsb (Z.eqb ptype) skipped_types then Some (Next s)
  else if Z.land ptype 0x8000 =? 0 then Some (Break s)
  else Some (Next s).

(** What follows the loop, as far as it is about authentication: the result, the
    association and whether AUTH and ASCONF are used. *)
Definition load_finish (auth_supported asconf_supported : bool) (s : load_state)
  : option (Z * auth_assoc * (bool * bool)) :=
  let f := ld_flags s in
  let a := ld_asoc s in
  let auth_supported := auth_supported && ld_auth s && got_random f && got_hmacs f in
  let asconf_supported := asconf_supported && peer_supports_asconf f && ld_asconf_ack s
                            && auth_supported && saw_asconf f && saw_asconf_ack f in
  let supported := (auth_supported, asconf_supported) in
  if negb (ld_auth s) && got_chklist f then Some (-31, a, supported)
  else if peer_supports_asconf f && negb (ld_auth s) then Some (-32, a, supported)
  else if peer_supports_asconf f && ld_auth s && (negb (saw_asconf f) || negb (saw_asconf_ack f))
       then Some (-33, a, supported)
  else
    new_key ← concat_random_key malloc (ld_pulled s);
    match new_key with
    | None => Some (-34, a, supported)
    | Some _ =>
        let a := set_authinfo a (set_peer_random (authinfo a) new_key) in
        let a := sctp_clear_cachedkeys a (ai_assoc_keyid (authinfo a)) in
        let a := sctp_clear_cachedkeys a (ai_recv_keyid (authinfo a)) in
        Some (0, a, supported)
    end.

(** [asconf_ack0] is the value of [peer_supports_asconf_ack], which the function
    does not initialise. *)
Definition load_auth_params (fuel : nat) (asconf_ack0 auth_supported asconf_supported : bool)
  (a : auth_assoc) (peer_chunks : option sctp_auth_chklist) (m : list (list Z)) (offset limit : Z)
  : option (Z * auth_assoc * option sctp_auth_chklist * (bool * bool)) :=
  '(s, r) ← walk_from i32
              (fun offset plen => (limit <? i32 (offset + plen)) || (plen =? 0))
              (fun offset => limit <=? offset)
              (load_param m) fuel m offset
              (Load a peer_chunks nothing_pulled (Flags false false false false false false)
                 false asconf_ack0);
  match r with
  | Some r => Some (r, ld_asoc s, ld_peer_chunks s, (auth_supported, asconf_supported))
  | None => '(r, a, supported) ← load_finish auth_supported asconf_supported s;
            Some (r, a, ld_peer_chunks s, supported)
  end.

End LoadParams.

(** ** Making the parameters *)

Definition param_header (ptype plen : Z) : list Z := htons_bytes ptype ++ htons_bytes (u16 plen).

(** [ph->param_type = htons(..); ph->param_length = htons(..)] inside a key. *)
Definition put_header (key : list Z) (pos ptype plen : Z) : option (list Z) :=
  block_memcpy key pos (param_header ptype plen) sizeof_paramhdr.

(** The loop that counts the listed chunk types. *)
Definition count_chunks (l : sctp_auth_chklist) : Z :=
  foldl (fun n i => if negb (chunk_at l (Z.of_nat i) =? 0) then u16 (n + 1) else n) 0 (seq 0 256).

Section MakeParams.

Context (malloc : Z -> option (list Z)) (hmac_memory : Z -> option (list Z)).
Context (chunks_ok : bool) (skey_ok : nat -> bool) (rnd : nat -> Z).

Definition random_bytes (n : Z) : list Z := map rnd (seq 0 (Z.to_nat n)).

(** The contents of the new key: RANDOM, CHUNKS and HMAC-ALGO without padding. *)
Definition fill_random_key (key : list Z) (random_len chunks_len hmacs_len : Z)
  (chunks : option sctp_auth_chklist) (hmacs : option sctp_hmaclist) : option (list Z) :=
  let plen := sizeof_paramhdr + random_len in
  key ← put_header key 0 SCTP_RANDOM plen;
  key ← block_memcpy key sizeof_paramhdr (random_bytes random_len) random_len;
  let keylen := u16 plen in
  key ← put_header key keylen SCTP_CHUNK_LIST (sizeof_paramhdr + chunks_len);
  let keylen := u16 (keylen + sizeof_paramhdr) in
  '(n, key) ← match chunks with
              | Some l => list_chunks 256 0 l key (Z.to_nat keylen)
              | None => Some (Z.to_nat keylen, key)
              end;
  let keylen := u16 (Z.of_nat n) in
  key ← put_header key keylen SCTP_HMAC_LIST (sizeof_paramhdr + hmacs_len);
  let keylen := u16 (keylen + sizeof_paramhdr) in
  let '(n, bytes) := sctp_serialize_hmaclist hmacs in
  block_memcpy key keylen bytes n.

Definition sctp_initialize_auth_params (e : auth_ep) (a : auth_assoc) : option auth_assoc :=
  let random_len := SCTP_AUTH_RANDOM_SIZE_DEFAULT in
  let hmacs := sctp_copy_hmaclist
                 (hmac_memory match ep_local_hmacs e with Some l => max_algo l | None => 0 end)
                 (ep_local_hmacs e) in
  let a := set_local_hmacs a hmacs in
  let hmacs_len := match hmacs with Some l => u16 (num_algo l * 2) | None => 0 end in
  let chunks := sctp_copy_chunklist chunks_ok (ep_local_auth_chunks e) in
  let a := set_local_chunks a chunks in
  let chunks_len := match chunks with Some l => count_chunks l | None => 0 end in
  let a := set_authinfo a (set_active_keyid (authinfo a) (default_keyid e)) in
  '(_, keys) ← sctp_copy_skeylist malloc skey_ok (ep_shared_keys e) (shared_keys a);
  let a := set_shared_keys a keys in
  let keylen := u16 (3 * sizeof_paramhdr + random_len + chunks_len + hmacs_len) in
  new_key ← match sctp_alloc_key malloc keylen with
            | None => Some None
            | Some key => key ← fill_random_key key random_len chunks_len hmacs_len chunks hmacs;
                          Some (Some key)
            end;
  Some (set_authinfo a (set_random (authinfo a) new_key random_len)).

End MakeParams.

(** A packet under construction: the [chunk_len] bytes written and the padding
    that is due before the next parameter. *)
Definition put_param (st : list Z * Z) (bytes : list Z) : list Z * Z :=
  (st.1 ++ replicate (Z.to_nat st.2) 0 ++ bytes, SCTP_SIZE32 (blen bytes) - blen bytes).

(** The authentication parameters of an INIT; [room] is what the buffer held
    where the chunk types are written. *)
Definition initiate_auth_params (auth_supported : bool) (a : auth_assoc) (room : list Z)
  (st : list Z * Z) : option (list Z * Z) :=
  if negb auth_supported then Some st
  else
    st ← match ai_random (authinfo a) with
         | None => Some st
         | Some key =>
             let parameter_len := u16 (sizeof_paramhdr + ai_random_len (authinfo a)) in
             if parameter_len <=? blen key then Some (put_param st (take (Z.to_nat parameter_len) key))
             else None
         end;
    let st := match local_hmacs a with
              | None => st
              | Some l => put_param st (param_header SCTP_HMAC_LIST (sizeof_paramhdr + num_algo l * 2)
                                          ++ (sctp_serialize_hmaclist (Some l)).2)
              end in
    match local_auth_chunks a with
    | None => Some st
    | Some l =>
        '(_, types) ← sctp_serialize_auth_chunks (Some l) room;
        let size := sctp_auth_get_chklist_size (Some l) in
        Some (put_param st (param_header SCTP_CHUNK_LIST (sizeof_paramhdr + size)
                              ++ take (Z.to_nat size) types))
    end.

(** The authentication parameters of an INIT-ACK to a new peer. *)
Definition initiate_ack_auth_params (auth_supported : bool) (rnd : nat -> Z) (e : auth_ep)
  (room : list Z) (st : list Z * Z) : option (list Z * Z) :=
  if negb auth_supported then Some st
  else
    let st := put_param st (param_header SCTP_RANDOM (sizeof_paramhdr + SCTP_AUTH_RANDOM_SIZE_DEFAULT)
                              ++ random_bytes rnd SCTP_AUTH_RANDOM_SIZE_DEFAULT) in
    let '(n, ids) := sctp_serialize_hmaclist (ep_local_hmacs e) in
    let st := put_param st (param_header SCTP_HMAC_LIST (sizeof_paramhdr + n) ++ ids) in
    '(n, types) ← sctp_serialize_auth_chunks (ep_local_auth_chunks e) room;
    Some (put_param st (param_header SCTP_CHUNK_LIST (sizeof_paramhdr + n)
                          ++ take (Z.to_nat n) types)).
