(* ===== verification/ReasmQueue.v ===== *)
(** * Receiving user data: the queues of a stream (sctp_indata.c)

    [sctp_place_control_in_stream] and [sctp_queue_data_to_stream] put a message into the
    order of its stream and deliver what is next; [sctp_queue_data_for_reasm] puts a
    fragment into its message, and [sctp_deliver_reasm_check] delivers messages that are
    complete, or long enough to be delivered in parts.  Unordered DATA chunks have no
    message identifier: all fragments of a stream share one control, in the order of their
    TSNs ([sctp_inject_old_unordered_data], [sctp_handle_old_unordered_data]).

    The results [true] and [false] of an operation with [*abort_flag] say whether the
    association was aborted. *)

From S2P Require Import Prelude Serial Tailq TsnMap Sack Mbuf.
From S2P Require Export Reasm.

Open Scope sctp_scope.

Definition SCTP_FROM_SCTP_INDATA : Z := 0x30000000.
Definition loc (n : Z) : Z := SCTP_FROM_SCTP_INDATA + n.

Definition flags_of (c : queued_to_read) : Z := Z.shiftr (sinfo_flags c) 8.

(** ** Placing a control *)

(** The loop over a queue: the place of the first entry with a greater message
    identifier, or -1 when one has the same. *)
Fixpoint find_place (idata : Z) (store : gmap nat queued_to_read) (q : list nat) (m : Z) (i : nat)
  : option (option nat) :=
  match q with
  | [] => Some (Some i)
  | at_ :: q =>
      c ← store !! at_;
      if SCTP_MID_GT idata (mid c) m then Some (Some i)
      else if SCTP_MID_EQ idata (mid c) m then Some None
      else find_place idata store q m (S i)
  end.

Definition insert_at (q : list nat) (i p : nat) : list nat := take i q ++ p :: drop i q.

(** The result is [true] for -1: the control is not placed. *)
Definition sctp_place_control_in_stream (env : rx_env) (sid p : nat) (s : receiver) : option (bool * receiver) :=
  x ← strm s sid;
  c ← ctl s p;
  let flags := flags_of c in
  let unordered := has_flag flags SCTP_DATA_UNORDERED in
  if unordered && (idata_supported env =? 0) then
    match uno_inqueue x with
    | _ :: _ => Some (true, s)
    | [] => Some (false, put_strm sid (x <| uno_inqueue := [p] |>)
                           (put_ctl p (c <| on_strm_q := SCTP_ON_UNORDERED |>) s))
    end
  else
    let c := if not_frag flags
             then ((c <| end_added := 1 |>) <| first_frag_seen := 1 |>) <| last_frag_seen := 1 |>
             else c in
    let s := put_ctl p c s in
    let q := if unordered then uno_inqueue x else inqueue x in
    place ← find_place (idata_supported env) (controls s) q (mid c) 0;
    match place with
    | None => Some (true, s)
    | Some i =>
        if decide (p ∈ q) then None
        else
          let q := insert_at q i p in
          let x := if unordered then x <| uno_inqueue := q |> else x <| inqueue := q |> in
          let on := if unordered then SCTP_ON_UNORDERED else SCTP_ON_ORDERED in
          Some (false, put_strm sid x (put_ctl p (c <| on_strm_q := on |>) s))
    end.

Definition abort (location : Z) (s : receiver) : receiver := emit (AbortAssociation location) s.

(** The control and the fragment are read for the message of the abort. *)
Definition sctp_abort_in_reasm (p : nat) (s : receiver) : option (bool * receiver) :=
  _ ← ctl s p; Some (true, abort (loc 1) s).

Definition sctp_clean_up_control (p : nat) (s : receiver) : option receiver :=
  _ ← ctl s p; Some (free_ctl p s).

(** ** Messages in one piece *)

(** The loop of [sctp_queue_data_to_stream] over the queue, with the result
    [*need_reasm]: messages that are next and not fragmented are delivered.  An entry is
    taken off the queue before the next is looked at. *)
Fixpoint deliver_singles (env : rx_env) (sid : nat) (q : list nat) (need : bool) (s : receiver)
  : option (bool * receiver) :=
  match q with
  | [] => Some (need, s)
  | p :: q =>
      x ← strm s sid;
      c ← ctl s p;
      let nxt_todel := u32 (last_mid_delivered x + 1) in
      if SCTP_MID_EQ (idata_supported env) nxt_todel (mid c) && not_frag (flags_of c) then
        s ← (if on_strm_q c =? SCTP_ON_ORDERED
             then s ← unlink_ordered sid p s; Some (on_ack (leave_streams (ctl_length c)) s)
             else Some s);
        let s := put_ctl p (c <| on_strm_q := 0 |>) s in
        x ← strm s sid;
        let s := put_strm sid (x <| last_mid_delivered := u32 (last_mid_delivered x + 1) |>) s in
        s ← mark_non_revokable env (sinfo_tsn c) s;
        s ← sctp_add_to_readq env p 1 s;
        deliver_singles env sid q need s
      else Some (need || SCTP_MID_EQ (idata_supported env) nxt_todel (mid c), s)
  end.

(** The results are [*abort_flag] and [*need_reasm]. *)
Definition sctp_queue_data_to_stream (env : rx_env) (p : nat) (need : bool) (s : receiver)
  : option (bool * bool * receiver) :=
  c ← ctl s p;
  let sid := Z.to_nat (sinfo_stream c) in
  x ← strm s sid;
  if SCTP_MID_GT (idata_supported env) (last_mid_delivered x) (mid c) then
    if decide (p ∈ inqueue x) then None
    else Some (true, need, abort (loc 2) (put_strm sid (x <| inqueue := p :: inqueue x |>) s))
  else
    let s := on_ack (fun a => add_on_streams (ctl_length c) a
                                <| cnt_on_all_streams := sctp_ucount_incr (cnt_on_all_streams a) |>) s in
    let nxt_todel := u32 (last_mid_delivered x + 1) in
    if SCTP_MID_EQ (idata_supported env) nxt_todel (mid c) then
      let s := on_ack (leave_streams (ctl_length c)) s in
      let s := put_strm sid (x <| last_mid_delivered := u32 (last_mid_delivered x + 1) |>) s in
      s ← mark_non_revokable env (sinfo_tsn c) s;
      s ← sctp_add_to_readq env p 1 s;
      x ← strm s sid;
      '(need, s) ← deliver_singles env sid (inqueue x) need s;
      Some (false, need, s)
    else
      '(dup, s) ← sctp_place_control_in_stream env sid p s;
      if (dup : bool) then s ← sctp_clean_up_control p s; Some (true, need, abort (loc 3) s)
      else Some (false, need, s).

(** ** Unordered fragments of DATA chunks *)

(** [sctp_build_readq_entry_from_ctl]; the new control has been cleared. *)
Definition sctp_build_readq_entry_from_ctl (c : queued_to_read) : queued_to_read :=
  QueuedToRead (sinfo_stream c) (sinfo_flags c) (sinfo_ppid c) (sinfo_tsn c) (sinfo_cumtsn c) (mid c)
    0 (top_fsn c) 0xffffffff [] None (has_stcb c) [] 0 0 0 0 0 0 0.

Definition cleared_ctl : queued_to_read :=
  QueuedToRead 0 0 0 0 0 0 0 0 0 [] None false [] 0 0 0 0 0 0 0.

(** "Ok we have to move anything left on the control queue to a new control": [p] is the
    control, [n] the new one. *)
Definition spin_off (env : rx_env) (sid p n : nat) (s : receiver) : option receiver :=
  c ← ctl s p;
  match reasm c with
  | [] => Some s
  | tchk :: rest =>
      let nc := sctp_build_readq_entry_from_ctl c in
      s ← (if has_flag (rcv_flags tchk) SCTP_DATA_FIRST_FRAG then
             let s := put_ctl p (c <| reasm := rest |>) s in
             let s := on_ack (leave_reasm (send_size tchk)) s in
             let nc := (((nc <| first_frag_seen := 1 |>) <| fsn_included := rec_fsn tchk |>)
                          <| data := chk_data tchk |> <| sinfo_ppid := rec_ppid tchk |>)
                         <| sinfo_tsn := rec_tsn tchk |> in
             s ← mark_non_revokable env (rec_tsn tchk) (put_ctl n nc s);
             sctp_setup_tail_pointer n s
           else Some (put_ctl n nc s));
      c ← ctl s p;
      nc ← ctl s n;
      let s := put_ctl p (c <| reasm := [] |>) (put_ctl n (nc <| reasm := reasm nc ++ reasm c |>) s) in
      x ← strm s sid;
      q ← insert_tail (uno_inqueue x) n;
      let s := put_strm sid (x <| uno_inqueue := q |>) s in
      nc ← ctl s n;
      let s := put_ctl n (nc <| on_strm_q := SCTP_ON_UNORDERED |>) s in
      c ← ctl s p;
      if on_strm_q c =? 0 then Some s
      else s ← unlink_unordered sid p s; Some (put_ctl p (c <| on_strm_q := 0 |>) s)
  end.

(** The loop, with [restart]: every round takes one fragment off a control. *)
Fixpoint old_unordered_loop (fuel : nat) (env : rx_env) (sid p : nat) (s : receiver)
  : option (bool * nat * receiver) :=
  c ← ctl s p;
  let fsn := u32 (fsn_included c + 1) in
  match reasm c with
  | [] => Some (false, p, s)
  | chk :: rest =>
      if rec_fsn chk =? fsn then
        let '(ok, s) := alloc_ok env s in
        if negb ok then Some (false, p, s)
        else
          match fuel with
          | O => None
          | S fuel =>
              let '(n, s) := new_ctl cleared_ctl s in
              '(_, s) ← sctp_add_chk_to_control env sid p chk (put_ctl p (c <| reasm := rest |>) s);
              c ← ctl s p;
              if end_added c =? 0 then old_unordered_loop fuel env sid p (free_ctl n s)
              else
                s ← spin_off env sid p n s;
                c ← ctl s p;
                x ← strm s sid;
                let s := if pdapi_started c =? 0 then s
                         else put_ctl p (c <| pdapi_started := 0 |>) (put_strm sid (x <| pd_api_started := 0 |>) s) in
                c ← ctl s p;
                s ← (if on_strm_q c =? 0 then Some s
                     else s ← unlink_unordered sid p s; Some (put_ctl p (c <| on_strm_q := 0 |>) s));
                s ← (if on_read_q c =? 0 then sctp_add_to_readq env p (end_added c) s
                     else sctp_invoke_recv_callback env p s);
                let s := emit WakeReader s in
                nc ← ctl s n;
                if negb (first_frag_seen nc =? 0) && negb (match reasm nc with [] => true | _ => false end)
                then old_unordered_loop fuel env sid n s
                else Some (true, n, if on_strm_q nc =? 0 then free_ctl n s else s)
          end
      else Some (false, p, s)
  end.

(** The result is 1 or 0.  The loop ends with [true] when the control is done; otherwise
    the control it was at may be long enough to be delivered in parts. *)
Definition sctp_handle_old_unordered_data (env : rx_env) (sid p : nat) (s : receiver) : option (bool * receiver) :=
  c ← ctl s p;
  if first_frag_seen c =? 0 then Some (true, s)
  else
    '(done, p, s) ← old_unordered_loop (S (length (reasm c))) env sid p s;
    if (done : bool) then Some (true, s)
    else
      c ← ctl s p;
      x ← strm s sid;
      if (pd_point env <? ctl_length c) && (pd_api_started x =? 0) then
        let s := put_ctl p (c <| pdapi_started := 1 |>) (put_strm sid (x <| pd_api_started := 1 |>) s) in
        s ← sctp_add_to_readq env p (end_added c) s;
        Some (false, emit WakeReader s)
      else Some (true, s).

(** The loop that finds the place of a fragment in the list: before the first one with a
    greater FSN.  [None] is a duplicate. *)
Fixpoint reasm_place (l : list rx_chunk) (fsn : Z) (i : nat) : option nat :=
  match l with
  | [] => Some i
  | at_ :: l =>
      if SCTP_TSN_GT (rec_fsn at_) fsn then Some i
      else if rec_fsn at_ =? fsn then None
      else reasm_place l fsn (S i)
  end.

(** "place_chunk". *)
Definition place_chunk (p : nat) (chk : rx_chunk) (s : receiver) : option (bool * receiver) :=
  c ← ctl s p;
  match reasm_place (reasm c) (rec_fsn chk) 0 with
  | None => sctp_abort_in_reasm p s
  | Some i =>
      let s := on_ack (join_reasm (send_size chk)) s in
      let c := if (i <? length (reasm c))%nat then c else c <| top_fsn := rec_fsn chk |> in
      Some (false, put_ctl p (c <| reasm := take i (reasm c) ++ chk :: drop i (reasm c) |>) s)
  end.

Definition sctp_inject_old_unordered_data (env : rx_env) (p : nat) (chk : rx_chunk) (s : receiver)
  : option (bool * receiver) :=
  c ← ctl s p;
  if has_flag (rcv_flags chk) SCTP_DATA_FIRST_FRAG then
    if negb (first_frag_seen c =? 0) then
      if SCTP_TSN_GT (rec_fsn chk) (fsn_included c) then place_chunk p chk s
      else if (rec_fsn chk =? fsn_included c) || negb (pdapi_started c =? 0) then sctp_abort_in_reasm p s
      else
        (* swap the fragment and what the control holds *)
        let chk' := (((chk <| chk_data := data c |>) <| send_size := u16 (ctl_length c) |>)
                       <| rec_fsn := fsn_included c |> <| rec_tsn := sinfo_tsn c |>)
                      <| rec_ppid := sinfo_ppid c |> in
        s ← sctp_setup_tail_pointer p (put_ctl p (c <| data := chk_data chk |>) s);
        c ← ctl s p;
        place_chunk p chk' (put_ctl p (((c <| fsn_included := rec_fsn chk |>) <| sinfo_tsn := rec_tsn chk |>)
                                         <| sinfo_ppid := rec_ppid chk |>) s)
    else
      let c := ((((c <| first_frag_seen := 1 |>) <| fsn_included := rec_fsn chk |>) <| top_fsn := rec_fsn chk |>)
                  <| sinfo_tsn := rec_tsn chk |> <| sinfo_ppid := rec_ppid chk |>) <| data := chk_data chk |> in
      s ← mark_non_revokable env (rec_tsn chk) (put_ctl p c s);
      s ← sctp_setup_tail_pointer p s;
      Some (false, s)
  else place_chunk p chk s.

(** ** Delivering *)

(** The loop over unordered messages of I-DATA chunks; the entries after [p] are
    [q].  The result is [true] when it was left by [break]. *)
Fixpoint deliver_unordered (env : rx_env) (sid : nat) (q : list nat) (s : receiver) : option receiver :=
  match q with
  | [] => Some s
  | p :: q =>
      c ← ctl s p;
      if negb (end_added c =? 0) then
        s ← (if on_strm_q c =? 0 then Some s
             else s ← unlink_unordered sid p s; Some (put_ctl p (c <| on_strm_q := 0 |>) s));
        s ← (if on_read_q c =? 0 then sctp_add_to_readq env p (end_added c) s else Some s);
        deliver_unordered env sid q s
      else
        x ← strm s sid;
        if (pd_point env <=? ctl_length c) && (pd_api_started x =? 0) then
          sctp_add_to_readq env p (end_added c)
            (put_ctl p (c <| pdapi_started := 1 |>) (put_strm sid (x <| pd_api_started := 1 |>) s))
        else deliver_unordered env sid q s
  end.

(** A complete message leaves the queue of its stream. *)
Definition leave_ordered (sid p : nat) (s : receiver) : option receiver :=
  c ← ctl s p;
  if on_strm_q c =? 0 then Some s
  else
    s ← unlink_ordered sid p s;
    Some (put_ctl p (c <| on_strm_q := 0 |>) (on_ack (leave_streams (ctl_length c)) s)).

(** "deliver_more", along the queue; [ret] counts complete messages. *)
Fixpoint deliver_more (env : rx_env) (sid : nat) (q : list nat) (ret : Z) (s : receiver) : option (Z * receiver) :=
  match q with
  | [] => Some (ret, s)
  | p :: q =>
      x ← strm s sid;
      c ← ctl s p;
      let next_to_del := u32 (last_mid_delivered x + 1) in
      if SCTP_MID_EQ (idata_supported env) (mid c) next_to_del && negb (first_frag_seen c =? 0) then
        s ← (if end_added c =? 0 then Some s else leave_ordered sid p s);
        let ret := if end_added c =? 0 then ret else ret + 1 in
        let defer := negb (not_frag (flags_of c)) && (end_added c =? 0)
                     && ((ctl_length c <? pd_point env) || negb (pd_api_started x =? 0)) in
        s ← (if not_frag (flags_of c) then mark_non_revokable env (sinfo_tsn c) s else Some s);
        if defer then Some (ret, s)
        else
          let done := negb (end_added c =? 0) && negb (last_frag_seen c =? 0) in
          s ← (if on_read_q c =? 0 then sctp_add_to_readq env p (end_added c) s else Some s);
          x ← strm s sid;
          let s := put_strm sid (x <| last_mid_delivered := next_to_del |>) s in
          if done then deliver_more env sid q ret s
          else
            x ← strm s sid;
            c ← ctl s p;
            Some (ret, put_ctl p (c <| pdapi_started := 1 |>) (put_strm sid (x <| pd_api_started := 1 |>) s))
      else Some (ret, s)
  end.

(** "Ok the guy at the top was being partially delivered completed, so we remove it"; the
    result is the rest of the queue to look at. *)
Definition finish_partial (env : rx_env) (sid p : nat) (q : list nat) (s : receiver) : option (list nat * receiver) :=
  x ← strm s sid;
  c ← ctl s p;
  if SCTP_MID_EQ (idata_supported env) (last_mid_delivered x) (mid c) && negb (end_added c =? 0) then
    s ← leave_ordered sid p s;
    x ← strm s sid;
    c ← ctl s p;
    let s := if negb (pd_api_started x =? 0) && negb (pdapi_started c =? 0)
             then put_ctl p (c <| pdapi_started := 0 |>) (put_strm sid (x <| pd_api_started := 0 |>) s)
             else s in
    s ← (if on_read_q c =? 0 then sctp_add_to_readq env p (end_added c) s else Some s);
    Some (q, s)
  else Some (p :: q, s).

(** From "done_un" on. *)
Definition deliver_ordered (env : rx_env) (sid : nat) (s : receiver) : option (Z * receiver) :=
  x ← strm s sid;
  if negb (pd_api_started x =? 0) then Some (0, s)
  else
    match inqueue x with
    | [] => Some (0, s)
    | p :: q =>
        '(q, s) ← finish_partial env sid p q s;
        x ← strm s sid;
        if negb (pd_api_started x =? 0) then Some (0, s) else deliver_more env sid q 0 s
    end.

Definition sctp_deliver_reasm_check (env : rx_env) (sid : nat) (s : receiver) : option (Z * receiver) :=
  x ← strm s sid;
  match uno_inqueue x with
  | p :: _ =>
      '(skip, s) ← (if idata_supported env =? 0 then sctp_handle_old_unordered_data env sid p s
                    else Some (false, s));
      if (skip : bool) then deliver_ordered env sid s
      else
        x ← strm s sid;
        if negb (pd_api_started x =? 0) then Some (0, s)
        else s ← deliver_unordered env sid (uno_inqueue x) s; deliver_ordered env sid s
  | [] =>
      if negb (pd_api_started x =? 0) then Some (0, s) else deliver_ordered env sid s
  end.
