(* ===== verification/RecvData.v ===== *)
(** * Receiving user data: DATA and I-DATA chunks (sctp_indata.c)

    [sctp_queue_data_for_reasm], [sctp_process_a_data_chunk] and [sctp_process_data], with
    [sctp_reset_in_stream] (sctp_input.c).  The arrays of received TSNs and the duplicates
    are those of [TsnMap], the window and the acknowledgement those of [Sack].

    The packet is a chain of mbufs.  The copy of a small packet into a smaller mbuf, which
    does not change its bytes, logging, and the contents of the causes of an abort are left
    out. *)

From S2P Require Import Prelude Serial Tailq TsnMap Sack Mbuf AuthParams.
From S2P Require Export Reasm ReasmQueue.

Open Scope sctp_scope.

(** ** A fragment of a message *)

(** The checks on a fragment that is not the first one; [true] means that it is
    refused. *)
Definition bad_fsn (env : rx_env) (c : queued_to_read) (chk : rx_chunk) : bool :=
  ((idata_supported env =? 1) || negb (first_frag_seen c =? 0))
  && SCTP_TSN_GE (fsn_included c) (rec_fsn chk).

(** "Place the chunk in our list": the control with its flags updated, or [None] for an
    abort. *)
Definition check_fragment (env : rx_env) (c : queued_to_read) (chk : rx_chunk) : option queued_to_read :=
  let last := has_flag (rcv_flags chk) SCTP_DATA_LAST_FRAG in
  if last_frag_seen c =? 0 then
    let c := if SCTP_TSN_GT (rec_fsn chk) (top_fsn c) then c <| top_fsn := rec_fsn chk |> else c in
    let c := if last then c <| last_frag_seen := 1 |> else c in
    if bad_fsn env c chk then None else Some c
  else if last then None
  else if bad_fsn env c chk then None
  else if SCTP_TSN_GT (rec_fsn chk) (top_fsn c) then None
  else Some c.

(** The loop that merges the fragments that are next, on the list [l] of the control;
    the result says whether the reader is to be woken. *)
Fixpoint absorb (env : rx_env) (sid p : nat) (l : list rx_chunk) (next_fsn : Z) (do_wakeup : bool) (s : receiver)
  : option (bool * receiver) :=
  match l with
  | [] => Some (do_wakeup, s)
  | at_ :: l =>
      if rec_fsn at_ =? next_fsn then
        c ← ctl s p;
        '(lenadded, s) ← sctp_add_chk_to_control env sid p at_ (put_ctl p (c <| reasm := l |>) s);
        let s := on_ack (add_on_streams lenadded) s in
        c ← ctl s p;
        x ← strm s sid;
        let do_wakeup := do_wakeup || negb (on_read_q c =? 0) in
        if negb (end_added c =? 0) && negb (pdapi_started c =? 0) then
          let '(c, s) := if pd_api_started x =? 0 then (c, s)
                         else (c <| pdapi_started := 0 |>,
                               put_ctl p (c <| pdapi_started := 0 |>) (put_strm sid (x <| pd_api_started := 0 |>) s)) in
          if on_read_q c =? 0 then
            s ← sctp_add_to_readq env p (end_added c) s; Some (true, s)
          else Some (do_wakeup, s)
        else absorb env sid p l (u32 (next_fsn + 1)) do_wakeup s
      else Some (do_wakeup, s)
  end.

(** "Ok lets see if we can suck any up into the control structure". *)
Definition absorb_ready (env : rx_env) (sid p : nat) (s : receiver) : option receiver :=
  c ← ctl s p;
  '(wake, s) ← (if first_frag_seen c =? 0 then Some (false, s)
                else absorb env sid p (reasm c) (u32 (fsn_included c + 1)) false s);
  if (wake : bool) then s ← sctp_invoke_recv_callback env p s; Some (emit WakeReader s) else Some s.

(** The first fragment goes to the control, the others to its list. *)
Definition store_fragment (env : rx_env) (p : nat) (chk : rx_chunk) (s : receiver) : option (bool * receiver) :=
  c ← ctl s p;
  if has_flag (rcv_flags chk) SCTP_DATA_FIRST_FRAG then
    if negb (first_frag_seen c =? 0) then sctp_abort_in_reasm p s
    else
      let c := (((c <| first_frag_seen := 1 |>) <| sinfo_ppid := rec_ppid chk |> <| sinfo_tsn := rec_tsn chk |>)
                  <| fsn_included := rec_fsn chk |>) <| data := chk_data chk |> in
      s ← mark_non_revokable env (rec_tsn chk) (put_ctl p c s);
      s ← sctp_setup_tail_pointer p s;
      c ← ctl s p;
      Some (false, on_ack (add_on_streams (ctl_length c)) s)
  else
    match check_fragment env c chk with
    | None => sctp_abort_in_reasm p s
    | Some c =>
        match reasm_place (reasm c) (rec_fsn chk) 0 with
        | None => sctp_abort_in_reasm p (put_ctl p c s)
        | Some i => Some (false, put_ctl p (c <| reasm := take i (reasm c) ++ chk :: drop i (reasm c) |>)
                                   (on_ack (join_reasm (send_size chk)) s))
        end
    end.

(** The result is [*abort_flag]. *)
Definition sctp_queue_data_for_reasm (env : rx_env) (p : nat) (chk : rx_chunk) (created_control : bool) (tsn : Z)
  (s : receiver) : option (bool * receiver) :=
  c ← ctl s p;
  let sid := Z.to_nat (sinfo_stream c) in
  let unordered := has_flag (flags_of c) SCTP_DATA_UNORDERED in
  '(aborted, s) ←
    (if created_control then
       let s := if unordered then s
                else on_ack (fun a => a <| cnt_on_all_streams := sctp_ucount_incr (cnt_on_all_streams a) |>) s in
       '(dup, s) ← sctp_place_control_in_stream env sid p s;
       if (dup : bool) then s ← sctp_clean_up_control p s; sctp_abort_in_reasm p s
       else if (tsn =? u32 (cumulative_tsn (arrays (ack s)) + 1)) && (idata_supported env =? 0)
               && negb (has_flag (rcv_flags chk) SCTP_DATA_FIRST_FRAG)
       then sctp_abort_in_reasm p s
       else Some (false, s)
     else Some (false, s));
  if (aborted : bool) then Some (true, s)
  else if (idata_supported env =? 0) && unordered then sctp_inject_old_unordered_data env p chk s
  else
    '(aborted, s) ← store_fragment env p chk s;
    if (aborted : bool) then Some (true, s)
    else s ← absorb_ready env sid p s; Some (false, s).

(** [control] or [NULL]. *)
Fixpoint find_mid (idata : Z) (store : gmap nat queued_to_read) (q : list nat) (m : Z) : option (option nat) :=
  match q with
  | [] => Some None
  | p :: q => c ← store !! p; if SCTP_MID_EQ idata (mid c) m then Some (Some p) else find_mid idata store q m
  end.

Definition sctp_find_reasm_entry (env : rx_env) (sid : nat) (m : Z) (ordered : bool) (s : receiver)
  : option (option nat) :=
  x ← strm s sid;
  if ordered then find_mid (idata_supported env) (controls s) (inqueue x) m
  else if idata_supported env =? 0 then Some (TAILQ_FIRST (uno_inqueue x))
  else find_mid (idata_supported env) (controls s) (uno_inqueue x) m.

(** ** One chunk *)

(** The fields of the chunk's header, in host order. *)
Record data_hdr := DataHdr {
  dh_type : Z;
  dh_flags : Z;
  dh_tsn : Z;
  dh_sid : Z;
  dh_mid : Z;
  dh_fsn : Z;
  dh_ppid : Z;
  dh_clen : Z
}.

Definition SCTP_DATA : Z := 0.
Definition SCTP_IDATA : Z := 0x40.

Definition be16 (l : list Z) : Z := match l with a :: b :: _ => 256 * a + b | _ => 0 end.
Definition be32 (l : list Z) : Z :=
  match l with a :: b :: c :: d :: _ => 16777216 * a + 65536 * b + 256 * c + d | _ => 0 end.
(** A field that stays in network order, read by a little-endian machine. *)
Definition le32 (l : list Z) : Z :=
  match l with a :: b :: c :: d :: _ => 16777216 * d + 65536 * c + 256 * b + a | _ => 0 end.

(** The header of a chunk at [offset].  The result of [sctp_m_getptr] is used without a
    check, so [NULL] is [None]. *)
Definition data_chunk_header (chk_type : Z) (m : list mbuf) (offset : Z) : option data_hdr :=
  if chk_type =? SCTP_IDATA then
    r ← sctp_m_getptr (map m_bytes m) offset 20 20;
    b ← (r : option (list Z));
    let flags := nth 1 b 0 in
    let first := has_flag flags SCTP_DATA_FIRST_FRAG in
    Some (DataHdr chk_type flags (be32 (drop 4 b)) (be16 (drop 8 b)) (be32 (drop 12 b))
            (if first then 0 else be32 (drop 16 b)) (if first then le32 (drop 16 b) else 0xffffffff) 20)
  else
    r ← sctp_m_getptr (map m_bytes m) offset 16 16;
    b ← (r : option (list Z));
    let tsn := be32 (drop 4 b) in
    Some (DataHdr chk_type (nth 1 b 0) tsn (be16 (drop 8 b)) (be16 (drop 10 b)) tsn (le32 (drop 12 b)) 16).

(** What becomes of a chunk: the result and the two flags. *)
Inductive chunk_verdict :=
| Ignored        (** [0]: a duplicate, too far ahead, no memory, an invalid stream *)
| Aborted        (** [0] and [*abort_flag] *)
| NoRoom         (** [0] and [*break_flag] *)
| Taken.         (** [1] *)

(** The user data: a copy, or, of the last chunk, the packet itself.  [None] is [NULL]. *)
Definition take_payload (env : rx_env) (h : data_hdr) (m : list mbuf) (offset the_len : Z) (last_chunk : bool)
  (s : receiver) : option (option (list mbuf) * receiver) :=
  if last_chunk then
    let dmbuf := m_adj m (offset + dh_clen h) in
    let l_len := chain_len dmbuf in
    let dmbuf := if the_len <? l_len then m_adj dmbuf (- (l_len - the_len)) else dmbuf in
    Some (match dmbuf with [] => None | _ => Some dmbuf end, s)
  else
    r ← m_copym (fun k => rx_alloc env (allocs s + k)) m (offset + dh_clen h) the_len;
    Some (match r with Some (_ :: _) => r | _ => None end, s <| allocs := (allocs s + S (length m))%nat |>).

(** [sctp_build_readq_entry_mac], and what is added for a message in one piece. *)
Definition build_control (h : data_hdr) (dmbuf : list mbuf) : queued_to_read :=
  let c := QueuedToRead (dh_sid h) (u16 (Z.shiftl (dh_flags h) 8)) (dh_ppid h) (dh_tsn h) (dh_tsn h)
             (dh_mid h) 0 0xffffffff 0xffffffff [] None true [] 0 0 0 0 0 0 0 in
  if not_frag (dh_flags h) then
    (((((c <| data := dmbuf |>) <| ctl_length := sum_len dmbuf |>) <| end_added := 1 |>)
        <| last_frag_seen := 1 |> <| first_frag_seen := 1 |>) <| fsn_included := dh_fsn h |>)
      <| top_fsn := dh_fsn h |>
  else c.

Definition build_chunk (h : data_hdr) (the_len : Z) (dmbuf : list mbuf) : rx_chunk :=
  RxChunk (dh_tsn h) (dh_fsn h) (dh_mid h) (dh_sid h) (dh_ppid h) (dh_flags h) (u16 the_len) dmbuf.

(** The checks on the control that is found: the control to go on with, or an abort. *)
Definition check_control (env : rx_env) (h : data_hdr) (control : option nat) (s : receiver)
  : option (option (option nat)) :=
  let ordered := negb (has_flag (dh_flags h) SCTP_DATA_UNORDERED) in
  match control with
  | None => Some (Some None)
  | Some p =>
      c ← ctl s p;
      let c_unordered := has_flag (flags_of c) SCTP_DATA_UNORDERED in
      if negb (not_frag (dh_flags h)) then
        if ordered && negb (dh_mid h =? mid c) then Some None
        else if ordered && c_unordered then Some None
        else if negb ordered && negb c_unordered then Some None
        else Some (Some (Some p))
      else if ordered || negb (idata_supported env =? 0) then Some None
      else if (dh_tsn h =? u32 (fsn_included c + 1)) && (end_added c =? 0) then Some None
      else Some (Some None)
  end.

(** Too much is held already; the second result is "wake-up". *)
Definition no_room (env : rx_env) (s : receiver) : bool :=
  let a := ack s in
  (sctp_max_chunks_on_queue env
     <=? u32 (cnt_on_all_streams a + cnt_on_reasm_queue a + cnt_msg_on_sb s))
  || (i32 (my_rwnd a) <=? 0).

(** With no room, only what is inside what was accepted before. *)
Definition inside_accepted (h : data_hdr) (control : option nat) (s : receiver) : option bool :=
  let a := arrays (ack s) in
  if dh_type h =? SCTP_DATA then
    Some (negb (SCTP_TSN_GT (dh_tsn h) (highest_tsn_inside_map a)
                && SCTP_TSN_GT (dh_tsn h) (highest_tsn_inside_nr_map a)))
  else
    match control with
    | None => Some false
    | Some p => c ← ctl s p; Some (negb (SCTP_TSN_GT (dh_fsn h) (top_fsn c)))
    end.

(** The place of a message that waits for a stream reset. *)
Fixpoint pending_place (store : gmap nat queued_to_read) (q : list nat) (tsn : Z) (i : nat) : option nat :=
  match q with
  | [] => Some i
  | p :: q => c ← store !! p; if SCTP_TSN_GT tsn (sinfo_tsn c) then pending_place store q tsn (S i) else Some i
  end.

(** A message in one piece that cannot go to the application at once. *)
Definition queue_single (env : rx_env) (h : data_hdr) (p : nat) (s : receiver) : option (bool * bool * receiver) :=
  c ← ctl s p;
  match resetHead s with
  | liste :: _ =>
      if SCTP_TSN_GT (dh_tsn h) (rst_tsn liste) then
        i ← pending_place (controls s) (pending_reply_queue s) (sinfo_tsn c) 0;
        if decide (p ∈ pending_reply_queue s) then None
        else Some (false, false, s <| pending_reply_queue := insert_at (pending_reply_queue s) i p |>)
      else if has_flag (dh_flags h) SCTP_DATA_UNORDERED then
        s ← mark_non_revokable env (sinfo_tsn c) s;
        s ← sctp_add_to_readq env p 1 s; Some (false, false, s)
      else sctp_queue_data_to_stream env p false s
  | [] =>
      if has_flag (dh_flags h) SCTP_DATA_UNORDERED then
        s ← mark_non_revokable env (sinfo_tsn c) s;
        s ← sctp_add_to_readq env p 1 s; Some (false, false, s)
      else sctp_queue_data_to_stream env p false s
  end.

(** [sctp_reset_in_stream]: [list] holds the stream numbers, in host order. *)
Fixpoint reset_streams (l : list Z) (s : receiver) : receiver :=
  match l with
  | [] => s
  | sid :: l =>
      reset_streams l
        (match strm s (Z.to_nat sid) with
         | Some x => put_strm (Z.to_nat sid) (x <| last_mid_delivered := 0xffffffff |>) s
         | None => s
         end)
  end.

Definition sctp_reset_in_stream (number_entries : Z) (list : list Z) (s : receiver) : option receiver :=
  if number_entries =? 0 then
    Some (emit (StreamsReset 0 []) (s <| strmin := map (set_field last_mid_delivered 0xffffffff) (strmin s) |>))
  else if Z.of_nat (length list) <? number_entries then None
  else
    let l := take (Z.to_nat number_entries) list in
    Some (emit (StreamsReset number_entries l) (reset_streams l s)).

(** The loops that release what waited for a reset: everything, or what is not beyond
    [limit].  The result is [*abort_flag]. *)
Fixpoint release_pending (env : rx_env) (limit : option Z) (q : list nat) (s : receiver) : option (bool * receiver) :=
  match q with
  | [] => Some (false, s)
  | p :: q =>
      c ← ctl s p;
      if (match limit with Some t => SCTP_TSN_GT (sinfo_tsn c) t | None => false end) then Some (false, s)
      else
        pq ← TAILQ_REMOVE (pending_reply_queue s) p;
        '(aborted, need, s) ← sctp_queue_data_to_stream env p false (s <| pending_reply_queue := pq |>);
        if (aborted : bool) then Some (true, s)
        else
          s ← (if (need : bool)
               then c ← ctl s p;
                    '(_, s) ← sctp_deliver_reasm_check env (Z.to_nat (sinfo_stream c)) s; Some s
               else Some s);
          release_pending env limit q s
  end.

(** "check the special flag for stream resets". *)
Definition finish_resets (env : rx_env) (s : receiver) : option (bool * receiver) :=
  match resetHead s with
  | liste :: rest =>
      if SCTP_TSN_GE (cumulative_tsn (arrays (ack s))) (rst_tsn liste) then
        s ← sctp_reset_in_stream (number_entries liste) (list_of_streams liste) s;
        let s := emit (ResetResponse (rst_seq liste)) (s <| resetHead := rest |>) in
        release_pending env (match rest with [] => None | l :: _ => Some (rst_tsn l) end) (pending_reply_queue s) s
      else Some (false, s)
  | [] => Some (false, s)
  end.

(** "finish_express_del". *)
Definition finish_data (env : rx_env) (h : data_hdr) (need_reasm_check : bool) (s : receiver)
  : option (chunk_verdict * receiver) :=
  let s := on_ack (fun a => a <| arrays := data_chunk_cumack (arrays a) (dh_tsn h) |>) s in
  s ← (if need_reasm_check
       then '(_, s) ← sctp_deliver_reasm_check env (Z.to_nat (dh_sid h)) s; Some s else Some s);
  '(aborted, s) ← finish_resets env s;
  Some (if (aborted : bool) then Aborted else Taken, s).

(** The part after the user data are at hand. *)
Definition deliver_data (env : rx_env) (h : data_hdr) (gap the_len : Z) (control : option nat) (dmbuf : list mbuf)
  (s : receiver) : option (chunk_verdict * receiver) :=
  let sid := Z.to_nat (dh_sid h) in
  let ordered := negb (has_flag (dh_flags h) SCTP_DATA_UNORDERED) in
  let '(control, s) := (match control with
                        | Some p => (Some (p, false), s)
                        | None =>
                            let '(ok, s) := alloc_ok env s in
                            if (ok : bool) then let '(p, s) := new_ctl (build_control h dmbuf) s in (Some (p, true), s)
                            else (None, s)
                        end) in
  match control with
  | None => Some (Ignored, s)
  | Some (p, created) =>
      x ← strm s sid;
      let no_reset := match resetHead s with [] => true | _ => false end in
      if not_frag (dh_flags h) && no_reset
         && (negb ordered
             || (SCTP_MID_EQ (idata_supported env) (u32 (last_mid_delivered x + 1)) (dh_mid h)
                 && TAILQ_EMPTY (inqueue x)))
      then
        a ← mark_nr (arrays (ack s)) gap (dh_tsn h);
        s ← sctp_add_to_readq env p 1 (on_ack (fun k => k <| arrays := a |>) s);
        x ← strm s sid;
        let s := if ordered
                 then put_strm sid (x <| last_mid_delivered := u32 (last_mid_delivered x + 1) |>) s else s in
        finish_data env h false s
      else
        let '(ok, s) := if not_frag (dh_flags h) then (true, s) else alloc_ok env s in
        if negb ok then Some (Ignored, s)
        else
          a ← data_chunk_mark (sctp_do_drain env) (arrays (ack s)) gap (dh_tsn h);
          let s := on_ack (fun k => k <| arrays := a |>) s in
          if not_frag (dh_flags h) then
            '(aborted, need, s) ← queue_single env h p s;
            if (aborted : bool) then Some (Aborted, s) else finish_data env h need s
          else
            '(aborted, s) ← sctp_queue_data_for_reasm env p (build_chunk h the_len dmbuf) created (dh_tsn h) s;
            if (aborted : bool) then Some (Aborted, s) else finish_data env h true s
  end.

(** From "Is the stream valid?" on, with the payload of the chunk still in the packet. *)
Definition accept_data (env : rx_env) (h : data_hdr) (gap chk_length : Z) (m : list mbuf) (offset : Z)
  (last_chunk : bool) (s : receiver) : option (chunk_verdict * receiver) :=
  let ordered := negb (has_flag (dh_flags h) SCTP_DATA_UNORDERED) in
  let sid := Z.to_nat (dh_sid h) in
  match strm s sid with
  | None =>
      a ← mark_nr (arrays (ack s)) gap (dh_tsn h);
      Some (Ignored, emit (InvalidStream (dh_sid h))
                       (on_ack (fun k => k <| arrays := data_chunk_cumack a (dh_tsn h) |>) s))
  | Some x =>
      if (dh_type h =? SCTP_IDATA) && negb (has_flag (dh_flags h) SCTP_DATA_FIRST_FRAG) && (dh_fsn h =? 0)
      then Some (Aborted, abort (loc 15) s)
      else
        control ← sctp_find_reasm_entry env sid (dh_mid h) ordered s;
        control ← check_control env h control s;
        match control with
        | None => Some (Aborted, abort (loc 15) s)
        | Some control =>
            inside ← (if no_room env s
                      then match so_hiwat env with
                           | None => None
                           | Some _ => inside_accepted h control s
                           end
                      else Some true);
            let s := if no_room env s && negb (so_sb_cc s =? 0) then emit WakeReader s else s in
            if negb inside then
              Some (NoRoom, on_ack (sctp_set_rwnd (so_hiwat env)) s)
            else if has_flag (dh_flags h) SCTP_DATA_FIRST_FRAG
                    && (match resetHead s with [] => true | _ => false end) && ordered
                    && SCTP_MID_GE (idata_supported env) (last_mid_delivered x) (dh_mid h)
            then Some (Aborted, abort (loc 16) s)
            else
              let the_len := chk_length - dh_clen h in
              '(dmbuf, s) ← take_payload env h m offset the_len last_chunk s;
              match dmbuf with
              | None => Some (Ignored, s)
              | Some dmbuf => deliver_data env h gap the_len control dmbuf s
              end
        end
  end.

(** The handler of a chunk; [high_tsn] is the caller's variable.  The two outcomes of the
    growth of the arrays are taken from the allocator. *)
Definition sctp_process_a_data_chunk (env : rx_env) (m : list mbuf) (offset chk_length : Z) (last_chunk : bool)
  (chk_type high_tsn : Z) (s : receiver) : option (chunk_verdict * Z * receiver) :=
  h ← data_chunk_header chk_type m offset;
  if chk_length =? dh_clen h then Some (Aborted, high_tsn, abort (loc 14) s)
  else
    let s := if has_flag (dh_flags h) SCTP_DATA_SACK_IMMEDIATELY
             then on_ack (fun a => a <| arrays := (arrays a) <| send_sack := 1 |> |>) s else s in
    let '(ok1, s) := alloc_ok env s in
    let '(ok2, s) := alloc_ok env s in
    '(v, high_tsn, a) ← data_chunk_lookup ok1 ok2 (arrays (ack s)) (dh_tsn h) high_tsn;
    let s := on_ack (fun k => k <| arrays := a |>) s in
    match v with
    | Fresh gap =>
        if socket_gone env || has_flag (assoc_state (ack s)) SCTP_STATE_CLOSED_SOCKET
        then Some (Aborted, high_tsn, abort 0 s)
        else
          '(r, s) ← accept_data env h gap chk_length m offset last_chunk s;
          Some (r, high_tsn, s)
    | _ => Some (Ignored, high_tsn, s)
    end.

(** ** The data part of a packet *)

Definition SCTP_SIZE32 (x : Z) : Z := Z.shiftl (Z.shiftr (x + 3) 2) 2.

(** The chunk types "that are NOT in the right place". *)
Definition misplaced_types : list Z :=
  [0x01; 0x02; 0x03; 0x10; 0x04; 0x05; 0x06; 0x07; 0x08; 0x09; 0x0a; 0x0b; 0x0c; 0x0d; 0x0e; 0x0f;
   0x80; 0x81; 0x82; 0xc0; 0xc1].

(** What the loop hands on: the offset, the number of chunks taken, [break_flag], the
    highest TSN; or the end of the association. *)
Inductive data_end :=
| DataDone (offset num_chunks : Z) (break_flag : bool) (high_tsn : Z)
| DataAborted (offset high_tsn : Z).

(** [ch]: type and length of the chunk at [offset]. *)
Definition chunk_header (m : list mbuf) (offset : Z) : option (option (Z * Z)) :=
  r ← sctp_m_getptr (map m_bytes m) offset 4 4;
  Some (match r with None => None | Some b => Some (nth 0 b 0, be16 (drop 2 b)) end).

(** "unknown chunk type, use bit rules": the report to the peer. *)
Definition report_unknown (env : rx_env) (m : list mbuf) (offset chk_length type : Z) (s : receiver) : option receiver :=
  if Z.land type 0x40 =? 0 then Some s
  else
    let '(ok, s) := alloc_ok env s in
    if negb ok then Some s
    else
      r ← m_copym (fun k => rx_alloc env (allocs s + k)) m offset chk_length;
      let s := s <| allocs := (allocs s + S (length m))%nat |> in
      Some (match r with
            | Some (x :: l) => emit (UnrecognizedChunk (u16 (chk_length + 4)) (chain_bytes (x :: l))) s
            | _ => s
            end).

(** The loop over the chunks.  Every round takes fuel; a chunk of length 0 does not move
    [offset]. *)
Fixpoint data_loop (fuel : nat) (env : rx_env) (m : list mbuf) (length type chk_length offset num high_tsn : Z)
  (s : receiver) : option (data_end * receiver) :=
  match fuel with
  | O => None
  | S fuel =>
      let next (num high_tsn : Z) (s : receiver) :=
        let offset := offset + SCTP_SIZE32 chk_length in
        if length <=? offset then Some (DataDone offset num false high_tsn, s)
        else
          ch ← chunk_header m offset;
          match ch with
          | None => Some (DataDone length num false high_tsn, s)
          | Some (type, chk_length) => data_loop fuel env m length type chk_length offset num high_tsn s
          end in
      if length - offset <? chk_length then Some (DataDone offset num false high_tsn, s)
      else if (idata_supported env =? 1) && (type =? SCTP_DATA) then Some (DataAborted offset high_tsn, abort (loc 18) s)
      else if (idata_supported env =? 0) && (type =? SCTP_IDATA) then Some (DataAborted offset high_tsn, abort (loc 19) s)
      else if (type =? SCTP_DATA) || (type =? SCTP_IDATA) then
        let clen := if type =? SCTP_DATA then 16 else 20 in
        if chk_length <? clen then Some (DataAborted offset high_tsn, abort (loc 20) s)
        else
          let last_chunk := SCTP_SIZE32 chk_length =? length - offset in
          '(v, high_tsn, s) ← sctp_process_a_data_chunk env m offset chk_length last_chunk type high_tsn s;
          match v with
          | Aborted => Some (DataAborted offset high_tsn, s)
          | NoRoom => Some (DataDone offset num true high_tsn, s)
          | Taken => next (num + 1) high_tsn s
          | Ignored => next num high_tsn s
          end
      else if existsb (Z.eqb type) misplaced_types then Some (DataAborted offset high_tsn, abort 0 s)
      else
        s ← report_unknown env m offset chk_length type s;
        if Z.land type 0x80 =? 0 then Some (DataDone (offset + SCTP_SIZE32 chk_length) num false high_tsn, s)
        else next num high_tsn s
  end.

(** The result is 0, 1 (no chunk header) or 2 (aborted), [*offset] and [*high_tsn]; [from]
    is the destination the packet came from, [fuel] bounds the number of chunks. *)
Definition sctp_process_data (fuel : nat) (env : rx_env) (sack : sack_env) (m : list mbuf) (offset length : Z)
  (from : option Z) (s : receiver) : option (Z * Z * Z * receiver) :=
  let s := on_ack (sctp_set_rwnd (so_hiwat env)) s in
  let was_a_gap := SCTP_TSN_GT (highest_tsn (arrays (ack s))) (cumulative_tsn (arrays (ack s))) in
  let s := on_ack (fun a => a <| last_data_chunk_from := from |>) s in
  ch ← chunk_header m offset;
  match ch with
  | None => Some (1, offset, 0, s)
  | Some (type, chk_length) =>
      let high_tsn := cumulative_tsn (arrays (ack s)) in
      let s := on_ack (fun a => a <| data_pkts_seen := u32 (data_pkts_seen a + 1) |>) s in
      '(e, s) ← data_loop fuel env m length type chk_length offset 0 high_tsn s;
      match e with
      | DataAborted offset high_tsn => Some (2, offset, high_tsn, s)
      | DataDone offset num break_flag high_tsn =>
          let s := if (break_flag : bool) then emit PacketDropped s else s in
          let s := if Z.land (assoc_state (ack s)) SCTP_STATE_MASK =? SCTP_STATE_SHUTDOWN_SENT
                   then on_ack (fun a => a <| arrays := (arrays a) <| send_sack := 1 |> |>) s else s in
          '(_, a) ← sctp_sack_check sack was_a_gap (ack s);
          Some (0, offset, high_tsn, s <| ack := a |>)
      end
  end.

(** Rounds that are enough for a packet whose chunks have at least four bytes. *)
Definition data_fuel (length : Z) : nat := S (Z.to_nat length).
