(* ===== verification/TsnMapInv.v ===== *)
(** * The mapping arrays stand for a set of TSNs

    The abstract receiver is a first TSN and the set of TSNs it has got; TSNs are
    integers without bound.  The relation [Arr] says that the two bit arrays stand
    for such a set, [Repr] that the cumulative TSN does too.  The lemmas of this file
    say what each operation of [TsnMap] does to the set. *)

From S2P Require Import Prelude Serial TsnMap.

Open Scope sctp_scope.

(** ** Bits of an array *)

(** Bit [g] of an array; beyond its end all bits are clear. *)
Definition bit (arr : list Z) (g : Z) : bool :=
  (0 <=? g) && match arr !! Z.to_nat (g / 8) with
               | Some b => Z.testbit b (g mod 8)
               | None => false
               end.

Definition bytes_ok (arr : list Z) : Prop := Forall in_u8 arr.

Section Bits.

Lemma get_at_nat {A} (arr : list A) i : 0 <= i -> get_at arr i = arr !! Z.to_nat i.
Proof. intros. unfold get_at. by destruct (Z.ltb_spec i 0); [lia|]. Qed.

Lemma get_at_some {A} (arr : list A) i :
  0 <= i < Z.of_nat (length arr) -> exists x, get_at arr i = Some x /\ x ∈ arr.
Proof.
  intros. rewrite get_at_nat by lia.
  destruct (arr !! Z.to_nat i) eqn:E.
  - eauto using list_elem_of_lookup_2.
  - apply lookup_ge_None_1 in E. lia.
Qed.

Lemma set_at_some {A} (arr : list A) i v :
  0 <= i < Z.of_nat (length arr) -> set_at arr i v = Some (<[Z.to_nat i := v]> arr).
Proof. intros. unfold set_at. zbool; simpl; done || lia. Qed.

Lemma land7 g : Z.land g 7 = g mod 8.
Proof. apply (Z.land_ones g 3). lia. Qed.

Lemma shiftr3 g : Z.shiftr g 3 = g / 8.
Proof. by rewrite Z.shiftr_div_pow2 by lia. Qed.

Lemma shiftl3 g : Z.shiftl g 3 = 8 * g.
Proof. rewrite Z.shiftl_mul_pow2 by lia. lia. Qed.

Lemma land_1_testbit b i : 0 <= i -> negb (Z.land (Z.shiftr b i) 1 =? 0) = Z.testbit b i.
Proof.
  intros. rewrite (Z.land_ones _ 1) by lia. change (2 ^ 1) with 2.
  rewrite <- Z.bit0_mod, Z.shiftr_spec, Z.add_0_l by lia.
  by destruct (Z.testbit b i).
Qed.

Lemma bit_out arr g : g < 0 \/ 8 * Z.of_nat (length arr) <= g -> bit arr g = false.
Proof.
  intros H. unfold bit. destruct (Z.leb_spec 0 g); [|done]. simpl.
  rewrite lookup_ge_None_2; [done|].
  assert (Z.of_nat (length arr) <= g / 8) by (Z.div_mod_to_equations; lia). lia.
Qed.

Lemma bit_insert arr i v g :
  0 <= i < Z.of_nat (length arr) -> 0 <= g ->
  bit (<[Z.to_nat i := v]> arr) g = if g / 8 =? i then Z.testbit v (g mod 8) else bit arr g.
Proof.
  intros Hi Hg. unfold bit. destruct (Z.leb_spec 0 g); [|lia]. simpl.
  assert (0 <= g / 8) by (Z.div_mod_to_equations; lia).
  destruct (Z.eqb_spec (g / 8) i) as [-> | Hne].
  - rewrite list_lookup_insert_eq; [done | lia].
  - rewrite list_lookup_insert_ne; [done | lia].
Qed.

Lemma bit_of_byte arr i b g :
  0 <= g -> g / 8 = i -> get_at arr i = Some b -> bit arr g = Z.testbit b (g mod 8).
Proof.
  intros Hg <- E. rewrite get_at_nat in E by (Z.div_mod_to_equations; lia).
  unfold bit. rewrite E. by destruct (Z.leb_spec 0 g); [|lia].
Qed.

(** The byte that holds bit [g]. *)
Lemma byte_of_bit arr g :
  bytes_ok arr -> 0 <= g < 8 * Z.of_nat (length arr) ->
  exists b, get_at arr (g / 8) = Some b /\ in_u8 b /\ 0 <= g / 8 < Z.of_nat (length arr).
Proof.
  intros Hok Hg.
  assert (Hi : 0 <= g / 8 < Z.of_nat (length arr)) by (Z.div_mod_to_equations; lia).
  destruct (get_at_some arr (g / 8) Hi) as (b & E & Hb).
  exists b. split; [done|]. split; [|done]. unfold bytes_ok in Hok.
  rewrite Forall_forall in Hok. by apply Hok.
Qed.

Lemma is_present_spec arr g :
  bytes_ok arr -> 0 <= g < 8 * Z.of_nat (length arr) ->
  SCTP_IS_TSN_PRESENT arr g = Some (bit arr g).
Proof.
  intros Hok Hg. destruct (byte_of_bit arr g) as (b & E & _); [done..|].
  unfold SCTP_IS_TSN_PRESENT. rewrite shiftr3, land7, E. simpl.
  rewrite land_1_testbit by (Z.div_mod_to_equations; lia).
  rewrite (bit_of_byte arr (g / 8) b); [done | lia | done..].
Qed.

(** What setting or clearing bit [g] of an array makes of it. *)
Record bit_written (v : bool) (arr : list Z) (g : Z) (arr' : list Z) : Prop := {
  bw_len : length arr' = length arr;
  bw_ok : bytes_ok arr';
  bw_bit : forall k, bit arr' k = if k =? g then v else bit arr k
}.

Lemma bit_written_byte v arr g b w :
  bytes_ok arr -> 0 <= g < 8 * Z.of_nat (length arr) ->
  get_at arr (g / 8) = Some b -> in_u8 w ->
  (forall i, 0 <= i < 8 -> Z.testbit w i = if i =? g mod 8 then v else Z.testbit b i) ->
  bit_written v arr g (<[Z.to_nat (g / 8) := w]> arr).
Proof.
  intros Hok Hg E Hw Hbits.
  assert (Hi : 0 <= g / 8 < Z.of_nat (length arr)) by (Z.div_mod_to_equations; lia).
  split.
  - apply length_insert.
  - by apply Forall_insert.
  - intros k. destruct (Z.lt_ge_cases k 0) as [Hk | Hk].
    { rewrite !bit_out by lia. by destruct (Z.eqb_spec k g); [lia|]. }
    rewrite bit_insert by lia. destruct (Z.eqb_spec (k / 8) (g / 8)) as [Hq | Hq].
    + rewrite Hbits by (Z.div_mod_to_equations; lia).
      rewrite (bit_of_byte arr (g / 8) b k) by done.
      destruct (Z.eqb_spec (k mod 8) (g mod 8)), (Z.eqb_spec k g); try done;
        Z.div_mod_to_equations; lia.
    + destruct (Z.eqb_spec k g); [congruence | done].
Qed.

Lemma set_present_spec arr g :
  bytes_ok arr -> 0 <= g < 8 * Z.of_nat (length arr) ->
  exists arr', SCTP_SET_TSN_PRESENT arr g = Some arr' /\ bit_written true arr g arr'.
Proof.
  intros Hok Hg. destruct (byte_of_bit arr g) as (b & E & Hb & Hi); [done..|].
  unfold SCTP_SET_TSN_PRESENT. rewrite shiftr3, land7, E. simpl.
  rewrite set_at_some by done. eexists. split; [reflexivity|].
  eapply bit_written_byte; [done..|width_lia|].
  intros i Hii. unfold u8. rewrite <- (Z.land_ones _ 8), Z.land_spec, Z.ones_spec_low by lia.
  rewrite Z.lor_spec, andb_true_r, Z.shiftl_spec by lia.
  destruct (Z.eqb_spec i (g mod 8)) as [-> | Hne].
  - by rewrite Z.sub_diag, orb_true_r.
  - destruct (Z.lt_ge_cases i (g mod 8)).
    + rewrite (Z.testbit_neg_r 1) by lia. apply orb_false_r.
    + rewrite (testbit_above 1 1) by lia. apply orb_false_r.
Qed.

Lemma unset_present_spec arr g :
  bytes_ok arr -> 0 <= g < 8 * Z.of_nat (length arr) ->
  exists arr', SCTP_UNSET_TSN_PRESENT arr g = Some arr' /\ bit_written false arr g arr'.
Proof.
  intros Hok Hg. destruct (byte_of_bit arr g) as (b & E & Hb & Hi); [done..|].
  unfold SCTP_UNSET_TSN_PRESENT. rewrite shiftr3, land7, E. simpl.
  rewrite set_at_some by done. eexists. split; [reflexivity|].
  eapply bit_written_byte; [done..| |].
  { apply (land_bound 8); [lia|]. apply (land_bound 8); lia. }
  intros i Hii. rewrite !Z.land_spec, (Z.ones_spec_low 8), Z.lnot_spec, Z.shiftl_spec by lia.
  rewrite andb_true_r. destruct (Z.eqb_spec i (g mod 8)) as [-> | Hne].
  - by rewrite Z.sub_diag, andb_false_r.
  - destruct (Z.lt_ge_cases i (g mod 8)).
    + rewrite (Z.testbit_neg_r 1) by lia. apply andb_true_r.
    + rewrite (testbit_above 1 1) by lia. apply andb_true_r.
Qed.

Lemma bit_replicate n k : bit (replicate n 0) k = false.
Proof.
  unfold bit. destruct (0 <=? k); [|done]. simpl.
  destruct (replicate n 0 !! Z.to_nat (k / 8)) eqn:E; [|done].
  apply lookup_replicate in E as [-> _]. apply Z.bits_0.
Qed.

Lemma bytes_ok_replicate n : bytes_ok (replicate n 0).
Proof. apply Forall_replicate. width_lia. Qed.

(** Appending zeros does not change the bits. *)
Lemma bit_grow arr n k : bit (arr ++ replicate n 0) k = bit arr k.
Proof.
  unfold bit. destruct (0 <=? k); [|done]. simpl.
  destruct (arr !! Z.to_nat (k / 8)) eqn:E.
  - by rewrite (lookup_app_l_Some _ _ _ _ E).
  - apply lookup_ge_None_1 in E. rewrite lookup_app_r by lia.
    destruct (replicate n 0 !! _) eqn:E'; [|done].
    apply lookup_replicate in E' as [-> _]. apply Z.bits_0.
Qed.

(** Dropping bytes from the front shifts the bits. *)
Lemma bit_drop arr n k : 0 <= k -> bit (drop n arr) k = bit arr (k + 8 * Z.of_nat n).
Proof.
  intros Hk. unfold bit.
  destruct (Z.leb_spec 0 k), (Z.leb_spec 0 (k + 8 * Z.of_nat n)); try lia. simpl.
  rewrite lookup_drop.
  replace (Z.to_nat ((k + 8 * Z.of_nat n) / 8)) with (n + Z.to_nat (k / 8))%nat
    by (Z.div_mod_to_equations; lia).
  by replace ((k + 8 * Z.of_nat n) mod 8) with (k mod 8) by (Z.div_mod_to_equations; lia).
Qed.

Lemma bit_take arr n k :
  bit (take n arr) k = if k <? 8 * Z.of_nat n then bit arr k else false.
Proof.
  destruct (Z.ltb_spec k (8 * Z.of_nat n)).
  - unfold bit. destruct (Z.leb_spec 0 k); [|done]. simpl.
    by rewrite lookup_take_lt by (Z.div_mod_to_equations; lia).
  - apply bit_out. rewrite length_take. lia.
Qed.

End Bits.

(** ** The abstract receiver *)

(** The first TSN expected, and the TSNs got (or skipped by the sender). *)
Record received := Received { first : Z; got : gset Z }.

Definition has (s : received) (t : Z) : Prop := t < first s \/ t ∈ got s.

#[export] Instance has_dec s t : Decision (has s t).
Proof. unfold has. apply _. Defined.

Definition receive (s : received) (t : Z) : received := Received (first s) ({[t]} ∪ got s).

(** Give up TSNs (reneging). *)
Definition renege (s : received) (t : Z) : received := Received (first s) (got s ∖ {[t]}).

(** Everything up to [c] counts as got. *)
Definition skip_to (s : received) (c : Z) : received := Received (Z.max (first s) (c + 1)) (got s).

Lemma has_receive s t u : has (receive s t) u <-> u = t \/ has s u.
Proof. unfold has, receive. simpl. set_solver. Qed.

Lemma has_renege s t u : first s <= t -> has (renege s t) u <-> u <> t /\ has s u.
Proof.
  unfold has, renege. simpl. intros.
  rewrite elem_of_difference, elem_of_singleton. split; [|naive_solver].
  intros [H1 | H1]; [|naive_solver]. split; [lia | by left].
Qed.


Lemma has_skip s c u : has (skip_to s c) u <-> u <= c \/ has s u.
Proof.
  unfold has, skip_to. simpl.
  destruct (Z.max_spec (first s) (c + 1)) as [[? ->] | [? ->]]; split;
    (intros [|[|]] || intros [|]); (left; lia) || (right; left; lia) || (right; right; done) || (right; done).
Qed.

(** ** The relation *)

(** A bit is set in one of the arrays. *)
Definition seen (a : tsn_map) (g : Z) : bool := bit (mapping_array a) g || bit (nr_mapping_array a) g.

(** How far a highest TSN may lag behind the base of the arrays. *)
Definition lag_max : Z := 1073741824 + 16384.

(** The arrays of [a] start at [B] and stand for [s]; no bit of an array is above
    its highest TSN, [Hm] or [Hn]. *)
Record Arr (s : received) (B Hm Hn : Z) (a : tsn_map) : Prop := {
  arr_len_m : Z.of_nat (length (mapping_array a)) = mapping_array_size a;
  arr_len_nr : Z.of_nat (length (nr_mapping_array a)) = mapping_array_size a;
  arr_size : 1 <= mapping_array_size a <= 1056;
  arr_ok_m : bytes_ok (mapping_array a);
  arr_ok_nr : bytes_ok (nr_mapping_array a);
  arr_base : mapping_array_base_tsn a = u32 B;
  arr_hm : highest_tsn_inside_map a = u32 Hm;
  arr_hn : highest_tsn_inside_nr_map a = u32 Hn;
  arr_below : forall t, t < B -> has s t;
  arr_above : forall t, B + 8 * mapping_array_size a <= t -> ~ has s t;
  arr_bits : forall t, B <= t < B + 8 * mapping_array_size a -> has s t <-> seen a (t - B) = true;
  arr_top_m : forall g, bit (mapping_array a) g = true -> B + g <= Hm;
  arr_top_nr : forall g, bit (nr_mapping_array a) g = true -> B + g <= Hn;
  arr_in_m : B - lag_max <= Hm < B + 8 * mapping_array_size a;
  arr_in_nr : B - lag_max <= Hn < B + 8 * mapping_array_size a
}.

(** ... and its cumulative TSN is [C], up to which everything has been got. *)
Record Repr (s : received) (B C Hm Hn : Z) (a : tsn_map) : Prop := {
  repr_arr : Arr s B Hm Hn a;
  repr_cum : cumulative_tsn a = u32 C;
  repr_win : B - 1 <= C < B + 8 * mapping_array_size a;
  repr_below : forall t, t <= C -> has s t;
  repr_max : C <= Z.max Hm Hn;
  repr_first : first s <= C + 1;
  repr_dups : length (dup_tsns a) = 20%nat /\ 0 <= numduptsns a <= 20
}.

(** What an operation on the arrays leaves alone. *)
Record cum_same (a a' : tsn_map) : Prop := {
  cs_size : mapping_array_size a' = mapping_array_size a;
  cs_base : mapping_array_base_tsn a' = mapping_array_base_tsn a;
  cs_cum : cumulative_tsn a' = cumulative_tsn a;
  cs_dups : dup_tsns a' = dup_tsns a;
  cs_num : numduptsns a' = numduptsns a
}.

Section Marking.

Lemma seen_false_out s B Hm Hn a g :
  Arr s B Hm Hn a -> g < 0 \/ 8 * mapping_array_size a <= g -> seen a g = false.
Proof.
  intros HA Hg. unfold seen.
  rewrite !bit_out; [done | rewrite (arr_len_nr _ _ _ _ _ HA) | rewrite (arr_len_m _ _ _ _ _ HA)]; lia.
Qed.

(** Raising a highest TSN to [z] when [z] is above it. *)
Lemma raise_highest H z :
  - half32 < z - H < half32 ->
  (if SCTP_TSN_GT (u32 z) (u32 H) then u32 z else u32 H) = u32 (Z.max H z).
Proof. intros. rewrite tsn_gt_spec by lia. zbool; f_equal; lia. Qed.

Lemma if_highest_nr (c : bool) a v :
  (if c then a <| highest_tsn_inside_nr_map := v |> else a)
  = a <| highest_tsn_inside_nr_map := if c then v else highest_tsn_inside_nr_map a |>.
Proof. by destruct a, c. Qed.

Lemma if_highest (c : bool) a v :
  (if c then a <| highest_tsn_inside_map := v |> else a)
  = a <| highest_tsn_inside_map := if c then v else highest_tsn_inside_map a |>.
Proof. by destruct a, c. Qed.

(** Setting the bit of [z] in an array puts [z] into the set. *)
Lemma arr_receive s B Hm Hn a a' z Hm' Hn' vm vn :
  Arr s B Hm Hn a -> B <= z < B + 8 * mapping_array_size a -> vm || vn = true ->
  cum_same a a' ->
  (if vm then bit_written true (mapping_array a) (z - B) (mapping_array a')
   else mapping_array a' = mapping_array a) ->
  (if vn then bit_written true (nr_mapping_array a) (z - B) (nr_mapping_array a')
   else nr_mapping_array a' = nr_mapping_array a) ->
  highest_tsn_inside_map a' = u32 Hm' -> highest_tsn_inside_nr_map a' = u32 Hn' ->
  Hm <= Hm' < B + 8 * mapping_array_size a -> Hn <= Hn' < B + 8 * mapping_array_size a ->
  (vm = true -> z <= Hm') -> (vn = true -> z <= Hn') ->
  Arr (receive s z) B Hm' Hn' a'.
Proof.
  intros [Lm Lnr Sz Om Onr Eb Em En Be Ab Bi Tm Tn Im In] Hz Hv [Cs Cb _ _ _] Wm Wn Em' En' Rm Rn Zm Zn.
  assert (Hm0 : length (mapping_array a') = length (mapping_array a) /\ bytes_ok (mapping_array a')
                /\ forall k, bit (mapping_array a') k = (vm && (k =? z - B)) || bit (mapping_array a) k).
  { destruct vm; [destruct Wm as [? ? Wb] | rewrite Wm; done].
    do 2 (split; [done|]). intros k. rewrite Wb. by destruct (k =? z - B). }
  assert (Hn0 : length (nr_mapping_array a') = length (nr_mapping_array a) /\ bytes_ok (nr_mapping_array a')
                /\ forall k, bit (nr_mapping_array a') k = (vn && (k =? z - B)) || bit (nr_mapping_array a) k).
  { destruct vn; [destruct Wn as [? ? Wb] | rewrite Wn; done].
    do 2 (split; [done|]). intros k. rewrite Wb. by destruct (k =? z - B). }
  destruct Hm0 as (Lm' & Om' & Bm), Hn0 as (Ln' & On' & Bn).
  split; rewrite ?Cs, ?Cb, ?Lm', ?Ln'; try done; try lia.
  - intros t Ht. rewrite has_receive. auto.
  - intros t Ht. rewrite has_receive. intros [-> | Hh]; [lia | by eapply Ab].
  - intros t Ht. rewrite has_receive, Bi by lia. unfold seen. rewrite Bm, Bn.
    destruct (Z.eqb_spec (t - B) (z - B)).
    + rewrite !andb_true_r. assert (t = z) by lia.
      destruct vm, vn; try done; simpl; rewrite ?orb_true_r; tauto.
    + rewrite !andb_false_r, !orb_false_l. split; [intros [|]; [lia | done] | tauto].
  - intros g. rewrite Bm. intros [[-> Hg%Z.eqb_eq]%andb_true_iff | Hg]%orb_true_iff.
    + specialize (Zm eq_refl). lia.
    + specialize (Tm g Hg). lia.
  - intros g. rewrite Bn. intros [[-> Hg%Z.eqb_eq]%andb_true_iff | Hg]%orb_true_iff.
    + specialize (Zn eq_refl). lia.
    + specialize (Tn g Hg). lia.
Qed.

Lemma mark_nr_arr s B Hm Hn a z :
  Arr s B Hm Hn a -> B <= z < B + 8 * mapping_array_size a ->
  exists a', mark_nr a (z - B) (u32 z) = Some a' /\
    Arr (receive s z) B Hm (Z.max Hn z) a' /\ cum_same a a'.
Proof.
  intros HA Hz. pose proof HA as [Lm Lnr Sz Om Onr Eb Em En Be Ab Bi Tm Tn Im In].
  destruct (set_present_spec (nr_mapping_array a) (z - B)) as (nr & E & W); [done | lia |].
  unfold mark_nr. rewrite E. simpl. rewrite if_highest_nr. eexists. split; [reflexivity|].
  split; [|done]. eapply (arr_receive _ _ _ _ _ _ _ _ _ false true HA Hz); try done; try lia.
  simpl. rewrite En. apply raise_highest. unfold lag_max in *. lia.
Qed.

Lemma mark_r_arr s B Hm Hn a z :
  Arr s B Hm Hn a -> B <= z < B + 8 * mapping_array_size a ->
  exists a', mark_r a (z - B) (u32 z) = Some a' /\
    Arr (receive s z) B (Z.max Hm z) Hn a' /\ cum_same a a'.
Proof.
  intros HA Hz. pose proof HA as [Lm Lnr Sz Om Onr Eb Em En Be Ab Bi Tm Tn Im In].
  destruct (set_present_spec (mapping_array a) (z - B)) as (m & E & W); [done | lia |].
  unfold mark_r. rewrite E. simpl. rewrite if_highest. eexists. split; [reflexivity|].
  split; [|done]. eapply (arr_receive _ _ _ _ _ _ _ _ _ true false HA Hz); try done; try lia.
  simpl. rewrite Em. apply raise_highest. unfold lag_max in *. lia.
Qed.

End Marking.

(** ** Growing the arrays, and looking a TSN up *)

Section Lookup.

Lemma bit_grow_take arr size n k :
  Z.of_nat (length arr) = size -> bit (take (Z.to_nat size) arr ++ replicate n 0) k = bit arr k.
Proof. intros <-. rewrite Nat2Z.id, take_ge by lia. apply bit_grow. Qed.

Lemma bytes_ok_grow arr m n : bytes_ok arr -> bytes_ok (take m arr ++ replicate n 0).
Proof.
  intros. apply Forall_app. split; [by apply Forall_take | apply bytes_ok_replicate].
Qed.

(** The set does not change when the arrays grow; they grow beyond [needed]. *)
Lemma expand_arr s B Hm Hn a needed :
  Arr s B Hm Hn a -> 8 * mapping_array_size a <= needed < 4096 ->
  exists a', sctp_expand_mapping_array true true a needed = Some (0, a') /\
    Arr s B Hm Hn a' /\ needed < 8 * mapping_array_size a' /\
    mapping_array_size a <= mapping_array_size a' /\
    cumulative_tsn a' = cumulative_tsn a /\ dup_tsns a' = dup_tsns a /\ numduptsns a' = numduptsns a.
Proof.
  intros [Lm Lnr Sz Om Onr Eb Em En Be Ab Bi Tm Tn Im In] Hn0.
  unfold sctp_expand_mapping_array. simpl.
  set (new := u32 _).
  assert (Hnew : new = mapping_array_size a + ((needed + 7) / 8 + 32)).
  { subst new. unfold SCTP_MAPPING_ARRAY_INCR.
    rewrite (u32_id (needed + 7)), u32_id by (unfold in_u32; Z.div_mod_to_equations; lia). lia. }
  assert (Hr : mapping_array_size a + 32 <= new <= 1056)
    by (rewrite Hnew; Z.div_mod_to_equations; lia).
  assert (8 * ((needed + 7) / 8) >= needed) by (Z.div_mod_to_equations; lia).
  clearbody new. unfold grow. rewrite Lm, Lnr.
  assert (Hc : (mapping_array_size a <? mapping_array_size a) || (new <? mapping_array_size a) = false)
    by (zbool; simpl; lia || done).
  rewrite Hc. simpl. rewrite u16_id by (unfold in_u16; lia).
  eexists. split; [reflexivity|]. simpl. split; [|lia || (split_and!; done || lia)].
  split; simpl; try done; try lia.
  - rewrite length_app, length_take, length_replicate. lia.
  - rewrite length_app, length_take, length_replicate. lia.
  - by apply bytes_ok_grow.
  - by apply bytes_ok_grow.
  - intros t Ht. apply Ab. lia.
  - intros t Ht. unfold seen. simpl. rewrite !bit_grow_take by done.
    destruct (Z.lt_ge_cases t (B + 8 * mapping_array_size a)) as [Hlt | Hge].
    + apply Bi. lia.
    + rewrite !bit_out by lia. split; [|done]. intros Hh. by apply Ab in Hh.
  - intros g. rewrite bit_grow_take by done. apply Tm.
  - intros g. rewrite bit_grow_take by done. apply Tn.
Qed.

Lemma expand_fails a needed ok1 ok2 :
  ok1 && ok2 = false -> sctp_expand_mapping_array ok1 ok2 a needed = Some (-1, a).
Proof. intros. unfold sctp_expand_mapping_array. by destruct ok1, ok2. Qed.

Lemma record_dup_repr s B C Hm Hn a tsn :
  Repr s B C Hm Hn a ->
  exists a', record_dup a tsn = Some a' /\ Repr s B C Hm Hn a' /\ send_sack a' = 1.
Proof.
  intros [[] Cc Cw Cb Cm Cf [Dl Dn]]. unfold record_dup, SCTP_MAX_DUP_TSNS.
  destruct (Z.ltb_spec (numduptsns a) 20).
  - rewrite set_at_some by lia. simpl. eexists. split; [reflexivity|].
    split; [|done]. split; [split; done|done..|]. simpl.
    rewrite length_insert, u32_id by (unfold in_u32; lia). lia.
  - eexists. split; [reflexivity|]. split; [|done]. split; [split; done|done..].
Qed.

(** What the lookup of [z] answers, and on what grounds. *)
Definition verdict_ok (s : received) (B C : Z) (ok1 ok2 : bool) (a a' : tsn_map) (z : Z)
    (v : tsn_verdict) : Prop :=
  match v with
  | Duplicate => has s z /\ send_sack a' = 1
  | TooFar => C < z /\ B + 4096 <= z /\ a' = a
  | NoMemory => ok1 && ok2 = false /\ B + 8 * mapping_array_size a <= z /\ ~ has s z /\ a' = a
  | Fresh gap => gap = z - B /\ ~ has s z /\ B <= z < B + 8 * mapping_array_size a'
  end.

Lemma lookup_bits s B C Hm Hn a z high :
  Repr s B C Hm Hn a -> B <= z < B + 8 * mapping_array_size a ->
  exists (v : tsn_verdict) (h : Z) (a' : tsn_map),
    (in_r ← SCTP_IS_TSN_PRESENT (mapping_array a) (z - B);
     in_nr ← SCTP_IS_TSN_PRESENT (nr_mapping_array a) (z - B);
     if in_r || in_nr then (a' ← record_dup a (u32 z); Some (Duplicate, high, a'))
     else Some (Fresh (z - B), high, a)) = Some (v, h, a') /\
    Repr s B C Hm Hn a' /\
    match v with
    | Duplicate => has s z /\ send_sack a' = 1
    | Fresh gap => gap = z - B /\ ~ has s z /\ B <= z < B + 8 * mapping_array_size a'
    | _ => False
    end.
Proof.
  intros HR Hz. pose proof HR as [[Lm Lnr Sz Om Onr Eb Em En Be Ab Bi Tm Tn Im In] _ _ _ _ _ _].
  rewrite !is_present_spec by (done || lia). simpl. fold (seen a (z - B)).
  specialize (Bi z Hz). destruct (seen a (z - B)).
  - destruct (record_dup_repr s B C Hm Hn a (u32 z) HR) as (a' & -> & HR' & Hs).
    simpl. do 3 eexists. split; [reflexivity|]. split; [done|]. split; [by apply Bi | done].
  - do 3 eexists. split; [reflexivity|]. split; [done|]. split; [done|].
    split; [|done]. intros Hh. by apply Bi in Hh.
Qed.

Lemma data_chunk_lookup_repr s B C Hm Hn a ok1 ok2 z high :
  Repr s B C Hm Hn a -> C - half32 < z <= C + half32 ->
  exists v h a', data_chunk_lookup ok1 ok2 a (u32 z) high = Some (v, h, a') /\
    Repr s B C Hm Hn a' /\ verdict_ok s B C ok1 ok2 a a' z v.
Proof.
  intros HR Hz. pose proof HR as [HA Cc Cw Cb Cm Cf _].
  pose proof HA as [Lm Lnr Sz Om Onr Eb Em En Be Ab Bi Tm Tn Im In].
  unfold data_chunk_lookup. rewrite Cc, Eb.
  rewrite tsn_ge_window by lia. destruct (Z.leb_spec z C) as [Hle | Hgt].
  { destruct (record_dup_repr s B C Hm Hn a (u32 z) HR) as (a' & -> & HR' & Hs).
    simpl. do 3 eexists. split; [reflexivity|]. split; [done|]. split; [by apply Cb | done]. }
  rewrite calc_gap_spec by lia. rewrite !shiftl3. unfold SCTP_MAPPING_ARRAY.
  destruct (Z.leb_spec (8 * 512) (z - B)) as [Hfar | Hnear].
  { do 3 eexists. split; [reflexivity|]. split; [done|]. split; [lia | split; [lia | done]]. }
  destruct (Z.leb_spec (8 * mapping_array_size a) (z - B)) as [Hbig | Hsmall].
  - destruct (ok1 && ok2) eqn:Eok.
    + apply andb_true_iff in Eok as [-> ->].
      destruct (expand_arr s B Hm Hn a (z - B)) as (a1 & -> & HA1 & Hn1 & Hs1 & Ec & Ed & Edn); [done | lia|].
      simpl. destruct (lookup_bits s B C Hm Hn a1 z
        (if SCTP_TSN_GT (u32 z) high then u32 z else high)) as (v & h & a' & -> & HR' & Hv).
      { split; [done | by rewrite Ec | lia | done | done | done |]. rewrite Ed, Edn. apply HR. }
      { lia. }
      do 3 eexists. split; [reflexivity|]. split; [done|]. by destruct v.
    + rewrite expand_fails by done. simpl. do 3 eexists. split; [reflexivity|]. split; [done|].
      split; [done|]. split; [lia|]. split; [|done]. intros Hh. apply Ab in Hh; [done | lia].
  - simpl. destruct (lookup_bits s B C Hm Hn a z
      (if SCTP_TSN_GT (u32 z) high then u32 z else high)) as (v & h & a' & -> & HR' & Hv); [done | lia|].
    do 3 eexists. split; [reflexivity|]. split; [done|]. by destruct v.
Qed.

(** A TSN that was marked, with the update of the cumulative TSN. *)
Lemma cumack_repr s B C Hm Hn a z Hm' Hn' a1 :
  Repr s B C Hm Hn a -> C < z < B + 8 * mapping_array_size a ->
  Arr (receive s z) B Hm' Hn' a1 -> cum_same a a1 ->
  Hm <= Hm' -> Hn <= Hn' -> z <= Z.max Hm' Hn' ->
  Repr (receive s z) B (if z =? C + 1 then z else C) Hm' Hn' (data_chunk_cumack a1 (u32 z)).
Proof.
  intros [HA Cc Cw Cb Cm Cf Cd] Hz HA1 [Ss Sb Sc Sd Sn] Hm1 Hn1 Hmx.
  pose proof (arr_size _ _ _ _ _ HA). unfold data_chunk_cumack. rewrite Sc, Cc, u32_add_l, u32_eqb by lia.
  assert (Hb : forall t, t <= C -> has (receive s z) t) by (intros; rewrite has_receive; auto).
  assert (Hd : length (dup_tsns a1) = 20%nat /\ 0 <= numduptsns a1 <= 20) by (by rewrite Sd, Sn).
  destruct (Z.eqb_spec z (C + 1)).
  - split; simpl; try done; try lia.
    + destruct HA1. by split.
    + intros t Ht. destruct (Z.eq_dec t z) as [-> |]; [apply has_receive; auto|]. apply Hb. lia.
  - split; try done; lia || congruence.
Qed.

End Lookup.

(** ** Moving a TSN to the non-renegable array, and reneging *)

Section Revoke.

Lemma back_down_spec fuel s B Hm Hn a i :
  Arr s B Hm Hn a -> B - half32 < i < B + 8 * mapping_array_size a ->
  (Z.to_nat (i - B + 1) < fuel)%nat ->
  exists h, back_down fuel a (u32 i) = Some (u32 h) /\ B - 1 <= h <= Z.max i (B - 1) /\
    forall g, bit (mapping_array a) g = true -> B + g <= i -> B + g <= h.
Proof.
  intros HA. pose proof HA as [Lm Lnr Sz Om Onr Eb Em En Be Ab Bi Tm Tn Im In].
  revert i. induction fuel as [|fuel IH]; intros i Hi Hf; [lia|]. simpl.
  rewrite Eb, tsn_ge_spec by lia. destruct (Z.leb_spec B i) as [Hle | Hlt].
  - rewrite calc_gap_spec, is_present_spec by (done || lia). simpl.
    destruct (bit (mapping_array a) (i - B)) eqn:E.
    + exists i. split; [done|]. split; [lia | done].
    + rewrite u32_sub_l. destruct (IH (i - 1)) as (h & -> & Hh & Hg); [lia..|].
      exists h. split; [done|]. split; [lia|]. intros g Hb Hgi. apply Hg; [done|].
      destruct (Z.eq_dec g (i - B)) as [-> |]; [congruence | lia].
  - rewrite u32_sub_l. exists (B - 1). split; [done|]. split; [lia|]. intros g Hb Hgi.
    rewrite bit_out in Hb by lia. done.
Qed.

#[local] Arguments back_down : simpl never.

(** Moving a TSN does not take it out of the set, whichever arrays it was in. *)
Lemma mark_non_revokable_full s B C Hm Hn a drain z :
  Repr s B C Hm Hn a -> C + 1 - half32 < z < B + 8 * mapping_array_size a ->
  exists Hm' Hn' a', sctp_mark_non_revokable drain a (u32 z) = Some a' /\
    Repr (if (drain =? 0) || (z <=? C) then s else receive s z) B C Hm' Hn' a' /\
    Z.min Hm (B - 1) <= Hm' /\ Hn <= Hn'.
Proof.
  intros HR Hz. pose proof HR as [HA Cc Cw Cb Cm Cf Cd].
  pose proof HA as [Lm Lnr Sz Om Onr Eb Em En Be Ab Bi Tm Tn Im In].
  unfold sctp_mark_non_revokable. rewrite Cc, Eb.
  destruct (drain =? 0); simpl; [exists Hm, Hn, a; split; [done|]; split; [done | lia]|].
  rewrite u32_add_l, tsn_gt_spec by lia.
  destruct (Z.leb_spec z C) as [Hle | Hgt].
  { destruct (Z.ltb_spec z (C + 1)); [|lia]. exists Hm, Hn, a. split; [done|]. split; [done | lia]. }
  destruct (Z.ltb_spec z (C + 1)); [lia|].
  rewrite calc_gap_spec, !is_present_spec by (done || lia). simpl.
  set (g := z - B) in *.
  (* the non-renegable array *)
  assert (exists nr, (if bit (nr_mapping_array a) g then Some (nr_mapping_array a)
           else SCTP_SET_TSN_PRESENT (nr_mapping_array a) g) = Some nr /\
           bit_written true (nr_mapping_array a) g nr) as (nr & -> & Wn).
  { destruct (bit (nr_mapping_array a) g) eqn:E; [|apply set_present_spec; [done | lia]].
    eexists. split; [done|]. split; [done..|]. intros k. by destruct (Z.eqb_spec k g) as [-> |]. }
  (* the renegable array *)
  assert (exists m, (if bit (mapping_array a) g then SCTP_UNSET_TSN_PRESENT (mapping_array a) g
           else Some (mapping_array a)) = Some m /\
           bit_written false (mapping_array a) g m) as (m & -> & Wm).
  { destruct (bit (mapping_array a) g) eqn:E; [apply unset_present_spec; [done | lia]|].
    eexists. split; [done|]. split; [done..|]. intros k. by destruct (Z.eqb_spec k g) as [-> |]. }
  simpl. rewrite if_highest_nr. simpl. rewrite En, raise_highest by (unfold lag_max in *; lia).
  set (a1 := _ <| highest_tsn_inside_nr_map := _ |>).
  destruct Wn as [Wnl Wno Wnb], Wm as [Wml Wmo Wmb].
  (* before the renegable highest is looked for *)
  assert (HA1 : Arr (receive s z) B Hm (Z.max Hn z) a1).
  { split; subst a1; simpl; try done; try lia; rewrite ?Wml, ?Wnl; try done.
    - intros t Ht. rewrite has_receive. auto.
    - intros t Ht. rewrite has_receive. intros [-> | Hh]; [lia | by apply Ab in Hh].
    - intros t Ht. rewrite has_receive, Bi by lia. unfold seen. simpl. rewrite Wmb, Wnb.
      destruct (Z.eqb_spec (t - B) g).
      + split; [done|]. intros _. left. subst g. lia.
      + split; [intros [-> |]; [by subst g | done] | auto].
    - intros k. rewrite Wmb. destruct (k =? g); [done|]. apply Tm.
    - intros k. rewrite Wnb. destruct (Z.eqb_spec k g) as [-> |]; [subst g; lia|].
      intros Hk. specialize (Tn k Hk). lia. }
  assert (Hb : forall t, t <= C -> has (receive s z) t) by (intros; rewrite has_receive; auto).
  rewrite Em, u32_eqb by (unfold lag_max in *; lia). destruct (Z.eqb_spec z Hm) as [Hzm | Hne].
  - rewrite u32_sub_l.
    destruct (back_down_spec (back_down_fuel a1) (receive s z) B Hm (Z.max Hn z) a1 (z - 1))
      as (h & -> & Hh & Hg); [done | simpl; lia | unfold back_down_fuel; rewrite shiftl3; simpl; lia |].
    simpl. exists h, (Z.max Hn z). eexists. split; [reflexivity|]. split; [|lia].
    split; simpl; try done; try lia. destruct HA1 as [? ? ? ? ? ? ? ? ? ? ? Tm1 ? Im1 ?].
    split; simpl; try done; try lia.
    + intros k Hk. apply Hg; [done|]. specialize (Tm1 k Hk).
      assert (k <> g); [|subst g; lia]. intros ->. subst a1. simpl in Hk. rewrite Wmb, Z.eqb_refl in Hk. done.
    + unfold lag_max in *. subst a1. simpl in *. lia.
  - exists Hm, (Z.max Hn z), a1. split; [done|]. split; [|lia]. split; simpl; try done; lia.
Qed.

Lemma mark_non_revokable_repr s B C Hm Hn a drain z :
  Repr s B C Hm Hn a -> C + 1 - half32 < z < B + 8 * mapping_array_size a ->
  exists Hm' Hn' a', sctp_mark_non_revokable drain a (u32 z) = Some a' /\
    Repr (if (drain =? 0) || (z <=? C) then s else receive s z) B C Hm' Hn' a'.
Proof.
  intros HR Hz. destruct (mark_non_revokable_full s B C Hm Hn a drain z HR Hz) as (Hm' & Hn' & a' & E & HR' & _).
  eauto.
Qed.

(** Reneging on [z], which only the renegable array holds. *)
Lemma drain_chunk_arr s B Hm Hn a z :
  Arr s B Hm Hn a -> B <= z < B + 8 * mapping_array_size a -> first s <= z ->
  bit (nr_mapping_array a) (z - B) = false ->
  exists a', drain_chunk a (u32 z) = Some a' /\ Arr (renege s z) B Hm Hn a' /\ cum_same a a' /\
    nr_mapping_array a' = nr_mapping_array a /\
    forall k, bit (mapping_array a') k = (if k =? z - B then false else bit (mapping_array a) k).
Proof.
  intros [Lm Lnr Sz Om Onr Eb Em En Be Ab Bi Tm Tn Im In] Hz Hf Hnr.
  unfold drain_chunk. rewrite Eb, calc_gap_spec by lia.
  destruct (unset_present_spec (mapping_array a) (z - B)) as (m & -> & [Wl Wo Wb]); [done | lia|].
  simpl. eexists. split; [reflexivity|]. split; [|by repeat split].
  split; simpl; rewrite ?Wl; try done.
  - intros t Ht. apply has_renege; [done|]. split; [lia | by apply Be].
  - intros t Ht [_ Hh]%has_renege; [by apply Ab in Hh | done].
  - intros t Ht. rewrite has_renege, Bi by (done || lia). unfold seen. simpl. rewrite Wb.
    destruct (Z.eqb_spec (t - B) (z - B)) as [E|].
    + rewrite E, Hnr. split; [|done]. intros [? _]. lia.
    + split; [tauto|]. intros. split; [lia | done].
  - intros g. rewrite Wb. destruct (g =? z - B); [done|]. apply Tm.
Qed.

Definition renege_all (s : received) (zs : list Z) : received := fold_left renege zs s.

Lemma first_renege_all s zs : first (renege_all s zs) = first s.
Proof. revert s. induction zs as [|z zs IH]; intros s; [done|]. apply (IH (renege s z)). Qed.

(** The victims are above the next TSN expected and only the renegable array holds them. *)
Definition renegable (a : tsn_map) (B C z : Z) : Prop :=
  C + 1 < z < B + 8 * mapping_array_size a /\ bit (nr_mapping_array a) (z - B) = false.

Lemma drain_chunks_repr s B C Hm Hn a zs :
  Repr s B C Hm Hn a -> Forall (renegable a B C) zs ->
  exists a', drain_chunks a (map u32 zs) = Some a' /\ Repr (renege_all s zs) B C Hm Hn a' /\
    forall k, B + k <= C -> bit (mapping_array a') k = bit (mapping_array a) k.
Proof.
  intros HR Hzs. revert s a HR Hzs.
  induction zs as [|z zs IH]; intros s a HR Hzs; [by exists a|].
  apply Forall_cons in Hzs as [[Hz Hnr] Hzs]. pose proof HR as [HA Cc Cw Cb Cm Cf Cd].
  destruct (drain_chunk_arr s B Hm Hn a z) as (a1 & E & HA1 & [Ss Sb Sc Sd Sn] & Nr & Bk);
    [done | lia | lia | done |].
  destruct (IH (renege s z) a1) as (a' & E' & HR' & Bk').
  { split; [done | by rewrite Sc | lia | | done | done | by rewrite Sd, Sn].
    intros t Ht. apply has_renege; [lia|]. split; [lia | by apply Cb]. }
  { eapply Forall_impl; [exact Hzs|]. unfold renegable. by rewrite Ss, Nr. }
  exists a'. simpl. rewrite E. simpl. split; [done|]. split; [done|].
  intros k Hk. rewrite Bk', Bk by done. by destruct (Z.eqb_spec k (z - B)); [lia|].
Qed.

Lemma drain_highest_repr s B C Hm Hn a :
  Repr s B C Hm Hn a ->
  exists h a', drain_highest a = Some a' /\ Repr s B C h Hn a'.
Proof.
  intros HR. pose proof HR as [HA Cc Cw Cb Cm Cf Cd].
  pose proof HA as [Lm Lnr Sz Om Onr Eb Em En Be Ab Bi Tm Tn Im In].
  unfold drain_highest. rewrite Em.
  destruct (back_down_spec (S (back_down_fuel a)) s B Hm Hn a Hm) as (h & -> & Hh & Hg);
    [done | unfold lag_max in *; lia | unfold back_down_fuel; rewrite shiftl3; lia|].
  simpl. exists h. eexists. split; [reflexivity|].
  split; simpl; try done.
  - split; simpl; try done; [intros g Hb; apply Hg; [done | by apply Tm] | unfold lag_max in *; lia].
  - destruct (Z.eq_dec C (B - 1)); [lia|].
    assert (Hs : seen a (C - B) = true) by (apply Bi; [lia | by apply Cb]).
    apply orb_true_iff in Hs as [Hs | Hs].
    + pose proof (Hg _ Hs). specialize (Tm _ Hs). lia.
    + specialize (Tn _ Hs). lia.
Qed.

End Revoke.

(** ** Forward TSN *)

Section Forward.

Lemma arr_ext s s' B Hm Hn a :
  (forall u, has s u <-> has s' u) -> Arr s B Hm Hn a -> Arr s' B Hm Hn a.
Proof.
  intros He [Lm Lnr Sz Om Onr Eb Em En Be Ab Bi Tm Tn Im In].
  split; try done; intros t Ht; rewrite <- He; auto.
Qed.

(** Changing only the cumulative TSN. *)
Lemma arr_cum s B Hm Hn a c : Arr s B Hm Hn a -> Arr s B Hm Hn (a <| cumulative_tsn := c |>).
Proof. intros []. by split. Qed.

Lemma fwd_fill_arr n s B Hm Hn a i :
  Arr s B Hm Hn a -> 0 <= i -> i + Z.of_nat n <= 8 * mapping_array_size a ->
  exists s' Hn' a', fwd_fill n a i = Some a' /\ Arr s' B Hm Hn' a' /\ cum_same a a' /\ Hn <= Hn' /\
    forall u, has s' u <-> has s u \/ B + i <= u < B + i + Z.of_nat n.
Proof.
  revert s Hn a i. induction n as [|n IH]; intros s Hn a i HA Hi Hn0.
  { exists s, Hn, a. split; [done|]. split; [done|]. split; [done|]. split; [lia|].
    intros u. split; [auto|]. intros [|]; [done | lia]. }
  pose proof HA as [Lm Lnr Sz Om Onr Eb Em En Be Ab Bi Tm Tn Im In].
  simpl. rewrite !is_present_spec by (done || lia). simpl. fold (seen a i).
  pose proof (Bi (B + i)) as Bii. replace (B + i - B) with i in Bii by lia.
  destruct (seen a i); simpl.
  - destruct (IH s Hn a (i + 1)) as (s' & Hn' & a' & -> & HA' & Hc & Hle & Hh); [done | lia | lia |].
    do 3 eexists. split; [reflexivity|]. split; [done|]. split; [done|]. split; [done|].
    intros u. rewrite Hh. split; [intros [|]; [auto | right; lia]|].
    intros [|]; [auto|]. destruct (Z.eq_dec u (B + i)) as [-> |]; [|right; lia].
    left. apply Bii; [lia | done].
  - rewrite Eb, u32_add_l. destruct (mark_nr_arr s B Hm Hn a (B + i)) as (a1 & E & HA1 & Hc1); [done | lia|].
    replace (B + i - B) with i in E by lia. rewrite E. simpl. destruct Hc1 as [Ss Sb Sc Sd Sn].
    destruct (IH (receive s (B + i)) (Z.max Hn (B + i)) a1 (i + 1))
      as (s' & Hn' & a' & -> & HA' & [] & Hle & Hh); [done | lia | lia |].
    do 3 eexists. split; [reflexivity|]. split; [done|]. split; [split; congruence|]. split; [lia|].
    intros u. rewrite Hh, has_receive. split; [intros [[-> |]|]; [right; lia | auto | right; lia]|].
    intros [|]; [auto|]. destruct (Z.eq_dec u (B + i)); [auto | right; lia].
Qed.

Lemma memset0_all arr size :
  Z.of_nat (length arr) = size -> memset0 arr size = Some (replicate (length arr) 0).
Proof.
  intros <-. unfold memset0. destruct (Z.ltb_spec (Z.of_nat (length arr)) (Z.of_nat (length arr))); [lia|].
  by rewrite Nat2Z.id, drop_all, app_nil_r.
Qed.

(** Arrays without a bit, whose base follows [C]. *)
Lemma arr_fresh s C a :
  Z.of_nat (length (mapping_array a)) = mapping_array_size a ->
  Z.of_nat (length (nr_mapping_array a)) = mapping_array_size a ->
  1 <= mapping_array_size a <= 1056 ->
  bytes_ok (mapping_array a) -> bytes_ok (nr_mapping_array a) ->
  (forall g, bit (mapping_array a) g = false) -> (forall g, bit (nr_mapping_array a) g = false) ->
  mapping_array_base_tsn a = u32 (C + 1) ->
  highest_tsn_inside_map a = u32 C -> highest_tsn_inside_nr_map a = u32 C ->
  (forall t, has s t <-> t <= C) ->
  Arr s (C + 1) C C a.
Proof.
  intros L1 L2 Sz O1 O2 E1 E2 Eb Em En Hs.
  split; try done; try (unfold lag_max; lia).
  - intros t Ht. apply Hs. lia.
  - intros t Ht ?%Hs. lia.
  - intros t Ht. rewrite Hs. unfold seen. rewrite E1, E2. split; [lia | done].
  - intros g. by rewrite E1.
  - intros g. by rewrite E2.
Qed.

Lemma forward_tsn_repr s B C Hm Hn a sbspace z :
  Repr s B C Hm Hn a -> C - half32 < z <= C + half32 ->
  exists r, forward_tsn_map sbspace a (u32 z) = Some r /\
    match r with
    | FwdOld => z <= C
    | FwdAbort _ => C < z /\ sbspace < z - B
    | FwdDone a' => C < z /\ exists B' Hm' Hn', Repr (skip_to s z) B' z Hm' Hn' a'
    end.
Proof.
  intros [HA Cc Cw Cb Cm Cf Cd] Hz.
  pose proof HA as [Lm Lnr Sz Om Onr Eb Em En Be Ab Bi Tm Tn Im In].
  unfold forward_tsn_map. rewrite Cc, tsn_ge_window by lia.
  destruct (Z.leb_spec z C); [by eexists|].
  rewrite Eb, calc_gap_spec, shiftl3 by lia.
  destruct (Z.leb_spec (8 * mapping_array_size a) (z - B)) as [Hout | Hin].
  - destruct (Z.ltb_spec sbspace (z - B)); [by eexists|].
    simpl. rewrite !memset0_all by done. simpl. eexists. split; [reflexivity|]. split; [done|].
    exists (z + 1), z, z. split; simpl; try done; try lia.
    + apply arr_fresh; simpl; rewrite ?length_replicate;
        auto using bytes_ok_replicate, bit_replicate.
      * by rewrite u32_add_l.
      * intros t. rewrite has_skip. split; [|auto]. intros [|Hh]; [done|].
        destruct (Z.le_gt_cases t z); [done|]. apply Ab in Hh; [done | lia].
    + intros t Ht. apply has_skip. auto.
  - destruct (fwd_fill_arr (Z.to_nat (z - B + 1)) s B Hm Hn (a <| cumulative_tsn := u32 z |>) 0)
      as (s' & Hn' & a' & E & HA' & [Ss Sb Sc Sd Sn] & Hle & Hh); [by apply arr_cum | lia | simpl; lia|].
    rewrite E. simpl in *. eexists. split; [reflexivity|]. split; [done|].
    assert (He : forall u, has s' u <-> has (skip_to s z) u).
    { intros u. rewrite Hh, has_skip. split; [intros [|]; [auto | left; lia]|].
      intros [|]; [|auto]. destruct (Z.lt_ge_cases u B); [left; by apply Be | right; lia]. }
    exists B, Hm, Hn'. split; simpl; try done; try lia.
    + by apply (arr_ext s').
    + intros t Ht. apply has_skip. auto.
    + assert (Hs : seen a' (z - B) = true).
      { apply (arr_bits _ _ _ _ _ HA'); [lia|]. apply He, has_skip. left. lia. }
      apply orb_true_iff in Hs as [Hs | Hs].
      * apply (arr_top_m _ _ _ _ _ HA') in Hs. lia.
      * apply (arr_top_nr _ _ _ _ _ HA') in Hs. lia.
    + by rewrite Sd, Sn.
Qed.

End Forward.

(** ** Sliding the mapping arrays

    [sctp_slide_mapping_arrays] moves the cumulative TSN over everything that has
    arrived in sequence and drops whole bytes from the front of the arrays.  The set
    of TSNs the arrays stand for stays as it is. *)


Section Scan.

(** The table counts the ones below the first zero of a byte. *)
Definition trailing_ones (v t : Z) : bool :=
  (0 <=? t) && (t <=? 7) && forallb (fun i => Z.testbit v i) (seqZ 0 t) && negb (Z.testbit v t).

Lemma map_lookup_tab_spec v :
  in_u8 v -> v <> 255 ->
  exists t, get_at sctp_map_lookup_tab v = Some t /\ 0 <= t <= 7 /\
    (forall i, 0 <= i < t -> Z.testbit v i = true) /\ Z.testbit v t = false.
Proof.
  intros Hv Hne.
  assert (Hall : forallb (fun v => match get_at sctp_map_lookup_tab v with
                                   | Some t => trailing_ones v t | None => false end) (seqZ 0 255) = true)
    by (vm_compute; reflexivity).
  rewrite forallb_forall in Hall. specialize (Hall v).
  destruct (get_at sctp_map_lookup_tab v) as [t|].
  - exists t. split; [done|]. unfold trailing_ones in Hall.
    assert (H : In v (seqZ 0 255)) by (apply list_elem_of_In, elem_of_seqZ; unfold in_u8 in *; lia).
    apply Hall in H. rewrite !andb_true_iff, forallb_forall in H.
    destruct H as [[[H1%Z.leb_le H2%Z.leb_le] H3] H4%negb_true_iff].
    split; [lia|]. split; [|done]. intros i Hi. apply H3, list_elem_of_In, elem_of_seqZ. lia.
  - exfalso. discriminate Hall. apply list_elem_of_In, elem_of_seqZ. unfold in_u8 in *. lia.
Qed.

Lemma u8_full v i : in_u8 v -> v = 255 -> 0 <= i < 8 -> Z.testbit v i = true.
Proof. intros _ -> Hi. by rewrite (Z.ones_spec_low 8). Qed.

(** The bits of one byte of the union of the two arrays. *)
Lemma seen_byte s B Hm Hn a f :
  Arr s B Hm Hn a -> 0 <= f < mapping_array_size a ->
  exists x y, get_at (nr_mapping_array a) f = Some x /\ get_at (mapping_array a) f = Some y /\
    in_u8 (Z.lor x y) /\ forall i, 0 <= i < 8 -> Z.testbit (Z.lor x y) i = seen a (8 * f + i).
Proof.
  intros [Lm Lnr Sz Om Onr _ _ _ _ _ _ _ _ _ _] Hf.
  destruct (byte_of_bit (nr_mapping_array a) (8 * f)) as (x & Ex & Hx & _); [done | lia|].
  destruct (byte_of_bit (mapping_array a) (8 * f)) as (y & Ey & Hy & _); [done | lia|].
  replace (8 * f / 8) with f in * by (Z.div_mod_to_equations; lia).
  exists x, y. split; [done|]. split; [done|].
  split; [by apply (lor_bound 8)|]. intros i Hi. rewrite Z.lor_spec. unfold seen.
  rewrite (bit_of_byte (mapping_array a) f y), (bit_of_byte (nr_mapping_array a) f x)
    by (done || (Z.div_mod_to_equations; lia)).
  replace ((8 * f + i) mod 8) with i by (Z.div_mod_to_equations; lia). apply orb_comm.
Qed.

Lemma slide_scan_spec n s B Hm Hn a f :
  Arr s B Hm Hn a -> 0 <= f -> f + Z.of_nat n = mapping_array_size a ->
  (forall g, 0 <= g < 8 * f -> seen a g = true) ->
  exists f' at', slide_scan n a f (8 * f) = Some (f', at') /\ 0 <= f' <= mapping_array_size a /\
    8 * f' <= at' <= 8 * mapping_array_size a /\ at' < 8 * f' + 8 /\
    (forall g, 0 <= g < at' -> seen a g = true) /\ seen a at' = false.
Proof.
  intros HA. revert f. induction n as [|n IH]; intros f Hf Hn0 Hall; simpl.
  { exists f, (8 * f). split; [done|]. split; [lia|]. split; [lia|]. split; [lia|].
    split; [done|]. eapply seen_false_out; [done | lia]. }
  destruct (seen_byte s B Hm Hn a f) as (x & y & -> & -> & Hv & Hb); [done | lia|]. simpl.
  destruct (Z.eqb_spec (Z.lor x y) 255) as [Hff | Hne].
  - replace (8 * f + 8) with (8 * (f + 1)) by lia. apply IH; [lia | lia |].
    intros g Hg. destruct (Z.lt_ge_cases g (8 * f)); [by apply Hall; lia|].
    replace g with (8 * f + (g - 8 * f)) by lia. rewrite <- Hb by lia. by apply u8_full; [|lia..].
  - destruct (map_lookup_tab_spec (Z.lor x y)) as (t & -> & Ht & Hones & Hz); [done..|]. simpl.
    exists f, (8 * f + t). split; [done|]. split; [lia|]. split; [lia|]. split; [lia|]. split.
    + intros g Hg. destruct (Z.lt_ge_cases g (8 * f)); [by apply Hall; lia|].
      replace g with (8 * f + (g - 8 * f)) by lia. rewrite <- Hb by lia. apply Hones. lia.
    + by rewrite <- Hb by lia.
Qed.

End Scan.

(** ** Moving an array down *)

Section Move.

Lemma copy_down_spec n arr f ii :
  1 <= f -> 0 <= ii -> f + ii + Z.of_nat n <= Z.of_nat (length arr) ->
  exists arr', copy_down n arr f ii = Some arr' /\ length arr' = length arr /\
    forall j : nat, arr' !! j = if (ii <=? Z.of_nat j) && (Z.of_nat j <? ii + Z.of_nat n)
                         then arr !! (Z.to_nat f + j)%nat else arr !! j.
Proof.
  intros Hf. revert arr ii. induction n as [|n IH]; intros arr ii Hii Hlen; simpl.
  { exists arr. split; [done|]. split; [done|]. intros j. by zbool; simpl; try lia. }
  destruct (get_at_some arr (f + ii)) as (b & E & _); [lia|]. rewrite E. simpl.
  rewrite set_at_some by lia. simpl.
  destruct (IH (<[Z.to_nat ii:=b]> arr) (ii + 1)) as (arr' & -> & Hl & Hj);
    [lia | rewrite length_insert; lia|].
  exists arr'. split; [done|]. split; [by rewrite Hl, length_insert|].
  intros j. rewrite Hj. rewrite get_at_nat in E by lia.
  destruct (Z.eq_dec (Z.of_nat j) ii) as [Hji | Hji].
  - replace (Z.to_nat ii) with j by lia.
    zbool; simpl; try lia; rewrite list_lookup_insert_eq by lia;
      rewrite <- E; f_equal; lia.
  - zbool; simpl; try lia; rewrite ?list_lookup_insert_ne by lia; done.
Qed.

Lemma zero_up_spec n arr ii :
  0 <= ii -> ii + Z.of_nat n <= Z.of_nat (length arr) ->
  exists arr', zero_up n arr ii = Some arr' /\ length arr' = length arr /\
    forall j : nat, arr' !! j = if (ii <=? Z.of_nat j) && (Z.of_nat j <? ii + Z.of_nat n)
                         then Some 0 else arr !! j.
Proof.
  revert arr ii. induction n as [|n IH]; intros arr ii Hii Hlen; simpl.
  { exists arr. split; [done|]. split; [done|]. intros j. by zbool; simpl; try lia. }
  rewrite set_at_some by lia. simpl.
  destruct (IH (<[Z.to_nat ii:=0]> arr) (ii + 1)) as (arr' & -> & Hl & Hj);
    [lia | rewrite length_insert; lia|].
  exists arr'. split; [done|]. split; [by rewrite Hl, length_insert|].
  intros j. rewrite Hj. destruct (Z.eq_dec (Z.of_nat j) ii) as [Hji | Hji].
  - replace (Z.to_nat ii) with j by lia.
    zbool; simpl; try lia; rewrite list_lookup_insert_eq by lia; done.
  - zbool; simpl; try lia; rewrite ?list_lookup_insert_ne by lia; done.
Qed.

(** An array whose bits end below [8 * (f + d)], moved down by [f] bytes. *)
Lemma slide_array_spec arr f d size :
  bytes_ok arr -> Z.of_nat (length arr) = size -> 1 <= f -> 1 <= d -> f + d <= size ->
  (forall g, bit arr g = true -> g < 8 * (f + d)) ->
  exists arr', slide_array arr f d size = Some arr' /\ length arr' = length arr /\ bytes_ok arr' /\
    forall k, bit arr' k = if k <? 0 then false else bit arr (k + 8 * f).
Proof.
  intros Hok Hl Hf Hd Hfd Htop. unfold slide_array.
  destruct (copy_down_spec (Z.to_nat d) arr f 0) as (arr1 & -> & Hl1 & Hj1); [lia..|]. simpl.
  destruct (zero_up_spec (Z.to_nat (size - d)) arr1 d) as (arr2 & -> & Hl2 & Hj2); [lia..|].
  assert (Hj : forall j : nat, arr2 !! j = if Z.of_nat j <? d then arr !! (Z.to_nat f + j)%nat
                       else if Z.of_nat j <? size then Some 0 else None).
  { intros j. rewrite Hj2, Hj1. zbool; simpl; try done; try lia. apply lookup_ge_None_2. lia. }
  exists arr2. split; [done|]. split; [lia|]. split.
  - apply Forall_forall. intros x [j Ex]%list_elem_of_lookup. rewrite Hj in Ex.
    unfold bytes_ok in Hok. rewrite Forall_forall in Hok.
    destruct (_ <? d); [by eapply Hok, list_elem_of_lookup_2|].
    destruct (_ <? size); [|done]. injection Ex as <-. unfold in_u8. lia.
  - intros k. destruct (Z.ltb_spec k 0); [by apply bit_out; lia|].
    assert (Hk : bit arr2 k = if k <? 8 * d then bit arr (k + 8 * f) else false).
    { unfold bit at 1. rewrite Hj. destruct (Z.leb_spec 0 k); [|lia]. simpl.
      assert (0 <= k / 8) by (Z.div_mod_to_equations; lia).
      destruct (Z.ltb_spec k (8 * d)), (Z.ltb_spec (Z.of_nat (Z.to_nat (k / 8))) d);
        try (Z.div_mod_to_equations; lia).
      - replace (k + 8 * f) with (k + 8 * Z.of_nat (Z.to_nat f)) by lia. rewrite <- bit_drop by lia.
        unfold bit. rewrite lookup_drop. by destruct (Z.leb_spec 0 k); [|lia].
      - destruct (_ <? size); [apply Z.bits_0 | done]. }
    rewrite Hk. destruct (Z.ltb_spec k (8 * d)); [done|].
    destruct (bit arr (k + 8 * f)) eqn:E; [|done]. apply Htop in E. lia.
Qed.

Lemma memset0_bits arr n :
  bytes_ok arr -> 0 <= n <= Z.of_nat (length arr) -> (forall g, bit arr g = true -> g < 8 * n) ->
  exists arr', memset0 arr n = Some arr' /\ length arr' = length arr /\ bytes_ok arr' /\
    forall g, bit arr' g = false.
Proof.
  intros Hok Hn Htop. unfold memset0. destruct (Z.ltb_spec (Z.of_nat (length arr)) n); [lia|].
  eexists. split; [done|].
  assert (Hl : length (replicate (Z.to_nat n) 0 ++ drop (Z.to_nat n) arr) = length arr)
    by (rewrite length_app, length_replicate, length_drop; lia).
  split; [done|]. split.
  - apply Forall_app. split; [apply bytes_ok_replicate | by apply Forall_drop].
  - intros g. destruct (Z.lt_ge_cases g 0); [apply bit_out; lia|].
    assert (Hq : 0 <= g / 8) by (Z.div_mod_to_equations; lia).
    destruct (Z.lt_ge_cases g (8 * n)) as [Hlt | Hge].
    + unfold bit. rewrite lookup_app_l by (rewrite length_replicate; Z.div_mod_to_equations; lia).
      destruct (replicate _ _ !! _) eqn:E; [|by rewrite andb_false_r].
      apply lookup_replicate in E as [-> _]. rewrite Z.bits_0. apply andb_false_r.
    + destruct (bit arr g) eqn:E; [apply Htop in E; lia|].
      rewrite <- E. unfold bit. rewrite lookup_app_r, length_replicate, lookup_drop
        by (rewrite length_replicate; Z.div_mod_to_equations; lia).
      by replace (Z.to_nat n + (Z.to_nat (g / 8) - Z.to_nat n))%nat with (Z.to_nat (g / 8))
        by (Z.div_mod_to_equations; lia).
Qed.

End Move.

(** ** The slide *)

(** The highest TSNs lag at most 2^30 behind the base. *)
Definition fresh (B Hm Hn : Z) : Prop := B - 1073741824 <= Hm /\ B - 1073741824 <= Hn.

Section Slide.

Lemma highest_tsn_spec s B Hm Hn a : Arr s B Hm Hn a -> highest_tsn a = u32 (Z.max Hm Hn).
Proof.
  intros [Lm Lnr Sz Om Onr Eb Em En Be Ab Bi Tm Tn Im In]. unfold highest_tsn.
  rewrite Em, En, tsn_gt_spec by (unfold lag_max in *; lia). zbool; f_equal; lia.
Qed.

Lemma seen_below_max s B Hm Hn a g :
  Arr s B Hm Hn a -> seen a g = true -> B + g <= Z.max Hm Hn.
Proof.
  intros HA [Hs | Hs]%orb_true_iff.
  - apply (arr_top_m _ _ _ _ _ HA) in Hs. lia.
  - apply (arr_top_nr _ _ _ _ _ HA) in Hs. lia.
Qed.

Lemma slide_clear_arr s B Hm Hn a at_ :
  Arr s B Hm Hn a -> cumulative_tsn a = u32 (B + at_ - 1) -> 0 <= at_ <= 8 * mapping_array_size a ->
  (forall g, 0 <= g < at_ -> seen a g = true) -> B + at_ - 1 = Z.max Hm Hn ->
  exists a', slide_clear a at_ = Some a' /\ Arr s (B + at_) (B + at_ - 1) (B + at_ - 1) a' /\
    cumulative_tsn a' = cumulative_tsn a /\ dup_tsns a' = dup_tsns a /\ numduptsns a' = numduptsns a.
Proof.
  intros HA Hc Hat Hseen Hmax. pose proof HA as [Lm Lnr Sz Om Onr Eb Em En Be Ab Bi Tm Tn Im In].
  unfold slide_clear. rewrite shiftr3.
  assert (Hclr : (if mapping_array_size a <? (at_ + 7) / 8 then mapping_array_size a
                  else (at_ + 7) / 8) = (at_ + 7) / 8).
  { destruct (Z.ltb_spec (mapping_array_size a) ((at_ + 7) / 8)); [|done].
    Z.div_mod_to_equations; lia. }
  rewrite Hclr.
  destruct (memset0_bits (mapping_array a) ((at_ + 7) / 8)) as (m & -> & Lm' & Om' & Bm');
    [done | Z.div_mod_to_equations; lia | intros g Hg%Tm; Z.div_mod_to_equations; lia |].
  destruct (memset0_bits (nr_mapping_array a) ((at_ + 7) / 8)) as (nr & -> & Ln' & On' & Bn');
    [done | Z.div_mod_to_equations; lia | intros g Hg%Tn; Z.div_mod_to_equations; lia |].
  simpl. eexists. split; [reflexivity|]. split; [|done].
  remember (B + at_ - 1) as C' eqn:EC. replace (B + at_) with (C' + 1) by lia.
  apply arr_fresh; simpl; try done; try lia.
  - by rewrite Hc, u32_add_l.
  - intros t. split.
    + intros Ht. destruct (Z.lt_ge_cases t B); [lia|].
      destruct (Z.lt_ge_cases t (B + 8 * mapping_array_size a)) as [Hlt | Hge]; [|by apply Ab in Ht].
      apply Bi in Ht; [|lia]. apply (seen_below_max _ _ _ _ _ _ HA) in Ht. lia.
    + intros Ht. destruct (Z.lt_ge_cases t B); [by apply Be|]. apply Bi; [lia|]. apply Hseen. lia.
Qed.

Lemma slide_down_arr s B Hm Hn a f at_ :
  Arr s B Hm Hn a -> fresh B Hm Hn -> 1 <= f -> 8 * f <= at_ < 8 * f + 8 ->
  (forall g, 0 <= g < at_ -> seen a g = true) -> B + at_ - 1 < Z.max Hm Hn ->
  exists Hm' Hn' a', slide_down a f = Some a' /\ Arr s (B + 8 * f) Hm' Hn' a' /\
    Hm <= Hm' /\ Hn <= Hn' /\ mapping_array_size a' = mapping_array_size a /\
    cumulative_tsn a' = cumulative_tsn a /\ dup_tsns a' = dup_tsns a /\ numduptsns a' = numduptsns a.
Proof.
  intros HA [Fm Fn] Hf Hat Hseen Hmax. pose proof HA as [Lm Lnr Sz Om Onr Eb Em En Be Ab Bi Tm Tn Im In].
  unfold slide_down. rewrite (highest_tsn_spec _ _ _ _ _ HA), Eb, calc_gap_spec by lia.
  rewrite i32_id by (unfold in_i32; lia). rewrite !shiftr3, !shiftl3.
  set (M := Z.max Hm Hn) in *. set (se := (M - B) / 8).
  assert (Hse : 8 * se <= M - B < 8 * se + 8) by (subst se; Z.div_mod_to_equations; lia).
  clearbody se. assert (HM : M < B + 8 * mapping_array_size a) by lia.
  destruct (Z.ltb_spec se f); [lia|]. destruct (Z.ltb_spec (mapping_array_size a) se); [lia|].
  destruct (Z.ltb_spec (mapping_array_size a) (se - f + 1 + f)); [lia|].
  destruct (Z.ltb_spec (se - f + 1) 0); [lia|]. simpl.
  destruct (slide_array_spec (mapping_array a) f (se - f + 1) (mapping_array_size a))
    as (m & -> & Lm' & Om' & Bm'); try done; try lia; [intros g Hg%Tm; lia|].
  destruct (slide_array_spec (nr_mapping_array a) f (se - f + 1) (mapping_array_size a))
    as (nr & -> & Ln' & On' & Bn'); try done; try lia; [intros g Hg%Tn; lia|].
  simpl.
  set (mv := fun H => if H + 1 =? B then H + 8 * f else H).
  assert (Hmv : forall H, B - lag_max <= H < B + 8 * mapping_array_size a ->
    (if u32 (u32 H + 1) =? u32 B then u32 (u32 H + 8 * f) else u32 H) = u32 (mv H)).
  { intros h Hh. rewrite !u32_add_l, u32_eqb by (unfold lag_max in *; lia).
    unfold mv. by destruct (h + 1 =? B). }
  assert (Hup : forall h, h <= mv h) by (intros h; unfold mv; zbool; lia).
  exists (mv Hm), (mv Hn). eexists. split; [reflexivity|]. split; [|done].
  split; simpl; rewrite ?Lm', ?Ln'; try done.
  - by rewrite u32_add_l.
  - by rewrite Em, Hmv.
  - by rewrite En, Hmv.
  - intros t Ht. destruct (Z.lt_ge_cases t B); [by apply Be|].
    apply Bi; [lia|]. apply Hseen. lia.
  - intros t Ht. apply Ab. lia.
  - intros t Ht. unfold seen. simpl. rewrite Bm', Bn'.
    destruct (Z.ltb_spec (t - (B + 8 * f)) 0); [lia|].
    replace (t - (B + 8 * f) + 8 * f) with (t - B) by lia. fold (seen a (t - B)).
    destruct (Z.lt_ge_cases t (B + 8 * mapping_array_size a)) as [Hlt | Hge]; [apply Bi; lia|].
    rewrite (seen_false_out s B Hm Hn) by (done || lia). split; [|done].
    intros Hh. by apply Ab in Hh.
  - intros g. rewrite Bm'. destruct (Z.ltb_spec g 0); [done|]. intros Hg%Tm. specialize (Hup Hm). lia.
  - intros g. rewrite Bn'. destruct (Z.ltb_spec g 0); [done|]. intros Hg%Tn. specialize (Hup Hn). lia.
  - unfold mv, lag_max in *. zbool; lia.
  - unfold mv, lag_max in *. zbool; lia.
Qed.

(** The cumulative TSN becomes the last one before the first gap, and at most seven
    acknowledged TSNs stay in the arrays. *)
Lemma slide_repr s B C Hm Hn a :
  Repr s B C Hm Hn a -> fresh B Hm Hn ->
  exists B' C' Hm' Hn' a', sctp_slide_mapping_arrays a = Some a' /\ Repr s B' C' Hm' Hn' a' /\
    B <= B' <= C' + 1 /\ C' + 1 < B' + 8 /\ C <= C' /\ ~ has s (C' + 1).
Proof.
  intros [HA Cc Cw Cb Cm Cf Cd] HF.
  pose proof HA as [Lm Lnr Sz Om Onr Eb Em En Be Ab Bi Tm Tn Im In].
  unfold sctp_slide_mapping_arrays.
  destruct (slide_scan_spec (Z.to_nat (mapping_array_size a)) s B Hm Hn a 0)
    as (f & at_ & E & Hf & Hat & Hat8 & Hseen & Hgap); [done | lia | lia | lia |].
  change (8 * 0) with 0 in E. rewrite E. simpl. clear E.
  (* the new cumulative TSN *)
  set (C' := B + at_ - 1).
  assert (HCC : C <= C').
  { destruct (Z.le_gt_cases C C'); [done|]. exfalso.
    assert (Hs : seen a at_ = true); [|congruence].
    replace at_ with (C' + 1 - B) by (unfold C'; lia). apply Bi; [unfold C'; lia|].
    apply Cb. lia. }
  assert (HC0 : forall t, t <= C' -> has s t).
  { intros t Ht. destruct (Z.lt_ge_cases t B); [by apply Be|].
    apply Bi; [unfold C' in *; lia|]. apply Hseen. unfold C' in *. lia. }
  assert (HCm : C' <= Z.max Hm Hn).
  { destruct (Z.eq_dec at_ 0); [unfold C' in *; lia|].
    assert (Hs : seen a (at_ - 1) = true) by (apply Hseen; lia).
    apply (seen_below_max _ _ _ _ _ _ HA) in Hs. unfold C'. lia. }
  assert (Hno : ~ has s (C' + 1)).
  { intros Hh. destruct (Z.lt_ge_cases at_ (8 * mapping_array_size a)).
    - apply Bi in Hh; [|unfold C'; lia]. unfold C' in Hh.
      replace (B + at_ - 1 + 1 - B) with at_ in Hh by lia. congruence.
    - apply Ab in Hh; [done | unfold C'; lia]. }
  rewrite Eb, u32_add_l. replace (B + (at_ - 1)) with C' by (unfold C'; lia).
  set (a1 := a <| cumulative_tsn := u32 C' |>).
  assert (HA1 : Arr s B Hm Hn a1) by (by apply arr_cum).
  rewrite !Em, !En, !tsn_gt_spec by (unfold lag_max, C' in *; lia).
  destruct ((Hm <? C') && (Hn <? C')) eqn:Ehuh.
  { apply andb_true_iff in Ehuh as [?%Z.ltb_lt ?%Z.ltb_lt]. lia. }
  change (highest_tsn _) with (highest_tsn a1). rewrite (highest_tsn_spec _ _ _ _ _ HA1).
  change (cumulative_tsn a1) with (u32 C').
  rewrite u32_eqb by (unfold lag_max, C' in *; lia).
  destruct (Z.eqb_spec C' (Z.max Hm Hn)) as [Heq | Hne], (Z.leb_spec 8 at_) as [H8 | H8]; simpl.
  - (* everything up to the highest TSN has arrived *)
    destruct (slide_clear_arr s B Hm Hn a1 at_) as (a' & E & HA' & Ec & Ed & Edn);
      [done | done | simpl; lia | done | done |].
    rewrite E. exists (B + at_), C', C', C', a'. split; [done|].
    split; [|unfold fresh, C' in *; split_and!; done || lia].
    split; try done; try (unfold C' in *; lia).
    + pose proof (arr_size _ _ _ _ _ HA'). unfold C'. lia.
    + by rewrite Ed, Edn.
  - exists B, C', Hm, Hn, a1. split; [done|]. unfold fresh, C' in *.
    split; [|split_and!; done || lia]. split; simpl; try done; lia.
  - destruct (slide_down_arr s B Hm Hn a1 f at_)
      as (Hm' & Hn' & a' & E & HA' & Um & Un & Es & Ec & Ed & Edn);
      [done | done | lia | lia | done | unfold C' in *; lia |].
    rewrite E. exists (B + 8 * f), C', Hm', Hn', a'. split; [done|]. unfold fresh, C' in *.
    split; [|split_and!; done || lia]. split; rewrite ?Es, ?Ec, ?Ed, ?Edn; done || exact Cd || (subst a1; simpl in *; lia).
  - exists B, C', Hm, Hn, a1. split; [done|]. unfold fresh, C' in *.
    split; [|split_and!; done || lia]. split; simpl; try done; lia.
Qed.

(** Arrays that have just slid do not move. *)
Lemma slide_idle s B C Hm Hn a :
  Repr s B C Hm Hn a -> C + 1 < B + 8 -> ~ has s (C + 1) ->
  exists a', sctp_slide_mapping_arrays a = Some a' /\ Repr s B C Hm Hn a' /\
    numduptsns a' = numduptsns a /\ send_sack a' = send_sack a.
Proof.
  intros [HA Cc Cw Cb Cm Cf Cd] H8 Hno.
  pose proof HA as [Lm Lnr Sz Om Onr Eb Em En Be Ab Bi Tm Tn Im In].
  unfold sctp_slide_mapping_arrays.
  destruct (slide_scan_spec (Z.to_nat (mapping_array_size a)) s B Hm Hn a 0)
    as (f & at_ & E & Hf & Hat & Hat8 & Hseen & Hgap); [done | lia | lia | lia |].
  change (8 * 0) with 0 in E. rewrite E. cbn [mbind option_bind]. clear E.
  assert (HC : B + at_ - 1 = C).
  { destruct (Z.lt_trichotomy (B + at_ - 1) C) as [Hlt | [He | Hgt]]; [exfalso | done | exfalso].
    - assert (Hs : seen a at_ = true); [|congruence].
      replace at_ with (B + at_ - B) by lia. apply Bi; [lia|]. apply Cb. lia.
    - apply Hno, Bi; [lia|]. apply Hseen. lia. }
  rewrite Eb, u32_add_l. replace (B + (at_ - 1)) with C by lia. simpl.
  rewrite !Em, !En, !tsn_gt_spec by (unfold lag_max in *; lia).
  destruct ((Hm <? C) && (Hn <? C)) eqn:Ehuh.
  { apply andb_true_iff in Ehuh as [?%Z.ltb_lt ?%Z.ltb_lt]. lia. }
  destruct (Z.leb_spec 8 at_); [lia|]. rewrite andb_false_r. eexists. split; [reflexivity|].
  split; [|done]. split; simpl; try done.
Qed.

End Slide.
