(* ===== verification/RecvPlan.v ===== *)
(** * What a peer sends, and what the application is to get

    The specification of ordered delivery: a peer numbers its messages per stream, cuts
    each into fragments with consecutive TSNs, and sends every fragment in a DATA chunk.
    TSNs and the numbers of messages are unbounded here; a chunk carries them in 32 and 16
    bits.  The state of a receiver is the set of TSNs it has taken ([received], [TsnMapInv]);
    of each stream the application is to get the messages before the first one that is not
    complete, whole, in order and once. *)

From S2P Require Import Prelude Serial TsnMapInv Mbuf Reasm RecvData.

Open Scope sctp_scope.

(** A message: the TSN of its first fragment, its payload protocol identifier, and the
    bytes of its fragments. *)
Record message := Message { m_tsn : Z; m_ppid : Z; m_frags : list (list Z) }.

Definition frag_tsn (m : message) (i : nat) : Z := m_tsn m + Z.of_nat i.
Definition m_size (m : message) : nat := length (m_frags m).
Definition m_text (m : message) : list Z := concat (m_frags m).
Definition frag (m : message) (i : nat) : list Z := nth i (m_frags m) [].

(** The flags of fragment [i]: ordered, and whether it is the first and the last. *)
Definition frag_flags (m : message) (i : nat) : Z :=
  (if (i =? 0)%nat then SCTP_DATA_FIRST_FRAG else 0)
  + (if (S i =? m_size m)%nat then SCTP_DATA_LAST_FRAG else 0).

(** ** The chunk on the wire *)

Definition put16 (v : Z) : list Z := [v / 256; v mod 256].
Definition put32 (v : Z) : list Z := put16 (v / 65536) ++ put16 (v mod 65536).
(** The payload protocol identifier stays in the order of the machine. *)
Definition put32_le (v : Z) : list Z := rev (put32 v).

Definition encode_data (flags tsn sid ssn ppid : Z) (payload : list Z) : list Z :=
  [SCTP_DATA; flags] ++ put16 (16 + Z.of_nat (length payload)) ++ put32 tsn ++ put16 sid ++ put16 ssn
  ++ put32_le ppid ++ payload.

(** The chunk of fragment [i] of message [j] of stream [sid]. *)
Definition frag_chunk (sid j : nat) (m : message) (i : nat) : list Z :=
  encode_data (frag_flags m i) (u32 (frag_tsn m i)) (Z.of_nat sid) (u16 (Z.of_nat j)) (m_ppid m) (frag m i).

(** ** Delivery *)

(** What the application gets with one call. *)
Record delivery := Delivery {
  dl_sid : Z;
  dl_ssn : Z;
  dl_ppid : Z;
  dl_tsn : Z;
  dl_text : list Z;
  dl_eor : bool
}.

Definition delivery_of (e : rx_effect) : option delivery :=
  match e with
  | RecvCallback u => Some (Delivery (up_sid u) (up_ssn u) (up_ppid u) (up_tsn u) (up_bytes u) (up_eor u))
  | _ => None
  end.

Definition deliveries (e : list rx_effect) : list delivery := omap delivery_of e.

(** Those of one stream, in order. *)
Definition on_stream (sid : nat) (l : list delivery) : list delivery :=
  filter (fun d => dl_sid d = Z.of_nat sid) l.

Definition aborts (e : rx_effect) : bool := match e with AbortAssociation _ => true | _ => false end.

(** ** Plans *)

Section Plan.
Context (msg : nat -> nat -> option message).

(** Every fragment of the message has been taken. *)
Definition complete (R : received) (m : message) : Prop := forall i, (i < m_size m)%nat -> has R (frag_tsn m i).

(** What message [j] of stream [sid] is to the application. *)
Definition sent (sid j : nat) : option delivery :=
  m ← msg sid j;
  Some (Delivery (Z.of_nat sid) (u16 (Z.of_nat j)) (m_ppid m) (u32 (m_tsn m)) (m_text m) true).

Definition sent_from (sid j n : nat) : list delivery := omap (sent sid) (seq j n).

(** The first [D] messages of the stream are complete, and the next one is not. *)
Definition complete_prefix (R : received) (sid D : nat) : Prop :=
  (forall j, (j < D)%nat -> exists m, msg sid j = Some m /\ complete R m) /\
  (forall m, msg sid D = Some m -> ~ complete R m).

(** A fragment fits a chunk; the whole message is below the size from which messages are
    delivered in parts, and [top_fsn], which starts at [0xffffffff], does not lie half the
    number space away from a fragment: see [straddling_message_aborts] (RecvExamples). *)
Record message_ok (pd : Z) (m : message) : Prop := MessageOk {
  mo_some : (0 < m_size m)%nat;
  mo_few : Z.of_nat (m_size m) < 1073741824;
  mo_frags : Forall (fun l => 0 < Z.of_nat (length l) < 65520) (m_frags m);
  mo_text : Z.of_nat (length (m_text m)) < pd;
  mo_ppid : in_u32 (m_ppid m);
  mo_half : 2147483647 <= u32 (frag_tsn m (m_size m - 1)) ->
            forall i, (1 <= i < m_size m)%nat -> 2147483647 <= u32 (frag_tsn m i)
}.

(** The messages of a stream follow each other, and no two fragments share a TSN. *)
Record plan_ok (pd : Z) : Prop := PlanOk {
  po_msg : forall sid j m, msg sid j = Some m -> message_ok pd m;
  po_down : forall sid j m, msg sid (S j) = Some m -> is_Some (msg sid j);
  po_next : forall sid j m m', msg sid j = Some m -> msg sid (S j) = Some m' ->
            frag_tsn m (m_size m) <= m_tsn m';
  po_apart : forall sid sid' j j' m m' i i', msg sid j = Some m -> msg sid' j' = Some m' ->
             (i < m_size m)%nat -> (i' < m_size m')%nat -> frag_tsn m i = frag_tsn m' i' -> sid = sid'
}.

End Plan.

(** ** The plan of a list of messages

    [plan_of] numbers a list of (stream, payload protocol identifier, fragments) from the
    initial TSN on, as a sender does that finishes one message before it begins the next. *)

Fixpoint assign (tsn : Z) (l : list (nat * Z * list (list Z))) : list (nat * message) :=
  match l with
  | [] => []
  | (sid, ppid, frags) :: l => (sid, Message tsn ppid frags) :: assign (tsn + Z.of_nat (length frags)) l
  end.

Definition of_stream (sid : nat) (l : list (nat * message)) : list message :=
  omap (fun e => if decide (e.1 = sid) then Some e.2 else None) l.

Definition plan_of (tsn : Z) (l : list (nat * Z * list (list Z))) (sid j : nat) : option message :=
  of_stream sid (assign tsn l) !! j.

Section PlanOf.

Lemma assign_tsn_ge tsn l e : e ∈ assign tsn l -> tsn <= m_tsn e.2.
Proof.
  revert tsn. induction l as [|[[s p] f] l IH]; simpl; intros tsn He; [by apply elem_of_nil in He|].
  apply elem_of_cons in He as [-> | He]; simpl; [lia|]. apply IH in He. lia.
Qed.

Lemma of_stream_elem sid l m : m ∈ of_stream sid l <-> (sid, m) ∈ l.
Proof.
  unfold of_stream. rewrite list_elem_of_omap. split.
  - intros ([s m'] & He & H). simpl in H. case_decide; simplify_eq/=. done.
  - intros He. exists (sid, m). split; [done|]. simpl. by rewrite decide_True.
Qed.

Lemma of_stream_cons sid s m l :
  of_stream sid ((s, m) :: l) = (if decide (s = sid) then [m] else []) ++ of_stream sid l.
Proof. unfold of_stream. simpl. by case_decide. Qed.

(** The messages of the list have the properties of a plan. *)
Lemma plan_of_ok pd tsn l :
  Forall (fun e => message_ok pd e.2) (assign tsn l) -> plan_ok (plan_of tsn l) pd.
Proof.
  intros Hf. split.
  - intros sid j m Hm%list_elem_of_lookup_2%of_stream_elem. rewrite Forall_forall in Hf.
    exact (Hf _ Hm).
  - intros sid j m Hm%lookup_lt_Some. apply lookup_lt_is_Some. lia.
  - intros sid j m m'. unfold plan_of. revert tsn j Hf.
    induction l as [|[[s p] f] l IH]; intros tsn j Hf; [done|]. cbn [assign] in *.
    apply Forall_cons in Hf as [_ Hf]. rewrite of_stream_cons. case_decide; [|by apply IH].
    destruct j as [|j]; simpl; intros Hj Hj'; [|by eapply IH].
    injection Hj as <-. apply list_elem_of_lookup_2, of_stream_elem, assign_tsn_ge in Hj'.
    unfold frag_tsn, m_size. simpl in *. lia.
  - intros sid sid' j j' m m' i i'
      Hm%list_elem_of_lookup_2%of_stream_elem Hm'%list_elem_of_lookup_2%of_stream_elem Hi Hi' E.
    revert tsn Hm Hm' Hf. induction l as [|[[s p] f] l IH]; simpl; intros tsn Hm Hm' Hf;
      [by apply elem_of_nil in Hm|]. apply Forall_cons in Hf as [_ Hf].
    unfold frag_tsn, m_size in *.
    apply elem_of_cons in Hm as [Hm | Hm]; apply elem_of_cons in Hm' as [Hm' | Hm'].
    + congruence.
    + injection Hm as -> ->. apply assign_tsn_ge in Hm'. simpl in *. lia.
    + injection Hm' as -> ->. apply assign_tsn_ge in Hm. simpl in *. lia.
    + by eapply IH.
Qed.

End PlanOf.
