(* ===== verification/MsgOut.v ===== *)
(** * From the application's messages to DATA chunks (sctp_output.c)

    The application's threads queue messages on the streams, whole or part by part
    ([sctp_copy_it_in] and the parts of [sctp_lower_sosend] that touch the queues, and
    [sctp_msg_append]).  When a packet is built, [sctp_fill_outqueue] asks the stream
    scheduler for a stream, and [sctp_move_to_outqueue] cuts the next chunk off the first
    message of its queue, gives it a TSN and puts it on the send queue.

    Streams and messages are pointers, as in [StreamSched]: the state holds the scheduler's
    [association] and, for the fields the schedulers do not look at, a store of its own.
    Data lie in chains of mbufs ([Mbuf]); [sp_tail] is the place of the tail, counted from
    the end of the chain.  The association's lock is held; the application's threads take
    the send lock instead, so what they do in between shows when the lock is taken: each
    taking of the lock consumes one list of their steps.

    [os_said], [os_log] and [os_behaved] are not fields of the C state: they record what the
    application has handed over, the chunks that have been made, and whether the application
    has kept to the rules of [behaves]. *)

From S2P Require Import Reasm RecvData RecvPlan.
From S2P Require Import Prelude Chunk Mbuf AuthLists Tailq StreamSched.

Open Scope sctp_scope.

Definition SCTP_EOF : Z := 0x0100.
Definition SCTP_UNORDERED : Z := 0x0400.
Definition SCTP_ADDR_OVER : Z := 0x0800.
Definition SCTP_EOR : Z := 0x2000.
Definition SCTP_SACK_IMMEDIATELY : Z := 0x4000.
Definition SCTP_STREAM_OPENING : Z := 1.
Definition SCTP_STREAM_RESET_PENDING : Z := 3.
Definition SCTP_MIN_V4_OVERHEAD : Z := 32.
Definition SCTP_MIN_OVERHEAD : Z := 52.
Definition SCTP_STATE_MASK : Z := 0x007f.
Definition SCTP_STATE_SHUTDOWN_SENT : Z := 0x0010.
Definition SCTP_STATE_SHUTDOWN_RECEIVED : Z := 0x0020.
Definition SCTP_STATE_SHUTDOWN_ACK_SENT : Z := 0x0040.
Definition SCTP_STATE_SHUTDOWN_PENDING : Z := 0x0080.
Definition EINVAL : Z := 22.
Definition ENOMEM : Z := 12.
Definition ENOBUFS : Z := 105.
Definition ECONNRESET : Z := 104.

Definition flagged (flags bit : Z) : bool := negb (Z.land flags bit =? 0).

(** ** State *)

(** The fields of [struct sctp_stream_queue_pending] that [pending] does not have. *)
Record queued := Queued {
  sp_data : list mbuf;
  sp_tail : option nat;
  sp_ts : timeval;
  sp_fsn : Z;
  sp_timetolive : Z;
  sp_ppid : Z;
  sp_context : Z;
  sp_sinfo_flags : Z;
  sp_act_flags : Z;
  sp_auth_keyid : Z;
  sp_holds_key_ref : bool;
  sp_sender_all_done : bool;
  sp_put_last_out : bool;
  sp_discard_rest : bool
}.

Definition queued_eta (r : queued) : queued :=
  Queued (sp_data r) (sp_tail r) (sp_ts r) (sp_fsn r) (sp_timetolive r) (sp_ppid r) (sp_context r) (sp_sinfo_flags r)
    (sp_act_flags r) (sp_auth_keyid r) (sp_holds_key_ref r) (sp_sender_all_done r) (sp_put_last_out r) (sp_discard_rest r).

#[export] Instance set_sp_data : FieldUpdate sp_data := ltac:(field_update queued_eta sp_data).
#[export] Instance set_sp_tail : FieldUpdate sp_tail := ltac:(field_update queued_eta sp_tail).
#[export] Instance set_sp_ts : FieldUpdate sp_ts := ltac:(field_update queued_eta sp_ts).
#[export] Instance set_sp_fsn : FieldUpdate sp_fsn := ltac:(field_update queued_eta sp_fsn).
#[export] Instance set_sp_sinfo_flags : FieldUpdate sp_sinfo_flags := ltac:(field_update queued_eta sp_sinfo_flags).
#[export] Instance set_sp_act_flags : FieldUpdate sp_act_flags := ltac:(field_update queued_eta sp_act_flags).
#[export] Instance set_sp_sender_all_done : FieldUpdate sp_sender_all_done :=
  ltac:(field_update queued_eta sp_sender_all_done).
#[export] Instance set_sp_put_last_out : FieldUpdate sp_put_last_out := ltac:(field_update queued_eta sp_put_last_out).

(** Those of [struct sctp_stream_out]. *)
Record strm_state := StrmState {
  next_mid_ordered : Z;
  next_mid_unordered : Z;
  chunks_on_queues : Z;
  so_state : Z;
  last_msg_incomplete : bool
}.

Definition strm_state_eta (r : strm_state) : strm_state :=
  StrmState (next_mid_ordered r) (next_mid_unordered r) (chunks_on_queues r) (so_state r) (last_msg_incomplete r).

#[export] Instance set_next_mid_ordered : FieldUpdate next_mid_ordered := ltac:(field_update strm_state_eta next_mid_ordered).
#[export] Instance set_next_mid_unordered : FieldUpdate next_mid_unordered :=
  ltac:(field_update strm_state_eta next_mid_unordered).
#[export] Instance set_chunks_on_queues : FieldUpdate chunks_on_queues := ltac:(field_update strm_state_eta chunks_on_queues).
#[export] Instance set_last_msg_incomplete : FieldUpdate last_msg_incomplete :=
  ltac:(field_update strm_state_eta last_msg_incomplete).

(** [struct sctp_tmit_chunk] as it leaves here, with its data; [dc_last] is the place of
    [last_mbuf], counted from the end. *)
Record data_chunk := DataChunk {
  dc_tsn : Z;
  dc_mid : Z;
  dc_sid : Z;
  dc_ppid : Z;
  dc_context : Z;
  dc_rcv_flags : Z;
  dc_timetodrop : timeval;
  dc_flags : Z;
  dc_whoTo : option nat;
  dc_sent : Z;
  dc_book_size : Z;
  dc_send_size : Z;
  dc_data : list mbuf;
  dc_last : nat;
  dc_copy_by_ref : bool;
  dc_pad_inplace : bool;
  dc_auth_keyid : option Z
}.

(** [sctp_auth_key_acquire] and [sctp_auth_key_release]. *)
Inductive key_use := KeyAcquire (keyid : Z) | KeyRelease (keyid : Z).

Record out_state := OutState {
  os_sched : association;
  os_queued : gmap nat queued;
  os_strms : gmap nat strm_state;
  os_send_queue : list data_chunk;
  os_sending_seq : Z;
  os_send_queue_cnt : Z;
  os_chunks_on_out_queue : Z;
  os_total_output_queue_size : Z;
  os_sb_cc : Z;
  os_pr_sctp_cnt : Z;
  os_trigger_reset : bool;
  os_stream_locked : option nat;
  os_key_refs : list key_use;
  os_next : nat;
  os_said : list (nat * (nat * Z * list Z));
  os_log : list data_chunk;
  os_behaved : bool
}.

Definition out_state_eta (r : out_state) : out_state :=
  OutState (os_sched r) (os_queued r) (os_strms r) (os_send_queue r) (os_sending_seq r) (os_send_queue_cnt r)
    (os_chunks_on_out_queue r) (os_total_output_queue_size r) (os_sb_cc r) (os_pr_sctp_cnt r) (os_trigger_reset r)
    (os_stream_locked r) (os_key_refs r) (os_next r) (os_said r) (os_log r) (os_behaved r).

#[export] Instance set_os_sched : FieldUpdate os_sched := ltac:(field_update out_state_eta os_sched).
#[export] Instance set_os_queued : FieldUpdate os_queued := ltac:(field_update out_state_eta os_queued).
#[export] Instance set_os_strms : FieldUpdate os_strms := ltac:(field_update out_state_eta os_strms).
#[export] Instance set_os_send_queue : FieldUpdate os_send_queue := ltac:(field_update out_state_eta os_send_queue).
#[export] Instance set_os_sending_seq : FieldUpdate os_sending_seq := ltac:(field_update out_state_eta os_sending_seq).
#[export] Instance set_os_send_queue_cnt : FieldUpdate os_send_queue_cnt :=
  ltac:(field_update out_state_eta os_send_queue_cnt).
#[export] Instance set_os_chunks_on_out_queue : FieldUpdate os_chunks_on_out_queue :=
  ltac:(field_update out_state_eta os_chunks_on_out_queue).
#[export] Instance set_os_total_output_queue_size : FieldUpdate os_total_output_queue_size :=
  ltac:(field_update out_state_eta os_total_output_queue_size).
#[export] Instance set_os_sb_cc : FieldUpdate os_sb_cc := ltac:(field_update out_state_eta os_sb_cc).
#[export] Instance set_os_pr_sctp_cnt : FieldUpdate os_pr_sctp_cnt := ltac:(field_update out_state_eta os_pr_sctp_cnt).
#[export] Instance set_os_trigger_reset : FieldUpdate os_trigger_reset := ltac:(field_update out_state_eta os_trigger_reset).
#[export] Instance set_os_stream_locked : FieldUpdate os_stream_locked := ltac:(field_update out_state_eta os_stream_locked).
#[export] Instance set_os_key_refs : FieldUpdate os_key_refs := ltac:(field_update out_state_eta os_key_refs).
#[export] Instance set_os_next : FieldUpdate os_next := ltac:(field_update out_state_eta os_next).
#[export] Instance set_os_said : FieldUpdate os_said := ltac:(field_update out_state_eta os_said).
#[export] Instance set_os_log : FieldUpdate os_log := ltac:(field_update out_state_eta os_log).
#[export] Instance set_os_behaved : FieldUpdate os_behaved := ltac:(field_update out_state_eta os_behaved).

(** What stays the same: the scheduler, the state of the association, the socket and the
    settings.  [oe_writable] says whether a cluster belongs to one mbuf only. *)
Record out_env := OutEnv {
  oe_module : ss_module;
  oe_cmt_on_off : Z;
  oe_assoc_state : Z;
  oe_now : timeval;
  oe_peer_auth_chunks : option sctp_auth_chklist;
  oe_active_keyid : Z;
  oe_explicit_eor : bool;
  oe_tcp_socket : bool;
  oe_sb_limit_snd : Z;
  oe_total_flight : Z;
  oe_min_residual : Z;
  oe_min_split_point : Z;
  oe_enable_sack_immediately : bool;
  oe_mbuf_threshold_count : Z;
  oe_writable : mbuf -> bool
}.

Definition ss (env : out_env) : ss_functions := sctp_ss_functions (oe_module env).

Definition idata (s : out_state) : bool := negb (idata_supported (os_sched s) =? 0).

Definition SCTP_DATA_CHUNK_OVERHEAD (s : out_state) : Z := if idata s then 20 else 16.

(** ** Small operations *)

Definition on_sched (f : association -> association) (s : out_state) : out_state := s <| os_sched := f (os_sched s) |>.

Definition outqueue (strq : nat) (s : out_state) : list nat := so_outqueue (strq_of (os_sched s) strq).

Definition msg_of (q : nat) (s : out_state) : pending := sp_of (os_sched s) q.

Definition set_pendings (a : association) (p : gmap nat pending) : association := set_fcfs a (fcfs_list a) p.

Definition upd_msg (q : nat) (f : pending -> pending) (s : out_state) : out_state :=
  on_sched (fun a => set_pendings a (alter f q (pendings a))) s.

Definition upd_queued (q : nat) (f : queued -> queued) (s : out_state) : out_state :=
  s <| os_queued := alter f q (os_queued s) |>.

Definition upd_strm (strq : nat) (f : strm_state -> strm_state) (s : out_state) : out_state :=
  s <| os_strms := alter f strq (os_strms s) |>.

Definition with_length (n : Z) (p : pending) : pending :=
  Pending (sp_net p) n (sp_sid p) (sp_msg_is_complete p) (sp_some_taken p) (sp_linked p).
Definition with_complete (v : Z) (p : pending) : pending :=
  Pending (sp_net p) (sp_length p) (sp_sid p) v (sp_some_taken p) (sp_linked p).
Definition with_taken (v : Z) (p : pending) : pending :=
  Pending (sp_net p) (sp_length p) (sp_sid p) (sp_msg_is_complete p) v (sp_linked p).
Definition with_outqueue (l : list nat) (x : stream_out) : stream_out :=
  StreamOut l (so_linked x) (so_params x) (so_sid x).
Definition add_queue_cnt (n : Z) (a : association) : association :=
  Asoc (locked_on_sending a) (last_out_stream a) (wheel a) (fcfs_list a) (strmout a) (streams a) (pendings a)
    (idata_supported a) (u32 (stream_queue_cnt a + n)).

Definition sctp_snd_sb_alloc (env : out_env) (sz : Z) (s : out_state) : out_state :=
  let s := s <| os_total_output_queue_size := u32 (os_total_output_queue_size s + sz) |> in
  if oe_tcp_socket env then s <| os_sb_cc := u32 (os_sb_cc s + sz) |> else s.

Definition M_LEADINGSPACE (env : out_env) (m : mbuf) : Z :=
  match m_ext m, m_pkthdr m with
  | Some _, _ => if oe_writable env m then m_data m else 0
  | None, Some _ => m_data m - pktdat
  | None, None => m_data m
  end.

Definition M_TRAILINGSPACE (env : out_env) (m : mbuf) : Z :=
  match m_ext m with
  | Some size => if oe_writable env m then size - (m_data m + m_len m) else 0
  | None => MLEN - (m_data m + m_len m)
  end.

(** References to a shared key; what they do is in [AuthKeys]. *)
Definition key_event (e : key_use) (s : out_state) : out_state := s <| os_key_refs := os_key_refs s ++ [e] |>.

(** ** Messages from the application *)

Record send_info := SendInfo {
  sinfo_stream : nat;
  sinfo_flags : Z;
  sinfo_timetolive : Z;
  sinfo_ppid : Z;
  sinfo_context : Z;
  sinfo_keynumber : option Z
}.

(** The loop that moves the user's data into mbufs; a new mbuf is writable. *)
Fixpoint copy_fill (fuel : nat) (threshold : Z) (alloc : nat -> bool) (k : nat) (m : mbuf) (left_ : list Z)
  : option (option (list mbuf)) :=
  match fuel with
  | O => None
  | S fuel =>
      let willcpy := Z.min (m_end m - (m_data m + m_len m)) (Z.of_nat (length left_)) in
      let m := m <| m_bytes := take (Z.to_nat willcpy) left_ |> in
      match drop (Z.to_nat willcpy) left_ with
      | [] => Some (Some [m])
      | rest =>
          match sctp_get_mbuf_for_msg threshold (alloc k) (u32 (Z.of_nat (length rest))) false false with
          | None => Some None
          | Some n => r ← copy_fill fuel threshold alloc (S k) n rest; Some (option_map (cons m) r)
          end
      end
  end.

(** [None] of the inner option is [ENOBUFS]. *)
Definition sctp_copy_one (env : out_env) (alloc : nat -> bool) (uio : list Z) (resv_upfront : Z)
  : option (option (list mbuf)) :=
  match sctp_get_mbuf_for_msg (oe_mbuf_threshold_count env) (alloc 0%nat) (u32 (Z.of_nat (length uio) + resv_upfront))
          false false with
  | None => Some None
  | Some m => copy_fill (S (length uio)) (oe_mbuf_threshold_count env) alloc 1 (m <| m_data := m_data m + resv_upfront |>) uio
  end.

Definition sctp_copy_resume (env : out_env) (alloc : nat -> bool) (uio : list Z) : option (option (list mbuf)) :=
  match sctp_get_mbuf_for_msg (oe_mbuf_threshold_count env) (alloc 0%nat) (u32 (Z.of_nat (length uio))) false false with
  | None => Some None
  | Some m => copy_fill (S (length uio)) (oe_mbuf_threshold_count env) alloc 1 m uio
  end.

Definition timeradd (a b : timeval) : timeval :=
  let usec := tv_usec a + tv_usec b in
  if 1000000 <=? usec then Timeval (tv_sec a + tv_sec b + 1) (usec - 1000000) else Timeval (tv_sec a + tv_sec b) usec.

Definition sctp_set_prsctp_policy (now : timeval) (sp : queued) : queued :=
  let policy (sp : queued) := sp <| sp_act_flags := Z.lor (sp_act_flags sp) (PR_SCTP_POLICY (sp_sinfo_flags sp)) |> in
  let set_ts (sp : queued) :=
    let ttl := sp_timetolive sp in
    let p := PR_SCTP_POLICY (sp_sinfo_flags sp) in
    if (p =? SCTP_PR_SCTP_BUF) || (p =? SCTP_PR_SCTP_RTX) then sp <| sp_ts := Timeval ttl 0 |>
    else if p =? SCTP_PR_SCTP_TTL then sp <| sp_ts := timeradd now (Timeval (ttl / 1000) (u32 (ttl * 1000) mod 1000000)) |>
    else sp in
  if PR_SCTP_ENABLED (sp_sinfo_flags sp) then set_ts (policy sp)
  else if 0 <? sp_timetolive sp then
    set_ts (policy (sp <| sp_sinfo_flags := Z.lor (sp_sinfo_flags sp) SCTP_PR_SCTP_TTL |>))
  else sp.

(** "got data while shutting down" *)
Definition shutting_down (env : out_env) : bool :=
  let st := Z.land (oe_assoc_state env) SCTP_STATE_MASK in
  (st =? SCTP_STATE_SHUTDOWN_SENT) || (st =? SCTP_STATE_SHUTDOWN_ACK_SENT) || (st =? SCTP_STATE_SHUTDOWN_RECEIVED)
  || flagged (oe_assoc_state env) SCTP_STATE_SHUTDOWN_PENDING.

Definition data_needs_auth (env : out_env) : bool := sctp_auth_is_required_chunk SCTP_DATA (oe_peer_auth_chunks env).

Definition hold_key (b : bool) (keyid : Z) (s : out_state) : out_state := if b then key_event (KeyAcquire keyid) s else s.

(** Does the user's last byte end the message? *)
Definition ends_here (user_marks_eor : bool) (srcv : send_info) : bool :=
  negb user_marks_eor || flagged (sinfo_flags srcv) SCTP_EOF || flagged (sinfo_flags srcv) SCTP_EOR.

(** The error and the message. *)
Definition sctp_copy_it_in (env : out_env) (ok : bool) (alloc : nat -> bool) (srcv : send_info) (uio : list Z)
    (net : option nat) (max_send_len : Z) (user_marks_eor : bool) (s : out_state)
  : option (Z * option (pending * queued) * out_state) :=
  if shutting_down env then Some (ECONNRESET, None, s)
  else if negb ok then Some (ENOMEM, None, s)
  else
    let len := Z.min (Z.of_nat (length uio)) max_send_len in
    let complete := (len =? Z.of_nat (length uio)) && ends_here user_marks_eor srcv in
    let keyid := if len =? 0 then 0 else default (oe_active_keyid env) (sinfo_keynumber srcv) in
    let holds := negb (len =? 0) && data_needs_auth env in
    r ← (if len =? 0 then Some (Some [])
         else sctp_copy_one env alloc (take (Z.to_nat len) uio) (SCTP_DATA_CHUNK_OVERHEAD s));
    let s := hold_key holds keyid s in
    match r with
    | None => Some (ENOBUFS, None, if holds then key_event (KeyRelease keyid) s else s)
    | Some data =>
        let sp := Queued data (match data with [] => None | _ => Some 0%nat end) (oe_now env) 0 (sinfo_timetolive srcv)
                    (sinfo_ppid srcv) (sinfo_context srcv) (sinfo_flags srcv) 0 keyid holds false false false in
        Some (0, Some (Pending (if flagged (sinfo_flags srcv) SCTP_ADDR_OVER then net else None) len (sinfo_stream srcv)
                         (Z.b2z complete) 0 false, sctp_set_prsctp_policy (oe_now env) sp), s)
    end.

(** The message is put at the end of its stream's queue and offered to the scheduler. *)
Definition put_message (env : out_env) (strq : nat) (p : pending) (sp : queued) (s : out_state) : out_state :=
  let q := os_next s in
  let s := on_sched (fun a =>
    set_streams (set_pendings (add_queue_cnt 1 a) (<[q := p]> (pendings a)))
      (alter (fun x => with_outqueue (so_outqueue x ++ [q]) x) strq (streams a))) s
    <| os_queued := <[q := sp]> (os_queued s) |> <| os_next := S q |>
    <| os_said := os_said s ++ [(q, (sp_sid p, sp_ppid sp, chain_bytes (sp_data sp)))] |> in
  on_sched (fun a => sctp_ss_add_to_stream (ss env) a strq (Some q)) s.

Definition insert_message (env : out_env) (strq : nat) (p : pending) (sp : queued) (s : out_state) : out_state :=
  put_message env strq p sp (sctp_snd_sb_alloc env (sp_length p) s).

(** [sctp_lower_sosend] from the check of [stream_locked] to the loop over the rest of the
    user's data: the error and the message. *)
Definition begin_send (env : out_env) (ok : bool) (alloc : nat -> bool) (srcv : send_info) (uio : list Z)
    (net : option nat) (max_len : Z) (user_marks_eor : bool) (s : out_state) : option (Z * option nat * out_state) :=
  if match os_stream_locked s with Some l => negb (l =? sinfo_stream srcv)%nat | None => false end
  then Some (EINVAL, None, s)
  else
    strq ← strmout (os_sched s) !! sinfo_stream srcv;
    st ← os_strms s !! strq;
    match (if last_msg_incomplete st then last (outqueue strq s) else None) with
    | Some q => Some (0, Some q, s)
    | None =>
        let s := upd_strm strq (fun st => st <| last_msg_incomplete := false |>) s in
        r ← sctp_copy_it_in env ok alloc srcv uio net max_len user_marks_eor s;
        match r with
        | (error, None, s) => Some (error, None, s)
        | (_, Some (p, sp), s) =>
            let complete := negb (sp_msg_is_complete p =? 0) in
            let s := upd_strm strq (fun st => st <| last_msg_incomplete := negb complete |>) s in
            let s := if complete then s <| os_stream_locked := None |>
                     else if negb (idata s) then s <| os_stream_locked := Some (sinfo_stream srcv) |> else s in
            Some (0, Some (os_next s), insert_message env strq p sp s)
        end
    end.

(** One round of the loop over the rest of the user's data: [uio] is taken, and [resid]
    says whether more is left. *)
Definition append_more (env : out_env) (alloc : nat -> bool) (q : nat) (srcv : send_info) (uio : list Z) (resid : bool)
    (user_marks_eor : bool) (s : out_state) : option (Z * out_state) :=
  mm ← sctp_copy_resume env alloc uio;
  match mm with
  | None => Some (ENOBUFS, s)
  | Some mm =>
      p ← pendings (os_sched s) !! q;
      sp ← os_queued s !! q;
      let data := match sp_tail sp with
                  | Some d => take (length (sp_data sp) - d) (sp_data sp) ++ mm
                  | None => mm
                  end in
      let s := sctp_snd_sb_alloc env (chain_len mm) s in
      let s := upd_msg q (fun p => with_complete (Z.b2z (negb resid && ends_here user_marks_eor srcv))
                                     (with_length (u32 (sp_length p + chain_len mm)) p)) s in
      let s := upd_queued q (fun sp =>
        let sp := sp <| sp_data := data |> <| sp_tail := Some 0%nat |> in
        if flagged (sinfo_flags srcv) SCTP_SACK_IMMEDIATELY
        then sp <| sp_sinfo_flags := Z.lor (sp_sinfo_flags sp) SCTP_SACK_IMMEDIATELY |> else sp) s in
      Some (0, s <| os_said := map (fun e => if (e.1 =? q)%nat then (q, (e.2.1, e.2.2 ++ uio)) else e) (os_said s) |>)
  end.

(** The end of [sctp_lower_sosend]: the sender is done with the message, or will come back. *)
Definition finish_send (q sid : nat) (s : out_state) : option out_state :=
  strq ← strmout (os_sched s) !! sid;
  p ← pendings (os_sched s) !! q;
  Some (if sp_msg_is_complete p =? 0 then
          let s := upd_strm strq (fun st => st <| last_msg_incomplete := true |>) s in
          if negb (idata s) then s <| os_stream_locked := Some sid |> else s
        else
          upd_queued q (fun sp => sp <| sp_sender_all_done := true |>)
            (upd_strm strq (fun st => st <| last_msg_incomplete := false |>) s) <| os_stream_locked := None |>).

(** The chain is a whole message; the result is the error. *)
Definition sctp_msg_append (env : out_env) (ok : bool) (net : option nat) (m : list mbuf) (srcv : send_info)
    (s : out_state) : option (Z * out_state) :=
  match strmout (os_sched s) !! sinfo_stream srcv with
  | None => Some (EINVAL, s)
  | Some strq =>
      if match os_stream_locked s with Some l => negb (l =? sinfo_stream srcv)%nat | None => false end
      then Some (EINVAL, s)
      else if shutting_down env then Some (ECONNRESET, s)
      else if negb ok then Some (ENOMEM, s)
      else
        let keyid := default (oe_active_keyid env) (sinfo_keynumber srcv) in
        let sp := Queued m (match m with [] => None | _ => Some 0%nat end) (oe_now env) 0 (sinfo_timetolive srcv)
                    (sinfo_ppid srcv) (sinfo_context srcv) (sinfo_flags srcv) 0 keyid (data_needs_auth env) true false false in
        let p := Pending (if flagged (sinfo_flags srcv) SCTP_ADDR_OVER then net else None) (u32 (chain_len m))
                   (sinfo_stream srcv) 1 0 false in
        Some (0, insert_message env strq p (sctp_set_prsctp_policy (oe_now env) sp) (hold_key (data_needs_auth env) keyid s))
  end.

(** ** The application's steps *)

Inductive user_op :=
| UBegin (ok : bool) (alloc : nat -> bool) (srcv : send_info) (uio : list Z) (net : option nat) (max_len : Z) (eor : bool)
| UMore (alloc : nat -> bool) (q : nat) (srcv : send_info) (uio : list Z) (resid eor : bool)
| UDone (q sid : nat)
| UAppend (ok : bool) (net : option nat) (m : list mbuf) (srcv : send_info).

Definition perform (env : out_env) (o : user_op) (s : out_state) : option out_state :=
  match o with
  | UBegin ok alloc srcv uio net max_len eor => r ← begin_send env ok alloc srcv uio net max_len eor s; Some r.2
  | UMore alloc q srcv uio resid eor => r ← append_more env alloc q srcv uio resid eor s; Some r.2
  | UDone q sid => finish_send q sid s
  | UAppend ok net m srcv => r ← sctp_msg_append env ok net m srcv s; Some r.2
  end.

(** What the theorems on fragmentation ask of the application: ordered messages that are
    not empty and below a gigabyte, and no bytes for a message that is complete. *)
Definition quiet (flags : Z) : bool :=
  negb (flagged flags SCTP_UNORDERED || flagged flags SCTP_SACK_IMMEDIATELY || flagged flags SCTP_EOF).

Definition fits (bytes : list Z) (len : Z) : bool :=
  (0 <? Z.of_nat (length bytes)) && (len + Z.of_nat (length bytes) <? M_COPYALL).

Definition fair_info (srcv : send_info) : bool :=
  quiet (sinfo_flags srcv) && (0 <=? sinfo_ppid srcv) && (sinfo_ppid srcv <? 4294967296).

Definition in_area (m : mbuf) : bool :=
  (0 <=? m_data m) && (m_data m + m_len m <=? m_end m)
  && match m_ext m, m_pkthdr m with None, Some _ => pktdat <=? m_data m | _, _ => true end.

Definition behaves (o : user_op) (s : out_state) : bool :=
  match o with
  | UBegin _ _ srcv uio _ max_len _ => fits uio 0 && fair_info srcv && (1 <=? max_len)
  | UMore _ q srcv uio _ _ =>
      match pendings (os_sched s) !! q with
      | Some p => fits uio (sp_length p) && quiet (sinfo_flags srcv) && (sp_msg_is_complete p =? 0)
      | None => false
      end
  | UDone _ _ => true
  | UAppend _ _ m srcv => fits (chain_bytes m) 0 && fair_info srcv && forallb in_area m
  end.

Definition run_op (env : out_env) (o : user_op) (s : out_state) : option out_state :=
  perform env o (s <| os_behaved := os_behaved s && behaves o s |>).

Fixpoint run_ops (env : out_env) (l : list user_op) (s : out_state) : option out_state :=
  match l with [] => Some s | o :: l => s ← run_op env o s; run_ops env l s end.

(** [SCTP_TCB_SEND_LOCK], unless it is held: what the application did until now shows. *)
Definition send_lock (env : out_env) (locked : bool) (u : list (list user_op)) (s : out_state)
  : option (out_state * list (list user_op)) :=
  if locked then Some (s, u)
  else match u with [] => Some (s, []) | l :: u => s ← run_ops env l s; Some (s, u) end.

(** ** [sctp_can_we_split_this], [sctp_get_frag_point] *)

Definition sctp_can_we_split_this (env : out_env) (len space_left frag_point : Z) (eeor_on : bool) : Z :=
  if eeor_on then
    if len <=? space_left then if oe_total_flight env =? 0 then len else 0 else space_left
  else if oe_sb_limit_snd env <? frag_point then len
  else if (len <=? space_left) || (u32 (len - space_left) <? oe_min_residual env) then 0
  else if Z.min (oe_min_split_point env) frag_point <=? space_left then Z.min space_left frag_point
  else 0.

(** [auth] is the length of an AUTH chunk. *)
Definition sctp_get_frag_point (env : out_env) (bound_v6 : bool) (sctp_frag_point smallest_mtu auth : Z) (s : out_state) : Z :=
  let ovh := (if bound_v6 then SCTP_MIN_OVERHEAD else SCTP_MIN_V4_OVERHEAD) + SCTP_DATA_CHUNK_OVERHEAD s in
  let siz := i32 ((if smallest_mtu <? sctp_frag_point then smallest_mtu else sctp_frag_point) - ovh) in
  let siz := if data_needs_auth env then i32 (siz - auth) else siz in
  if Z.rem siz 4 =? 0 then siz else siz - Z.rem siz 4.

(** ** [sctp_move_to_outqueue] *)

(** What memory is there during one call, and what the application does before it and
    while it runs. *)
Record attempt := Attempt {
  at_before : list user_op;
  at_chunk : bool;
  at_copy : nat -> bool;
  at_head : bool;
  at_pad : bool;
  at_users : list (list user_op)
}.

(** The result: [to_move], [*giveup] and [*bail]. *)
Record moved := Moved { mv_to_move : Z; mv_giveup : bool; mv_bail : bool }.

Definition gave_up : moved := Moved 0 true false.
Definition bailed : moved := Moved 0 false true.

(** The message at the head of the queue is taken off and freed. *)
Definition drop_message (env : out_env) (strq q : nat) (s : out_state) : option out_state :=
  sp ← os_queued s !! q;
  let s := on_sched (fun a => add_queue_cnt (-1)
             (set_streams a (alter (fun x => with_outqueue (tail (so_outqueue x)) x) strq (streams a)))) s in
  a ← sctp_ss_remove_from_stream (ss env) (os_sched s) strq (Some q);
  st ← os_strms s !! strq;
  let s := s <| os_sched := set_pendings a (delete q (pendings a)) |> <| os_queued := delete q (os_queued s) |>
             <| os_trigger_reset := os_trigger_reset s || (so_state st =? SCTP_STREAM_RESET_PENDING)
                  && (chunks_on_queues st =? 0) && TAILQ_EMPTY (so_outqueue (strq_of a strq)) |> in
  Some (if sp_holds_key_ref sp then key_event (KeyRelease (sp_auth_keyid sp)) s else s).

(** [one_more_time]: find the message to take from, or leave.  The flag says whether the
    send lock is held. *)
Inductive next_msg := Leave (r : moved) | Take (q : nat) (locked : bool).

Definition no_message (env : out_env) (strq : nat) (s : out_state) : out_state :=
  if negb (oe_explicit_eor env) && negb (idata s)
  then upd_strm strq (fun st => st <| last_msg_incomplete := false |>) s else s.

Definition discard_rest (env : out_env) (q : nat) (s : out_state) : out_state :=
  let len := sp_length (msg_of q s) in
  let s := s <| os_total_output_queue_size := u32 (os_total_output_queue_size s - len) |> in
  let s := if oe_tcp_socket env then s <| os_sb_cc := u32 (os_sb_cc s - len) |> else s in
  upd_msg q (fun p => with_taken 1 (with_length 0 p)) (upd_queued q (fun sp => sp <| sp_data := [] |> <| sp_tail := None |>) s).

Fixpoint one_more_time (fuel : nat) (env : out_env) (strq : nat) (locked : bool) (u : list (list user_op)) (s : out_state)
  : option (next_msg * out_state * list (list user_op)) :=
  match fuel with
  | O => None
  | S fuel =>
      match TAILQ_FIRST (outqueue strq s) with
      | None =>
          r ← send_lock env locked u s;
          let '(s, u) := (r : out_state * list (list user_op)) in
          match TAILQ_FIRST (outqueue strq s) with
          | Some _ => one_more_time fuel env strq true u s
          | None => Some (Leave (Moved 0 false false), no_message env strq s, u)
          end
      | Some q =>
          p ← pendings (os_sched s) !! q;
          sp ← os_queued s !! q;
          if negb (sp_msg_is_complete p =? 0) && (sp_length p =? 0) then
            if sp_sender_all_done sp then
              r ← (if (length (outqueue strq s) =? 1)%nat then send_lock env locked u s else Some (s, u));
              let '(s, u) := (r : out_state * list (list user_op)) in
              s ← drop_message env strq q s; one_more_time fuel env strq false u s
            else Some (Leave gave_up, s, u)
          else if sp_length p =? 0 then Some (Leave gave_up, s, u)
          else if sp_discard_rest sp then
            r ← send_lock env locked u s;
            let '(s, u) := (r : out_state * list (list user_op)) in
            Some (Leave gave_up, discard_rest env q s, u)
          else Some (Take q locked, s, u)
      end
  end.

(** [re_look] for a complete message: [to_move] and the flags. *)
Definition look_complete (frag_point : Z) (q : nat) (s : out_state) : Z * Z * out_state :=
  let p := msg_of q s in
  let to_move := Z.min (sp_length p) frag_point in
  if to_move =? sp_length p then
    let flags := if sp_some_taken p =? 0 then SCTP_DATA_NOT_FRAG else SCTP_DATA_LAST_FRAG in
    let flags := if match os_queued s !! q with Some sp => flagged (sp_sinfo_flags sp) SCTP_SACK_IMMEDIATELY | None => false end
                 then Z.lor flags SCTP_DATA_SACK_IMMEDIATELY else flags in
    (to_move, flags, upd_queued q (fun sp => sp <| sp_put_last_out := true |>) s)
  else (to_move, if sp_some_taken p =? 0 then SCTP_DATA_FIRST_FRAG else 0, upd_msg q (with_taken 1) s).

(** What is taken: the length seen, [to_move], the flags, and whether the lock is held;
    [None] is "Nothing to take". *)
Definition re_look (env : out_env) (space_left frag_point : Z) (eeor : bool) (q : nat) (locked : bool)
    (u : list (list user_op)) (s : out_state)
  : option (option (Z * Z * Z * bool) * out_state * list (list user_op)) :=
  let p := msg_of q s in
  let len := sp_length p in
  if negb (sp_msg_is_complete p =? 0) then
    let '(to_move, flags, s) := look_complete frag_point q s in Some (Some (len, to_move, flags, locked), s, u)
  else
    let to_move := sctp_can_we_split_this env len space_left frag_point eeor in
    if to_move =? 0 then Some (None, s, u)
    else
      let all := len <=? to_move in
      r ← (if all then send_lock env locked u s else Some (s, u));
      let '(s, u) := (r : out_state * list (list user_op)) in
      let p := msg_of q s in
      if all && negb locked && negb (sp_msg_is_complete p =? 0) then
        let '(to_move, flags, s) := look_complete frag_point q s in Some (Some (sp_length p, to_move, flags, true), s, u)
      else
        let first := sp_some_taken p =? 0 in
        Some (Some (len, Z.min to_move len, if first then SCTP_DATA_FIRST_FRAG else 0, locked || all),
              if first then upd_msg q (with_taken 1) s else s, u).

(** The copying of part of the data, and what is left: mbufs without bytes are freed from
    the head; [None] of the inner option is a failed copy. *)
Fixpoint drop_empty (c : list mbuf) : list mbuf :=
  match c with m :: r => if m_len m =? 0 then drop_empty r else c | [] => [] end.

(** Freeing the tail: "TSNH". *)
Definition compact (q : nat) (s : out_state) : option out_state :=
  sp ← os_queued s !! q;
  let rest := drop_empty (sp_data sp) in
  Some (if match sp_tail sp with Some d => (length rest <=? d)%nat | None => false end
        then upd_msg q (with_length 0) (upd_queued q (fun sp => sp <| sp_data := [] |> <| sp_tail := None |>) s)
        else upd_queued q (fun sp => sp <| sp_data := rest |>) s).

Definition copy_part (at_ : attempt) (q : nat) (to_move : Z) (s : out_state) : option (option (list mbuf) * out_state) :=
  sp ← os_queued s !! q;
  c ← m_copym (at_copy at_) (sp_data sp) 0 to_move;
  match c with
  | None => Some (None, s)
  | Some data =>
      s ← compact q (upd_queued q (fun sp => sp <| sp_data := m_adj (sp_data sp) to_move |>) s);
      Some (Some data, s)
  end.

(** "we think we can steal the whole thing"; the place of [last_mbuf], which is searched
    for when it is [NULL]. *)
Definition take_data (env : out_env) (at_ : attempt) (q : nat) (len to_move : Z) (locked : bool)
    (u : list (list user_op)) (s : out_state)
  : option (option (list mbuf) * nat * bool * out_state * list (list user_op)) :=
  if len <=? to_move then
    sp ← os_queued s !! q;
    r ← (if sp_sender_all_done sp then Some (s, u) else send_lock env locked u s);
    let '(s, u) := (r : out_state * list (list user_op)) in
    let locked := locked || negb (sp_sender_all_done sp) in
    p ← pendings (os_sched s) !! q;
    sp ← os_queued s !! q;
    if to_move <? sp_length p then
      r ← copy_part at_ q to_move s; Some (r.1, 0%nat, locked, r.2, u)
    else
      match sp_data sp with
      | [] => None
      | data => Some (Some data, default 0%nat (sp_tail sp), locked,
                      upd_queued q (fun sp => sp <| sp_data := [] |> <| sp_tail := None |>) s, u)
      end
  else r ← copy_part at_ q to_move s; Some (r.1, 0%nat, locked, r.2, u).

(** The bytes of the header, in the order of the network. *)
Definition data_header (s : out_state) (sid flags tsn mid ppid fsn send_size : Z) : list Z :=
  if idata s then
    [SCTP_IDATA; flags] ++ put16 send_size ++ put32 tsn ++ put16 sid ++ put16 0 ++ put32 mid
    ++ (if fsn =? 0 then put32_le ppid else put32 fsn)
  else
    [SCTP_DATA; flags] ++ put16 send_size ++ put32 tsn ++ put16 sid ++ put16 (u16 mid) ++ put32_le ppid.

(** [m_prepend] (user_mbuf.c): the new mbuf has [len] bytes, which the header fills. *)
Definition m_prepend (ok : bool) (c : list mbuf) (hdr : list Z) : option (list mbuf) :=
  m ← head c;
  let len := Z.of_nat (length hdr) in
  match m_pkthdr m with
  | Some _ =>
      n ← m_gethdr ok;
      let '(n, m) := m_move_pkthdr n m in
      Some (n <| m_data := if len <? MHLEN then m_data n + align MHLEN len else m_data n |> <| m_bytes := hdr |> :: m :: tail c)
  | None =>
      n ← m_get ok;
      Some (n <| m_data := if len <? MLEN then align MLEN len else m_data n |> <| m_bytes := hdr |> :: c)
  end.

(** [SCTP_BUF_PREPEND], and the header is written to the new bytes; [None] is [NULL]. *)
Definition prepend (env : out_env) (ok : bool) (c : list mbuf) (hdr : list Z) : option (list mbuf) :=
  let plen := Z.of_nat (length hdr) in
  match c with
  | [] => None
  | m :: r =>
      c ← (if plen <=? M_LEADINGSPACE env m
           then Some (m <| m_data := m_data m - plen |> <| m_bytes := hdr ++ m_bytes m |> :: r)
           else m_prepend ok c hdr);
      Some (adjust_pkthdr (fun l => l + plen) c)
  end.

(** "Not enough room for a chunk header, get some"; [None] means that there is no memory. *)
Definition header_room (env : out_env) (ok : bool) (c : list mbuf) (leading : Z) : option (list mbuf) :=
  match c with
  | [] => None
  | m :: _ =>
      if M_LEADINGSPACE env m <? leading then
        n ← sctp_get_mbuf_for_msg (oe_mbuf_threshold_count env) ok 1 false false;
        Some (n <| m_data := m_data n + align MLEN 4 |> :: c)
      else Some c
  end.

(** "we must put the data back and restore" *)
Definition unsteal (q : nat) (some_taken to_move : Z) (data : list mbuf) (last_ : nat) (s : out_state) : option out_state :=
  sp ← os_queued s !! q;
  let sp := match sp_data sp with
            | [] => sp <| sp_data := data |> <| sp_tail := Some last_ |>
            | rest => sp <| sp_data := take (length data - last_) data ++ rest |>
            end in
  Some (upd_msg q (fun p => with_taken some_taken (with_length (u32 (sp_length p + to_move)) p))
          (upd_queued q (fun _ => sp) s)).

(** The message identifier, and what becomes of the stream's counters. *)
Definition assign_mid (idata_ : bool) (flags : Z) (st : strm_state) : Z * strm_state :=
  let last_ := flagged flags SCTP_DATA_LAST_FRAG in
  if flagged flags SCTP_DATA_UNORDERED then
    if idata_ then
      (next_mid_unordered st,
       if last_ then st <| next_mid_unordered := u32 (next_mid_unordered st + 1) |> else st)
    else (0, st)
  else (next_mid_ordered st, if last_ then st <| next_mid_ordered := u32 (next_mid_ordered st + 1) |> else st).

(** [sctp_pad_lastmbuf] (sctputil.c): the chain, the place of its last mbuf, and whether
    the padding is there. *)
Definition sctp_pad_lastmbuf (env : out_env) (ok : bool) (c : list mbuf) (last_ : nat) (padlen : Z)
  : option (list mbuf * nat * bool) :=
  let i := (length c - 1 - last_)%nat in
  m ← c !! i;
  let zeros := repeat 0 (Z.to_nat padlen) in
  Some (if 3 <? padlen then (c, last_, false)
        else if padlen <=? M_TRAILINGSPACE env m then (<[i := m <| m_bytes := m_bytes m ++ zeros |>]> c, last_, true)
        else match sctp_get_mbuf_for_msg (oe_mbuf_threshold_count env) ok padlen false true with
             | None => (c, last_, false)
             | Some n => (take (S i) c ++ [n <| m_bytes := zeros |>], 0%nat, true)
             end).

(** The chunk's fields, its header and its padding; [locked] is not looked at any more
    until the message may be taken off its queue. *)
Definition build_chunk (env : out_env) (at_ : attempt) (strq q : nat) (to_move flags : Z) (by_ref : bool) (last_ : nat)
    (data : list mbuf) (s : out_state) : option (option data_chunk * out_state) :=
  sp ← os_queued s !! q;
  p ← pendings (os_sched s) !! q;
  st ← os_strms s !! strq;
  let size := u16 (to_move + SCTP_DATA_CHUNK_OVERHEAD s) in
  let tsn := os_sending_seq s in
  let '(mid, st) := assign_mid (idata s) flags st in
  match prepend env (at_head at_) data
          (data_header s (so_sid (strq_of (os_sched s) strq)) flags tsn mid (sp_ppid sp) (sp_fsn sp) size) with
  | None => Some (None, s)
  | Some data =>
      let s := sctp_snd_sb_alloc env (SCTP_DATA_CHUNK_OVERHEAD s) s in
      let s := upd_strm strq (fun _ => st) s in
      let s := hold_key (sp_holds_key_ref sp) (sp_auth_keyid sp) s <| os_sending_seq := u32 (tsn + 1) |> in
      let s := if idata s then upd_queued q (fun sp => sp <| sp_fsn := u32 (sp_fsn sp + 1) |>) s else s in
      let pads := SCTP_SIZE32 size - size in
      r ← (if size <? SCTP_SIZE32 size then sctp_pad_lastmbuf env (at_pad at_) data last_ pads else Some (data, last_, false));
      let '(data, last_, padded) := (r : list mbuf * nat * bool) in
      let chk := DataChunk tsn mid (Z.of_nat (sp_sid p)) (sp_ppid sp) (sp_context sp) flags (sp_ts sp) (sp_act_flags sp)
                   (sp_net p) SCTP_DATAGRAM_UNSENT size (if size <? SCTP_SIZE32 size then u16 (size + pads) else size)
                   data last_ by_ref padded (if sp_holds_key_ref sp then Some (sp_auth_keyid sp) else None) in
      Some (Some chk, s <| os_log := os_log s ++ [chk] |>)
  end.

(** "All done pull and kill the message", and the chunk goes to the send queue. *)
Definition queue_chunk (env : out_env) (strq q : nat) (chk : data_chunk) (locked : bool) (u : list (list user_op))
    (s : out_state) : option (out_state * list (list user_op)) :=
  let s := if PR_SCTP_ENABLED (dc_flags chk) then s <| os_pr_sctp_cnt := u32 (os_pr_sctp_cnt s + 1) |> else s in
  p ← pendings (os_sched s) !! q;
  sp ← os_queued s !! q;
  r ← (if negb (sp_msg_is_complete p =? 0) && (sp_length p =? 0) && sp_sender_all_done sp then
         r ← (if (length (outqueue strq s) =? 1)%nat then send_lock env locked u s else Some (s, u));
         let '(s, u) := (r : out_state * list (list user_op)) in
         s ← drop_message env strq q s; Some (s, u)
       else Some (s, u));
  let '(s, u) := (r : out_state * list (list user_op)) in
  Some (upd_strm strq (fun st => st <| chunks_on_queues := u32 (chunks_on_queues st + 1) |>) s
          <| os_chunks_on_out_queue := u32 (os_chunks_on_out_queue s + 1) |>
          <| os_send_queue := os_send_queue s ++ [chk] |> <| os_send_queue_cnt := u32 (os_send_queue_cnt s + 1) |>, u).

(** From the check of the room for a header on; the data have been taken. *)
Definition make_chunk (env : out_env) (at_ : attempt) (strq q : nat) (some_taken to_move flags : Z) (by_ref : bool) (last_ : nat)
    (data : list mbuf) (locked : bool) (u : list (list user_op)) (s : out_state)
  : option (moved * out_state * list (list user_op)) :=
  match header_room env (at_head at_) data (SCTP_DATA_CHUNK_OVERHEAD s) with
  | None =>
      r ← send_lock env locked u s;
      let '(s, u) := (r : out_state * list (list user_op)) in
      s ← unsteal q some_taken to_move data last_ s; Some (bailed, s, u)
  | Some data =>
      r ← build_chunk env at_ strq q to_move flags by_ref last_ data s;
      match r with
      | (None, s) => Some (bailed, s, u)
      | (Some chk, s) =>
          r ← queue_chunk env strq q chk locked u s; Some (Moved to_move false false, r.1, r.2)
      end
  end.

(** From the allocation of the chunk on. *)
Definition take_chunk (env : out_env) (at_ : attempt) (strq q : nat) (some_taken len to_move flags : Z) (locked : bool)
    (u : list (list user_op)) (s : out_state) : option (moved * out_state * list (list user_op)) :=
  if negb (at_chunk at_) then Some (gave_up, s, u)
  else
    sp ← os_queued s !! q;
    let flags := if flagged (sp_sinfo_flags sp) SCTP_UNORDERED then Z.lor flags SCTP_DATA_UNORDERED else flags in
    let flags := if oe_enable_sack_immediately env && flagged (sp_sinfo_flags sp) SCTP_EOF
                 then Z.lor flags SCTP_DATA_SACK_IMMEDIATELY else flags in
    r ← take_data env at_ q len to_move locked u s;
    match r with
    | (None, _, _, s, u) => Some (bailed, upd_msg q (with_taken some_taken) s, u)
    | (Some data, last_, locked, s, u) =>
        let by_ref := match data with m :: _ => bool_decide (is_Some (m_ext m)) | [] => false end in
        let s := upd_msg q (fun p => with_length (if len <? to_move then 0 else u32 (sp_length p - to_move)) p) s in
        make_chunk env at_ strq q some_taken to_move flags by_ref last_ data locked u s
    end.

(** Each round takes a message off, or finds what the application has just queued. *)
Definition move_fuel (strq : nat) (s : out_state) : nat := S (S (length (outqueue strq s))).

Definition sctp_move_to_outqueue (env : out_env) (at_ : attempt) (strq : nat) (space_left frag_point : Z) (eeor : bool)
    (s : out_state) : option (moved * out_state * list (list user_op)) :=
  r ← one_more_time (move_fuel strq s) env strq false (at_users at_) s;
  match r with
  | (Leave m, s, u) => Some (m, s, u)
  | (Take q locked, s, u) =>
      let some_taken := sp_some_taken (msg_of q s) in
      r ← re_look env space_left frag_point eeor q locked u s;
      match r with
      | (None, s, u) => Some (gave_up, s, u)
      | (Some (len, to_move, flags, locked), s, u) => take_chunk env at_ strq q some_taken len to_move flags locked u s
      end
  end.

(** ** [sctp_fill_outqueue] *)

(** The destination: which one, its MTU and the size of its network and common header. *)
Record out_net := OutNet { on_id : nat; on_mtu : Z; on_overhead : Z }.

Definition even_word (x : Z) : Z := Z.land x 0xfffffffc.

Definition select (env : out_env) (net : out_net) (s : out_state) : option (option nat) :=
  sctp_ss_select_stream (ss env) (S (S (length (wheel (os_sched s))))) (oe_cmt_on_off env) (Some (on_id net)) (os_sched s).

(** The [while] loop; the [k]-th call of [sctp_move_to_outqueue] has the outcome [ats k].
    The result: [bail]. *)
Fixpoint fill_loop (fuel : nat) (env : out_env) (net : out_net) (ats : nat -> attempt) (k : nat) (space_left frag_point : Z)
    (eeor : bool) (strq : option nat) (s : out_state) : option (bool * out_state) :=
  match fuel with
  | O => None
  | S fuel =>
      match strq with
      | None => Some (false, s)
      | Some strq =>
          if space_left <=? 0 then Some (false, s)
          else
            s ← run_ops env (at_before (ats k)) s;
            r ← sctp_move_to_outqueue env (ats k) strq space_left frag_point eeor s;
            let '(m, s, _) := (r : moved * out_state * list (list user_op)) in
            let s := on_sched (fun a => sctp_ss_scheduled (ss env) a strq) s in
            if mv_giveup m || mv_bail m then Some (mv_bail m, s)
            else
              next ← select env net s;
              let space_left := u32 (space_left - mv_to_move m) in
              let overhead := SCTP_DATA_CHUNK_OVERHEAD s in
              let space_left := if overhead <=? space_left then space_left - overhead else 0 in
              fill_loop fuel env net ats (S k) (even_word space_left) frag_point eeor next s
      end
  end.

(** The flag is [*quit_now]. *)
Definition sctp_fill_outqueue (fuel : nat) (env : out_env) (net : out_net) (ats : nat -> attempt) (frag_point : Z) (eeor : bool)
    (s : out_state) : option (bool * out_state) :=
  let space_left := u32 (u32 (on_mtu net - on_overhead net) - SCTP_DATA_CHUNK_OVERHEAD s) in
  strq ← select env net s;
  r ← fill_loop fuel env net ats 0 (even_word space_left) (u32 frag_point) eeor strq s;
  a ← sctp_ss_packet_done (ss env) (S (S (length (wheel (os_sched r.2))))) (oe_cmt_on_off env) (Some (on_id net)) (os_sched r.2);
  Some (r.1, r.2 <| os_sched := a |>).
