(* ===== verification/MsgOutInv.v ===== *)
(** * From messages to chunks: the invariant

    The chains of [MsgOut]; what is on the wire for a list of messages ([chunks_of]); the
    invariant [out_inv] that relates the queues of the streams and the chunks made so far
    to what the application has handed over; and that the application's steps keep it. *)

From S2P Require Import Reasm RecvData RecvPlan.
From S2P Require Import Prelude Chunk Mbuf MbufProps AuthLists Tailq StreamSched SchedProps MsgOut.

Open Scope sctp_scope.

(** ** Chains *)

Section Chains.

Lemma get_mbuf_ok threshold ok space allone m :
  sctp_get_mbuf_for_msg threshold ok space false allone = Some m ->
  m_bytes m = [] /\ m_data m = 0 /\ m_pkthdr m = None /\ mbuf_ok m /\ MLEN <= m_end m /\ ok = true
  /\ (m_ext m = None \/ m_ext m = Some MCLBYTES).
Proof.
  unfold sctp_get_mbuf_for_msg, m_get. destruct ok; [|done]. destruct (_ <? _); intros [= <-].
  - split_and!; [done | done | done | | done | done | by right]. split; simpl; [lia | eval_z | done].
  - split_and!; [done | done | done | | done | done | by left]. split; simpl; [lia | eval_z | by intros _ []].
Qed.

Lemma copy_fill_ok fuel threshold alloc k m l :
  m_bytes m = [] -> mbuf_ok m -> m_data m < m_end m -> (length l < fuel)%nat ->
  exists r, copy_fill fuel threshold alloc k m l = Some r /\
    ((forall i, alloc i = true) -> is_Some r) /\
    forall c, r = Some c -> chain_ok c /\ chain_bytes c = l /\ c <> [].
Proof.
  revert k m l. induction fuel as [|fuel IH]; intros k m l Hm [O1 O2 O3] Hroom Hf; [lia|]. simpl.
  assert (Hl : m_len m = 0) by (unfold m_len; by rewrite Hm). rewrite Hl, Z.add_0_r.
  set (w := Z.min (m_end m - m_data m) (Z.of_nat (length l))).
  assert (Hok : mbuf_ok (m <| m_bytes := take (Z.to_nat w) l |>)).
  { split; [done | unfold m_len, m_end in *; simpl; rewrite length_take; lia | done]. }
  destruct (drop (Z.to_nat w) l) as [|b rest] eqn:Ed.
  - eexists. split; [done|]. split; [by eexists|]. intros c [= <-]. split; [by constructor|]. split; [|done].
    unfold chain_bytes. simpl. rewrite <- Ed. apply take_drop.
  - assert (Hlen : (length (b :: rest) < fuel)%nat).
    { pose proof (f_equal length Ed) as E. rewrite length_drop in E. unfold w in E. simpl in E |- *. lia. }
    destruct (sctp_get_mbuf_for_msg threshold (alloc k) _ _ _) as [n|] eqn:En.
    2: { eexists. split; [done|]. split; [|done]. intros Ha. by rewrite Ha in En. }
    apply get_mbuf_ok in En as (N1 & N2 & _ & N4 & N5 & _).
    destruct (IH (S k) n (b :: rest)) as (r & -> & Hs & Hr); [done | done | rewrite N2; unfold MLEN in *; lia | done|].
    eexists. split; [done|]. split.
    + intros Ha. destruct (Hs Ha) as [c ->]. by eexists.
    + intros c. destruct r as [c0|]; [|done]. intros [= <-]. destruct (Hr c0 eq_refl) as (C1 & C2 & C3).
      split; [by constructor|]. split; [|done]. rewrite chain_bytes_cons, C2, <- Ed. apply take_drop.
Qed.

Definition copied (alloc : nat -> bool) (l : list Z) (r : option (option (list mbuf))) : Prop :=
  exists x, r = Some x /\ ((forall i, alloc i = true) -> is_Some x) /\
    forall c, x = Some c -> chain_ok c /\ chain_bytes c = l /\ c <> [].

Lemma copy_resume_ok env alloc l : copied alloc l (sctp_copy_resume env alloc l).
Proof.
  unfold sctp_copy_resume, copied. destruct (sctp_get_mbuf_for_msg _ _ _ _ _) as [m|] eqn:Em.
  - apply get_mbuf_ok in Em as (M1 & M2 & _ & M4 & M5 & _).
    apply copy_fill_ok; [done | done | rewrite M2; unfold MLEN in *; lia | lia].
  - eexists. split; [done|]. split; [|done]. intros Ha. by rewrite Ha in Em.
Qed.

Lemma copy_one_ok env alloc l resv : 0 <= resv < MLEN -> copied alloc l (sctp_copy_one env alloc l resv).
Proof.
  intros Hr. unfold sctp_copy_one, copied. destruct (sctp_get_mbuf_for_msg _ _ _ _ _) as [m|] eqn:Em.
  - apply get_mbuf_ok in Em as (M1 & M2 & M3 & [O1 O2 O3] & M5 & _).
    apply copy_fill_ok; [done | | cbn; unfold m_end in *; cbn; lia | lia].
    split; [cbn; lia | unfold m_len, m_end in *; cbn; rewrite M1; cbn; lia | cbn; rewrite M3; by intros _ []].
  - eexists. split; [done|]. split; [|done]. intros Ha. by rewrite Ha in Em.
Qed.

(** The head of a chain loses the mbufs without bytes; the bytes stay. *)
Lemma drop_empty_spec c : exists u, c = u ++ drop_empty c /\ chain_bytes u = [].
Proof.
  induction c as [|m c (u & Hu & Hb)]; simpl; [by exists []|].
  destruct (Z.eqb_spec (m_len m) 0) as [Hz|]; [|by exists []].
  exists (m :: u). split; [simpl; by f_equal|]. rewrite chain_bytes_cons, Hb, app_nil_r.
  unfold m_len in Hz. by destruct (m_bytes m).
Qed.

Lemma drop_empty_bytes c : chain_bytes (drop_empty c) = chain_bytes c.
Proof.
  destruct (drop_empty_spec c) as (u & E & Hu). rewrite E at 2. by rewrite chain_bytes_app, Hu.
Qed.

Lemma drop_empty_ok c : chain_ok c -> chain_ok (drop_empty c).
Proof. destruct (drop_empty_spec c) as (u & E & _). rewrite E at 1. by intros [_ ?]%Forall_app. Qed.

Lemma drop_empty_nil c : drop_empty c = [] <-> chain_bytes c = [].
Proof.
  split; intros H; [by rewrite <- drop_empty_bytes, H|]. revert H.
  induction c as [|m c IH]; simpl; [done|]. rewrite chain_bytes_cons. intros [Hm Hc]%app_eq_nil.
  unfold m_len. rewrite Hm. simpl. auto.
Qed.

Lemma chain_len_zero c : chain_len c = 0 <-> chain_bytes c = [].
Proof. unfold chain_len. destruct (chain_bytes c); simpl; split; intros; try done; lia. Qed.

(** Room for a header, and the header. *)
Lemma header_room_ok env ok c leading :
  1 <= oe_mbuf_threshold_count env -> c <> [] -> chain_ok c -> 0 <= leading <= 208 ->
  (header_room env ok c leading = None /\ ok = false) \/
  exists m r, header_room env ok c leading = Some (m :: r) /\ chain_ok (m :: r) /\
    chain_bytes (m :: r) = chain_bytes c /\ leading <= M_LEADINGSPACE env m.
Proof.
  intros Ht Hc Hok Hl. unfold header_room. destruct c as [|m c]; [done|].
  destruct (Z.ltb_spec (M_LEADINGSPACE env m) leading) as [Hlt|Hge]; [|right; by exists m, c].
  unfold sctp_get_mbuf_for_msg, m_get. destruct ok; [right|by left]. change (i32 1) with 1.
  destruct (Z.ltb_spec ((oe_mbuf_threshold_count env - 1) * MLEN + MHLEN) 1) as [Hlt'|_]; [unfold MLEN, MHLEN in *; lia|].
  cbn [mbind option_bind]. eexists _, _. split; [done|]. split; [|split; [done|]].
  - constructor; [|done]. split; [eval_z | eval_z | by intros _ []].
  - change (M_LEADINGSPACE env _) with 208. lia.
Qed.

Lemma prepend_ok env ok m r hdr :
  chain_ok (m :: r) -> Z.of_nat (length hdr) <= M_LEADINGSPACE env m ->
  exists d, prepend env ok (m :: r) hdr = Some d /\ chain_bytes d = hdr ++ chain_bytes (m :: r) /\
    length d = length (m :: r).
Proof.
  intros Hok Hl. unfold prepend. destruct (Z.leb_spec (Z.of_nat (length hdr)) (M_LEADINGSPACE env m)); [|lia].
  cbn [mbind option_bind]. eexists. split; [done|]. split; [|done].
  rewrite adjust_pkthdr_bytes, !chain_bytes_cons. simpl. by rewrite <- app_assoc.
Qed.

(** Padding adds up to three zeros, or nothing. *)
Lemma pad_ok env ok c last_ pads :
  (last_ < length c)%nat -> 0 <= pads -> last_ = 0%nat ->
  exists d l b, sctp_pad_lastmbuf env ok c last_ pads = Some (d, l, b) /\
    exists k, (Z.of_nat k < 4) /\ chain_bytes d = chain_bytes c ++ repeat 0 k.
Proof.
  intros Hlast Hp ->. unfold sctp_pad_lastmbuf.
  destruct (lookup_lt_is_Some_2 c (length c - 1 - 0)%nat) as [m Hm]; [lia|]. rewrite Hm. cbn [mbind option_bind].
  assert (Hc : c = take (length c - 1) c ++ [m]).
  { rewrite Nat.sub_0_r in Hm. rewrite <- (take_drop_middle c _ m Hm) at 1. by rewrite drop_ge by lia. }
  destruct (Z.ltb_spec 3 pads) as [|Hle].
  { eexists _, _, _. split; [done|]. exists 0%nat. split; [done|]. by rewrite app_nil_r. }
  destruct (Z.leb_spec pads (M_TRAILINGSPACE env m)) as [Hs|Hs].
  - eexists _, _, _. split; [done|]. exists (Z.to_nat pads). split; [lia|]. rewrite Nat.sub_0_r.
    rewrite insert_take_drop, (drop_ge c) by lia. rewrite Hc at 3.
    rewrite !chain_bytes_app, !chain_bytes_cons, <- app_assoc. simpl. by rewrite !app_nil_r.
  - destruct (sctp_get_mbuf_for_msg _ _ _ _ _) as [n|].
    + eexists _, _, _. split; [done|]. exists (Z.to_nat pads). split; [lia|].
      rewrite take_ge by lia. by rewrite chain_bytes_app, chain_bytes_cons, app_nil_r.
    + eexists _, _, _. split; [done|]. exists 0%nat. split; [done|]. by rewrite app_nil_r.
Qed.

End Chains.

(** ** On the wire

    The chunks of a list of messages, numbered from [tsn] on; [sent] says how many messages
    each stream has had.  A message that is not finished is followed here by a fragment that
    stands for the rest. *)

Abbreviation outgoing := (nat * Z * list (list Z))%type.

Definition count (sid : nat) (l : list outgoing) : nat := length (filter (fun e => e.1.1 = sid) l).
Definition total (l : list outgoing) : nat := length (concat (map snd l)).

Definition message_chunks (sid j : nat) (m : message) (k : nat) : list (list Z) := map (frag_chunk sid j m) (seq 0 k).

Fixpoint chunks_of (tsn : Z) (sent : nat -> nat) (l : list outgoing) : list (list Z) :=
  match l with
  | [] => []
  | (sid, ppid, frags) :: l =>
      message_chunks sid (sent sid) (Message tsn ppid frags) (length frags)
      ++ chunks_of (tsn + Z.of_nat (length frags)) (fun x => if (x =? sid)%nat then S (sent x) else sent x) l
  end.

Definition opened (e : outgoing) : outgoing := (e.1, e.2 ++ [[0]]).

(** The chunks made when [done] are finished and [cur] is under way. *)
Definition wire (tsn : Z) (done : list outgoing) (cur : option outgoing) : list (list Z) :=
  chunks_of tsn (fun _ => 0%nat) done
  ++ match cur with
     | Some (sid, ppid, frags) =>
         message_chunks sid (count sid done) (Message (tsn + Z.of_nat (total done)) ppid (frags ++ [[0]])) (length frags)
     | None => []
     end.

Section Wire.

Lemma total_cons e l : total (e :: l) = (length e.2 + total l)%nat.
Proof. unfold total. simpl. by rewrite length_app. Qed.

Lemma total_snoc l e : total (l ++ [e]) = (total l + length e.2)%nat.
Proof. unfold total. rewrite map_app, concat_app, length_app. simpl. by rewrite app_nil_r. Qed.

Lemma count_cons sid e l : count sid (e :: l) = ((if (sid =? e.1.1)%nat then 1 else 0) + count sid l)%nat.
Proof.
  unfold count. rewrite filter_cons. destruct (Nat.eqb_spec sid e.1.1); case_decide; simpl; congruence.
Qed.

Lemma count_snoc sid l e : count sid (l ++ [e]) = (count sid l + if (sid =? e.1.1)%nat then 1 else 0)%nat.
Proof.
  unfold count. rewrite filter_app, length_app, filter_cons, filter_nil.
  destruct (Nat.eqb_spec sid e.1.1); case_decide; simpl; congruence || lia.
Qed.

Lemma chunks_of_snoc tsn sent l e :
  chunks_of tsn sent (l ++ [e]) = chunks_of tsn sent l ++
    message_chunks e.1.1 (sent e.1.1 + count e.1.1 l) (Message (tsn + Z.of_nat (total l)) e.1.2 e.2) (length e.2).
Proof.
  revert tsn sent. induction l as [|[[s p] f] l IH]; intros tsn sent.
  - destruct e as [[s p] f]. simpl. by rewrite app_nil_r, Nat.add_0_r, Z.add_0_r.
  - simpl. rewrite IH, <- app_assoc. f_equal. f_equal. rewrite total_cons, count_cons. simpl.
    f_equal; [destruct (Nat.eqb_spec e.1.1 s); lia | f_equal; lia].
Qed.

Lemma chunks_of_length tsn sent l : length (chunks_of tsn sent l) = total l.
Proof.
  revert tsn sent. induction l as [|[[s p] f] l IH]; intros tsn sent; [done|]. simpl.
  rewrite length_app, IH, total_cons. unfold message_chunks. by rewrite length_map, length_seq.
Qed.

Lemma wire_length tsn done cur :
  length (wire tsn done cur) = (total done + match cur with Some e => length e.2 | None => 0 end)%nat.
Proof.
  unfold wire. rewrite length_app, chunks_of_length. f_equal. destruct cur as [[[s p] f]|]; [|done].
  unfold message_chunks. by rewrite length_map, length_seq.
Qed.

(** The fragments before the end do not depend on what follows. *)
Lemma message_chunks_ext sid j tsn ppid frags u v k :
  (k <= length frags)%nat -> u <> [] -> v <> [] ->
  message_chunks sid j (Message tsn ppid (frags ++ u)) k = message_chunks sid j (Message tsn ppid (frags ++ v)) k.
Proof.
  intros Hk Hu Hv. apply map_ext_in. intros i [_ Hi]%in_seq.
  unfold frag_chunk, frag_flags, frag, frag_tsn, m_size. cbn [m_frags m_tsn m_ppid].
  rewrite !app_nth1 by lia. rewrite !length_app.
  assert (0 < length u)%nat by (destruct u; simpl; [done | lia]).
  assert (0 < length v)%nat by (destruct v; simpl; [done | lia]).
  by rewrite !(proj2 (Nat.eqb_neq (S i) _)) by lia.
Qed.

Definition frag_bits (frags : list (list Z)) (last_ : bool) : Z :=
  (match frags with [] => SCTP_DATA_FIRST_FRAG | _ => 0 end) + (if last_ then SCTP_DATA_LAST_FRAG else 0).

(** The chunk of one more fragment. *)
Definition next_chunk (tsn : Z) (done : list outgoing) (sid : nat) (ppid : Z) (frags : list (list Z)) (f : list Z)
    (last_ : bool) : list Z :=
  encode_data (frag_bits frags last_) (u32 (tsn + Z.of_nat (total done + length frags))) (Z.of_nat sid)
    (u16 (Z.of_nat (count sid done))) ppid f.

Lemma message_chunks_snoc sid done tsn ppid frags f rest :
  message_chunks sid (count sid done) (Message (tsn + Z.of_nat (total done)) ppid (frags ++ f :: rest)) (S (length frags))
  = message_chunks sid (count sid done) (Message (tsn + Z.of_nat (total done)) ppid (frags ++ f :: rest)) (length frags)
    ++ [next_chunk tsn done sid ppid frags f (match rest with [] => true | _ => false end)].
Proof.
  unfold message_chunks. rewrite seq_S, map_app. f_equal. simpl. unfold next_chunk, frag_chunk, frag_tsn, frag, frag_flags, m_size.
  cbn [m_tsn m_ppid m_frags]. rewrite nth_middle. do 2 f_equal.
  - unfold frag_bits. rewrite length_app. f_equal; [by destruct frags|].
    destruct rest as [|r rest]; cbn [length];
      [rewrite (proj2 (Nat.eqb_eq _ _)) by lia | rewrite (proj2 (Nat.eqb_neq _ _)) by lia]; done.
  - f_equal. lia.
Qed.

Lemma wire_more tsn done sid ppid frags f :
  wire tsn done (Some (sid, ppid, frags ++ [f])) =
    wire tsn done (Some (sid, ppid, frags)) ++ [next_chunk tsn done sid ppid frags f false].
Proof.
  unfold wire. rewrite <- (app_assoc (chunks_of _ _ _)). f_equal. rewrite length_app, Nat.add_1_r, <- (app_assoc frags).
  cbn [app]. rewrite message_chunks_snoc. f_equal. by apply message_chunks_ext.
Qed.

Lemma wire_last tsn done sid ppid frags f :
  wire tsn (done ++ [(sid, ppid, frags ++ [f])]) None =
    wire tsn done (Some (sid, ppid, frags)) ++ [next_chunk tsn done sid ppid frags f true].
Proof.
  unfold wire. rewrite app_nil_r, chunks_of_snoc, <- (app_assoc (chunks_of _ _ _)). f_equal. cbn [fst snd Nat.add].
  rewrite length_app, Nat.add_1_r, message_chunks_snoc. f_equal. by apply message_chunks_ext.
Qed.

Lemma wire_fresh tsn done sid ppid : wire tsn done (Some (sid, ppid, [])) = wire tsn done None.
Proof. done. Qed.

End Wire.

(** ** The invariant *)

(** The schedulers that finish one message before they begin another. *)
Definition whole_messages (m : ss_module) : bool :=
  match m with SCTP_SS_DEFAULT | SCTP_SS_ROUND_ROBIN => true | _ => false end.

Definition message_at (s : out_state) (q : nat) : option (pending * queued) :=
  p ← pendings (os_sched s) !! q; sp ← os_queued s !! q; Some (p, sp).

(** What the application has said on a stream, oldest first. *)
Definition said_on (sid : nat) (s : out_state) : list (nat * (nat * Z * list Z)) :=
  filter (fun e => e.2.1.1 = sid) (os_said s).

Definition text_of (e : nat * (nat * Z * list Z)) : Z * list Z := (e.2.1.2, e.2.2).

Definition texts_of (sid : nat) (l : list outgoing) : list (Z * list Z) :=
  map (fun e => (e.1.2, concat e.2)) (filter (fun e => e.1.1 = sid) l).

Definition frags_on (sid : nat) (cur : option outgoing) : list (list Z) :=
  match cur with Some e => if decide (e.1.1 = sid) then e.2 else [] | None => [] end.

Record msg_good (sid : nat) (p : pending) (sp : queued) : Prop := MsgGood {
  mg_sid : sp_sid p = sid;
  mg_chain : chain_ok (sp_data sp);
  mg_len : sp_length p = chain_len (sp_data sp);
  mg_max : sp_length p < M_COPYALL;
  mg_tail : sp_tail sp = match sp_data sp with [] => None | _ => Some 0%nat end;
  mg_data : sp_length p = 0 -> sp_data sp = [];
  mg_keep : sp_discard_rest sp = false;
  mg_quiet : quiet (sp_sinfo_flags sp) = true;
  mg_ppid : in_u32 (sp_ppid sp)
}.

(** A message that is not finished; [frags] are the fragments made from it so far, and [x]
    the message whose [some_taken] may be anything. *)
Definition live_at (s : out_state) (x : option nat) (sid : nat) (frags : list (list Z)) (q : nat) : Prop :=
  exists p sp, message_at s q = Some (p, sp) /\ msg_good sid p sp /\
    (x <> Some q -> sp_some_taken p = match frags with [] => 0 | _ => 1 end) /\
    (0 < sp_length p \/ frags <> [] /\ sp_msg_is_complete p = 0).

(** One of which everything has been taken. *)
Definition spent_at (s : out_state) (sid q : nat) : Prop :=
  exists p sp, message_at s q = Some (p, sp) /\ msg_good sid p sp /\ sp_length p = 0 /\ sp_msg_is_complete p <> 0.

(** What has been said with a message. *)
Definition entry (s : out_state) (frags : list (list Z)) (q : nat) : nat * (nat * Z * list Z) :=
  match message_at s q with
  | Some (p, sp) => (q, (sp_sid p, sp_ppid sp, concat frags ++ chain_bytes (sp_data sp)))
  | None => (q, (0%nat, 0, []))
  end.

(** [frags] belong to the first message of the list. *)
Definition entries (s : out_state) (frags : list (list Z)) (live : list nat) : list (nat * (nat * Z * list Z)) :=
  match live with [] => [] | q :: r => entry s frags q :: map (entry s []) r end.

Definition live_list (s : out_state) (x : option nat) (sid : nat) (frags : list (list Z)) (live : list nat) : Prop :=
  match live with
  | [] => frags = []
  | q :: r => live_at s x sid frags q /\ Forall (live_at s x sid []) r
  end.

(** A stream: what was said first is [texts], which is finished; then come the messages of
    the queue, of which the first may have been cut into [frags] in part. *)
Definition stream_ok (s : out_state) (x : option nat) (sid : nat) (texts : list (Z * list Z)) (frags : list (list Z)) : Prop :=
  exists spent live old,
    outqueue sid s = spent ++ live /\ said_on sid s = old ++ entries s frags live /\ map text_of old = texts /\
    (spent = [] \/ frags = [] /\ exists q, spent = [q] /\ spent_at s sid q) /\ live_list s x sid frags live.

(** The chunk has these bytes, and maybe padding. *)
Definition carries (c : data_chunk) (b : list Z) : Prop :=
  exists k, (k < 4)%nat /\ chain_bytes (dc_data c) = b ++ repeat 0 k.

Definition cut_well (n : nat) (e : outgoing) : Prop :=
  (e.1.1 < n)%nat /\ in_u32 e.1.2 /\ e.2 <> [] /\ Forall (fun f => 0 < Z.of_nat (length f) < 65520) e.2.

Record out_inv (n : nat) (tsn : Z) (x : option nat) (done : list outgoing) (cur : option outgoing) (s : out_state) : Prop := OutInv {
  oi_serving : serving (os_sched s);
  oi_strmout : strmout (os_sched s) = seq 0 n;
  oi_idata : idata_supported (os_sched s) = 0;
  oi_dom : forall sid, is_Some (streams (os_sched s) !! sid) <-> (sid < n)%nat;
  oi_sid : forall sid, (sid < n)%nat -> so_sid (strq_of (os_sched s) sid) = Z.of_nat sid;
  oi_mid : forall sid, (sid < n)%nat -> exists st, os_strms s !! sid = Some st /\
             next_mid_ordered st = u32 (Z.of_nat (count sid done));
  oi_seq : os_sending_seq s = u32 (tsn + Z.of_nat (length (os_log s)));
  oi_wire : Forall2 carries (os_log s) (wire tsn done cur);
  oi_msg : forall q p sp, message_at s q = Some (p, sp) ->
             (q < os_next s)%nat /\ (sp_sid p < n)%nat /\ q ∈ outqueue (sp_sid p) s;
  oi_said : Forall (fun e => (e.1 < os_next s)%nat) (os_said s);
  oi_keys : NoDup (map fst (os_said s));
  oi_stream : forall sid, (sid < n)%nat -> stream_ok s x sid (texts_of sid done) (frags_on sid cur);
  oi_done : Forall (cut_well n) done;
  oi_cur : forall e, cur = Some e -> cut_well n e /\
             exists q p sp, head (outqueue e.1.1 s) = Some q /\ message_at s q = Some (p, sp) /\ sp_ppid sp = e.1.2
}.

(** ** Reading the invariant *)

Section Frame.

(** The fields the invariant reads. *)
Definition same_body (a b : queued) : Prop :=
  sp_data b = sp_data a /\ sp_tail b = sp_tail a /\ sp_ppid b = sp_ppid a /\
  sp_discard_rest b = sp_discard_rest a /\ sp_sinfo_flags b = sp_sinfo_flags a.

Definition same_message (s s' : out_state) (q : nat) : Prop :=
  forall p sp, message_at s q = Some (p, sp) -> exists sp', message_at s' q = Some (p, sp') /\ same_body sp sp'.

Lemma same_message_refl s s' q : message_at s' q = message_at s q -> same_message s s' q.
Proof. intros E p sp H. exists sp. by rewrite E. Qed.

Lemma msg_good_body sid p sp sp' : same_body sp sp' -> msg_good sid p sp -> msg_good sid p sp'.
Proof. intros (E1&E2&E3&E4&E5) []. split; rewrite ?E1, ?E2, ?E3, ?E4, ?E5; done. Qed.

(** The same, but for [some_taken] of message [x]. *)
Definition alike (x : option nat) (s s' : out_state) (q : nat) : Prop :=
  forall p sp, message_at s q = Some (p, sp) -> exists p' sp', message_at s' q = Some (p', sp') /\ same_body sp sp' /\
    sp_sid p' = sp_sid p /\ sp_length p' = sp_length p /\ sp_msg_is_complete p' = sp_msg_is_complete p /\
    (x <> Some q -> sp_some_taken p' = sp_some_taken p).

Lemma same_alike x s s' q : same_message s s' q -> alike x s s' q.
Proof. intros H p sp E. destruct (H p sp E) as (sp' & E' & B). exists p, sp'. by split_and!. Qed.

Lemma msg_good_alike sid p p' sp sp' : same_body sp sp' -> sp_sid p' = sp_sid p -> sp_length p' = sp_length p ->
  msg_good sid p sp -> msg_good sid p' sp'.
Proof. intros B E1 E2 H. apply (msg_good_body _ _ sp); [done|]. destruct H. split; rewrite ?E1, ?E2; done. Qed.

Lemma live_at_same s s' x sid frags q : alike x s s' q -> live_at s x sid frags q -> live_at s' x sid frags q.
Proof.
  intros Hs (p & sp & E & G & T & L). destruct (Hs p sp E) as (p' & sp' & E' & B & P1 & P2 & P3 & P4). exists p', sp'.
  rewrite P2, P3. split_and!; eauto using msg_good_alike. intros Hx. rewrite P4 by done. auto.
Qed.

Lemma spent_at_same s s' x sid q : alike x s s' q -> spent_at s sid q -> spent_at s' sid q.
Proof.
  intros Hs (p & sp & E & G & T). destruct (Hs p sp E) as (p' & sp' & E' & B & P1 & P2 & P3 & P4). exists p', sp'.
  rewrite P2, P3. eauto using msg_good_alike.
Qed.

Lemma entry_same s s' x sid frags q : alike x s s' q -> live_at s x sid frags q -> forall f, entry s' f q = entry s f q.
Proof.
  intros Hs (p & sp & E & _) f. destruct (Hs p sp E) as (p' & sp' & E' & (B1 & _ & B3 & _) & P1 & _).
  unfold entry. by rewrite E, E', B1, B3, P1.
Qed.

Lemma live_list_in s x sid frags live q : live_list s x sid frags live -> q ∈ live -> exists f, live_at s x sid f q.
Proof.
  destruct live as [|q' r]; simpl; intros H Hq; [by apply elem_of_nil in Hq|]. destruct H as [H1 H2].
  apply elem_of_cons in Hq as [-> | Hq]; [by eexists|]. exists []. rewrite Forall_forall in H2. auto.
Qed.

Lemma live_list_same s s' x sid frags live :
  (forall q, q ∈ live -> alike x s s' q) -> live_list s x sid frags live -> live_list s' x sid frags live.
Proof.
  destruct live as [|q r]; [done|]. intros Hs [H1 H2]. split.
  - apply (live_at_same s); [apply Hs; left | done].
  - rewrite Forall_forall in H2 |- *. intros q' Hq'. apply (live_at_same s); [apply Hs; by right | by apply H2].
Qed.

Lemma entries_same s s' x sid frags live :
  (forall q, q ∈ live -> alike x s s' q) -> live_list s x sid frags live -> entries s' frags live = entries s frags live.
Proof.
  destruct live as [|q r]; [done|]. intros Hs [H1 H2]. simpl. f_equal.
  - eapply entry_same; [apply Hs; left | done].
  - apply map_ext_in. intros q' Hq'%list_elem_of_In. rewrite Forall_forall in H2.
    eapply entry_same; [apply Hs; by right | by apply H2].
Qed.

Lemma stream_ok_same s s' x sid texts frags :
  outqueue sid s' = outqueue sid s -> said_on sid s' = said_on sid s ->
  (forall q, q ∈ outqueue sid s -> alike x s s' q) ->
  stream_ok s x sid texts frags -> stream_ok s' x sid texts frags.
Proof.
  intros Ho Hd Hm (spent & live & old & E1 & E2 & E3 & E4 & E5).
  assert (Hl : forall q, q ∈ live -> alike x s s' q) by (intros q Hq; apply Hm; rewrite E1; set_solver).
  exists spent, live, old. rewrite Ho, Hd, (entries_same s s' x sid) by done. split_and!; try done.
  - destruct E4 as [->|(-> & q & -> & Hq)]; [by left|]. right. split; [done|]. exists q. split; [done|].
    apply (spent_at_same s _ x); [apply Hm; rewrite E1; set_solver | done].
  - by apply (live_list_same s).
Qed.

(** The message whose [some_taken] is not looked at may be any. *)
Lemma stream_ok_free s x y sid texts frags : x = None \/ x = y -> stream_ok s x sid texts frags -> stream_ok s y sid texts frags.
Proof.
  intros Hx (spent & live & old & E1 & E2 & E3 & E4 & E5). exists spent, live, old. split_and!; try done.
  assert (Hat : forall f q, live_at s x sid f q -> live_at s y sid f q).
  { intros f q (p & sp & A & B & C & D). exists p, sp. split_and!; try done. intros Hy. apply C.
    destruct Hx as [-> | ->]; congruence. }
  destruct live as [|q r]; [done|]. destruct E5 as [H1 H2]. split; [auto|]. eapply Forall_impl; [exact H2|]. auto.
Qed.

End Frame.

Lemma out_inv_free n tsn x y done cur s : x = None \/ x = y -> out_inv n tsn x done cur s -> out_inv n tsn y done cur s.
Proof. intros Hx []. split; try done. intros sid Hs. eapply stream_ok_free; eauto. Qed.

(** A step that leaves the queues and the log alone. *)
Record quiet_step (s s' : out_state) : Prop := QuietStep {
  qs_serving : serving (os_sched s) -> serving (os_sched s');
  qs_queue : forall sid, outqueue sid s' = outqueue sid s;
  qs_strmout : strmout (os_sched s') = strmout (os_sched s);
  qs_idata : idata_supported (os_sched s') = idata_supported (os_sched s);
  qs_dom : forall sid, is_Some (streams (os_sched s') !! sid) <-> is_Some (streams (os_sched s) !! sid);
  qs_sid : forall sid, so_sid (strq_of (os_sched s') sid) = so_sid (strq_of (os_sched s) sid);
  qs_mid : forall sid st, os_strms s !! sid = Some st ->
             exists st', os_strms s' !! sid = Some st' /\ next_mid_ordered st' = next_mid_ordered st;
  qs_seq : os_sending_seq s' = os_sending_seq s;
  qs_log : os_log s' = os_log s;
  qs_msg : forall q, same_message s s' q;
  qs_none : forall q, message_at s q = None -> message_at s' q = None;
  qs_next : os_next s' = os_next s;
  qs_said : os_said s' = os_said s
}.

Lemma quiet_step_inv n tsn x done cur s s' : quiet_step s s' -> out_inv n tsn x done cur s -> out_inv n tsn x done cur s'.
Proof.
  intros [] []. split; try done; try congruence.
  - auto.
  - intros sid. rewrite qs_dom0. auto.
  - intros sid Hs. rewrite qs_sid0. auto.
  - intros sid Hs. destruct (oi_mid0 sid Hs) as (st & E & Hm). destruct (qs_mid0 sid st E) as (st' & E' & Hm').
    exists st'. split; congruence.
  - intros q p sp H. destruct (message_at s q) as [[p0 sp0]|] eqn:E; [|by rewrite qs_none0 in H].
    destruct (qs_msg0 q p0 sp0 E) as (sp' & E' & _). rewrite qs_next0, qs_queue0. simplify_eq. by eapply oi_msg0.
  - rewrite qs_next0, qs_said0. done.
  - intros sid Hs. apply (stream_ok_same s); auto using same_alike. unfold said_on. by rewrite qs_said0.
  - intros e He. destruct (oi_cur0 e He) as (Hc & q & p & sp & H1 & H2 & H3). split; [done|].
    destruct (qs_msg0 q p sp H2) as (sp' & E' & (_ & _ & B & _)). exists q, p, sp'. rewrite qs_queue0. split_and!; congruence.
Qed.

Lemma quiet_step_trans a b c : quiet_step a b -> quiet_step b c -> quiet_step a c.
Proof.
  intros [] []. split; try congruence; auto.
  - intros sid. rewrite qs_dom1. auto.
  - intros sid st E. destruct (qs_mid0 _ _ E) as (st1 & E1 & M1). destruct (qs_mid1 _ _ E1) as (st2 & E2 & M2).
    exists st2. split; congruence.
  - intros q p sp E. destruct (qs_msg0 q p sp E) as (sp1 & E1 & B1). destruct (qs_msg1 q p sp1 E1) as (sp2 & E2 & B2).
    exists sp2. split; [done|]. unfold same_body in *. intuition congruence.
Qed.

Lemma quiet_step_refl s : quiet_step s s.
Proof. split; try done; [by eexists|]. intros q p sp E. exists sp. by split. Qed.

(** ** Small steps *)

Section SmallSteps.

Lemma quiet_eq s s' :
  os_sched s' = os_sched s -> os_queued s' = os_queued s -> os_strms s' = os_strms s ->
  os_sending_seq s' = os_sending_seq s -> os_log s' = os_log s -> os_next s' = os_next s -> os_said s' = os_said s ->
  quiet_step s s'.
Proof.
  intros E1 E2 E3 E4 E5 E6 E7. assert (Hm : forall q, message_at s' q = message_at s q) by (intros; unfold message_at; by rewrite E1, E2).
  split; rewrite ?E1, ?E2, ?E3; try done.
  - intros sid. unfold outqueue. by rewrite E1.
  - by eexists.
  - intros q. by apply same_message_refl.
  - intros q H. by rewrite Hm.
Qed.

Lemma message_at_upd_queued q f s q' :
  message_at (upd_queued q f s) q' = if decide (q' = q) then (fun m => (m.1, f m.2)) <$> message_at s q' else message_at s q'.
Proof.
  unfold message_at, upd_queued. cbn. case_decide as E; subst; [rewrite lookup_alter_eq | by rewrite lookup_alter_ne].
  destruct (pendings (os_sched s) !! q); [|done]. cbn. by destruct (os_queued s !! q).
Qed.

Lemma message_at_upd_msg q f s q' :
  message_at (upd_msg q f s) q' = if decide (q' = q) then (fun m => (f m.1, m.2)) <$> message_at s q' else message_at s q'.
Proof.
  unfold message_at, upd_msg, on_sched, set_pendings, set_fcfs. cbn. case_decide as E; subst; [rewrite lookup_alter_eq | by rewrite lookup_alter_ne].
  destruct (pendings (os_sched s) !! q); [|done]. cbn. by destruct (os_queued s !! q).
Qed.

Lemma quiet_strm sid f s : (forall st, next_mid_ordered (f st) = next_mid_ordered st) -> quiet_step s (upd_strm sid f s).
Proof.
  intros Hf. split; try done.
  - intros sid' st E. unfold upd_strm. cbn. destruct (decide (sid' = sid)) as [-> | Hne].
    + rewrite lookup_alter_eq, E. by eexists.
    + rewrite lookup_alter_ne by done. by eexists.
  - intros q. by apply same_message_refl.
Qed.

Lemma same_message_queued q f s : (forall sp, same_body sp (f sp)) -> quiet_step s (upd_queued q f s).
Proof.
  intros Hf. split; try done; [by eexists | |].
  - intros q' p sp E. rewrite message_at_upd_queued, E. case_decide; [|by exists sp]. by exists (f sp).
  - intros q' E. rewrite message_at_upd_queued, E. by case_decide.
Qed.

End SmallSteps.

(** What the application may do to the state, as far as the code that moves chunks sees. *)
Record grown (s s' : out_state) : Prop := Grown {
  gr_queue : forall sid, exists new, outqueue sid s' = outqueue sid s ++ new;
  gr_msg : forall q p sp, message_at s q = Some (p, sp) -> exists p' sp', message_at s' q = Some (p', sp') /\
             sp_some_taken p' = sp_some_taken p /\ sp_length p <= sp_length p' /\ sp_ppid sp' = sp_ppid sp /\
             (sp_msg_is_complete p <> 0 -> p' = p /\ same_body sp sp');
  gr_locked : locked_on_sending (os_sched s') = locked_on_sending (os_sched s);
  gr_log : os_log s' = os_log s
}.

Lemma grown_refl s : grown s s.
Proof.
  split; try done.
  - exists []. by rewrite app_nil_r.
  - intros q p sp E. exists p, sp. by split_and!.
Qed.

Lemma grown_trans a b c : grown a b -> grown b c -> grown a c.
Proof.
  intros [A1 A2 A3 A4] [B1 B2 B3 B4]. split; try congruence.
  - intros sid. destruct (A1 sid) as [u Hu], (B1 sid) as [v Hv]. exists (u ++ v). by rewrite Hv, Hu, app_assoc.
  - intros q p sp E. destruct (A2 q p sp E) as (p1 & sp1 & E1 & T1 & L1 & P1 & C1).
    destruct (B2 q p1 sp1 E1) as (p2 & sp2 & E2 & T2 & L2 & P2 & C2). exists p2, sp2. split_and!; try congruence; [lia|].
    intros Hc. destruct (C1 Hc) as [-> S1]. destruct (C2 Hc) as [-> S2]. split; [done|].
    unfold same_body in *. intuition congruence.
Qed.

Lemma quiet_grown s s' : quiet_step s s' -> locked_on_sending (os_sched s') = locked_on_sending (os_sched s) -> grown s s'.
Proof.
  intros [] Hl. split; try done.
  - intros sid. exists []. by rewrite app_nil_r.
  - intros q p sp E. destruct (qs_msg0 q p sp E) as (sp' & E' & B). exists p, sp'. split_and!; try done. by destruct B as (_&_&?&_).
Qed.

(** ** A message is queued *)

Section Insert.

Lemma guarded_add_frame place a p :
  let a' := guarded_add place a p in
  pendings a' = pendings a /\ locked_on_sending a' = locked_on_sending a /\ idata_supported a' = idata_supported a
  /\ strmout a' = strmout a /\ (forall q, so_outqueue (strq_of a' q) = so_outqueue (strq_of a q))
  /\ (forall q, so_sid (strq_of a' q) = so_sid (strq_of a q)) /\ (forall q, is_Some (streams a' !! q) <-> is_Some (streams a !! q)).
Proof.
  simpl. split_and!; [..|apply guarded_add_queue| |]; unfold guarded_add; [by case_match..| |].
  - intros q. case_match; [|done]. by rewrite (upd_strq_proj so_sid).
  - intros q. case_match; [|done]. cbn. destruct (decide (q = p)) as [-> | Hne].
    + rewrite lookup_alter_eq. unfold is_Some. destruct (streams a !! p); simpl; split; intros [? ?]; eauto; done.
    + by rewrite lookup_alter_ne.
Qed.

Lemma add_frame m a p sp : whole_messages m = true ->
  let a' := sctp_ss_add_to_stream (sctp_ss_functions m) a p sp in
  pendings a' = pendings a /\ locked_on_sending a' = locked_on_sending a /\ idata_supported a' = idata_supported a
  /\ strmout a' = strmout a /\ (forall q, so_outqueue (strq_of a' q) = so_outqueue (strq_of a q))
  /\ (forall q, so_sid (strq_of a' q) = so_sid (strq_of a q)) /\ (forall q, is_Some (streams a' !! q) <-> is_Some (streams a !! q)).
Proof.
  intros Hm. destruct m; try discriminate Hm;
    [apply (guarded_add_frame place_tail) | apply (guarded_add_frame (place_sorted so_sid))].
Qed.

Lemma enqueue_serves m a strm q : whole_messages m = true -> is_Some (streams a !! strm) -> serving a ->
  serving (sched_enqueue (sctp_ss_add_to_stream (sctp_ss_functions m)) a strm q).
Proof. intros Hm. destruct m; try discriminate Hm; apply enqueue_serving, _. Qed.

Lemma put_sched env sid p sp s :
  os_sched (put_message env sid p sp s) =
    sched_enqueue (sctp_ss_add_to_stream (ss env))
      (set_pendings (add_queue_cnt 1 (os_sched s)) (<[os_next s := p]> (pendings (os_sched s)))) sid (os_next s).
Proof. done. Qed.

Lemma put_message_at env sid p sp s q : whole_messages (oe_module env) = true ->
  message_at (put_message env sid p sp s) q = if decide (q = os_next s) then Some (p, sp) else message_at s q.
Proof.
  intros Hm. unfold message_at. rewrite put_sched. unfold sched_enqueue.
  destruct (add_frame (oe_module env) (upd_strq (set_pendings (add_queue_cnt 1 (os_sched s))
    (<[os_next s := p]> (pendings (os_sched s)))) sid (push_queue (os_next s))) sid (Some (os_next s)) Hm) as (E & _).
  unfold ss. rewrite E. cbn. case_decide as Hq; [subst | by rewrite !lookup_insert_ne].
  by rewrite !lookup_insert_eq.
Qed.

Lemma put_queue env sid p sp s sid' : whole_messages (oe_module env) = true -> is_Some (streams (os_sched s) !! sid) ->
  outqueue sid' (put_message env sid p sp s) = outqueue sid' s ++ (if decide (sid' = sid) then [os_next s] else []).
Proof.
  intros Hm Hs. unfold outqueue. rewrite put_sched. unfold sched_enqueue.
  destruct (add_frame (oe_module env) (upd_strq (set_pendings (add_queue_cnt 1 (os_sched s))
    (<[os_next s := p]> (pendings (os_sched s)))) sid (push_queue (os_next s))) sid (Some (os_next s)) Hm) as (_&_&_&_&E&_).
  unfold ss. rewrite E, strq_of_upd. change (strq_of (set_pendings _ _)) with (strq_of (os_sched s)).
  change (streams (set_pendings _ _)) with (streams (os_sched s)).
  destruct (decide (sid' = sid)) as [-> | Hne]; [by rewrite decide_True|].
  rewrite decide_False by naive_solver. by rewrite app_nil_r.
Qed.

Lemma put_said env sid p sp s sid' :
  said_on sid' (put_message env sid p sp s) =
    said_on sid' s ++ (if decide (sid' = sp_sid p) then [(os_next s, (sp_sid p, sp_ppid sp, chain_bytes (sp_data sp)))] else []).
Proof.
  unfold said_on. cbn. rewrite filter_app, filter_cons, filter_nil. f_equal. simpl.
  repeat case_decide; congruence.
Qed.

(** A stream gets one more message. *)
Lemma stream_ok_put s s' x sid texts frags q :
  outqueue sid s' = outqueue sid s ++ [q] -> said_on sid s' = said_on sid s ++ [entry s' [] q] ->
  (forall q, q ∈ outqueue sid s -> alike x s s' q) -> live_at s' x sid [] q ->
  stream_ok s x sid texts frags -> stream_ok s' x sid texts frags.
Proof.
  intros Ho Hd Hm Hq (spent & live & old & E1 & E2 & E3 & E4 & E5).
  assert (Hl : forall q, q ∈ live -> alike x s s' q) by (intros q' Hq'; apply Hm; rewrite E1; set_solver).
  exists spent, (live ++ [q]), old. rewrite Ho, Hd, E1, E2, <- !app_assoc.
  rewrite <- (entries_same s s' x sid frags live) by done. apply (live_list_same s s') in E5; [|done].
  split_and!; try done.
  - do 2 f_equal. destruct live as [|q' r]; simpl in *; [by rewrite E5|]. by rewrite map_app.
  - destruct E4 as [->|(-> & q' & -> & Hq')]; [by left|]. right. split; [done|]. exists q'. split; [done|].
    apply (spent_at_same s _ x); [apply Hm; rewrite E1; set_solver | done].
  - destruct live as [|q' r]; simpl in *; [by subst frags|]. destruct E5. split; [done|]. apply Forall_app. by split; [|constructor].
Qed.

End Insert.

Lemma put_ok env n tsn x done cur s sid p sp :
  whole_messages (oe_module env) = true -> out_inv n tsn x done cur s -> (sid < n)%nat -> msg_good sid p sp ->
  sp_some_taken p = 0 -> 0 < sp_length p ->
  out_inv n tsn x done cur (put_message env sid p sp s) /\ grown s (put_message env sid p sp s).
Proof.
  intros Hm Hi Hsid Hg Ht Hl. set (s' := put_message env sid p sp s). pose proof (mg_sid _ _ _ Hg) as Hp.
  assert (Hs : is_Some (streams (os_sched s) !! sid)) by (by apply (oi_dom _ _ _ _ _ _ Hi)).
  assert (Hat : forall q, message_at s' q = if decide (q = os_next s) then Some (p, sp) else message_at s q)
    by (intros; by apply put_message_at).
  assert (Hq : forall sid', outqueue sid' s' = outqueue sid' s ++ (if decide (sid' = sid) then [os_next s] else []))
    by (intros; by apply put_queue).
  assert (Hsame : forall q, is_Some (message_at s q) -> message_at s' q = message_at s q).
  { intros q [[p0 sp0] E]. rewrite Hat. destruct (oi_msg _ _ _ _ _ _ Hi q p0 sp0 E) as [Hlt _]. rewrite decide_False by lia. done. }
  destruct (add_frame (oe_module env) (upd_strq (set_pendings (add_queue_cnt 1 (os_sched s))
    (<[os_next s := p]> (pendings (os_sched s)))) sid (push_queue (os_next s))) sid (Some (os_next s)) Hm)
    as (_&F2&F3&F4&_&F6&F7).
  split.
  - destruct Hi. split; try done.
    + unfold s'. rewrite put_sched. by apply enqueue_serves.
    + exact (eq_trans F4 oi_strmout0).
    + exact (eq_trans F3 oi_idata0).
    + intros sid'. etransitivity; [apply F7|]. rewrite <- oi_dom0. cbn.
      destruct (decide (sid' = sid)) as [-> | Hne]; [rewrite lookup_alter_eq | by rewrite lookup_alter_ne].
      unfold is_Some. destruct (streams (os_sched s) !! sid); simpl; split; intros [? ?]; eauto; done.
    + intros sid' Hs'. rewrite <- (oi_sid0 sid' Hs'). etransitivity; [apply F6|].
      change (strq_of (os_sched s)) with (strq_of (set_pendings (add_queue_cnt 1 (os_sched s)) (<[os_next s := p]> (pendings (os_sched s))))).
      by apply (upd_strq_proj so_sid).
    + intros q p0 sp0. rewrite Hat, Hq. case_decide as E.
      * intros [= <- <-]. subst. rewrite decide_True by done. split_and!; [cbn; lia | done | set_solver].
      * intros H. destruct (oi_msg0 q p0 sp0 H) as (? & ? & ?). split_and!; [cbn; lia | done | set_solver].
    + cbn. apply Forall_app. split; [|constructor; [simpl; lia | done]]. eapply Forall_impl; [done|]. simpl. lia.
    + cbn. rewrite map_app. apply NoDup_app. split_and!; [done | | apply NoDup_singleton].
      intros q Hq1 Hq2. apply list_elem_of_singleton in Hq2. simpl in Hq2. subst.
      apply list_elem_of_fmap in Hq1 as (e & E & He). rewrite Forall_forall in oi_said0. specialize (oi_said0 e He). lia.
    + intros sid' Hs'. specialize (oi_stream0 sid' Hs').
      assert (Hold : forall q, q ∈ outqueue sid' s -> alike x s s' q).
      { intros q _. apply same_alike. intros p0 sp0 E. exists sp0. rewrite Hsame by eauto. by split. }
      destruct (decide (sid' = sid)) as [-> | Hne].
      * apply (stream_ok_put s s' x sid _ _ (os_next s)); [rewrite Hq; by rewrite decide_True | | done | | done].
        -- unfold s'. rewrite put_said, decide_True by done. unfold entry. fold s'. rewrite Hat, decide_True by done. done.
        -- exists p, sp. rewrite Hat, decide_True by done. split_and!; try done. by left.
      * apply (stream_ok_same s); [rewrite Hq | unfold s'; rewrite put_said | done | done]; rewrite decide_False by congruence; by rewrite app_nil_r.
    + intros e He. destruct (oi_cur0 e He) as (Hc & q & p0 & sp0 & H1 & H2 & H3). split; [done|]. exists q, p0, sp0.
      rewrite Hq, Hsame by eauto. split_and!; [|done|done]. destruct (outqueue e.1.1 s); done.
  - split; [| |exact F2 | done].
    + intros sid'. rewrite Hq. by eexists.
    + intros q p0 sp0 E. exists p0, sp0. rewrite Hsame by eauto. by split_and!.
Qed.

(** ** A message gets more bytes *)

Definition tell_more (q : nat) (bytes : list Z) (e : nat * (nat * Z * list Z)) : nat * (nat * Z * list Z) :=
  if (e.1 =? q)%nat then (q, (e.2.1, e.2.2 ++ bytes)) else e.

Section Grow.

Lemma tell_more_key q b l : map fst (map (tell_more q b) l) = map fst l.
Proof.
  rewrite map_map. apply map_ext. intros e. unfold tell_more. destruct (Nat.eqb_spec e.1 q); by subst.
Qed.

Lemma tell_more_sid q b sid l :
  filter (fun e => e.2.1.1 = sid) (map (tell_more q b) l) = map (tell_more q b) (filter (fun e => e.2.1.1 = sid) l).
Proof.
  induction l as [|e l IH]; simpl; [done|]. rewrite !filter_cons, IH.
  assert (E : (tell_more q b e).2.1 = e.2.1) by (unfold tell_more; by case_match). rewrite E. by case_decide.
Qed.

Lemma tell_more_other q b l : q ∉ map fst l -> map (tell_more q b) l = l.
Proof.
  induction l as [|e l IH]; simpl; [done|]. intros [H1 H2]%not_elem_of_cons. rewrite IH by done. f_equal.
  unfold tell_more. destruct (Nat.eqb_spec e.1 q); congruence.
Qed.

Lemma entry_key s f q : (entry s f q).1 = q.
Proof. unfold entry. by destruct (message_at s q) as [[? ?]|]. Qed.

Lemma entries_keys s f live : map fst (entries s f live) = live.
Proof.
  destruct live as [|q r]; simpl; [done|]. rewrite entry_key. f_equal. rewrite map_map. induction r as [|q' r IH]; simpl; [done|].
  by rewrite entry_key, IH.
Qed.

(** The rest of the stream's queue is the same, and the message has [b] more. *)
Lemma stream_ok_grow s s' x sid texts frags q p sp p' sp' b :
  outqueue sid s' = outqueue sid s -> said_on sid s' = map (tell_more q b) (said_on sid s) ->
  NoDup (map fst (said_on sid s)) ->
  (forall q', q' <> q -> message_at s' q' = message_at s q') -> q ∈ outqueue sid s ->
  message_at s q = Some (p, sp) -> sp_msg_is_complete p = 0 ->
  message_at s' q = Some (p', sp') -> msg_good sid p' sp' -> sp_some_taken p' = sp_some_taken p -> 0 < sp_length p' ->
  sp_ppid sp' = sp_ppid sp -> chain_bytes (sp_data sp') = chain_bytes (sp_data sp) ++ b ->
  stream_ok s x sid texts frags -> stream_ok s' x sid texts frags.
Proof.
  intros Ho Hd Hnd Hother Hin Hm Hinc Hm' Hg' Ht' Hl' Hpp Hb (spent & live & old & E1 & E2 & E3 & E4 & E5).
  assert (Hlive : q ∈ live).
  { rewrite E1 in Hin. apply elem_of_app in Hin as [Hin|]; [|done].
    destruct E4 as [->|(_ & q' & -> & (p0 & sp0 & E & _ & _ & Hc))]; [by apply elem_of_nil in Hin|].
    apply list_elem_of_singleton in Hin as ->. congruence. }
  rewrite E2, map_app in Hnd. apply NoDup_app in Hnd as (_ & Hold & Hnd). rewrite entries_keys in Hold, Hnd.
  assert (Hent : forall f, f = frags \/ f = [] -> entry s' f q = tell_more q b (entry s f q)).
  { intros f _. unfold tell_more. rewrite entry_key, Nat.eqb_refl. unfold entry. rewrite Hm, Hm', Hpp, Hb. simpl.
    destruct (live_list_in _ _ _ _ _ _ E5 Hlive) as (f0 & p0 & sp0 & E & G & _). rewrite Hm in E. simplify_eq.
    by rewrite (mg_sid _ _ _ Hg'), (mg_sid _ _ _ G), <- app_assoc. }
  assert (Hent' : forall f q', q' <> q -> entry s' f q' = tell_more q b (entry s f q')).
  { intros f q' Hne. unfold tell_more. rewrite entry_key, (proj2 (Nat.eqb_neq _ _) Hne). unfold entry. by rewrite Hother. }
  assert (Hat : forall f q', live_at s x sid f q' -> live_at s' x sid f q').
  { intros f q' (p0 & sp0 & E & G & T & L). destruct (decide (q' = q)) as [-> | Hne].
    - rewrite Hm in E. simplify_eq. exists p', sp'. split_and!; try done; [intros; rewrite Ht'; auto | by left].
    - exists p0, sp0. by rewrite Hother. }
  exists spent, live, old. split_and!; [congruence | | done | |].
  - rewrite Hd, E2, map_app, tell_more_other by (intros H; apply (Hold q H); done). f_equal.
    destruct live as [|q0 r]; [done|]. simpl. f_equal.
    + destruct (decide (q0 = q)) as [-> | Hne]; symmetry; auto.
    + rewrite map_map. apply map_ext. intros q'. destruct (decide (q' = q)) as [-> | Hne]; symmetry; auto.
  - destruct E4 as [->|(-> & q' & -> & (p0 & sp0 & E & Hr))]; [by left|]. right. split; [done|]. exists q'. split; [done|].
    exists p0, sp0. rewrite Hother; [done|]. intros ->. rewrite Hm in E. simplify_eq. by destruct Hr as (_ & _ & Hc).
  - destruct live as [|q0 r]; [done|]. destruct E5 as [H1 H2]. split; [auto|]. eapply Forall_impl; [exact H2|]. auto.
Qed.

End Grow.

Lemma fits_spec b len : fits b len = true -> 0 < Z.of_nat (length b) /\ len + Z.of_nat (length b) < M_COPYALL.
Proof. unfold fits. rewrite andb_true_iff, !Z.ltb_lt. done. Qed.

Lemma quiet_spec flags : quiet flags = true ->
  flagged flags SCTP_UNORDERED = false /\ flagged flags SCTP_SACK_IMMEDIATELY = false /\ flagged flags SCTP_EOF = false.
Proof. unfold quiet. rewrite negb_true_iff, !orb_false_iff. by intros [[? ?] ?]. Qed.

(** Steps on the counters only. *)
Definition unseen (s s' : out_state) : Prop :=
  os_sched s' = os_sched s /\ os_queued s' = os_queued s /\ os_strms s' = os_strms s /\ os_sending_seq s' = os_sending_seq s
  /\ os_log s' = os_log s /\ os_next s' = os_next s /\ os_said s' = os_said s.

Lemma unseen_quiet s s' : unseen s s' -> quiet_step s s'.
Proof. intros (?&?&?&?&?&?&?). by apply quiet_eq. Qed.

Lemma unseen_grown s s' : unseen s s' -> grown s s'.
Proof. intros H. apply quiet_grown; [by apply unseen_quiet|]. by destruct H as (-> & _). Qed.

Lemma unseen_trans a b c : unseen a b -> unseen b c -> unseen a c.
Proof. unfold unseen. intuition congruence. Qed.

Lemma sb_alloc_unseen env sz s : unseen s (sctp_snd_sb_alloc env sz s).
Proof. unfold sctp_snd_sb_alloc. by destruct (oe_tcp_socket env). Qed.

Lemma hold_key_unseen b k s : unseen s (hold_key b k s).
Proof. by destruct b. Qed.

Section Grow2.

(** Where a message lies. *)
Lemma msg_in_queue n tsn x done cur s q p sp : out_inv n tsn x done cur s -> message_at s q = Some (p, sp) ->
  msg_good (sp_sid p) p sp /\ (sp_sid p < n)%nat /\ q ∈ outqueue (sp_sid p) s.
Proof.
  intros Hi E. destruct (oi_msg _ _ _ _ _ _ Hi q p sp E) as (_ & Hs & Hq). split_and!; try done.
  destruct (oi_stream _ _ _ _ _ _ Hi _ Hs) as (spent & live & old & E1 & _ & _ & E4 & E5). rewrite E1 in Hq.
  apply elem_of_app in Hq as [Hq|Hq].
  - destruct E4 as [->|(_ & q' & -> & (p0 & sp0 & E0 & G & _))]; [by apply elem_of_nil in Hq|].
    apply list_elem_of_singleton in Hq as ->. rewrite E in E0. by simplify_eq.
  - destruct (live_list_in _ _ _ _ _ _ E5 Hq) as (f & p0 & sp0 & E0 & G & _). rewrite E in E0. by simplify_eq.
Qed.

Lemma keys_on sid s : NoDup (map fst (os_said s)) -> NoDup (map fst (said_on sid s)).
Proof.
  unfold said_on. induction (os_said s) as [|e l IH]; [done|]. simpl. intros [H1 H2]%NoDup_cons.
  rewrite filter_cons. case_decide; [|auto]. simpl. apply NoDup_cons. split; [|auto].
  intros Hin. apply H1. apply list_elem_of_fmap in Hin as (e' & Ee & He'). apply list_elem_of_filter in He' as [_ He'].
  apply list_elem_of_fmap. by exists e'.
Qed.

Lemma nodup_fst {A} (l : list (nat * A)) a b : NoDup (map fst l) -> a ∈ l -> b ∈ l -> a.1 = b.1 -> a = b.
Proof.
  induction l as [|e l IH]; simpl; intros Hnd Ha Hb E; [by apply elem_of_nil in Ha|].
  apply NoDup_cons in Hnd as [Hn Hnd]. apply elem_of_cons in Ha as [-> | Ha]; apply elem_of_cons in Hb as [-> | Hb]; auto.
  - destruct Hn. apply list_elem_of_fmap. by exists b.
  - destruct Hn. apply list_elem_of_fmap. by exists a.
Qed.

(** What was said with a message that is not complete is in the list. *)
Lemma incomplete_said n tsn x done cur s q p sp : out_inv n tsn x done cur s -> message_at s q = Some (p, sp) ->
  sp_msg_is_complete p = 0 -> exists e, e ∈ os_said s /\ e.1 = q /\ e.2.1.1 = sp_sid p.
Proof.
  intros Hi E Hinc. destruct (msg_in_queue _ _ _ _ _ _ _ _ _ Hi E) as (_ & Hs & Hq).
  destruct (oi_stream _ _ _ _ _ _ Hi _ Hs) as (spent & live & old & E1 & E2 & _ & E4 & _). rewrite E1 in Hq.
  apply elem_of_app in Hq as [Hq|Hq].
  - destruct E4 as [->|(_ & q' & -> & (p0 & sp0 & E0 & _ & _ & Hc))]; [by apply elem_of_nil in Hq|].
    apply list_elem_of_singleton in Hq as ->. congruence.
  - rewrite <- (entries_keys s (frags_on (sp_sid p) cur) live) in Hq. apply list_elem_of_fmap in Hq as (e & -> & He).
    assert (Hin : e ∈ said_on (sp_sid p) s) by (rewrite E2; set_solver).
    apply list_elem_of_filter in Hin as [H1 H2]. by exists e.
Qed.

Lemma grow_ok n tsn x done cur s s' q p sp p' sp' b :
  out_inv n tsn x done cur s -> message_at s q = Some (p, sp) -> sp_msg_is_complete p = 0 ->
  os_sched s' = set_pendings (os_sched s) (pendings (os_sched s')) ->
  (forall q', q' <> q -> message_at s' q' = message_at s q') -> message_at s' q = Some (p', sp') ->
  os_strms s' = os_strms s -> os_sending_seq s' = os_sending_seq s -> os_log s' = os_log s -> os_next s' = os_next s ->
  os_said s' = map (tell_more q b) (os_said s) ->
  msg_good (sp_sid p) p' sp' -> sp_some_taken p' = sp_some_taken p -> 0 < sp_length p' -> sp_length p <= sp_length p' ->
  sp_ppid sp' = sp_ppid sp -> chain_bytes (sp_data sp') = chain_bytes (sp_data sp) ++ b ->
  out_inv n tsn x done cur s' /\ grown s s'.
Proof.
  intros Hi E Hinc Es Hother E' Hst Hseq Hlog Hnext Hsaid Hg' Ht Hl Hle Hpp Hb.
  destruct (msg_in_queue _ _ _ _ _ _ _ _ _ Hi E) as (Hg & Hsid & Hin).
  assert (Hq : forall sid, outqueue sid s' = outqueue sid s) by (intros; unfold outqueue; by rewrite Es).
  assert (Hsd : forall sid, said_on sid s' = map (tell_more q b) (said_on sid s)).
  { intros sid. unfold said_on. by rewrite Hsaid, tell_more_sid. }
  split.
  - pose proof Hi as Hi0. destruct Hi. split; rewrite ?Hst, ?Hseq, ?Hlog, ?Hnext; try done; try (by rewrite Es).
    + intros q0 p0 sp0 E0. destruct (decide (q0 = q)) as [-> | Hne].
      * rewrite E' in E0. simplify_eq. rewrite (mg_sid _ _ _ Hg'), Hq. by eapply oi_msg0.
      * rewrite Hother in E0 by done. rewrite Hq. by eapply oi_msg0.
    + rewrite Hsaid. apply Forall_map. eapply Forall_impl; [exact oi_said0|]. intros e He. unfold tell_more.
      destruct (Nat.eqb_spec e.1 q); simpl; congruence.
    + by rewrite Hsaid, tell_more_key.
    + intros sid Hs. specialize (oi_stream0 sid Hs). destruct (decide (sid = sp_sid p)) as [-> | Hne].
      * eapply (stream_ok_grow s s' x); eauto using keys_on.
      * destruct oi_stream0 as (spent & live & old & S1 & S2 & S3 & S4 & S5).
        assert (Hnot : q ∉ outqueue sid s).
        { intros Hbad. rewrite S1 in Hbad. apply elem_of_app in Hbad as [Hbad|Hbad].
          - destruct S4 as [->|(_ & q' & -> & (p0 & sp0 & E0 & G & _))]; [by apply elem_of_nil in Hbad|].
            apply list_elem_of_singleton in Hbad as ->. rewrite E in E0. simplify_eq. apply Hne. symmetry. by apply (mg_sid _ _ _ G).
          - destruct (live_list_in _ _ _ _ _ _ S5 Hbad) as (f & p0 & sp0 & E0 & G & _). rewrite E in E0. simplify_eq.
            apply Hne. symmetry. by apply (mg_sid _ _ _ G). }
        apply (stream_ok_same s); [done | | |by exists spent, live, old].
        -- rewrite Hsd. apply tell_more_other. intros Hbad. apply list_elem_of_fmap in Hbad as (e & -> & He).
           apply list_elem_of_filter in He as [He1 He]. destruct (incomplete_said _ _ _ _ _ _ _ _ _ Hi0 E Hinc) as (e' & H1 & H2 & H3).
           rewrite <- (nodup_fst _ e' e oi_keys0 H1 He H2) in He1. congruence.
        -- intros q' Hq'. apply same_alike, same_message_refl, Hother. congruence.
    + intros e He. destruct (oi_cur0 e He) as (Hc & q0 & p0 & sp0 & H1 & H2 & H3). split; [done|]. rewrite Hq.
      destruct (decide (q0 = q)) as [-> | Hne]; [|by exists q0, p0, sp0; rewrite Hother].
      exists q, p', sp'. rewrite E in H2. simplify_eq. by rewrite Hpp.
  - split; try done; [| | by rewrite Es].
    + intros sid. exists []. by rewrite Hq, app_nil_r.
    + intros q0 p0 sp0 E0. destruct (decide (q0 = q)) as [-> | Hne].
      * rewrite E in E0. simplify_eq. exists p', sp'. by split_and!.
      * exists p0, sp0. rewrite Hother by done. by split_and!.
Qed.

End Grow2.

(** ** The application's steps *)

Record good_env (env : out_env) : Prop := GoodEnv {
  ge_module : whole_messages (oe_module env) = true;
  ge_threshold : 1 <= oe_mbuf_threshold_count env
}.

Section Users.

Lemma flagged_lor a b m : flagged (Z.lor a b) m = flagged a m || flagged b m.
Proof.
  unfold flagged. rewrite Z.land_lor_distr_l. destruct (Z.eqb_spec (Z.land a m) 0) as [-> | Ha]; [by rewrite Z.lor_0_l|].
  simpl. apply negb_true_iff, Z.eqb_neq. intros [H _]%Z.lor_eq_0_iff. done.
Qed.

Lemma quiet_ttl f : quiet (Z.lor f SCTP_PR_SCTP_TTL) = quiet f.
Proof.
  unfold quiet. rewrite !flagged_lor. change (flagged SCTP_PR_SCTP_TTL _) with false. by rewrite !orb_false_r.
Qed.

Lemma policy_same now sp :
  let sp' := sctp_set_prsctp_policy now sp in
  sp_data sp' = sp_data sp /\ sp_tail sp' = sp_tail sp /\ sp_ppid sp' = sp_ppid sp /\
  sp_discard_rest sp' = sp_discard_rest sp /\ quiet (sp_sinfo_flags sp') = quiet (sp_sinfo_flags sp).
Proof.
  cbv zeta. unfold sctp_set_prsctp_policy. repeat case_match; simpl; split_and!; try done; apply quiet_ttl.
Qed.

Lemma new_message_good sid p sp now :
  sp_sid p = sid -> chain_ok (sp_data sp) -> sp_length p = chain_len (sp_data sp) -> 0 < sp_length p < M_COPYALL ->
  sp_tail sp = Some 0%nat -> sp_discard_rest sp = false -> quiet (sp_sinfo_flags sp) = true -> in_u32 (sp_ppid sp) ->
  msg_good sid p (sctp_set_prsctp_policy now sp).
Proof.
  intros H1 H2 H3 H4 H5 H6 H7 H8. destruct (policy_same now sp) as (E1 & E2 & E3 & E4 & E5).
  split; rewrite ?E1, ?E2, ?E3, ?E4, ?E5; try done; try lia.
  rewrite H5. destruct (sp_data sp); [|done]. unfold chain_len in *. simpl in *. lia.
Qed.

Lemma fair_info_spec srcv : fair_info srcv = true -> quiet (sinfo_flags srcv) = true /\ in_u32 (sinfo_ppid srcv).
Proof. unfold fair_info. rewrite !andb_true_iff, Z.leb_le, Z.ltb_lt. unfold in_u32. tauto. Qed.

Lemma copy_it_in_ok env ok alloc srcv uio net max_len eor s error r s' :
  idata s = false -> fits uio 0 = true -> fair_info srcv = true -> 1 <= max_len ->
  sctp_copy_it_in env ok alloc srcv uio net max_len eor s = Some (error, r, s') ->
  unseen s s' /\ os_behaved s' = os_behaved s /\ forall p sp, r = Some (p, sp) ->
    msg_good (sinfo_stream srcv) p sp /\ sp_some_taken p = 0 /\ 0 < sp_length p.
Proof.
  intros Hid [Hu1 Hu2]%fits_spec [Hf1 Hf2]%fair_info_spec Hmax. unfold sctp_copy_it_in.
  destruct (shutting_down env); [by intros [= <- <- <-]|]. destruct ok; [|by intros [= <- <- <-]]. cbn [negb].
  set (len := Z.min (Z.of_nat (length uio)) max_len). assert (Hlen : 0 < len <= Z.of_nat (length uio)) by lia.
  rewrite (proj2 (Z.eqb_neq len 0)) by lia. cbv iota.
  destruct (copy_one_ok env alloc (take (Z.to_nat len) uio) (SCTP_DATA_CHUNK_OVERHEAD s)) as (x & -> & _ & Hx).
  { unfold SCTP_DATA_CHUNK_OVERHEAD. rewrite Hid. eval_z. }
  cbn [mbind option_bind negb andb]. destruct x as [data|]; intros [= <- <- <-].
  - split_and!; [apply hold_key_unseen | by destruct (data_needs_auth env) |].
    destruct (Hx data eq_refl) as (C1 & C2 & C3). intros p sp [= <- <-].
    assert (Hcl : chain_len data = len) by (unfold chain_len; rewrite C2, length_take; lia).
    split; [|by split; [|cbn; lia]]. apply new_message_good; cbn [sp_sid sp_data sp_length sp_tail sp_discard_rest sp_sinfo_flags sp_ppid]; try done; try lia.
    by destruct data.
  - by destruct (data_needs_auth env).
Qed.

Lemma begin_send_ok env n tsn x done cur ok alloc srcv uio net max_len eor s r :
  good_env env -> out_inv n tsn x done cur s -> behaves (UBegin ok alloc srcv uio net max_len eor) s = true ->
  begin_send env ok alloc srcv uio net max_len eor s = Some r ->
  out_inv n tsn x done cur r.2 /\ grown s r.2.
Proof.
  intros [Hm _] Hi Hb. simpl in Hb. apply andb_true_iff in Hb as [[Hf1 Hf2]%andb_true_iff Hmax%Z.leb_le].
  unfold begin_send. destruct (match os_stream_locked s with Some _ => _ | None => _ end).
  { intros [= <-]. split; [done | apply grown_refl]. }
  destruct (strmout (os_sched s) !! sinfo_stream srcv) as [strq|] eqn:Es; [|done]. cbn [mbind option_bind].
  destruct (os_strms s !! strq) as [st|] eqn:Est; [|done]. cbn [mbind option_bind].
  rewrite (oi_strmout _ _ _ _ _ _ Hi) in Es. apply lookup_seq in Es as [-> Hsid]. cbn [Nat.add] in *.
  case_match; [intros [= <-]; split; [done | apply grown_refl]|].
  set (sid := sinfo_stream srcv) in *.
  set (s1 := upd_strm sid (fun st => st <| last_msg_incomplete := false |>) s).
  assert (Hq1 : quiet_step s s1) by (by apply quiet_strm).
  destruct (sctp_copy_it_in env ok alloc srcv uio net max_len eor s1) as [[[error o] s2]|] eqn:Ec; [|done].
  cbn [mbind option_bind]. apply copy_it_in_ok in Ec as (Hun & _ & Hp); [| |done..].
  2: { unfold idata. cbn. by rewrite (oi_idata _ _ _ _ _ _ Hi). }
  assert (Hi2 : out_inv n tsn x done cur s2) by (apply (quiet_step_inv _ _ _ _ _ s1), (quiet_step_inv _ _ _ _ _ s); auto using unseen_quiet).
  assert (Hg2 : grown s s2) by (apply (grown_trans _ s1); [by apply quiet_grown | by apply unseen_grown]).
  destruct o as [[p sp]|]; [|by intros [= <-]]. destruct (Hp p sp eq_refl) as (G1 & G2 & G3).
  set (complete := negb (sp_msg_is_complete p =? 0)).
  set (s3 := upd_strm sid (fun st => st <| last_msg_incomplete := negb complete |>) s2).
  set (s4 := if complete then s3 <| os_stream_locked := None |> else _).
  assert (Hq4 : quiet_step s2 s4 /\ locked_on_sending (os_sched s4) = locked_on_sending (os_sched s2)).
  { split; [|unfold s4; destruct complete; [done | by destruct (negb (idata s3))]].
    apply (quiet_step_trans _ s3); [by apply quiet_strm|]. unfold s4. destruct complete; [by apply quiet_eq|].
    destruct (negb (idata s3)); [by apply quiet_eq | apply quiet_step_refl]. }
  intros [= <-]. cbn [snd]. unfold insert_message. set (s5 := sctp_snd_sb_alloc env (sp_length p) s4).
  assert (Hi5 : out_inv n tsn x done cur s5).
  { apply (quiet_step_inv _ _ _ _ _ s4); [apply unseen_quiet, sb_alloc_unseen|].
    apply (quiet_step_inv _ _ _ _ _ s2); [apply Hq4 | done]. }
  destruct (put_ok env n tsn x done cur s5 sid p sp) as [Hi6 Hg6]; try done.
  split; [done|]. apply (grown_trans _ s2); [done|]. apply (grown_trans _ s4); [apply quiet_grown; apply Hq4|].
  apply (grown_trans _ s5); [apply unseen_grown, sb_alloc_unseen | done].
Qed.

Lemma msg_append_ok env n tsn x done cur ok net m srcv s r :
  good_env env -> out_inv n tsn x done cur s -> behaves (UAppend ok net m srcv) s = true ->
  sctp_msg_append env ok net m srcv s = Some r -> out_inv n tsn x done cur r.2 /\ grown s r.2.
Proof.
  intros [Hm _] Hi Hb. simpl in Hb. apply andb_true_iff in Hb as [[[Hf1 Hf1']%fits_spec [Hf2 Hf3]%fair_info_spec]%andb_true_iff Harea].
  unfold sctp_msg_append. destruct (strmout (os_sched s) !! sinfo_stream srcv) as [strq|] eqn:Es.
  2: { intros [= <-]. split; [done | apply grown_refl]. }
  rewrite (oi_strmout _ _ _ _ _ _ Hi) in Es. apply lookup_seq in Es as [-> Hsid]. cbn [Nat.add] in *.
  destruct (match os_stream_locked s with Some _ => _ | None => _ end); [intros [= <-]; split; [done | apply grown_refl]|].
  destruct (shutting_down env); [intros [= <-]; split; [done | apply grown_refl]|].
  destruct ok; [|intros [= <-]; split; [done | apply grown_refl]]. cbn [negb]. intros [= <-]. cbn [snd]. unfold insert_message.
  match goal with |- context [sctp_snd_sb_alloc env ?len ?s0] => set (s1 := sctp_snd_sb_alloc env len s0) end.
  assert (Hun : unseen s s1) by (eapply unseen_trans; [apply hold_key_unseen | apply sb_alloc_unseen]).
  assert (Hi1 : out_inv n tsn x done cur s1) by (apply (quiet_step_inv _ _ _ _ _ s); auto using unseen_quiet).
  assert (Hc : chain_ok m).
  { apply Forall_forall. intros b Hin. rewrite forallb_forall in Harea. specialize (Harea b). rewrite <- list_elem_of_In in Harea.
    specialize (Harea Hin). unfold in_area in Harea. rewrite !andb_true_iff, !Z.leb_le in Harea. destruct Harea as [[A1 A2] A3].
    split; try done. intros He [l Hl]. rewrite He, Hl in A3. by apply Z.leb_le. }
  assert (Hl : u32 (chain_len m) = chain_len m) by (apply u32_id; unfold in_u32, chain_len, M_COPYALL in *; lia).
  edestruct (put_ok env n tsn x done cur s1 (sinfo_stream srcv)) as [Hi2 Hg2]; [done | exact Hi1 | done | | | |split; [exact Hi2|]].
  - apply new_message_good; cbn [sp_sid sp_data sp_length sp_tail sp_discard_rest sp_sinfo_flags sp_ppid]; rewrite ?Hl; try done.
    destruct m; [simpl in Hf1; lia | done].
  - done.
  - cbn. rewrite Hl. unfold chain_len. lia.
  - apply (grown_trans _ s1); [by apply unseen_grown | done].
Qed.

Lemma append_more_ok env n tsn x done cur alloc q srcv uio resid eor s r :
  good_env env -> out_inv n tsn x done cur s -> behaves (UMore alloc q srcv uio resid eor) s = true ->
  append_more env alloc q srcv uio resid eor s = Some r -> out_inv n tsn x done cur r.2 /\ grown s r.2.
Proof.
  intros _ Hi Hb. unfold append_more. destruct (copy_resume_ok env alloc uio) as (mm & -> & _ & Hmm). cbn [mbind option_bind].
  destruct mm as [mm|]; [|intros [= <-]; split; [done | apply grown_refl]]. destruct (Hmm mm eq_refl) as (C1 & C2 & C3).
  simpl in Hb. destruct (pendings (os_sched s) !! q) as [p|] eqn:Ep; [|done]. cbn [mbind option_bind].
  apply andb_true_iff in Hb as [[[Hf1 Hf2]%fits_spec Hqu]%andb_true_iff Hinc%Z.eqb_eq].
  destruct (os_queued s !! q) as [sp|] eqn:Esp; [|done]. cbn [mbind option_bind].
  assert (E : message_at s q = Some (p, sp)) by (unfold message_at; by rewrite Ep; cbn; rewrite Esp).
  destruct (msg_in_queue _ _ _ _ _ _ _ _ _ Hi E) as ([] & _ & _).
  assert (Hcl : chain_len mm = Z.of_nat (length uio)) by (unfold chain_len; by rewrite C2).
  assert (Hp0 : 0 <= sp_length p) by (rewrite mg_len0; unfold chain_len; lia).
  set (data := match sp_tail sp with Some d => _ | None => mm end).
  assert (Hdata : data = sp_data sp ++ mm).
  { unfold data. rewrite mg_tail0. destruct (sp_data sp) as [|m0 c0] eqn:Ed; [done|]. rewrite Nat.sub_0_r, <- Ed. by rewrite firstn_all. }
  apply quiet_spec in Hqu as (_ & Hqu & _). intros [= <-]. cbn [snd].
  set (s1 := sctp_snd_sb_alloc env (chain_len mm) s). pose proof (sb_alloc_unseen env (chain_len mm) s) as Hun. fold s1 in Hun.
  match goal with |- out_inv _ _ _ _ _ ?s' /\ _ => set (s2 := s') end.
  assert (Hlen : u32 (sp_length p + chain_len mm) = sp_length p + chain_len mm) by (apply u32_id; unfold in_u32, M_COPYALL in *; lia).
  destruct Hun as (U1 & U2 & U3 & U4 & U5 & U6 & U7).
  set (p' := with_complete (Z.b2z (negb resid && ends_here eor srcv)) (with_length (u32 (sp_length p + chain_len mm)) p)).
  set (sp' := sp <| sp_data := data |> <| sp_tail := Some 0%nat |>).
  assert (Hat : forall q', message_at s2 q' = if decide (q' = q) then Some (p', sp') else message_at s q').
  { intros q'. unfold s2. change (message_at (?s3 <| os_said := _ |>) q') with (message_at s3 q').
    rewrite message_at_upd_queued, message_at_upd_msg. unfold s1. change (message_at s1 q') with (message_at s1 q').
    assert (E1 : message_at (sctp_snd_sb_alloc env (chain_len mm) s) q' = message_at s q') by (unfold message_at; fold s1; by rewrite U1, U2).
    rewrite E1. case_decide; [subst; rewrite E | done]. cbn. by rewrite Hqu. }
  apply (grow_ok n tsn x done cur s s2 q p sp p' sp' uio); try done.
  - unfold s2, upd_queued, upd_msg, on_sched. cbn. by rewrite U1.
  - intros q' Hne. by rewrite Hat, decide_False.
  - by rewrite Hat, decide_True.
  - unfold s2. cbn. by rewrite U7.
  - split; cbn; try done.
    + rewrite Hdata. by apply Forall_app.
    + rewrite Hdata, chain_size_app, Hlen. lia.
    + lia.
    + rewrite Hdata. destruct (sp_data sp); [by destruct mm | done].
    + lia.
  - cbn. lia.
  - cbn. lia.
  - change (chain_bytes data = chain_bytes (sp_data sp) ++ uio). by rewrite Hdata, chain_bytes_app, C2.
Qed.

Lemma finish_send_ok n tsn x done cur q sid s s' :
  out_inv n tsn x done cur s -> finish_send q sid s = Some s' -> out_inv n tsn x done cur s' /\ grown s s'.
Proof.
  intros Hi. unfold finish_send. destruct (strmout (os_sched s) !! sid) as [strq|]; [|done].
  destruct (pendings (os_sched s) !! q) as [p|]; [|done]. cbn [mbind option_bind]. intros [= <-].
  assert (Hq : forall s', quiet_step s s' -> locked_on_sending (os_sched s') = locked_on_sending (os_sched s) ->
    out_inv n tsn x done cur s' /\ grown s s').
  { intros s' H1 H2. split; [by eapply quiet_step_inv | by apply quiet_grown]. }
  destruct (sp_msg_is_complete p =? 0).
  - set (s1 := upd_strm strq (fun st => st <| last_msg_incomplete := true |>) s).
    assert (Hq1 : quiet_step s s1) by (by apply quiet_strm).
    destruct (negb (idata s1)); apply Hq; try done. apply (quiet_step_trans _ s1); [done | by apply quiet_eq].
  - set (s1 := upd_strm strq (fun st => st <| last_msg_incomplete := false |>) s).
    set (s2 := upd_queued q (fun sp => sp <| sp_sender_all_done := true |>) s1).
    apply Hq; [|done]. apply (quiet_step_trans _ s1); [by apply quiet_strm|].
    apply (quiet_step_trans _ s2); [by apply same_message_queued | by apply quiet_eq].
Qed.

(** No step of the code touches the record of the application's behaviour. *)
Lemma sb_alloc_behaved env sz s : os_behaved (sctp_snd_sb_alloc env sz s) = os_behaved s.
Proof. unfold sctp_snd_sb_alloc. by destruct (oe_tcp_socket env). Qed.

Lemma hold_key_behaved b k s : os_behaved (hold_key b k s) = os_behaved s.
Proof. by destruct b. Qed.

Lemma insert_behaved env sid p sp s : os_behaved (insert_message env sid p sp s) = os_behaved s.
Proof. apply sb_alloc_behaved. Qed.

Lemma copy_it_in_behaved env ok alloc srcv uio net max_len eor s r :
  sctp_copy_it_in env ok alloc srcv uio net max_len eor s = Some r -> os_behaved r.2 = os_behaved s.
Proof.
  unfold sctp_copy_it_in. destruct (shutting_down env); [by intros [= <-]|]. destruct (negb ok); [by intros [= <-]|].
  match goal with |- (?x ≫= _) = _ -> _ => destruct x as [[data|]|]; [| |done] end; cbn [mbind option_bind]; intros [= <-].
  - apply hold_key_behaved.
  - cbn [snd]. destruct (_ && _); cbn; by rewrite ?hold_key_behaved.
Qed.

Lemma perform_behaved env o s s' : perform env o s = Some s' -> os_behaved s' = os_behaved s.
Proof.
  destruct o as [ok alloc srcv uio net max_len eor|alloc q srcv uio resid eor|q sid|ok net m srcv]; simpl.
  - unfold begin_send. destruct (match os_stream_locked s with Some _ => _ | None => _ end); [by intros [= <-]|].
    destruct (strmout (os_sched s) !! sinfo_stream srcv) as [strq|]; [|done]. cbn [mbind option_bind].
    destruct (os_strms s !! strq) as [st|]; [|done]. cbn [mbind option_bind].
    destruct (if last_msg_incomplete st then _ else _); [by intros [= <-]|].
    destruct (sctp_copy_it_in _ _ _ _ _ _ _ _ _) as [[[error o] s2]|] eqn:Ec; [|done]. apply copy_it_in_behaved in Ec.
    cbn [mbind option_bind]. destruct o as [[p sp]|]; [|by intros [= <-]]. cbn [mbind option_bind snd]. intros [= <-].
    rewrite insert_behaved. destruct (negb (sp_msg_is_complete p =? 0)); [exact Ec|]. by destruct (negb (idata _)).
  - unfold append_more. destruct (sctp_copy_resume env alloc uio) as [[mm|]|]; [|by intros [= <-] | done]. cbn [mbind option_bind].
    destruct (pendings (os_sched s) !! q); [|done]. cbn [mbind option_bind]. destruct (os_queued s !! q); [|done].
    cbn [mbind option_bind]. intros [= <-]. apply sb_alloc_behaved.
  - unfold finish_send. destruct (strmout (os_sched s) !! sid) as [strq|]; [|done]. cbn [mbind option_bind].
    destruct (pendings (os_sched s) !! q) as [p|]; [|done]. cbn [mbind option_bind]. intros [= <-].
    destruct (sp_msg_is_complete p =? 0); [|done]. by destruct (negb (idata _)).
  - unfold sctp_msg_append. destruct (strmout (os_sched s) !! sinfo_stream srcv); [|by intros [= <-]].
    destruct (match os_stream_locked s with Some _ => _ | None => _ end); [by intros [= <-]|].
    destruct (shutting_down env); [by intros [= <-]|]. destruct (negb ok); [by intros [= <-]|]. intros [= <-].
    cbn [snd]. by rewrite insert_behaved, hold_key_behaved.
Qed.

Lemma run_op_ok env n tsn x done cur o s s' :
  good_env env -> out_inv n tsn x done cur s -> run_op env o s = Some s' -> os_behaved s' = true ->
  out_inv n tsn x done cur s' /\ grown s s'.
Proof.
  intros He Hi Hrun Hb. unfold run_op in Hrun. pose proof (perform_behaved _ _ _ _ Hrun) as E. rewrite Hb in E.
  symmetry in E. apply andb_true_iff in E as [_ E].
  set (s0 := s <| os_behaved := os_behaved s && behaves o s |>) in Hrun.
  assert (Hun : unseen s s0) by done. assert (Hi0 : out_inv n tsn x done cur s0) by (apply (quiet_step_inv _ _ _ _ _ s); auto using unseen_quiet).
  assert (E0 : behaves o s0 = true) by (by destruct o).
  assert (H : out_inv n tsn x done cur s' /\ grown s0 s').
  { destruct o; simpl in Hrun;
      try (match type of Hrun with (?y ≫= _) = _ => destruct y as [r|] eqn:Er; [|done]; injection Hrun as <- end).
    - by eapply begin_send_ok.
    - by eapply append_more_ok.
    - by eapply finish_send_ok.
    - by eapply msg_append_ok. }
  split; [apply H|]. apply (grown_trans _ s0); [by apply unseen_grown | apply H].
Qed.

Lemma run_op_behaved env o s s' : run_op env o s = Some s' -> os_behaved s' = true -> os_behaved s = true.
Proof. unfold run_op. intros ->%perform_behaved. cbn. by intros [? _]%andb_true_iff. Qed.

Lemma run_ops_behaved env l s s' : run_ops env l s = Some s' -> os_behaved s' = true -> os_behaved s = true.
Proof.
  revert s. induction l as [|o l IH]; intros s; simpl; [by intros [= <-]|].
  destruct (run_op env o s) as [s1|] eqn:E; [|done]. cbn [mbind option_bind]. intros H Hb. eauto using run_op_behaved.
Qed.

Lemma run_ops_ok env n tsn x done cur l s s' :
  good_env env -> out_inv n tsn x done cur s -> run_ops env l s = Some s' -> os_behaved s' = true ->
  out_inv n tsn x done cur s' /\ grown s s'.
Proof.
  intros He. revert s. induction l as [|o l IH]; intros s Hi; simpl.
  { intros [= <-] _. split; [done | apply grown_refl]. }
  destruct (run_op env o s) as [s1|] eqn:E; [|done]. cbn [mbind option_bind]. intros H Hb.
  destruct (run_op_ok env n tsn x done cur o s s1) as [Hi1 Hg1]; eauto using run_ops_behaved.
  destruct (IH s1 Hi1 H Hb) as [Hi2 Hg2]. split; [done|]. by eapply grown_trans.
Qed.

Lemma send_lock_behaved env locked u s s' u' : send_lock env locked u s = Some (s', u') -> os_behaved s' = true -> os_behaved s = true.
Proof.
  unfold send_lock. destruct locked; [by intros [= <- <-]|]. destruct u as [|l u]; [by intros [= <- <-]|].
  destruct (run_ops env l s) as [s1|] eqn:E; [|done]. cbn [mbind option_bind]. intros [= <- <-]. eauto using run_ops_behaved.
Qed.

(** While the lock was free, the application has done only what the invariant allows. *)
Lemma send_lock_ok env n tsn x done cur locked u s s' u' :
  good_env env -> out_inv n tsn x done cur s -> send_lock env locked u s = Some (s', u') -> os_behaved s' = true ->
  out_inv n tsn x done cur s' /\ grown s s' /\ (locked = true -> s' = s).
Proof.
  intros He Hi. unfold send_lock. destruct locked.
  { intros [= <- <-] _. split_and!; [done | apply grown_refl | done]. }
  destruct u as [|l u]; [intros [= <- <-] _; split_and!; [done | apply grown_refl | done]|].
  destruct (run_ops env l s) as [s1|] eqn:E; [|done]. cbn [mbind option_bind]. intros [= <- <-] Hb.
  destruct (run_ops_ok env n tsn x done cur l s s1) as [Hi1 Hg1]; try done.
Qed.

End Users.
