(* ===== verification/MsgOutProps.v ===== *)
(** * From messages to chunks: what one call does

    Every call of [sctp_move_to_outqueue] keeps the invariant of [MsgOutInv]: it takes
    nothing, or it makes the next chunk of the message at the head of the stream's queue.
    [sctp_fill_outqueue] goes on with a message until it is finished. *)

From S2P Require Import Reasm RecvData RecvPlan.
From S2P Require Import Prelude Chunk Mbuf MbufProps AuthLists Tailq StreamSched SchedProps MsgOut MsgOutInv.

Open Scope sctp_scope.

(** ** The head of the queue *)

Section Head.
Context (n : nat) (tsn : Z).

Lemma head_spent x done cur s sid q r p sp : out_inv n tsn x done cur s -> (sid < n)%nat -> outqueue sid s = q :: r ->
  message_at s q = Some (p, sp) -> sp_msg_is_complete p <> 0 -> sp_length p = 0 ->
  frags_on sid cur = [] /\ exists old, said_on sid s = old ++ entries s [] r /\
    map text_of old = texts_of sid done /\ live_list s x sid [] r.
Proof.
  intros Hi Hs Ho E Hc Hl. destruct (oi_stream _ _ _ _ _ _ Hi sid Hs) as (spent & live & old & E1 & E2 & E3 & E4 & E5).
  destruct E4 as [->|(Hf & q' & -> & _)].
  - rewrite Ho in E1. simpl in E1. subst live. destruct E5 as [(p0 & sp0 & E0 & _ & _ & H) _]. rewrite E in E0. simplify_eq.
    destruct H as [H|[_ H]]; [lia | done].
  - rewrite Ho in E1. injection E1 as <- ->. rewrite Hf in *. split; [done|]. by exists old.
Qed.

Lemma head_live x done cur s sid q r p sp : out_inv n tsn x done cur s -> (sid < n)%nat -> outqueue sid s = q :: r ->
  message_at s q = Some (p, sp) -> (sp_msg_is_complete p = 0 \/ 0 < sp_length p) ->
  live_at s x sid (frags_on sid cur) q /\ exists old, said_on sid s = old ++ entries s (frags_on sid cur) (q :: r) /\
    map text_of old = texts_of sid done /\ Forall (live_at s x sid []) r.
Proof.
  intros Hi Hs Ho E Hc. destruct (oi_stream _ _ _ _ _ _ Hi sid Hs) as (spent & live & old & E1 & E2 & E3 & E4 & E5).
  destruct E4 as [->|(_ & q' & -> & (p0 & sp0 & E0 & _ & Hl & Hc'))].
  - rewrite Ho in E1. simpl in E1. subst live. destruct E5 as [H1 H2]. split; [done|]. by exists old.
  - rewrite Ho in E1. injection E1 as <- ->. rewrite E in E0. simplify_eq. destruct Hc; [done | lia].
Qed.

(** The messages of the queue. *)
Lemma queue_msg x done cur s sid q : out_inv n tsn x done cur s -> (sid < n)%nat -> q ∈ outqueue sid s ->
  exists p sp, message_at s q = Some (p, sp) /\ msg_good sid p sp.
Proof.
  intros Hi Hs Hq. destruct (oi_stream _ _ _ _ _ _ Hi sid Hs) as (spent & live & old & E1 & E2 & E3 & E4 & E5).
  rewrite E1 in Hq. apply elem_of_app in Hq as [Hq|Hq].
  - destruct E4 as [->|(_ & q' & -> & (p0 & sp0 & E0 & G & _))]; [by apply elem_of_nil in Hq|].
    apply list_elem_of_singleton in Hq as ->. by exists p0, sp0.
  - destruct (live_list_in _ _ _ _ _ _ E5 Hq) as (f & p0 & sp0 & E0 & G & _). by exists p0, sp0.
Qed.

Lemma outqueue_nodup x done cur s sid : out_inv n tsn x done cur s -> (sid < n)%nat -> NoDup (outqueue sid s).
Proof.
  intros Hi Hs. destruct (oi_stream _ _ _ _ _ _ Hi sid Hs) as (spent & live & old & E1 & E2 & E3 & E4 & E5).
  assert (Hnd : NoDup live).
  { pose proof (keys_on sid s (oi_keys _ _ _ _ _ _ Hi)) as H. rewrite E2, map_app, entries_keys in H. by apply NoDup_app in H as (_ & _ & ?). }
  rewrite E1. destruct E4 as [->|(_ & q' & -> & (p0 & sp0 & E0 & _ & Hl & Hc))]; [done|]. simpl. constructor; [|done].
  intros Hin. destruct (live_list_in _ _ _ _ _ _ E5 Hin) as (f & p1 & sp1 & E6 & _ & _ & H). rewrite E0 in E6. simplify_eq.
  destruct H as [H|[_ H]]; [lia | done].
Qed.

Lemma head_first sid s q : TAILQ_FIRST (outqueue sid s) = Some q -> exists r, outqueue sid s = q :: r.
Proof. unfold TAILQ_FIRST. destruct (outqueue sid s) as [|q' r]; [done|]. intros [= ->]. by exists r. Qed.

End Head.

(** ** Taking a finished message off its queue *)

Section Drop.

Lemma remove_frame m a p sp a' : whole_messages m = true -> sctp_ss_remove_from_stream (sctp_ss_functions m) a p sp = Some a' ->
  pendings a' = pendings a /\ locked_on_sending a' = locked_on_sending a /\ idata_supported a' = idata_supported a
  /\ strmout a' = strmout a /\ (forall q, so_outqueue (strq_of a' q) = so_outqueue (strq_of a q))
  /\ (forall q, so_sid (strq_of a' q) = so_sid (strq_of a q)) /\ (forall q, is_Some (streams a' !! q) <-> is_Some (streams a !! q)).
Proof.
  intros Hm. assert (E : sctp_ss_remove_from_stream (sctp_ss_functions m) = sctp_ss_default_remove) by (by destruct m).
  rewrite E. clear E. unfold sctp_ss_default_remove. destruct (queue_empty a p && so_linked (strq_of a p)); [|by intros [= <-]].
  set (a1 := if opt_eqb (last_out_stream a) (Some p) then _ else a).
  assert (H1 : pendings a1 = pendings a /\ locked_on_sending a1 = locked_on_sending a /\ idata_supported a1 = idata_supported a
    /\ strmout a1 = strmout a /\ streams a1 = streams a) by (unfold a1; by case_match).
  destruct H1 as (H1 & H2 & H3 & H4 & H5). destruct (TAILQ_REMOVE (wheel a1) p) as [w|]; [|done]. cbn [mbind option_bind].
  intros [= <-]. cbn. split_and!; try done; intros q.
  - rewrite (upd_strq_proj so_outqueue) by done. unfold strq_of. cbn. by rewrite H5.
  - rewrite (upd_strq_proj so_sid) by done. unfold strq_of. cbn. by rewrite H5.
  - rewrite H5. destruct (decide (q = p)) as [-> | Hne]; [rewrite lookup_alter_eq | by rewrite lookup_alter_ne].
    unfold is_Some. destruct (streams a !! p); simpl; split; intros [? ?]; eauto; done.
Qed.

Lemma drop_behaved env sid q s s' : drop_message env sid q s = Some s' -> os_behaved s' = os_behaved s.
Proof.
  unfold drop_message. destruct (os_queued s !! q) as [sp|]; [|done]. cbn [mbind option_bind].
  destruct (sctp_ss_remove_from_stream _ _ _ _) as [a'|]; [|done]. cbn [mbind option_bind].
  match goal with |- (?x ≫= _) = _ -> _ => destruct x as [st|]; [|done] end. cbn [mbind option_bind]. intros [= <-].
  by destruct (sp_holds_key_ref sp).
Qed.

Lemma drop_serves m a f sid q a' : whole_messages m = true -> serving a ->
  (forall s, so_linked (f s) = so_linked s) -> (forall s, so_outqueue s = [] -> so_outqueue (f s) = []) ->
  sctp_ss_remove_from_stream (sctp_ss_functions m) (upd_strq a sid f) sid q = Some a' -> serving a'.
Proof. intros Hm Hs Hf1 Hf2 H. destruct m; try discriminate Hm; eapply shrink_serving; eauto; exact _. Qed.

Lemma drop_ok env n tsn x done cur sid q r s s' p sp :
  good_env env -> out_inv n tsn x done cur s -> (sid < n)%nat -> outqueue sid s = q :: r -> message_at s q = Some (p, sp) ->
  sp_msg_is_complete p <> 0 -> sp_length p = 0 -> drop_message env sid q s = Some s' ->
  out_inv n tsn x done cur s' /\ (forall sid', outqueue sid' s' = if decide (sid' = sid) then r else outqueue sid' s) /\
  os_log s' = os_log s /\ os_said s' = os_said s /\ (forall q', q' <> q -> message_at s' q' = message_at s q').
Proof.
  intros [Hm _] Hi Hs Ho E Hc Hl. destruct (head_spent n tsn _ _ _ _ _ _ _ _ _ Hi Hs Ho E Hc Hl) as (Hfr & old & O1 & O2 & O3).
  pose proof (outqueue_nodup n tsn _ _ _ _ _ Hi Hs) as Hnd. rewrite Ho in Hnd. apply NoDup_cons in Hnd as [Hnq _].
  unfold drop_message. destruct (os_queued s !! q) as [sp0|]; [|done]. cbn [mbind option_bind].
  set (f := fun x : stream_out => with_outqueue (tail (so_outqueue x)) x).
  match goal with |- context [sctp_ss_remove_from_stream ?m ?a ?b ?c] => destruct (sctp_ss_remove_from_stream m a b c) as [a'|] eqn:Er; [|done] end.
  cbn [mbind option_bind]. match goal with |- (?x ≫= _) = _ -> _ => destruct x as [st|] eqn:Est; [|done] end.
  cbn [mbind option_bind]. intros [= <-].
  change (sctp_ss_remove_from_stream (sctp_ss_functions (oe_module env)) (upd_strq (add_queue_cnt (-1) (os_sched s)) sid f) sid (Some q) = Some a') in Er.
  destruct (remove_frame _ _ _ _ _ Hm Er) as (F1 & F2 & F3 & F4 & F5 & F6 & F7). cbn in F1, F2, F3, F4.
  match goal with |- out_inv _ _ _ _ _ ?t /\ _ => set (s' := t) end.
  assert (Hf : os_sched s' = set_pendings a' (delete q (pendings a')) /\ os_queued s' = delete q (os_queued s) /\ os_strms s' = os_strms s
    /\ os_sending_seq s' = os_sending_seq s /\ os_log s' = os_log s /\ os_next s' = os_next s /\ os_said s' = os_said s)
    by (unfold s'; by destruct (sp_holds_key_ref sp0)).
  destruct Hf as (G1 & G2 & G3 & G4 & G5 & G6 & G7).
  assert (Hat : forall q', message_at s' q' = if decide (q' = q) then None else message_at s q').
  { intros q'. unfold message_at. rewrite G1, G2. cbn. rewrite F1. case_decide as Eq; [subst; by rewrite !lookup_delete_eq|].
    by rewrite !lookup_delete_ne. }
  assert (Hq : forall sid', outqueue sid' s' = if decide (sid' = sid) then r else outqueue sid' s).
  { intros sid'. unfold outqueue. rewrite G1. change (strq_of (set_pendings a' _) sid') with (strq_of a' sid'). rewrite F5, strq_of_upd.
    change (strq_of (add_queue_cnt (-1) (os_sched s)) sid') with (strq_of (os_sched s) sid').
    destruct (decide (sid' = sid)) as [-> | Hne]; [rewrite decide_True | rewrite decide_False by naive_solver; done].
    - unfold outqueue in Ho. unfold f. cbn. by rewrite Ho.
    - split; [done|]. by apply (oi_dom _ _ _ _ _ _ Hi). }
  assert (Hsame : forall q', q' <> q -> alike x s s' q') by (intros q' Hne; apply same_alike, same_message_refl; by rewrite Hat, decide_False).
  split_and!; [|exact Hq | exact G5 | exact G7 | by intros q' Hne; rewrite Hat, decide_False].
  destruct Hi. split; rewrite ?G1, ?G3, ?G4, ?G5, ?G6, ?G7; try done.
  - change (serving a'). apply (drop_serves (oe_module env) (add_queue_cnt (-1) (os_sched s)) f sid (Some q)); try done.
    intros so Hso. unfold f. cbn. by rewrite Hso.
  - cbn. congruence.
  - cbn. congruence.
  - intros sid'. rewrite <- oi_dom. change (streams (set_pendings a' _)) with (streams a'). rewrite F7. cbn.
    destruct (decide (sid' = sid)) as [-> | Hne]; [rewrite lookup_alter_eq | by rewrite lookup_alter_ne].
    unfold is_Some. destruct (streams (os_sched s) !! sid); simpl; split; intros [? ?]; eauto; done.
  - intros sid' Hs'. rewrite <- (oi_sid sid' Hs'). change (strq_of (set_pendings a' _) sid') with (strq_of a' sid'). rewrite F6.
    change (strq_of (os_sched s) sid') with (strq_of (add_queue_cnt (-1) (os_sched s)) sid'). by apply (upd_strq_proj so_sid).
  - intros q' p' sp'. rewrite Hat. case_decide as Eq; [done|]. intros E'. destruct (oi_msg q' p' sp' E') as (A & B & C).
    split_and!; [done..|]. rewrite Hq. case_decide as Es; [|done]. rewrite Es, Ho in C. apply elem_of_cons in C as [C|C]; done.
  - intros sid' Hs'. destruct (decide (sid' = sid)) as [-> | Hne].
    + exists [], r, old. rewrite Hq, decide_True by done. rewrite Hfr. unfold said_on. rewrite G7. fold (said_on sid s).
      assert (Hr : forall q', q' ∈ r -> alike x s s' q') by (intros q' Hq'; apply Hsame; congruence).
      split_and!; try done; [|by left | by apply (live_list_same s)]. by rewrite (entries_same s s' x sid).
    + apply (stream_ok_same s); [by rewrite Hq, decide_False | unfold said_on; by rewrite G7 | | auto].
      intros q' Hq'. apply Hsame. intros ->. destruct (oi_msg q p sp E) as (_ & _ & _).
      destruct (queue_msg n tsn x done cur s sid' q) as (p1 & sp1 & E1 & M1); [by split | done | done|].
      destruct (queue_msg n tsn x done cur s sid q) as (p2 & sp2 & E2 & M2); [by split | done | rewrite Ho; left|].
      destruct M1, M2. congruence.
  - intros e He. destruct (oi_cur e He) as (Hcw & q0 & p0 & sp1 & H1 & H2 & H3). split; [done|].
    assert (Hne : e.1.1 <> sid).
    { intros Heq. rewrite He in Hfr. simpl in Hfr. rewrite decide_True in Hfr by done. by destruct Hcw as (_ & _ & ? & _). }
    exists q0, p0, sp1. rewrite Hq, decide_False by done. split_and!; [done | | done]. rewrite Hat, decide_False; [done|].
    intros ->. apply Hne. destruct (oi_msg q p0 sp1 H2) as (_ & B & _).
    destruct (queue_msg n tsn x done cur s e.1.1 q) as (p3 & sp3 & E3 & M3); [by split | by destruct Hcw | destruct (outqueue e.1.1 s); simplify_eq/=; left|].
    destruct (queue_msg n tsn x done cur s sid q) as (p2 & sp2 & E2 & M2); [by split | done | rewrite Ho; left|].
    destruct M3, M2. congruence.
Qed.

End Drop.

(** ** Finding the message to take from *)

Section OneMore.

Lemma no_message_unseen env sid s : quiet_step s (no_message env sid s).
Proof. unfold no_message. destruct (_ && _); [by apply quiet_strm | apply quiet_step_refl]. Qed.

Lemma message_at_both s q p sp : pendings (os_sched s) !! q = Some p -> os_queued s !! q = Some sp -> message_at s q = Some (p, sp).
Proof. unfold message_at. by intros -> ->. Qed.

Lemma message_at_inv s q p sp : message_at s q = Some (p, sp) -> pendings (os_sched s) !! q = Some p /\ os_queued s !! q = Some sp.
Proof.
  unfold message_at. destruct (pendings (os_sched s) !! q); [|done]. cbn. destruct (os_queued s !! q); [|done]. cbn. by intros [= <- <-].
Qed.

Lemma msg_of_at s q p sp : message_at s q = Some (p, sp) -> msg_of q s = p.
Proof. intros [E _]%message_at_inv. unfold msg_of, sp_of. by rewrite E. Qed.

Lemma one_more_behaved fuel env sid locked u s r s' u' :
  one_more_time fuel env sid locked u s = Some (r, s', u') -> os_behaved s' = true -> os_behaved s = true.
Proof.
  revert locked u s. induction fuel as [|fuel IH]; intros locked u s; [done|]. simpl.
  destruct (TAILQ_FIRST (outqueue sid s)) as [q|].
  - destruct (pendings (os_sched s) !! q) as [p|]; [|done]. cbn [mbind option_bind].
    destruct (os_queued s !! q) as [sp|]; [|done]. cbn [mbind option_bind].
    destruct (negb (sp_msg_is_complete p =? 0) && (sp_length p =? 0)).
    + destruct (sp_sender_all_done sp); [|by intros [= <- <- <-]].
      match goal with |- (?x ≫= _) = _ -> _ => destruct x as [[s1 u1]|] eqn:El; [|done] end. cbn [mbind option_bind].
      destruct (drop_message env sid q s1) as [s2|] eqn:Ed; [|done]. cbn [mbind option_bind]. intros H Hb.
      specialize (IH _ _ _ H Hb). rewrite (drop_behaved _ _ _ _ _ Ed) in IH.
      destruct (length (outqueue sid s) =? 1)%nat; [by eapply send_lock_behaved | by injection El as <- <-].
    + destruct (sp_length p =? 0); [by intros [= <- <- <-]|]. destruct (sp_discard_rest sp); [|by intros [= <- <- <-]].
      destruct (send_lock env locked u s) as [[s1 u1]|] eqn:El; [|done]. cbn [mbind option_bind]. intros [= <- <- <-] Hb.
      eapply send_lock_behaved; [done|]. revert Hb. unfold discard_rest. by destruct (oe_tcp_socket env).
  - destruct (send_lock env locked u s) as [[s1 u1]|] eqn:El; [|done]. cbn [mbind option_bind].
    destruct (TAILQ_FIRST (outqueue sid s1)).
    + intros H Hb. eapply send_lock_behaved; eauto.
    + intros [= <- <- <-] Hb. eapply send_lock_behaved; [done|]. revert Hb. unfold no_message. by destruct (_ && _).
Qed.

(** A message with data at the head of the queue, or nothing. *)
Lemma one_more_ok fuel env n tsn done cur sid locked u s r s' u' :
  good_env env -> (sid < n)%nat -> out_inv n tsn None done cur s ->
  one_more_time fuel env sid locked u s = Some (r, s', u') -> os_behaved s' = true ->
  out_inv n tsn None done cur s' /\
  match r with
  | Leave _ => True
  | Take q _ => exists rest p sp, outqueue sid s' = q :: rest /\ message_at s' q = Some (p, sp) /\ 0 < sp_length p
  end.
Proof.
  intros He Hs. revert locked u s. induction fuel as [|fuel IH]; intros locked u s Hi; [done|]. simpl.
  destruct (TAILQ_FIRST (outqueue sid s)) as [q|] eqn:Eq.
  - apply head_first in Eq as [rest Eq].
    destruct (pendings (os_sched s) !! q) as [p|] eqn:Ep; [|done]. cbn [mbind option_bind].
    destruct (os_queued s !! q) as [sp|] eqn:Esp; [|done]. cbn [mbind option_bind].
    pose proof (message_at_both _ _ _ _ Ep Esp) as E.
    destruct (msg_in_queue _ _ _ _ _ _ _ _ _ Hi E) as ([] & _ & _).
    destruct (negb (sp_msg_is_complete p =? 0) && (sp_length p =? 0)) eqn:Ec.
    + apply andb_true_iff in Ec as [Hc%negb_true_iff%Z.eqb_neq Hl%Z.eqb_eq].
      destruct (sp_sender_all_done sp); [|by intros [= <- <- <-]].
      match goal with |- (?x ≫= _) = _ -> _ => destruct x as [[s1 u1]|] eqn:El; [|done] end. cbn [mbind option_bind].
      destruct (drop_message env sid q s1) as [s2|] eqn:Ed; [|done]. cbn [mbind option_bind]. intros H Hb.
      assert (Hb1 : os_behaved s1 = true).
      { rewrite <- (drop_behaved _ _ _ _ _ Ed). by eapply one_more_behaved. }
      assert (H1 : out_inv n tsn None done cur s1 /\ grown s s1).
      { destruct (length (outqueue sid s) =? 1)%nat.
        - by destruct (send_lock_ok env n tsn None done cur locked u s s1 u1) as (? & ? & _).
        - injection El as <- <-. split; [done | apply grown_refl]. }
      destruct H1 as [Hi1 [Q1 Q2 _ _]]. destruct (Q1 sid) as [new Hq1]. rewrite Eq in Hq1.
      destruct (Q2 q p sp E) as (p1 & sp1 & E1 & _ & _ & _ & Hsame). destruct (Hsame Hc) as [-> _].
      destruct (drop_ok env n tsn None done cur sid q (rest ++ new) s1 s2 p sp1) as (Hi2 & _); try done. eauto.
    + destruct (Z.eqb_spec (sp_length p) 0) as [Hl|Hl]; [by intros [= <- <- <-]|]. rewrite mg_keep. intros [= <- <- <-] _.
      split; [done|]. exists rest, p, sp. split_and!; try done. rewrite mg_len in *. unfold chain_len in *. lia.
  - destruct (send_lock env locked u s) as [[s1 u1]|] eqn:El; [|done]. cbn [mbind option_bind].
    destruct (TAILQ_FIRST (outqueue sid s1)) eqn:Eq1.
    + intros H Hb. destruct (send_lock_ok env n tsn None done cur locked u s s1 u1) as (Hi1 & _ & _); try done; eauto using one_more_behaved.
    + intros [= <- <- <-] Hb. split; [|done]. eapply quiet_step_inv; [apply no_message_unseen|].
      assert (Hb1 : os_behaved s1 = true) by (revert Hb; unfold no_message; by destruct (_ && _)).
      by destruct (send_lock_ok env n tsn None done cur locked u s s1 u1) as (? & _).
Qed.

End OneMore.

(** ** How much is taken *)

Definition taken0 (frags : list (list Z)) : Z := match frags with [] => 0 | _ => 1 end.

(** The size of fragments, and the settings. *)
Record good_point (env : out_env) (frag_point : Z) : Prop := GoodPoint {
  gp_range : 0 < frag_point < 65520;
  gp_limit : frag_point <= oe_sb_limit_snd env
}.

(** What [re_look] has chosen: [to_move] bytes, all that is left or not, of the message [q]. *)
Record chosen (n : nat) (tsn : Z) (done : list outgoing) (cur : option outgoing) (sid q : nat) (len to_move flags : Z) (s : out_state) : Prop := Chosen {
  ch_inv : out_inv n tsn (Some q) done cur s;
  ch_msg : exists rest p sp (last_ : bool), outqueue sid s = q :: rest /\ message_at s q = Some (p, sp) /\ len = sp_length p /\
    0 < to_move <= len /\ to_move < 65520 /\
    flags = frag_bits (frags_on sid cur) last_ /\
    sp_some_taken p = (if last_ then taken0 (frags_on sid cur) else 1) /\
    (last_ = true <-> sp_msg_is_complete p <> 0 /\ to_move = len) /\
    (to_move = len -> sp_msg_is_complete p <> 0)
}.

Section ReLook.

Lemma split_spec env len space_left frag_point : frag_point <= oe_sb_limit_snd env -> 0 < space_left -> 0 < frag_point ->
  let r := sctp_can_we_split_this env len space_left frag_point false in r = 0 \/ 0 < r <= frag_point /\ r < len.
Proof.
  intros H1 H2 H3. unfold sctp_can_we_split_this. cbv zeta. destruct (Z.ltb_spec (oe_sb_limit_snd env) frag_point); [lia|].
  destruct (Z.leb_spec len space_left); [by left|]. cbn [orb]. destruct (_ <? _); [by left|]. destruct (_ <=? _); [|by left]. lia.
Qed.

(** [some_taken] of the message at work is free. *)
Lemma retake_ok n tsn done cur s q v : out_inv n tsn (Some q) done cur s -> out_inv n tsn (Some q) done cur (upd_msg q (with_taken v) s).
Proof.
  intros Hi. set (s' := upd_msg q (with_taken v) s).
  assert (Hat : forall q', message_at s' q' = if decide (q' = q) then (fun m => (with_taken v m.1, m.2)) <$> message_at s q' else message_at s q')
    by (intros; apply message_at_upd_msg).
  assert (Hal : forall q', alike (Some q) s s' q').
  { intros q' p sp E. rewrite Hat, E. case_decide as Eq; cbn; [exists (with_taken v p), sp | by exists p, sp].
    split_and!; try done. congruence. }
  destruct Hi. split; try done.
  - intros q' p sp. rewrite Hat. change (outqueue _ s') with (outqueue (sp_sid p) s). case_decide; [|exact (oi_msg q' p sp)].
    destruct (message_at s q') as [[p0 sp0]|] eqn:E; [|done]. cbn. intros [= <- <-]. exact (oi_msg q' p0 sp0 E).
  - intros sid Hs. by apply (stream_ok_same s); auto.
  - intros e He. destruct (oi_cur e He) as (Hc & q0 & p0 & sp0 & H1 & H2 & H3). split; [done|].
    destruct (Hal q0 p0 sp0 H2) as (p' & sp' & E' & (_ & _ & B & _) & _). exists q0, p', sp'. split_and!; [exact H1 | exact E' | congruence].
Qed.

Lemma live_taken n tsn s sid q r p sp cur done : out_inv n tsn None done cur s -> (sid < n)%nat -> outqueue sid s = q :: r ->
  message_at s q = Some (p, sp) -> 0 < sp_length p -> sp_some_taken p = taken0 (frags_on sid cur).
Proof.
  intros Hi Hs Ho E Hl. destruct (head_live n tsn _ _ _ _ _ _ _ _ _ Hi Hs Ho E) as [(p0 & sp0 & E0 & _ & T & _) _]; [by right|].
  rewrite E in E0. simplify_eq. by apply T.
Qed.

Lemma first_bits (frags : list (list Z)) : (if taken0 frags =? 0 then SCTP_DATA_FIRST_FRAG else 0) = frag_bits frags false.
Proof. by destruct frags. Qed.

Lemma last_bits (frags : list (list Z)) : (if taken0 frags =? 0 then SCTP_DATA_NOT_FRAG else SCTP_DATA_LAST_FRAG) = frag_bits frags true.
Proof. by destruct frags. Qed.

Lemma re_look_behaved env space_left frag_point q locked u s r s' u' :
  frag_point <= oe_sb_limit_snd env -> 0 < space_left -> 0 < frag_point ->
  re_look env space_left frag_point false q locked u s = Some (r, s', u') -> os_behaved s' = os_behaved s.
Proof.
  intros H1 H2 H3. unfold re_look. destruct (negb (sp_msg_is_complete (msg_of q s) =? 0)).
  - unfold look_complete. destruct (_ =? sp_length _); by intros [= <- <- <-].
  - destruct (split_spec env (sp_length (msg_of q s)) space_left frag_point) as [Hz|[Hr Hlt]]; [done..| |].
    { rewrite Hz. by intros [= <- <- <-]. }
    rewrite (proj2 (Z.eqb_neq _ 0)) by lia. rewrite (proj2 (Z.leb_gt _ _)) by lia. cbn [mbind option_bind andb].
    destruct (_ =? 0); by intros [= <- <- <-].
Qed.

Lemma re_look_ok env n tsn done cur sid q rest p sp space_left frag_point locked u s r s' u' :
  good_point env frag_point -> 0 < space_left -> (sid < n)%nat ->
  out_inv n tsn None done cur s -> outqueue sid s = q :: rest -> message_at s q = Some (p, sp) -> 0 < sp_length p ->
  re_look env space_left frag_point false q locked u s = Some (r, s', u') ->
  match r with
  | None => s' = s
  | Some (len, to_move, flags, _) => chosen n tsn done cur sid q len to_move flags s'
  end.
Proof.
  intros [Hfp Hlim] Hsp Hs Hi Ho E Hl. pose proof (live_taken _ _ _ _ _ _ _ _ _ _ Hi Hs Ho E Hl) as Ht.
  pose proof (out_inv_free n tsn None (Some q) done cur s (or_introl eq_refl) Hi) as Hi'.
  destruct (msg_in_queue _ _ _ _ _ _ _ _ _ Hi E) as (G & _ & _).
  unfold re_look, look_complete. rewrite (msg_of_at _ _ _ _ E). destruct (message_at_inv _ _ _ _ E) as [_ Esp].
  destruct (Z.eqb_spec (sp_msg_is_complete p) 0) as [Hc|Hc]; cbn [negb].
  - pose proof (split_spec env (sp_length p) space_left frag_point Hlim Hsp ltac:(lia)) as Hk. cbv zeta in Hk.
    revert Hk. generalize (sctp_can_we_split_this env (sp_length p) space_left frag_point false) as k. intros k [->|[Hr Hlt]].
    { by intros [= <- <- <-]. }
    rewrite (proj2 (Z.eqb_neq _ 0)) by lia. rewrite (proj2 (Z.leb_gt _ _)) by lia. cbn [mbind option_bind andb].
    rewrite (msg_of_at _ _ _ _ E), Ht, first_bits, Z.min_l by lia. intros [= <- <- <-].
    destruct (Z.eqb_spec (taken0 (frags_on sid cur)) 0) as [Hz|Hz].
    + split; [by apply retake_ok|]. exists rest, (with_taken 1 p), sp, false.
      rewrite message_at_upd_msg, decide_True, E by done. split_and!; done || lia.
    + split; [done|]. exists rest, p, sp, false. split_and!; try done; try lia.
      rewrite Ht. by destruct (frags_on sid cur).
  - rewrite Ht, Esp. apply mg_quiet, quiet_spec in G as (_ & Hq & _). rewrite Hq.
    destruct (Z.eqb_spec (Z.min (sp_length p) frag_point) (sp_length p)) as [Hm|Hm]; intros [= <- <- <-].
    + rewrite last_bits. split.
      * eapply quiet_step_inv; [by apply same_message_queued | done].
      * exists rest, p, (sp <| sp_put_last_out := true |>), true. rewrite message_at_upd_queued, decide_True, E by done.
        split_and!; try done; lia.
    + rewrite first_bits. split; [by apply retake_ok|]. exists rest, (with_taken 1 p), sp, false.
      rewrite message_at_upd_msg, decide_True, E by done. split_and!; done || lia.
Qed.

End ReLook.

(** ** Taking the data *)

(** Only the entry of [q] among the messages' own fields is different. *)
Definition only_queued (q : nat) (s s' : out_state) : Prop :=
  os_sched s' = os_sched s /\ os_strms s' = os_strms s /\ os_sending_seq s' = os_sending_seq s /\ os_log s' = os_log s /\
  os_next s' = os_next s /\ os_said s' = os_said s /\ forall q', q' <> q -> os_queued s' !! q' = os_queued s !! q'.

(** The message has lost its first [k] bytes, which are those of [data]; its length has not
    been adjusted yet. *)
Definition data_taken (q : nat) (k : Z) (data : list mbuf) (s s' : out_state) : Prop :=
  only_queued q s s' /\ exists p sp d, message_at s q = Some (p, sp) /\ os_queued s' !! q = Some d /\
    chain_ok data /\ data <> [] /\ chain_bytes data = take (Z.to_nat k) (chain_bytes (sp_data sp)) /\
    chain_ok (sp_data d) /\ chain_bytes (sp_data d) = drop (Z.to_nat k) (chain_bytes (sp_data sp)) /\
    sp_tail d = match sp_data d with [] => None | _ => Some 0%nat end /\
    (chain_bytes (sp_data d) = [] -> sp_data d = []) /\
    sp_ppid d = sp_ppid sp /\ sp_discard_rest d = sp_discard_rest sp /\ sp_sinfo_flags d = sp_sinfo_flags sp.

Section TakeData.

Lemma chosen_grown n tsn done cur sid q len to_move flags s s' :
  chosen n tsn done cur sid q len to_move flags s -> to_move = len -> out_inv n tsn (Some q) done cur s' -> grown s s' ->
  chosen n tsn done cur sid q len to_move flags s'.
Proof.
  intros [_ (rest & p & sp & last_ & C1 & C2 & C3 & C4 & C5 & C6 & C7 & C8 & C9)] Hall Hi [G1 G2 _ _].
  split; [done|]. destruct (G1 sid) as [new Hn]. rewrite C1 in Hn.
  destruct (G2 q p sp C2) as (p' & sp' & E' & _ & _ & _ & Hsame). destruct (Hsame (C9 Hall)) as [-> _].
  exists (rest ++ new), p, sp', last_. destruct C4. by split_and!.
Qed.

Lemma chosen_good n tsn done cur sid q len to_move flags s rest p sp : chosen n tsn done cur sid q len to_move flags s ->
  outqueue sid s = q :: rest -> message_at s q = Some (p, sp) -> msg_good sid p sp /\ (sid < n)%nat.
Proof.
  intros [Hi _] Ho E. destruct (msg_in_queue _ _ _ _ _ _ _ _ _ Hi E) as (G & Hs & Hq).
  assert (Hs' : (sid < n)%nat).
  { apply (oi_dom _ _ _ _ _ _ Hi). apply nonempty_in_store. unfold queue_empty. unfold outqueue in Ho. by rewrite Ho. }
  split; [|done]. destruct (queue_msg n tsn _ _ _ _ sid q Hi Hs') as (p' & sp' & E' & G'); [rewrite Ho; left|].
  rewrite E in E'. by simplify_eq.
Qed.

Lemma copy_part_ok n tsn done cur sid q len to_move flags at_ s r :
  chosen n tsn done cur sid q len to_move flags s -> to_move < len -> copy_part at_ q to_move s = Some r ->
  match r.1 with None => r.2 = s | Some data => data_taken q to_move data s r.2 end.
Proof.
  intros Hch Hlt. pose proof Hch as [_ (rest & p & sp & last_ & C1 & C2 & C3 & C4 & C5 & _)].
  destruct (chosen_good _ _ _ _ _ _ _ _ _ _ _ _ _ Hch C1 C2) as [[G1 G2 G3 G4 G5 G6 G7 G8 G9] _].
  destruct (message_at_inv _ _ _ _ C2) as [_ Esp]. unfold copy_part. rewrite Esp. cbn [mbind option_bind].
  assert (Hb : to_move < Z.of_nat (length (chain_bytes (sp_data sp)))) by (fold (chain_len (sp_data sp)); lia).
  destruct (m_copym_slice (at_copy at_) (sp_data sp) 0 to_move) as (c & -> & _ & Hc);
    [done | | unfold chain_len; lia | unfold M_COPYALL; lia | lia|].
  { intros Hn. rewrite Hn in Hb. simpl in Hb. lia. }
  cbn [mbind option_bind]. destruct c as [data|]; [|by intros [= <-]].
  destruct (Hc data eq_refl) as [Hok Hd]. rewrite (proj2 (Z.eqb_neq _ _)), slice_0 in Hd by (unfold M_COPYALL; lia).
  unfold compact. cbn [os_queued upd_queued]. unfold upd_queued at 1. cbn. rewrite lookup_alter_eq, Esp. cbn.
  destruct (m_adj_bytes (sp_data sp) to_move G2) as [Aok Ab]. rewrite (proj2 (Z.leb_le 0 _)) in Ab by lia.
  set (rest' := drop_empty (m_adj (sp_data sp) to_move)).
  assert (Hr : rest' <> []).
  { unfold rest'. rewrite drop_empty_nil, Ab. intros Hnil. pose proof (f_equal length Hnil) as H. rewrite length_drop in H. simpl in H. lia. }
  assert (Ht : sp_tail sp = Some 0%nat).
  { rewrite G5. destruct (sp_data sp) eqn:Ed; [|done]. simpl in Hb. lia. }
  rewrite Ht. cbn [set_field]. rewrite (proj2 (Nat.leb_gt (length rest') 0)) by (destruct rest'; [done | simpl; lia]).
  intros [= <-]. cbn [fst snd]. split.
  - split_and!; try done. intros q' Hne. cbn. by rewrite !lookup_alter_ne.
  - exists p, sp, (sp <| sp_data := rest' |>). cbn. rewrite !lookup_alter_eq, Esp. split_and!; try done.
    + intros ->. pose proof (f_equal length Hd) as H. rewrite length_take in H. cbn in H. lia.
    + by apply drop_empty_ok.
    + exact (eq_trans (drop_empty_bytes _) Ab).
    + rewrite Ht. by destruct rest'.
    + intros Hnil. destruct Hr. change (chain_bytes rest' = []) in Hnil. unfold rest' in *. rewrite drop_empty_bytes in Hnil.
      by apply drop_empty_nil.
Qed.

Lemma copy_part_behaved at_ q k s r : copy_part at_ q k s = Some r -> os_behaved r.2 = os_behaved s.
Proof.
  unfold copy_part, compact. destruct (os_queued s !! q) as [sp|]; [|done]. cbn [mbind option_bind].
  destruct (m_copym _ _ _ _) as [[c|]|]; [|by intros [= <-] | done]. cbn [mbind option_bind].
  match goal with |- ((?x ≫= _) ≫= _) = _ -> _ => destruct x as [sp0|]; [|done] end. cbn [mbind option_bind].
  intros [= <-]. cbn [snd]. by destruct (match sp_tail sp0 with Some _ => _ | None => _ end).
Qed.

Lemma take_data_behaved env at_ q len k locked u s o last_ locked' s' u' :
  take_data env at_ q len k locked u s = Some (o, last_, locked', s', u') -> os_behaved s' = true -> os_behaved s = true.
Proof.
  unfold take_data. destruct (len <=? k).
  - destruct (os_queued s !! q) as [sp|]; [|done]. cbn [mbind option_bind].
    match goal with |- (?x ≫= _) = _ -> _ => destruct x as [[s1 u1]|] eqn:El; [|done] end. cbn [mbind option_bind].
    destruct (pendings (os_sched s1) !! q) as [p|]; [|done]. cbn [mbind option_bind].
    destruct (os_queued s1 !! q) as [sp1|]; [|done]. cbn [mbind option_bind]. intros H Hb.
    assert (Hb1 : os_behaved s1 = true).
    { destruct (k <? sp_length p).
      - destruct (copy_part at_ q k s1) as [r|] eqn:Ec; [|done]. cbn [mbind option_bind] in H. injection H as <- <- <- <- <-.
        by rewrite <- (copy_part_behaved _ _ _ _ _ Ec).
      - destruct (sp_data sp1); [done|]. by injection H as <- <- <- <- <-. }
    destruct (sp_sender_all_done sp); [by injection El as <- <- | by eapply send_lock_behaved].
  - destruct (copy_part at_ q k s) as [r|] eqn:Ec; [|done]. cbn [mbind option_bind]. intros [= <- <- <- <- <-].
    by rewrite (copy_part_behaved _ _ _ _ _ Ec).
Qed.

Lemma take_data_ok env n tsn done cur sid q len to_move flags at_ locked u s o last_ locked' s' u' :
  good_env env -> chosen n tsn done cur sid q len to_move flags s ->
  take_data env at_ q len to_move locked u s = Some (o, last_, locked', s', u') -> os_behaved s' = true ->
  match o with
  | None => chosen n tsn done cur sid q len to_move flags s'
  | Some data => last_ = 0%nat /\ exists s1, chosen n tsn done cur sid q len to_move flags s1 /\ data_taken q to_move data s1 s'
  end.
Proof.
  intros He Hch Hrun Hb. pose proof Hrun as Hrun0. revert Hrun. unfold take_data.
  destruct (Z.leb_spec len to_move) as [Hle|Hlt].
  2: { destruct (copy_part at_ q to_move s) as [[o1 s1]|] eqn:Ec; [|done]. cbn [mbind option_bind fst snd]. intros [= <- <- <- <- <-].
       pose proof (copy_part_ok _ _ _ _ _ _ _ _ _ _ _ _ Hch Hlt Ec) as H. cbn in H. destruct o1; [|by rewrite H].
       split; [done|]. by exists s. }
  pose proof Hch as [Hi (rest & p & sp & lst & C1 & C2 & C3 & C4 & C5 & C6 & C7 & C8 & C9)].
  assert (Hall : to_move = len) by lia. destruct (message_at_inv _ _ _ _ C2) as [_ Esp]. rewrite Esp. cbn [mbind option_bind].
  match goal with |- (?x ≫= _) = _ -> _ => destruct x as [[s1 u1]|] eqn:El; [|done] end. cbn [mbind option_bind].
  destruct (pendings (os_sched s1) !! q) as [p1|] eqn:Ep1; [|done]. cbn [mbind option_bind].
  destruct (os_queued s1 !! q) as [sp1|] eqn:Esp1; [|done]. cbn [mbind option_bind].
  pose proof (message_at_both _ _ _ _ Ep1 Esp1) as E1. intros Hrun.
  assert (Hb1 : os_behaved s1 = true).
  { destruct (to_move <? sp_length p1).
    - destruct (copy_part at_ q to_move s1) as [r|] eqn:Ec; [|done]. cbn [mbind option_bind] in Hrun. injection Hrun as <- <- <- <- <-.
      by rewrite <- (copy_part_behaved _ _ _ _ _ Ec).
    - destruct (sp_data sp1); [done|]. by injection Hrun as <- <- <- <- <-. }
  assert (H1 : chosen n tsn done cur sid q len to_move flags s1).
  { destruct (sp_sender_all_done sp); [by injection El as <- <-|].
    destruct (send_lock_ok env n tsn (Some q) done cur locked u s s1 u1) as (Hi1 & Hg1 & _); try done. by eapply chosen_grown. }
  pose proof H1 as [_ (rest1 & p2 & sp2 & lst1 & D1 & D2 & D3 & D4 & D5 & _)]. rewrite E1 in D2. simplify_eq.
  destruct (chosen_good _ _ _ _ _ _ _ _ _ _ _ _ _ H1 D1 E1) as [[G1 G2 G3 G4 G5 G6 G7 G8 G9] _].
  rewrite (proj2 (Z.ltb_ge _ _)) in Hrun by lia. destruct (sp_data sp2) as [|m0 c0] eqn:Ed; [done|].
  rewrite G5 in Hrun. injection Hrun as <- <- <- <- <-. split; [done|]. exists s1. split; [done|].
  assert (Hlen : Z.to_nat (sp_length p) = length (chain_bytes (sp_data sp2))) by (rewrite Ed; unfold chain_len in G3; lia).
  split.
  - split_and!; try done. intros q' Hne. cbn. by rewrite lookup_alter_ne.
  - exists p2, sp2, (sp2 <| sp_data := [] |> <| sp_tail := None |>). cbn. rewrite lookup_alter_eq, Esp1, <- Ed, Hlen.
    rewrite firstn_all, drop_all. split_and!; try done; by rewrite Ed.
Qed.

End TakeData.

(** ** The next chunk *)

(** What is finished and what is under way when a fragment of [f] has been cut off the
    message of stream [sid]. *)
Definition cut_done (done : list outgoing) (sid : nat) (ppid : Z) (frags : list (list Z)) (f : list Z) (last_ : bool) : list outgoing :=
  if last_ then done ++ [(sid, ppid, frags ++ [f])] else done.
Definition cut_cur (sid : nat) (ppid : Z) (frags : list (list Z)) (f : list Z) (last_ : bool) : option outgoing :=
  if last_ then None else Some (sid, ppid, frags ++ [f]).

(** Nothing is under way on another stream. *)
Definition at_work (sid : nat) (cur : option outgoing) : Prop := match cur with Some e => e.1.1 = sid | None => True end.

Section Cut.

Lemma wire_cut tsn done cur sid ppid f last_ :
  at_work sid cur -> (forall e, cur = Some e -> e.1.2 = ppid) ->
  wire tsn (cut_done done sid ppid (frags_on sid cur) f last_) (cut_cur sid ppid (frags_on sid cur) f last_)
  = wire tsn done cur ++ [next_chunk tsn done sid ppid (frags_on sid cur) f last_].
Proof.
  intros Hw Hp. assert (E : wire tsn done (Some (sid, ppid, frags_on sid cur)) = wire tsn done cur).
  { destruct cur as [[[sid' p'] fr]|]; simpl in *; [|done]. subst sid'. rewrite decide_True by done. specialize (Hp _ eq_refl). simpl in Hp. by subst. }
  rewrite <- E. destruct last_; [apply wire_last | apply wire_more].
Qed.

Lemma texts_cut done sid ppid frags f last_ sid' :
  texts_of sid' (cut_done done sid ppid frags f last_) = texts_of sid' done ++
    (if last_ then if decide (sid' = sid) then [(ppid, concat frags ++ f)] else [] else []).
Proof.
  unfold cut_done, texts_of. destruct last_; [|by rewrite app_nil_r]. rewrite filter_app, map_app, filter_cons, filter_nil. f_equal.
  cbn [fst snd]. repeat case_decide; try congruence; [|done]. cbn. rewrite concat_app. cbn. by rewrite app_nil_r.
Qed.

Lemma count_cut done sid ppid frags f last_ sid' :
  count sid' (cut_done done sid ppid frags f last_) = (count sid' done + if last_ && (sid' =? sid)%nat then 1 else 0)%nat.
Proof. unfold cut_done. destruct last_; [by rewrite count_snoc | simpl; lia]. Qed.

Lemma fragment_cut_ok n tsn done cur sid q len to_move flags s s' p sp sp' c :
  chosen n tsn done cur sid q len to_move flags s -> at_work sid cur -> message_at s q = Some (p, sp) ->
  os_sched s' = set_pendings (os_sched s) (pendings (os_sched s')) ->
  (forall q', q' <> q -> message_at s' q' = message_at s q') ->
  message_at s' q = Some (with_length (sp_length p - to_move) p, sp') ->
  chain_ok (sp_data sp') -> chain_bytes (sp_data sp') = drop (Z.to_nat to_move) (chain_bytes (sp_data sp)) ->
  sp_tail sp' = match sp_data sp' with [] => None | _ => Some 0%nat end ->
  (chain_bytes (sp_data sp') = [] -> sp_data sp' = []) ->
  sp_ppid sp' = sp_ppid sp -> sp_discard_rest sp' = sp_discard_rest sp -> sp_sinfo_flags sp' = sp_sinfo_flags sp ->
  (forall last_, flags = frag_bits (frags_on sid cur) last_ -> forall sid' st, os_strms s !! sid' = Some st -> exists st', os_strms s' !! sid' = Some st' /\
     next_mid_ordered st' = if last_ && (sid' =? sid)%nat then u32 (next_mid_ordered st + 1) else next_mid_ordered st) ->
  os_sending_seq s' = u32 (os_sending_seq s + 1) -> os_log s' = os_log s ++ [c] -> os_next s' = os_next s -> os_said s' = os_said s ->
  (forall last_, flags = frag_bits (frags_on sid cur) last_ ->
     carries c (next_chunk tsn done sid (sp_ppid sp) (frags_on sid cur) (take (Z.to_nat to_move) (chain_bytes (sp_data sp))) last_)) ->
  exists done' cur', out_inv n tsn None done' cur' s' /\ at_work sid cur'.
Proof.
  intros Hch Hw E Hsch Hother E' D1 D2 D3 D4 D5 D6 D7 Hst Hseq Hlog Hnext Hsaid Hc.
  pose proof Hch as [Hi (rest & p0 & sp0 & last_ & C1 & C2 & C3 & C4 & C5 & C6 & C7 & C8 & C9)]. rewrite E in C2. simplify_eq.
  destruct (chosen_good _ _ _ _ _ _ _ _ _ _ _ _ _ Hch C1 E) as [G Hs]. pose proof G as [G1 G2 G3 G4 G5 G6 G7 G8 G9].
  set (frags := frags_on sid cur) in *. set (f := take (Z.to_nat to_move) (chain_bytes (sp_data sp0))) in *.
  destruct (head_live n tsn _ _ _ _ _ _ _ _ _ Hi Hs C1 E) as (_ & old & O1 & O2 & O3); [right; lia|]. fold frags in O1.
  assert (Hcp : forall e, cur = Some e -> e.1.2 = sp_ppid sp0).
  { intros e He. destruct (oi_cur _ _ _ _ _ _ Hi e He) as (_ & q1 & p1 & sp1 & H1 & H2 & H3). rewrite He in Hw. simpl in Hw.
    rewrite Hw, C1 in H1. injection H1 as <-. rewrite E in H2. by simplify_eq. }
  assert (Hf : 0 < Z.of_nat (length f) < 65520) by (unfold f; rewrite length_take; unfold chain_len in *; lia).
  assert (Hp' : msg_good sid (with_length (sp_length p0 - to_move) p0) sp').
  { split; cbn; try done; try lia; try congruence.
    - unfold chain_len in *. rewrite D2, length_drop. lia.
    - intros Hz. apply D4. rewrite D2. apply drop_ge. unfold chain_len in *. lia. }
  assert (Hq : forall sid', outqueue sid' s' = outqueue sid' s) by (intros; unfold outqueue; by rewrite Hsch).
  assert (Hsd : forall sid', said_on sid' s' = said_on sid' s) by (intros; unfold said_on; by rewrite Hsaid).
  assert (Halike : forall q', q' <> q -> alike None s s' q') by (intros; by apply same_alike, same_message_refl, Hother).
  pose proof (outqueue_nodup n tsn _ _ _ _ _ Hi Hs) as Hnd. rewrite C1 in Hnd. apply NoDup_cons in Hnd as [Hnq _].
  assert (Hrest : forall q', q' ∈ rest -> alike None s s' q') by (intros q' Hq'; apply Halike; congruence).
  assert (Hfree : forall l, q ∉ l -> Forall (live_at s (Some q) sid []) l -> Forall (live_at s None sid []) l).
  { intros l Hl H. rewrite Forall_forall in H |- *. intros q' Hq'. destruct (H q' Hq') as (a & b & A & B & C & D). exists a, b.
    split_and!; try done. intros _. apply C. congruence. }
  exists (cut_done done sid (sp_ppid sp0) frags f last_), (cut_cur sid (sp_ppid sp0) frags f last_).
  assert (Hcw : cut_well n (sid, sp_ppid sp0, frags ++ [f])).
  { split_and!; cbn; [done | done | by destruct frags |]. apply Forall_app. split; [|by constructor]. unfold frags, frags_on.
    destruct cur as [e|]; [|done]. case_decide; [|done]. by destruct (oi_cur _ _ _ _ _ _ Hi e eq_refl) as [(_ & _ & _ & ?) _]. }
  split; [|by destruct last_].
  destruct Hi. split; try (rewrite Hsch; done); try done.
  - intros sid' Hs'. destruct (oi_mid sid' Hs') as (st & Est & Hm). destruct (Hst last_ eq_refl sid' st Est) as (st' & Est' & Hm').
    exists st'. split; [done|]. rewrite Hm', count_cut, Hm. destruct (last_ && _); [|f_equal; lia]. width_lia.
  - rewrite Hseq, oi_seq, Hlog, length_app. cbn. width_lia.
  - rewrite Hlog. unfold frags. rewrite wire_cut by done. apply Forall2_app; [done|]. constructor; [|done]. by apply Hc.
  - intros q' p' sp1. destruct (decide (q' = q)) as [-> | Hne].
    + rewrite E'. intros [= <- <-]. rewrite Hnext, Hq. cbn. by eapply oi_msg.
    + rewrite Hother by done. rewrite Hnext, Hq. apply oi_msg.
  - by rewrite Hsaid, Hnext.
  - by rewrite Hsaid.
  - intros sid' Hs'. destruct (decide (sid' = sid)) as [-> | Hne].
    2: { assert (Hfr : frags_on sid' cur = [] /\ frags_on sid' (cut_cur sid (sp_ppid sp0) frags f last_) = []).
         { split; [destruct cur as [e|]; [|done] | destruct last_; [done|]]; cbn; rewrite decide_False; cbn in *; congruence. }
         destruct Hfr as [Hf1 Hf2]. rewrite Hf2, texts_cut, decide_False, <- Hf1 by done.
         replace (if last_ then [] else []) with (@nil (Z * list Z)) by (by destruct last_). rewrite app_nil_r.
         assert (Hnin : q ∉ outqueue sid' s).
         { intros Hin. destruct (queue_msg n tsn (Some q) done cur s sid' q) as (p1 & sp1 & E1 & M1); [by split | done | done|].
           rewrite E in E1. simplify_eq. by destruct M1. }
         apply (stream_ok_same s); [done | done | by intros q' Hq'; apply Halike; congruence |].
         destruct (oi_stream sid' Hs') as (spent & live & old' & S1 & S2 & S3 & S4 & S5). exists spent, live, old'. split_and!; try done.
         assert (Hnl : q ∉ live) by (rewrite S1 in Hnin; set_solver).
         assert (Hat : forall fr q', q' ∈ live -> live_at s (Some q) sid' fr q' -> live_at s None sid' fr q').
         { intros fr q' Hq' (a & b & A & B & C & D). exists a, b. split_and!; try done. intros _. apply C. congruence. }
         destruct live as [|q0 r0]; [done|]. destruct S5 as [S5 S6]. split; [apply Hat; [left | done]|].
         rewrite Forall_forall in S6 |- *. intros q' Hq'. apply Hat; [by right | auto]. }
    rewrite texts_cut, decide_True by done.
    assert (Hent : forall fr, entry s' fr q = (q, (sp_sid p0, sp_ppid sp0, concat fr ++ drop (Z.to_nat to_move) (chain_bytes (sp_data sp0)))))
      by (intros fr; unfold entry; by rewrite E', D2, D5).
    assert (Hent0 : entry s frags q = (q, (sp_sid p0, sp_ppid sp0, concat frags ++ f ++ drop (Z.to_nat to_move) (chain_bytes (sp_data sp0)))))
      by (unfold entry, f; by rewrite E, take_drop).
    assert (Hmap : map (entry s' []) rest = map (entry s []) rest).
    { apply map_ext_in. intros q' Hq'%list_elem_of_In. unfold entry. rewrite Hother; [done|]. congruence. }
    destruct last_.
    + destruct (proj1 C8 eq_refl) as [Hcomp Hall]. exists [q], rest, (old ++ [entry s frags q]). rewrite Hq, C1, Hsd, O1.
      assert (Hlive : Forall (live_at s' None sid []) rest).
      { specialize (Hfree rest Hnq O3). rewrite Forall_forall in Hfree |- *. intros q' Hq'. apply (live_at_same s); auto. }
      split_and!; [done | | | |].
      * rewrite <- app_assoc. f_equal. simpl. f_equal. rewrite <- Hmap. by destruct rest.
      * rewrite map_app, O2. f_equal. simpl. rewrite Hent0. unfold text_of. simpl. do 3 f_equal. rewrite drop_ge; [by rewrite app_nil_r|].
        unfold chain_len in *. lia.
      * right. split; [done|]. exists q. split; [done|]. exists (with_length (sp_length p0 - to_move) p0), sp'. split_and!; try done. cbn. lia.
      * destruct rest as [|q1 r1]; [done|]. by apply Forall_cons in Hlive.
    + rewrite app_nil_r. exists [], (q :: rest), old. rewrite Hq, C1, Hsd, O1. cbn [cut_cur frags_on fst]. rewrite decide_True by done. cbn [snd].
      split_and!; [done | | done | by left |].
      * f_equal. simpl. rewrite Hent0, Hent, Hmap, concat_app, <- app_assoc. cbn [concat]. by rewrite app_nil_r.
      * split.
        -- exists (with_length (sp_length p0 - to_move) p0), sp'. split_and!; try done.
           ++ intros _. cbn. rewrite C7. by destruct frags.
           ++ cbn. destruct (decide (to_move = sp_length p0)) as [Heq|Hneq]; [|left; lia]. right. split; [by destruct frags|].
              exfalso. assert (Hbad : false = true) by (apply C8; auto). done.
        -- specialize (Hfree rest Hnq O3). rewrite Forall_forall in Hfree |- *. intros q' Hq'. apply (live_at_same s); auto.
  - unfold cut_done. destruct last_; [|done]. apply Forall_app. split; [done|]. by constructor.
  - intros e He. destruct last_; [done|]. injection He as <-. split; [done|]. exists q, (with_length (sp_length p0 - to_move) p0), sp'.
    cbn. rewrite Hq, C1. by split_and!.
Qed.

End Cut.

Section Build.

Lemma untake_ok n tsn done cur sid q len to_move flags s : chosen n tsn done cur sid q len to_move flags s ->
  out_inv n tsn None done cur (upd_msg q (with_taken (taken0 (frags_on sid cur))) s).
Proof.
  intros Hch. pose proof Hch as [Hi (rest & p & sp & last_ & C1 & C2 & C3 & C4 & _)].
  destruct (chosen_good _ _ _ _ _ _ _ _ _ _ _ _ _ Hch C1 C2) as [G Hs].
  set (s' := upd_msg q (with_taken (taken0 (frags_on sid cur))) s). pose proof (retake_ok n tsn done cur s q (taken0 (frags_on sid cur)) Hi) as Hi'.
  fold s' in Hi'. assert (E' : message_at s' q = Some (with_taken (taken0 (frags_on sid cur)) p, sp)).
  { unfold s'. by rewrite message_at_upd_msg, decide_True, C2. }
  pose proof (outqueue_nodup n tsn _ _ _ _ _ Hi' Hs) as Hnd. change (outqueue sid s') with (outqueue sid s) in Hnd.
  rewrite C1 in Hnd. apply NoDup_cons in Hnd as [Hnq _].
  assert (Hat : forall sid' fr q', q' <> q -> live_at s' (Some q) sid' fr q' -> live_at s' None sid' fr q').
  { intros sid' fr q' Hne (a & b & A & B & C & D). exists a, b. split_and!; try done. intros _. apply C. congruence. }
  pose proof Hi' as Hi2. destruct Hi'. split; try done. intros sid' Hs'. destruct (decide (sid' = sid)) as [-> | Hne].
  - destruct (head_live n tsn (Some q) done cur s' sid q rest _ _ Hi2 Hs C1 E') as ((a & b & A & B & C & D) & old & O1 & O2 & O3); [right; cbn; lia|].
    exists [], (q :: rest), old. split_and!; [done | done | done | by left |]. rewrite E' in A. simplify_eq. split.
    + exists (with_taken (taken0 (frags_on sid cur)) p), b. by split_and!.
    + rewrite Forall_forall in O3 |- *. intros q' Hq'. apply Hat; [congruence | auto].
  - destruct (oi_stream sid' Hs') as (spent & live & old & S1 & S2 & S3 & S4 & S5). exists spent, live, old. split_and!; try done.
    assert (Hnl : forall q', q' ∈ live -> q' <> q).
    { intros q' Hq' ->. destruct (queue_msg n tsn (Some q) done cur s' sid' q) as (p1 & sp1 & E1 & M1); [done | done | rewrite S1; set_solver|].
      rewrite E' in E1. simplify_eq. destruct M1, G. by simplify_eq. }
    destruct live as [|q0 r0]; [done|]. destruct S5 as [S5 S6]. split; [apply Hat; [apply Hnl; left | done]|].
    rewrite Forall_forall in S6 |- *. intros q' Hq'. apply Hat; [apply Hnl; by right | auto].
Qed.

Lemma data_header_length s sid flags tsn mid ppid fsn size : idata s = false -> length (data_header s sid flags tsn mid ppid fsn size) = 16%nat.
Proof. intros H. unfold data_header. by rewrite H. Qed.

(** The header and the payload are the chunk on the wire. *)
Lemma header_bytes s sid frags last_ tsn mid ppid fsn f :
  idata s = false -> Z.of_nat (length f) < 65520 ->
  data_header s sid (frag_bits frags last_) tsn (u32 mid) ppid fsn (u16 (Z.of_nat (length f) + 16)) ++ f =
    encode_data (frag_bits frags last_) tsn sid (u16 mid) ppid f.
Proof.
  intros H Hf. unfold data_header, encode_data. rewrite H, <- !app_assoc. f_equal. f_equal; [f_equal; width_lia|].
  do 2 f_equal. f_equal. f_equal. width_lia.
Qed.

Lemma assign_mid_plain frags last_ st :
  assign_mid false (frag_bits frags last_) st =
    (next_mid_ordered st, if last_ then st <| next_mid_ordered := u32 (next_mid_ordered st + 1) |> else st).
Proof. by destruct frags, last_. Qed.

Lemma build_behaved env at_ sid q to_move flags by_ref last_ data s r :
  build_chunk env at_ sid q to_move flags by_ref last_ data s = Some r -> os_behaved r.2 = os_behaved s.
Proof.
  unfold build_chunk. destruct (os_queued s !! q) as [sp|]; [|done]. cbn [mbind option_bind].
  destruct (pendings (os_sched s) !! q) as [p|]; [|done]. cbn [mbind option_bind].
  destruct (os_strms s !! sid) as [st|]; [|done]. cbn [mbind option_bind].
  destruct (assign_mid (idata s) flags st) as [mid st']. destruct (prepend _ _ _ _) as [d|]; [|by intros [= <-]].
  match goal with |- (?x ≫= _) = _ -> _ => destruct x as [[[d' l'] b']|]; [|done] end. cbn [mbind option_bind]. intros [= <-]. cbn [snd].
  set (s1 := upd_strm sid (fun _ => st') (sctp_snd_sb_alloc env (SCTP_DATA_CHUNK_OVERHEAD s) s)).
  assert (E : os_behaved s1 = os_behaved s) by (apply (sb_alloc_behaved env)). rewrite <- E.
  set (s2 := hold_key (sp_holds_key_ref sp) (sp_auth_keyid sp) s1 <| os_sending_seq := u32 (os_sending_seq s + 1) |>).
  assert (E2 : os_behaved s2 = os_behaved s1) by exact (hold_key_behaved _ _ _).
  change (os_behaved (if idata s2 then upd_queued q (fun sp => sp <| sp_fsn := u32 (sp_fsn sp + 1) |>) s2 else s2) = os_behaved s1).
  by destruct (idata s2).
Qed.

(** The state after the chunk has been built, as far as it matters. *)
Lemma build_state env at_ sid q to_move flags by_ref m r s p d st k :
  idata s = false -> os_queued s !! q = Some d -> pendings (os_sched s) !! q = Some p -> os_strms s !! sid = Some st ->
  k = data_header s (so_sid (strq_of (os_sched s) sid)) flags (os_sending_seq s) (assign_mid false flags st).1 (sp_ppid d) (sp_fsn d) (u16 (to_move + 16)) ->
  chain_ok (m :: r) -> 16 <= M_LEADINGSPACE env m ->
  exists c s', build_chunk env at_ sid q to_move flags by_ref 0 (m :: r) s = Some (Some c, s') /\
    carries c (k ++ chain_bytes (m :: r)) /\
    os_sched s' = os_sched s /\ os_queued s' = os_queued s /\ os_strms s' = alter (fun _ => (assign_mid false flags st).2) sid (os_strms s) /\
    os_sending_seq s' = u32 (os_sending_seq s + 1) /\ os_log s' = os_log s ++ [c] /\ os_next s' = os_next s /\ os_said s' = os_said s.
Proof.
  intros Hid Hd Hp Hst Hk Hok Hlead. unfold build_chunk. rewrite Hd, Hp, Hst, Hid. cbn [mbind option_bind].
  destruct (assign_mid false flags st) as [mid st']. cbn [fst snd] in *.
  assert (Hov : SCTP_DATA_CHUNK_OVERHEAD s = 16) by (unfold SCTP_DATA_CHUNK_OVERHEAD; by rewrite Hid). rewrite Hov.
  destruct (prepend_ok env (at_head at_) m r k) as (data & Hpre & Hbytes & Hlen); [done | rewrite Hk, data_header_length by done; lia|].
  rewrite Hk in Hpre. rewrite Hpre.
  set (s1 := sctp_snd_sb_alloc env 16 s). destruct (sb_alloc_unseen env 16 s) as (U1 & U2 & U3 & U4 & U5 & U6 & U7). fold s1 in U1, U2, U3, U4, U5, U6, U7.
  set (s2 := hold_key (sp_holds_key_ref d) (sp_auth_keyid d) (upd_strm sid (fun _ => st') s1) <| os_sending_seq := u32 (os_sending_seq s + 1) |>).
  assert (V : os_sched s2 = os_sched s /\ os_queued s2 = os_queued s /\ os_strms s2 = alter (fun _ => st') sid (os_strms s) /\
    os_sending_seq s2 = u32 (os_sending_seq s + 1) /\ os_log s2 = os_log s /\ os_next s2 = os_next s /\ os_said s2 = os_said s).
  { unfold s2. destruct (sp_holds_key_ref d); cbn; rewrite U1, U2, U3, U5, U6, U7; done. }
  destruct V as (V1 & V2 & V3 & V4 & V5 & V6 & V7).
  assert (Hid2 : idata s2 = false) by (unfold idata; by rewrite V1). rewrite Hid2.
  set (size := u16 (to_move + 16)).
  assert (Hpad : exists d' l b, (if size <? SCTP_SIZE32 size then sctp_pad_lastmbuf env (at_pad at_) data 0 (SCTP_SIZE32 size - size)
      else Some (data, 0%nat, false)) = Some (d', l, b) /\ exists j, Z.of_nat j < 4 /\ chain_bytes d' = chain_bytes data ++ repeat 0 j).
  { destruct (Z.ltb_spec size (SCTP_SIZE32 size)) as [Hlt|Hge].
    - apply pad_ok; [rewrite Hlen; simpl; lia | lia | done].
    - exists data, 0%nat, false. split; [done|]. exists 0%nat. split; [lia|]. by rewrite app_nil_r. }
  destruct Hpad as (d' & l & b & -> & j & Hj & Hb). cbn [mbind option_bind].
  eexists _, _. split; [done|]. split_and!; [| done | done | done | done | cbn; by rewrite V5 | done | done].
  exists j. split; [lia|]. change (chain_bytes d' = (k ++ chain_bytes (m :: r)) ++ repeat 0 j). by rewrite Hb, Hbytes.
Qed.

End Build.

(** ** One call of [sctp_move_to_outqueue] *)

Section Move.

Lemma queue_chunk_behaved env sid q chk locked u s r :
  queue_chunk env sid q chk locked u s = Some r -> os_behaved r.1 = true -> os_behaved s = true.
Proof.
  unfold queue_chunk. set (s0 := if PR_SCTP_ENABLED (dc_flags chk) then _ else s).
  assert (E0 : os_behaved s0 = os_behaved s) by (unfold s0; by case_match).
  destruct (pendings (os_sched s0) !! q) as [p|]; [|done]. cbn [mbind option_bind].
  destruct (os_queued s0 !! q) as [sp|]; [|done]. cbn [mbind option_bind]. rewrite <- E0.
  destruct (_ && _ && _).
  - match goal with |- (((?x ≫= _) ≫= _) = _) -> _ => destruct x as [[s1 u1]|] eqn:El; [|done] end. cbn [mbind option_bind].
    destruct (drop_message env sid q s1) as [s2|] eqn:Ed; [|done]. cbn [mbind option_bind]. intros [= <-] Hb.
    change (os_behaved s2 = true) in Hb. rewrite (drop_behaved _ _ _ _ _ Ed) in Hb.
    destruct (length (outqueue sid s0) =? 1)%nat; [by eapply send_lock_behaved | by injection El as <- <-].
  - cbn [mbind option_bind]. by intros [= <-].
Qed.

Lemma queue_chunk_ok env n tsn done cur sid q rest chk locked u s r :
  good_env env -> (sid < n)%nat -> out_inv n tsn None done cur s -> outqueue sid s = q :: rest ->
  queue_chunk env sid q chk locked u s = Some r -> os_behaved r.1 = true -> out_inv n tsn None done cur r.1.
Proof.
  intros He Hs Hi Ho. unfold queue_chunk. set (s0 := if PR_SCTP_ENABLED (dc_flags chk) then _ else s).
  assert (Hun : unseen s s0) by (unfold s0; by case_match).
  assert (Hi0 : out_inv n tsn None done cur s0) by (eapply quiet_step_inv; [by apply unseen_quiet | done]).
  assert (Ho0 : outqueue sid s0 = q :: rest) by (unfold outqueue; destruct Hun as (-> & _); done).
  destruct (pendings (os_sched s0) !! q) as [p|] eqn:Ep; [|done]. cbn [mbind option_bind].
  destruct (os_queued s0 !! q) as [sp|] eqn:Esp; [|done]. cbn [mbind option_bind].
  pose proof (message_at_both _ _ _ _ Ep Esp) as E.
  assert (Hend : forall s2, out_inv n tsn None done cur s2 ->
    out_inv n tsn None done cur (upd_strm sid (fun st => st <| chunks_on_queues := u32 (chunks_on_queues st + 1) |>) s2
          <| os_chunks_on_out_queue := u32 (os_chunks_on_out_queue s2 + 1) |>
          <| os_send_queue := os_send_queue s2 ++ [chk] |> <| os_send_queue_cnt := u32 (os_send_queue_cnt s2 + 1) |>)).
  { intros s2 Hi2. eapply quiet_step_inv; [|exact Hi2].
    apply (quiet_step_trans _ (upd_strm sid (fun st => st <| chunks_on_queues := u32 (chunks_on_queues st + 1) |>) s2));
      [by apply quiet_strm | by apply quiet_eq]. }
  destruct (negb (sp_msg_is_complete p =? 0) && (sp_length p =? 0) && sp_sender_all_done sp) eqn:Ec.
  - apply andb_true_iff in Ec as [[Hc%negb_true_iff%Z.eqb_neq Hl%Z.eqb_eq]%andb_true_iff _].
    match goal with |- (((?x ≫= _) ≫= _) = _) -> _ => destruct x as [[s1 u1]|] eqn:El; [|done] end. cbn [mbind option_bind].
    destruct (drop_message env sid q s1) as [s2|] eqn:Ed; [|done]. cbn [mbind option_bind]. intros [= <-] Hb.
    change (os_behaved s2 = true) in Hb. rewrite (drop_behaved _ _ _ _ _ Ed) in Hb. apply Hend.
    assert (H1 : out_inv n tsn None done cur s1 /\ grown s0 s1).
    { destruct (length (outqueue sid s0) =? 1)%nat.
      - by destruct (send_lock_ok env n tsn None done cur locked u s0 s1 u1) as (? & ? & _).
      - injection El as <- <-. split; [done | apply grown_refl]. }
    destruct H1 as [Hi1 [Q1 Q2 _ _]]. destruct (Q1 sid) as [new Hq1]. rewrite Ho0 in Hq1.
    destruct (Q2 q p sp E) as (p1 & sp1 & E1 & _ & _ & _ & Hsame). destruct (Hsame Hc) as [-> _].
    by destruct (drop_ok env n tsn None done cur sid q (rest ++ new) s1 s2 p sp1) as (Hi2 & _).
  - cbn [mbind option_bind]. intros [= <-] _. by apply Hend.
Qed.

Lemma log_length n tsn x done cur s sid : out_inv n tsn x done cur s -> at_work sid cur ->
  length (os_log s) = (total done + length (frags_on sid cur))%nat.
Proof.
  intros Hi Hw. rewrite (Forall2_length _ _ _ (oi_wire _ _ _ _ _ _ Hi)), wire_length. f_equal.
  destruct cur as [e|]; [|done]. simpl in *. by rewrite decide_True.
Qed.

Lemma make_behaved env at_ sid q some_taken to_move flags by_ref last_ data locked u s m s' u' :
  make_chunk env at_ sid q some_taken to_move flags by_ref last_ data locked u s = Some (m, s', u') ->
  os_behaved s' = true -> os_behaved s = true.
Proof.
  unfold make_chunk. destruct (header_room _ _ _ _) as [d|].
  - destruct (build_chunk _ _ _ _ _ _ _ _ _ _) as [[[chk|] s1]|] eqn:Eb; [| |done]; cbn [mbind option_bind];
      rewrite <- (build_behaved _ _ _ _ _ _ _ _ _ _ _ Eb).
    + destruct (queue_chunk _ _ _ _ _ _ _) as [r|] eqn:Eq; [|done]. cbn [mbind option_bind]. intros [= <- <- <-].
      by eapply queue_chunk_behaved.
    + by intros [= <- <- <-].
  - destruct (send_lock _ _ _ _) as [[s1 u1]|] eqn:El; [|done]. cbn [mbind option_bind].
    destruct (unsteal _ _ _ _ _ _) as [s2|] eqn:Eu; [|done]. cbn [mbind option_bind]. intros [= <- <- <-] Hb.
    eapply send_lock_behaved; [done|]. revert Eu Hb. unfold unsteal. destruct (os_queued s1 !! q); [|done]. cbn [mbind option_bind].
    by intros [= <-].
Qed.

Lemma take_chunk_behaved env at_ sid q some_taken len to_move flags locked u s m s' u' :
  take_chunk env at_ sid q some_taken len to_move flags locked u s = Some (m, s', u') ->
  os_behaved s' = true -> os_behaved s = true.
Proof.
  unfold take_chunk. destruct (negb (at_chunk at_)); [by intros [= <- <- <-]|].
  destruct (os_queued s !! q) as [sp|]; [|done]. cbn [mbind option_bind].
  destruct (take_data _ _ _ _ _ _ _ _) as [[[[[o l0] locked1] s1] u1]|] eqn:Et; [|done]. cbn [mbind option_bind]. intros H Hb.
  eapply take_data_behaved; [exact Et|]. destruct o as [data|]; [|by injection H as <- <- <-].
  by apply make_behaved in H.
Qed.

(** The data that have been taken become the next chunk. *)
Lemma built_ok env n tsn done cur sid q len to_move flags at_ by_ref data s0 s1 :
  good_env env -> chosen n tsn done cur sid q len to_move flags s0 -> at_work sid cur -> at_head at_ = true ->
  data_taken q to_move data s0 s1 ->
  let s2 := upd_msg q (fun p => with_length (if len <? to_move then 0 else u32 (sp_length p - to_move)) p) s1 in
  exists d' c s3 done' cur', header_room env (at_head at_) data (SCTP_DATA_CHUNK_OVERHEAD s2) = Some d' /\
    build_chunk env at_ sid q to_move flags by_ref 0 d' s2 = Some (Some c, s3) /\
    out_inv n tsn None done' cur' s3 /\ at_work sid cur' /\ (forall sid', outqueue sid' s3 = outqueue sid' s0) /\
    os_log s3 = os_log s0 ++ [c] /\ os_said s3 = os_said s0 /\ exists k, pendings (os_sched s3) = alter (with_length k) q (pendings (os_sched s1)).
Proof.
  intros He Hch0 Hw Hat2 (Hun & p1 & sp1 & d & E1 & Ed & D1 & D2 & D3 & D4 & D5 & D6 & D7 & D8 & D9 & D10) s2.
  destruct Hun as (U1 & U2 & U3 & U4 & U5 & U6 & U7).
  pose proof Hch0 as [Hi0 (rest0 & p0 & sp0 & lst & B1 & B2 & B3 & B4 & B5 & B6 & _)]. rewrite E1 in B2. simplify_eq.
  destruct (chosen_good _ _ _ _ _ _ _ _ _ _ _ _ _ Hch0 B1 E1) as [[G1 G2 G3 G4 G5 G6 G7 G8 G9] Hs].
  destruct (message_at_inv _ _ _ _ E1) as [Ep1 _].
  assert (Hid : idata s2 = false) by (unfold idata; cbn; rewrite U1, (oi_idata _ _ _ _ _ _ Hi0); done).
  assert (Hov : SCTP_DATA_CHUNK_OVERHEAD s2 = 16) by (unfold SCTP_DATA_CHUNK_OVERHEAD; by rewrite Hid). rewrite Hov, Hat2.
  destruct (header_room_ok env true data 16) as [[_ ?]|(m0 & r0 & Hh & Hok & Hbytes & Hlead)]; [apply He | done | done | lia | done|].
  rewrite Hh. destruct (oi_mid _ _ _ _ _ _ Hi0 sid Hs) as (st & Est & Hmid).
  set (flags := frag_bits (frags_on sid cur) lst) in *.
  assert (Hlen : (if sp_length p0 <? to_move then 0 else u32 (sp_length p0 - to_move)) = sp_length p0 - to_move).
  { rewrite (proj2 (Z.ltb_ge _ _)) by lia. apply u32_id. unfold in_u32, M_COPYALL in *. lia. }
  destruct (build_state env at_ sid q to_move flags by_ref m0 r0 s2 (with_length (sp_length p0 - to_move) p0) d st
    (data_header s2 (so_sid (strq_of (os_sched s2) sid)) flags (os_sending_seq s2) (assign_mid false flags st).1 (sp_ppid d) (sp_fsn d)
       (u16 (to_move + 16)))) as (c & s3 & Hbuild & Hcar & V1 & V2 & V3 & V4 & V5 & V6 & V7); try done.
  { unfold s2. cbn. by rewrite lookup_alter_eq, U1, Ep1, <- Hlen. }
  { unfold s2. cbn. by rewrite U2. }
  assert (Hsched : os_sched s3 = set_pendings (os_sched s0) (pendings (os_sched s3))).
  { rewrite V1. unfold s2, upd_msg, on_sched. cbn. by rewrite U1. }
  assert (Hat3 : forall q', message_at s3 q' = message_at s2 q') by (intros; unfold message_at; by rewrite V1, V2).
  assert (Hat : forall q', message_at s2 q' = if decide (q' = q) then Some (with_length (sp_length p0 - to_move) p0, d) else message_at s0 q').
  { intros q'. unfold s2. rewrite message_at_upd_msg. case_decide as Eqq.
    - subst. assert (E2 : message_at s1 q = Some (p0, d)) by (apply message_at_both; [by rewrite U1 | done]). rewrite E2. cbn. by rewrite Hlen.
    - unfold message_at. by rewrite U1, U7. }
  assert (Hbit : forall l', flags = frag_bits (frags_on sid cur) l' -> l' = lst)
    by (unfold flags, frag_bits; clear; intros l'; destruct (frags_on sid cur), lst, l'; done).
  edestruct (fragment_cut_ok n tsn done cur sid q (sp_length p0) to_move flags s0 s3 p0 sp0 d c) as (done' & cur' & Hi3 & Hw3); try done.
  - intros q' Hne. by rewrite Hat3, Hat, decide_False.
  - by rewrite Hat3, Hat, decide_True.
  - intros lst' Hf sid' st0 Hst0. rewrite (Hbit _ Hf). rewrite V3. unfold s2. cbn. rewrite U2. destruct (Nat.eqb_spec sid' sid) as [-> | Hne].
    + rewrite Hst0 in Est. simplify_eq. rewrite lookup_alter_eq, Hst0. eexists. split; [done|].
      rewrite assign_mid_plain. by destruct lst.
    + rewrite lookup_alter_ne by done. rewrite andb_false_r. by exists st0.
  - rewrite V4. unfold s2. cbn. by rewrite U3.
  - rewrite V5. unfold s2. cbn. by rewrite U4.
  - rewrite V6. unfold s2. cbn. by rewrite U5.
  - rewrite V7. unfold s2. cbn. by rewrite U6.
  - intros lst' Hf. rewrite (Hbit _ Hf).
    rewrite Hbytes, D3 in Hcar. set (f := take (Z.to_nat to_move) (chain_bytes (sp_data sp0))) in *.
    assert (Hf' : Z.of_nat (length f) = to_move) by (unfold f; rewrite length_take; unfold chain_len in *; lia).
    rewrite <- Hf' in Hcar. unfold flags in Hcar. rewrite assign_mid_plain in Hcar. cbn [fst] in Hcar. rewrite Hmid in Hcar.
    rewrite header_bytes in Hcar by (done || lia). unfold next_chunk.
    assert (Hseq : os_sending_seq s2 = u32 (tsn + Z.of_nat (total done + length (frags_on sid cur)))).
    { unfold s2. cbn. rewrite U3, (oi_seq _ _ _ _ _ _ Hi0). by rewrite (log_length _ _ _ _ _ _ sid Hi0 Hw). }
    assert (Hsid : so_sid (strq_of (os_sched s2) sid) = Z.of_nat sid).
    { unfold s2. change (strq_of (os_sched (upd_msg _ _ s1)) sid) with (strq_of (os_sched s1) sid). rewrite U1. by apply (oi_sid _ _ _ _ _ _ Hi0). }
    rewrite Hseq, Hsid, D8 in Hcar. exact Hcar.
  - exists (m0 :: r0), c, s3, done', cur'. split_and!; try done.
    + intros sid'. unfold outqueue. by rewrite Hsched.
    + rewrite V5. unfold s2. cbn. by rewrite U4.
    + rewrite V7. unfold s2. cbn. by rewrite U6.
    + exists (sp_length p0 - to_move). rewrite V1. unfold s2. cbn. rewrite U1. apply map_eq. intros q'.
      destruct (decide (q' = q)) as [-> | Hne]; [by rewrite !lookup_alter_eq, Ep1; cbn; rewrite Hlen | by rewrite !lookup_alter_ne].
Qed.

Lemma take_chunk_ok env n tsn done cur sid q len to_move flags at_ locked u s m s' u' :
  good_env env -> chosen n tsn done cur sid q len to_move flags s -> (sid < n)%nat -> at_work sid cur ->
  at_chunk at_ = true -> at_head at_ = true ->
  take_chunk env at_ sid q (taken0 (frags_on sid cur)) len to_move flags locked u s = Some (m, s', u') -> os_behaved s' = true ->
  exists done' cur', out_inv n tsn None done' cur' s' /\ at_work sid cur'.
Proof.
  intros He Hch Hs Hw Hat1 Hat2. pose proof Hch as [_ (rest & p & sp & last_ & C1 & C2 & _)].
  destruct (chosen_good _ _ _ _ _ _ _ _ _ _ _ _ _ Hch C1 C2) as [G _]. destruct (message_at_inv _ _ _ _ C2) as [_ Esp].
  unfold take_chunk. rewrite Hat1, Esp. cbn [negb mbind option_bind].
  destruct (quiet_spec _ (mg_quiet _ _ _ G)) as (Q1 & _ & Q3). rewrite Q1, Q3, andb_false_r.
  destruct (take_data env at_ q len to_move locked u s) as [[[[[o l0] locked1] s1] u1]|] eqn:Et; [|done]. cbn [mbind option_bind].
  assert (Htd : os_behaved s1 = true -> match o with
    | None => chosen n tsn done cur sid q len to_move flags s1
    | Some data => l0 = 0%nat /\ exists s0, chosen n tsn done cur sid q len to_move flags s0 /\ data_taken q to_move data s0 s1
    end) by (by eapply take_data_ok).
  destruct o as [data|].
  2: { intros [= <- <- <-] Hb. exists done, cur. split; [|done]. eapply untake_ok. by apply Htd. }
  intros Hrun Hb. destruct (Htd (make_behaved _ _ _ _ _ _ _ _ _ _ _ _ _ _ _ _ Hrun Hb)) as [-> (s0 & Hch0 & Hdt)].
  destruct (built_ok env n tsn done cur sid q len to_move flags at_ (match data with m :: _ => bool_decide (is_Some (m_ext m)) | [] => false end)
    data s0 s1 He Hch0 Hw Hat2 Hdt) as (d' & c & s3 & done' & cur' & Hh & Hbuild & Hi3 & Hw3 & Hq3 & _).
  unfold make_chunk in Hrun. rewrite Hh, Hbuild in Hrun. cbn [mbind option_bind] in Hrun.
  destruct (queue_chunk _ _ _ _ _ _ _) as [r|] eqn:Eq; [|done]. cbn [mbind option_bind] in Hrun. injection Hrun as <- <- <-.
  exists done', cur'. split; [|done]. pose proof Hch0 as [_ (rest0 & _ & _ & _ & B1 & _)].
  eapply (queue_chunk_ok env n tsn done' cur' sid q rest0); try done. by rewrite Hq3.
Qed.

End Move.

Section Fill.

Lemma move_behaved env at_ sid space_left frag_point s m s' u' :
  good_point env frag_point -> 0 < space_left ->
  sctp_move_to_outqueue env at_ sid space_left frag_point false s = Some (m, s', u') -> os_behaved s' = true -> os_behaved s = true.
Proof.
  intros [Hfp Hlim] Hsp. unfold sctp_move_to_outqueue.
  destruct (one_more_time _ _ _ _ _ _) as [[[[m0|q locked] s1] u1]|] eqn:E1; [| |done]; cbn [mbind option_bind].
  { intros [= <- <- <-]. by eapply one_more_behaved. }
  destruct (re_look _ _ _ _ _ _ _ _) as [[[r s2] u2]|] eqn:E2; [|done]. cbn [mbind option_bind].
  pose proof (re_look_behaved _ _ _ _ _ _ _ _ _ _ Hlim Hsp (proj1 Hfp) E2) as E3.
  assert (H12 : os_behaved s2 = true -> os_behaved s = true) by (rewrite E3; by eapply one_more_behaved).
  destruct r as [[[[len k] flags] locked2]|]; [|intros [= <- <- <-]; done]. intros H Hb. apply H12. by eapply take_chunk_behaved.
Qed.

(** One call takes nothing, or makes the next chunk. *)
Lemma move_ok env n tsn done cur at_ sid space_left frag_point s m s' u' :
  good_env env -> good_point env frag_point -> 0 < space_left -> (sid < n)%nat -> out_inv n tsn None done cur s -> at_work sid cur ->
  at_chunk at_ = true -> at_head at_ = true ->
  sctp_move_to_outqueue env at_ sid space_left frag_point false s = Some (m, s', u') -> os_behaved s' = true ->
  exists done' cur', out_inv n tsn None done' cur' s' /\ at_work sid cur'.
Proof.
  intros He Hp Hsp Hs Hi Hw Ha1 Ha2. unfold sctp_move_to_outqueue.
  destruct (one_more_time _ _ _ _ _ _) as [[[r1 s1] u1]|] eqn:E1; [|done]. cbn [mbind option_bind].
  assert (H1 : os_behaved s1 = true -> out_inv n tsn None done cur s1 /\
    match r1 with Leave _ => True | Take q _ => exists rest p sp, outqueue sid s1 = q :: rest /\ message_at s1 q = Some (p, sp) /\ 0 < sp_length p end).
  { intros Hb. by eapply one_more_ok. }
  destruct r1 as [m1|q locked]; [intros [= <- <- <-] Hb; exists done, cur; by destruct (H1 Hb)|].
  destruct (re_look _ _ _ _ _ _ _ _) as [[[r2 s2] u2]|] eqn:E2; [|done]. cbn [mbind option_bind].
  pose proof (re_look_behaved _ _ _ _ _ _ _ _ _ _ (gp_limit _ _ Hp) Hsp (proj1 (gp_range _ _ Hp)) E2) as E3. intros H Hb.
  assert (Hb1 : os_behaved s1 = true).
  { rewrite <- E3. destruct r2 as [[[[len k] flags] locked2]|]; [by eapply take_chunk_behaved | by injection H as <- <- <-]. }
  destruct (H1 Hb1) as (Hi1 & rest & p & sp & Ho & E & Hl).
  pose proof (re_look_ok env n tsn done cur sid q rest p sp space_left frag_point locked u1 s1 r2 s2 u2 Hp Hsp Hs Hi1 Ho E Hl E2) as H2.
  destruct r2 as [[[[len k] flags] locked2]|]; [|injection H as <- <- <-; subst; by exists done, cur].
  rewrite (msg_of_at _ _ _ _ E), (live_taken _ _ _ _ _ _ _ _ _ _ Hi1 Hs Ho E Hl) in H. by eapply take_chunk_ok.
Qed.

End Fill.

(** ** A call returns

    While the application is silent, nothing the code does can fail but the allocations it
    provides for. *)

(** No message gets a destination. *)
Definition nets_kept (s s' : out_state) : Prop :=
  forall q p', pendings (os_sched s') !! q = Some p' -> exists p, pendings (os_sched s) !! q = Some p /\ sp_net p' = sp_net p.

Definition idle_step (s s' : out_state) : Prop :=
  os_said s' = os_said s /\ os_behaved s' = os_behaved s /\ (forall sid, outqueue sid s = [] -> outqueue sid s' = []) /\ nets_kept s s'.

Lemma nets_same s s' : pendings (os_sched s') = pendings (os_sched s) -> nets_kept s s'.
Proof. intros E q p'. rewrite E. by exists p'. Qed.

Lemma nets_alter s s' q f : (forall p, sp_net (f p) = sp_net p) -> pendings (os_sched s') = alter f q (pendings (os_sched s)) -> nets_kept s s'.
Proof.
  intros Hf E q' p'. rewrite E. destruct (decide (q' = q)) as [-> | Hne].
  - rewrite lookup_alter_eq. destruct (pendings (os_sched s) !! q) as [p|]; [|done]. intros [= <-]. by exists p.
  - rewrite lookup_alter_ne by done. by exists p'.
Qed.

Lemma idle_same s s' : os_said s' = os_said s -> os_behaved s' = os_behaved s -> os_sched s' = os_sched s -> idle_step s s'.
Proof. intros E1 E2 E3. split_and!; [done | done | intros sid; unfold outqueue; by rewrite E3 | apply nets_same; by rewrite E3]. Qed.

Lemma idle_trans a b c : idle_step a b -> idle_step b c -> idle_step a c.
Proof.
  intros (A1 & A2 & A3 & A4) (B1 & B2 & B3 & B4). split_and!; [congruence | congruence | auto |].
  intros q p'' H. destruct (B4 q p'' H) as (p' & H' & E'). destruct (A4 q p' H') as (p & Hp & E). exists p. split; congruence.
Qed.

Section Total.
Context (env : out_env) (n : nat) (tsn : Z) (He : good_env env).

Lemma lock_silent locked s : send_lock env locked [] s = Some (s, []).
Proof. by destruct locked. Qed.

Lemma drop_total x done cur sid q r s p sp :
  out_inv n tsn x done cur s -> (sid < n)%nat -> outqueue sid s = q :: r -> message_at s q = Some (p, sp) ->
  exists s', drop_message env sid q s = Some s'.
Proof.
  intros Hi Hs Ho E. destruct (message_at_inv _ _ _ _ E) as [_ Esp]. unfold drop_message. rewrite Esp. cbn [mbind option_bind].
  set (f := fun x : stream_out => with_outqueue (tail (so_outqueue x)) x).
  change (os_sched (on_sched _ s)) with (upd_strq (add_queue_cnt (-1) (os_sched s)) sid f).
  assert (Hwi : wheel_inv (upd_strq (add_queue_cnt (-1) (os_sched s)) sid f)).
  { apply wheel_inv_upd; [done|]. exact (proj1 (oi_serving _ _ _ _ _ _ Hi)). }
  assert (Hrem : exists a', sctp_ss_remove_from_stream (ss env) (upd_strq (add_queue_cnt (-1) (os_sched s)) sid f) sid (Some q) = Some a').
  { assert (E1 : sctp_ss_remove_from_stream (ss env) = sctp_ss_default_remove).
    { unfold ss. destruct He as [Hm _]. destruct (oe_module env); done || discriminate Hm. }
    rewrite E1. destruct (wr_ok _ sid (Some q) Hwi) as (a' & Ha & _). by exists a'. }
  destruct Hrem as [a' ->]. cbn [mbind option_bind]. destruct (oi_mid _ _ _ _ _ _ Hi sid Hs) as (st & Est & _).
  change (os_strms (on_sched _ s)) with (os_strms s). rewrite Est. by eexists.
Qed.

Lemma drop_nets sid q s s' : drop_message env sid q s = Some s' -> nets_kept s s'.
Proof.
  unfold drop_message. destruct (os_queued s !! q) as [sp|]; [|done]. cbn [mbind option_bind].
  destruct (sctp_ss_remove_from_stream _ _ _ _) as [a'|] eqn:Er; [|done]. cbn [mbind option_bind].
  match goal with |- (?x ≫= _) = _ -> _ => destruct x as [st|]; [|done] end. cbn [mbind option_bind]. intros [= <-].
  destruct (remove_frame _ _ _ _ _ (ge_module _ He) Er) as (F1 & _). intros q' p'.
  match goal with |- pendings (os_sched ?t) !! _ = _ -> _ => assert (E : os_sched t = set_pendings a' (delete q (pendings a'))) by (by destruct (sp_holds_key_ref sp)); rewrite E end.
  cbn. rewrite F1. intros H. apply lookup_delete_Some in H as [_ H]. by exists p'.
Qed.

Lemma one_more_total done cur sid locked s : (sid < n)%nat -> out_inv n tsn None done cur s ->
  exists r s', one_more_time (move_fuel sid s) env sid locked [] s = Some (r, s', []) /\ idle_step s s' /\ os_log s' = os_log s /\
    match r with Leave m => m = gave_up \/ m = Moved 0 false false /\ outqueue sid s' = [] | Take _ _ => True end.
Proof.
  intros Hs Hi. unfold move_fuel.
  assert (Hno : forall k locked s1, outqueue sid s1 = [] ->
    one_more_time (S k) env sid locked [] s1 = Some (Leave (Moved 0 false false), no_message env sid s1, [])).
  { intros k lk s1 Ho. simpl. rewrite Ho. cbn [TAILQ_FIRST head]. rewrite lock_silent. cbn [mbind option_bind]. by rewrite Ho. }
  assert (Hno' : forall s1, idle_step s1 (no_message env sid s1) /\ os_log (no_message env sid s1) = os_log s1 /\
    outqueue sid (no_message env sid s1) = outqueue sid s1).
  { intros s1. unfold no_message. destruct (_ && _); (split; [by apply idle_same | done]). }
  assert (Hhead : forall k locked s1 q rest p sp, out_inv n tsn None done cur s1 -> outqueue sid s1 = q :: rest -> message_at s1 q = Some (p, sp) ->
    sp_length p <> 0 \/ sp_msg_is_complete p = 0 -> exists r, one_more_time (S k) env sid locked [] s1 = Some (r, s1, []) /\
      match r with Leave m => m = gave_up | Take _ _ => True end).
  { intros k lk s1 q rest p sp Hi1 Ho E Hc. destruct (message_at_inv _ _ _ _ E) as [Ep Esp]. simpl. rewrite Ho. cbn [TAILQ_FIRST head].
    rewrite Ep, Esp. cbn [mbind option_bind].
    assert (Hcond : negb (sp_msg_is_complete p =? 0) && (sp_length p =? 0) = false).
    { destruct (Z.eqb_spec (sp_msg_is_complete p) 0), (Z.eqb_spec (sp_length p) 0); try done. by destruct Hc. }
    rewrite Hcond. destruct (sp_length p =? 0); [by eexists|]. destruct (msg_in_queue _ _ _ _ _ _ _ _ _ Hi1 E) as (G & _).
    rewrite (mg_keep _ _ _ G). by eexists. }
  destruct (outqueue sid s) as [|q rest] eqn:Ho.
  { exists (Leave (Moved 0 false false)), (no_message env sid s). rewrite Hno by done. destruct (Hno' s) as (H1 & H2 & H3).
    split; [done|]. split; [exact H1|]. split; [done|]. right. by rewrite H3. }
  destruct (queue_msg n tsn _ _ _ _ sid q Hi Hs) as (p & sp & E & G); [rewrite Ho; left|].
  assert (Hrefl : idle_step s s) by (by apply idle_same).
  destruct (decide (sp_length p <> 0 \/ sp_msg_is_complete p = 0)) as [Hc|Hc].
  { destruct (Hhead (S (length (q :: rest))) locked s q rest p sp) as (r & Hr & Hm); [done..|]. exists r, s.
    split; [exact Hr|]. split; [done|]. split; [done|]. destruct r; [by left | done]. }
  assert (Hc1 : sp_msg_is_complete p <> 0 /\ sp_length p = 0).
  { destruct (Z.eq_dec (sp_length p) 0), (Z.eq_dec (sp_msg_is_complete p) 0); naive_solver. }
  destruct Hc1 as [Hc1 Hc2]. destruct (message_at_inv _ _ _ _ E) as [Ep Esp]. cbn [length].
  remember (S (S (length rest))) as k eqn:Ek. cbn [one_more_time]. rewrite Ho. cbn [TAILQ_FIRST head].
  rewrite Ep, Esp. cbn [mbind option_bind]. rewrite (proj2 (Z.eqb_neq _ _) Hc1), (proj2 (Z.eqb_eq _ _) Hc2). cbn [negb andb].
  destruct (sp_sender_all_done sp).
  2: { exists (Leave gave_up), s. split; [done|]. split; [done|]. split; [done|]. by left. }
  destruct (drop_total None done cur sid q rest s p sp Hi Hs Ho E) as [s1 Hd].
  assert (Hlock : (if (length (q :: rest) =? 1)%nat then send_lock env locked [] s else Some (s, [])) = Some (s, []))
    by (destruct (_ =? 1)%nat; [apply lock_silent | done]).
  rewrite Hlock. cbn [mbind option_bind]. rewrite Hd. cbn [mbind option_bind].
  destruct (drop_ok env n tsn None done cur sid q rest s s1 p sp) as (Hi1 & Hq1 & Hlog & Hsaid & Hmsg); [done..|].
  assert (Hid : idle_step s s1).
  { split_and!; [done | by eapply drop_behaved | | by eapply drop_nets].
    intros sid' Hempty. rewrite Hq1. case_decide as Eq; [subst; congruence | done]. }
  assert (Ho1 : outqueue sid s1 = rest) by (by rewrite Hq1, decide_True).
  destruct rest as [|q1 rest1].
  { exists (Leave (Moved 0 false false)), (no_message env sid s1). rewrite Ek, Hno by done. destruct (Hno' s1) as (H1 & H2 & H3).
    split; [done|]. split; [exact (idle_trans _ _ _ Hid H1)|]. split; [congruence|]. right. by rewrite H3. }
  destruct (head_spent n tsn _ _ _ _ _ _ _ _ _ Hi Hs Ho E Hc1 Hc2) as (_ & old & _ & _ & [Hlive _]).
  destruct Hlive as (p1 & sp1 & E1 & G1 & _ & Hlen).
  assert (Hc' : sp_length p1 <> 0 \/ sp_msg_is_complete p1 = 0) by (left; destruct Hlen as [?|[? _]]; [lia | done]).
  pose proof (outqueue_nodup n tsn _ _ _ _ _ Hi Hs) as Hnd. rewrite Ho in Hnd. apply NoDup_cons in Hnd as [Hnq _].
  rewrite <- Hmsg in E1 by (intros ->; apply Hnq; left).
  destruct (Hhead (S (length (q1 :: rest1))) false s1 q1 rest1 p1 sp1) as (r & Hr & Hm); [done..|].
  exists r, s1. rewrite Ek. split; [exact Hr|]. split; [exact Hid|]. split; [done|]. destruct r; [by left | done].
Qed.

Lemma copy_part_total done cur sid q len to_move flags at_ s :
  chosen n tsn done cur sid q len to_move flags s -> to_move < len -> exists r, copy_part at_ q to_move s = Some r.
Proof.
  intros Hch Hlt. pose proof Hch as [_ (rest & p & sp & last_ & C1 & C2 & C3 & C4 & C5 & _)].
  destruct (chosen_good _ _ _ _ _ _ _ _ _ _ _ _ _ Hch C1 C2) as [[G1 G2 G3 G4 G5 G6 G7 G8 G9] _].
  destruct (message_at_inv _ _ _ _ C2) as [_ Esp]. unfold copy_part. rewrite Esp. cbn [mbind option_bind].
  destruct (m_copym_slice (at_copy at_) (sp_data sp) 0 to_move) as (c & -> & _ & _);
    [done | | unfold chain_len; lia | unfold M_COPYALL; lia | lia|].
  { intros Hn. rewrite Hn in G3. change (chain_len []) with 0 in G3. lia. }
  cbn [mbind option_bind]. destruct c as [data|]; [|by eexists]. unfold compact, upd_queued at 1. cbn. rewrite lookup_alter_eq, Esp. cbn.
  by eexists.
Qed.

(** What a call changes besides the messages. *)
Definition same_outline (s s' : out_state) : Prop := idle_step s s' /\ os_log s' = os_log s.

Lemma outline_queued s s' : os_sched s' = os_sched s -> os_log s' = os_log s -> os_said s' = os_said s -> os_behaved s' = os_behaved s ->
  same_outline s s'.
Proof. intros E1 E2 E3 E4. split; [by apply idle_same | done]. Qed.

Lemma outline_taken q v s : same_outline s (upd_msg q (with_taken v) s).
Proof. split; [|done]. split_and!; [done | done | done |]. by eapply (nets_alter _ _ q (with_taken v)). Qed.

Lemma copy_part_outline at_ q k s r : copy_part at_ q k s = Some r -> same_outline s r.2.
Proof.
  unfold copy_part, compact. destruct (os_queued s !! q) as [sp|]; [|done]. cbn [mbind option_bind].
  destruct (m_copym _ _ _ _) as [[c|]|]; [|intros [= <-]; by apply outline_queued | done]. cbn [mbind option_bind].
  match goal with |- ((?x ≫= _) ≫= _) = _ -> _ => destruct x as [sp0|]; [|done] end. cbn [mbind option_bind].
  intros [= <-]. cbn [snd]. destruct (match sp_tail sp0 with Some _ => _ | None => _ end); [|by apply outline_queued].
  split; [|done]. split_and!; [done | done | done|]. by eapply (nets_alter _ _ q (with_length 0)).
Qed.

Lemma take_data_total done cur sid q len to_move flags at_ locked s : chosen n tsn done cur sid q len to_move flags s ->
  exists o l locked' s', take_data env at_ q len to_move locked [] s = Some (o, l, locked', s', []) /\ same_outline s s'.
Proof.
  intros Hch. pose proof Hch as [_ (rest & p & sp & last_ & C1 & C2 & C3 & C4 & _)].
  destruct (message_at_inv _ _ _ _ C2) as [Ep Esp]. destruct (chosen_good _ _ _ _ _ _ _ _ _ _ _ _ _ Hch C1 C2) as [G _].
  unfold take_data. destruct (Z.leb_spec len to_move) as [Hle|Hlt].
  - rewrite Esp. cbn [mbind option_bind].
    assert (Hlock : (if sp_sender_all_done sp then Some (s, []) else send_lock env locked [] s) = Some (s, []))
      by (destruct (sp_sender_all_done sp); [done | apply lock_silent]).
    rewrite Hlock. cbn [mbind option_bind]. rewrite Ep, Esp. cbn [mbind option_bind]. rewrite (proj2 (Z.ltb_ge _ _)) by lia.
    destruct (sp_data sp) as [|m0 c0] eqn:Ed.
    { pose proof (mg_len _ _ _ G) as Hl. rewrite Ed in Hl. change (chain_len []) with 0 in Hl. lia. }
    eexists _, _, _, _. split; [done|]. by apply outline_queued.
  - destruct (copy_part_total done cur sid q len to_move flags at_ s Hch Hlt) as [r Hr]. rewrite Hr. cbn [mbind option_bind].
    eexists _, _, _, _. split; [done|]. by eapply copy_part_outline.
Qed.

Lemma queue_chunk_total done cur sid q rest chk locked s : (sid < n)%nat -> out_inv n tsn None done cur s -> outqueue sid s = q :: rest ->
  exists s', queue_chunk env sid q chk locked [] s = Some (s', []) /\ idle_step s s' /\ os_log s' = os_log s.
Proof.
  intros Hs Hi Ho. unfold queue_chunk. set (s0 := if PR_SCTP_ENABLED (dc_flags chk) then _ else s).
  assert (Hun : unseen s s0 /\ os_behaved s0 = os_behaved s) by (unfold s0; by case_match). destruct Hun as [Hun Hb0].
  assert (Hi0 : out_inv n tsn None done cur s0) by (eapply quiet_step_inv; [by apply unseen_quiet | done]).
  assert (Ho0 : forall sid', outqueue sid' s0 = outqueue sid' s) by (intros; unfold outqueue; destruct Hun as (-> & _); done).
  destruct (queue_msg n tsn _ _ _ _ sid q Hi0 Hs) as (p & sp & E & G); [rewrite Ho0, Ho; left|].
  destruct (message_at_inv _ _ _ _ E) as [Ep Esp]. rewrite Ep, Esp. cbn [mbind option_bind].
  destruct Hun as (U1 & _ & _ & _ & U5 & _ & U7).
  destruct (negb (sp_msg_is_complete p =? 0) && (sp_length p =? 0) && sp_sender_all_done sp) eqn:Ec.
  - apply andb_true_iff in Ec as [[Hc%negb_true_iff%Z.eqb_neq Hl%Z.eqb_eq]%andb_true_iff _].
    assert (Hlock : (if (length (outqueue sid s0) =? 1)%nat then send_lock env locked [] s0 else Some (s0, [])) = Some (s0, []))
      by (destruct (_ =? 1)%nat; [apply lock_silent | done]).
    rewrite Hlock. cbn [mbind option_bind]. rewrite Ho0 in *.
    destruct (drop_total None done cur sid q rest s0 p sp Hi0 Hs) as [s1 Hd]; [by rewrite Ho0 | done|]. rewrite Hd. cbn [mbind option_bind].
    eexists. split; [done|].
    destruct (drop_ok env n tsn None done cur sid q rest s0 s1 p sp) as (_ & Hq1 & Hlog & Hsaid & _); [done | done | done | by rewrite Ho0 | done..|].
    split; [|cbn; congruence]. split_and!; [cbn; congruence | cbn; rewrite (drop_behaved _ _ _ _ _ Hd); congruence | |].
    + intros sid' Hempty. change (outqueue sid' s1 = []). rewrite Hq1. case_decide as Eq; [subst; congruence | by rewrite Ho0].
    + change (nets_kept s s1). intros q' p' H. apply (drop_nets _ _ _ _ Hd) in H as (p1 & Hp1 & En). exists p1. by rewrite <- U1.
  - cbn [mbind option_bind]. eexists. split; [done|]. split; [by apply idle_same | done].
Qed.

Lemma take_chunk_total done cur sid q len to_move flags at_ locked s :
  chosen n tsn done cur sid q len to_move flags s -> (sid < n)%nat -> at_work sid cur -> os_behaved s = true ->
  at_chunk at_ = true -> at_head at_ = true ->
  exists m s', take_chunk env at_ sid q (taken0 (frags_on sid cur)) len to_move flags locked [] s = Some (m, s', []) /\ idle_step s s' /\
    (m = bailed /\ os_log s' = os_log s \/ length (os_log s') = S (length (os_log s))).
Proof.
  intros Hch Hs Hw Hb Hat1 Hat2. pose proof Hch as [_ (rest & p & sp & last_ & C1 & C2 & _)].
  destruct (chosen_good _ _ _ _ _ _ _ _ _ _ _ _ _ Hch C1 C2) as [G _]. destruct (message_at_inv _ _ _ _ C2) as [_ Esp].
  unfold take_chunk. rewrite Hat1, Esp. cbn [negb mbind option_bind].
  destruct (quiet_spec _ (mg_quiet _ _ _ G)) as (Q1 & _ & Q3). rewrite Q1, Q3, andb_false_r.
  destruct (take_data_total done cur sid q len to_move flags at_ locked s Hch) as (o & l0 & locked1 & s1 & Et & [Ho1 Hl1]).
  rewrite Et. cbn [mbind option_bind]. assert (Hb1 : os_behaved s1 = true) by (destruct Ho1 as (_ & -> & _); done).
  pose proof (take_data_ok env n tsn done cur sid q len to_move flags at_ locked [] s o l0 locked1 s1 [] He Hch Et Hb1) as Htd.
  destruct o as [data|].
  2: { eexists _, _. split; [done|]. split; [|by left]. apply (idle_trans _ _ _ Ho1). split_and!; [done | done | done |].
       by eapply (nets_alter _ _ q (with_taken _)). }
  destruct Htd as [-> (s0 & Hch0 & Hdt)].
  destruct (built_ok env n tsn done cur sid q len to_move flags at_ (match data with m :: _ => bool_decide (is_Some (m_ext m)) | [] => false end)
    data s0 s1 He Hch0 Hw Hat2 Hdt) as (d' & c & s3 & done' & cur' & Hh & Hbuild & Hi3 & Hw3 & Hq3 & Hl3 & Hsd3 & k3 & Hp3).
  unfold make_chunk. rewrite Hh, Hbuild. cbn [mbind option_bind]. pose proof Hch0 as [_ (rest0 & _ & _ & _ & B1 & _)].
  destruct (queue_chunk_total done' cur' sid q rest0 c locked1 s3) as (s4 & Hqc & Ho4 & Hl4); [done | done | by rewrite Hq3|].
  rewrite Hqc. cbn [mbind option_bind fst snd]. eexists _, _. split; [done|].
  destruct Hdt as [(U1 & _ & _ & U4 & _ & U6 & _) _].
  assert (Ho3 : idle_step s1 s3).
  { split_and!; [congruence | exact (build_behaved _ _ _ _ _ _ _ _ _ _ _ Hbuild) | |].
    - intros sid'. rewrite Hq3. unfold outqueue. by rewrite U1.
    - eapply (nets_alter _ _ q); [|by rewrite Hp3]. done. }
  split; [exact (idle_trans _ _ _ Ho1 (idle_trans _ _ _ Ho3 Ho4))|]. right. rewrite Hl4, Hl3, length_app, <- U4, Hl1. simpl. lia.
Qed.

Lemma re_look_total space_left frag_point done cur sid q rest p sp locked s :
  good_point env frag_point -> 0 < space_left -> (sid < n)%nat ->
  out_inv n tsn None done cur s -> outqueue sid s = q :: rest -> message_at s q = Some (p, sp) -> 0 < sp_length p ->
  exists r s', re_look env space_left frag_point false q locked [] s = Some (r, s', []) /\ same_outline s s'.
Proof.
  intros [Hfp Hlim] Hsp Hs Hi Ho E Hl. unfold re_look, look_complete.
  destruct (negb (sp_msg_is_complete (msg_of q s) =? 0)).
  - destruct (_ =? sp_length _); eexists _, _; (split; [done|]); [by apply outline_queued | apply outline_taken].
  - destruct (split_spec env (sp_length (msg_of q s)) space_left frag_point) as [Hz|[Hr Hlt]]; [done | done | lia | |].
    { rewrite Hz. eexists _, _. split; [done|]. by apply outline_queued. }
    rewrite (proj2 (Z.eqb_neq _ 0)) by lia. rewrite (proj2 (Z.leb_gt _ _)) by lia. cbn [mbind option_bind andb].
    eexists _, _. split; [done|]. destruct (_ =? 0); [apply outline_taken | by apply outline_queued].
Qed.

(** A call that does not give up has made a chunk, or has found the queue empty. *)
Lemma move_total done cur at_ sid space_left frag_point s :
  good_point env frag_point -> 0 < space_left -> (sid < n)%nat -> out_inv n tsn None done cur s -> at_work sid cur ->
  os_behaved s = true -> at_chunk at_ = true -> at_head at_ = true -> at_users at_ = [] ->
  exists m s', sctp_move_to_outqueue env at_ sid space_left frag_point false s = Some (m, s', []) /\ idle_step s s' /\
    (mv_giveup m || mv_bail m = true \/ os_log s' = os_log s /\ outqueue sid s' = [] \/ length (os_log s') = S (length (os_log s))).
Proof.
  intros Hp Hsp Hs Hi Hw Hb Ha1 Ha2 Ha3. unfold sctp_move_to_outqueue. rewrite Ha3.
  destruct (one_more_total done cur sid false s Hs Hi) as (r1 & s1 & E1 & Ho1 & Hl1 & Hr1). rewrite E1. cbn [mbind option_bind].
  assert (Hb1 : os_behaved s1 = true) by (destruct Ho1 as (_ & -> & _); done).
  pose proof (one_more_ok _ env n tsn done cur sid false [] s r1 s1 [] He Hs Hi E1 Hb1) as [Hi1 Hok].
  destruct r1 as [m|q locked].
  { eexists _, _. split; [done|]. split; [exact Ho1|]. destruct Hr1 as [->|[-> Hempty]]; [by left|]. right. by left. }
  destruct Hok as (rest & p & sp & Ho & E & Hl).
  destruct (re_look_total space_left frag_point done cur sid q rest p sp locked s1 Hp Hsp Hs Hi1 Ho E Hl) as (r2 & s2 & E2 & Ho2 & Hl2).
  rewrite E2. cbn [mbind option_bind]. pose proof (re_look_ok env n tsn done cur sid q rest p sp space_left frag_point locked [] s1 r2 s2 [] Hp Hsp Hs Hi1 Ho E Hl E2) as H2.
  destruct r2 as [[[[len k] flags] locked2]|].
  2: { eexists _, _. split; [done|]. split; [exact (idle_trans _ _ _ Ho1 Ho2)|]. by left. }
  rewrite (msg_of_at _ _ _ _ E), (live_taken _ _ _ _ _ _ _ _ _ _ Hi1 Hs Ho E Hl).
  destruct (take_chunk_total done cur sid q len k flags at_ locked2 s2) as (m & s3 & E3 & Ho3 & Hm); try done.
  { destruct Ho2 as (_ & -> & _). done. }
  exists m, s3. split; [exact E3|]. split; [exact (idle_trans _ _ _ Ho1 (idle_trans _ _ _ Ho2 Ho3))|].
  destruct Hm as [[-> _]|Hm]; [by left|]. right. right. by rewrite Hm, Hl2, Hl1.
Qed.

End Total.
