(* ===== verification/TsnMapProps.v ===== *)
(** * The receiver's memory of TSNs

    The operations of [TsnMap], in any order, implement a set of TSNs without bound:
    a chunk is called a duplicate exactly when its TSN is in the set, and a slide puts
    the cumulative TSN right before the first one missing. *)

From S2P Require Import Prelude Serial TsnMap TsnMapInv.

Open Scope sctp_scope.

(** ** Events on the arrays, as the stack causes them *)

Inductive rcv_event :=
| Data (tsn : Z) (ok1 ok2 : bool) (taken : option bool)
  (** a DATA chunk; [taken] is [None] when it is refused for a reason outside the
      arrays, else whether it goes to the renegable array *)
| NonRevokable (tsn : Z)
| Slide
| Forward (sbspace tsn : Z)
| Drain (queued : list (Z * list Z)).

Inductive answer := AnsDup | AnsFar | AnsNoMem | AnsRefused | AnsTaken | AnsOld | AnsAbort | AnsDone.

Definition data_step (a : tsn_map) (tsn : Z) (ok1 ok2 : bool) (taken : option bool)
  : option (answer * tsn_map) :=
  r ← data_chunk_lookup ok1 ok2 a tsn 0;
  let '(v, _, a) := (r : tsn_verdict * Z * tsn_map) in
  match v, taken with
  | Duplicate, _ => Some (AnsDup, a)
  | TooFar, _ => Some (AnsFar, a)
  | NoMemory, _ => Some (AnsNoMem, a)
  | Fresh _, None => Some (AnsRefused, a)
  | Fresh gap, Some renegable =>
      a ← (if (renegable : bool) then mark_r a gap tsn else mark_nr a gap tsn);
      Some (AnsTaken, data_chunk_cumack a tsn)
  end.

Definition step (drain : Z) (a : tsn_map) (e : rcv_event) : option (answer * tsn_map) :=
  match e with
  | Data tsn ok1 ok2 taken => data_step a tsn ok1 ok2 taken
  | NonRevokable tsn => a ← sctp_mark_non_revokable drain a tsn; Some (AnsDone, a)
  | Slide => a ← sctp_slide_mapping_arrays a; Some (AnsDone, a)
  | Forward sbspace tsn =>
      r ← forward_tsn_map sbspace a tsn;
      Some match r with
           | FwdOld => (AnsOld, a)
           | FwdAbort a => (AnsAbort, a)
           | FwdDone a => (AnsDone, a)
           end
  | Drain queued => a ← sctp_drain_mbufs_map a queued; Some (AnsDone, a)
  end.

(** A run ends with the association when a forward TSN is refused. *)
Fixpoint run (drain : Z) (a : tsn_map) (es : list rcv_event) : option (list answer * tsn_map) :=
  match es with
  | [] => Some ([], a)
  | e :: es =>
      r ← step drain a e;
      match r with
      | (AnsAbort, a) => Some ([AnsAbort], a)
      | (ans, a) => r ← run drain a es; Some (ans :: r.1, r.2)
      end
  end.

(** What the callers take care of: only a TSN that has arrived is made non-renegable,
    only TSNs that the renegable array alone holds are reneged on, and the arrays slide
    while no highest TSN lags more than 2^30 behind. *)
Definition in_arrays (a : tsn_map) (tsn : Z) : bool :=
  SCTP_CALC_TSN_TO_GAP tsn (mapping_array_base_tsn a) <? 8 * mapping_array_size a.

Definition lags_little (a : tsn_map) (h : Z) : bool :=
  negb (SCTP_TSN_GT (mapping_array_base_tsn a) h)
  || (u32 (mapping_array_base_tsn a - h) <=? 1073741824).

Definition event_ok (a : tsn_map) (e : rcv_event) : bool :=
  match e with
  | Data tsn _ _ _ => (0 <=? tsn) && (tsn <=? MAX_TSN)
  | NonRevokable tsn =>
      (0 <=? tsn) && (tsn <=? MAX_TSN)
      && ((in_arrays a tsn && seen a (SCTP_CALC_TSN_TO_GAP tsn (mapping_array_base_tsn a)))
          || (u32 (cumulative_tsn a - tsn) <=? 1073741824))
  | Slide => lags_little a (highest_tsn_inside_map a) && lags_little a (highest_tsn_inside_nr_map a)
  | Forward _ tsn => (0 <=? tsn) && (tsn <=? MAX_TSN)
  | Drain queued =>
      forallb (fun tsn => (0 <=? tsn) && (tsn <=? MAX_TSN) && in_arrays a tsn
                 && SCTP_TSN_GT tsn (u32 (cumulative_tsn a + 1))
                 && negb (bit (nr_mapping_array a) (SCTP_CALC_TSN_TO_GAP tsn (mapping_array_base_tsn a))))
        (drain_victims (u32 (cumulative_tsn a + 1)) queued)
  end.

Fixpoint run_ok (drain : Z) (a : tsn_map) (es : list rcv_event) : bool :=
  match es with
  | [] => true
  | e :: es =>
      event_ok a e && match step drain a e with
                      | Some (AnsAbort, _) => true
                      | Some (_, a) => run_ok drain a es
                      | None => true
                      end
  end.

(** ** The specification *)

Record rcv_spec := RcvSpec { sp_set : received; sp_base : Z; sp_cum : Z }.

(** The TSN meant by 32 bits: the one nearest to the cumulative TSN. *)
Definition unwrap (c tsn : Z) : Z := c + 2147483648 - u32 (c + 2147483648 - tsn).

Inductive spec_step (drain : Z) : rcv_spec -> rcv_event -> answer -> rcv_spec -> Prop :=
| SpecDup s b c tsn ok1 ok2 taken :
    has s (unwrap c tsn) ->
    spec_step drain (RcvSpec s b c) (Data tsn ok1 ok2 taken) AnsDup (RcvSpec s b c)
| SpecFar s b c tsn ok1 ok2 taken :
    c < unwrap c tsn -> b + 4096 <= unwrap c tsn ->
    spec_step drain (RcvSpec s b c) (Data tsn ok1 ok2 taken) AnsFar (RcvSpec s b c)
| SpecNoMem s b c tsn ok1 ok2 taken :
    ~ has s (unwrap c tsn) -> ok1 && ok2 = false ->
    spec_step drain (RcvSpec s b c) (Data tsn ok1 ok2 taken) AnsNoMem (RcvSpec s b c)
| SpecRefused s b c tsn ok1 ok2 :
    ~ has s (unwrap c tsn) ->
    spec_step drain (RcvSpec s b c) (Data tsn ok1 ok2 None) AnsRefused (RcvSpec s b c)
| SpecTaken s b c tsn ok1 ok2 r :
    ~ has s (unwrap c tsn) ->
    spec_step drain (RcvSpec s b c) (Data tsn ok1 ok2 (Some r)) AnsTaken
      (RcvSpec (receive s (unwrap c tsn)) b (if unwrap c tsn =? c + 1 then c + 1 else c))
| SpecNonRevokable s b c tsn :
    spec_step drain (RcvSpec s b c) (NonRevokable tsn) AnsDone (RcvSpec s b c)
| SpecSlide s b c b' c' :
    (forall t, t <= c' -> has s t) -> ~ has s (c' + 1) -> b' <= c' + 1 < b' + 8 ->
    spec_step drain (RcvSpec s b c) Slide AnsDone (RcvSpec s b' c')
| SpecOld s b c sb tsn :
    unwrap c tsn <= c -> spec_step drain (RcvSpec s b c) (Forward sb tsn) AnsOld (RcvSpec s b c)
| SpecAbort s b c sb tsn :
    c < unwrap c tsn -> sb < unwrap c tsn - b ->
    spec_step drain (RcvSpec s b c) (Forward sb tsn) AnsAbort (RcvSpec s b c)
| SpecForward s b c sb tsn b' :
    c < unwrap c tsn ->
    spec_step drain (RcvSpec s b c) (Forward sb tsn) AnsDone
      (RcvSpec (skip_to s (unwrap c tsn)) b' (unwrap c tsn))
| SpecDrain s b c queued zs :
    Forall (fun z => c + 1 < z) zs ->
    zs = [] \/ zs = map (unwrap c) (drain_victims (u32 (c + 1)) queued) ->
    spec_step drain (RcvSpec s b c) (Drain queued) AnsDone (RcvSpec (renege_all s zs) b c).

Inductive spec_run (drain : Z) : rcv_spec -> list rcv_event -> list answer -> rcv_spec -> Prop :=
| SpecNil st : spec_run drain st [] [] st
| SpecEnd st e es st' : spec_step drain st e AnsAbort st' -> spec_run drain st (e :: es) [AnsAbort] st'
| SpecCons st e es ans anss st1 st' :
    spec_step drain st e ans st1 -> spec_run drain st1 es anss st' ->
    spec_run drain st (e :: es) (ans :: anss) st'.

(** The arrays implement a state of the specification. *)
Definition implements (a : tsn_map) (st : rcv_spec) : Prop :=
  exists Hm Hn, Repr (sp_set st) (sp_base st) (sp_cum st) Hm Hn a.

Section Refinement.

Lemma unwrap_range c w : c - half32 < unwrap c w <= c + half32.
Proof. unfold unwrap. pose proof (u32_range (c + half32 - w)). unfold in_u32 in *. lia. Qed.

Lemma u32_unwrap c w : in_u32 w -> u32 (unwrap c w) = w.
Proof. intros Hw. unfold unwrap. width_lia. Qed.

Lemma in_u32_bool w : (0 <=? w) && (w <=? MAX_TSN) = true -> in_u32 w.
Proof. unfold MAX_TSN, in_u32. intros [?%Z.leb_le ?%Z.leb_le]%andb_true_iff. lia. Qed.

(** A TSN that the arrays have a bit for. *)
Lemma in_arrays_spec s B C Hm Hn a z :
  Repr s B C Hm Hn a -> C - half32 < z <= C + half32 -> in_arrays a (u32 z) = true ->
  B <= z < B + 8 * mapping_array_size a /\
  SCTP_CALC_TSN_TO_GAP (u32 z) (mapping_array_base_tsn a) = z - B.
Proof.
  intros [HA Cc Cw Cb Cm Cf Cd] Hz. pose proof (arr_size _ _ _ _ _ HA).
  unfold in_arrays. rewrite (arr_base _ _ _ _ _ HA). intros Hg%Z.ltb_lt.
  destruct (Z.lt_ge_cases z B) as [Hlt | Hge].
  - exfalso. replace (u32 z) with (u32 (z + 4294967296)) in Hg by width_lia.
    rewrite calc_gap_spec in Hg by lia. lia.
  - rewrite calc_gap_spec in * by lia. lia.
Qed.

Lemma lags_little_spec B h a :
  mapping_array_base_tsn a = u32 B -> - half32 < B - h < half32 ->
  lags_little a (u32 h) = true -> B - 1073741824 <= h.
Proof.
  intros Eb Hh. unfold lags_little. rewrite Eb, tsn_gt_spec, u32_sub_l, u32_sub_r by lia.
  destruct (Z.ltb_spec h B); [|lia]. rewrite u32_id by (unfold in_u32; lia). simpl.
  intros ?%Z.leb_le. lia.
Qed.

Lemma fresh_of_bool s B Hm Hn a :
  Arr s B Hm Hn a -> event_ok a Slide = true -> fresh B Hm Hn.
Proof.
  intros [Lm Lnr Sz Om Onr Eb Em En Be Ab Bi Tm Tn Im In] [H1 H2]%andb_true_iff.
  rewrite Em in H1. rewrite En in H2. unfold lag_max in *.
  split; [eapply lags_little_spec; [done | | exact H1] | eapply lags_little_spec; [done | | exact H2]]; lia.
Qed.

Lemma repr_ext s s' B C Hm Hn a :
  (forall u, has s u <-> has s' u) -> first s' = first s -> Repr s B C Hm Hn a -> Repr s' B C Hm Hn a.
Proof.
  intros He Hf [HA Cc Cw Cb Cm Cf Cd]. split; try done; [by eapply arr_ext | | by rewrite Hf].
  intros t Ht. by apply He, Cb.
Qed.

Lemma data_step_refines drain a st tsn ok1 ok2 taken :
  implements a st -> in_u32 tsn ->
  exists ans a' st', data_step a tsn ok1 ok2 taken = Some (ans, a') /\
    spec_step drain st (Data tsn ok1 ok2 taken) ans st' /\ implements a' st' /\ ans <> AnsAbort.
Proof.
  destruct st as [s B C]. intros (Hm & Hn & HR) Hw. simpl in *.
  pose proof (unwrap_range C tsn) as Hz. pose proof (u32_unwrap C tsn Hw) as Ew.
  destruct (data_chunk_lookup_repr s B C Hm Hn a ok1 ok2 (unwrap C tsn) 0) as (v & h & a1 & E & HR1 & Hv);
    [done | lia|]. rewrite Ew in E. unfold data_step. rewrite E. simpl. clear E.
  pose proof (repr_win _ _ _ _ _ _ HR1) as Hw1.
  destruct v as [| | |gap]; simpl in Hv.
  - exists AnsDup, a1, (RcvSpec s B C). split; [by destruct taken|].
    split; [apply SpecDup; tauto | split; [by exists Hm, Hn | done]].
  - exists AnsFar, a1, (RcvSpec s B C). split; [by destruct taken|].
    split; [apply SpecFar; tauto | split; [by exists Hm, Hn | done]].
  - exists AnsNoMem, a1, (RcvSpec s B C). split; [by destruct taken|].
    split; [apply SpecNoMem; tauto | split; [by exists Hm, Hn | done]].
  - destruct Hv as (-> & Hno & Hin). destruct taken as [r|].
    + assert (HCz : C < unwrap C tsn).
      { destruct (Z.lt_ge_cases C (unwrap C tsn)); [done|]. exfalso. apply Hno.
        by apply (repr_below _ _ _ _ _ _ HR1). }
      assert (Hmark : exists Hm' Hn' a2,
        (if r then mark_r a1 (unwrap C tsn - B) tsn else mark_nr a1 (unwrap C tsn - B) tsn) = Some a2 /\
        Arr (receive s (unwrap C tsn)) B Hm' Hn' a2 /\ cum_same a1 a2 /\ Hm <= Hm' /\ Hn <= Hn' /\
        unwrap C tsn <= Z.max Hm' Hn').
      { pose proof (repr_arr _ _ _ _ _ _ HR1) as HA1. destruct r.
        - destruct (mark_r_arr s B Hm Hn a1 (unwrap C tsn)) as (a2 & Em & HA2 & Hc); [done..|].
          rewrite Ew in Em. rewrite Em.
          do 3 eexists. split; [done|]. split; [exact HA2|]. split; [done|]. lia.
        - destruct (mark_nr_arr s B Hm Hn a1 (unwrap C tsn)) as (a2 & Em & HA2 & Hc); [done..|].
          rewrite Ew in Em. rewrite Em.
          do 3 eexists. split; [done|]. split; [exact HA2|]. split; [done|]. lia. }
      destruct Hmark as (Hm' & Hn' & a2 & -> & HA2 & Hc & Um & Un & Umx). simpl.
      pose proof (cumack_repr s B C Hm Hn a1 (unwrap C tsn) Hm' Hn' a2 HR1) as HR2.
      rewrite Ew in HR2. do 3 eexists. split; [reflexivity|].
      split; [by apply SpecTaken|]. split; [|done]. exists Hm', Hn'. simpl.
      destruct (Z.eqb_spec (unwrap C tsn) (C + 1)) as [Ec | _]; [rewrite Ec in *|];
        apply HR2; done || lia.
    + exists AnsRefused, a1, (RcvSpec s B C). split; [done|].
      split; [by apply SpecRefused | split; [by exists Hm, Hn | done]].
Qed.

Lemma drain_victims_renegable s B C Hm Hn a queued :
  Repr s B C Hm Hn a -> event_ok a (Drain queued) = true ->
  Forall (renegable a B C) (map (unwrap C) (drain_victims (u32 (C + 1)) queued)) /\
  map u32 (map (unwrap C) (drain_victims (u32 (C + 1)) queued)) = drain_victims (u32 (C + 1)) queued.
Proof.
  intros HR. simpl. rewrite (repr_cum _ _ _ _ _ _ HR), u32_add_l.
  induction (drain_victims (u32 (C + 1)) queued) as [|w ws IH]; simpl; [done|].
  rewrite !andb_true_iff, negb_true_iff. intros [[[[Hw Hin] Hgt] Hnr] Hws].
  destruct (IH Hws) as [IH1 IH2].
  assert (Hu : in_u32 w) by (apply in_u32_bool; by rewrite andb_true_iff).
  pose proof (unwrap_range C w) as Hz. pose proof (u32_unwrap C w Hu) as Ew.
  rewrite Ew, IH2. split; [|done]. constructor; [|done].
  rewrite <- Ew in Hin, Hgt, Hnr. destruct (in_arrays_spec s B C Hm Hn a (unwrap C w)) as [Hz1 Hz2]; [done..|].
  rewrite Hz2 in Hnr. pose proof (repr_win _ _ _ _ _ _ HR). pose proof (arr_size _ _ _ _ _ (repr_arr _ _ _ _ _ _ HR)).
  rewrite tsn_gt_spec in Hgt by lia. apply Z.ltb_lt in Hgt. split; [lia | done].
Qed.

Lemma step_refines drain a st e :
  implements a st -> event_ok a e = true ->
  exists ans a' st', step drain a e = Some (ans, a') /\ spec_step drain st e ans st' /\
    (ans <> AnsAbort -> implements a' st').
Proof.
  intros Himp He. destruct e as [tsn ok1 ok2 taken|tsn| |sb tsn|queued].
  - destruct (data_step_refines drain a st tsn ok1 ok2 taken) as (ans & a' & st' & E & Hs & Hi & _);
      [done | by apply in_u32_bool|]. exists ans, a', st'. done.
  - destruct st as [s B C], Himp as (Hm & Hn & HR). simpl in *.
    apply andb_true_iff in He as [Hw%in_u32_bool He].
    pose proof (unwrap_range C tsn) as Hz. pose proof (u32_unwrap C tsn Hw) as Ew.
    pose proof (repr_win _ _ _ _ _ _ HR). pose proof (repr_arr _ _ _ _ _ _ HR) as HA.
    rewrite <- Ew in He |- *.
    assert (Hin : C + 1 - half32 < unwrap C tsn < B + 8 * mapping_array_size a /\ has s (unwrap C tsn)).
    { apply orb_true_iff in He as [[Hin Hs]%andb_true_iff | Hold%Z.leb_le].
      - destruct (in_arrays_spec s B C Hm Hn a (unwrap C tsn)) as [Hi Hg]; [done..|].
        rewrite Hg in Hs. split; [pose proof (arr_size _ _ _ _ _ HA); lia|].
        by apply (arr_bits _ _ _ _ _ HA).
      - rewrite (repr_cum _ _ _ _ _ _ HR), u32_sub_l, u32_sub_r in Hold.
        assert (C - 1073741824 <= unwrap C tsn <= C) by width_lia.
        split; [lia|]. apply (repr_below _ _ _ _ _ _ HR). lia. }
    destruct Hin as [Hin Hh].
    destruct (mark_non_revokable_repr s B C Hm Hn a drain (unwrap C tsn)) as (Hm' & Hn' & a' & E & HR');
      [done..|].
    rewrite E. simpl. exists AnsDone, a', (RcvSpec s B C). split; [done|].
    split; [rewrite Ew; constructor|]. intros _. exists Hm', Hn'. simpl.
    eapply repr_ext; [| |exact HR'].
    + intros u. destruct ((drain =? 0) || (unwrap C tsn <=? C)); [done|].
      rewrite has_receive. split; [intros [-> |]; done | auto].
    + by destruct ((drain =? 0) || (unwrap C tsn <=? C)).
  - destruct st as [s B C], Himp as (Hm & Hn & HR). simpl.
    pose proof (fresh_of_bool _ _ _ _ _ (repr_arr _ _ _ _ _ _ HR) He) as HF.
    destruct (slide_repr s B C Hm Hn a HR HF) as (B' & C' & Hm' & Hn' & a' & -> & HR' & H1 & H2 & H3 & H4).
    exists AnsDone, a', (RcvSpec s B' C'). split; [done|]. split; [|by exists Hm', Hn'].
    constructor; [apply HR' | done | lia].
  - destruct st as [s B C], Himp as (Hm & Hn & HR). simpl in *. apply in_u32_bool in He as Hw.
    pose proof (unwrap_range C tsn) as Hz. pose proof (u32_unwrap C tsn Hw) as Ew.
    destruct (forward_tsn_repr s B C Hm Hn a sb (unwrap C tsn)) as (r & E & Hr); [done | lia|].
    rewrite Ew in E. rewrite E. simpl. destruct r as [|a'|a'].
    + exists AnsOld, a, (RcvSpec s B C). split; [done|]. split; [by constructor|].
      intros _. by exists Hm, Hn.
    + exists AnsAbort, a', (RcvSpec s B C). split; [done|].
      split; [apply SpecAbort; lia | done].
    + destruct Hr as (Hgt & B' & Hm' & Hn' & HR').
      exists AnsDone, a', (RcvSpec (skip_to s (unwrap C tsn)) B' (unwrap C tsn)).
      split; [done|]. split; [by constructor|]. intros _. by exists Hm', Hn'.
  - destruct st as [s B C], Himp as (Hm & Hn & HR). simpl in HR.
    destruct (drain_victims_renegable s B C Hm Hn a queued HR He) as [Hv Ev].
    pose proof (repr_cum _ _ _ _ _ _ HR) as Cc. simpl in Cc |- *. unfold sctp_drain_mbufs_map.
    destruct (cumulative_tsn a =? highest_tsn_inside_map a).
    { simpl. exists AnsDone, a, (RcvSpec s B C). split; [done|]. split; [|intros _; by exists Hm, Hn].
      apply (SpecDrain drain s B C queued []); auto. }
    rewrite Cc, u32_add_l. set (ws := drain_victims (u32 (C + 1)) queued) in *.
    destruct (drain_chunks_repr s B C Hm Hn a (map (unwrap C) ws) HR Hv) as (a1 & E & HR1 & _).
    rewrite Ev in E. rewrite E. simpl.
    assert (Hd : exists h a', match ws with [] => Some a1 | _ => drain_highest a1 end = Some a' /\
                   Repr (renege_all s (map (unwrap C) ws)) B C h Hn a').
    { destruct ws; [by exists Hm, a1 | by apply (drain_highest_repr _ _ _ Hm)]. }
    destruct Hd as (h & a' & -> & HR'). simpl.
    exists AnsDone, a', (RcvSpec (renege_all s (map (unwrap C) ws)) B C). split; [done|].
    split; [|intros _; by exists h, Hn]. constructor; [|by right].
    eapply Forall_impl; [exact Hv|]. unfold renegable. lia.
Qed.

(** The arrays of a new association implement the empty set. *)
Lemma init_repr a initial_tsn ok1 ok2 a1 :
  in_u32 initial_tsn -> length (dup_tsns a) = 20%nat -> numduptsns a = 0 ->
  sctp_init_asoc_map ok1 ok2 a = Some a1 ->
  Repr (Received initial_tsn ∅) initial_tsn (initial_tsn - 1) (initial_tsn - 1) (initial_tsn - 1)
    (sctp_process_init_map initial_tsn a1).
Proof.
  intros Hi Hd Hn E. unfold sctp_init_asoc_map in E. destruct ok1, ok2; try done.
  injection E as <-. simpl.
  assert (Hh : forall t, has (Received initial_tsn ∅) t <-> t <= initial_tsn - 1).
  { intros t. unfold has. simpl. split; [intros [|]; [lia | set_solver] | left; lia]. }
  pose proof (arr_fresh (Received initial_tsn ∅) (initial_tsn - 1)) as HA.
  replace (initial_tsn - 1 + 1) with initial_tsn in HA by lia.
  split; simpl; try done; try (unfold SCTP_INITIAL_MAPPING_ARRAY; lia).
  - apply HA; try exact (bytes_ok_replicate 16); try exact (bit_replicate 16); try done.
    symmetry. by apply u32_id.
  - intros t Ht. by apply Hh.
Qed.

Lemma init_implements a initial_tsn ok1 ok2 a1 :
  in_u32 initial_tsn -> length (dup_tsns a) = 20%nat -> numduptsns a = 0 ->
  sctp_init_asoc_map ok1 ok2 a = Some a1 ->
  implements (sctp_process_init_map initial_tsn a1)
    (RcvSpec (Received initial_tsn ∅) initial_tsn (initial_tsn - 1)).
Proof. intros Hi Hd Hn E. exists (initial_tsn - 1), (initial_tsn - 1). by apply (init_repr a _ ok1 ok2). Qed.

(** An accepted chunk puts its TSN into the set. *)
Lemma taken_implements a s b c tsn ok1 ok2 r a' :
  implements a (RcvSpec s b c) -> in_u32 tsn ->
  data_step a tsn ok1 ok2 (Some r) = Some (AnsTaken, a') ->
  implements a' (RcvSpec (receive s (unwrap c tsn)) b (if unwrap c tsn =? c + 1 then c + 1 else c)).
Proof.
  intros Hi Hw E.
  destruct (data_step_refines 0 a _ tsn ok1 ok2 (Some r) Hi Hw) as (ans & a1 & st & E1 & Hs & Hi1 & _).
  rewrite E in E1. injection E1 as <- <-. by inversion Hs; subst.
Qed.

(** A new association, before its INIT is processed. *)
Definition blank_map : tsn_map := TsnMap [] [] 0 0 0 0 0 (replicate 20 0) 0 0.

(** The arrays of an association whose first TSN is [tsn]. *)
Definition new_map (tsn : Z) : tsn_map :=
  sctp_process_init_map tsn
    (blank_map <| mapping_array_size := 16 |> <| mapping_array := replicate 16 0 |>
               <| nr_mapping_array := replicate 16 0 |>).

Lemma new_map_implements tsn :
  in_u32 tsn -> implements (new_map tsn) (RcvSpec (Received tsn ∅) tsn (tsn - 1)).
Proof. intros H. by apply (init_implements blank_map _ true true). Qed.

(** C32. The mapping arrays, from the start of an association and over any sequence of
    DATA chunks (new, duplicate, too far ahead, refused, without memory), deliveries,
    slides, forward TSNs and reneging, do exactly what a set of unbounded TSNs does: a
    chunk is answered "duplicate" exactly when its TSN is in the set, the growth and the
    slides lose and invent nothing, each slide puts the cumulative TSN right before the
    first TSN missing, and no access is outside the arrays, across any number of
    wrap-arounds of the 32-bit TSN. *)
Theorem arrays_refine_set drain a a1 initial_tsn es :
  in_u32 initial_tsn -> length (dup_tsns a) = 20%nat -> numduptsns a = 0 ->
  sctp_init_asoc_map true true a = Some a1 ->
  run_ok drain (sctp_process_init_map initial_tsn a1) es = true ->
  exists anss a' st, run drain (sctp_process_init_map initial_tsn a1) es = Some (anss, a') /\
    spec_run drain (RcvSpec (Received initial_tsn ∅) initial_tsn (initial_tsn - 1)) es anss st /\
    (AnsAbort ∉ anss -> implements a' st).
Proof.
  intros Hi Hd Hn E. apply (init_implements _ initial_tsn) in E; [|done..].
  revert E. generalize (RcvSpec (Received initial_tsn ∅) initial_tsn (initial_tsn - 1)).
  generalize (sctp_process_init_map initial_tsn a1). clear.
  induction es as [|e es IH]; intros a st Himp Hok.
  { exists [], a, st. split; [done|]. split; [constructor | done]. }
  simpl in Hok. apply andb_true_iff in Hok as [He Hok].
  destruct (step_refines drain a st e Himp He) as (ans & a' & st' & E & Hs & Hi).
  simpl. rewrite E in Hok |- *. simpl.
  assert (Hcase : ans = AnsAbort \/ ans <> AnsAbort) by (destruct ans; auto).
  destruct Hcase as [-> | Hne].
  { exists [AnsAbort], a', st'. split; [done|]. split; [by apply SpecEnd | set_solver]. }
  destruct (IH a' st') as (anss & a2 & st2 & E2 & Hs2 & Hi2); [auto | by destruct ans|].
  exists (ans :: anss), a2, st2. rewrite E2. split; [by destruct ans|].
  split; [by eapply SpecCons|]. intros Hin. apply Hi2. set_solver.
Qed.

(** Chunks around the wrap-around, out of order, twice and far ahead, with deliveries,
    slides, a growth of the arrays, reneging and a forward TSN. *)
Definition wrap_events : list rcv_event := [
  Data 4294967290 true true (Some false); Data 4294967292 true true (Some true);
  Data 4294967292 true true (Some true); Data 3 true true (Some true); Slide;
  NonRevokable 4294967292; Drain [(3, [])]; Data 3 true true None; Data 3000 true true (Some false);
  Data 5000 true true (Some true); Data 200000 true true (Some true); Data 4294967291 true false (Some false);
  Slide; Data 4294967290 true true None; Forward 0 4294967280; Forward 100000 2; Slide;
  Data 3 true true (Some false); Slide; Forward 10 100000].

Lemma arrays_refine_set_witness :
  run_ok 1 (sctp_process_init_map 4294967290
     (blank_map <| mapping_array_size := 16 |> <| mapping_array := replicate 16 0 |>
               <| nr_mapping_array := replicate 16 0 |>)) wrap_events = true /\
  exists anss a' st, run 1 (new_map 4294967290) wrap_events = Some (anss, a') /\
    spec_run 1 (RcvSpec (Received 4294967290 ∅) 4294967290 (4294967290 - 1)) wrap_events anss st /\
    (AnsAbort ∉ anss -> implements a' st).
Proof.
  split; [vm_compute; reflexivity|].
  apply (arrays_refine_set 1 blank_map); [unfold in_u32; lia | reflexivity | reflexivity
    | reflexivity | vm_compute; reflexivity].
Defined.

(** The answers of that run. *)
Example wrap_answers :
  option_map fst (run 1 (new_map 4294967290) wrap_events)
  = Some [AnsTaken; AnsTaken; AnsDup; AnsTaken; AnsDone; AnsDone; AnsDone; AnsRefused; AnsTaken; AnsFar;
          AnsFar; AnsTaken; AnsDone; AnsDup; AnsOld; AnsDone; AnsDone; AnsTaken; AnsDone; AnsAbort].
Proof. vm_compute. reflexivity. Qed.

End Refinement.
