(* ===== verification/SackGaps.v ===== *)
(** * Gap blocks describe the arrays

    A list of gap blocks is read as the set of offsets it covers.  The loops of
    [sctp_send_sack] turn the bits of an array into such a list: blocks in ascending
    order, none adjacent to the next, that cover exactly the offsets whose bit is set
    as far as the loop got. *)

From S2P Require Import Prelude Serial TsnMap TsnMapInv SackTable Sack.

Open Scope sctp_scope.

(** ** Lists of blocks *)

Definition covers (bl : list (Z * Z)) (k : Z) : Prop :=
  exists b, b ∈ bl /\ b.1 <= k <= b.2.

(** Ascending blocks from [lo] on and below [hi], with a gap between any two. *)
Fixpoint separated (lo hi : Z) (bl : list (Z * Z)) : Prop :=
  match bl with
  | [] => True
  | (s, e) :: rest => lo <= s <= e /\ e < hi /\ separated (e + 2) hi rest
  end.

(** The blocks are the runs of the offsets in [lo, hi) that satisfy [P]. *)
Definition runs (lo hi : Z) (bl : list (Z * Z)) (P : Z -> bool) : Prop :=
  separated lo hi bl /\ forall k, lo <= k < hi -> covers bl k <-> P k = true.

Section Blocks.

Lemma covers_app bl1 bl2 k : covers (bl1 ++ bl2) k <-> covers bl1 k \/ covers bl2 k.
Proof. unfold covers. setoid_rewrite elem_of_app. naive_solver. Qed.

Lemma covers_cons b bl k : covers (b :: bl) k <-> b.1 <= k <= b.2 \/ covers bl k.
Proof. unfold covers. setoid_rewrite elem_of_cons. naive_solver. Qed.

Lemma covers_nil k : ~ covers [] k.
Proof. unfold covers. set_solver. Qed.

Lemma separated_mono lo lo' hi hi' bl :
  lo' <= lo -> hi <= hi' -> separated lo hi bl -> separated lo' hi' bl.
Proof.
  revert lo lo'. induction bl as [|[s e] bl IH]; intros lo lo' Hlo Hhi; simpl; [done|].
  intros (? & ? & H). split; [lia|]. split; [lia|]. by apply (IH (e + 2)).
Qed.

Lemma separated_covers lo hi bl k : separated lo hi bl -> covers bl k -> lo <= k < hi.
Proof.
  revert lo. induction bl as [|[s e] bl IH]; intros lo; simpl; [by intros _ ?%covers_nil|].
  intros (? & ? & H) [Hk | Hk]%covers_cons; simpl in *; [lia|].
  specialize (IH _ H Hk). lia.
Qed.

(** The last block, when the last offset is covered. *)
Lemma separated_last lo hi bl :
  separated lo hi bl -> covers bl (hi - 1) ->
  exists bl0 s, bl = bl0 ++ [(s, hi - 1)] /\ lo <= s <= hi - 1 /\ separated lo (s - 1) bl0.
Proof.
  revert lo. induction bl as [|[s e] bl IH]; intros lo; simpl; [by intros _ ?%covers_nil|].
  intros (? & ? & H) [Hk | Hk]%covers_cons; simpl in *.
  - assert (e = hi - 1) as -> by lia. destruct bl as [|[s' e'] bl]; [|simpl in H; lia].
    by exists [], s.
  - destruct (IH _ H Hk) as (bl0 & s' & -> & Hs & Hb0).
    exists ((s, e) :: bl0), s'. split; [done|]. split; [lia|]. simpl. split; [lia|].
    split; [lia | done].
Qed.

Lemma separated_app lo mid hi bl1 bl2 :
  separated lo (mid - 1) bl1 -> separated mid hi bl2 -> lo <= mid <= hi + 1 ->
  separated lo hi (bl1 ++ bl2).
Proof.
  revert lo. induction bl1 as [|[s e] bl1 IH]; intros lo; simpl.
  - intros _ H Hm. by apply (separated_mono mid lo hi hi); [lia..|].
  - intros (? & ? & H) H2 Hm. split; [lia|]. split; [lia|].
    destruct (Z.le_gt_cases (e + 2) mid); [apply IH; done || lia|]. lia.
Qed.

(** An upper bound that is not covered can be lowered. *)
Lemma separated_lower lo hi bl : separated lo hi bl -> ~ covers bl (hi - 1) -> separated lo (hi - 1) bl.
Proof.
  revert lo. induction bl as [|[s e] bl IH]; intros lo; simpl; [done|].
  intros (? & ? & H) Hn. assert (e <> hi - 1).
  { intros ->. apply Hn, covers_cons. simpl. lia. }
  split; [lia|]. split; [lia|]. apply IH; [done|]. intros Hc. apply Hn, covers_cons. auto.
Qed.

Lemma separated_split lo hi x y bl1 bl2 :
  separated lo hi (bl1 ++ (x, y) :: bl2) ->
  separated lo (x - 1) bl1 /\ lo <= x <= y /\ y < hi /\ separated (y + 2) hi bl2.
Proof.
  revert lo. induction bl1 as [|[s e] bl1 IH]; intros lo; simpl.
  - intros (? & ? & H). split_and!; done || lia.
  - intros (? & ? & H). destruct (IH _ H) as (Ha & Hb & Hc & Hd).
    split_and!; try done; lia.
Qed.

Definition shift (d : Z) (bl : list (Z * Z)) : list (Z * Z) := map (fun b => (b.1 + d, b.2 + d)) bl.

Lemma covers_shift d bl k : covers (shift d bl) k <-> covers bl (k - d).
Proof.
  induction bl as [|b bl IH]; simpl.
  - split; intros H; by apply covers_nil in H.
  - rewrite !covers_cons, IH. simpl. split; (intros [|]; [left; lia | by right]).
Qed.

Lemma separated_shift d lo hi bl : separated lo hi bl -> separated (lo + d) (hi + d) (shift d bl).
Proof.
  revert lo. induction bl as [|[s e] bl IH]; intros lo; simpl; [done|].
  intros (? & ? & H). split; [lia|]. split; [lia|].
  replace (e + d + 2) with (e + 2 + d) by lia. by apply IH.
Qed.

End Blocks.

(** ** The table *)

Fixpoint separated_b (lo hi : Z) (bl : list (Z * Z)) : bool :=
  match bl with
  | [] => true
  | (s, e) :: rest => (lo <=? s) && (s <=? e) && (e <? hi) && separated_b (e + 2) hi rest
  end.

Definition covers_b (bl : list (Z * Z)) (k : Z) : bool :=
  existsb (fun b => (b.1 <=? k) && (k <=? b.2)) bl.

(** The blocks of an entry. *)
Definition entry_blocks (sel : sack_track) : list (Z * Z) := take (Z.to_nat (num_entries sel)) (gaps sel).

(** One entry of the table: its blocks are the runs of the byte, its edges are right. *)
Definition entry_ok (v : Z) (sel : sack_track) : bool :=
  (0 <=? num_entries sel) && (num_entries sel <=? 4) && (length (gaps sel) =? 4)%nat
  && separated_b 0 8 (entry_blocks sel)
  && forallb (fun k => eqb (covers_b (entry_blocks sel) k) (Z.testbit v k)) (seqZ 0 8)
  && eqb (negb (right_edge sel =? 0)) (Z.testbit v 0)
  && eqb (negb (left_edge sel =? 0)) (Z.testbit v 7).

Section Table.

Lemma separated_b_spec lo hi bl : separated_b lo hi bl = true -> separated lo hi bl.
Proof.
  revert lo. induction bl as [|[s e] bl IH]; intros lo; simpl; [done|].
  rewrite !andb_true_iff. intros [[[?%Z.leb_le ?%Z.leb_le] ?%Z.ltb_lt] ?]. auto.
Qed.

Lemma covers_b_spec bl k : covers_b bl k = true <-> covers bl k.
Proof.
  unfold covers_b, covers. rewrite existsb_exists. setoid_rewrite andb_true_iff.
  setoid_rewrite Z.leb_le. setoid_rewrite list_elem_of_In. done.
Qed.

Record entry_spec (v : Z) (sel : sack_track) : Prop := {
  en_num : Z.of_nat (length (entry_blocks sel)) = num_entries sel;
  en_sep : separated 0 8 (entry_blocks sel);
  en_cov : forall k, 0 <= k < 8 -> covers (entry_blocks sel) k <-> Z.testbit v k = true;
  en_right : negb (right_edge sel =? 0) = Z.testbit v 0;
  en_left : negb (left_edge sel =? 0) = Z.testbit v 7
}.

Lemma entry_ok_spec v sel : entry_ok v sel = true -> entry_spec v sel.
Proof.
  unfold entry_ok. rewrite !andb_true_iff, forallb_forall.
  intros [[[[[[H0%Z.leb_le H1%Z.leb_le] H2%Nat.eqb_eq] H3] H4] H5%eqb_prop] H6%eqb_prop].
  split; try done.
  - unfold entry_blocks. rewrite length_take. lia.
  - by apply separated_b_spec.
  - intros k Hk. rewrite <- covers_b_spec.
    rewrite (eqb_prop _ _ (H4 k ltac:(apply list_elem_of_In, elem_of_seqZ; lia))). done.
Qed.

(** The table is right for every byte. *)
Lemma sack_array_spec v :
  in_u8 v -> exists sel, get_at sack_array v = Some sel /\ entry_spec v sel.
Proof.
  intros Hv.
  assert (Hall : forallb (fun v => match get_at sack_array v with
                                   | Some sel => entry_ok v sel | None => false end) (seqZ 0 256) = true)
    by (vm_compute; reflexivity).
  rewrite forallb_forall in Hall.
  specialize (Hall v ltac:(apply list_elem_of_In, elem_of_seqZ; unfold in_u8 in *; lia)).
  destruct (get_at sack_array v) as [sel|]; [|done]. exists sel. split; [done|]. by apply entry_ok_spec.
Qed.

End Table.

(** ** Writing the blocks *)

(** [pre] was written before the loop, [bl] is what the loop has written so far. *)
Record wrote (pre bl : list (Z * Z)) (room : Z) (st : gap_state) : Prop := {
  wr_at : gp_at st = Z.of_nat (length (pre ++ bl));
  wr_take : take (length (pre ++ bl)) (gp_buf st) = pre ++ bl;
  wr_num : gp_num st = Z.of_nat (length bl);
  wr_room : room <= Z.of_nat (length (gp_buf st)) <= 16384
}.

Section Writing.

Lemma take_insert_last {A} (l : list A) n x :
  (n < length l)%nat -> take (S n) (<[n := x]> l) = take n l ++ [x].
Proof.
  intros Hn. rewrite (take_S_r _ _ x) by (by apply list_lookup_insert_eq).
  by rewrite take_insert_ge by lia.
Qed.

Lemma write_block pre bl room st x :
  wrote pre bl room st -> gp_at st + 1 <= room ->
  exists old buf, get_at (gp_buf st) (gp_at st) = Some old /\
    set_at (gp_buf st) (gp_at st) x = Some buf /\
    (forall m, wrote pre (bl ++ [x]) room (GapState buf (gp_at st + 1) (u32 (gp_num st + 1)) m)).
Proof.
  intros [Ha Ht Hn Hr] Hroom.
  destruct (get_at_some (gp_buf st) (gp_at st)) as (old & Eo & _); [lia|].
  exists old, (<[Z.to_nat (gp_at st) := x]> (gp_buf st)).
  split; [done|]. split; [apply set_at_some; lia|]. intros m.
  assert (Hl : length (pre ++ bl ++ [x]) = S (length (pre ++ bl)))
    by (rewrite !length_app; simpl; lia).
  split; simpl.
  - rewrite Hl. lia.
  - rewrite Hl, Ha, Nat2Z.id, take_insert_last by lia. by rewrite Ht, app_assoc.
  - rewrite length_app, u32_id; [simpl; lia|]. rewrite length_app in Ha. unfold in_u32. lia.
  - by rewrite length_insert.
Qed.

Lemma wrote_length pre bl room st :
  wrote pre bl room st -> (length pre + length bl <= length (gp_buf st))%nat.
Proof.
  intros [_ Ht _ _]. apply (f_equal length) in Ht. rewrite length_take, length_app in Ht. lia.
Qed.

(** Backing up over the last block. *)
Lemma back_up pre bl b room st :
  wrote pre (bl ++ [b]) room st ->
  get_at (gp_buf st) (gp_at st - 1) = Some b /\
  forall m, wrote pre bl room (GapState (gp_buf st) (gp_at st - 1) (u32 (gp_num st - 1)) m).
Proof.
  intros Hw. pose proof (wrote_length _ _ _ _ Hw) as Hlen. destruct Hw as [Ha Ht Hn Hr].
  assert (Hl : length (pre ++ bl ++ [b]) = S (length (pre ++ bl)))
    by (rewrite !length_app; simpl; lia).
  rewrite Hl in *. rewrite length_app in Hlen. simpl in Hlen. split.
  - rewrite get_at_nat by lia. replace (Z.to_nat (gp_at st - 1)) with (length (pre ++ bl)) by lia.
    rewrite <- (lookup_take_lt _ (S (length (pre ++ bl)))) by lia.
    rewrite Ht, app_assoc, lookup_app_r, Nat.sub_diag by lia. done.
  - intros m. split; simpl; try done; try lia.
    + apply (f_equal (take (length (pre ++ bl)))) in Ht.
      rewrite take_take, Nat.min_l in Ht by lia. rewrite Ht, app_assoc. apply take_app_length.
    + rewrite Hn, length_app, u32_id; simpl; [lia|]. unfold in_u32. lia.
Qed.

(** Values that fit the 16-bit fields. *)
Definition fits (offset : Z) (es : list (Z * Z)) : Prop :=
  Forall (fun b => 0 <= b.1 + offset < 65536 /\ 0 <= b.2 + offset < 65536) es.

Lemma put_entries_spec es sel j offset room pre bl st :
  wrote pre bl room st -> gp_at st + 1 <= room -> 0 <= j ->
  mergeable st && negb (right_edge sel =? 0) = false -> fits offset es ->
  (forall i : nat, (i < length es)%nat -> gaps sel !! (Z.to_nat j + i)%nat = es !! i) ->
  (es <> [] \/ mergeable st = false) ->
  exists st' lim n, put_entries (length es) j sel offset room st = Some (st', lim) /\
    (n <= length es)%nat /\ wrote pre (bl ++ shift offset (take n es)) room st' /\
    mergeable st' = false /\ (if lim then (1 <= n)%nat /\ gp_at st' = room else n = length es /\ gp_at st' + 1 <= room).
Proof.
  revert j bl st. induction es as [|[s e] es IH]; intros j bl st Hw Hr Hj Hm Hf Hg Hne.
  { exists st, false, 0%nat. simpl. rewrite app_nil_r. destruct Hne as [|Hne]; [done|].
    split_and!; done || lia. }
  apply Forall_cons in Hf as [[Hs He] Hf]. simpl in Hs, He. cbn [put_entries length].
  rewrite (get_at_nat (gaps sel)) by lia. pose proof (Hg 0%nat (Nat.lt_0_succ _)) as Hg0.
  rewrite Nat.add_0_r in Hg0. change (((s, e) :: es) !! 0%nat) with (Some (s, e)) in Hg0.
  rewrite Hg0. cbn [mbind option_bind].
  destruct (write_block pre bl room st (u16 (s + offset), u16 (e + offset)) Hw Hr)
    as (old & buf & -> & Es & Hw'). cbn [mbind option_bind]. rewrite Hm. cbv iota.
  rewrite Es. cbn [mbind option_bind].
  specialize (Hw' false). set (st1 := GapState _ _ _ _) in *.
  rewrite !u16_id in Hw' by (unfold in_u16; lia).
  change (gp_at st1) with (gp_at st + 1).
  destruct (Z.ltb_spec room (gp_at st + 1 + 1)) as [Hlim | Hok].
  - exists st1, true, 1%nat. split; [done|]. split; [simpl; lia|]. split; [done|]. split; [done|].
    subst st1. simpl. lia.
  - destruct (IH (j + 1) (bl ++ [(s + offset, e + offset)]) st1) as (st' & lim & n & E & Hn & Hw2 & Hm2 & Hl);
      [done | simpl; lia | lia | done | done | | by right |].
    { intros i Hi. replace (Z.to_nat (j + 1) + i)%nat with (Z.to_nat j + S i)%nat by lia.
      apply (Hg (S i)). simpl. lia. }
    exists st', lim, (S n). split; [exact E|]. split; [simpl; lia|].
    split; [by rewrite <- app_assoc in Hw2|]. split; [done|]. destruct lim; simpl in *; lia.
Qed.

End Writing.

(** ** One byte, and the loop over the bytes *)

Section Byte.

(** The first [n] entries of a byte are the runs of its bits up to the end of the last. *)
Lemma entries_prefix v sel n :
  entry_spec v sel -> (n <= length (entry_blocks sel))%nat -> (1 <= n)%nat \/ n = length (entry_blocks sel) ->
  exists h, 0 <= h <= 8 /\ (n = length (entry_blocks sel) -> h = 8) /\
    separated 0 h (take n (entry_blocks sel)) /\
    forall k, 0 <= k < h -> covers (take n (entry_blocks sel)) k <-> Z.testbit v k = true.
Proof.
  intros [_ Hs Hc _ _] Hn Hne. set (es := entry_blocks sel) in *.
  destruct (decide (n = length es)) as [-> | Hlt].
  { exists 8. rewrite take_ge by lia. split_and!; done || lia. }
  destruct n as [|n]; [lia|].
  destruct (lookup_lt_is_Some_2 es n) as [[x y] Exy]; [lia|].
  pose proof (take_drop_middle es n (x, y) Exy) as Hmid.
  rewrite <- Hmid in Hs. apply separated_split in Hs as (H1 & H2 & H3 & H4).
  assert (Et : take (S n) es = take n es ++ [(x, y)]) by (by apply take_S_r).
  rewrite Et. exists (y + 1). split; [lia|]. split; [lia|]. split.
  - apply (separated_app 0 x); [done | simpl; lia | lia].
  - intros k Hk. rewrite <- Hc by lia. rewrite <- Hmid at 2.
    rewrite !covers_app, !covers_cons. simpl. split; [intros [|[|?%covers_nil]]; tauto|].
    intros [|[|Hcov]]; [tauto | tauto |]. apply (separated_covers _ _ _ _ H4) in Hcov. lia.
Qed.

(** The blocks of a byte after those before it, when they need not be merged... *)
Lemma join_apart lo h d bl es P :
  lo <= h -> 0 <= d -> runs lo h bl P -> separated 0 d es ->
  (forall k, 0 <= k < d -> covers es k <-> P (h + k) = true) ->
  (covers bl (h - 1) -> covers es 0 -> False) ->
  runs lo (h + d) (bl ++ shift h es) P.
Proof.
  intros Hlo Hd [Hs Hc] Hes Hcov Hn. split.
  - apply (separated_shift h) in Hes. rewrite Z.add_0_l in Hes. rewrite Z.add_comm.
    destruct (decide (covers_b bl (h - 1) = true)) as [Hb%covers_b_spec | Hb].
    + assert (H0 : ~ covers (shift h es) h).
      { rewrite covers_shift, Z.sub_diag. auto. }
      destruct es as [|[s e] es]; [by rewrite app_nil_r; eapply separated_mono; [| |exact Hs]; lia|].
      simpl in Hes. apply (separated_app lo (h + 1)); [replace (h + 1 - 1) with h by lia; exact Hs | | simpl in *; lia].
      simpl. split_and!; try lia; [|tauto].
      destruct (decide (s + h = h)); [|lia]. exfalso. apply H0, covers_cons. simpl. lia.
    + apply (separated_app lo h); [|done|lia]. apply separated_lower; [done|].
      by rewrite <- covers_b_spec.
  - intros k Hk. rewrite covers_app, covers_shift.
    destruct (Z.lt_ge_cases k h).
    + rewrite <- Hc by lia. split; [intros [|Hx]; [done|] | auto].
      apply (separated_covers _ _ _ _ Hes) in Hx. lia.
    + rewrite Hcov by lia. replace (h + (k - h)) with k by lia.
      split; [intros [Hx|]; [|done] | auto]. apply (separated_covers _ _ _ _ Hs) in Hx. lia.
Qed.

(** ... and when the last block continues in the first of the byte. *)
Lemma join_merged lo h d bl s e es P :
  runs lo h (bl ++ [(s, h - 1)]) P -> separated 0 d ((0, e) :: es) ->
  (forall k, 0 <= k < d -> covers ((0, e) :: es) k <-> P (h + k) = true) ->
  runs lo (h + d) (bl ++ (s, e + h) :: shift h es) P.
Proof.
  intros [Hs Hc] Hes Hcov. pose proof Hs as Hs0.
  apply separated_split in Hs0 as (H1 & H2 & _ & _).
  pose proof Hes as Hes0. simpl in Hes0. destruct Hes0 as (H3 & H4 & H5).
  apply (separated_shift h) in H5. split.
  - apply (separated_app lo s); [done | | lia]. simpl. split; [lia|]. split; [lia|].
    replace (e + h + 2) with (e + 2 + h) by lia. by rewrite (Z.add_comm h d).
  - intros k Hk. rewrite covers_app, covers_cons. simpl.
    assert (Hsh : covers (shift h es) k -> h <= k).
    { intros Hx. apply (separated_covers _ _ _ _ H5) in Hx. lia. }
    destruct (Z.lt_ge_cases k h).
    + rewrite <- Hc by lia. rewrite covers_app, covers_cons. simpl. split.
      * intros [|[|Hx]]; [auto | right; left; lia | specialize (Hsh Hx); lia].
      * intros [|[|?%covers_nil]]; [auto | right; left; lia | done].
    + pose proof (Hcov (k - h) ltac:(lia)) as Hkh. replace (h + (k - h)) with k in Hkh by lia.
      rewrite <- Hkh, covers_cons, covers_shift. simpl.
      split.
      * intros [Hx|[|]]; [|left; lia | auto]. apply (separated_covers _ _ _ _ H1) in Hx. lia.
      * intros [|]; [right; left; lia | auto].
Qed.

(** What the loops keep: the blocks are the runs as far as they got, and [mergeable]
    says that the last offset is in one. *)
Record gaps_inv (pre : list (Z * Z)) (room lo h : Z) (P : Z -> bool) (st : gap_state)
    (bl : list (Z * Z)) : Prop := {
  gi_wrote : wrote pre bl room st;
  gi_runs : runs lo h bl P;
  gi_merge : mergeable st = true <-> covers bl (h - 1)
}.

Lemma fits_entries v sel offset P :
  entry_spec v sel -> -65536 < offset < 65000 ->
  (forall k, 0 <= k < 8 -> Z.testbit v k = P (offset + k)) -> (forall k, P k = true -> 0 <= k) ->
  fits offset (entry_blocks sel).
Proof.
  intros [_ Hs Hc _ _] Ho Hv HP. apply Forall_forall. intros [s e] Hin. simpl.
  apply list_elem_of_split in Hin as (l1 & l2 & E). rewrite E in Hs.
  apply separated_split in Hs as (_ & H2 & H3 & _).
  assert (Hs0 : P (offset + s) = true).
  { rewrite <- Hv by lia. apply Hc; [lia|]. rewrite E, covers_app, covers_cons. simpl. right. left. lia. }
  apply HP in Hs0. lia.
Qed.

(** The entries of a byte whose first one continues the last block. *)
Lemma put_entries_merged e es sel offset room pre bl s y st :
  wrote pre bl room st -> gp_at st + 2 <= room -> get_at (gp_buf st) (gp_at st) = Some (s, y) ->
  mergeable st = true -> negb (right_edge sel =? 0) = true -> fits offset ((0, e) :: es) ->
  (forall i : nat, (i < S (length es))%nat -> gaps sel !! i = ((0, e) :: es) !! i) ->
  exists st' lim n, put_entries (S (length es)) 0 sel offset room st = Some (st', lim) /\
    (n <= length es)%nat /\ wrote pre (bl ++ (s, e + offset) :: shift offset (take n es)) room st' /\
    mergeable st' = false /\ (if lim then gp_at st' = room else n = length es /\ gp_at st' + 1 <= room).
Proof.
  intros Hw Hroom Eold Hm Hri Hf Hg. apply Forall_cons in Hf as [[_ He] Hf]. simpl in He.
  cbn [put_entries]. rewrite (get_at_nat (gaps sel)) by lia.
  pose proof (Hg 0%nat (Nat.lt_0_succ _)) as Hg0. change (((0, e) :: es) !! 0%nat) with (Some (0, e)) in Hg0.
  change (Z.to_nat 0) with 0%nat. rewrite Hg0. cbn [mbind option_bind].
  rewrite Eold, Hm, Hri. cbn [mbind option_bind andb fst].
  destruct (write_block pre bl room st (s, u16 (e + offset)) Hw) as (old & buf & _ & Es & Hw'); [lia|].
  rewrite Es. cbn [mbind option_bind]. specialize (Hw' false). set (st1 := GapState _ _ _ _) in *.
  rewrite u16_id in Hw' by (unfold in_u16; lia). change (gp_at st1) with (gp_at st + 1).
  destruct (Z.ltb_spec room (gp_at st + 1 + 1)); [lia|].
  destruct (put_entries_spec es sel (0 + 1) offset room pre (bl ++ [(s, e + offset)]) st1)
    as (st' & lim & n & E & Hn & Hw2 & Hm2 & Hl); try done; try (by right).
  { intros i Hi. apply (Hg (S i)). simpl. lia. }
  exists st', lim, n. split; [exact E|]. split; [done|].
  split; [by rewrite <- app_assoc in Hw2|]. split; [done|]. destruct lim; [apply Hl | done].
Qed.

Lemma if_id (b : bool) : (if b then true else false) = b.
Proof. by destruct b. Qed.

(** After the whole byte, [mergeable] is set from its last bit. *)
Lemma gaps_inv_done v sel offset pre room lo P st bl :
  entry_spec v sel -> (forall k, 0 <= k < 8 -> Z.testbit v k = P (offset + k)) -> lo <= offset ->
  wrote pre bl room st -> runs lo (offset + 8) bl P ->
  gaps_inv pre room lo (offset + 8) P
    (GapState (gp_buf st) (gp_at st) (gp_num st) (negb (left_edge sel =? 0))) bl.
Proof.
  intros [_ _ _ _ Hle] HP Hlo [] Hr. split; [by split | done |]. simpl.
  rewrite Hle, HP by lia. destruct Hr as [_ Hc]. rewrite Hc by lia.
  by replace (offset + 8 - 1) with (offset + 7) by lia.
Qed.

Lemma put_byte_gaps_spec pre room lo offset P st bl v :
  in_u8 v -> gaps_inv pre room lo offset P st bl -> lo <= offset < 65000 -> -65536 < lo ->
  gp_at st + 1 <= room ->
  (forall k, 0 <= k < 8 -> Z.testbit v k = P (offset + k)) -> (forall k, P k = true -> 0 <= k) ->
  exists st' lim bl' h, put_byte_gaps v offset room st = Some (st', lim) /\
    wrote pre bl' room st' /\ runs lo h bl' P /\ offset <= h /\
    (if lim then gp_at st' = room
     else h = offset + 8 /\ gaps_inv pre room lo h P st' bl' /\ gp_at st' + 1 <= room).
Proof.
  intros Hv [Hw Hr Hm] Ho Hlo Hroom HP Hpos.
  destruct (sack_array_spec v Hv) as (sel & Es & Hen). pose proof Hen as [Hnum Hsep Hcov Hri Hle].
  pose proof (fits_entries v sel offset P Hen ltac:(lia) HP Hpos) as Hfit.
  assert (HcovP : forall n, (n <= length (entry_blocks sel))%nat ->
     (1 <= n)%nat \/ n = length (entry_blocks sel) -> exists d, 0 <= d <= 8 /\
     (n = length (entry_blocks sel) -> d = 8) /\ separated 0 d (take n (entry_blocks sel)) /\
     forall k, 0 <= k < d -> covers (take n (entry_blocks sel)) k <-> P (offset + k) = true).
  { intros n Hn1 Hn2. destruct (entries_prefix v sel n Hen Hn1 Hn2) as (d & Hd & Hd8 & Hs & Hc).
    exists d. split_and!; try done; try lia. intros k Hk. rewrite Hc, HP by lia. done. }
  assert (Hgaps : forall j i : nat, (j + i < length (entry_blocks sel))%nat ->
     gaps sel !! (Z.to_nat (Z.of_nat j) + i)%nat = drop j (entry_blocks sel) !! i).
  { intros j i Hi. rewrite lookup_drop, Nat2Z.id. unfold entry_blocks in *.
    rewrite length_take in Hi. by rewrite lookup_take_lt by lia. }
  unfold put_byte_gaps. rewrite Es. cbn [mbind option_bind]. rewrite Hri.
  destruct (mergeable st && Z.testbit v 0) eqn:Emerge.
  - (* the first entry continues the last block *)
    apply andb_true_iff in Emerge as [Em E0]. apply Hm in Em as Hcl.
    destruct Hr as [Hsepb Hcovb]. destruct (separated_last _ _ _ Hsepb Hcl) as (bl0 & s & -> & Hs & Hb0).
    destruct (back_up _ _ _ _ _ Hw) as [Eold Hw1]. specialize (Hw1 (mergeable st)).
    assert (Hc0 : covers (entry_blocks sel) 0) by (apply Hcov; [lia | done]).
    destruct (entry_blocks sel) as [|[x e] es] eqn:Ees; [by apply covers_nil in Hc0|].
    assert (x = 0) as ->.
    { simpl in Hsep. apply covers_cons in Hc0 as [|Hc0]; simpl in *; [lia|].
      apply (separated_covers (e + 2) 8) in Hc0; [lia | tauto]. }
    simpl in Hnum. destruct (Z.eqb_spec (num_entries sel) 0) as [|_]; [lia|].
    replace (Z.to_nat (num_entries sel)) with (S (length es)) by lia.
    destruct (put_entries_merged e es sel offset room pre bl0 s (offset - 1)
      (GapState (gp_buf st) (gp_at st - 1) (u32 (gp_num st - 1)) (mergeable st)))
      as (st' & lim & n & E & Hn & Hw2 & Hm2 & Hl); try done; [simpl; lia | by rewrite Hri | |].
    { intros i Hi. apply (Hgaps 0%nat i). simpl in *. lia. }
    rewrite E. cbn [mbind option_bind fst snd]. rewrite Hm2.
    destruct (HcovP (S n)) as (d & Hd & Hd8 & Hsd & Hcd); [simpl; lia | lia|]. simpl take in *.
    pose proof (join_merged lo offset d bl0 s e (take n es) P (conj Hsepb Hcovb) Hsd Hcd) as Hrun.
    do 2 eexists. exists (bl0 ++ (s, e + offset) :: shift offset (take n es)), (offset + d).
    split; [reflexivity|]. split; [by destruct Hw2; split|]. split; [done|]. split; [lia|].
    destruct lim; [done|]. destruct Hl as [-> Hroom']. rewrite Hd8 in Hrun |- * by done.
    split; [done|]. split; [|done].
    rewrite if_id.
    apply (gaps_inv_done v); done || lia.
  - (* the entries stand alone *)
    assert (Hapart : covers bl (offset - 1) -> forall n, covers (take n (entry_blocks sel)) 0 -> False).
    { intros Hcl%Hm n Hc0. rewrite Hcl, andb_true_l in Emerge.
      assert (Hc1 : covers (entry_blocks sel) 0).
      { destruct Hc0 as (b & Hb & Hk). exists b. split; [|done].
        rewrite <- (take_drop n (entry_blocks sel)). apply elem_of_app. auto. }
      apply Hcov in Hc1; [congruence | lia]. }
    destruct (Z.eqb_spec (num_entries sel) 0) as [H0 | H0].
    + destruct (HcovP 0%nat) as (d & Hd & Hd8 & Hsd & Hcd); [lia | lia|].
      rewrite Hd8 in * by lia.
      pose proof (join_apart lo offset 8 bl [] P ltac:(lia) ltac:(lia) Hr Hsd Hcd) as Hrun.
      simpl in Hrun. rewrite app_nil_r in Hrun.
      do 2 eexists. exists bl, (offset + 8). split; [reflexivity|].
      assert (Hc8 : ~ covers bl (offset + 7)).
      { intros Hx. apply (separated_covers _ _ _ _ (proj1 Hr)) in Hx. lia. }
      split; [by destruct Hw; split|]. split; [apply Hrun; intros _ ?%covers_nil; done|]. split; [lia|].
      split; [done|]. split; [|done]. split; [by destruct Hw; split | |].
      * apply Hrun. intros _ ?%covers_nil. done.
      * simpl. replace (offset + 8 - 1) with (offset + 7) by lia. done.
    + destruct (put_entries_spec (entry_blocks sel) sel 0 offset room pre bl st)
        as (st' & lim & n & E & Hn & Hw2 & Hm2 & Hl); try done; [by rewrite Hri | | |].
      { intros i Hi. apply (Hgaps 0%nat i). lia. }
      { left. intros Hnil. rewrite Hnil in Hnum. simpl in Hnum. lia. }
      replace (Z.to_nat (num_entries sel)) with (length (entry_blocks sel)) by lia.
      rewrite E. cbn [mbind option_bind fst snd]. rewrite Hm2.
      destruct (HcovP n) as (d & Hd & Hd8 & Hsd & Hcd); [done | destruct lim; lia|].
      pose proof (join_apart lo offset d bl (take n (entry_blocks sel)) P ltac:(lia) ltac:(lia) Hr Hsd Hcd
        (fun H => Hapart H n)) as Hrun.
      do 2 eexists. exists (bl ++ shift offset (take n (entry_blocks sel))), (offset + d).
      split; [reflexivity|]. split; [by destruct Hw2; split|]. split; [done|]. split; [lia|].
      destruct lim; [apply Hl|]. destruct Hl as [-> Hroom']. rewrite Hd8 in Hrun |- * by done.
      split; [done|]. split; [|done].
      rewrite if_id.
      apply (gaps_inv_done v); done || lia.
Qed.

End Byte.

Section Loop.
Context (get : Z -> option Z) (N : Z) (Q : Z -> bool) (off room : Z) (pre : list (Z * Z)).
Context (Hget : forall i, 0 <= i < N ->
  exists b, get i = Some b /\ in_u8 b /\ forall j, 0 <= j < 8 -> Z.testbit b j = Q (8 * i + j)).
Context (Hoff : -6 <= off <= 1) (HN : 0 <= N <= 1056).

(** The offset [k] above the cumulative TSN has its bit set. *)
Definition reported (k : Z) : bool := (1 <=? k) && Q (k - off).

Lemma mask_acked_spec b :
  in_u8 b -> exists v, mask_acked b off = Some v /\ in_u8 v /\
    forall j, 0 <= j < 8 -> Z.testbit v j = Z.testbit b j && (1 - off <=? j).
Proof.
  intros Hb. unfold mask_acked.
  destruct (Z.ltb_spec (1 - off) 0); [lia|]. destruct (Z.ltb_spec 31 (1 - off)); [lia|]. simpl.
  eexists. split; [reflexivity|]. split; [apply u8_range|]. intros j Hj.
  unfold u8, u32. rewrite <- (Z.land_ones _ 8), <- (Z.land_ones _ 32) by lia.
  rewrite !Z.land_spec, !Z.ones_spec_low, !andb_true_r by lia. f_equal.
  rewrite Z.shiftl_spec by lia. change 4294967295 with (Z.ones 32).
  destruct (Z.leb_spec (1 - off) j); [apply Z.ones_spec_low; lia | apply Z.testbit_neg_r; lia].
Qed.

(** Byte [i] as the loop uses it. *)
Lemma loop_byte i :
  0 <= i < N ->
  exists b v, get i = Some b /\ (if i =? 0 then mask_acked b (off + 8 * i) else Some b) = Some v /\
    in_u8 v /\ forall j, 0 <= j < 8 -> Z.testbit v j = reported (off + 8 * i + j).
Proof.
  intros Hi. destruct (Hget i Hi) as (b & Eb & Hb & Hbits). unfold reported.
  destruct (Z.eqb_spec i 0) as [-> | Hne].
  - replace (off + 8 * 0) with off by lia. destruct (mask_acked_spec b Hb) as (v & Ev & Hv & Hvb).
    exists b, v. split_and!; try done; try apply Hv. intros j Hj.
    rewrite Hvb, Hbits, andb_comm by lia. f_equal; [zbool; lia | f_equal; lia].
  - exists b, b. split_and!; try done; try apply Hb. intros j Hj. rewrite Hbits by lia.
    destruct (Z.leb_spec 1 (off + 8 * i + j)); [|lia]. simpl. f_equal. lia.
Qed.

Lemma gap_loop_spec n i st bl :
  gaps_inv pre room off (off + 8 * i) reported st bl -> gp_at st + 1 <= room ->
  0 <= i -> i + Z.of_nat n = N ->
  exists st' lim bl' h, gap_loop n i get (off + 8 * i) room st = Some (st', lim) /\
    wrote pre bl' room st' /\ runs off h bl' reported /\
    (if lim then gp_at st' = room else h = off + 8 * N /\ gp_at st' + 1 <= room).
Proof.
  revert i st bl. induction n as [|n IH]; intros i st bl Hinv Hroom Hi Hn.
  { exists st, false, bl, (off + 8 * i). split; [done|]. destruct Hinv.
    split; [done|]. split; [done|]. split; [f_equal; lia | done]. }
  destruct (loop_byte i) as (b & v & Eb & Ev & Hv & Hbits); [lia|].
  cbn [gap_loop]. rewrite Eb. cbn [mbind option_bind]. rewrite Ev. cbn [mbind option_bind].
  destruct (put_byte_gaps_spec pre room off (off + 8 * i) reported st bl v)
    as (st1 & lim & bl1 & h & E & Hw1 & Hr1 & Hh & Hok); try done; try lia.
  { intros k. unfold reported. destruct (Z.leb_spec 1 k); [lia | done]. }
  rewrite E. cbn [mbind option_bind fst snd]. destruct lim.
  - exists st1, true, bl1, h. done.
  - destruct Hok as (-> & Hinv1 & Hroom1).
    replace (off + 8 * i + 8) with (off + 8 * (i + 1)) in * by lia.
    apply (IH _ _ bl1); done || lia.
Qed.

End Loop.
