(* ===== verification/SackProps.v ===== *)
(** * What a SACK says, and when it is sent

    A SACK chunk built from arrays that stand for a set of TSNs carries the last TSN
    before the first one missing and gap blocks that cover exactly the set beyond it; an
    NR-SACK splits them into renegable and non-renegable ones; the duplicates recorded
    follow.  When the window of the arrays contains the wrap-around of the TSN, the chunks
    say less than that.  Every outcome of [sctp_sack_check] is one of [ack_outcome],
    whether memory can be had or not. *)

From S2P Require Import Prelude Serial TsnMap TsnMapInv TsnMapProps SackTable Sack SackGaps.

Open Scope sctp_scope.

Section Blocks.

Lemma separated_from lo lo' hi bl :
  separated lo hi bl -> (forall k, covers bl k -> lo' <= k) -> separated lo' hi bl.
Proof.
  destruct bl as [|[s e] bl]; [done|]. simpl. intros (? & ? & ?) Hfrom.
  specialize (Hfrom s). rewrite covers_cons in Hfrom. simpl in Hfrom. split_and!; try done; lia.
Qed.

(** The window of [n] TSNs from [B] on does not contain a multiple of 2^32 but at its
    start. *)
Definition no_wrap (B n : Z) : Prop := u32 B + n <= 4294967296.

Lemma no_wrap_u32 B n x : no_wrap B n -> B <= x < B + n -> u32 x = u32 B + (x - B).
Proof.
  unfold no_wrap. intros Hw Hx. pose proof (u32_range B). unfold in_u32 in *.
  replace x with (B + (x - B)) at 1 by lia. rewrite <- u32_add_l, u32_id; [done|]. unfold in_u32. lia.
Qed.

Lemma first_offset_spec s B C Hm Hn a :
  Repr s B C Hm Hn a -> first_offset a = B - C.
Proof.
  intros [HA Cc Cw _ _ _ _]. pose proof (arr_size _ _ _ _ _ HA). unfold first_offset.
  rewrite Cc, (arr_base _ _ _ _ _ HA), tsn_gt_spec by lia.
  destruct (Z.ltb_spec C B); [lia|].
  replace (i32 (u32 B - u32 C)) with (i32 (B - C)) by width_lia. apply i32_id. unfold in_i32. lia.
Qed.

(** Sliding the arrays leaves the duplicates and the flag alone. *)
Lemma slide_rest a m :
  sctp_slide_mapping_arrays a = Some m ->
  dup_tsns m = dup_tsns a /\ numduptsns m = numduptsns a /\ send_sack m = send_sack a.
Proof.
  unfold sctp_slide_mapping_arrays. destruct (slide_scan _ _ _ _) as [[from at_]|]; [|done].
  cbn [mbind option_bind]. cbv zeta.
  assert (Hend : forall a1, dup_tsns a1 = dup_tsns a /\ numduptsns a1 = numduptsns a /\ send_sack a1 = send_sack a ->
    (if (cumulative_tsn a1 =? highest_tsn a1) && (8 <=? at_) then slide_clear a1 at_
     else if 8 <=? at_ then slide_down a1 from else Some a1) = Some m ->
    dup_tsns m = dup_tsns a /\ numduptsns m = numduptsns a /\ send_sack m = send_sack a).
  2: { apply Hend. by destruct (SCTP_TSN_GT _ _ && SCTP_TSN_GT _ _). }
  intros a1 (<- & <- & <-). destruct (_ && _); [|destruct (8 <=? at_); [|by intros [= <-]]].
  - unfold slide_clear. cbv zeta. destruct (memset0 (mapping_array _) _); cbn [mbind option_bind]; [|discriminate].
    destruct (memset0 _ _); cbn [mbind option_bind]; [|discriminate]. by intros [= <-].
  - unfold slide_down. cbv zeta. destruct (_ <? from); [by intros [= <-]|].
    destruct (_ || _); [by intros [= <-]|].
    destruct (slide_array (mapping_array _) _ _ _); [|done]. cbn [mbind option_bind].
    destruct (slide_array _ _ _ _); [|done]. by intros [= <-].
Qed.

(** Both expressions for the number of bytes are right without a wrap-around. *)
Lemma siz_spec B H n :
  no_wrap B n -> B < H < B + n -> n <= 8448 ->
  sack_siz (u32 H) (u32 B) = (H - B + 8) / 8 /\ nr_sack_siz (u32 H) (u32 B) = (H - B + 8) / 8.
Proof.
  intros Hw HB Hn. pose proof (no_wrap_u32 B n H Hw ltac:(lia)) as E.
  assert (Hlt : (u32 B <? u32 H) = true) by (apply Z.ltb_lt; lia).
  unfold sack_siz, nr_sack_siz. rewrite Hlt, E.
  replace (u32 B + (H - B) - u32 B) with (H - B) by lia.
  rewrite (u32_id (H - B)), (u32_id (H - B + 1)), u32_id by (unfold in_u32; lia).
  split; f_equal; lia.
Qed.

Lemma siz_one B : sack_siz (u32 B) (u32 B) = 0 /\ nr_sack_siz (u32 B) (u32 B) = 0.
Proof.
  unfold sack_siz, nr_sack_siz, MAX_TSN. rewrite Z.ltb_irrefl.
  pose proof (u32_range B). unfold in_u32 in *.
  assert (E : u32 (u32 (u32 (4294967295 - u32 B) + 1) + u32 B + 7) = 7) by width_lia.
  rewrite E. done.
Qed.

(** The bytes of one array, and of both. *)
Lemma get_array arr size :
  bytes_ok arr -> Z.of_nat (length arr) = size -> forall i, 0 <= i < size ->
  exists b, get_at arr i = Some b /\ in_u8 b /\ forall j, 0 <= j < 8 -> Z.testbit b j = bit arr (8 * i + j).
Proof.
  intros Hok Hl i Hi. destruct (byte_of_bit arr (8 * i)) as (b & E & Hb & _); [done | lia|].
  replace (8 * i / 8) with i in E by (Z.div_mod_to_equations; lia).
  exists b. split; [done|]. split; [done|]. intros j Hj.
  rewrite (bit_of_byte arr i b) by (done || (Z.div_mod_to_equations; lia)).
  f_equal. Z.div_mod_to_equations; lia.
Qed.

Lemma get_union s B Hm Hn a :
  Arr s B Hm Hn a -> forall i, 0 <= i < mapping_array_size a ->
  exists b, union_byte a i = Some b /\ in_u8 b /\ forall j, 0 <= j < 8 -> Z.testbit b j = seen a (8 * i + j).
Proof.
  intros HA i Hi. destruct (seen_byte s B Hm Hn a i HA Hi) as (x & y & Ex & Ey & Hv & Hb).
  unfold union_byte. rewrite Ex, Ey. cbn [mbind option_bind]. exists (Z.lor y x). rewrite Z.lor_comm. done.
Qed.

(** ** One section of gap blocks *)

Definition gap_section (siz : Z -> Z -> Z) (get : Z -> option Z) (a : tsn_map) (highest room : Z)
    (st : gap_state) : option (gap_state * bool) :=
  if SCTP_TSN_GT highest (cumulative_tsn a)
  then gap_loop (Z.to_nat (siz highest (mapping_array_base_tsn a))) 0 get (first_offset a) room st
  else Some (st, false).

(** The blocks [bl] are the offsets [k >= 1] with [Q (C + k)], as far as they go: all of
    them, or up to [h] and there is no room for more. *)
Record section_ok (Q : Z -> bool) (C room : Z) (st : gap_state) (lim : bool) (bl : list (Z * Z)) (h : Z)
    : Prop := {
  so_sep : separated 1 h bl;
  so_cov : forall k, 1 <= k < h -> covers bl k <-> Q (C + k) = true;
  so_end : if lim then gp_at st = room
           else gp_at st + 1 <= room /\ forall k, 1 <= k -> h <= k -> Q (C + k) = false
}.

Lemma section_spec s B C Hm Hn a siz get Q H room pre buf at_ :
  Repr s B C Hm Hn a -> C + 1 < B + 8 -> no_wrap B 8448 ->
  siz = sack_siz \/ siz = nr_sack_siz ->
  (forall i, 0 <= i < mapping_array_size a ->
     exists b, get i = Some b /\ in_u8 b /\ forall j, 0 <= j < 8 -> Z.testbit b j = Q (8 * i + j)) ->
  (forall g, Q g = true -> B + g <= H) -> Q (C + 1 - B) = false ->
  B - lag_max <= H < B + 8 * mapping_array_size a ->
  wrote pre [] room (GapState buf at_ 0 false) -> at_ + 1 <= room ->
  exists st lim bl h, gap_section siz get a (u32 H) room (GapState buf at_ 0 false) = Some (st, lim) /\
    wrote pre bl room st /\ section_ok (fun t => Q (t - B)) C room st lim bl h.
Proof.
  intros HR H8 Hw Hsiz Hget Htop Hno HH Hpre Hat. pose proof HR as [HA Cc Cw _ _ _ _].
  pose proof (arr_size _ _ _ _ _ HA) as Sz. unfold gap_section.
  rewrite Cc, tsn_gt_spec by (unfold lag_max in *; lia).
  assert (Hempty : (forall k, 1 <= k -> Q (C + k - B) = false) ->
    exists st lim bl h, Some (GapState buf at_ 0 false, false) = Some (st, lim) /\
      wrote pre bl room st /\ section_ok (fun t => Q (t - B)) C room st lim bl h).
  { intros HQ. exists (GapState buf at_ 0 false), false, [], 1. split; [done|]. split; [done|].
    split; [done | lia | split; [done|]]. intros k Hk _. by apply HQ. }
  destruct (Z.ltb_spec C H) as [Hgap | Hnone].
  2:{ apply Hempty. intros k Hk. destruct (Q (C + k - B)) eqn:E; [|done].
      apply Htop in E. lia. }
  rewrite (arr_base _ _ _ _ _ HA), (first_offset_spec _ _ _ _ _ _ HR).
  destruct (Z.eq_dec H B) as [-> | HneB].
  { assert (E : siz (u32 B) (u32 B) = 0) by (destruct (siz_one B), Hsiz as [-> | ->]; done).
    rewrite E. simpl. apply Hempty. intros k Hk.
    destruct (Q (C + k - B)) eqn:EQ; [|done]. pose proof (Htop _ EQ).
    assert (k = 1) as -> by lia. congruence. }
  assert (E : siz (u32 H) (u32 B) = (H - B + 8) / 8).
  { destruct (siz_spec B H _ Hw) as [E1 E2]; [lia | lia|]. by destruct Hsiz as [-> | ->]. }
  rewrite E. set (N := (H - B + 8) / 8).
  assert (HN : 8 * N <= H - B + 8 < 8 * N + 8) by (subst N; Z.div_mod_to_equations; lia). clearbody N.
  destruct (gap_loop_spec get N Q (B - C) room pre) with (n := Z.to_nat N) (i := 0)
    (st := GapState buf at_ 0 false) (bl := @nil (Z * Z)) as (st' & lim & bl & h & Eg & Hwr & Hruns & Hend).
  - intros i Hi. apply Hget. lia.
  - lia.
  - lia.
  - split; [done | | ].
    + split; [done|]. intros k Hk. lia.
    + split; [done|]. intros ?%covers_nil. done.
  - done.
  - lia.
  - lia.
  - replace (B - C + 8 * 0) with (B - C) in Eg by lia. rewrite Eg.
    exists st', lim, bl, h. split; [done|]. split; [done|]. destruct Hruns as [Hsep Hcov].
    assert (Hcov1 : forall k, covers bl k -> reported Q (B - C) k = true).
    { intros k Hk. apply Hcov; [|done]. by apply (separated_covers _ _ _ _ Hsep). }
    split.
    + apply (separated_from (B - C)); [done|]. intros k Hk%Hcov1. unfold reported in Hk.
      apply andb_true_iff in Hk as [?%Z.leb_le _]. done.
    + intros k Hk. rewrite Hcov by lia. unfold reported.
      destruct (Z.leb_spec 1 k); [|lia]. simpl. by replace (k - (B - C)) with (C + k - B) by lia.
    + destruct lim; [done|]. destruct Hend as [-> Hroom]. split; [done|]. intros k Hk1 Hk.
      destruct (Q (C + k - B)) eqn:EQ; [|done]. apply Htop in EQ. lia.
Qed.

End Blocks.

(** ** Reading a chunk *)

Definition word_tsn (w : Z * Z) : Z := w.1 * 65536 + w.2.

Definition sack_gaps (c : sack_chunk) : list (Z * Z) :=
  take (Z.to_nat (num_gap_ack_blks c)) (payload c).
Definition sack_nr_gaps (c : sack_chunk) : list (Z * Z) :=
  take (Z.to_nat (num_nr_gap_ack_blks c)) (drop (Z.to_nat (num_gap_ack_blks c)) (payload c)).
Definition sack_dups (c : sack_chunk) : list Z :=
  map word_tsn (take (Z.to_nat (num_dup_tsns c))
    (drop (Z.to_nat (num_gap_ack_blks c) + Z.to_nat (num_nr_gap_ack_blks c)) (payload c))).

(** What a chunk says of the duplicates recorded in [d], and what is left of them in [d']:
    they are reported in the order they were recorded in, as many as fit in the [room]
    words after the gap blocks; and they are forgotten, unless the gap blocks alone have
    filled the chunk. *)
Record dups_told (room : Z) (d d' : tsn_map) (c : sack_chunk) : Prop := {
  dt_count : num_dup_tsns c = Z.min (numduptsns d) (room - (num_gap_ack_blks c + num_nr_gap_ack_blks c));
  dt_tsns : sack_dups c = map u32 (take (Z.to_nat (num_dup_tsns c)) (dup_tsns d));
  dt_after : numduptsns d' = if num_gap_ack_blks c + num_nr_gap_ack_blks c =? room then numduptsns d else 0
}.

Section Chunk.

Lemma put_dups_spec n i dups room buf pos num :
  0 <= i -> i + Z.of_nat n <= Z.of_nat (length dups) -> 0 <= pos ->
  (n = 0%nat \/ pos + 1 <= room) -> room <= Z.of_nat (length buf) ->
  exists buf' m, put_dups n i dups room buf pos num = Some (buf', num + Z.of_nat m) /\
    length buf' = length buf /\ (m <= n)%nat /\ (n = 0%nat \/ pos + Z.of_nat m <= room) /\
    (m = n \/ pos + Z.of_nat m = room) /\
    take (Z.to_nat pos) buf' = take (Z.to_nat pos) buf /\
    map word_tsn (take m (drop (Z.to_nat pos) buf')) = map u32 (take m (drop (Z.to_nat i) dups)).
Proof.
  revert i buf pos num. induction n as [|n IH]; intros i buf pos num Hi Hl Hp Hr Hb.
  { exists buf, 0%nat. rewrite Z.add_0_r. split_and!; auto. }
  cbn [put_dups]. destruct Hr as [|Hr]; [done|].
  destruct (get_at_some dups i) as (d & Ed & _); [lia|]. rewrite Ed. cbn [mbind option_bind].
  rewrite set_at_some by lia. cbn [mbind option_bind].
  set (w := (u32 d / 65536, u32 d mod 65536)).
  assert (Hw : word_tsn w = u32 d).
  { unfold w, word_tsn. simpl. pose proof (Z.div_mod (u32 d) 65536). lia. }
  assert (Edrop : drop (Z.to_nat i) dups = d :: drop (S (Z.to_nat i)) dups).
  { rewrite get_at_nat in Ed by lia. by apply drop_S. }
  assert (Htk : take (Z.to_nat pos) (<[Z.to_nat pos:=w]> buf) = take (Z.to_nat pos) buf)
    by (by apply take_insert_ge).
  assert (Hat : forall l : list (Z * Z), l !! Z.to_nat pos = Some w ->
     drop (Z.to_nat pos) l = w :: drop (S (Z.to_nat pos)) l) by (intros l E; by apply drop_S).
  destruct (Z.ltb_spec room (pos + 2)) as [Hlim | Hok].
  - exists (<[Z.to_nat pos:=w]> buf), 1%nat. split; [by replace (num + Z.of_nat 1) with (num + 1) by lia|].
    split; [apply length_insert|]. split; [lia|]. split; [lia|]. split; [lia|]. split; [done|].
    rewrite Edrop, Hat by (apply list_lookup_insert_eq; lia). simpl. by rewrite Hw.
  - destruct (IH (i + 1) (<[Z.to_nat pos:=w]> buf) (pos + 1) (num + 1)) as (buf' & m & E & Hlen & Hm & Hroom & Hend & Htake & Hwords);
      [lia | lia | lia | lia | rewrite length_insert; lia|].
    exists buf', (S m). rewrite E. split; [do 2 f_equal; lia|]. rewrite length_insert in Hlen.
    split; [done|]. split; [lia|]. split; [lia|]. split; [lia|].
    replace (Z.to_nat (pos + 1)) with (S (Z.to_nat pos)) in Htake, Hwords by lia.
    replace (Z.to_nat (i + 1)) with (S (Z.to_nat i)) in Hwords by lia.
    rewrite take_insert_last in Htake by lia.
    assert (Hpos : buf' !! Z.to_nat pos = Some w).
    { rewrite <- (lookup_take_lt _ (S (Z.to_nat pos))) by lia. rewrite Htake.
      rewrite lookup_app_r; rewrite length_take_le by lia; [|lia]. by rewrite Nat.sub_diag. }
    split.
    + apply (f_equal (take (Z.to_nat pos))) in Htake. rewrite take_take, Nat.min_l in Htake by lia.
      rewrite Htake, take_app_le, take_take, Nat.min_id by (rewrite length_take; lia). done.
    + rewrite Edrop, (Hat _ Hpos). simpl. by rewrite Hwords, Hw.
Qed.

(** The chunk that carries the blocks [bl1] and [bl2]. *)
Lemma finish_sack_spec header flags room pre bl bl1 bl2 (limited : bool) a st :
  wrote pre bl room st -> pre ++ bl = bl1 ++ bl2 -> 0 <= header <= 20 -> room <= 16000 ->
  (if limited then gp_at st = room else gp_at st + 1 <= room) ->
  0 <= numduptsns (arrays a) <= Z.of_nat (length (dup_tsns (arrays a))) ->
  exists c a', finish_sack header flags room (Z.of_nat (length bl1)) (Z.of_nat (length bl2)) limited a st
      = Some (c, a') /\
    chunk_flags c = flags /\ cum_tsn_ack c = cumulative_tsn (arrays a) /\ a_rwnd c = my_rwnd a /\
    sack_gaps c = bl1 /\ sack_nr_gaps c = bl2 /\ dups_told room (arrays a) (arrays a') c /\
    chunk_length c = header + 4 * Z.of_nat (length (payload c)) /\
    (num_gap_ack_blks c = Z.of_nat (length bl1) /\ num_nr_gap_ack_blks c = Z.of_nat (length bl2)) /\
    (a' = a \/ a' = a <| arrays := (arrays a) <| numduptsns := 0 |> |>).
Proof.
  intros Hw Hbl Hh Hroom Hend Hdup. pose proof (wrote_length _ _ _ _ Hw) as Hlen.
  destruct Hw as [Ha Ht _ Hr]. rewrite Hbl in Ha, Ht.
  rewrite <- length_app, Hbl in Hlen.
  assert (Hdups : exists buf' m d, (if negb limited && negb (numduptsns (arrays a) =? 0) then
         d ← put_dups (Z.to_nat (numduptsns (arrays a))) 0 (dup_tsns (arrays a)) room (gp_buf st) (gp_at st) 0;
         Some (d.1, d.2, (arrays a) <| numduptsns := 0 |>)
       else Some (gp_buf st, 0, arrays a)) = Some (buf', Z.of_nat m, d) /\
     Z.of_nat m = Z.min (numduptsns (arrays a)) (room - gp_at st) /\
     numduptsns d = (if gp_at st =? room then numduptsns (arrays a) else 0) /\
     length buf' = length (gp_buf st) /\
     take (length (bl1 ++ bl2)) buf' = bl1 ++ bl2 /\
     map word_tsn (take m (drop (length (bl1 ++ bl2)) buf')) = map u32 (take m (dup_tsns (arrays a))) /\
     (d = arrays a \/ d = (arrays a) <| numduptsns := 0 |>)).
  { destruct (negb limited && negb (numduptsns (arrays a) =? 0)) eqn:Ed.
    - apply andb_true_iff in Ed as [El%negb_true_iff En%negb_true_iff%Z.eqb_neq]. rewrite El in Hend.
      destruct (put_dups_spec (Z.to_nat (numduptsns (arrays a))) 0 (dup_tsns (arrays a)) room
        (gp_buf st) (gp_at st) 0) as (buf' & m & E & Hl & Hm & Hp & Hall & Htk & Hwd); [lia..|].
      rewrite E. cbn [mbind option_bind fst snd]. exists buf', m, ((arrays a) <| numduptsns := 0 |>).
      rewrite Ha, Nat2Z.id in Htk, Hwd. rewrite Htk.
      split; [done|]. split; [lia|]. split; [zbool; simpl; lia|]. split; [done|]. split; [done|].
      split; [done | by right].
    - assert (Hnum : limited = true \/ numduptsns (arrays a) = 0).
      { apply andb_false_iff in Ed as [El%negb_false_iff | En%negb_false_iff%Z.eqb_eq]; auto. }
      exists (gp_buf st), 0%nat, (arrays a). split; [done|].
      split; [destruct Hnum as [Hl | Hn]; [rewrite Hl in Hend|]; destruct limited; lia|].
      split; [destruct Hnum as [Hl | Hn]; [rewrite Hl in Hend|]; zbool; lia|].
      split; [done|]. split; [done|]. split; [done | by left]. }
  destruct Hdups as (buf' & m & d & E & Hm & Hnd & Hl & Htk & Hwd & Hd).
  unfold finish_sack. rewrite E. cbn [mbind option_bind]. clear E.
  rewrite length_app in *. set (n1 := length bl1) in *. set (n2 := length bl2) in *.
  unfold sizeof_sctp_gap_ack_block.
  assert (Hfit : gp_at st <= room) by (destruct limited; lia).
  assert (Hsz : u16 (header + u32 (Z.of_nat n1 + Z.of_nat n2) * 4 + Z.of_nat m * 4)
                = header + 4 * Z.of_nat (n1 + n2 + m)).
  { rewrite (u32_id (_ + _)) by (unfold in_u32; lia). rewrite u16_id by (unfold in_u16; lia). lia. }
  rewrite Hsz, !u16_id by (unfold in_u16; lia).
  replace (Z.to_nat ((header + 4 * Z.of_nat (n1 + n2 + m) - header) / 4)) with (n1 + n2 + m)%nat
    by (Z.div_mod_to_equations; lia).
  eexists _, _. split; [reflexivity|]. unfold sack_gaps, sack_nr_gaps. simpl.
  rewrite !Nat2Z.id.
  assert (H12 : take (n1 + n2) buf' = bl1 ++ bl2) by done.
  assert (Hpay : length (take (n1 + n2 + m) buf') = (n1 + n2 + m)%nat) by (rewrite length_take; lia).
  split; [done|]. split; [by destruct Hd as [-> | ->]|]. split; [done|].
  split; [|split; [|split; [|split; [lia|split; [done|]]]]].
  - apply (f_equal (take n1)) in H12. rewrite take_take, Nat.min_l in H12 by lia.
    rewrite take_take, Nat.min_l by lia. rewrite H12. apply take_app_length.
  - rewrite skipn_firstn_comm, take_take, Nat.min_l by lia.
    rewrite take_drop_commute, H12. apply drop_app_length.
  - assert (Eat : gp_at st = Z.of_nat n1 + Z.of_nat n2) by lia. rewrite Eat in Hm, Hnd.
    split; unfold sack_dups; simpl; rewrite ?Nat2Z.id; [lia | | done].
    rewrite skipn_firstn_comm, take_take, Nat.min_l by lia. done.
  - destruct Hd as [-> | ->]; [left; by destruct a | by right].
Qed.

End Chunk.

(** ** The two kinds of acknowledgement *)

Section Acks.

Lemma sack_highest_spec s B Hm Hn a : Arr s B Hm Hn a -> sack_highest_tsn a = u32 (Z.max Hm Hn).
Proof.
  intros [Lm Lnr Sz Om Onr Eb Em En Be Ab Bi Tm Tn Im In]. unfold sack_highest_tsn.
  rewrite Em, En, tsn_gt_spec by (unfold lag_max in *; lia). zbool; f_equal; lia.
Qed.

Lemma wrote_nil pre buf at_ room :
  at_ = Z.of_nat (length pre) -> take (length pre) buf = pre -> room <= Z.of_nat (length buf) <= 16384 ->
  wrote pre [] room (GapState buf at_ 0 false).
Proof. intros -> Ht Hr. split; simpl; rewrite ?app_nil_r; done. Qed.

Lemma no_bit_after s B C Hm Hn a :
  Repr s B C Hm Hn a -> C + 1 < B + 8 -> ~ has s (C + 1) -> seen a (C + 1 - B) = false.
Proof.
  intros HR H8 Hno. pose proof (repr_arr _ _ _ _ _ _ HR) as HA.
  pose proof (repr_win _ _ _ _ _ _ HR). pose proof (arr_size _ _ _ _ _ HA).
  destruct (seen a (C + 1 - B)) eqn:E; [|done]. exfalso. apply Hno.
  apply (arr_bits _ _ _ _ _ HA); [lia | done].
Qed.

Lemma gap_blocks_sack s B C Hm Hn a room buf :
  Repr s B C Hm Hn a -> C + 1 < B + 8 -> ~ has s (C + 1) -> no_wrap B 8448 ->
  1 <= room <= Z.of_nat (length buf) -> Z.of_nat (length buf) <= 16000 ->
  exists st lim bl h, gap_blocks SCTP_SELECTIVE_ACK a room buf = Some (st, lim) /\
    wrote [] bl room st /\ section_ok (fun t => seen a (t - B)) C room st lim bl h.
Proof.
  intros HR H8 Hno Hw Hroom Hbuf. pose proof (repr_arr _ _ _ _ _ _ HR) as HA.
  pose proof (arr_in_m _ _ _ _ _ HA). pose proof (arr_in_nr _ _ _ _ _ HA).
  pose proof (section_spec s B C Hm Hn a sack_siz (union_byte a) (seen a) (Z.max Hm Hn) room [] buf 0
    HR H8 Hw (or_introl eq_refl) (get_union _ _ _ _ _ HA)
    (fun g => seen_below_max _ _ _ _ _ _ HA) (no_bit_after _ _ _ _ _ _ HR H8 Hno)) as Hs.
  rewrite <- (sack_highest_spec _ _ _ _ _ HA) in Hs.
  apply Hs; [lia | apply wrote_nil; simpl; done || lia | lia].
Qed.

(** An NR-SACK: first the renegable array, then the other. *)
Lemma gap_blocks_nr s B C Hm Hn a room buf :
  Repr s B C Hm Hn a -> C + 1 < B + 8 -> ~ has s (C + 1) -> no_wrap B 8448 ->
  1 <= room <= Z.of_nat (length buf) -> Z.of_nat (length buf) <= 16000 ->
  exists st lim bl h, gap_blocks SCTP_NR_SELECTIVE_ACK a room buf = Some (st, lim) /\
    wrote [] bl room st /\ section_ok (fun t => bit (mapping_array a) (t - B)) C room st lim bl h.
Proof.
  intros HR H8 Hno Hw Hroom Hbuf. pose proof (repr_arr _ _ _ _ _ _ HR) as HA.
  pose proof (no_bit_after _ _ _ _ _ _ HR H8 Hno) as [Hno' _]%orb_false_iff.
  pose proof (section_spec s B C Hm Hn a nr_sack_siz (get_at (mapping_array a)) (bit (mapping_array a)) Hm room [] buf 0
    HR H8 Hw (or_intror eq_refl) (get_array _ _ (arr_ok_m _ _ _ _ _ HA) (arr_len_m _ _ _ _ _ HA))
    (arr_top_m _ _ _ _ _ HA) Hno' (arr_in_m _ _ _ _ _ HA)) as Hs.
  rewrite <- (arr_hm _ _ _ _ _ HA) in Hs.
  apply Hs; [apply wrote_nil; simpl; done || lia | lia].
Qed.

Lemma nr_gap_blocks_spec s B C Hm Hn a room st pre :
  Repr s B C Hm Hn a -> C + 1 < B + 8 -> ~ has s (C + 1) -> no_wrap B 8448 ->
  wrote [] pre room st -> gp_at st + 1 <= room ->
  exists st' lim bl h, nr_gap_blocks a room st = Some (st', lim) /\
    wrote pre bl room st' /\ section_ok (fun t => bit (nr_mapping_array a) (t - B)) C room st' lim bl h.
Proof.
  intros HR H8 Hno Hw [Ha Ht _ Hr] Hroom. simpl in Ha, Ht. pose proof (repr_arr _ _ _ _ _ _ HR) as HA.
  pose proof (no_bit_after _ _ _ _ _ _ HR H8 Hno) as [_ Hno']%orb_false_iff.
  pose proof (section_spec s B C Hm Hn a nr_sack_siz (get_at (nr_mapping_array a)) (bit (nr_mapping_array a)) Hn room pre
    (gp_buf st) (gp_at st)
    HR H8 Hw (or_intror eq_refl) (get_array _ _ (arr_ok_nr _ _ _ _ _ HA) (arr_len_nr _ _ _ _ _ HA))
    (arr_top_nr _ _ _ _ _ HA) Hno' (arr_in_nr _ _ _ _ _ HA)) as Hs.
  rewrite <- (arr_hn _ _ _ _ _ HA) in Hs.
  apply Hs; [by apply wrote_nil | lia].
Qed.

(** What a chunk says about a set of TSNs: the last one before the first missing, and the
    blocks of the rest, complete or as many as there is room for. *)
Definition blocks_tell (Q : Z -> Prop) (C room words : Z) (bl : list (Z * Z)) : Prop :=
  exists h, separated 1 h bl /\ (forall k, 1 <= k < h -> covers bl k <-> Q (C + k)) /\
    (words = room \/ forall k, 1 <= k -> h <= k -> ~ Q (C + k)).

Lemma section_tells P Q C room st lim bl h :
  section_ok P C room st lim bl h -> (forall k, 1 <= k -> P (C + k) = true <-> Q (C + k)) ->
  blocks_tell Q C room (gp_at st) bl.
Proof.
  intros [Hs Hc He] HPQ. exists h. split; [done|]. split.
  - intros k Hk. rewrite Hc, HPQ by lia. done.
  - destruct lim; [by left|]. right. destruct He as [_ He]. intros k H1 Hk Hq.
    apply HPQ in Hq; [|done]. rewrite He in Hq; done.
Qed.

Lemma seen_has s B C Hm Hn a k :
  Repr s B C Hm Hn a -> 1 <= k -> seen a (C + k - B) = true <-> has s (C + k).
Proof.
  intros HR Hk. pose proof (repr_arr _ _ _ _ _ _ HR) as HA. pose proof (repr_win _ _ _ _ _ _ HR).
  destruct (Z.lt_ge_cases (C + k) (B + 8 * mapping_array_size a)) as [Hlt | Hge].
  - symmetry. apply (arr_bits _ _ _ _ _ HA). lia.
  - rewrite (seen_false_out _ _ _ _ _ _ HA) by lia. split; [done|].
    intros Hh. by apply (arr_above _ _ _ _ _ HA) in Hh.
Qed.

End Acks.

Section Fill.

(** The words there is room for. *)
Definition room_of (type space : Z) : Z :=
  (space - (if type =? SCTP_SELECTIVE_ACK then sizeof_sctp_sack_chunk else sizeof_sctp_nr_sack_chunk))
  / sizeof_sctp_gap_ack_block.

(** What is said besides the gap blocks. *)
Record filled (type flags room : Z) (a : ack_state) (c : sack_chunk) (a' : ack_state) : Prop := {
  fi_flags : chunk_flags c = flags;
  fi_cum : cum_tsn_ack c = cumulative_tsn (arrays a);
  fi_rwnd : a_rwnd c = my_rwnd a;
  fi_dups : dups_told room (arrays a) (arrays a') c;
  fi_len : chunk_length c = (if type =? SCTP_SELECTIVE_ACK then 16 else 20)
                            + 4 * Z.of_nat (length (payload c));
  fi_state : a' = a \/ a' = a <| arrays := (arrays a) <| numduptsns := 0 |> |>
}.

Lemma fill_sack_spec s B C Hm Hn a flags space buf :
  Repr s B C Hm Hn (arrays a) -> C + 1 < B + 8 -> ~ has s (C + 1) -> no_wrap B 8448 ->
  1 <= room_of SCTP_SELECTIVE_ACK space <= Z.of_nat (length buf) -> Z.of_nat (length buf) <= 16000 ->
  exists c a', fill_sack SCTP_SELECTIVE_ACK flags a space buf = Some (c, a') /\
    filled SCTP_SELECTIVE_ACK flags (room_of SCTP_SELECTIVE_ACK space) a c a' /\ sack_nr_gaps c = [] /\
    blocks_tell (has s) C (room_of SCTP_SELECTIVE_ACK space) (Z.of_nat (length (sack_gaps c))) (sack_gaps c).
Proof.
  intros HR H8 Hno Hw Hroom Hbuf.
  destruct (gap_blocks_sack s B C Hm Hn (arrays a) _ buf HR H8 Hno Hw Hroom Hbuf)
    as (st & lim & bl & h & E & Hwr & Hso).
  unfold fill_sack. change (SCTP_SELECTIVE_ACK =? SCTP_SELECTIVE_ACK) with true. cbv iota.
  change ((space - sizeof_sctp_sack_chunk) / sizeof_sctp_gap_ack_block)
    with (room_of SCTP_SELECTIVE_ACK space).
  rewrite E. cbn [mbind option_bind]. change (SCTP_SELECTIVE_ACK =? SCTP_NR_SELECTIVE_ACK) with false.
  cbn [andb]. rewrite (wr_num _ _ _ _ Hwr).
  destruct (repr_dups _ _ _ _ _ _ HR) as [Hd1 Hd2].
  destruct (finish_sack_spec sizeof_sctp_sack_chunk flags _ [] bl bl [] lim a st Hwr)
    as (c & a' & Ef & H1 & H2 & H3 & H4 & H5 & H6 & H9 & _ & H10);
    [by rewrite app_nil_r | unfold sizeof_sctp_sack_chunk; lia | lia | | rewrite Hd1; lia |].
  { destruct Hso as [_ _ He]. destruct lim; [done | apply He]. }
  change (Z.of_nat (length [])) with 0 in Ef. rewrite Ef. exists c, a'. split; [done|].
  split; [by split|]. split; [done|]. rewrite H4.
  pose proof (wr_at _ _ _ _ Hwr) as Hat. simpl in Hat. rewrite <- Hat.
  eapply section_tells; [done|]. intros k Hk. by eapply seen_has.
Qed.

(** The blocks of an NR-SACK: the first kind are renegable, the second are not, and
    together they are the set, unless the chunk is full. *)
Record nr_told (s : received) (B C room : Z) (m : tsn_map) (gaps nr_gaps : list (Z * Z)) : Prop := {
  nt_gaps : forall k, covers gaps k -> bit (mapping_array m) (C + k - B) = true;
  nt_nr : forall k, covers nr_gaps k -> bit (nr_mapping_array m) (C + k - B) = true;
  nt_sound : forall k, covers gaps k \/ covers nr_gaps k -> 1 <= k /\ has s (C + k);
  nt_all : Z.of_nat (length gaps + length nr_gaps) = room \/
           forall k, 1 <= k -> has s (C + k) -> covers gaps k \/ covers nr_gaps k
}.

Lemma section_sound P C room st lim bl h k :
  section_ok P C room st lim bl h -> covers bl k -> 1 <= k /\ P (C + k) = true.
Proof.
  intros [Hs Hc _] Hk. pose proof (separated_covers _ _ _ _ Hs Hk). split; [lia|]. by apply Hc.
Qed.

Lemma section_complete P C room st bl h k :
  section_ok P C room st false bl h -> 1 <= k -> P (C + k) = true -> covers bl k.
Proof.
  intros [Hs Hc [_ He]] Hk HP. destruct (Z.lt_ge_cases k h); [by apply Hc|].
  rewrite He in HP by lia. done.
Qed.

Lemma fill_nr_spec s B C Hm Hn a flags space buf :
  Repr s B C Hm Hn (arrays a) -> C + 1 < B + 8 -> ~ has s (C + 1) -> no_wrap B 8448 ->
  1 <= room_of SCTP_NR_SELECTIVE_ACK space <= Z.of_nat (length buf) -> Z.of_nat (length buf) <= 16000 ->
  exists c a', fill_sack SCTP_NR_SELECTIVE_ACK flags a space buf = Some (c, a') /\
    filled SCTP_NR_SELECTIVE_ACK flags (room_of SCTP_NR_SELECTIVE_ACK space) a c a' /\
    nr_told s B C (room_of SCTP_NR_SELECTIVE_ACK space) (arrays a) (sack_gaps c) (sack_nr_gaps c).
Proof.
  intros HR H8 Hno Hw Hroom Hbuf.
  destruct (gap_blocks_nr s B C Hm Hn (arrays a) _ buf HR H8 Hno Hw Hroom Hbuf)
    as (st & lim & bl & h & E & Hwr & Hso).
  set (room := room_of _ _) in *.
  assert (Hs1 : forall k, covers bl k ->
    1 <= k /\ has s (C + k) /\ bit (mapping_array (arrays a)) (C + k - B) = true).
  { intros k Hk. destruct (section_sound _ _ _ _ _ _ _ _ Hso Hk) as [Hk1 HP]. split; [done|].
    split; [|done]. eapply seen_has; [done..|]. unfold seen. by rewrite HP. }
  assert (Hblocks : exists pre blx st2 (lim2 : bool) bl2,
    fill_sack SCTP_NR_SELECTIVE_ACK flags a space buf
    = finish_sack sizeof_sctp_nr_sack_chunk flags room (Z.of_nat (length bl)) (Z.of_nat (length bl2)) lim2 a st2 /\
    wrote pre blx room st2 /\ pre ++ blx = bl ++ bl2 /\
    (if lim2 then gp_at st2 = room else gp_at st2 + 1 <= room) /\
    nr_told s B C room (arrays a) bl bl2).
  { unfold fill_sack. change (SCTP_NR_SELECTIVE_ACK =? SCTP_SELECTIVE_ACK) with false. cbv iota.
    change ((space - sizeof_sctp_nr_sack_chunk) / sizeof_sctp_gap_ack_block) with room.
    rewrite E. cbn [mbind option_bind]. change (SCTP_NR_SELECTIVE_ACK =? SCTP_NR_SELECTIVE_ACK) with true.
    cbn [andb]. rewrite (wr_num _ _ _ _ Hwr). destruct lim; cbn [negb].
    - exists [], bl, st, true, []. split; [done|]. split; [done|]. split; [by rewrite app_nil_r|].
      split; [apply Hso|]. split; try (intros k ?%covers_nil; done).
      + intros k Hk. by apply Hs1.
      + intros k [Hk | ?%covers_nil]; [|done]. by apply Hs1 in Hk as (? & ? & _).
      + left. pose proof (so_end _ _ _ _ _ _ _ Hso) as Hend. pose proof (wr_at _ _ _ _ Hwr) as Hat.
        simpl in *. lia.
    - pose proof (so_end _ _ _ _ _ _ _ Hso) as [Hroom1 _]. simpl in Hroom1.
      destruct (nr_gap_blocks_spec s B C Hm Hn (arrays a) room st bl HR H8 Hno Hw Hwr Hroom1)
        as (st2 & lim2 & bl2 & h2 & E2 & Hw2 & Hso2).
      rewrite E2. cbn [mbind option_bind fst snd]. exists bl, bl2, st2, lim2, bl2.
      rewrite (wr_num _ _ _ _ Hw2). split; [done|]. split; [done|]. split; [done|].
      pose proof (so_end _ _ _ _ _ _ _ Hso2) as Hend2. pose proof (wr_at _ _ _ _ Hw2) as Hat2.
      rewrite length_app in Hat2. split; [destruct lim2; [done | apply Hend2]|].
      assert (Hs2 : forall k, covers bl2 k ->
        1 <= k /\ has s (C + k) /\ bit (nr_mapping_array (arrays a)) (C + k - B) = true).
      { intros k Hk. destruct (section_sound _ _ _ _ _ _ _ _ Hso2 Hk) as [Hk1 HP]. split; [done|].
        split; [|done]. eapply seen_has; [done..|]. unfold seen. by rewrite HP, orb_true_r. }
      split.
      + intros k Hk. by apply Hs1.
      + intros k Hk. by apply Hs2.
      + intros k [Hk | Hk]; [apply Hs1 in Hk as (? & ? & _) | apply Hs2 in Hk as (? & ? & _)]; done.
      + destruct lim2; [left; lia|]. right. intros k Hk Hh.
        eapply seen_has in Hh; [|done..]. apply orb_true_iff in Hh as [Hh | Hh].
        * left. by eapply section_complete.
        * right. by eapply section_complete. }
  destruct Hblocks as (pre & blx & st2 & lim2 & bl2 & -> & Hw2 & Hbl & Hend & Hnt).
  destruct (repr_dups _ _ _ _ _ _ HR) as [Hd1 Hd2].
  destruct (finish_sack_spec sizeof_sctp_nr_sack_chunk flags _ pre blx bl bl2 lim2 a st2 Hw2 Hbl)
    as (c & a' & -> & H1 & H2 & H3 & H4 & H5 & H6 & H9 & _ & H10);
    [unfold sizeof_sctp_nr_sack_chunk; lia | lia | done | rewrite Hd1; lia |].
  exists c, a'. split; [done|]. split; [by split|]. by rewrite H4, H5.
Qed.

End Fill.

(** ** Sending *)

Section Send.

(** Clearing the count of duplicates and the flag changes nothing that is told. *)
Lemma repr_flags s B C Hm Hn m v :
  Repr s B C Hm Hn m ->
  Repr s B C Hm Hn (m <| send_sack := v |>) /\
  Repr s B C Hm Hn (m <| numduptsns := 0 |> <| send_sack := v |>).
Proof.
  intros [HA Cc Cw Cb Cm Cf [Cd1 Cd2]]. destruct HA.
  split; (split; [by split | done..|]); simpl; lia.
Qed.

Lemma no_wrap_slid s B B' C' n a Hm Hn :
  Arr s B Hm Hn a -> no_wrap B 16896 -> n <= 8448 -> B <= B' <= C' + 1 -> (forall t, t <= C' -> has s t) ->
  no_wrap B' n.
Proof.
  intros HA Hw Hn0 HB Hall. pose proof (arr_size _ _ _ _ _ HA) as Sz.
  assert (C' < B + 8 * mapping_array_size a).
  { destruct (Z.lt_ge_cases C' (B + 8 * mapping_array_size a)); [done|]. exfalso.
    eapply (arr_above _ _ _ _ _ HA); [reflexivity | by apply Hall]. }
  unfold no_wrap. rewrite (no_wrap_u32 B 16896 B') by (done || lia). unfold no_wrap in Hw. lia.
Qed.

(** The words a chunk of [type] has room for when it is sent to the place [env] chooses. *)
Definition words_for (env : sack_env) (type from trailing : Z) : Z :=
  room_of type (sack_space trailing (env_mtu env (sack_destination env from))).

(** The conditions under which a chunk is built: an address data came from, memory for
    the chunk and its mbuf, and room for at least one word after the chunk's header. *)
Record can_send (env : sack_env) (type : Z) (a : ack_state) (from trailing : Z) (buf : list (Z * Z))
    : Prop := {
  cs_from : last_data_chunk_from a = Some from;
  cs_type : (if nrsack_supported a =? 1 then SCTP_NR_SELECTIVE_ACK else SCTP_SELECTIVE_ACK) = type;
  cs_alloc : env_alloc_chunk env = true;
  cs_mbuf : forall n, env_mbuf env n = Some (trailing, buf);
  cs_room : 1 <= words_for env type from trailing <= Z.of_nat (length buf);
  cs_buf : Z.of_nat (length buf) <= 16000
}.

(** The chunk is the last of the queue, and the only one of its type when there was at
    most one before. *)
Definition count_type (type : Z) (q : list ctl_chunk) : nat :=
  length (filter (fun c => chunk_id c = type) q).

Lemma remove_chunk_count type q :
  match remove_chunk type q with
  | Some q' => count_type type q = S (count_type type q')
  | None => count_type type q = 0%nat
  end.
Proof.
  unfold count_type. induction q as [|c q IH]; [done|]. simpl. rewrite filter_cons.
  destruct (Z.eqb_spec (chunk_id c) type) as [E | E].
  - by rewrite decide_True by done.
  - rewrite decide_False by done. destruct (remove_chunk type q); simpl; [|done].
    rewrite filter_cons, decide_False by done. done.
Qed.

Lemma count_type_snoc type q c :
  chunk_id c = type -> count_type type (q ++ [c]) = S (count_type type q).
Proof.
  intros E. unfold count_type. rewrite filter_app, length_app, filter_cons, decide_True by done.
  simpl. lia.
Qed.

(** The chunk that [sctp_send_sack] queued, with what holds of the state around it. *)
Record queued (env : sack_env) (type from trailing : Z) (a a' : ack_state) (c : sack_chunk) : Prop := {
  qd_last : exists q, control_send_queue a'
                      = q ++ [CtlChunk type (Some (sack_destination env from)) (Some c)];
  qd_once : (count_type type (control_send_queue a) <= 1)%nat ->
            count_type type (control_send_queue a') = 1%nat;
  qd_rwnd : a_rwnd c = sctp_calc_rwnd (env_hiwat env) a /\ my_last_reported_rwnd a' = a_rwnd c;
  qd_dups : dups_told (words_for env type from trailing) (arrays a) (arrays a') c;
  qd_reset : data_pkts_seen a' = 0 /\ send_sack (arrays a') = 0
}.

(** Some allocation fails. *)
Definition out_of_memory (env : sack_env) : Prop :=
  env_alloc_chunk env = false \/ exists n, env_mbuf env n = None.

(** The type of chunk that is sent. *)
Definition ack_type (a : ack_state) : Z :=
  if nrsack_supported a =? 1 then SCTP_NR_SELECTIVE_ACK else SCTP_SELECTIVE_ACK.

(** [sctp_send_sack] gives up for want of memory, or it fills a chunk and queues it. *)
Lemma send_sack_cases env a from m :
  last_data_chunk_from a = Some from -> sctp_slide_mapping_arrays (arrays a) = Some m ->
  (out_of_memory env /\ exists b, sctp_send_sack env a = Some (sack_no_memory b) /\
     arrays b = m /\ delayed_ack b = delayed_ack a)
  \/ exists n trailing buf flags a1, env_mbuf env n = Some (trailing, buf) /\ arrays a1 = m /\
    my_rwnd a1 = sctp_calc_rwnd (env_hiwat env) a /\
    forall c a2, fill_sack (ack_type a) flags a1 (sack_space trailing (env_mtu env (sack_destination env from))) buf
        = Some (c, a2) -> filled (ack_type a) flags (words_for env (ack_type a) from trailing) a1 c a2 ->
      exists a', sctp_send_sack env a = Some a' /\ queued env (ack_type a) from trailing a a' c /\
        (arrays a' = m <| send_sack := 0 |> \/ arrays a' = m <| numduptsns := 0 |> <| send_sack := 0 |>).
Proof.
  intros Hfrom Hslide. unfold sctp_send_sack. rewrite Hfrom, Hslide. cbn [mbind option_bind].
  fold (ack_type a). generalize (ack_type a). intros type.
  destruct (slide_rest _ _ Hslide) as (Hd1 & Hd2 & _).
  pose proof (remove_chunk_count type (control_send_queue a)) as Hcount.
  change (control_send_queue (sctp_set_rwnd (env_hiwat env) (a <| arrays := m |>)))
    with (control_send_queue a).
  destruct (negb (bool_decide _) && negb (env_alloc_chunk env)) eqn:Enew.
  { left. apply andb_true_iff in Enew as [_ Hno%negb_true_iff]. split; [by left|].
    eexists. split; [reflexivity|]. by destruct (remove_chunk type (control_send_queue a)). }
  match goal with |- context [env_mbuf env ?n] => destruct (env_mbuf env n) as [[trailing buf]|] eqn:Em; [right | left] end.
  2: { split; [by right; eexists|]. eexists. split; [reflexivity|].
       by destruct (remove_chunk type (control_send_queue a)). }
  eexists _, trailing, buf. clear Enew.
  destruct (remove_chunk type (control_send_queue a)) as [q|];
    (destruct ((0 <? _) && negb (env_use_dac env =? 0));
      match goal with |- context [mbind _ (fill_sack type ?f ?st _ _)] => exists f, st end);
    (split; [exact Em|]; split; [done|]; split; [done|]; intros c a2 Efill [_ _ Hrwnd [Hd3 Hd4 Hd5] _ Hst];
     eexists; split; [cbn [mbind option_bind]; rewrite Efill; reflexivity|];
     simpl in Hd3, Hd4, Hd5; rewrite ?Hd1, ?Hd2 in *;
     destruct Hst as [-> | ->]; simpl in *; (split; [|auto]); split; simpl; try done; eauto;
     intros Hq; rewrite count_type_snoc by done; lia).
Qed.

(** When no allocation fails, from the filling in of the chunk to the end. *)
Lemma send_sack_filled env type a from trailing buf m :
  can_send env type a from trailing buf -> sctp_slide_mapping_arrays (arrays a) = Some m ->
  exists flags a1, arrays a1 = m /\ my_rwnd a1 = sctp_calc_rwnd (env_hiwat env) a /\
    forall c a2, fill_sack type flags a1 (sack_space trailing (env_mtu env (sack_destination env from))) buf
        = Some (c, a2) -> filled type flags (words_for env type from trailing) a1 c a2 ->
      exists a', sctp_send_sack env a = Some a' /\ queued env type from trailing a a' c /\
        (arrays a' = m <| send_sack := 0 |> \/ arrays a' = m <| numduptsns := 0 |> <| send_sack := 0 |>).
Proof.
  intros [Hfrom Htype Halloc Hmbuf _ _] Hslide.
  destruct (send_sack_cases env a from m Hfrom Hslide) as [[[Hno | [n Hno]] _] | (n & t & b & flags & a1 & Em & H)];
    [congruence | by rewrite Hmbuf in Hno |].
  rewrite Hmbuf in Em. injection Em as <- <-. exists flags, a1.
  unfold ack_type in H. by rewrite Htype in H.
Qed.

End Send.

(** ** The theorems *)

(** What a SACK says of a set: the cumulative TSN [C] is the last one before the first
    missing, and the blocks tell the rest. *)
Record sack_tells (s : received) (C room : Z) (c : sack_chunk) : Prop := {
  tl_cum : cum_tsn_ack c = u32 C;
  tl_below : forall t, t <= C -> has s t;
  tl_missing : ~ has s (C + 1);
  tl_blocks : blocks_tell (has s) C room (Z.of_nat (length (sack_gaps c))) (sack_gaps c);
  tl_nr : sack_nr_gaps c = [];
  tl_len : chunk_length c = 16 + 4 * Z.of_nat (length (payload c))
}.

Section Theorems.

Lemma repr_after_send s B C Hm Hn m arr :
  Repr s B C Hm Hn m -> arr = m <| send_sack := 0 |> \/ arr = m <| numduptsns := 0 |> <| send_sack := 0 |> ->
  implements arr (RcvSpec s B C).
Proof.
  intros HR [-> | ->]; exists Hm, Hn; destruct (repr_flags s B C Hm Hn m 0 HR); done.
Qed.

Lemma send_sack_of_slid env a s B C Hm Hn from trailing buf m :
  sctp_slide_mapping_arrays (arrays a) = Some m -> Repr s B C Hm Hn m -> C + 1 < B + 8 ->
  ~ has s (C + 1) -> no_wrap B 8448 -> can_send env SCTP_SELECTIVE_ACK a from trailing buf ->
  exists c a', sctp_send_sack env a = Some a' /\ queued env SCTP_SELECTIVE_ACK from trailing a a' c /\
    implements (arrays a') (RcvSpec s B C) /\
    sack_tells s C (words_for env SCTP_SELECTIVE_ACK from trailing) c.
Proof.
  intros Es HR H8 Hno Hw Hsend.
  destruct (send_sack_filled env _ a from trailing buf m Hsend Es) as (flags & a1 & Ea1 & Er1 & Hfill).
  destruct (fill_sack_spec s B C Hm Hn a1 flags _ buf ltac:(by rewrite Ea1) H8 Hno Hw
    (cs_room _ _ _ _ _ _ Hsend) (cs_buf _ _ _ _ _ _ Hsend)) as (c & a2 & E & Hfil & Hnr & Htell).
  destruct (Hfill c a2 E Hfil) as (a' & Ea' & Hq & Harr).
  exists c, a'. split; [done|]. split; [done|]. split; [by eapply repr_after_send|].
  split; try done; [rewrite (fi_cum _ _ _ _ _ _ Hfil), Ea1; apply HR | apply HR | apply (fi_len _ _ _ _ _ _ Hfil)].
Qed.

(** C33. Whatever has arrived and in whatever order, the SACK that [sctp_send_sack] queues
    carries as cumulative TSN the last one before the first missing and, in ascending
    order and never adjacent, gap blocks that cover exactly the TSNs received beyond it:
    all of them, or as many as the chunk has room for; and after them the duplicates that
    were recorded, in that order, as many as there is room for, which are then forgotten
    (they are kept when the gap blocks have filled the chunk).  It replaces a SACK still
    in the queue, reports the receive window, and leaves the arrays standing for the same
    set.
    (The TSNs of the arrays' window must not wrap around.) *)
Theorem sack_tells_received_set env a s B C from trailing buf :
  implements (arrays a) (RcvSpec s B C) -> event_ok (arrays a) Slide = true -> no_wrap B 16896 ->
  can_send env SCTP_SELECTIVE_ACK a from trailing buf ->
  exists B' C' c a', sctp_send_sack env a = Some a' /\
    queued env SCTP_SELECTIVE_ACK from trailing a a' c /\ implements (arrays a') (RcvSpec s B' C') /\
    sack_tells s C' (words_for env SCTP_SELECTIVE_ACK from trailing) c.
Proof.
  intros (Hm & Hn & HR) Hev Hw Hsend. simpl in HR.
  pose proof (repr_arr _ _ _ _ _ _ HR) as HA. pose proof (fresh_of_bool _ _ _ _ _ HA Hev) as HF.
  destruct (slide_repr _ _ _ _ _ _ HR HF) as (B' & C' & Hm' & Hn' & m & Es & HR' & HB & H8 & _ & Hno).
  pose proof (no_wrap_slid _ _ _ _ 8448 _ _ _ HA Hw ltac:(lia) HB (repr_below _ _ _ _ _ _ HR')) as Hw'.
  exists B', C'. by eapply send_sack_of_slid.
Qed.

(** C34. An NR-SACK carries the same cumulative TSN; its first blocks cover TSNs the
    receiver may still drop and its second ones TSNs it may not, all of them received,
    and together they are everything received beyond the cumulative TSN unless the chunk
    is full.  It reports the duplicates the way a SACK does. *)
Theorem nr_sack_tells_received_set env a s B C from trailing buf :
  implements (arrays a) (RcvSpec s B C) -> event_ok (arrays a) Slide = true -> no_wrap B 16896 ->
  can_send env SCTP_NR_SELECTIVE_ACK a from trailing buf ->
  exists B' C' c m a', sctp_send_sack env a = Some a' /\
    queued env SCTP_NR_SELECTIVE_ACK from trailing a a' c /\ implements (arrays a') (RcvSpec s B' C') /\
    cum_tsn_ack c = u32 C' /\ (forall t, t <= C' -> has s t) /\ ~ has s (C' + 1) /\
    sctp_slide_mapping_arrays (arrays a) = Some m /\
    nr_told s B' C' (words_for env SCTP_NR_SELECTIVE_ACK from trailing) m (sack_gaps c) (sack_nr_gaps c) /\
    chunk_length c = 20 + 4 * Z.of_nat (length (payload c)).
Proof.
  intros (Hm & Hn & HR) Hev Hw Hsend. simpl in HR.
  pose proof (repr_arr _ _ _ _ _ _ HR) as HA. pose proof (fresh_of_bool _ _ _ _ _ HA Hev) as HF.
  destruct (slide_repr _ _ _ _ _ _ HR HF) as (B' & C' & Hm' & Hn' & m & Es & HR' & HB & H8 & _ & Hno).
  pose proof (repr_below _ _ _ _ _ _ HR') as Hall.
  pose proof (no_wrap_slid _ _ _ _ 8448 _ _ _ HA Hw ltac:(lia) HB Hall) as Hw'.
  destruct (send_sack_filled env _ a from trailing buf m Hsend Es) as (flags & a1 & Ea1 & Er1 & Hfill).
  destruct (fill_nr_spec s B' C' Hm' Hn' a1 flags _ buf ltac:(by rewrite Ea1) H8 Hno Hw'
    (cs_room _ _ _ _ _ _ Hsend) (cs_buf _ _ _ _ _ _ Hsend)) as (c & a2 & E & Hfil & Htell).
  destruct (Hfill c a2 E Hfil) as (a' & Ea' & Hq & Harr).
  exists B', C', c, m, a'. split; [done|]. split; [done|]. split; [by eapply repr_after_send|].
  split; [rewrite (fi_cum _ _ _ _ _ _ Hfil), Ea1; apply HR'|]. split; [done|]. split; [done|].
  split; [done|]. rewrite Ea1 in Htell. split; [done|]. apply (fi_len _ _ _ _ _ _ Hfil).
Qed.













(** When the highest TSN received is numerically below the TSN the arrays start at,
    that is, after the TSN wrapped around inside the window, the size computed for a
    SACK is 0 and the SACK reports no gap block, whatever was received beyond the
    cumulative TSN. *)
Theorem sack_silent_across_wrap env a s B C from trailing buf m :
  implements (arrays a) (RcvSpec s B C) -> event_ok (arrays a) Slide = true ->
  sctp_slide_mapping_arrays (arrays a) = Some m ->
  sack_highest_tsn m <= mapping_array_base_tsn m ->
  can_send env SCTP_SELECTIVE_ACK a from trailing buf ->
  exists C' c a', sctp_send_sack env a = Some a' /\ queued env SCTP_SELECTIVE_ACK from trailing a a' c /\
    cum_tsn_ack c = u32 C' /\ ~ has s (C' + 1) /\
    num_gap_ack_blks c = 0 /\ forall t, has s t -> C' < t -> ~ covers (sack_gaps c) (t - C').
Proof.
  intros (Hm & Hn & HR) Hev Es Hle Hsend. simpl in HR.
  pose proof (fresh_of_bool _ _ _ _ _ (repr_arr _ _ _ _ _ _ HR) Hev) as HF.
  destruct (slide_repr _ _ _ _ _ _ HR HF) as (B' & C' & Hm' & Hn' & m' & Es' & HR' & _ & _ & _ & Hno).
  rewrite Es in Es'. injection Es' as <-.
  assert (Hh : in_u32 (sack_highest_tsn m))
    by (rewrite (sack_highest_spec _ _ _ _ _ (repr_arr _ _ _ _ _ _ HR')); apply u32_range).
  assert (Hb : in_u32 (mapping_array_base_tsn m))
    by (rewrite (arr_base _ _ _ _ _ (repr_arr _ _ _ _ _ _ HR')); apply u32_range).
  destruct (repr_dups _ _ _ _ _ _ HR') as [Hd1 Hd2].
  destruct (send_sack_filled env _ a from trailing buf m Hsend Es) as (flags & a1 & Ea1 & Er1 & Hfill).
  set (room := words_for env SCTP_SELECTIVE_ACK from trailing).
  assert (Eg : gap_blocks SCTP_SELECTIVE_ACK m room buf = Some (GapState buf 0 0 false, false)).
  { unfold gap_blocks. change (SCTP_SELECTIVE_ACK =? SCTP_SELECTIVE_ACK) with true. cbv iota.
    assert (E0 : sack_siz (sack_highest_tsn m) (mapping_array_base_tsn m) = 0).
    { unfold sack_siz, MAX_TSN. destruct (Z.ltb_spec (mapping_array_base_tsn m) (sack_highest_tsn m)); [lia|].
      replace (u32 _) with 7 by width_lia. done. }
    rewrite E0. by destruct (SCTP_TSN_GT _ _). }
  pose proof (cs_room _ _ _ _ _ _ Hsend) as Hroom. fold room in Hroom. pose proof (cs_buf _ _ _ _ _ _ Hsend) as Hbuf.
  destruct (finish_sack_spec sizeof_sctp_sack_chunk flags room [] [] [] [] false a1 (GapState buf 0 0 false))
    as (c & a2 & Ef & H1 & H2 & H3 & H4 & H5 & H6 & H9 & [Hnum _] & H10);
    [apply wrote_nil; done || lia | done | unfold sizeof_sctp_sack_chunk; lia | lia | simpl; lia
    | rewrite Ea1, Hd1; lia |].
  assert (Efill : fill_sack SCTP_SELECTIVE_ACK flags a1
            (sack_space trailing (env_mtu env (sack_destination env from))) buf = Some (c, a2)).
  { unfold fill_sack. rewrite Ea1.
    change (if SCTP_SELECTIVE_ACK =? SCTP_SELECTIVE_ACK then _ else _) with sizeof_sctp_sack_chunk.
    change ((_ - sizeof_sctp_sack_chunk) / sizeof_sctp_gap_ack_block) with room.
    rewrite Eg. exact Ef. }
  destruct (Hfill c a2 Efill) as (a' & Ea' & Hq & _); [by split|].
  exists C', c, a'. split; [done|]. split; [done|].
  split; [rewrite H2, Ea1; apply HR'|]. split; [done|]. split; [done|].
  intros t _ _. rewrite H4. apply covers_nil.
Qed.

(** The size computed for the blocks of an NR-SACK after a wrap-around is that of one TSN
    less than there are, so that the byte of the highest TSN is left out when that TSN is
    the first of its byte. *)
Theorem nr_sack_siz_wrap B H :
  B < H < B + 8448 -> u32 H < u32 B ->
  nr_sack_siz (u32 H) (u32 B) = (H - B + 7) / 8.
Proof.
  intros HB Hw. unfold nr_sack_siz, MAX_TSN. destruct (Z.ltb_spec (u32 B) (u32 H)); [lia|].
  f_equal. pose proof (u32_range B). pose proof (u32_range H). unfold in_u32 in *.
  assert (u32 H = u32 B + (H - B) - 4294967296) by width_lia.
  rewrite (u32_id (4294967295 - u32 B)), (u32_id (4294967295 - u32 B + 1)) by (unfold in_u32; lia).
  replace (4294967295 - u32 B + 1 + u32 H + 7) with (H - B + 7) by lia.
  apply u32_id. unfold in_u32. lia.
Qed.

End Theorems.

(** ** Witnesses *)

(** A destination that is reachable, an mbuf with room for 300 words, no CMT DAC. *)
Definition plain_env : sack_env :=
  SackEnv (Some 100000) true (fun _ => true) (fun _ => None)
    (fun _ => Some (1000, replicate 300 (0, 0))) (fun _ => 1500) 0.

(** An association with given arrays that has got data from destination 0; an old SACK is
    still queued. *)
Definition plain_state (nrsack : Z) (m : tsn_map) : ack_state :=
  AckState m 8 0 0 0 500 0 0 0 0 200 2 1 0 0 nrsack [CtlChunk 3 None None] 1 (Some 0) 0 true.

(** The arrays after two chunks. *)
Definition after_two (m : tsn_map) (t1 t2 : Z) : tsn_map :=
  default m (r ← data_step m t1 true true (Some false); r ← data_step r.2 t2 true true (Some true); Some r.2).

Section Witnesses.

Lemma after_two_implements tsn t1 t2 m1 m2 z2 :
  in_u32 tsn -> in_u32 t1 -> in_u32 t2 ->
  data_step (new_map tsn) t1 true true (Some false) = Some (AnsTaken, m1) ->
  data_step m1 t2 true true (Some true) = Some (AnsTaken, m2) ->
  unwrap (tsn - 1) t1 = tsn -> unwrap tsn t2 = z2 -> z2 <> tsn + 1 ->
  implements (after_two (new_map tsn) t1 t2) (RcvSpec (receive (receive (Received tsn ∅) tsn) z2) tsn tsn).
Proof.
  intros H0 H1 H2 E1 E2 U1 U2 Hz.
  pose proof (taken_implements _ _ _ _ _ _ _ _ _ (new_map_implements tsn H0) H1 E1) as Hi.
  rewrite U1 in Hi. replace (tsn - 1 + 1) with tsn in Hi by lia. rewrite Z.eqb_refl in Hi.
  pose proof (taken_implements _ _ _ _ _ _ _ _ _ Hi H2 E2) as Hj.
  rewrite U2 in Hj. rewrite (proj2 (Z.eqb_neq _ _) Hz) in Hj.
  unfold after_two. rewrite E1. cbn [mbind option_bind snd]. rewrite E2. exact Hj.
Qed.

(** TSN 100 and 102 have arrived, of an association that starts with 100. *)
Definition two_apart : tsn_map := after_two (new_map 100) 100 102.

Definition two_apart_set : received := receive (receive (Received 100 ∅) 100) 102.

Lemma two_apart_implements : implements two_apart (RcvSpec two_apart_set 100 100).
Proof.
  assert (Hu : in_u32 100 /\ in_u32 102) by (unfold in_u32; lia). destruct Hu as [H1 H2].
  eapply (after_two_implements 100 100 102 _ _ 102 H1 H1 H2);
    [vm_compute; reflexivity.. | vm_compute; discriminate].
Qed.

(** Around the wrap-around: 4294967294 and, two further on, 0. *)
Definition two_wrapped : tsn_map := after_two (new_map 4294967294) 4294967294 0.

Definition two_wrapped_set : received := receive (receive (Received 4294967294 ∅) 4294967294) 4294967296.

Lemma two_wrapped_implements : implements two_wrapped (RcvSpec two_wrapped_set 4294967294 4294967294).
Proof.
  assert (Hu : in_u32 4294967294 /\ in_u32 0) by (unfold in_u32; lia). destruct Hu as [H1 H2].
  eapply (after_two_implements 4294967294 4294967294 0 _ _ 4294967296 H1 H1 H2);
    [vm_compute; reflexivity.. | vm_compute; discriminate].
Qed.

Lemma plain_can_send nrsack m type :
  (if nrsack =? 1 then SCTP_NR_SELECTIVE_ACK else SCTP_SELECTIVE_ACK) = type ->
  can_send plain_env type (plain_state nrsack m) 0 1000 (replicate 300 (0, 0)).
Proof.
  intros <-. split; try done; destruct (nrsack =? 1); vm_compute; split; congruence.
Qed.

Lemma sack_tells_received_set_witness :
  event_ok two_apart Slide = true /\
  exists B' C' c a', sctp_send_sack plain_env (plain_state 0 two_apart) = Some a' /\
    queued plain_env SCTP_SELECTIVE_ACK 0 1000 (plain_state 0 two_apart) a' c /\
    implements (arrays a') (RcvSpec two_apart_set B' C') /\
    sack_tells two_apart_set C' (words_for plain_env SCTP_SELECTIVE_ACK 0 1000) c.
Proof.
  split; [vm_compute; reflexivity|].
  apply (sack_tells_received_set plain_env (plain_state 0 two_apart) two_apart_set 100 100 0 1000 (replicate 300 (0, 0)));
    [exact two_apart_implements | vm_compute; reflexivity | vm_compute; discriminate | by apply plain_can_send].
Defined.

(** The chunk of that SACK: cumulative TSN 100 and one block, from 2 to 2. *)
Example sack_of_two_apart :
  (a' ← sctp_send_sack plain_env (plain_state 0 two_apart); head (control_send_queue a'))
  = Some (CtlChunk 3 (Some 0) (Some (SackChunk 0 20 100 99500 1 0 0 [(2, 2)]))).
Proof. vm_compute. reflexivity. Qed.

(** TSN 102 has arrived a second and a third time: the chunk says so, twice, and the
    duplicates are forgotten. *)
Example sack_of_duplicates :
  (m ← record_dup two_apart 102; m ← record_dup m 102; a' ← sctp_send_sack plain_env (plain_state 0 m);
   c ← head (control_send_queue a'); Some (c, numduptsns (arrays a')))
  = Some (CtlChunk 3 (Some 0) (Some (SackChunk 0 28 100 99500 1 0 2 [(2, 2); (0, 102); (0, 102)])), 0).
Proof. vm_compute. reflexivity. Qed.

Lemma nr_sack_tells_received_set_witness :
  event_ok two_apart Slide = true /\
  exists B' C' c m a', sctp_send_sack plain_env (plain_state 1 two_apart) = Some a' /\
    queued plain_env SCTP_NR_SELECTIVE_ACK 0 1000 (plain_state 1 two_apart) a' c /\
    implements (arrays a') (RcvSpec two_apart_set B' C') /\
    cum_tsn_ack c = u32 C' /\ (forall t, t <= C' -> has two_apart_set t) /\ ~ has two_apart_set (C' + 1) /\
    sctp_slide_mapping_arrays (arrays (plain_state 1 two_apart)) = Some m /\
    nr_told two_apart_set B' C' (words_for plain_env SCTP_NR_SELECTIVE_ACK 0 1000) m (sack_gaps c) (sack_nr_gaps c) /\
    chunk_length c = 20 + 4 * Z.of_nat (length (payload c)).
Proof.
  split; [vm_compute; reflexivity|].
  apply (nr_sack_tells_received_set plain_env (plain_state 1 two_apart) two_apart_set 100 100 0 1000 (replicate 300 (0, 0)));
    [exact two_apart_implements | vm_compute; reflexivity | vm_compute; discriminate | by apply plain_can_send].
Defined.

(** No mbuf can be had, and acknowledgements are not delayed. *)
Definition poor_env : sack_env :=
  SackEnv (Some 100000) true (fun _ => true) (fun _ => None) (fun _ => None) (fun _ => 1500) 0.
Definition hasty_state (m : tsn_map) : ack_state :=
  AckState m 8 0 0 0 500 0 0 0 0 0 2 1 0 0 1 [] 0 (Some 0) 0 false.

(** With memory a SACK is queued; without it the flag is set and the timer stays off. *)
Example check_of_two_apart :
  (r ← sctp_sack_check plain_env false (plain_state 0 two_apart); head (control_send_queue r.2))
  = Some (CtlChunk 3 (Some 0) (Some (SackChunk 0 20 100 99500 1 0 0 [(2, 2)]))) /\
  (r ← sctp_sack_check poor_env false (hasty_state two_apart);
   Some (control_send_queue r.2, dack_timer_pending r.2, send_sack (arrays r.2))) = Some ([], false, 1).
Proof. split; vm_compute; reflexivity. Qed.


(** TSN 4294967296, that is 0, has arrived beyond the missing 4294967295, and the SACK
    does not tell it. *)
Lemma sack_silent_across_wrap_witness :
  has two_wrapped_set 4294967296 /\
  exists C' c a', sctp_send_sack plain_env (plain_state 0 two_wrapped) = Some a' /\
    queued plain_env SCTP_SELECTIVE_ACK 0 1000 (plain_state 0 two_wrapped) a' c /\
    cum_tsn_ack c = u32 C' /\ ~ has two_wrapped_set (C' + 1) /\
    num_gap_ack_blks c = 0 /\ forall t, has two_wrapped_set t -> C' < t -> ~ covers (sack_gaps c) (t - C').
Proof.
  split; [vm_compute; right; set_solver|].
  destruct (sctp_slide_mapping_arrays (arrays (plain_state 0 two_wrapped))) as [m|] eqn:Em; [|by vm_compute in Em].
  apply (sack_silent_across_wrap plain_env (plain_state 0 two_wrapped) two_wrapped_set 4294967294 4294967294
    0 1000 (replicate 300 (0, 0)) m);
    [exact two_wrapped_implements | vm_compute; reflexivity | exact Em
    | vm_compute in Em; injection Em as <-; vm_compute; discriminate | by apply plain_can_send].
Defined.

End Witnesses.
