(* ===== verification/RecvInv.v ===== *)
(** * The receiver's invariant

    What the queues of a stream hold, in terms of the messages the peer sends ([RecvPlan])
    and the set of TSNs taken.  The arrays are seen through [Repr] ([TsnMapInv]) only, and
    the counters of queued bytes, which decide nothing but the window, not at all: [core] is
    the rest of the state.  *)

From Stdlib Require Import Sorted.
From S2P Require Import Prelude Serial Tailq TsnMap TsnMapInv Sack Mbuf MbufProps Reasm ReasmQueue RecvData RecvPlan.

Open Scope sctp_scope.

(** ** The state without arrays and counters *)

Record core := Core {
  k_strm : list stream_in;
  k_store : gmap nat queued_to_read;
  k_next : nat;
  k_read : list nat;
  k_reset : list stream_reset;
  k_eff : list rx_effect;
  k_state : Z
}.

Definition core_of (s : receiver) : core :=
  Core (strmin s) (controls s) (next_control s) (read_queue s) (resetHead s) (effects s) (assoc_state (ack s)).

(** The arrays stand for [R], and may be slid: their highest TSNs do not lag too far. *)
Definition held (R : received) (B C Hm Hn : Z) (a : tsn_map) : Prop := Repr R B C Hm Hn a /\ fresh B Hm Hn.

(** The arrays hold [R], and the cumulative TSN is [C]. *)
Definition tracks (R : received) (C : Z) (s : receiver) : Prop :=
  exists B Hm Hn, held R B C Hm Hn (arrays (ack s)).

(** The TSNs that are not too old to be compared with the cumulative one. *)
Definition recent (C z : Z) : Prop := C - 1073741824 <= z.

Section Tracks.

Lemma tracks_ext R R' C s :
  (forall u, has R u <-> has R' u) -> first R' = first R -> tracks R C s -> tracks R' C s.
Proof.
  intros He Hf (B & Hm & Hn & [HA Cc Cw Cb Cm Cf Cd] & HF). exists B, Hm, Hn. split; [|done].
  split; try done; [by eapply arr_ext | intros t Ht; by apply He, Cb | by rewrite Hf].
Qed.

Lemma tracks_arrays R C s s' : arrays (ack s') = arrays (ack s) -> tracks R C s -> tracks R C s'.
Proof. intros E (B & Hm & Hn & HR). exists B, Hm, Hn. by rewrite E. Qed.

(** What has been taken is at most 8448 above the cumulative TSN. *)
Lemma tracks_above R C s z : tracks R C s -> has R z -> z <= C + 8448.
Proof.
  intros (B & Hm & Hn & HR & _) Hz. pose proof (repr_arr _ _ _ _ _ _ HR) as HA.
  pose proof (arr_size _ _ _ _ _ HA). pose proof (repr_win _ _ _ _ _ _ HR).
  destruct (Z.le_gt_cases (B + 8 * mapping_array_size (arrays (ack s))) z) as [Hge|]; [|lia].
  by apply (arr_above _ _ _ _ _ HA) in Hge.
Qed.

Lemma tracks_below R C s z : tracks R C s -> z <= C -> has R z.
Proof. intros (B & Hm & Hn & HR & _). apply (repr_below _ _ _ _ _ _ HR). Qed.

Lemma mark_spec env R C s z :
  tracks R C s -> has R z -> recent C z ->
  exists s', mark_non_revokable env (u32 z) s = Some s' /\ tracks R C s' /\ core_of s' = core_of s.
Proof.
  intros (B & Hm & Hn & HR & HF) Hz Hrec. unfold recent in Hrec. pose proof (repr_arr _ _ _ _ _ _ HR) as HA.
  assert (z < B + 8 * mapping_array_size (arrays (ack s))).
  { destruct (Z.le_gt_cases (B + 8 * mapping_array_size (arrays (ack s))) z) as [Hge|]; [|lia].
    by apply (arr_above _ _ _ _ _ HA) in Hge. }
  destruct (mark_non_revokable_full R B C Hm Hn (arrays (ack s)) (sctp_do_drain env) z HR) as (Hm' & Hn' & a' & E & HR' & Hlow).
  { lia. }
  unfold mark_non_revokable. rewrite E. cbn [mbind option_bind].
  eexists. split; [reflexivity|]. split; [|done].
  eapply (tracks_ext (if (sctp_do_drain env =? 0) || (z <=? C) then R else receive R z)).
  - intros u. destruct (_ || _); [done|]. rewrite has_receive. split; [intros [-> |]; done | auto].
  - by destruct (_ || _).
  - exists B, Hm', Hn'. split; [done|]. destruct HF. split; lia.
Qed.

End Tracks.

(** ** Controls *)

Section Invariant.
Context (msg : nat -> nat -> option message).

(** A fragment that waits in the list of its control. *)
Record chunk_at (m : message) (i : nat) (chk : rx_chunk) : Prop := ChunkAt {
  ca_fsn : rec_fsn chk = u32 (frag_tsn m i);
  ca_tsn : rec_tsn chk = u32 (frag_tsn m i);
  ca_first : has_flag (rcv_flags chk) SCTP_DATA_FIRST_FRAG = (i =? 0)%nat;
  ca_last : has_flag (rcv_flags chk) SCTP_DATA_LAST_FRAG = (S i =? m_size m)%nat;
  ca_data : chain_bytes (chk_data chk) = frag m i
}.

(** The control of message [j] of stream [sid]: the first [r] fragments have been merged,
    and those of [l] wait. *)
Record ctl_at (sid j : nat) (m : message) (r : nat) (l : list nat) (c : queued_to_read) : Prop := CtlAt {
  ct_stream : sinfo_stream c = Z.of_nat sid;
  ct_mid : mid c = u16 (Z.of_nat j);
  ct_ordered : has_flag (flags_of c) SCTP_DATA_UNORDERED = false;
  ct_whole : not_frag (flags_of c) = (m_size m =? 1)%nat;
  ct_stcb : has_stcb c = true;
  ct_read : on_read_q c = 0;
  ct_pd : pdapi_started c = 0;
  ct_first : first_frag_seen c = (if (r =? 0)%nat then 0 else 1);
  ct_end : end_added c = (if (r =? m_size m)%nat then 1 else 0);
  ct_data : chain_bytes (data c) = concat (take r (m_frags m));
  ct_length : ctl_length c = Z.of_nat (length (concat (take r (m_frags m))));
  ct_tail : (0 < r < m_size m)%nat -> data c <> [] /\ tail_mbuf c = Some (length (data c) - 1)%nat;
  ct_none : r = 0%nat -> data c = [];
  ct_incl : (0 < r)%nat -> fsn_included c = u32 (frag_tsn m (r - 1));
  ct_tsn : (0 < r)%nat -> sinfo_tsn c = u32 (m_tsn m) /\ sinfo_ppid c = m_ppid m;
  ct_bound : (r <= m_size m)%nat;
  ct_sorted : StronglySorted lt l;
  ct_waiting : Forall (fun i => (r <= i < m_size m)%nat) l;
  ct_reasm : Forall2 (chunk_at m) l (reasm c)
}.

(** [top_fsn] and [last_frag_seen] know about the last fragment when it has been taken. *)
Record top_at (R : received) (m : message) (c : queued_to_read) : Prop := TopAt {
  ta_last : last_frag_seen c = (if decide (has R (frag_tsn m (m_size m - 1))) then 1 else 0);
  ta_top : top_fsn c = 0xffffffff \/ exists i, (1 <= i < m_size m)%nat /\ top_fsn c = u32 (frag_tsn m i);
  ta_over : has R (frag_tsn m (m_size m - 1)) ->
            forall i, (1 <= i < m_size m)%nat -> SCTP_TSN_GT (u32 (frag_tsn m i)) (top_fsn c) = false
}.

(** The fragments taken are the first [r] and those of [l]. *)
Definition holds (R : received) (m : message) (r : nat) (l : list nat) : Prop :=
  forall i, (i < m_size m)%nat -> (has R (frag_tsn m i) <-> (i < r)%nat \/ i ∈ l).

(** A control in the queue of its stream: what is next has been merged. *)
Definition waits (R : received) (sid j : nat) (c : queued_to_read) : Prop :=
  exists m r l, msg sid j = Some m /\ ctl_at sid j m r l c /\ on_strm_q c = SCTP_ON_ORDERED /\
    ((m_size m > 1)%nat -> top_at R m c) /\ (r = m_size m -> last_frag_seen c = 1) /\
    holds R m r l /\ (r ∉ l) /\ ((0 < r)%nat \/ l <> []).

(** The state of stream [sid], of which [D] messages have been delivered. *)
Record stream_at (R : received) (store : gmap nat queued_to_read) (sid : nat) (x : stream_in) (D : nat)
  (js : list nat) : Prop := StreamAt {
  sa_last : last_mid_delivered x = u32 (Z.of_nat D - 1);
  sa_pd : pd_api_started x = 0;
  sa_uno : uno_inqueue x = [];
  sa_done : forall j, (j < D)%nat -> exists m, msg sid j = Some m /\ complete R m;
  sa_queue : Forall2 (fun p j => exists c, store !! p = Some c /\ waits R sid j c) (inqueue x) js;
  sa_sorted : StronglySorted lt js;
  sa_window : Forall (fun j => Z.of_nat D <= Z.of_nat j < Z.of_nat D + 16384) js;
  sa_all : forall j m i, msg sid j = Some m -> (D <= j)%nat -> (i < m_size m)%nat ->
           has R (frag_tsn m i) -> j ∈ js
}.

(** A stream between chunks: what has been delivered is what is complete. *)
Record stream_ok (R : received) (s : receiver) (sid : nat) (x : stream_in) (D : nat) (js : list nat) : Prop := StreamOk {
  so_strm : strm s sid = Some x;
  so_at : stream_at R (controls s) sid x D js;
  so_prefix : complete_prefix msg R sid D;
  so_sent : on_stream sid (deliveries (effects s)) = sent_from msg sid 0 D
}.

(** The queues of the receiver, with [n] streams. *)
Record queues_ok (R : received) (n : nat) (s : receiver) : Prop := QueuesOk {
  qo_read : read_queue s = [];
  qo_reset : resetHead s = [];
  qo_open : has_flag (assoc_state (ack s)) SCTP_STATE_CLOSED_SOCKET = false;
  qo_fresh : forall p, (next_control s <= p)%nat -> controls s !! p = None;
  qo_quiet : Forall (fun e => aborts e = false) (effects s);
  qo_streams : length (strmin s) = n;
  qo_stream : forall sid, (sid < n)%nat -> exists x D js, stream_ok R s sid x D js
}.

(** The whole receiver, between chunks. *)
Definition rx_inv (R : received) (C : Z) (n : nat) (s : receiver) : Prop := tracks R C s /\ queues_ok R n s.

(** What the processing of stream [sid] does while [D] becomes [D']. *)
Record progress (sid : nat) (R : received) (C : Z) (s s' : receiver) (x' : stream_in) (D D' : nat) : Prop := Progress {
  pg_tracks : tracks R C s';
  pg_strm : strmin s' = <[sid := x']> (strmin s);
  pg_keep : forall p c, controls s !! p = Some c -> sinfo_stream c <> Z.of_nat sid -> controls s' !! p = Some c;
  pg_gone : forall p, controls s !! p = None -> controls s' !! p = None;
  pg_next : next_control s' = next_control s;
  pg_read : read_queue s' = [];
  pg_reset : resetHead s' = resetHead s;
  pg_state : assoc_state (ack s') = assoc_state (ack s);
  pg_le : (D <= D')%nat;
  pg_eff : exists e, effects s' = effects s ++ e /\ Forall (fun e => aborts e = false) e /\
           deliveries e = sent_from msg sid D (D' - D)
}.

Lemma deliveries_app a b : deliveries (a ++ b) = deliveries a ++ deliveries b.
Proof. apply omap_app. Qed.

Lemma sent_from_app sid j a b : sent_from msg sid j (a + b) = sent_from msg sid j a ++ sent_from msg sid (j + a) b.
Proof. unfold sent_from. by rewrite seq_app, omap_app. Qed.

Lemma progress_trans sid R C1 C s1 s2 s3 x2 x3 D1 D2 D3 :
  progress sid R C1 s1 s2 x2 D1 D2 -> progress sid R C s2 s3 x3 D2 D3 -> progress sid R C s1 s3 x3 D1 D3.
Proof.
  intros [T1 S1 K1 G1 N1 Rd1 Rs1 St1 L1 (e1 & E1 & Q1 & V1)] [T2 S2 K2 G2 N2 Rd2 Rs2 St2 L2 (e2 & E2 & Q2 & V2)].
  split; try done; try lia; try congruence.
  - by rewrite S2, S1, list_insert_insert_eq.
  - intros p c Hp Hc. apply K2; [|done]. by apply K1.
  - auto.
  - exists (e1 ++ e2). split; [by rewrite E2, E1, app_assoc|]. split; [by apply Forall_app|].
    rewrite deliveries_app, V1, V2. replace (D3 - D1)%nat with ((D2 - D1) + (D3 - D2))%nat by lia.
    rewrite sent_from_app. do 2 f_equal. lia.
Qed.

Lemma progress_refl sid R C s s' x D :
  strm s sid = Some x -> tracks R C s' -> core_of s' = core_of s -> read_queue s = [] -> progress sid R C s s' x D D.
Proof.
  intros Hx HT [= E1 E2 E3 E4 E5 E6 E7] Hr. split; try done; try congruence.
  - rewrite E1. by rewrite list_insert_id.
  - exists []. rewrite E6, app_nil_r, Nat.sub_diag. done.
Qed.

End Invariant.
