(* ===== verification/RecvOps.v ===== *)
(** * The operations of the receiver keep its invariant: small steps

    Handing a message to the application, finding and placing a control, and merging a
    fragment. *)

From Stdlib Require Import Sorted.
From S2P Require Import Prelude Serial Tailq TsnMap TsnMapInv Sack Mbuf MbufProps Reasm ReasmQueue RecvData RecvPlan RecvInv.

Open Scope sctp_scope.

(** The setting: an application with a callback, the DATA chunks of RFC 4960, memory. *)
Record env_ok (env : rx_env) : Prop := EnvOk {
  eo_callback : recv_callback env = true;
  eo_socket : is_Some (so_hiwat env);
  eo_read : cant_read env = false;
  eo_gone : socket_gone env = false;
  eo_data : idata_supported env = 0;
  eo_memory : forall k, rx_alloc env k = true;
  eo_pd : pd_point env <= 4294967296
}.

(** ** Bytes *)

Section Bytes.

Lemma chain_bytes_kept l : chain_bytes (filter nonempty l) = chain_bytes l.
Proof.
  induction l as [|m l IH]; [done|]. rewrite filter_cons, chain_bytes_cons.
  case_decide as H; [by rewrite chain_bytes_cons, IH|]. rewrite IH.
  unfold nonempty, m_len in H. destruct (m_bytes m); [done|]. simpl in H. by destruct H.
Qed.

Lemma chain_len_text l : chain_len l = Z.of_nat (length (chain_bytes l)).
Proof. done. Qed.

Lemma sum_len_from l a :
  0 <= a -> a + chain_len l < 4294967296 -> fold_left (fun n m => u32 (n + m_len m)) l a = a + chain_len l.
Proof.
  revert a. induction l as [|m l IH]; intros a Ha Hl; simpl; [unfold chain_len; simpl; lia|].
  rewrite chain_size_cons in *. pose proof (chain_size_nonneg l). pose proof (m_len_nonneg m).
  rewrite u32_id by (unfold in_u32; lia). rewrite IH by lia. lia.
Qed.

Lemma sum_len_spec l : chain_len l < 4294967296 -> sum_len l = chain_len l.
Proof. intros. unfold sum_len. rewrite sum_len_from by lia. lia. Qed.

Lemma last_place_some start l : l <> [] -> last_place start l = Some (start + (length l - 1))%nat.
Proof. by destruct l. Qed.

Lemma kept_some l : chain_bytes l <> [] -> filter nonempty l <> [].
Proof. intros H E. rewrite <- chain_bytes_kept, E in H. done. Qed.

Lemma kept_length l : (length (filter nonempty l) <= length l)%nat.
Proof. apply length_filter. Qed.

Lemma sballoc_all_core l s : core_of (sballoc_all l s) = core_of s /\ arrays (ack (sballoc_all l s)) = arrays (ack s).
Proof.
  unfold sballoc_all. revert s. induction l as [|m l IH]; intros s; simpl; [done|].
  destruct (IH (sctp_sballoc m s)) as [-> ->]. done.
Qed.

Lemma sbfree_all_core l s : core_of (sbfree_all l s) = core_of s /\ arrays (ack (sbfree_all l s)) = arrays (ack s).
Proof.
  unfold sbfree_all. revert s. induction l as [|m l IH]; intros s; simpl; [done|].
  destruct (IH (sctp_sbfree m s)) as [-> ->]. done.
Qed.

End Bytes.

(** ** Message identifiers of 16 bits *)

Section Mids.

Lemma mid_gt_spec x y a b :
  u16 x = u16 a -> u16 y = u16 b -> - 32768 < a - b < 32768 -> SCTP_MID_GT 0 x y = (b <? a).
Proof.
  intros Ex Ey H. unfold SCTP_MID_GT. simpl. rewrite Ex, Ey. unfold SCTP_UINT16_GT.
  zbool; simpl; try done; width_lia.
Qed.

Lemma mid_eq_spec x y a b :
  u16 x = u16 a -> u16 y = u16 b -> - 32768 < a - b < 32768 -> SCTP_MID_EQ 0 x y = (a =? b).
Proof.
  intros Ex Ey H. unfold SCTP_MID_EQ. simpl. rewrite Ex, Ey. zbool; try done; width_lia.
Qed.

Lemma mid_ge_spec x y a b :
  u16 x = u16 a -> u16 y = u16 b -> - 32768 < a - b < 32768 -> SCTP_MID_GE 0 x y = (b <=? a).
Proof.
  intros Ex Ey H. unfold SCTP_MID_GE. simpl. rewrite Ex, Ey. unfold SCTP_UINT16_GE, SCTP_UINT16_GT.
  zbool; simpl; try done; width_lia.
Qed.

Lemma u16_idem z : u16 (u16 z) = u16 z.
Proof. apply u16_id, u16_range. Qed.

Lemma u16_u32 z : u16 (u32 z) = u16 z.
Proof. width_lia. Qed.

(** The entries of a queue have the identifiers [js]. *)
Definition numbered_as (store : gmap nat queued_to_read) (q : list nat) (js : list nat) : Prop :=
  Forall2 (fun p j => exists c, store !! p = Some c /\ mid c = u16 (Z.of_nat j)) q js.

Definition close_to (j : nat) (js : list nat) : Prop :=
  Forall (fun j' => - 32768 < Z.of_nat j' - Z.of_nat j < 32768) js.

Lemma find_place_spec store q js j i :
  numbered_as store q js -> close_to j js -> StronglySorted lt js -> j ∉ js ->
  exists u v ju jv, q = u ++ v /\ js = ju ++ jv /\ length u = length ju /\
    Forall (fun j' => (j' < j)%nat) ju /\ Forall (fun j' => (j < j')%nat) jv /\
    find_place 0 store q (u16 (Z.of_nat j)) i = Some (Some (i + length u)%nat).
Proof.
  intros Hq. revert i. induction Hq as [|p j0 q js (c & Hc & Hm) Hq IH]; intros i Hcl Hs Hj.
  - exists [], [], [], []. repeat split; try done; try constructor. simpl. by rewrite Nat.add_0_r.
  - apply Forall_cons in Hcl as [Hcl0 Hcl]. apply StronglySorted_inv in Hs as [Hs Hlt].
    apply not_elem_of_cons in Hj as [Hne Hj]. simpl. rewrite Hc. cbn [mbind option_bind].
    rewrite (mid_gt_spec _ _ (Z.of_nat j0) (Z.of_nat j)), (mid_eq_spec _ _ (Z.of_nat j0) (Z.of_nat j))
      by (rewrite ?Hm, ?u16_idem; done || lia).
    destruct (Z.ltb_spec (Z.of_nat j) (Z.of_nat j0)).
    + exists [], (p :: q), [], (j0 :: js). repeat split; try done; [|by rewrite Nat.add_0_r].
      constructor; [lia|]. eapply Forall_impl; [exact Hlt|]. simpl. lia.
    + destruct (Z.eqb_spec (Z.of_nat j0) (Z.of_nat j)); [lia|].
      destruct (IH (S i)) as (u & v & ju & jv & -> & -> & Hl & H1 & H2 & E); [done..|].
      exists (p :: u), v, (j0 :: ju), jv. split; [done|]. split; [done|]. split; [simpl; lia|].
      split; [by constructor; [lia|]|]. split; [done|]. rewrite E. simpl. do 2 f_equal. lia.
Qed.

Lemma find_mid_spec store q js j :
  numbered_as store q js -> close_to j js ->
  exists r, find_mid 0 store q (u16 (Z.of_nat j)) = Some r /\
    match r with
    | Some p => exists u v ju jv, q = u ++ p :: v /\ js = ju ++ j :: jv /\ length u = length ju
    | None => j ∉ js
    end.
Proof.
  intros Hq. induction Hq as [|p j0 q js (c & Hc & Hm) Hq IH]; intros Hcl.
  - exists None. split; [done | set_solver].
  - apply Forall_cons in Hcl as [Hcl0 Hcl]. simpl. rewrite Hc. cbn [mbind option_bind].
    rewrite (mid_eq_spec _ _ (Z.of_nat j0) (Z.of_nat j)) by (rewrite ?Hm, ?u16_idem; done || lia).
    destruct (Z.eqb_spec (Z.of_nat j0) (Z.of_nat j)) as [E%Nat2Z.inj | Hne].
    + subst j0. exists (Some p). split; [done|]. by exists [], q, [], js.
    + destruct (IH Hcl) as ([p'|] & -> & H); (eexists; split; [reflexivity|]).
      * destruct H as (u & v & ju & jv & -> & -> & Hl). exists (p :: u), v, (j0 :: ju), jv.
        repeat split; simpl; lia.
      * apply not_elem_of_cons. split; [lia | done].
Qed.

End Mids.

Section Env.
Context (env : rx_env) (Henv : env_ok env).

Lemma memory_ok s : alloc_ok env s = (true, s <| allocs := S (allocs s) |>).
Proof. unfold alloc_ok. by rewrite eo_memory. Qed.

(** A complete message goes to the application at once. *)
Lemma add_to_readq_up R C s p c :
  tracks R C s -> controls s !! p = Some c -> read_queue s = [] ->
  chain_bytes (data c) <> [] -> chain_len (data c) < 4294967296 ->
  exists s', sctp_add_to_readq env p 1 s = Some s' /\ tracks R C s' /\
    core_of s' = Core (strmin s) (delete p (controls s)) (next_control s) [] (resetHead s)
      (effects s ++ [RecvCallback (Upcall (chain_bytes (data c)) (sinfo_stream c) (u16 (mid c)) (sinfo_flags c)
                                     (sinfo_ppid c) (sinfo_tsn c) (sinfo_cumtsn c) true); WakeReader])
      (assoc_state (ack s)).
Proof.
  intros HT Hc Hr Hne Hlen. unfold sctp_add_to_readq, ctl. rewrite Hc. cbn [mbind option_bind].
  rewrite eo_read by done. destruct (eo_socket _ Henv) as [hw Ehw]. rewrite Ehw.
  set (kept := filter nonempty (data c)).
  assert (Hk : kept <> []) by by apply kept_some.
  assert (Ek : chain_bytes kept = chain_bytes (data c)) by apply chain_bytes_kept.
  rewrite last_place_some by done. destruct (sballoc_all_core kept s) as [E1 A1].
  set (s1 := sballoc_all kept s) in *. injection E1 as E11 E12 E13 E14 E15 E16 E17.
  cbn [mbind option_bind]. rewrite E14, Hr. unfold insert_tail. rewrite decide_False by set_solver.
  cbn [mbind option_bind app].
  set (c1 := _ <| end_added := 1 |> : queued_to_read).
  unfold sctp_invoke_recv_callback. rewrite eo_callback, Ehw by done. cbn [negb].
  unfold ctl, put_ctl. cbn [controls set_controls set_read_queue set_field].
  rewrite lookup_insert_eq. cbn [mbind option_bind].
  replace (end_added _ =? 1) with true by done. cbn [orb].
  rewrite memory_ok. cbn [negb].
  match goal with |- context [sbfree_all ?l ?s0] =>
    destruct (sbfree_all_core l s0) as [E2 A2]; set (s2 := sbfree_all l s0) in *; injection E2 as E21 E22 E23 E24 E25 E26 E27
  end.
  rewrite m_copydata_slice; cycle 1.
  { lia. }
  { cbn. rewrite sum_len_spec; [apply chain_size_nonneg | by rewrite chain_len_text, Ek]. }
  { cbn. rewrite sum_len_spec by (by rewrite chain_len_text, Ek). lia. }
  cbn [mbind option_bind]. replace (end_added _ =? 0) with false by done.
  rewrite E24. unfold TAILQ_REMOVE. cbn [read_queue set_read_queue set_field set_controls set_allocs].
  rewrite decide_True by set_solver. cbn [mbind option_bind].
  eexists. split; [reflexivity|]. split.
  - eapply tracks_arrays; [|exact HT]. clearbody s2. cbn. rewrite A2. exact A1.
  - clearbody s2. unfold core_of. cbn. rewrite E21, E22, E23, E25, E26, E27. cbn.
    rewrite E11, E12, E13, E15, E16, E17, delete_insert_eq.
    rewrite sum_len_spec by (by rewrite chain_len_text, Ek).
    rewrite slice_all by apply Z.le_refl. fold (chain_bytes kept). rewrite Ek, <- app_assoc. f_equal.
    by rewrite decide_False by auto.
Qed.

(** ** Placing a control *)

Definition placed (c : queued_to_read) : queued_to_read :=
  (if not_frag (flags_of c)
   then ((c <| end_added := 1 |>) <| first_frag_seen := 1 |>) <| last_frag_seen := 1 |>
   else c) <| on_strm_q := SCTP_ON_ORDERED |>.

Lemma place_spec s sid x p c js j :
  strm s sid = Some x -> controls s !! p = Some c -> mid c = u16 (Z.of_nat j) ->
  has_flag (flags_of c) SCTP_DATA_UNORDERED = false ->
  p ∉ inqueue x -> numbered_as (controls s) (inqueue x) js -> close_to j js -> StronglySorted lt js -> j ∉ js ->
  exists u v ju jv s', inqueue x = u ++ v /\ js = ju ++ jv /\ length u = length ju /\
    Forall (fun j' => (j' < j)%nat) ju /\ Forall (fun j' => (j < j')%nat) jv /\
    sctp_place_control_in_stream env sid p s = Some (false, s') /\ arrays (ack s') = arrays (ack s) /\
    core_of s' = Core (<[sid := x <| inqueue := u ++ p :: v |>]> (strmin s)) (<[p := placed c]> (controls s))
      (next_control s) (read_queue s) (resetHead s) (effects s) (assoc_state (ack s)).
Proof.
  intros Hx Hc Hm Hf Hp Hq Hcl Hs Hj. unfold sctp_place_control_in_stream. rewrite Hx. unfold ctl. rewrite Hc.
  cbn [mbind option_bind]. rewrite Hf, eo_data by done. cbn [andb].
  set (c1 := if not_frag (flags_of c) then _ else c).
  assert (Hm1 : mid c1 = u16 (Z.of_nat j)) by (subst c1; by destruct (not_frag _)).
  rewrite Hm1. destruct (find_place_spec (<[p := c1]> (controls s)) (inqueue x) js j 0)
    as (u & v & ju & jv & Eq & Ej & Hl & H1 & H2 & E); [|done..|].
  { apply Forall2_lookup. intros i. destruct (inqueue x !! i) as [p'|] eqn:Ep.
    - pose proof (Forall2_lookup_l _ _ _ _ _ Hq Ep) as (j' & -> & c' & Hc' & Hm'). constructor.
      exists c'. split; [|done]. rewrite lookup_insert_ne; [done|]. intros ->.
      by apply Hp, list_elem_of_lookup_2 with i.
    - apply lookup_ge_None in Ep. rewrite (Forall2_length _ _ _ Hq) in Ep.
      rewrite lookup_ge_None_2 by done. constructor. }
  change (controls (put_ctl p c1 s)) with (<[p := c1]> (controls s)). rewrite E. cbn [mbind option_bind].
  rewrite decide_False by done. exists u, v, ju, jv. eexists. repeat (split; [done|]).
  unfold core_of. cbn. rewrite insert_insert_eq. unfold insert_at.
  rewrite Eq, take_app_length, drop_app_length. done.
Qed.

End Env.
