(* ===== verification/RecvDeliver.v ===== *)
(** * Delivery in order

    The two loops that take messages off the queue of a stream ([deliver_singles],
    [deliver_more]) hand the application exactly the messages that are next and complete. *)

From Stdlib Require Import Sorted.
From S2P Require Import Prelude Serial Tailq TsnMap TsnMapInv Sack Mbuf MbufProps Reasm ReasmQueue RecvData.
From S2P Require Import RecvPlan RecvInv RecvOps.

Open Scope sctp_scope.

Section Deliver.
Context (msg : nat -> nat -> option message) (env : rx_env) (Henv : env_ok env).
Context (Hplan : plan_ok msg (pd_point env)).

Abbreviation stream_at := (stream_at msg).
Abbreviation progress := (progress msg).
Abbreviation waits := (waits msg).

(** ** The queue of a stream *)

Lemma stream_numbered R store sid x D js : stream_at R store sid x D js -> numbered_as store (inqueue x) js.
Proof.
  intros H. eapply Forall2_impl; [apply (sa_queue _ _ _ _ _ _ _ H)|].
  intros p j (c & Hc & m & r & l & _ & Hct & _). exists c. split; [done|]. apply (ct_mid _ _ _ _ _ _ Hct).
Qed.

Lemma stream_close R store sid x D js j :
  stream_at R store sid x D js -> Z.of_nat D <= Z.of_nat j < Z.of_nat D + 16384 -> close_to j js.
Proof.
  intros H Hj. eapply Forall_impl; [apply (sa_window _ _ _ _ _ _ _ H)|]. simpl. lia.
Qed.

Lemma sorted_nodup (js : list nat) : StronglySorted lt js -> NoDup js.
Proof.
  induction 1 as [|j js _ IH Hlt]; constructor; [|done].
  intros Hin. rewrite Forall_forall in Hlt. specialize (Hlt j Hin). lia.
Qed.

(** Keys with different numbers differ. *)
Lemma numbered_ne store q js i i' p p' j j' :
  numbered_as store q js -> q !! i = Some p -> q !! i' = Some p' -> js !! i = Some j -> js !! i' = Some j' ->
  - 32768 < Z.of_nat j - Z.of_nat j' < 32768 -> p = p' -> j = j'.
Proof.
  intros Hq Hp Hp' Hj Hj' Hd ->.
  destruct (Forall2_lookup_lr _ _ _ _ _ _ Hq Hp Hj) as (c & Hc & Hm).
  destruct (Forall2_lookup_lr _ _ _ _ _ _ Hq Hp' Hj') as (c' & Hc' & Hm').
  assert (c' = c) as -> by congruence. rewrite Hm in Hm'. apply Nat2Z.inj. width_lia.
Qed.

Lemma queue_nodup R store sid x D js : stream_at R store sid x D js -> NoDup (inqueue x).
Proof.
  intros H. pose proof (stream_numbered _ _ _ _ _ _ H) as Hq. pose proof (sa_window _ _ _ _ _ _ _ H) as Hw.
  apply NoDup_alt. intros i i' p Hi Hi'.
  destruct (Forall2_lookup_l _ _ _ _ _ Hq Hi) as (j & Hj & _).
  destruct (Forall2_lookup_l _ _ _ _ _ Hq Hi') as (j' & Hj' & _).
  pose proof (Forall_lookup_1 _ _ _ _ Hw Hj). pose proof (Forall_lookup_1 _ _ _ _ Hw Hj').
  cbv beta in *.
  assert (j = j') by (eapply (numbered_ne _ _ _ i i'); done || lia). subst j'.
  eapply NoDup_lookup; [apply sorted_nodup, (sa_sorted _ _ _ _ _ _ _ H) | done..].
Qed.

(** ** What is complete *)

Lemma msg_some sid j m : msg sid j = Some m -> (0 < m_size m)%nat.
Proof. intros Hm. apply (mo_some _ _ (po_msg _ _ Hplan _ _ _ Hm)). Qed.

Lemma holds_complete R m r l : holds R m r l -> r ∉ l -> (r <= m_size m)%nat -> complete R m -> r = m_size m.
Proof.
  intros Hh Hr Hb Hc. destruct (Nat.eq_dec r (m_size m)) as [|Hne]; [done|]. exfalso.
  destruct (Hh r) as [Hh1 _]; [lia|]. destruct Hh1 as [|]; [apply Hc; lia | lia | done].
Qed.

Lemma holds_all R m r l : holds R m r l -> r = m_size m -> complete R m.
Proof. intros Hh -> i Hi. apply Hh; [done|]. by left. Qed.

(** A complete message that is next is at the head. *)
Lemma next_at_head R store sid x D js m :
  stream_at R store sid x D js -> msg sid D = Some m -> complete R m -> exists js', js = D :: js'.
Proof.
  intros H Hm Hc. pose proof (msg_some _ _ _ Hm) as H0.
  assert (Hin : D ∈ js) by (apply (sa_all _ _ _ _ _ _ _ H D m 0); auto).
  destruct js as [|j js]; [by apply elem_of_nil in Hin|].
  apply elem_of_cons in Hin as [-> | Hin]; [by eexists|].
  pose proof (sa_sorted _ _ _ _ _ _ _ H) as [_ Hlt]%StronglySorted_inv.
  pose proof (sa_window _ _ _ _ _ _ _ H) as [Hw _]%Forall_cons.
  rewrite Forall_forall in Hlt. specialize (Hlt D Hin). lia.
Qed.

Lemma prefix_stuck R store sid x D js :
  stream_at R store sid x D js ->
  (forall m js', js = D :: js' -> msg sid D = Some m -> ~ complete R m) -> complete_prefix msg R sid D.
Proof.
  intros H Hno. split; [apply (sa_done _ _ _ _ _ _ _ H)|]. intros m Hm Hc.
  destruct (next_at_head _ _ _ _ _ _ _ H Hm Hc) as [js' ->]. by eapply Hno.
Qed.

(** ** Taking the head off *)

Lemma stream_pop R store sid x D js p q c v :
  stream_at R store sid x D (D :: js) -> inqueue x = p :: q -> store !! p = Some c ->
  (forall m, msg sid D = Some m -> complete R m) -> v = u32 (Z.of_nat D) ->
  stream_at R (delete p store) sid ((x <| inqueue := q |>) <| last_mid_delivered := v |>) (S D) js.
Proof.
  intros H Eq Hc Hco ->. pose proof (queue_nodup _ _ _ _ _ _ H) as Hnd. rewrite Eq in Hnd.
  apply NoDup_cons in Hnd as [Hp _].
  destruct H as [H1 H2 H3 H4 H5 H6 H7 H8]. rewrite Eq in H5.
  apply Forall2_cons in H5 as [(c' & _ & m & r & l & Hm & _) H5].
  apply StronglySorted_inv in H6 as [H6 Hlt]. apply Forall_cons in H7 as [_ H7].
  split; simpl; try done.
  - f_equal. lia.
  - intros j Hj. destruct (Nat.eq_dec j D) as [-> |]; [|apply H4; lia]. exists m. auto.
  - apply Forall2_lookup. intros i. destruct (q !! i) as [p'|] eqn:Ep.
    + destruct (Forall2_lookup_l _ _ _ _ _ H5 Ep) as (j' & -> & c1 & Hc1 & Hw1). constructor.
      exists c1. split; [|done]. rewrite lookup_delete_ne; [done|]. intros ->.
      by apply Hp, list_elem_of_lookup_2 with i.
    + apply lookup_ge_None in Ep. rewrite (Forall2_length _ _ _ H5) in Ep.
      rewrite lookup_ge_None_2 by done. constructor.
  - apply Forall_forall. intros j Hj. rewrite Forall_forall in Hlt, H7.
    specialize (Hlt j Hj). specialize (H7 j Hj). lia.
  - intros j m' i Hm' Hj Hi Hh. specialize (H8 j m' i Hm' ltac:(lia) Hi Hh).
    apply elem_of_cons in H8 as [-> |]; [lia | done].
Qed.

(** The state after the head has been handed over. *)
Definition handed_over (s s' : receiver) (sid : nat) (x' : stream_in) (p : nat) (u : upcall) : Prop :=
  core_of s' = Core (<[sid := x']> (strmin s)) (delete p (controls s)) (next_control s) [] (resetHead s)
    (effects s ++ [RecvCallback u; WakeReader]) (assoc_state (ack s)).

Definition upcall_for (sid j : nat) (m : message) (u : upcall) : Prop :=
  delivery_of (RecvCallback u)
  = Some (Delivery (Z.of_nat sid) (u16 (Z.of_nat j)) (m_ppid m) (u32 (m_tsn m)) (m_text m) true).

Lemma handed_progress R C s s' sid x' p u D m c :
  handed_over s s' sid x' p u -> tracks R C s' -> controls s !! p = Some c -> sinfo_stream c = Z.of_nat sid ->
  msg sid D = Some m -> upcall_for sid D m u -> progress sid R C s s' x' D (S D).
Proof.
  intros [= E1 E2 E3 E4 E5 E6 E7] HT Hc Hs Hm Hu. split; try done; try lia.
  - intros p' c' Hp' Hne. rewrite E2, lookup_delete_ne; [done|]. intros ->. congruence.
  - intros p' Hp'. rewrite E2. destruct (decide (p = p')) as [-> |];
      [apply lookup_delete_eq | by rewrite lookup_delete_ne].
  - eexists. split; [exact E6|]. split; [by repeat constructor|].
    replace (S D - D)%nat with 1%nat by lia. unfold deliveries, sent_from, sent. simpl.
    rewrite Hm. cbn [mbind option_bind]. unfold upcall_for in Hu. simpl in Hu.
    injection Hu as -> -> -> -> -> ->. done.
Qed.

(** A message that is complete has the text of its fragments. *)
Lemma complete_ctl sid j m r l c :
  ctl_at sid j m r l c -> r = m_size m -> chain_bytes (data c) = m_text m /\ l = [] /\ (0 < r -> fsn_included c = u32 (frag_tsn m (r - 1)))%nat.
Proof.
  intros H ->. split; [|split].
  - rewrite (ct_data _ _ _ _ _ _ H). unfold m_size. by rewrite firstn_all.
  - pose proof (ct_waiting _ _ _ _ _ _ H) as Hw. destruct l as [|i l]; [done|].
    apply Forall_cons in Hw as [? _]. lia.
  - intros. by apply (ct_incl _ _ _ _ _ _ H).
Qed.

Lemma text_some sid j m : msg sid j = Some m -> m_text m <> [] /\ Z.of_nat (length (m_text m)) < pd_point env.
Proof.
  intros Hm. pose proof (po_msg _ _ Hplan _ _ _ Hm) as [Hs _ Hf Ht _ _]. split; [|done].
  unfold m_text, m_size in *. destruct (m_frags m) as [|f fs]; [simpl in Hs; lia|].
  apply Forall_cons in Hf as [Hf _]. destruct f; simpl in *; [lia | done].
Qed.

(** ** The loops *)

Lemma unlink_head s sid x p q :
  strm s sid = Some x -> inqueue x = p :: q -> p ∉ q ->
  unlink_ordered sid p s = Some (put_strm sid (x <| inqueue := q |>) s).
Proof.
  intros Hx Eq Hp. unfold unlink_ordered. rewrite Hx. cbn [mbind option_bind].
  rewrite Eq, tailq_remove_in by set_solver. cbn [mbind option_bind].
  rewrite filter_cons_False by auto. by rewrite filter_ne_id.
Qed.

(** Both loops: the head of the queue is handed over, whatever the order in which the
    stream, the control and the arrays are updated before. *)
Lemma hand_over R C s s1 sid x D js p q c m l c1 x1 v :
  strm s sid = Some x -> stream_at R (controls s) sid x D (D :: js) -> inqueue x = p :: q ->
  controls s !! p = Some c -> msg sid D = Some m -> ctl_at sid D m (m_size m) l c -> complete R m ->
  core_of s1 = Core (<[sid := x1]> (strmin s)) (<[p := c1]> (controls s)) (next_control s) [] (resetHead s)
                 (effects s) (assoc_state (ack s)) ->
  tracks R C s1 -> data c1 = data c -> sinfo_stream c1 = sinfo_stream c -> mid c1 = mid c ->
  sinfo_ppid c1 = sinfo_ppid c -> sinfo_tsn c1 = sinfo_tsn c -> (sid < length (strmin s))%nat ->
  v = u32 (Z.of_nat D) ->
  exists s2, sctp_add_to_readq env p 1 s1 = Some s2 /\ strm s2 sid = Some x1 /\
    let x' := (x <| inqueue := q |>) <| last_mid_delivered := v |> in
    forall s3, core_of s3 = core_of (put_strm sid x' s2) -> arrays (ack s3) = arrays (ack s2) ->
    progress sid R C s s3 x' D (S D) /\ stream_at R (controls s3) sid x' (S D) js.
Proof.
  intros Hx Hst Eq Hc Hm Hct Hco [= E1 E2 E3 E4 E5 E6 E7] HT Ed Es Emid Ep Et Hsid Hv.
  destruct (text_some _ _ _ Hm) as [Hne Hlen].
  destruct (complete_ctl _ _ _ _ _ _ Hct eq_refl) as (Etext & -> & Hincl).
  pose proof (msg_some _ _ _ Hm) as H0. destruct (ct_tsn _ _ _ _ _ _ Hct H0) as [Htsn Hppid].
  destruct (add_to_readq_up env Henv R C s1 p c1) as (s2 & E & HT2 & Hcore); try done.
  { by rewrite E2, lookup_insert_eq. }
  { by rewrite Ed, Etext. }
  { rewrite Ed, chain_len_text, Etext. pose proof (eo_pd _ Henv). lia. }
  exists s2. split; [done|]. unfold strm. injection Hcore as F1 F2 F3 F4 F5 F6 F7. rewrite F1, E1.
  split; [by rewrite list_lookup_insert_eq|]. intros s3 Hs3 Ha3.
  set (x' := _ <| last_mid_delivered := v |>) in *.
  assert (Hho : handed_over s s3 sid x' p (Upcall (m_text m) (Z.of_nat sid) (u16 (u16 (Z.of_nat D)))
                  (sinfo_flags c1) (m_ppid m) (u32 (m_tsn m)) (sinfo_cumtsn c1) true)).
  { unfold handed_over. rewrite Hs3. unfold core_of. cbn. rewrite F1, F2, F3, F4, F5, F6, F7, E1, E2, E3, E5, E6, E7.
    rewrite list_insert_insert_eq, delete_insert_eq, Ed, Etext, Es, Emid, Ep, Et, Htsn, Hppid.
    by rewrite (ct_stream _ _ _ _ _ _ Hct), (ct_mid _ _ _ _ _ _ Hct). }
  split.
  - eapply handed_progress; try done; [by eapply tracks_arrays | apply Hct |].
    unfold upcall_for. simpl. by rewrite !u16_idem.
  - pose proof (f_equal k_store Hho) as Ek. simpl in Ek. rewrite Ek. apply stream_pop with (c := c); [done..| |done].
    intros m' Hm'. by simplify_eq.
Qed.

(** The fragments of messages that are not delivered are not too old for the arrays. *)
Definition recents (R : received) (C : Z) (sid D : nat) : Prop :=
  forall j m i, (D <= j)%nat -> msg sid j = Some m -> (i < m_size m)%nat -> recent C (frag_tsn m i).

Lemma recents_le R C sid D D' : (D <= D')%nat -> recents R C sid D -> recents R C sid D'.
Proof. intros Hle H j m i Hj. apply H. lia. Qed.

Lemma next_mid s sid x D js R :
  stream_at R (controls s) sid x D js -> u32 (last_mid_delivered x + 1) = u32 (Z.of_nat D).
Proof. intros H. rewrite (sa_last _ _ _ _ _ _ _ H), u32_add_l. f_equal. lia. Qed.

Lemma strm_some s sid x : strm s sid = Some x -> (sid < length (strmin s))%nat.
Proof. apply lookup_lt_Some. Qed.

Lemma progress_strm sid R C s s' x' D D' :
  progress sid R C s s' x' D D' -> (sid < length (strmin s))%nat -> strm s' sid = Some x'.
Proof. intros H Hl. unfold strm. rewrite (pg_strm _ _ _ _ _ _ _ _ _ H). by apply list_lookup_insert_eq. Qed.

Lemma mark_first R C s sid j m : tracks R C s -> msg sid j = Some m -> complete R m -> recents R C sid j ->
  exists s', mark_non_revokable env (u32 (m_tsn m)) s = Some s' /\ tracks R C s' /\ core_of s' = core_of s.
Proof.
  intros HT Hm Hc Hrec. pose proof (msg_some _ _ _ Hm) as H0.
  specialize (Hrec j m 0%nat (le_n _) Hm H0). specialize (Hc 0%nat H0).
  unfold frag_tsn in *. rewrite Z.add_0_r in *. by apply mark_spec.
Qed.

(** What the head of the queue is. *)
Lemma head_waits R s sid x D js p q :
  stream_at R (controls s) sid x D js -> inqueue x = p :: q ->
  exists j js' c m r l, js = j :: js' /\ controls s !! p = Some c /\ msg sid j = Some m /\ ctl_at sid j m r l c /\
    on_strm_q c = SCTP_ON_ORDERED /\ (r = m_size m -> last_frag_seen c = 1) /\ holds R m r l /\ (r ∉ l) /\
    ((0 < r)%nat \/ l <> []) /\ Z.of_nat D <= Z.of_nat j < Z.of_nat D + 16384 /\ p ∉ q.
Proof.
  intros H Eq. pose proof (queue_nodup _ _ _ _ _ _ H) as Hnd. rewrite Eq in Hnd. apply NoDup_cons in Hnd as [Hp _].
  pose proof (sa_queue _ _ _ _ _ _ _ H) as Hq. rewrite Eq in Hq.
  apply Forall2_cons_inv_l in Hq as (j & js' & (c & Hc & m & r & l & Hm & Hct & Hon & _ & Hl & Hh & Hr & H0) & _ & ->).
  pose proof (sa_window _ _ _ _ _ _ _ H) as [Hw _]%Forall_cons.
  by exists j, js', c, m, r, l.
Qed.

Lemma nothing_queued R s sid x D js :
  stream_at R (controls s) sid x D js -> inqueue x = [] -> complete_prefix msg R sid D.
Proof.
  intros H Eq. pose proof (sa_queue _ _ _ _ _ _ _ H) as Hq. rewrite Eq in Hq.
  apply Forall2_nil_inv_l in Hq as ->. eapply prefix_stuck; [exact H|]. done.
Qed.

Lemma head_later R s sid x D js j :
  stream_at R (controls s) sid x D (j :: js) -> j <> D -> complete_prefix msg R sid D.
Proof. intros H Hne. eapply prefix_stuck; [exact H|]. intros m js' [=]. done. Qed.

Lemma head_partial R s sid x D js m r l :
  stream_at R (controls s) sid x D js -> msg sid D = Some m -> holds R m r l -> r ∉ l -> (r < m_size m)%nat ->
  complete_prefix msg R sid D.
Proof.
  intros H Hm Hh Hr Hlt. eapply prefix_stuck; [exact H|]. intros m' js' _ Hm' Hc. simplify_eq.
  apply (holds_complete _ _ _ _ Hh Hr) in Hc; lia.
Qed.

Lemma whole_taken sid j m r l c :
  ctl_at sid j m r l c -> m_size m = 1%nat -> r ∉ l -> (0 < r)%nat \/ l <> [] -> r = m_size m.
Proof.
  intros Hct E1 Hr H0. pose proof (ct_bound _ _ _ _ _ _ Hct). pose proof (ct_waiting _ _ _ _ _ _ Hct) as Hw.
  destruct (Nat.eq_dec r 0) as [-> |]; [|lia]. exfalso.
  destruct H0 as [|H0]; [lia|]. destruct l as [|i l]; [done|].
  apply Forall_cons in Hw as [Hi _]. assert (i = 0%nat) as -> by lia. set_solver.
Qed.

(** Messages in one piece: the loop stops with [need] at a fragmented one that is next. *)
Lemma deliver_singles_spec R C sid q : forall js s x D need,
  strm s sid = Some x -> inqueue x = q -> stream_at R (controls s) sid x D js -> tracks R C s ->
  read_queue s = [] -> recents R C sid D ->
  exists need' s' x' D' js', deliver_singles env sid q need s = Some (need', s') /\
    progress sid R C s s' x' D D' /\ stream_at R (controls s') sid x' D' js' /\
    (need' = false -> complete_prefix msg R sid D').
Proof.
  induction q as [|p q IH]; intros js s x D need Hx Eq Hst HT Hr Hrec.
  { exists need, s, x, D, js. split; [done|]. split; [by apply progress_refl|]. split; [done|].
    intros _. by eapply nothing_queued. }
  destruct (head_waits _ _ _ _ _ _ _ _ Hst Eq) as (j & js' & c & m & r & l & -> & Hc & Hm & Hct & Hon & Hl & Hh & Hrl & H0 & Hw & Hp).
  cbn [deliver_singles]. rewrite Hx. unfold ctl. rewrite Hc. cbn [mbind option_bind].
  rewrite eo_data by done. rewrite (next_mid _ _ _ _ _ _ Hst).
  rewrite (mid_eq_spec _ _ (Z.of_nat D) (Z.of_nat j))
    by (rewrite ?u16_u32, ?(ct_mid _ _ _ _ _ _ Hct), ?u16_idem; done || lia).
  destruct (Z.eqb_spec (Z.of_nat D) (Z.of_nat j)) as [E%Nat2Z.inj | Hne]; cbn [andb]; cycle 1.
  { eexists _, s, x, D, _. split; [reflexivity|]. split; [by apply progress_refl|]. split; [done|].
    intros _. eapply head_later; [done | lia]. }
  subst j. destruct (not_frag (flags_of c)) eqn:Enf; cycle 1.
  { eexists _, s, x, D, _. split; [reflexivity|]. split; [by apply progress_refl|]. split; [done|].
    by rewrite orb_true_r. }
  pose proof (ct_whole _ _ _ _ _ _ Hct) as E1. rewrite Enf in E1. symmetry in E1. apply Nat.eqb_eq in E1.
  rewrite Hon, Z.eqb_refl, (unlink_head _ _ _ _ _ Hx Eq Hp). cbn [mbind option_bind].
  pose proof (whole_taken _ _ _ _ _ _ Hct E1 Hrl H0) as Er. subst r.
  pose proof (holds_all _ _ _ _ Hh eq_refl) as Hco.
  destruct (ct_tsn _ _ _ _ _ _ Hct) as [Et _]; [lia|].
  set (s1 := put_ctl p _ _). change (strm s1 sid) with (strm (put_strm sid (x <| inqueue := q |>) s) sid).
  pose proof (strm_some _ _ _ Hx) as Hlt.
  replace (strm (put_strm sid (x <| inqueue := q |>) s) sid) with (Some (x <| inqueue := q |>))
    by (unfold strm; cbn; by rewrite list_lookup_insert_eq).
  cbn [mbind option_bind]. set (s2 := put_strm sid _ s1). rewrite Et.
  destruct (mark_first R C s2 sid D m) as (s3 & -> & HT3 & Hc3); [|done..|].
  { by eapply tracks_arrays; [|exact HT]. }
  cbn [mbind option_bind].
  destruct (hand_over R C s s3 sid x D js' p q c m l (c <| on_strm_q := 0 |>)
              ((x <| inqueue := q |>) <| last_mid_delivered := u32 (last_mid_delivered x + 1) |>)
              (u32 (Z.of_nat D))) as (s4 & -> & Hx4 & H4); try done.
  { rewrite Hc3. unfold core_of. cbn. by rewrite list_insert_insert_eq, Hr. }
  cbn [mbind option_bind]. rewrite (next_mid _ _ _ _ _ _ Hst) in Hx4.
  destruct (H4 s4) as [Hpg Hst4]; [|done|].
  { unfold core_of, put_strm. cbn. rewrite list_insert_id; [done | exact Hx4]. }
  destruct (IH js' s4 _ (S D) need Hx4 eq_refl Hst4) as (need' & s5 & x5 & D5 & js5 & -> & Hpg5 & Hst5 & Hn);
    [apply Hpg | apply Hpg | by eapply recents_le; [|exact Hrec]; lia |].
  exists need', s5, x5, D5, js5. split; [done|]. split; [by eapply progress_trans|]. done.
Qed.

Lemma leave_ordered_spec s sid x p q c :
  strm s sid = Some x -> inqueue x = p :: q -> p ∉ q -> controls s !! p = Some c -> on_strm_q c = SCTP_ON_ORDERED ->
  exists s', leave_ordered sid p s = Some s' /\ arrays (ack s') = arrays (ack s) /\
    core_of s' = core_of (put_ctl p (c <| on_strm_q := 0 |>) (put_strm sid (x <| inqueue := q |>) s)).
Proof.
  intros Hx Eq Hp Hc Hon. unfold leave_ordered, ctl. rewrite Hc. cbn [mbind option_bind].
  rewrite Hon. cbn [Z.eqb SCTP_ON_ORDERED]. rewrite (unlink_head _ _ _ _ _ Hx Eq Hp). cbn [mbind option_bind].
  eexists. by repeat split.
Qed.

(** Messages in any number of pieces; a message that is not complete stays. *)
Lemma deliver_more_spec R C sid q : forall js s x D ret,
  strm s sid = Some x -> inqueue x = q -> stream_at R (controls s) sid x D js -> tracks R C s ->
  read_queue s = [] -> recents R C sid D ->
  exists ret' s' x' D' js', deliver_more env sid q ret s = Some (ret', s') /\
    progress sid R C s s' x' D D' /\ stream_at R (controls s') sid x' D' js' /\ complete_prefix msg R sid D'.
Proof.
  induction q as [|p q IH]; intros js s x D ret Hx Eq Hst HT Hr Hrec.
  { exists ret, s, x, D, js. split; [done|]. split; [by apply progress_refl|]. split; [done|].
    by eapply nothing_queued. }
  destruct (head_waits _ _ _ _ _ _ _ _ Hst Eq) as (j & js' & c & m & r & l & -> & Hc & Hm & Hct & Hon & Hl & Hh & Hrl & H0 & Hw & Hp).
  cbn [deliver_more]. rewrite Hx. unfold ctl. rewrite Hc. cbn [mbind option_bind].
  rewrite eo_data by done. rewrite (next_mid _ _ _ _ _ _ Hst).
  rewrite (mid_eq_spec _ _ (Z.of_nat j) (Z.of_nat D))
    by (rewrite ?u16_u32, ?(ct_mid _ _ _ _ _ _ Hct), ?u16_idem; done || lia).
  assert (Hstay : complete_prefix msg R sid D -> exists ret' s' x' D' js', Some (ret, s) = Some (ret', s') /\
    progress sid R C s s' x' D D' /\ stream_at R (controls s') sid x' D' js' /\ complete_prefix msg R sid D').
  { intros Hstuck. exists ret, s, x, D, (j :: js'). split; [done|]. split; [by apply progress_refl | done]. }
  destruct (Z.eqb_spec (Z.of_nat j) (Z.of_nat D)) as [E%Nat2Z.inj | Hne]; cbn [andb];
    [|apply Hstay; eapply head_later; [done | lia]].
  subst j. rewrite (ct_first _ _ _ _ _ _ Hct), (ct_end _ _ _ _ _ _ Hct).
  pose proof (ct_bound _ _ _ _ _ _ Hct) as Hb. pose proof (msg_some _ _ _ Hm) as Hsz.
  destruct (Nat.eqb_spec r 0) as [-> | Hr0]; cbn [Z.eqb negb].
  { apply Hstay. by eapply (head_partial _ _ _ _ _ _ m). }
  rewrite (ct_whole _ _ _ _ _ _ Hct).
  destruct (Nat.eqb_spec r (m_size m)) as [-> | Hrn]; cbn [Z.eqb negb andb]; cycle 1.
  { (* not complete *)
    destruct (Nat.eqb_spec (m_size m) 1); [lia|]. cbn [negb andb mbind option_bind].
    destruct (text_some _ _ _ Hm) as [_ Ht]. rewrite (ct_length _ _ _ _ _ _ Hct).
    assert (Z.of_nat (length (concat (take r (m_frags m)))) <= Z.of_nat (length (m_text m))).
    { unfold m_text. rewrite <- (take_drop r (m_frags m)) at 2. rewrite concat_app, length_app. lia. }
    destruct (Z.ltb_spec (Z.of_nat (length (concat (take r (m_frags m))))) (pd_point env)); [|lia]. cbn [orb].
    apply Hstay. eapply (head_partial _ _ _ _ _ _ m); [done..|]. lia. }
  pose proof (holds_all _ _ _ _ Hh eq_refl) as Hco.
  destruct (ct_tsn _ _ _ _ _ _ Hct) as [Et _]; [lia|].
  destruct (leave_ordered_spec _ _ _ _ _ _ Hx Eq Hp Hc Hon) as (s1 & -> & A1 & C1). cbn [mbind option_bind].
  rewrite andb_false_r. cbn [andb].
  assert (exists s2, (if (m_size m =? 1)%nat then mark_non_revokable env (sinfo_tsn c) s1 else Some s1) = Some s2 /\
            tracks R C s2 /\ core_of s2 = core_of s1) as (s2 & -> & HT2 & C2).
  { assert (tracks R C s1) as HT1 by by eapply tracks_arrays.
    destruct (m_size m =? 1)%nat; [|by exists s1]. rewrite Et. by eapply mark_first. }
  cbn [mbind option_bind]. rewrite Hl by done. rewrite (ct_read _ _ _ _ _ _ Hct). cbn [Z.eqb negb].
  pose proof (strm_some _ _ _ Hx) as Hlt.
  destruct (hand_over R C s s2 sid x D js' p q c m l (c <| on_strm_q := 0 |>) (x <| inqueue := q |>)
              (u32 (Z.of_nat D))) as (s3 & -> & Hx3 & H3); try done.
  { rewrite C2, C1. unfold core_of. cbn. by rewrite Hr. }
  cbn [mbind option_bind]. rewrite Hx3. cbn [mbind option_bind].
  set (s4 := put_strm sid _ s3). destruct (H3 s4) as [Hpg Hst4]; [done..|].
  destruct (IH js' s4 _ (S D) (ret + 1) (progress_strm _ _ _ _ _ _ _ _ Hpg Hlt) eq_refl Hst4)
    as (ret' & s5 & x5 & D5 & js5 & E5 & Hpg5 & Hst5 & Hn);
    [apply Hpg | apply Hpg | by eapply recents_le; [|exact Hrec]; lia |].
  exists ret', s5, x5, D5, js5. split; [exact E5|]. split; [by eapply progress_trans|]. done.
Qed.

(** [sctp_deliver_reasm_check]: afterwards nothing that is complete is held back. *)
Lemma deliver_reasm_check_spec R C sid s x D js :
  strm s sid = Some x -> stream_at R (controls s) sid x D js -> tracks R C s ->
  read_queue s = [] -> recents R C sid D ->
  exists ret' s' x' D' js', sctp_deliver_reasm_check env sid s = Some (ret', s') /\
    progress sid R C s s' x' D D' /\ stream_at R (controls s') sid x' D' js' /\ complete_prefix msg R sid D'.
Proof.
  intros Hx Hst HT Hr Hrec. unfold sctp_deliver_reasm_check. rewrite Hx. cbn [mbind option_bind].
  rewrite (sa_uno _ _ _ _ _ _ _ Hst), (sa_pd _ _ _ _ _ _ _ Hst). cbn [Z.eqb negb].
  unfold deliver_ordered. rewrite Hx. cbn [mbind option_bind]. rewrite (sa_pd _ _ _ _ _ _ _ Hst). cbn [Z.eqb negb].
  destruct (inqueue x) as [|p q] eqn:Eq.
  { exists 0, s, x, D, js. split; [done|]. split; [by apply progress_refl|]. split; [done|].
    by eapply nothing_queued. }
  destruct (head_waits _ _ _ _ _ _ _ _ Hst Eq) as (j & js' & c & m & r & l & -> & Hc & Hm & Hct & _ & _ & _ & _ & _ & Hw & _).
  unfold finish_partial. rewrite Hx. unfold ctl. rewrite Hc. cbn [mbind option_bind].
  rewrite eo_data by done.
  rewrite (mid_eq_spec _ _ (Z.of_nat D - 1) (Z.of_nat j))
    by (rewrite ?(sa_last _ _ _ _ _ _ _ Hst), ?(ct_mid _ _ _ _ _ _ Hct), ?u16_u32, ?u16_idem; done || lia).
  destruct (Z.eqb_spec (Z.of_nat D - 1) (Z.of_nat j)); [lia|]. cbn [andb mbind option_bind].
  rewrite Hx. cbn [mbind option_bind]. rewrite (sa_pd _ _ _ _ _ _ _ Hst). cbn [Z.eqb negb].
  by eapply deliver_more_spec.
Qed.

End Deliver.
