(* ===== verification/RecvMerge.v ===== *)
(** * Merging fragments

    [sctp_add_chk_to_control], the loop that merges what is next, and the place of a
    fragment in the list of its control. *)

From Stdlib Require Import Sorted.
From S2P Require Import Prelude Serial Tailq TsnMap TsnMapInv Sack Mbuf MbufProps Reasm ReasmQueue RecvData.
From S2P Require Import RecvPlan RecvInv RecvOps RecvDeliver.

Open Scope sctp_scope.

Section Merge.
Context (msg : nat -> nat -> option message) (env : rx_env) (Henv : env_ok env).
Context (Hplan : plan_ok msg (pd_point env)).

Lemma frag_in m i : (i < m_size m)%nat -> m_frags m !! i = Some (frag m i).
Proof. intros Hi. unfold frag. rewrite nth_lookup. by destruct (lookup_lt_is_Some_2 (m_frags m) i Hi) as [f ->]. Qed.

Lemma frag_some sid j m i : msg sid j = Some m -> (i < m_size m)%nat -> frag m i <> [].
Proof.
  intros Hm Hi. pose proof (po_msg _ _ Hplan _ _ _ Hm) as [_ _ Hf _ _ _].
  pose proof (Forall_lookup_1 _ _ _ _ Hf (frag_in m i Hi)) as H. intros E. rewrite E in H. simpl in H. lia.
Qed.

Lemma text_prefix m r : (length (concat (take r (m_frags m))) <= length (m_text m))%nat.
Proof. unfold m_text. rewrite <- (take_drop r (m_frags m)) at 2. rewrite concat_app, length_app. lia. Qed.

Lemma text_small sid j m r : msg sid j = Some m -> Z.of_nat (length (concat (take r (m_frags m)))) < 4294967296.
Proof.
  intros Hm. pose proof (mo_text _ _ (po_msg _ _ Hplan _ _ _ Hm)). pose proof (eo_pd _ Henv).
  pose proof (text_prefix m r). lia.
Qed.

Lemma take_frags m r : (r < m_size m)%nat -> concat (take (S r) (m_frags m)) = concat (take r (m_frags m)) ++ frag m r.
Proof. intros Hr. rewrite (take_S_r _ _ (frag m r)) by by apply frag_in. rewrite concat_app. simpl. by rewrite app_nil_r. Qed.

(** What merging leaves alone. *)
Record same_place (c c' : queued_to_read) : Prop := SamePlace {
  sp_on : on_strm_q c' = on_strm_q c;
  sp_top : top_fsn c' = top_fsn c
}.

(** The next fragment goes to the end of the data. *)
Lemma add_chk_spec R C s sid p c j m r l chk rest :
  controls s !! p = Some c -> msg sid j = Some m -> ctl_at sid j m r (r :: l) c -> reasm c = chk :: rest ->
  on_strm_q c = SCTP_ON_ORDERED -> (0 < r)%nat -> tracks R C s -> has R (frag_tsn m r) -> recent C (frag_tsn m r) ->
  exists added s' c', sctp_add_chk_to_control env sid p chk (put_ctl p (c <| reasm := rest |>) s) = Some (added, s') /\
    tracks R C s' /\ core_of s' = core_of (put_ctl p c' s) /\ ctl_at sid j m (S r) l c' /\ reasm c' = rest /\
    same_place c c' /\
    last_frag_seen c' = (if (S r =? m_size m)%nat then 1 else last_frag_seen c).
Proof.
  intros Hc Hm Hct Er Hon Hr HT Hh Hrec.
  pose proof (ct_reasm _ _ _ _ _ _ Hct) as Hre. rewrite Er in Hre. apply Forall2_cons in Hre as [Hchk Hre].
  pose proof (ct_waiting _ _ _ _ _ _ Hct) as [Hrn Hwait]%Forall_cons.
  pose proof (ct_sorted _ _ _ _ _ _ Hct) as [Hsort Hlt]%StronglySorted_inv.
  destruct (ct_tail _ _ _ _ _ _ Hct) as [Hne Htail]; [lia|].
  pose proof (frag_some _ _ _ _ Hm (proj2 Hrn)) as Hfne.
  unfold sctp_add_chk_to_control, ctl. change (controls (put_ctl p ?x s)) with (<[p := x]> (controls s)).
  rewrite lookup_insert_eq. cbn [mbind option_bind]. set (c0 := c <| reasm := rest |>).
  change (data c0) with (data c). destruct (data c) as [|b bs] eqn:Ed; [done|]. rewrite <- Ed in *.
  unfold sctp_add_to_tail_pointer, ctl. change (controls (put_ctl p ?x s)) with (<[p := x]> (controls s)).
  rewrite lookup_insert_eq. cbn [mbind option_bind]. subst c0.
  cbn [has_stcb tail_mbuf data on_read_q ctl_length set_field set_reasm].
  rewrite (ct_stcb _ _ _ _ _ _ Hct), Htail, (ct_read _ _ _ _ _ _ Hct). cbn [negb Z.eqb].
  assert (Hlen : (0 < length (data c))%nat) by (rewrite Ed; simpl; lia).
  destruct (Nat.leb_spec (length (data c)) (length (data c) - 1)); [lia|].
  set (kept := filter nonempty (chk_data chk)).
  assert (Ek : chain_bytes kept = frag m r) by (rewrite <- (ca_data _ _ _ Hchk); apply chain_bytes_kept).
  assert (Hk : kept <> []) by (intros E; rewrite E in Ek; done).
  cbn [mbind option_bind].
  assert (Hcl : chain_len kept = Z.of_nat (length (frag m r))) by by rewrite chain_len_text, Ek.
  pose proof (text_small _ _ _ (S r) Hm) as Hsmall. rewrite take_frags, length_app in Hsmall by lia.
  rewrite sum_len_spec by lia.
  assert (Htl : match chk_data chk with [] => Some (length (data c) - 1)%nat
                | _ => last_place (S (length (data c) - 1)) kept end
                = Some (length (data c) + (length kept - 1))%nat).
  { destruct (chk_data chk) eqn:Ec; [by rewrite <- Ek in Hfne; subst kept|].
    rewrite last_place_some by done. f_equal. lia. }
  rewrite Htl. clear Htl. rewrite take_ge by lia.
  match goal with |- context [put_ctl p ?x (put_ctl p _ s)] => set (c1 := x) end.
  change (controls (put_ctl p c1 ?t)) with (<[p := c1]> (controls t)). rewrite lookup_insert_eq. cbn [mbind option_bind].
  rewrite (ca_tsn _ _ _ Hchk).
  match goal with |- context [mark_non_revokable env _ ?t] => destruct (mark_spec env R C t (frag_tsn m r)) as (s1 & -> & HT1 & C1) end;
    [by eapply tracks_arrays; [|exact HT] | done..|].
  cbn [mbind option_bind]. pose proof (f_equal k_store C1) as C1s. cbn in C1s. rewrite insert_insert_eq in C1s.
  rewrite insert_insert_eq in C1s. rewrite C1s, lookup_insert_eq. cbn [mbind option_bind].
  rewrite (ca_first _ _ _ Hchk), (ca_last _ _ _ Hchk). destruct (Nat.eqb_spec r 0); [lia|].
  set (c2 := c1 <| fsn_included := rec_fsn chk |>) in *.
  set (c3 := if (S r =? m_size m)%nat then (c2 <| end_added := 1 |>) <| last_frag_seen := 1 |> else c2).
  assert (exists s2, (if (S r =? m_size m)%nat then complete_chk sid p s1 else Some s1) = Some s2 /\
            tracks R C s2 /\ core_of s2 = core_of (put_ctl p c3 s)) as (s2 & -> & HT2 & C2).
  { assert (Cs : core_of s1 = core_of (put_ctl p c2 s)).
    { rewrite C1. unfold core_of. cbn. by rewrite !insert_insert_eq. }
    subst c3. destruct (Nat.eqb_spec (S r) (m_size m)); [|by exists s1].
    unfold complete_chk, ctl. rewrite C1s, lookup_insert_eq. cbn [mbind option_bind].
    change (on_read_q c2) with (on_read_q c). rewrite (ct_read _ _ _ _ _ _ Hct). cbn [Z.eqb].
    rewrite orb_true_r. cbn [mbind option_bind]. rewrite C1s, lookup_insert_eq. cbn [mbind option_bind].
    eexists. split; [reflexivity|]. split; [by eapply tracks_arrays; [|exact HT1]|].
    unfold core_of in *. cbn. rewrite C1s, insert_insert_eq. cbn in Cs. congruence. }
  cbn [mbind option_bind]. eexists _, s2, c3. split; [reflexivity|]. split; [done|]. split; [done|].
  assert (E3 : forall {A} (f : queued_to_read -> A), (forall v c, f (c <| end_added := v |>) = f c) ->
            (forall v c, f (c <| last_frag_seen := v |>) = f c) -> f c3 = f c2).
  { intros A f H1 H2. subst c3. destruct (_ =? _)%nat; [|done]. by rewrite H2, H1. }
  split; [|split; [|split]].
  - split; rewrite ?E3 by done; try apply Hct; try done.
    + destruct (Nat.eqb_spec (S r) 0); [lia|]. change (first_frag_seen c2) with (first_frag_seen c).
      rewrite (ct_first _ _ _ _ _ _ Hct). by destruct (Nat.eqb_spec r 0); [lia|].
    + subst c3. destruct (Nat.eqb_spec (S r) (m_size m)); [done|]. change (end_added c2) with (end_added c).
      rewrite (ct_end _ _ _ _ _ _ Hct). by destruct (Nat.eqb_spec r (m_size m)); [lia|].
    + change (data c2) with (data c ++ kept). rewrite chain_bytes_app, (ct_data _ _ _ _ _ _ Hct), Ek, take_frags by lia. done.
    + cbn. rewrite (ct_length _ _ _ _ _ _ Hct), Hcl, take_frags, length_app by lia.
      rewrite Nat2Z.inj_add. apply u32_id. unfold in_u32. lia.
    + intros _. cbn. split; [by destruct (data c)|]. rewrite length_app. f_equal.
      assert (0 < length kept)%nat by (destruct kept; [done | simpl; lia]). lia.
    + intros _. cbn. rewrite (ca_fsn _ _ _ Hchk). do 2 f_equal. lia.
    + intros _. by apply (ct_tsn _ _ _ _ _ _ Hct).
    + lia.
    + apply Forall_forall. intros i Hi. rewrite Forall_forall in Hlt, Hwait.
      specialize (Hlt i Hi). specialize (Hwait i Hi). lia.
  - by rewrite E3.
  - split; by rewrite E3.
  - subst c3. by destruct (_ =? _)%nat.
Qed.

(** The fragments that are held before and after. *)
Definition same_held (m : message) (r : nat) (l : list nat) (r' : nat) (l' : list nat) : Prop :=
  forall i, (i < m_size m)%nat -> ((i < r')%nat \/ i ∈ l' <-> (i < r)%nat \/ i ∈ l).

Lemma frag_tsn_eqb sid j m i i' : msg sid j = Some m -> (i <= m_size m)%nat -> (i' <= m_size m)%nat ->
  (u32 (frag_tsn m i) =? u32 (frag_tsn m i')) = (i =? i')%nat.
Proof.
  intros Hm Hi Hi'. pose proof (mo_few _ _ (po_msg _ _ Hplan _ _ _ Hm)). unfold frag_tsn.
  rewrite u32_eqb by lia. destruct (Nat.eqb_spec i i') as [-> |]; [apply Z.eqb_refl | apply Z.eqb_neq; lia].
Qed.

Lemma frag_tsn_gt sid j m i i' : msg sid j = Some m -> (i <= m_size m)%nat -> (i' <= m_size m)%nat ->
  SCTP_TSN_GT (u32 (frag_tsn m i)) (u32 (frag_tsn m i')) = (i' <? i)%nat.
Proof.
  intros Hm Hi Hi'. pose proof (mo_few _ _ (po_msg _ _ Hplan _ _ _ Hm)). unfold frag_tsn.
  rewrite tsn_gt_spec by lia. destruct (Nat.ltb_spec i' i); [apply Z.ltb_lt | apply Z.ltb_ge]; lia.
Qed.

Lemma frag_tsn_ge sid j m i i' : msg sid j = Some m -> (i <= m_size m)%nat -> (i' <= m_size m)%nat ->
  SCTP_TSN_GE (u32 (frag_tsn m i)) (u32 (frag_tsn m i')) = (i' <=? i)%nat.
Proof.
  intros Hm Hi Hi'. pose proof (mo_few _ _ (po_msg _ _ Hplan _ _ _ Hm)). unfold frag_tsn.
  rewrite tsn_ge_spec by lia. destruct (Nat.leb_spec i' i); [apply Z.leb_le | apply Z.leb_gt]; lia.
Qed.

Lemma frag_tsn_succ m i : u32 (u32 (frag_tsn m i) + 1) = u32 (frag_tsn m (S i)).
Proof. rewrite u32_add_l. f_equal. unfold frag_tsn. lia. Qed.

(** The loop merges the fragments that are next, and stops at the first gap. *)
Lemma absorb_spec R C sid p x j m l : forall s c r rest,
  controls s !! p = Some c -> strm s sid = Some x -> msg sid j = Some m -> ctl_at sid j m r l c -> reasm c = rest ->
  on_strm_q c = SCTP_ON_ORDERED -> (0 < r)%nat -> tracks R C s ->
  (forall i, i ∈ l -> has R (frag_tsn m i)) -> (forall i, i ∈ l -> recent C (frag_tsn m i)) ->
  exists s' c' r' l', absorb env sid p rest (u32 (frag_tsn m r)) false s = Some (false, s') /\
    tracks R C s' /\ core_of s' = core_of (put_ctl p c' s) /\ ctl_at sid j m r' l' c' /\ same_place c c' /\
    same_held m r l r' l' /\ (r' ∉ l') /\ (r <= r')%nat /\
    last_frag_seen c' = (if (r <? r')%nat && (r' =? m_size m)%nat then 1 else last_frag_seen c).
Proof.
  induction l as [|i l IH]; intros s c r rest Hc Hx Hm Hct Er Hon Hr HT Hh Hrec.
  { pose proof (ct_reasm _ _ _ _ _ _ Hct) as Hre. rewrite Er in Hre. apply Forall2_nil_inv_l in Hre as ->.
    exists s, c, r, []. split; [done|]. split; [done|]. split.
    { unfold core_of. cbn. by rewrite insert_id. }
    split; [done|]. split; [done|]. split; [done|]. split; [set_solver|]. split; [lia|].
    by rewrite Nat.ltb_irrefl. }
  pose proof (ct_reasm _ _ _ _ _ _ Hct) as Hre. rewrite Er in Hre.
  apply Forall2_cons_inv_l in Hre as (chk & rest' & Hchk & Hre & ->).
  pose proof (ct_waiting _ _ _ _ _ _ Hct) as Hw. apply Forall_cons in Hw as [Hi Hw].
  pose proof (ct_sorted _ _ _ _ _ _ Hct) as [Hsort Hlt]%StronglySorted_inv.
  cbn [absorb]. rewrite (ca_fsn _ _ _ Hchk), (frag_tsn_eqb sid j) by (done || lia).
  destruct (Nat.eqb_spec i r) as [-> | Hne]; cycle 1.
  { exists s, c, r, (i :: l). split; [done|]. split; [done|]. split.
    { unfold core_of. cbn. by rewrite insert_id. }
    split; [done|]. split; [done|]. split; [done|]. split.
    { apply not_elem_of_cons. split; [done|]. intros Hin. rewrite Forall_forall in Hlt.
      specialize (Hlt r Hin). lia. }
    split; [lia|]. by rewrite Nat.ltb_irrefl. }
  change (ctl s p) with (controls s !! p). rewrite Hc. cbn [mbind option_bind].
  destruct (add_chk_spec R C s sid p c j m r l chk rest') as (added & s1 & c1 & -> & HT1 & C1 & Hct1 & Er1 & [Hon1 Htop1] & Hl1);
    [done..| apply Hh; set_solver | apply Hrec; set_solver |].
  cbn [mbind option_bind]. set (s2 := on_ack (add_on_streams added) s1).
  assert (C2 : core_of s2 = core_of (put_ctl p c1 s)) by exact C1.
  assert (Hc2 : controls s2 !! p = Some c1).
  { change (k_store (core_of s2) !! p = Some c1). rewrite C2. apply lookup_insert_eq. }
  change (ctl s2 p) with (controls s2 !! p). rewrite Hc2. cbn [mbind option_bind].
  assert (Hx2 : strm s2 sid = Some x).
  { change (k_strm (core_of s2) !! sid = Some x). rewrite C2. exact Hx. }
  rewrite Hx2. cbn [mbind option_bind].
  rewrite (ct_pd _ _ _ _ _ _ Hct1), (ct_read _ _ _ _ _ _ Hct1). cbn [Z.eqb negb orb]. rewrite andb_false_r.
  rewrite frag_tsn_succ.
  destruct (IH s2 c1 (S r) rest' Hc2 Hx2 Hm Hct1 Er1) as (s3 & c3 & r3 & l3 & E3 & HT3 & C3 & Hct3 & [Hon3 Htop3] & Hh3 & Hr3 & Hle3 & Hl3);
    [congruence | lia | by eapply tracks_arrays; [|exact HT1] | intros; apply Hh; set_solver
    | intros; apply Hrec; set_solver |].
  exists s3, c3, r3, l3. split; [exact E3|]. split; [done|]. split.
  { rewrite C3. unfold core_of in *. cbn in *. injection C2 as -> -> -> -> -> -> ->. by rewrite insert_insert_eq. }
  split; [done|]. split; [split; congruence|]. split.
  { intros k Hk. rewrite (Hh3 k Hk), elem_of_cons. split.
    - intros [|]; [|auto]. destruct (Nat.eq_dec k r); [auto|]. left. lia.
    - intros [|[->|]]; auto; left; lia. }
  split; [done|]. split; [lia|]. rewrite Hl3, Hl1.
  pose proof (ct_bound _ _ _ _ _ _ Hct3).
  destruct (Nat.ltb_spec r r3); [|lia]. destruct (Nat.eqb_spec r3 (m_size m)), (Nat.ltb_spec (S r) r3), (Nat.eqb_spec (S r) (m_size m));
    simpl; try done; lia.
Qed.

(** The place of a fragment in the list. *)
Lemma reasm_place_spec sid j m l rest i k :
  msg sid j = Some m -> Forall2 (chunk_at m) l rest -> StronglySorted lt l -> Forall (fun i => (i < m_size m)%nat) l ->
  (i < m_size m)%nat -> i ∉ l ->
  exists lu lv cu cv, l = lu ++ lv /\ rest = cu ++ cv /\ length lu = length cu /\
    Forall (fun i' => (i' < i)%nat) lu /\ Forall (fun i' => (i < i')%nat) lv /\
    reasm_place rest (u32 (frag_tsn m i)) k = Some (k + length cu)%nat.
Proof.
  intros Hm Hre. revert k. induction Hre as [|i0 chk l rest Hchk Hre IH]; intros k Hs Hb Hi Hni.
  - exists [], [], [], []. repeat split; try constructor. simpl. by rewrite Nat.add_0_r.
  - apply StronglySorted_inv in Hs as [Hs Hlt]. apply Forall_cons in Hb as [Hb0 Hb].
    apply not_elem_of_cons in Hni as [Hne Hni]. cbn [reasm_place].
    rewrite (ca_fsn _ _ _ Hchk), (frag_tsn_gt sid j), (frag_tsn_eqb sid j) by (done || lia).
    destruct (Nat.ltb_spec i i0).
    + exists [], (i0 :: l), [], (chk :: rest). repeat split; try constructor; [done| |by simpl; rewrite Nat.add_0_r].
      eapply Forall_impl; [exact Hlt|]. simpl. lia.
    + destruct (Nat.eqb_spec i0 i); [done|].
      destruct (IH (S k)) as (lu & lv & cu & cv & -> & -> & Hl & H1 & H2 & ->); [done..|].
      exists (i0 :: lu), lv, (chk :: cu), cv. repeat split; [simpl; lia | constructor; [lia | done] | done |].
      simpl. f_equal. lia.
Qed.

Lemma sorted_insert (lu lv : list nat) i :
  StronglySorted lt (lu ++ lv) -> Forall (fun k => (k < i)%nat) lu -> Forall (fun k => (i < k)%nat) lv ->
  StronglySorted lt (lu ++ i :: lv).
Proof.
  induction lu as [|k lu IH]; simpl; intros Hs H1 H2.
  - by constructor.
  - apply StronglySorted_inv in Hs as [Hs Hlt]. apply Forall_cons in H1 as [H1 H1'].
    constructor; [by apply IH|]. apply Forall_app in Hlt as [Ha Hb]. apply Forall_app. split; [done|]. by constructor.
Qed.

End Merge.

(** ** Storing a fragment

    [store_fragment] and [sctp_queue_data_for_reasm], for a fragment that has not been taken
    before: no check refuses it, and afterwards its message holds it. *)

Section Store.
Context (msg : nat -> nat -> option message) (env : rx_env) (Henv : env_ok env).
Context (Hplan : plan_ok msg (pd_point env)).

Lemma frag_tsn_inj m i k : frag_tsn m i = frag_tsn m k -> i = k.
Proof. unfold frag_tsn. lia. Qed.

Lemma has_other R m i k : k <> i -> has (receive R (frag_tsn m i)) (frag_tsn m k) <-> has R (frag_tsn m k).
Proof. intros Hne. rewrite has_receive. split; [intros [E%frag_tsn_inj |]; done | auto]. Qed.

Lemma has_this R z : has (receive R z) z.
Proof. rewrite has_receive. auto. Qed.

Lemma gt_all_ones w : in_u32 w -> SCTP_TSN_GT w 0xffffffff = (w <? 2147483647).
Proof. unfold in_u32. intros Hw. unfold SCTP_TSN_GT, SCTP_UINT32_GT. zbool; simpl; try done; width_lia. Qed.

(** The first fragment becomes the data of the control. *)
Lemma store_first R C s sid p c j m l chk :
  controls s !! p = Some c -> msg sid j = Some m -> ctl_at sid j m 0 l c -> (1 < m_size m)%nat -> 0%nat ∉ l ->
  chunk_at m 0 chk -> rec_ppid chk = m_ppid m -> tracks R C s -> has R (frag_tsn m 0) -> recent C (frag_tsn m 0) ->
  exists s' c', store_fragment env p chk s = Some (false, s') /\ tracks R C s' /\
    core_of s' = core_of (put_ctl p c' s) /\ ctl_at sid j m 1 l c' /\ same_place c c' /\
    last_frag_seen c' = last_frag_seen c.
Proof.
  intros Hc Hm Hct Hn H0 Hchk Hpp HT Hh Hrec.
  pose proof (frag_some _ _ Hplan _ _ _ _ Hm (Nat.lt_trans 0 1 _ (Nat.lt_0_succ 0) Hn)) as Hfne.
  unfold store_fragment, ctl. rewrite Hc. cbn [mbind option_bind].
  rewrite (ca_first _ _ _ Hchk), (ct_first _ _ _ _ _ _ Hct). cbn [Nat.eqb Z.eqb negb].
  rewrite (ca_tsn _ _ _ Hchk).
  match goal with |- context [mark_non_revokable env _ (put_ctl p ?x s)] => set (c1 := x) end.
  destruct (mark_spec env R C (put_ctl p c1 s) (frag_tsn m 0)) as (s1 & -> & HT1 & C1);
    [by eapply tracks_arrays; [|exact HT] | done..|].
  cbn [mbind option_bind]. pose proof (f_equal k_store C1) as C1s. cbn in C1s.
  unfold sctp_setup_tail_pointer, ctl. rewrite C1s, lookup_insert_eq. cbn [mbind option_bind].
  change (on_read_q c1) with (on_read_q c). rewrite (ct_read _ _ _ _ _ _ Hct). cbn [Z.eqb].
  change (data c1) with (chk_data chk). set (kept := filter nonempty (chk_data chk)).
  assert (Ek : chain_bytes kept = frag m 0) by (rewrite <- (ca_data _ _ _ Hchk); apply chain_bytes_kept).
  assert (Hk : kept <> []) by (intros E; rewrite E in Ek; done).
  assert (Htl : match chk_data chk with [] => tail_mbuf c1 | _ => last_place 0 kept end = Some (length kept - 1)%nat).
  { destruct (chk_data chk) eqn:Ec; [by subst kept|]. by rewrite last_place_some. }
  rewrite Htl. clear Htl. set (c2 := _ <| tail_mbuf := _ |>).
  change (controls (put_ctl p c2 s1)) with (<[p := c2]> (controls s1)). rewrite lookup_insert_eq.
  cbn [mbind option_bind]. eexists _, c2. split; [reflexivity|]. split; [by eapply tracks_arrays; [|exact HT1]|].
  split. { unfold core_of in *. cbn in *. injection C1 as -> -> -> -> -> -> ->. by rewrite insert_insert_eq. }
  pose proof (text_small msg env Henv Hplan _ _ _ 1 Hm) as Hsmall.
  assert (Htake : concat (take 1 (m_frags m)) = frag m 0) by (rewrite (take_frags m 0) by lia; done).
  rewrite Htake in Hsmall.
  split; [|split; [by split | done]].
  split; try apply Hct; try done.
  - cbn [end_added set_field set_tail_mbuf set_data set_ctl_length c2].
    change (end_added c1) with (end_added c). rewrite (ct_end _ _ _ _ _ _ Hct).
    destruct (Nat.eqb_spec 0 (m_size m)), (Nat.eqb_spec 1 (m_size m)); try done; lia.
  - by rewrite Htake.
  - cbn. by rewrite sum_len_spec, Htake, chain_len_text, Ek by (rewrite chain_len_text, Ek; done).
  - intros _. cbn. by rewrite (ca_fsn _ _ _ Hchk).
  - intros _. cbn. split; [|done]. unfold frag_tsn. by rewrite Z.add_0_r.
  - lia.
  - pose proof (ct_waiting _ _ _ _ _ _ Hct) as Hw. rewrite !Forall_forall in *. intros i Hi.
    specialize (Hw i Hi). destruct (Nat.eq_dec i 0) as [-> |]; [done | lia].
Qed.

Record only_flags (c c' : queued_to_read) : Prop := OnlyFlags {
  of_eq : c' = (c <| top_fsn := top_fsn c' |>) <| last_frag_seen := last_frag_seen c' |>
}.

Lemma ctl_at_flags sid j m r l c c' : only_flags c c' -> ctl_at sid j m r l c -> ctl_at sid j m r l c'.
Proof. intros [->] []. by split. Qed.

(** No check refuses a fragment that has not been taken. *)
Lemma check_fragment_spec R sid j m r l c i chk :
  msg sid j = Some m -> ctl_at sid j m r l c -> holds R m r l -> top_at R m c -> (1 < m_size m)%nat ->
  (0 < i < m_size m)%nat -> ~ has R (frag_tsn m i) -> chunk_at m i chk ->
  exists c', check_fragment env c chk = Some c' /\ only_flags c c' /\ top_at (receive R (frag_tsn m i)) m c'.
Proof.
  intros Hm Hct Hh [Hlast Htop Hover] Hn Hi Hni Hchk.
  assert (Hir : (r <= i)%nat).
  { destruct (Nat.le_gt_cases r i) as [|Hlt]; [done|]. exfalso. apply Hni, Hh; [lia|]. by left. }
  assert (Hbad : bad_fsn env c chk = false).
  { unfold bad_fsn. rewrite eo_data, (ct_first _ _ _ _ _ _ Hct) by done. cbn [Z.eqb orb].
    destruct (Nat.eqb_spec r 0); [done|]. cbn [Z.eqb negb andb].
    rewrite (ct_incl _ _ _ _ _ _ Hct), (ca_fsn _ _ _ Hchk), (frag_tsn_ge msg env Hplan sid j) by (done || lia).
    apply Nat.leb_gt. lia. }
  unfold check_fragment. rewrite Hbad, (ca_last _ _ _ Hchk), (ca_fsn _ _ _ Hchk), Hlast.
  set (top' := if SCTP_TSN_GT (u32 (frag_tsn m i)) (top_fsn c) then u32 (frag_tsn m i) else top_fsn c).
  assert (Htop' : top' = 0xffffffff \/ exists k, (1 <= k < m_size m)%nat /\ top' = u32 (frag_tsn m k)).
  { subst top'. destruct (SCTP_TSN_GT _ _); [|done]. right. exists i. split; [lia | done]. }
  destruct (decide (has R (frag_tsn m (m_size m - 1)))) as [Hl | Hl]; cbn [Z.eqb].
  - destruct (Nat.eqb_spec (S i) (m_size m)) as [E | Hne].
    { exfalso. apply Hni. by replace i with (m_size m - 1)%nat by lia. }
    rewrite (Hover Hl i) by lia. exists c. split; [done|]. split; [split; by destruct c|].
    assert (m_size m - 1 <> i)%nat by lia. split; [|done|].
    + rewrite Hlast. destruct (decide (has R (frag_tsn m (m_size m - 1)))) as [_ | ?]; [|done].
      rewrite decide_True; [done|]. by apply has_other.
    + intros _. by apply Hover.
  - assert (Hov : i = (m_size m - 1)%nat -> forall k, (1 <= k < m_size m)%nat -> SCTP_TSN_GT (u32 (frag_tsn m k)) top' = false).
    { intros Ei k Hk. subst top'. destruct (SCTP_TSN_GT (u32 (frag_tsn m i)) (top_fsn c)) eqn:Eg.
      - rewrite (frag_tsn_gt msg env Hplan sid j) by (done || lia). apply Nat.ltb_ge. lia.
      - destruct Htop as [Et | (k0 & Hk0 & Et)]; rewrite Et in Eg |- *.
        + rewrite gt_all_ones in Eg |- * by apply u32_range. apply Z.ltb_ge in Eg.
          apply Z.ltb_ge. apply (mo_half _ _ (po_msg _ _ Hplan _ _ _ Hm)); [by rewrite <- Ei | done].
        + rewrite (frag_tsn_gt msg env Hplan sid j) in Eg |- * by (done || lia). apply Nat.ltb_ge in Eg.
          apply Nat.ltb_ge. lia. }
    cbn [Z.eqb]. set (c1 := if SCTP_TSN_GT _ _ then _ else c).
    set (c2 := if (S i =? m_size m)%nat then _ else c1).
    assert (bad_fsn env c2 chk = false) as ->.
    { rewrite <- Hbad. subst c2 c1. by destruct (_ =? _)%nat, (SCTP_TSN_GT _ _). }
    exists c2. split; [done|]. subst c2 c1.
    destruct (Nat.eqb_spec (S i) (m_size m)) as [E | Hne].
    + assert (Ei : i = (m_size m - 1)%nat) by lia. split.
      { split. unfold top'. destruct (SCTP_TSN_GT _ _); by destruct c. }
      assert (Et : top_fsn ((if SCTP_TSN_GT (u32 (frag_tsn m i)) (top_fsn c)
                             then c <| top_fsn := u32 (frag_tsn m i) |> else c) <| last_frag_seen := 1 |>) = top').
      { subst top'. by destruct (SCTP_TSN_GT _ _). }
      split.
      * rewrite decide_True; [done|]. rewrite <- Ei. apply has_this.
      * rewrite Et. exact Htop'.
      * intros _. rewrite Et. by apply Hov.
    + split. { split. unfold top'. destruct (SCTP_TSN_GT _ _); by destruct c. }
      assert (Et : top_fsn (if SCTP_TSN_GT (u32 (frag_tsn m i)) (top_fsn c)
                            then c <| top_fsn := u32 (frag_tsn m i) |> else c) = top').
      { subst top'. by destruct (SCTP_TSN_GT _ _). }
      assert (Hl' : ~ has (receive R (frag_tsn m i)) (frag_tsn m (m_size m - 1))).
      { intros H. apply Hl. apply has_other in H; [done | lia]. }
      split.
      * rewrite decide_False by done. destruct (decide (has R (frag_tsn m (m_size m - 1)))); [done|].
        destruct (SCTP_TSN_GT _ _); simpl; exact Hlast.
      * rewrite Et. exact Htop'.
      * intros H. done.
Qed.

(** Any other fragment goes to its place in the list. *)
Lemma store_other R C s sid p c j m r l i chk :
  controls s !! p = Some c -> msg sid j = Some m -> ctl_at sid j m r l c -> (1 < m_size m)%nat ->
  holds R m r l -> top_at R m c -> (0 < i < m_size m)%nat -> ~ has R (frag_tsn m i) ->
  chunk_at m i chk -> tracks (receive R (frag_tsn m i)) C s ->
  exists s' c' l', store_fragment env p chk s = Some (false, s') /\ tracks (receive R (frag_tsn m i)) C s' /\
    core_of s' = core_of (put_ctl p c' s) /\ ctl_at sid j m r l' c' /\ on_strm_q c' = on_strm_q c /\
    top_at (receive R (frag_tsn m i)) m c' /\ (forall k, k ∈ l' <-> k = i \/ k ∈ l).
Proof.
  intros Hc Hm Hct Hn Hh Htop Hi Hni Hchk HT.
  destruct (check_fragment_spec R sid j m r l c i chk) as (c1 & E1 & Hof & Htop1); [done..|].
  pose proof (ctl_at_flags _ _ _ _ _ _ _ Hof Hct) as Hct1.
  unfold store_fragment, ctl. rewrite Hc. cbn [mbind option_bind].
  rewrite (ca_first _ _ _ Hchk). destruct (Nat.eqb_spec i 0); [lia|]. rewrite E1, (ca_fsn _ _ _ Hchk).
  assert (Hil : i ∉ l) by (intros H; apply Hni, Hh; [lia | auto]).
  assert (Hir : (r <= i)%nat).
  { destruct (Nat.le_gt_cases r i) as [|Hlt]; [done|]. exfalso. apply Hni, Hh; [lia|]. by left. }
  pose proof (ct_waiting _ _ _ _ _ _ Hct) as Hw.
  destruct (reasm_place_spec msg env Hplan sid j m l (reasm c1) i 0) as (lu & lv & cu & cv & El & Ec & Hlen & H1 & H2 & E);
    [done | apply Hct1 | apply Hct | eapply Forall_impl; [exact Hw|]; simpl; lia | lia | done |].
  rewrite E, Ec. simpl. rewrite take_app_length, drop_app_length.
  eexists _, _, (lu ++ i :: lv). split; [reflexivity|]. split; [by eapply tracks_arrays; [|exact HT]|].
  split; [done|]. split; [|split; [|split]].
  - destruct Hct1. split; try done.
    + apply sorted_insert; [by rewrite <- El | done..].
    + rewrite El in Hw. apply Forall_app in Hw as [Hw1 Hw2]. apply Forall_app. split; [done|].
      constructor; [lia | done].
    + rewrite El, Ec in ct_reasm. simpl. apply Forall2_app_inv in ct_reasm as [Hr1 Hr2]; [|done].
      apply Forall2_app; [done|]. by constructor.
  - destruct Hof as [->]. done.
  - destruct Htop1. by split.
  - intros k. rewrite El, !elem_of_app, elem_of_cons. tauto.
Qed.

End Store.
