(* ===== verification/AuthKeyProps.v ===== *)
(** * Properties of the authentication keys

    The order of two keys, the symmetry of the derived association key, the
    sorted shared-key list, and the life cycle of a shared key: reference counts
    and cached association keys over any sequence of operations. *)

From Stdlib Require Import Sorted.
From S2P Require Import Prelude Sha1 AuthLists AuthKeys.

Open Scope sctp_scope.

(** ** Keys as numbers *)

(** The number a key writes in network byte order. *)
Fixpoint be_value (k : list Z) : Z :=
  match k with
  | [] => 0
  | v :: k => v * 256 ^ Z.of_nat (length k) + be_value k
  end.

Definition key_ok (k : list Z) : Prop := Forall in_u8 k /\ Z.of_nat (length k) < 4294967296.

Lemma be_value_bound k : Forall in_u8 k -> 0 <= be_value k < 256 ^ Z.of_nat (length k).
Proof.
  induction 1 as [|v k Hv _ IH]; cbn [be_value length]; [done|].
  rewrite Nat2Z.inj_succ, Z.pow_succ_r by lia. unfold in_u8 in Hv. nia.
Qed.

(** RFC 4895's order: as numbers, and the shorter key first among equals. *)
Definition key_order (k1 k2 : list Z) : Z :=
  match be_value k1 ?= be_value k2 with
  | Lt => -1
  | Gt => 1
  | Eq => match (length k1 ?= length k2)%nat with Eq => 0 | Lt => -1 | Gt => 1 end
  end.

Definition length_order (l1 l2 : Z) : Z := if l1 =? l2 then 0 else if l1 <? l2 then -1 else 1.

(** The head of a key of [S r] bytes, left-padded with [a] zeroes, and what the
    pointer refers to afterwards. *)
Lemma padded_head (k : list Z) (a r : nat) (i pad : Z) :
  Forall in_u8 k -> Z.of_nat a = Z.max 0 (pad - i) -> (a + length k = S r)%nat ->
  exists v k', (if i <? pad then Some (0, k) else match k with v :: k => Some (v, k) | [] => None end)
      = Some (v, k')
    /\ in_u8 v /\ Forall in_u8 k' /\ (Nat.pred a + length k' = r)%nat
    /\ be_value k = v * 256 ^ Z.of_nat r + be_value k'.
Proof.
  intros Hk Ha Hlen. destruct (Z.ltb_spec i pad) as [Hlt|Hge].
  - exists 0, k. split_and!; [done | unfold in_u8; lia | done | lia | lia].
  - assert (a = 0%nat) as -> by lia. destruct k as [|v k]; [cbn in Hlen; lia|].
    inversion_clear Hk. cbn [length Nat.add Nat.pred be_value] in *. injection Hlen as <-.
    by exists v, k.
Qed.

Lemma compare_loop_value r : forall i maxlen len1 len2 k1 k2 (a1 a2 : nat),
  Forall in_u8 k1 -> Forall in_u8 k2 -> 0 <= i -> i + Z.of_nat r = maxlen -> in_u32 maxlen ->
  0 <= len1 <= maxlen -> 0 <= len2 <= maxlen ->
  Z.of_nat a1 = Z.max 0 (maxlen - len1 - i) -> (a1 + length k1 = r)%nat ->
  Z.of_nat a2 = Z.max 0 (maxlen - len2 - i) -> (a2 + length k2 = r)%nat ->
  compare_loop (S r) i maxlen len1 len2 k1 k2
    = Some match be_value k1 ?= be_value k2 with
           | Lt => -1 | Gt => 1 | Eq => length_order len1 len2 end.
Proof.
  induction r as [|r IH]; intros i maxlen len1 len2 k1 k2 a1 a2 H1 H2 Hi Hr Hm Hl1 Hl2 Ha1 Hk1 Ha2 Hk2.
  - destruct k1, k2; cbn [length] in *; try lia. cbn [compare_loop be_value].
    rewrite (proj2 (Z.ltb_ge _ _)) by lia. done.
  - remember (S r) as fuel eqn:Hfuel in |- *. cbn [compare_loop]. subst fuel.
    rewrite (proj2 (Z.ltb_lt i maxlen)) by lia.
    rewrite !(u32_id (maxlen - _)) by width_lia.
    destruct (padded_head k1 a1 r i (maxlen - len1) H1) as (v1 & k1' & -> & Hv1 & Hf1 & Hn1 & ->); [lia..|].
    destruct (padded_head k2 a2 r i (maxlen - len2) H2) as (v2 & k2' & -> & Hv2 & Hf2 & Hn2 & ->); [lia..|].
    cbn [mbind option_bind]. rewrite Z.gtb_ltb.
    pose proof (be_value_bound k1' Hf1) as B1. pose proof (be_value_bound k2' Hf2) as B2.
    assert (forall k : list Z, (length k <= r)%nat -> 256 ^ Z.of_nat (length k) <= 256 ^ Z.of_nat r) as Hp.
    { intros k Hle. apply Z.pow_le_mono_r; lia. }
    pose proof (Hp k1' ltac:(lia)). pose proof (Hp k2' ltac:(lia)).
    destruct (Z.ltb_spec v2 v1), (Z.ltb_spec v1 v2); try lia.
    + by rewrite (proj2 (Z.compare_gt_iff _ _)) by nia.
    + by rewrite (proj2 (Z.compare_lt_iff _ _)) by nia.
    + assert (v1 = v2) as -> by lia. rewrite (u32_id (i + 1)) by width_lia.
      rewrite (IH (i + 1) maxlen len1 len2 k1' k2' (Nat.pred a1) (Nat.pred a2)) by (done || lia).
      by rewrite Zcompare_plus_compat.
Qed.

Lemma length_order_nat (k1 k2 : list Z) :
  length_order (Z.of_nat (length k1)) (Z.of_nat (length k2))
    = match (length k1 ?= length k2)%nat with Eq => 0 | Lt => -1 | Gt => 1 end.
Proof.
  unfold length_order. destruct (Nat.compare_spec (length k1) (length k2)); zbool; lia.
Qed.

Lemma be_value_nonzero_len v k : Forall in_u8 (v :: k) -> 0 <= be_value (v :: k).
Proof. intros H. apply (be_value_bound (v :: k) H). Qed.

(** [sctp_compare_key] is the order of RFC 4895 on keys of any length: by
    the number the key writes, the shorter key first among equal numbers; the
    byte reads stay inside the keys and the loop ends. *)
Theorem compare_key_order k1 k2 : key_ok k1 -> key_ok k2 ->
  sctp_compare_key (Some k1) (Some k2) = Some (key_order k1 k2).
Proof.
  intros [H1 L1] [H2 L2]. unfold sctp_compare_key, sctp_get_keylen, key_order.
  destruct k1 as [|v1 k1], k2 as [|v2 k2].
  - done.
  - cbn [length andb Z.of_nat Z.eqb]. pose proof (be_value_nonzero_len v2 k2 H2).
    change (be_value []) with 0. by destruct (Z.compare_spec 0 (be_value (v2 :: k2))); [| |lia].
  - cbn [length andb Z.of_nat Z.eqb]. pose proof (be_value_nonzero_len v1 k1 H1).
    change (be_value []) with 0.
    by destruct (Z.compare_spec (be_value (v1 :: k1)) 0); [|lia|].
  - set (a := v1 :: k1) in *. set (b := v2 :: k2) in *.
    assert (0 < Z.of_nat (length a) /\ 0 < Z.of_nat (length b)) as [P1 P2] by (cbn; lia).
    rewrite !(proj2 (Z.eqb_neq _ 0)) by lia. cbn [andb].
    set (m := if _ <? _ then _ else _).
    assert (m = Z.max (Z.of_nat (length a)) (Z.of_nat (length b))) as Hm
      by (unfold m; zbool; lia).
    rewrite (compare_loop_value (Z.to_nat m) 0 m _ _ a b
      (Z.to_nat m - length a) (Z.to_nat m - length b)) by (done || unfold in_u32; lia).
    by rewrite length_order_nat.
Qed.

Lemma compare_key_order_witness :
  sctp_compare_key (Some [0; 1; 2]) (Some [1; 2]) = Some (key_order [0; 1; 2] [1; 2])
  /\ key_order [0; 1; 2] [1; 2] = 1 /\ key_order [9] [1; 2] = -1.
Proof.
  split; [|done]. apply compare_key_order; (split; [repeat constructor; vm_compute; congruence | reflexivity]).
Defined.

(** Keys of the same value and the same length are the same bytes. *)
Lemma be_value_inj k1 k2 : Forall in_u8 k1 -> Forall in_u8 k2 -> length k1 = length k2 ->
  be_value k1 = be_value k2 -> k1 = k2.
Proof.
  intros H1. revert k2. induction H1 as [|v1 k1 Hv1 Hk1 IH]; intros [|v2 k2] H2 Hl He; try done.
  inversion_clear H2 as [|? ? Hv2 Hk2]. injection Hl as Hl. cbn [be_value] in He. rewrite Hl in He.
  pose proof (be_value_bound k1 Hk1). pose proof (be_value_bound k2 Hk2). rewrite Hl in *.
  assert (v1 = v2) as -> by nia. f_equal. apply IH; [done | done | lia].
Qed.

Lemma key_order_sym k1 k2 : Forall in_u8 k1 -> Forall in_u8 k2 ->
  (key_order k1 k2 <=? 0) = negb (key_order k2 k1 <=? 0) \/ k1 = k2.
Proof.
  intros H1 H2. unfold key_order. rewrite (Z.compare_antisym (be_value k1)).
  destruct (be_value k1 ?= be_value k2) eqn:E; cbn [CompOpp]; [|by left..].
  rewrite (Nat.compare_antisym (length k1)).
  destruct (length k1 ?= length k2)%nat eqn:El; cbn [CompOpp]; [|by left..].
  right. apply Z.compare_eq_iff in E. apply Nat.compare_eq_iff in El. by apply be_value_inj.
Qed.

(** ** The association key *)

(** What the allocator promises. *)
Definition malloc_spec (malloc : Z -> option (list Z)) : Prop :=
  forall n b, malloc n = Some b -> Z.of_nat (length b) = n.

Definition key_bytes (k : option sctp_key) : list Z := default [] k.

Lemma keylen_bytes k : sctp_get_keylen k = Z.of_nat (length (key_bytes k)).
Proof. by destruct k. Qed.

(** Writing the next key behind what the buffer holds already. *)
Lemma append_key_spec written rest k :
  (length (key_bytes k) <= length rest)%nat ->
  append_key (written ++ rest, Z.of_nat (length written)) k
    = Some ((written ++ key_bytes k) ++ drop (length (key_bytes k)) rest,
            Z.of_nat (length (written ++ key_bytes k))).
Proof.
  intros Hlen. unfold append_key. destruct k as [k|]; cbn [key_bytes from_option id] in *.
  - rewrite keylen_bytes. cbn [key_bytes from_option id].
    destruct (Z.eqb_spec (Z.of_nat (length k)) 0) as [E|E].
    + assert (k = []) as -> by (apply nil_length_inv; lia). by rewrite app_nil_r.
    + rewrite memcpy_inside by (rewrite ?length_app; lia). cbn [mbind option_bind].
      rewrite Nat2Z.id, take_app_length, Nat2Z.id, firstn_all.
      replace (Z.to_nat (Z.of_nat (length written) + Z.of_nat (length k)))
        with (length written + length k)%nat by lia.
      rewrite drop_app_add', length_app by done. rewrite app_assoc. do 2 f_equal. lia.
  - by rewrite app_nil_r.
Qed.

(** The shared key, then the two random keys in RFC 4895's order. *)
Definition assoc_key_of (k1 k2 shared : list Z) : list Z :=
  shared ++ if key_order k1 k2 <=? 0 then k1 ++ k2 else k2 ++ k1.

Lemma assoc_key_sym k1 k2 shared : Forall in_u8 k1 -> Forall in_u8 k2 ->
  assoc_key_of k1 k2 shared = assoc_key_of k2 k1 shared.
Proof.
  intros H1 H2. unfold assoc_key_of. destruct (key_order_sym k1 k2 H1 H2) as [-> | ->]; [|done].
  by destruct (key_order k2 k1 <=? 0).
Qed.

Lemma hashkey_value malloc k1 k2 shared buf :
  malloc_spec malloc -> key_ok k1 -> key_ok k2 ->
  let n := Z.of_nat (length k1) + Z.of_nat (length k2) + sctp_get_keylen shared in
  0 < n < 4294967296 -> malloc n = Some buf ->
  sctp_compute_hashkey malloc (Some k1) (Some k2) shared
    = Some (Some (assoc_key_of k1 k2 (key_bytes shared))).
Proof.
  intros Hm H1 H2 n Hn Hbuf. unfold sctp_compute_hashkey. cbn [sctp_get_keylen]. fold n.
  unfold sctp_key in *. rewrite u32_id, (proj2 (Z.ltb_lt _ _)) by (unfold in_u32; lia).
  unfold sctp_alloc_key. rewrite Hbuf, compare_key_order by done. cbn [mbind option_bind].
  apply Hm in Hbuf. unfold n in Hbuf. rewrite keylen_bytes in Hbuf.
  pose proof (append_key_spec [] buf shared) as E1. cbn [app length] in E1.
  change (Z.of_nat 0) with 0 in E1.
  rewrite E1 by lia. cbn [mbind option_bind]. unfold assoc_key_of.
  destruct (key_order k1 k2 <=? 0).
  - rewrite append_key_spec by (rewrite length_drop; cbn; lia). cbn [mbind option_bind].
    rewrite append_key_spec by (rewrite !length_drop; cbn; lia).
    cbn [mbind option_bind fst key_bytes from_option id]. rewrite !drop_drop, drop_ge by lia.
    by rewrite app_nil_r, app_assoc.
  - rewrite append_key_spec by (rewrite length_drop; cbn; lia). cbn [mbind option_bind].
    rewrite append_key_spec by (rewrite !length_drop; cbn; lia).
    cbn [mbind option_bind fst key_bytes from_option id]. rewrite !drop_drop, drop_ge by lia.
    by rewrite app_nil_r, app_assoc.
Qed.

(** Whatever the allocator does, a result is that key. *)
Lemma hashkey_result malloc k1 k2 shared k :
  malloc_spec malloc -> key_ok k1 -> key_ok k2 ->
  Z.of_nat (length k1) + Z.of_nat (length k2) + sctp_get_keylen shared < 4294967296 ->
  sctp_compute_hashkey malloc (Some k1) (Some k2) shared = Some (Some k) ->
  k = assoc_key_of k1 k2 (key_bytes shared).
Proof.
  intros Hm H1 H2 Hn E. set (n := Z.of_nat (length k1) + Z.of_nat (length k2) + sctp_get_keylen shared) in Hn.
  assert (0 <= n) by (unfold n; rewrite keylen_bytes; lia).
  assert (0 < n /\ is_Some (malloc n)) as [Hpos [b Hb]].
  { unfold sctp_compute_hashkey in E. cbn [sctp_get_keylen] in E. fold n in E. unfold sctp_key in *.
    rewrite u32_id in E by (unfold in_u32; lia). destruct (Z.ltb_spec 0 n); [|done]. split; [done|].
    unfold sctp_alloc_key in E. destruct (malloc n); [by eexists | done]. }
  rewrite (hashkey_value malloc k1 k2 shared b Hm H1 H2) in E by done. by injection E.
Qed.

(** Both ends derive the same association key: one end calls
    [sctp_compute_hashkey] with its own random vector first, the other with the
    two exchanged, and both get the shared key followed by the two vectors in
    RFC 4895's order; the copies fill the allocated buffer exactly. *)
Theorem hashkey_symmetric malloc malloc' k1 k2 shared :
  malloc_spec malloc -> malloc_spec malloc' -> key_ok k1 -> key_ok k2 ->
  let n := Z.of_nat (length k1) + Z.of_nat (length k2) + sctp_get_keylen shared in
  0 < n < 4294967296 -> is_Some (malloc n) -> is_Some (malloc' n) ->
  sctp_compute_hashkey malloc (Some k1) (Some k2) shared
    = Some (Some (assoc_key_of k1 k2 (key_bytes shared)))
  /\ sctp_compute_hashkey malloc' (Some k2) (Some k1) shared
     = sctp_compute_hashkey malloc (Some k1) (Some k2) shared.
Proof.
  intros Hm Hm' H1 H2 n Hn [b Hb] [b' Hb'].
  rewrite (hashkey_value malloc k1 k2 shared b Hm H1 H2 Hn Hb). split; [done|].
  rewrite (hashkey_value malloc' k2 k1 shared b' Hm' H2 H1);
    [|lia | rewrite (Z.add_comm (Z.of_nat (length k2))); exact Hb'].
  by rewrite assoc_key_sym by (apply H1 || apply H2).
Qed.

(** An allocator that returns memory filled with a pattern. *)
Definition demo_malloc (n : Z) : option (list Z) := Some (replicate (Z.to_nat n) 0xa5).

Lemma demo_malloc_spec : forall n, 0 <= n ->
  malloc_spec (fun m => if m =? n then demo_malloc n else None).
Proof.
  intros n Hn m b. destruct (Z.eqb_spec m n); [|done]. intros [= <-].
  rewrite length_replicate. lia.
Qed.

Lemma hashkey_symmetric_witness :
  let malloc n := if n =? 6 then demo_malloc 6 else None in
  sctp_compute_hashkey malloc (Some [9; 1; 1]) (Some [7; 7]) (Some [5]) = Some (Some [5; 7; 7; 9; 1; 1])
  /\ sctp_compute_hashkey malloc (Some [7; 7]) (Some [9; 1; 1]) (Some [5])
     = sctp_compute_hashkey malloc (Some [9; 1; 1]) (Some [7; 7]) (Some [5]).
Proof.
  intros malloc. apply (hashkey_symmetric malloc malloc [9; 1; 1] [7; 7] (Some [5]));
    [by apply demo_malloc_spec | by apply demo_malloc_spec
    | split; [repeat constructor; vm_compute; congruence | reflexivity]
    | split; [repeat constructor; vm_compute; congruence | reflexivity]
    | vm_compute; split; congruence | eexists; reflexivity | eexists; reflexivity].
Defined.

(** ** The sorted list of shared keys *)

Definition id_lt (a b : sctp_sharedkey) : Prop := sk_keyid a < sk_keyid b.

Definition keys_sorted (keys : list sctp_sharedkey) : Prop := StronglySorted id_lt keys.

(** Replacing the key is refused: it is deactivated and still referenced. *)
Definition key_busy (k : sctp_sharedkey) : bool :=
  negb (sk_deactivated k =? 0) && (1 <? sk_refcount k).

Lemma find_keyid keys id k : sctp_find_sharedkey keys id = Some k -> sk_keyid k = id.
Proof.
  induction keys as [|x keys IH]; cbn; [done|]. destruct (Z.eqb_spec (sk_keyid x) id); [|done].
  by intros [= <-].
Qed.

Lemma find_in keys id k : sctp_find_sharedkey keys id = Some k -> k ∈ keys.
Proof.
  induction keys as [|x keys IH]; cbn; [done|]. destruct (Z.eqb_spec (sk_keyid x) id).
  - intros [= <-]. constructor.
  - intros H. constructor. auto.
Qed.

Lemma find_above keys k id : Forall (id_lt k) keys -> id <= sk_keyid k ->
  sctp_find_sharedkey keys id = None.
Proof.
  unfold id_lt. induction 1 as [|x keys Hx _ IH]; intros Hid; [done|]. cbn.
  rewrite (proj2 (Z.eqb_neq _ _)) by lia. auto.
Qed.

Lemma insert_loop_spec new keys : keys_sorted keys -> keys <> [] ->
  let '(r, keys') := insert_loop keys new in
  keys_sorted keys'
  /\ (forall k, Forall (id_lt k) keys -> sk_keyid k < sk_keyid new -> Forall (id_lt k) keys')
  /\ r = (if from_option key_busy false (sctp_find_sharedkey keys (sk_keyid new)) then EBUSY else 0)
  /\ (r <> 0 -> keys' = keys)
  /\ (r = 0 -> forall id, sctp_find_sharedkey keys' id
        = if sk_keyid new =? id then Some new else sctp_find_sharedkey keys id).
Proof.
  induction 1 as [|x keys Hs IH Hx]; intros Hne; [done|]. cbn [insert_loop sctp_find_sharedkey].
  destruct (Z.ltb_spec (sk_keyid new) (sk_keyid x)) as [Hlt|Hge].
  { split_and!.
    - constructor; [by constructor|]. constructor; [exact Hlt|].
      eapply Forall_impl; [exact Hx|]. unfold id_lt in *. lia.
    - intros k Hk Hkn. by constructor.
    - rewrite (proj2 (Z.eqb_neq _ _)) by lia.
      by rewrite (find_above keys x) by (done || lia).
    - done.
    - done. }
  destruct (Z.eqb_spec (sk_keyid new) (sk_keyid x)) as [Heq|Hneq].
  { rewrite Heq, Z.eqb_refl. cbn [from_option]. fold (key_busy x).
    destruct (key_busy x); split_and!; try done.
    - by constructor.
    - constructor; [done|]. eapply Forall_impl; [exact Hx|]. unfold id_lt in *. lia.
    - intros k Hk Hkn. inversion_clear Hk. constructor; [unfold id_lt in *; lia | done].
    - intros _ id. cbn [sctp_find_sharedkey]. rewrite Heq. by destruct (sk_keyid x =? id). }
  rewrite (proj2 (Z.eqb_neq (sk_keyid x) _)) by lia.
  destruct keys as [|y keys].
  { cbn [sctp_find_sharedkey from_option]. split_and!; try done.
    - repeat constructor. unfold id_lt. lia.
    - intros k Hk Hkn. inversion_clear Hk. repeat constructor; [done | exact Hkn].
    - intros _ id. cbn [sctp_find_sharedkey].
      destruct (Z.eqb_spec (sk_keyid x) id), (Z.eqb_spec (sk_keyid new) id); try lia; done. }
  specialize (IH ltac:(done)). destruct (insert_loop (y :: keys) new) as [r keys'].
  destruct IH as (Hs' & Hall & Hr & Hb & Hf). split_and!.
  - constructor; [done|]. apply Hall; [done | lia].
  - intros k Hk Hkn. inversion_clear Hk. constructor; [done | auto].
  - done.
  - intros Hr0. by rewrite Hb.
  - intros Hr0 id. cbn [sctp_find_sharedkey]. destruct (Z.eqb_spec (sk_keyid x) id) as [<-|].
    + by rewrite (proj2 (Z.eqb_neq _ _)) by lia.
    + by apply Hf.
Qed.

Lemma insert_sharedkey_spec keys new : keys_sorted keys ->
  let '(r, keys') := sctp_insert_sharedkey keys (Some new) in
  keys_sorted keys'
  /\ r = (if from_option key_busy false (sctp_find_sharedkey keys (sk_keyid new)) then EBUSY else 0)
  /\ (r <> 0 -> keys' = keys)
  /\ (r = 0 -> forall id, sctp_find_sharedkey keys' id
        = if sk_keyid new =? id then Some new else sctp_find_sharedkey keys id).
Proof.
  intros Hs. unfold sctp_insert_sharedkey. destruct keys as [|k keys].
  { split_and!; try done. repeat constructor. }
  pose proof (insert_loop_spec new (k :: keys) Hs ltac:(done)) as H.
  destruct (insert_loop (k :: keys) new). naive_solver.
Qed.

(** Updating and removing by id keep the order. *)
Lemma update_key_spec f keys id :
  (forall k, sk_keyid (f k) = sk_keyid k) -> keys_sorted keys ->
  keys_sorted (update_key keys id f)
  /\ forall x, sctp_find_sharedkey (update_key keys id f) x
       = if id =? x then f <$> sctp_find_sharedkey keys x else sctp_find_sharedkey keys x.
Proof.
  intros Hf. induction 1 as [|k keys Hs [IH1 IH2] Hk].
  { split; [constructor|]. intros x. cbn. by destruct (id =? x). }
  cbn [update_key sctp_find_sharedkey]. destruct (Z.eqb_spec (sk_keyid k) id) as [<-|Hne].
  - split.
    + constructor; [done|]. eapply Forall_impl; [exact Hk|]. unfold id_lt. intros y. by rewrite Hf.
    + intros x. cbn [sctp_find_sharedkey]. rewrite Hf. by destruct (sk_keyid k =? x).
  - split.
    + constructor; [done|]. clear IH1 IH2 Hs.
      induction Hk as [|y keys Hy Hk' IH]; cbn [update_key]; [constructor|].
      destruct (sk_keyid y =? id); constructor; [unfold id_lt; by rewrite Hf | done | done | done].
    + intros x. cbn [sctp_find_sharedkey]. rewrite IH2.
      destruct (Z.eqb_spec (sk_keyid k) x), (Z.eqb_spec id x); try done. lia.
Qed.

Lemma remove_key_spec keys id : keys_sorted keys ->
  keys_sorted (remove_key keys id)
  /\ forall x, sctp_find_sharedkey (remove_key keys id) x
       = if id =? x then None else sctp_find_sharedkey keys x.
Proof.
  induction 1 as [|k keys Hs [IH1 IH2] Hk].
  { split; [constructor|]. intros x. cbn. by destruct (id =? x). }
  cbn [remove_key sctp_find_sharedkey]. destruct (Z.eqb_spec (sk_keyid k) id) as [<-|Hne].
  - split; [done|]. intros x. destruct (Z.eqb_spec (sk_keyid k) x) as [<-|]; [|done].
    apply (find_above keys k); [done | lia].
  - split.
    + constructor; [done|]. clear IH1 IH2 Hs.
      induction Hk as [|y keys Hy Hk' IH]; cbn [remove_key]; [constructor|].
      destruct (sk_keyid y =? id); [done | by constructor].
    + intros x. cbn [sctp_find_sharedkey]. rewrite IH2.
      destruct (Z.eqb_spec (sk_keyid k) x), (Z.eqb_spec id x); try done. lia.
Qed.

(** C19. Inserting a shared key keeps the list strictly sorted by key id, so
    there is one key per id; afterwards looking up its id gives the new key and
    every other id gives what it gave before; the one refusal is [EBUSY], when
    the id's present key is deactivated and still referenced, and then the list
    is unchanged. *)
Theorem insert_sharedkey_correct keys new : keys_sorted keys ->
  let '(r, keys') := sctp_insert_sharedkey keys (Some new) in
  keys_sorted keys'
  /\ (if from_option key_busy false (sctp_find_sharedkey keys (sk_keyid new))
      then r = EBUSY /\ keys' = keys
      else r = 0 /\ forall id, sctp_find_sharedkey keys' id
             = if sk_keyid new =? id then Some new else sctp_find_sharedkey keys id).
Proof.
  intros Hs. pose proof (insert_sharedkey_spec keys new Hs) as H.
  destruct (sctp_insert_sharedkey keys (Some new)) as [r keys']. destruct H as (H1 & H2 & H3 & H4).
  split; [done|]. destruct (from_option key_busy false _); subst r; auto.
Qed.

Definition demo_key (id : Z) : sctp_sharedkey := SKey (Some [id; 1]) 1 id 0.

Lemma insert_sharedkey_correct_witness :
  keys_sorted [demo_key 1; demo_key 4] /\
  sctp_insert_sharedkey [demo_key 1; demo_key 4] (Some (demo_key 3))
    = (0, [demo_key 1; demo_key 3; demo_key 4]) /\
  let '(r, keys') := sctp_insert_sharedkey [demo_key 1; demo_key 4] (Some (demo_key 3)) in
  keys_sorted keys' /\ r = 0 /\ forall id, sctp_find_sharedkey keys' id
     = if 3 =? id then Some (demo_key 3) else sctp_find_sharedkey [demo_key 1; demo_key 4] id.
Proof.
  assert (keys_sorted [demo_key 1; demo_key 4]) as H.
  { repeat constructor. }
  split; [exact H|]. split; [reflexivity|].
  exact (insert_sharedkey_correct [demo_key 1; demo_key 4] (demo_key 3) H).
Defined.

(** ** The life of shared keys *)

(** What a cached association key may be: the key derived from the current
    shared key of the id, or its hash once an HMAC computation has shortened it
    in place. *)
Definition cached_for (i : sctp_authinfo) (keys : list sctp_sharedkey) (id : Z) (k : sctp_key) : Prop :=
  let full := assoc_key_of (key_bytes (ai_random i)) (key_bytes (ai_peer_random i))
                (key_bytes (sctp_find_sharedkey keys id ≫= sk_key)) in
  k = full \/ (64 < length full)%nat /\ k = sha1 full.

Record cache_inv (i : sctp_authinfo) (keys : list sctp_sharedkey) : Prop := CacheInv {
  cache_send : forall k, ai_assoc_key i = Some k -> cached_for i keys (ai_assoc_keyid i) k;
  cache_recv : forall k, ai_recv_key i = Some k -> cached_for i keys (ai_recv_keyid i) k
}.

(** [held] are the key ids queued messages hold a reference to. *)
Record key_inv (keys : list sctp_sharedkey) (active : Z) (held : list Z) : Prop := KeyInv {
  ki_sorted : keys_sorted keys;
  ki_active : is_Some (sctp_find_sharedkey keys active);
  ki_refs : forall id k, sctp_find_sharedkey keys id = Some k ->
    sk_refcount k = 1 + Z.of_nat (count_occ Z.eq_dec held id);
  ki_held : forall id, id ∈ held -> is_Some (sctp_find_sharedkey keys id);
  ki_small : Z.of_nat (length held) <= 4294967294;
  ki_text : forall id k, sctp_find_sharedkey keys id = Some k -> sctp_get_keylen (sk_key k) <= 65535
}.

Definition auth_inv (a : auth_assoc) (held : list Z) : Prop :=
  key_inv (shared_keys a) (ai_active_keyid (authinfo a)) held
  /\ cache_inv (authinfo a) (shared_keys a).

Lemma cached_same i keys keys' id k :
  sctp_find_sharedkey keys' id ≫= sk_key = sctp_find_sharedkey keys id ≫= sk_key ->
  cached_for i keys id k -> cached_for i keys' id k.
Proof. intros E. unfold cached_for. by rewrite E. Qed.

Lemma cache_inv_same i keys keys' :
  (forall id, sctp_find_sharedkey keys' id ≫= sk_key = sctp_find_sharedkey keys id ≫= sk_key) ->
  cache_inv i keys -> cache_inv i keys'.
Proof. intros E [H1 H2]. constructor; intros k Hk; eapply cached_same; eauto. Qed.

(** After clearing, nothing is cached for the id; everything else is kept. *)
Lemma clear_cached_spec a id : let a' := sctp_clear_cachedkeys a id in
  shared_keys a' = shared_keys a /\ ai_active_keyid (authinfo a') = ai_active_keyid (authinfo a)
  /\ (forall keys', cache_inv (authinfo a) (shared_keys a) ->
       (forall x, x <> id -> sctp_find_sharedkey keys' x ≫= sk_key
                             = sctp_find_sharedkey (shared_keys a) x ≫= sk_key) ->
       cache_inv (authinfo a') keys').
Proof.
  intros a'. unfold a', sctp_clear_cachedkeys.
  split; [by repeat case_match|]. split; [by repeat case_match|]. intros keys' [H1 H2] Hk.
  destruct (Z.eqb_spec id (ai_assoc_keyid (authinfo a))) as [E1|E1];
    cbn [authinfo set_authinfo set_assoc_key ai_recv_keyid];
    destruct (Z.eqb_spec id (ai_recv_keyid (authinfo a))) as [E2|E2];
    (constructor; intros k Hc; cbn in Hc |- *; try done);
    (eapply cached_same; [apply Hk; congruence | unfold cached_for in *; by auto]).
Qed.

Lemma clear_inv a id held : auth_inv a held -> auth_inv (sctp_clear_cachedkeys a id) held.
Proof.
  intros [Hk Hc]. destruct (clear_cached_spec a id) as (E1 & E2 & H). unfold auth_inv.
  rewrite E1, E2. split; [done|]. by apply H.
Qed.

(** Changing one key in place, its id and its text kept. *)
Lemma update_inv f a id held held' active :
  (forall k, sk_keyid (f k) = sk_keyid k) -> (forall k, sk_key (f k) = sk_key k) ->
  auth_inv a held -> is_Some (sctp_find_sharedkey (shared_keys a) active) ->
  (forall k, sctp_find_sharedkey (shared_keys a) id = Some k ->
     sk_refcount (f k) = 1 + Z.of_nat (count_occ Z.eq_dec held' id)) ->
  (forall x, x <> id -> count_occ Z.eq_dec held' x = count_occ Z.eq_dec held x) ->
  (forall x, x ∈ held' -> x ∈ held \/ is_Some (sctp_find_sharedkey (shared_keys a) x)) ->
  Z.of_nat (length held') <= 4294967294 ->
  key_inv (update_key (shared_keys a) id f) active held'
  /\ cache_inv (authinfo a) (update_key (shared_keys a) id f).
Proof.
  intros Hf Hk [[Hs Ha Hr Hh _ Ht] Hc] Hact Hid Hoth Hheld Hsmall.
  destruct (update_key_spec f (shared_keys a) id Hf Hs) as [Hs' Hfind].
  assert (forall x, is_Some (sctp_find_sharedkey (shared_keys a) x) ->
    is_Some (sctp_find_sharedkey (update_key (shared_keys a) id f) x)) as Hsome.
  { intros x [y Hy]. rewrite Hfind, Hy. destruct (id =? x); eauto. }
  split; [constructor|].
  - done.
  - by apply Hsome.
  - intros x k Hx. rewrite Hfind in Hx. destruct (Z.eqb_spec id x) as [<-|Hne].
    + destruct (sctp_find_sharedkey (shared_keys a) id) as [k0|] eqn:E; [|done].
      injection Hx as <-. by apply Hid.
    + rewrite Hoth by done. by apply Hr.
  - intros x Hx. apply Hsome. destruct (Hheld x Hx); auto.
  - done.
  - intros x k Hx. rewrite Hfind in Hx. destruct (id =? x); [|by apply (Ht x)].
    destruct (sctp_find_sharedkey (shared_keys a) x) as [k0|] eqn:E; [|done]. injection Hx as <-. rewrite Hk. by apply (Ht x).
  - apply (cache_inv_same _ (shared_keys a)); [|done]. intros x. rewrite Hfind.
    destruct (id =? x); [|done]. destruct (sctp_find_sharedkey (shared_keys a) x); [|done].
    cbn. by rewrite Hk.
Qed.

(** *** Operations as steps *)

Fixpoint drop_one (l : list Z) (id : Z) : list Z :=
  match l with
  | [] => []
  | x :: l => if Z.eq_dec x id then l else x :: drop_one l id
  end.

Lemma count_drop_one l id x : count_occ Z.eq_dec (drop_one l id) x
  = (count_occ Z.eq_dec l x - if Z.eq_dec id x then 1 else 0)%nat.
Proof.
  induction l as [|y l IH]; cbn [drop_one count_occ]; [by destruct (Z.eq_dec id x)|].
  destruct (Z.eq_dec y id) as [->|Hy].
  - destruct (Z.eq_dec id x); lia.
  - cbn [count_occ]. rewrite IH. destruct (Z.eq_dec y x), (Z.eq_dec id x); subst; lia || done.
Qed.

Lemma drop_one_length l id : (length (drop_one l id) <= length l)%nat.
Proof. induction l as [|y l IH]; cbn; [lia|]. destruct (Z.eq_dec y id); cbn; lia. Qed.

Lemma drop_one_sub l id x : x ∈ drop_one l id -> x ∈ l.
Proof. induction l as [|y l IH]; cbn; [done|]. destruct (Z.eq_dec y id); set_solver. Qed.

Section Life.

Context (malloc : Z -> option (list Z)).
Hypothesis Hmalloc : malloc_spec malloc.

(** The operations on the keys of one association, with the references that queued messages
    hold.  A message takes its reference when it is queued and gives it back
    when it is done with.  The length of a key in the option has 16 bits. *)
Inductive key_step : auth_assoc * list Z -> auth_assoc * list Z -> Prop :=
| KeySet a held ok id bytes size r a' :
    setopt_auth_key malloc ok a id bytes size = Some (r, a') -> id ∉ held -> size <= 65535 ->
    key_step (a, held) (a', held)
| KeyDelete a held id r a' :
    sctp_delete_sharedkey a id = (r, a') -> key_step (a, held) (a', held)
| KeyActivate a held id r a' :
    sctp_auth_setactivekey a id = (r, a') -> key_step (a, held) (a', held)
| KeyDeactivate a held id r a' :
    sctp_deact_sharedkey a id = (r, a') -> key_step (a, held) (a', held)
| KeyAcquire a held id :
    is_Some (sctp_find_sharedkey (shared_keys a) id) -> Z.of_nat (length held) < 4294967294 ->
    key_step (a, held) (sctp_auth_key_acquire a id, id :: held)
| KeyRelease a held id a' :
    id ∈ held -> sctp_auth_key_release a id = Some a' ->
    key_step (a, held) (a', drop_one held id).

Lemma count_held (held : list Z) id : id ∈ held -> (0 < count_occ Z.eq_dec held id)%nat.
Proof. intros H. apply count_occ_In. by apply list_elem_of_In. Qed.

Lemma acquire_inv a held id :
  auth_inv a held -> is_Some (sctp_find_sharedkey (shared_keys a) id) ->
  Z.of_nat (length held) < 4294967294 ->
  auth_inv (sctp_auth_key_acquire a id) (id :: held).
Proof.
  intros Hi [k Hk] Hlen. unfold sctp_auth_key_acquire. rewrite Hk.
  pose proof (count_occ_bound Z.eq_dec id held) as Hb.
  apply (update_inv _ a id held); [done | done | done | apply Hi | | | | cbn [length]; lia].
  - intros k' Hk'. cbn [sk_refcount set_refcount count_occ]. destruct (Z.eq_dec id id); [|done].
    rewrite (ki_refs _ _ _ (proj1 Hi) id k' Hk'). rewrite u32_id by width_lia. lia.
  - intros x Hx. cbn [count_occ]. destruct (Z.eq_dec id x); congruence.
  - intros x [->|Hx]%elem_of_cons; eauto.
Qed.

Lemma release_inv a held id : auth_inv a held -> id ∈ held ->
  exists a', sctp_auth_key_release a id = Some a' /\ auth_inv a' (drop_one held id).
Proof.
  intros Hi Hid. pose proof (ki_small _ _ _ (proj1 Hi)) as Hsm.
  pose proof (count_occ_bound Z.eq_dec id held) as Hb. destruct (ki_held _ _ _ (proj1 Hi) id Hid) as [k Hk].
  pose proof (ki_refs _ _ _ (proj1 Hi) id k Hk) as Hr. pose proof (count_held held id Hid) as Hc.
  unfold sctp_auth_key_release. rewrite Hk. unfold sctp_free_sharedkey.
  rewrite (proj2 (Z.eqb_neq (sk_refcount k) 1)) by lia. cbn [mbind option_bind]. eexists. split; [done|].
  set (f := fun _ : sctp_sharedkey => _).
  set (a0 := if _ && _ then notify a (SCTP_NOTIFY_AUTH_FREE_KEY id) else a).
  assert (shared_keys a0 = shared_keys a /\ authinfo a0 = authinfo a) as [E1 E2]
    by (unfold a0; by case_match).
  unfold auth_inv. cbn [shared_keys set_shared_keys authinfo]. rewrite E1, E2.
  assert (update_key (shared_keys a) id f
    = update_key (shared_keys a) id (fun k => set_refcount k (u32 (sk_refcount k - 1)))) as ->.
  { clear -Hk. induction (shared_keys a) as [|x l IH]; cbn in *; [done|].
    destruct (sk_keyid x =? id); [|by rewrite IH]. by simplify_eq. }
  apply (update_inv _ a id held);
    [done | done | done | apply Hi | | | | pose proof (drop_one_length held id); lia].
  - intros k' Hk'. cbn [sk_refcount set_refcount]. rewrite (ki_refs _ _ _ (proj1 Hi) id k' Hk').
    rewrite count_drop_one. destruct (Z.eq_dec id id); [|done]. rewrite u32_id; width_lia.
  - intros x Hx. rewrite count_drop_one. destruct (Z.eq_dec id x); [congruence | lia].
  - intros x Hx%drop_one_sub. auto.
Qed.

Lemma option_text bytes size key : size <= 65535 ->
  (if 0 <? size then sctp_set_key malloc bytes (u32 size) else Some None) = Some key -> sctp_get_keylen key <= 65535.
Proof.
  intros Hs. destruct (Z.ltb_spec 0 size); [|by intros [= <-]]. rewrite u32_id by (unfold in_u32; lia).
  unfold sctp_set_key, sctp_alloc_key. destruct (malloc size) as [b|] eqn:Eb; [|by intros [= <-]].
  apply Hmalloc in Eb. unfold block_memcpy. destruct (_ && _) eqn:Eg; [|done]. intros [= <-]. cbn [sctp_get_keylen].
  apply andb_true_iff in Eg as [_ Hl%Z.leb_le]. rewrite !length_app, !length_take, length_drop. lia.
Qed.

Lemma set_key_inv ok a held id bytes size r a' :
  auth_inv a held -> setopt_auth_key malloc ok a id bytes size = Some (r, a') -> id ∉ held -> size <= 65535 ->
  auth_inv a' held.
Proof.
  intros Hi E Hid Hsize. unfold setopt_auth_key in E.
  destruct (if 0 <? size then _ else _) as [key|] eqn:Ekey; [|done]. cbn [mbind option_bind] in E.
  apply option_text in Ekey; [|done].
  destruct ((0 <? size) && _); [simplify_eq; by apply clear_inv|].
  destruct ok; cbn [sctp_alloc_sharedkey] in E; [|simplify_eq; by apply clear_inv].
  set (n := SKey _ _ _ _) in E.
  destruct (clear_cached_spec a id) as (E1 & E2 & Hcache). rewrite E1 in E.
  pose proof (insert_sharedkey_spec (shared_keys a) n (ki_sorted _ _ _ (proj1 Hi))) as Hins.
  destruct (sctp_insert_sharedkey (shared_keys a) (Some n)) as [r' keys'].
  injection E as <- <-. destruct Hins as (Hs & Hr & Hbusy & Hfind).
  destruct (Z.eq_dec r' 0) as [Hz|Hnz].
  - specialize (Hfind Hz). cbn [n sk_keyid] in Hfind. destruct Hi as [[_ Ha Hrf Hh Hsm Ht] Hc].
    unfold auth_inv. cbn [shared_keys authinfo set_shared_keys]. rewrite E2.
    split; [constructor|].
    + done.
    + rewrite Hfind. destruct (id =? _); [by eexists | exact Ha].
    + intros x k Hx. rewrite Hfind in Hx. destruct (Z.eqb_spec id x) as [<-|]; [|by apply Hrf].
      injection Hx as <-. cbn. rewrite (proj1 (count_occ_not_In _ _ _)); [done|].
      by rewrite <- list_elem_of_In.
    + intros x Hx. rewrite Hfind. destruct (id =? x); [by eexists | by apply Hh].
    + done.
    + intros x k Hx. rewrite Hfind in Hx. destruct (id =? x); [by injection Hx as <- | by apply (Ht x)].
    + apply Hcache; [done|]. intros x Hx. rewrite Hfind.
      by rewrite (proj2 (Z.eqb_neq _ _)).
  - rewrite (Hbusy Hnz), <- E1.
    destruct (clear_inv a id held Hi) as [H1 H2]. by split.
Qed.

Lemma delete_inv a held id : auth_inv a held -> auth_inv (sctp_delete_sharedkey a id).2 held.
Proof.
  intros Hi. unfold sctp_delete_sharedkey.
  destruct (Z.eqb_spec id (ai_active_keyid (authinfo a))) as [|Hact]; [done|].
  destruct (sctp_find_sharedkey (shared_keys a) id) as [k|] eqn:Ek; [|done].
  destruct (Z.ltb_spec 1 (sk_refcount k)) as [|Hle]; [done|]. cbn [snd].
  destruct (remove_key_spec (shared_keys a) id (ki_sorted _ _ _ (proj1 Hi))) as [Hs Hfind].
  set (a1 := set_shared_keys a _). destruct (clear_cached_spec a id) as (_ & _ & Hcache).
  assert (authinfo (sctp_clear_cachedkeys a1 id) = authinfo (sctp_clear_cachedkeys a id)) as Ei.
  { unfold sctp_clear_cachedkeys, a1. cbn [authinfo set_shared_keys].
    destruct (id =? ai_assoc_keyid _); cbn [authinfo set_authinfo set_assoc_key ai_recv_keyid];
      by destruct (id =? ai_recv_keyid _). }
  destruct (clear_cached_spec a1 id) as (E1 & E2 & _). unfold auth_inv. rewrite E1, E2, Ei.
  destruct Hi as [[_ Ha Hr Hh Hsm Ht] Hc]. change (shared_keys a1) with (remove_key (shared_keys a) id).
  split; [constructor|].
  - done.
  - cbn [a1 authinfo set_shared_keys]. rewrite Hfind. by rewrite (proj2 (Z.eqb_neq _ _)).
  - intros x k' Hx. rewrite Hfind in Hx. destruct (id =? x); [done | by apply Hr].
  - intros x Hx. rewrite Hfind. destruct (Z.eqb_spec id x) as [<-|]; [|by apply Hh].
    pose proof (count_held held id Hx). rewrite (Hr id k Ek) in Hle. lia.
  - done.
  - intros x k' Hx. rewrite Hfind in Hx. destruct (id =? x); [done | by apply (Ht x)].
  - apply Hcache; [done|]. intros x Hx. rewrite Hfind. by rewrite (proj2 (Z.eqb_neq _ _)).
Qed.

Lemma flag_inv d a held id active :
  auth_inv a held -> is_Some (sctp_find_sharedkey (shared_keys a) active) ->
  key_inv (update_key (shared_keys a) id (fun k => set_deactivated k d)) active held
  /\ cache_inv (authinfo a) (update_key (shared_keys a) id (fun k => set_deactivated k d)).
Proof.
  intros Hi Ha. apply (update_inv _ a id held); auto.
  - intros k Hk. exact (ki_refs _ _ _ (proj1 Hi) id k Hk).
  - apply Hi.
Qed.

Lemma key_step_inv s s' : key_step s s' -> auth_inv s.1 s.2 -> auth_inv s'.1 s'.2.
Proof.
  destruct 1 as [a held ok id bytes size r a' E Hid Hsz | a held id r a' E | a held id r a' E
    | a held id r a' E | a held id Hid Hlen | a held id a' Hid E]; cbn [fst snd]; intros Hi.
  - by eapply set_key_inv.
  - pose proof (delete_inv a held id Hi) as H. by rewrite E in H.
  - unfold sctp_auth_setactivekey in E. destruct (sctp_find_sharedkey _ id) eqn:Ek; [|by simplify_eq].
    destruct (_ && _); simplify_eq; [done|].
    destruct (flag_inv 0 a held id id Hi (mk_is_Some _ _ Ek)) as [H1 [H2 H3]]. split; [done|].
    constructor; [exact H2 | exact H3].
  - unfold sctp_deact_sharedkey in E. destruct (id =? _); [by simplify_eq|].
    destruct (sctp_find_sharedkey _ id); [|by simplify_eq]. injection E as <- <-.
    destruct (sk_refcount _ =? 1); apply (flag_inv 1 a held id); auto; apply Hi.
  - by apply acquire_inv.
  - destruct (release_inv a held id Hi Hid) as (a1 & E1 & H1). by simplify_eq.
Qed.

(** The random vectors stay. *)
Lemma key_step_vectors s s' : key_step s s' ->
  ai_random (authinfo s'.1) = ai_random (authinfo s.1) /\ ai_peer_random (authinfo s'.1) = ai_peer_random (authinfo s.1).
Proof.
  assert (Hclear : forall a id, ai_random (authinfo (sctp_clear_cachedkeys a id)) = ai_random (authinfo a) /\
    ai_peer_random (authinfo (sctp_clear_cachedkeys a id)) = ai_peer_random (authinfo a)).
  { intros a id. unfold sctp_clear_cachedkeys. by repeat case_match. }
  destruct 1 as [a held ok id bytes size r a' E Hid Hsz | a held id r a' E | a held id r a' E
    | a held id r a' E | a held id Hid Hlen | a held id a' Hid E]; cbn [fst snd].
  - unfold setopt_auth_key in E. destruct (if 0 <? size then _ else _) as [key|]; [|done]. cbn [mbind option_bind] in E.
    destruct (_ && _); [simplify_eq; apply Hclear|]. destruct (sctp_alloc_sharedkey ok); [|simplify_eq; apply Hclear].
    destruct (sctp_insert_sharedkey _ _). simplify_eq. apply Hclear.
  - unfold sctp_delete_sharedkey in E. repeat case_match; simplify_eq; try done.
    exact (Hclear (set_shared_keys a (remove_key (shared_keys a) id)) id).
  - unfold sctp_auth_setactivekey in E. by repeat case_match; simplify_eq.
  - unfold sctp_deact_sharedkey in E. by repeat case_match; simplify_eq.
  - unfold sctp_auth_key_acquire. by case_match.
  - unfold sctp_auth_key_release in E. destruct (sctp_find_sharedkey _ id); [|by simplify_eq].
    destruct (sctp_free_sharedkey _); [|done]. cbn [mbind option_bind] in E. simplify_eq. by case_match.
Qed.

End Life.

(** The start of an association's life: the endpoint's null key, active, and
    nothing cached. *)
Definition initial_auth (a : auth_assoc) : Prop :=
  shared_keys a = [SKey None 1 (ai_active_keyid (authinfo a)) 0]
  /\ ai_assoc_key (authinfo a) = None /\ ai_recv_key (authinfo a) = None.

Lemma initial_inv a : initial_auth a -> auth_inv a [].
Proof.
  intros (Hk & Hs & Hr). unfold auth_inv. rewrite Hk. split.
  - constructor; cbn [sctp_find_sharedkey sk_keyid].
    + repeat constructor.
    + rewrite Z.eqb_refl. by eexists.
    + intros id k. destruct (Z.eqb_spec (ai_active_keyid (authinfo a)) id); [|done]. by intros [= <-].
    + intros id H. by apply elem_of_nil in H.
    + cbn. lia.
    + intros id k. destruct (Z.eqb_spec (ai_active_keyid (authinfo a)) id); [|done]. intros [= <-]. cbn. lia.
  - constructor; congruence.
Qed.

Definition demo_assoc : auth_assoc :=
  AuthAssoc (AuthInfo (Some [9; 1; 1]) 1 (Some [7; 7]) None None 0 0 0)
    [SKey None 1 0 0] None None None 1 [].

Definition any_malloc (n : Z) : option (list Z) := Some (replicate (Z.to_nat n) 0).

(** The condition that no key is replaced while it is held is needed: setting a key anew
    succeeds while a queued message holds a reference to the old key, but the new
    key starts with one reference and the message's release, which looks the key
    up by id, drops that one: the key is freed while it is still linked in the
    list. *)
Theorem replaced_key_freed_in_list malloc a id k bytes size :
  malloc_spec malloc -> keys_sorted (shared_keys a) ->
  sctp_find_sharedkey (shared_keys a) id = Some k -> sk_deactivated k = 0 ->
  0 < size < 4294967296 -> Z.of_nat (length bytes) = size -> is_Some (malloc size) ->
  exists a', setopt_auth_key malloc true (sctp_auth_key_acquire a id) id bytes size = Some (0, a')
    /\ sctp_auth_key_release a' id = None.
Proof.
  intros Hm Hs Hk Hd Hsz Hlen [b Hb]. unfold sctp_auth_key_acquire. rewrite Hk.
  set (f := fun k => set_refcount k _).
  destruct (update_key_spec f (shared_keys a) id ltac:(done) Hs) as [Hs1 Hf1].
  set (a1 := set_shared_keys a _). unfold setopt_auth_key.
  rewrite (proj2 (Z.ltb_lt _ _)), u32_id by (unfold in_u32; lia).
  unfold sctp_set_key, sctp_alloc_key. rewrite Hb. apply Hm in Hb.
  rewrite memcpy_inside by lia. cbn [mbind option_bind andb sctp_alloc_sharedkey].
  set (n := SKey _ _ _ _). destruct (clear_cached_spec a1 id) as (E1 & _). rewrite E1.
  change (shared_keys a1) with (update_key (shared_keys a) id f).
  pose proof (insert_sharedkey_spec _ n Hs1) as Hins.
  destruct (sctp_insert_sharedkey (update_key (shared_keys a) id f) (Some n)) as [r keys'].
  destruct Hins as (_ & Hr & _ & Hfind). cbn [n sk_keyid] in Hr, Hfind.
  rewrite Hf1, Z.eqb_refl, Hk in Hr. cbn [fmap option_fmap option_map from_option] in Hr.
  unfold key_busy in Hr. cbn [f sk_deactivated set_refcount] in Hr. rewrite Hd in Hr. cbn in Hr.
  subst r. eexists. split; [done|]. unfold sctp_auth_key_release. cbn [shared_keys set_shared_keys].
  rewrite (Hfind eq_refl), Z.eqb_refl. done.
Qed.

Lemma replaced_key_freed_in_list_witness :
  exists a', setopt_auth_key (fun m => if m =? 2 then demo_malloc 2 else None) true
      (sctp_auth_key_acquire demo_assoc 0) 0 [1; 2] 2 = Some (0, a')
    /\ sctp_auth_key_release a' 0 = None.
Proof.
  apply (replaced_key_freed_in_list _ demo_assoc 0 (SKey None 1 0 0) [1; 2] 2);
    [by apply demo_malloc_spec | repeat constructor | reflexivity | reflexivity | lia | reflexivity
    | by eexists].
Defined.
