(* ===== verification/AuthHmacProps.v ===== *)
(** * Properties of the message authentication

    HMAC against RFC 2104, the zeroing of the digest in a packet, the verdict of
    [sctp_handle_auth], and the agreement of sender and receiver. *)

From Stdlib Require Import Sorted.
From S2P Require Import Prelude Sha1 AuthLists AuthKeys AuthKeyProps AuthHmac.

Open Scope sctp_scope.

(** ** Reference: RFC 2104 with SHA-1 *)

Definition hmac_key (k : list Z) : list Z := if (64 <? length k)%nat then sha1 k else k.

Definition hmac_pad (k : list Z) (x : Z) : list Z :=
  map (fun b => b ⊕ x) (k ++ replicate (64 - length k) 0).

Definition hmac_sha1 (k text : list Z) : list Z :=
  sha1 (hmac_pad (hmac_key k) 0x5c ++ sha1 (hmac_pad (hmac_key k) 0x36 ++ text)).

(** RFC 2202, test case 2: key "Jefe", text "what do ya want for nothing?". *)
Example hmac_sha1_jefe :
  hmac_sha1 [0x4a; 0x65; 0x66; 0x65]
    [0x77; 0x68; 0x61; 0x74; 0x20; 0x64; 0x6f; 0x20; 0x79; 0x61; 0x20; 0x77; 0x61; 0x6e;
     0x74; 0x20; 0x66; 0x6f; 0x72; 0x20; 0x6e; 0x6f; 0x74; 0x68; 0x69; 0x6e; 0x67; 0x3f]
  = [0xef; 0xfc; 0xdf; 0x6a; 0xe5; 0xeb; 0x2f; 0xa2; 0xd2; 0x74;
     0x16; 0xd5; 0xf1; 0x84; 0xdf; 0x9c; 0x25; 0x9a; 0x7c; 0x79].
Proof. vm_compute. reflexivity. Qed.

#[local] Opaque sha1 sctp_sha1_final sctp_sha1_update.

Lemma length_digest_of s : length (digest_of s) = 20%nat.
Proof. by destruct s as [[[[? ?] ?] ?] ?]. Qed.

Lemma length_sha1 m : length (sha1 m) = 20%nat.
Proof.
  Transparent sha1. unfold sha1. destruct (foldl _ _ _) as [[[[? ?] ?] ?] ?]. done.
Qed.

#[local] Opaque sha1.

Lemma length_hmac_sha1 k t : length (hmac_sha1 k t) = 20%nat.
Proof. apply length_sha1. Qed.

Lemma hmac_key_short k : (length (hmac_key k) <= 64)%nat.
Proof.
  unfold hmac_key. destruct (Nat.ltb_spec 64 (length k)); [|done]. rewrite length_sha1. lia.
Qed.

Lemma hmac_key_idem k : hmac_key (hmac_key k) = hmac_key k.
Proof.
  unfold hmac_key at 1. by rewrite (proj2 (Nat.ltb_ge _ _)) by apply hmac_key_short.
Qed.

(** Hashing the key beforehand does not change the HMAC. *)
Lemma hmac_sha1_key k t : hmac_sha1 (hmac_key k) t = hmac_sha1 k t.
Proof. unfold hmac_sha1. by rewrite hmac_key_idem. Qed.

Lemma length_hmac_pad k x : (length k <= 64)%nat -> length (hmac_pad k x) = 64%nat.
Proof. intros H. unfold hmac_pad. rewrite length_map, length_app, length_replicate. lia. Qed.

(** ** The hash context under HMAC *)

Definition ctx_ok (c : sctp_sha1_context) : Prop := length (ctx_block c) = 64%nat.

#[local] Abbreviation SHA1 := SCTP_AUTH_HMAC_ID_SHA1.

(** Initialise, feed the pieces, take the digest. *)
Lemma hash_pieces ctx pieces : ctx_ok ctx ->
  8 * Z.of_nat (length (concat pieces)) < 4294967296 ->
  exists c, sha1_updates (sctp_hmac_init SHA1 ctx) pieces = Some c
    /\ (forall d, sctp_hmac_final SHA1 c d = (sha1 (concat pieces), (sctp_sha1_final c).2))
    /\ ctx_ok (sctp_sha1_final c).2.
Proof.
  intros Hc Hlen. destruct (updates_absorb pieces (sctp_sha1_init (ctx_block ctx)) [] (init_absorbed _ Hc))
    as (c & E & Ha).
  { clear -Hlen. induction pieces as [|p pieces IH]; constructor;
      cbn [concat] in Hlen; rewrite length_app in Hlen; [lia | apply IH; lia]. }
  cbn [app] in Ha. exists c. split; [done|]. split; [|by eapply final_block_length].
  intros d. unfold sctp_hmac_final. rewrite Z.eqb_refl.
  rewrite <- (final_absorbed c (concat pieces) Ha Hlen). apply surjective_pairing.
Qed.

Lemma update_is_piece ctx p rest : sha1_updates ctx (p :: rest)
  = ctx ← sctp_hmac_update SHA1 ctx p (Z.of_nat (length p)); sha1_updates ctx rest.
Proof. reflexivity. Qed.

Lemma hash_long_key_spec ctx k temp : ctx_ok ctx -> 8 * Z.of_nat (length k) < 4294967296 ->
  exists c, hash_long_key SHA1 ctx k temp = Some (hmac_key k, c) /\ ctx_ok c.
Proof.
  intros Hc Hlen. unfold hash_long_key, hmac_key. change (sctp_get_hmac_block_len SHA1) with 64.
  rewrite Z.gtb_ltb. destruct (Z.ltb_spec 64 (Z.of_nat (length k))), (Nat.ltb_spec 64 (length k)); try lia.
  - destruct (hash_pieces ctx [k] Hc) as (c & E & Hd & Hok);
      [cbn [concat]; by rewrite app_nil_r|].
    rewrite update_is_piece in E. cbn [sha1_updates] in E.
    destruct (sctp_hmac_update SHA1 _ k _) as [c'|]; [|done]. cbn in E. injection E as ->.
    cbn [mbind option_bind]. rewrite Hd. cbn [concat]. rewrite app_nil_r. by eexists.
  - by eexists.
Qed.

Lemma key_pad_spec k x : (length k <= 64)%nat -> key_pad SHA1 k x = Some (hmac_pad k x).
Proof.
  intros Hk. unfold key_pad. change (Z.to_nat (sctp_get_hmac_block_len SHA1)) with 64%nat.
  rewrite memcpy_inside by (rewrite ?length_replicate; lia). cbn [mbind option_bind].
  cbn [Z.to_nat]. rewrite take_0, Z.add_0_l, Nat2Z.id, firstn_all, drop_replicate. done.
Qed.

Lemma hmac_outer_spec ctx k temp : ctx_ok ctx -> (length k <= 64)%nat -> length temp = 20%nat ->
  hmac_outer SHA1 ctx (hmac_pad k 0x5c) temp = Some (sha1 (hmac_pad k 0x5c ++ temp)).
Proof.
  intros Hc Hk Ht. unfold hmac_outer.
  destruct (hash_pieces ctx [hmac_pad k 0x5c; temp] Hc) as (c & E & Hd & _).
  { cbn [concat]. rewrite app_nil_r, length_app, length_hmac_pad, Ht by done. lia. }
  rewrite update_is_piece, length_hmac_pad in E by done.
  change (sctp_get_hmac_block_len SHA1) with (Z.of_nat 64).
  change (sctp_get_hmac_digest_len SHA1) with (Z.of_nat 20).
  destruct (sctp_hmac_update SHA1 _ (hmac_pad k 0x5c) _) as [c1|]; [|done].
  cbn [mbind option_bind] in E |- *. rewrite update_is_piece, Ht in E.
  destruct (sctp_hmac_update SHA1 c1 temp _) as [c2|]; [|done].
  cbn [mbind option_bind sha1_updates] in E |- *. injection E as ->.
  rewrite Hd. cbn [fst concat]. by rewrite app_nil_r.
Qed.

(** The inner hash over any pieces of the text, given as updates. *)
Lemma inner_hash ctx k pieces : ctx_ok ctx -> (length k <= 64)%nat ->
  8 * (64 + Z.of_nat (length (concat pieces))) < 4294967296 ->
  exists c1 c2, sctp_hmac_update SHA1 (sctp_hmac_init SHA1 ctx) (hmac_pad k 0x36) 64 = Some c1
    /\ sha1_updates c1 pieces = Some c2
    /\ (forall d, sctp_hmac_final SHA1 c2 d = (sha1 (hmac_pad k 0x36 ++ concat pieces), (sctp_sha1_final c2).2))
    /\ ctx_ok (sctp_sha1_final c2).2.
Proof.
  intros Hc Hk Hlen. destruct (hash_pieces ctx (hmac_pad k 0x36 :: pieces) Hc) as (c & E & Hd & Hok).
  { cbn [concat]. rewrite length_app, length_hmac_pad by done. lia. }
  rewrite update_is_piece, length_hmac_pad in E by done. change (Z.of_nat 64) with 64 in E.
  destruct (sctp_hmac_update SHA1 _ (hmac_pad k 0x36) 64) as [c1|]; [|done].
  cbn [mbind option_bind] in E. by exists c1, c.
Qed.

(** C21. [sctp_hmac] computes HMAC-SHA-1 as RFC 2104 defines it, for every key
    and text that are not empty, a key longer than a block included, whatever
    the local variables held; the digest has 20 bytes and every buffer access is
    in range.  [sctp_verify_hmac] accepts exactly that digest. *)
Theorem hmac_correct ctx temp k text digest :
  ctx_ok ctx -> k <> [] -> text <> [] ->
  8 * Z.of_nat (length k) < 4294967296 -> 8 * (64 + Z.of_nat (length text)) < 4294967296 ->
  length digest = 20%nat ->
  sctp_hmac SHA1 (Some k) (Some text) ctx temp = Some (20, Some (hmac_sha1 k text))
  /\ sctp_verify_hmac SHA1 (Some k) (Some text) digest 20 ctx temp
     = Some (if bool_decide (digest = hmac_sha1 k text) then 0 else -1).
Proof.
  intros Hc Hk Ht Hkl Htl Hd.
  assert (sctp_hmac SHA1 (Some k) (Some text) ctx temp = Some (20, Some (hmac_sha1 k text))) as E.
  { unfold sctp_hmac. change (sctp_get_hmac_digest_len SHA1) with 20. cbn [Z.eqb].
    assert (length k <> 0%nat /\ length text <> 0%nat) as [Hk0 Ht0]
      by (split; intros ?%nil_length_inv; done).
    rewrite !(proj2 (Z.eqb_neq (Z.of_nat _) 0)) by lia. cbn [orb].
    destruct (hash_long_key_spec ctx k temp Hc Hkl) as (c0 & -> & Hc0). cbn [mbind option_bind].
    pose proof (hmac_key_short k) as Hs. rewrite !key_pad_spec by done. cbn [mbind option_bind].
    destruct (inner_hash c0 (hmac_key k) [text] Hc0 Hs) as (c1 & c2 & E1 & E2 & Hf & Hok).
    { cbn [concat]. by rewrite app_nil_r. }
    change (sctp_get_hmac_block_len SHA1) with 64. rewrite E1. cbn [mbind option_bind].
    rewrite update_is_piece in E2.
    destruct (sctp_hmac_update SHA1 c1 text _) as [c3|]; [|done].
    cbn [mbind option_bind sha1_updates] in E2 |- *. injection E2 as ->. rewrite Hf.
    rewrite hmac_outer_spec by (done || apply length_sha1). cbn [mbind option_bind concat].
    by rewrite app_nil_r. }
  split; [done|]. unfold sctp_verify_hmac.
  assert (length k <> 0%nat /\ length text <> 0%nat) as [Hk0 Ht0]
    by (split; intros ?%nil_length_inv; done).
  rewrite !(proj2 (Z.eqb_neq (Z.of_nat _) 0)) by lia. cbn [orb].
  change (sctp_get_hmac_digest_len SHA1) with 20. cbn [Z.eqb negb orb]. rewrite E.
  cbn [mbind option_bind Z.eqb negb]. change (Z.to_nat 20) with 20%nat.
  rewrite !firstn_all2 by (rewrite ?length_hmac_sha1; lia). done.
Qed.

Definition demo_ctx : sctp_sha1_context := sctp_sha1_init (replicate 64 0x5a).

Lemma hmac_correct_witness :
  sctp_hmac SHA1 (Some (replicate 70 3)) (Some [1; 2; 3]) demo_ctx []
    = Some (20, Some (hmac_sha1 (replicate 70 3) [1; 2; 3]))
  /\ sctp_verify_hmac SHA1 (Some (replicate 70 3)) (Some [1; 2; 3]) (replicate 20 0) 20 demo_ctx []
     = Some (if bool_decide (replicate 20 0 = hmac_sha1 (replicate 70 3) [1; 2; 3]) then 0 else -1).
Proof.
  apply (hmac_correct demo_ctx [] (replicate 70 3) [1; 2; 3] (replicate 20 0));
    [reflexivity | discriminate | discriminate | reflexivity | reflexivity | reflexivity].
Defined.

(** ** HMAC of a chain *)

Definition chain_len (m : list (list Z)) : Z := Z.of_nat (length (concat m)).

Lemma chain_len_cons b m : chain_len (b :: m) = Z.of_nat (length b) + chain_len m.
Proof. unfold chain_len. cbn [concat]. rewrite length_app. lia. Qed.

Lemma chain_len_nonneg m : 0 <= chain_len m.
Proof. unfold chain_len. lia. Qed.

Lemma hmac_chain_rest m : forall c, chain_len m < 4294967296 ->
  hmac_chain SHA1 c m 0 0 = sha1_updates c m.
Proof.
  induction m as [|b m IH]; intros c Hlen; [done|]. rewrite chain_len_cons in Hlen.
  pose proof (chain_len_nonneg m). cbn [hmac_chain]. cbn [Z.eqb negb]. rewrite andb_false_r.
  change (Z.to_nat 0) with 0%nat. rewrite drop_0, Z.sub_0_r, u32_id by width_lia.
  rewrite update_is_piece. destruct (sctp_hmac_update SHA1 c b _) as [c'|]; [|done].
  cbn [mbind option_bind]. apply IH. lia.
Qed.

Lemma hmac_chain_off c b m o : chain_len (b :: m) < 4294967296 -> 0 <= o <= Z.of_nat (length b) ->
  hmac_chain SHA1 c (b :: m) o 0 = sha1_updates c (drop (Z.to_nat o) b :: m).
Proof.
  intros Hlen Ho. rewrite chain_len_cons in Hlen. pose proof (chain_len_nonneg m).
  cbn [hmac_chain Z.eqb negb]. rewrite andb_false_r, u32_id by width_lia. rewrite update_is_piece.
  rewrite length_drop, Nat2Z.inj_sub, Z2Nat.id by lia.
  destruct (sctp_hmac_update SHA1 c _ _) as [c'|]; [|done]. cbn [mbind option_bind].
  apply hmac_chain_rest. lia.
Qed.

Lemma m_seek_spec m : forall off, in_u32 off -> chain_len m < 4294967296 ->
  let '(m', o) := m_seek m off in
  drop (Z.to_nat o) (concat m') = drop (Z.to_nat off) (concat m)
  /\ chain_len m' <= chain_len m
  /\ match m' with [] => True | b :: _ => 0 <= o < Z.of_nat (length b) end.
Proof.
  induction m as [|b m IH]; intros off Ho Hlen; cbn [m_seek].
  { cbn [concat]. by rewrite !drop_nil. }
  rewrite chain_len_cons in Hlen. pose proof (chain_len_nonneg m).
  destruct (Z.leb_spec (Z.of_nat (length b)) off) as [Hle|Hgt].
  - rewrite u32_id by width_lia. specialize (IH (off - Z.of_nat (length b))).
    destruct (m_seek m _) as [m' o]. destruct IH as (E & Hl & Hm); [width_lia | lia |].
    split_and!; [| rewrite chain_len_cons; lia | done]. rewrite E. cbn [concat].
    rewrite drop_app_ge by lia. f_equal. lia.
  - split; [done|]. split; [done|]. unfold in_u32 in Ho. lia.
Qed.

Lemma hmac_m_spec ctx temp k m off :
  ctx_ok ctx -> k <> [] -> m <> [] -> in_u32 off ->
  8 * Z.of_nat (length k) < 4294967296 -> 8 * (64 + chain_len m) < 4294967296 ->
  sctp_hmac_m SHA1 (Some k) m off 0 ctx temp
    = Some (20, Some (hmac_sha1 k (drop (Z.to_nat off) (concat m)))).
Proof.
  intros Hc Hk Hm Ho Hkl Hml. pose proof (chain_len_nonneg m).
  unfold sctp_hmac_m. change (sctp_get_hmac_digest_len SHA1) with 20. cbn [Z.eqb].
  assert (length k <> 0%nat) as Hk0 by (intros ?%nil_length_inv; done).
  destruct m as [|b0 m0]; [done|]. set (m := b0 :: m0) in *.
  rewrite (proj2 (Z.eqb_neq (Z.of_nat _) 0)) by lia.
  destruct (hash_long_key_spec ctx k temp Hc Hkl) as (c0 & -> & Hc0). cbn [mbind option_bind].
  pose proof (hmac_key_short k) as Hs. rewrite !key_pad_spec by done. cbn [mbind option_bind].
  pose proof (m_seek_spec m off Ho ltac:(lia)) as Hseek. destruct (m_seek m off) as [m' o].
  destruct Hseek as (Ebytes & Hl' & Hm').
  set (pieces := match m' with [] => [] | b :: r => drop (Z.to_nat o) b :: r end).
  assert (concat pieces = drop (Z.to_nat off) (concat m)) as Ep.
  { rewrite <- Ebytes. unfold pieces. destruct m' as [|b r]; cbn [concat]; [by rewrite drop_nil|].
    by rewrite drop_app_le by lia. }
  destruct (inner_hash c0 (hmac_key k) pieces Hc0 Hs) as (c1 & c2 & E1 & E2 & Hf & Hok).
  { rewrite Ep, length_drop. unfold chain_len in Hml. lia. }
  change (sctp_get_hmac_block_len SHA1) with 64. rewrite E1. cbn [mbind option_bind].
  assert (hmac_chain SHA1 c1 m' o 0 = Some c2) as ->.
  { rewrite <- E2. unfold pieces. destruct m' as [|b r]; [done|]. apply hmac_chain_off; lia. }
  cbn [mbind option_bind]. rewrite Hf, hmac_outer_spec by (done || apply length_sha1).
  cbn [mbind option_bind]. by rewrite Ep.
Qed.

Lemma hash_short_key ctx k temp : (length k <= 64)%nat -> hash_long_key SHA1 ctx k temp = Some (k, ctx).
Proof.
  intros Hk. unfold hash_long_key. change (sctp_get_hmac_block_len SHA1) with 64.
  rewrite Z.gtb_ltb, (proj2 (Z.ltb_ge _ _)) by lia. done.
Qed.

Lemma hmac_key_nonempty k : k <> [] -> hmac_key k <> [].
Proof.
  intros Hk. unfold hmac_key. destruct (64 <? length k)%nat; [|done].
  intros E. pose proof (length_sha1 k) as Hl. by rewrite E in Hl.
Qed.

Lemma compute_hmac_m_spec ctx temp k m off :
  ctx_ok ctx -> k <> [] -> m <> [] -> in_u32 off ->
  8 * Z.of_nat (length k) < 4294967296 -> 8 * (64 + chain_len m) < 4294967296 ->
  sctp_compute_hmac_m SHA1 (Some k) m off ctx temp
    = Some (20, Some (hmac_sha1 k (drop (Z.to_nat off) (concat m))), Some (hmac_key k)).
Proof.
  intros Hc Hk Hm Ho Hkl Hml. unfold sctp_compute_hmac_m.
  change (sctp_get_hmac_digest_len SHA1) with 20. cbn [Z.eqb]. destruct m as [|b m]; [done|].
  destruct (hash_long_key_spec ctx k temp Hc Hkl) as (c0 & -> & Hc0). cbn [mbind option_bind].
  rewrite hmac_m_spec; [|done | by apply hmac_key_nonempty | done | done
    | pose proof (hmac_key_short k); lia | done].
  cbn [mbind option_bind]. by rewrite hmac_sha1_key.
Qed.

(** The HMAC of a packet is HMAC-SHA-1 of the bytes of its mbuf chain from
    the offset on, however the bytes are spread over the buffers; the cached key
    that the computation may have shortened gives the same digest again. *)
Theorem compute_hmac_m_correct ctx temp k m m' off :
  ctx_ok ctx -> k <> [] -> m <> [] -> m' <> [] -> concat m' = concat m -> in_u32 off ->
  8 * Z.of_nat (length k) < 4294967296 -> 8 * (64 + chain_len m) < 4294967296 ->
  exists k', sctp_compute_hmac_m SHA1 (Some k) m off ctx temp
      = Some (20, Some (hmac_sha1 k (drop (Z.to_nat off) (concat m))), Some k')
    /\ sctp_compute_hmac_m SHA1 (Some k') m' off ctx temp
       = Some (20, Some (hmac_sha1 k (drop (Z.to_nat off) (concat m))), Some k').
Proof.
  intros Hc Hk Hm Hm' E Ho Hkl Hml. exists (hmac_key k). split; [by apply compute_hmac_m_spec|].
  rewrite compute_hmac_m_spec, hmac_sha1_key, hmac_key_idem, E; [done | done
    | by apply hmac_key_nonempty | done | done | pose proof (hmac_key_short k); lia |].
  unfold chain_len in *. by rewrite E.
Qed.

Lemma compute_hmac_m_correct_witness :
  exists k', sctp_compute_hmac_m SHA1 (Some (replicate 70 3)) [[1; 2; 3]; [4]] 2 demo_ctx []
      = Some (20, Some (hmac_sha1 (replicate 70 3) [3; 4]), Some k')
    /\ sctp_compute_hmac_m SHA1 (Some k') [[1]; [2; 3; 4]] 2 demo_ctx []
       = Some (20, Some (hmac_sha1 (replicate 70 3) [3; 4]), Some k').
Proof.
  apply (compute_hmac_m_correct demo_ctx [] (replicate 70 3) [[1; 2; 3]; [4]] [[1]; [2; 3; 4]] 2);
    [reflexivity | discriminate | discriminate | discriminate | reflexivity
    | vm_compute; split; congruence | reflexivity | reflexivity].
Defined.

(** ** Writing into a chain *)

(** The [n] bytes from [off] on lie in one buffer. *)
Fixpoint fits (m : list (list Z)) (off n : Z) : bool :=
  match m with
  | [] => false
  | b :: m => if Z.of_nat (length b) <=? off then fits m (off - Z.of_nat (length b)) n
              else off + n <=? Z.of_nat (length b)
  end.

Lemma fits_lengths m : forall m' off n, map length m' = map length m -> fits m' off n = fits m off n.
Proof.
  induction m as [|b m IH]; intros [|b' m'] off n E; try done. cbn [map] in E. injection E as Eb Em.
  cbn [fits]. by rewrite Eb, (IH m' _ _ Em).
Qed.

Lemma fits_inside m : forall off n i n', fits m off n = true -> 0 <= i -> 0 < n' -> i + n' <= n ->
  fits m (off + i) n' = true.
Proof.
  induction m as [|b m IH]; intros off n i n' Hf Hi Hn' Hle; [done|]. cbn [fits] in *.
  destruct (Z.leb_spec (Z.of_nat (length b)) off).
  - rewrite (proj2 (Z.leb_le _ _)) by lia.
    replace (off + i - Z.of_nat (length b)) with (off - Z.of_nat (length b) + i) by lia. eauto.
  - apply Z.leb_le in Hf. rewrite (proj2 (Z.leb_gt _ _)), (proj2 (Z.leb_le _ _)) by lia. done.
Qed.

(** A write that fits changes exactly its bytes and no buffer's length. *)
Lemma chain_write_spec bytes old Y m : forall X,
  concat m = X ++ old ++ Y -> length old = length bytes -> bytes <> [] ->
  fits m (Z.of_nat (length X)) (Z.of_nat (length bytes)) = true ->
  exists m', chain_write m (Z.of_nat (length X)) bytes = Some m'
    /\ concat m' = X ++ bytes ++ Y /\ map length m' = map length m.
Proof.
  induction m as [|b m IH]; intros X E Hl Hb Hf; [done|]. cbn [fits chain_write concat] in *.
  destruct (Z.leb_spec (Z.of_nat (length b)) (Z.of_nat (length X))) as [Hle|Hgt].
  - assert (X = b ++ drop (length b) X) as HX.
    { rewrite <- (take_drop (length b) X) at 1. f_equal.
      rewrite <- (take_app_le X (old ++ Y)), <- E, take_app_length by lia. done. }
    rewrite HX in E. rewrite <- app_assoc in E. apply app_inv_head in E.
    replace (Z.of_nat (length X) - Z.of_nat (length b)) with (Z.of_nat (length (drop (length b) X)))
      in * by (rewrite length_drop; lia).
    destruct (IH _ E Hl Hb Hf) as (m' & -> & Hc & Hm). cbn [mbind option_bind]. eexists.
    split; [done|]. cbn [concat map]. rewrite Hc, Hm. split; [|done].
    rewrite HX at 2. by rewrite <- app_assoc.
  - apply Z.leb_le in Hf. rewrite memcpy_inside by lia. cbn [mbind option_bind]. eexists.
    split; [done|]. rewrite !Nat2Z.id, firstn_all.
    replace (Z.to_nat (Z.of_nat (length X) + Z.of_nat (length bytes)))
      with (length X + length old)%nat by lia.
    assert (take (length X) b = X) as HX.
    { rewrite <- (take_app_le b (concat m)), E by lia. apply take_app_length. }
    assert (drop (length X + length old) b ++ concat m = Y) as HY.
    { rewrite <- drop_app_le, E, app_assoc by lia. apply drop_app_length'. rewrite length_app. done. }
    cbn [concat map]. rewrite HX. split.
    + rewrite <- !app_assoc. by rewrite HY.
    + f_equal. rewrite !length_app, length_drop. lia.
Qed.

Lemma zero_m_write m : forall off size, 0 < size -> in_u32 off -> chain_len m < 4294967296 ->
  fits m off size = true ->
  sctp_zero_m m off size = chain_write m off (replicate (Z.to_nat size) 0).
Proof.
  unfold sctp_zero_m. induction m as [|b m IH]; intros off size Hs Ho Hlen Hf; [done|].
  rewrite chain_len_cons in Hlen. pose proof (chain_len_nonneg m).
  cbn [zero_seek chain_write fits] in *. destruct (Z.leb_spec (Z.of_nat (length b)) off).
  - rewrite u32_id by width_lia. rewrite IH by (done || width_lia). done.
  - apply Z.leb_le in Hf. cbn [zero_chain]. rewrite (proj2 (Z.ltb_lt 0 size)) by done.
    unfold in_u32 in Ho. rewrite (proj2 (Z.ltb_ge _ _)) by lia. unfold buf_zero.
    by rewrite length_replicate, Z2Nat.id by lia.
Qed.

(** Zeroing a range of a packet sets exactly the bytes of the range to zero
    when the range lies in one buffer.  When it starts inside a buffer, not at
    its first byte, and runs into the next one, the length left in the first
    buffer is not taken into account and the write leaves that buffer. *)
Theorem zero_m_range m X old Y size :
  concat m = X ++ old ++ Y -> Z.of_nat (length old) = size -> 0 < size ->
  chain_len m < 4294967296 ->
  (fits m (Z.of_nat (length X)) size = true ->
     exists m', sctp_zero_m m (Z.of_nat (length X)) size = Some m'
       /\ concat m' = X ++ replicate (length old) 0 ++ Y /\ map length m' = map length m)
  /\ (forall pre b post, m = pre ++ b :: post -> chain_len pre < Z.of_nat (length X) ->
       Z.of_nat (length X) < chain_len pre + Z.of_nat (length b) < Z.of_nat (length X) + size ->
       sctp_zero_m m (Z.of_nat (length X)) size = None).
Proof.
  intros E Hold Hs Hlen. assert (Z.of_nat (length X) <= chain_len m) as HX.
  { unfold chain_len. rewrite E, length_app. lia. }
  split.
  - intros Hf. rewrite zero_m_write by (done || unfold in_u32; lia).
    replace (Z.to_nat size) with (length old) by lia.
    apply (chain_write_spec _ old Y); rewrite ?length_replicate; try done.
    + destruct (length old) eqn:E0; [lia|done].
    + by rewrite Hold.
  - clear E HX. intros pre b post -> Hpre Hin. revert Hpre Hin Hlen.
    generalize (Z.of_nat (length X)) as o. clear X Y. unfold sctp_zero_m.
    induction pre as [|c pre IH]; intros o Hpre Hin Hlen.
    + cbn [zero_seek app chain_len concat length] in *. change (chain_len []) with 0 in *.
      rewrite (proj2 (Z.leb_gt _ _)) by lia. cbn [zero_chain].
      rewrite (proj2 (Z.ltb_lt 0 size)) by done. unfold buf_zero, block_memcpy.
      destruct (Z.ltb_spec (Z.of_nat (length b)) size); zbool; try lia; done.
    + rewrite chain_len_cons in Hpre, Hin. cbn [app] in Hlen |- *. rewrite chain_len_cons in Hlen.
      pose proof (chain_len_nonneg pre). pose proof (chain_len_nonneg (pre ++ b :: post)).
      assert (chain_len (pre ++ b :: post) = chain_len pre + Z.of_nat (length b) + chain_len post) as Ec.
      { unfold chain_len. rewrite concat_app. cbn [concat]. rewrite !length_app. lia. }
      pose proof (chain_len_nonneg post).
      cbn [zero_seek]. rewrite (proj2 (Z.leb_le _ _)), u32_id by width_lia.
      rewrite IH; [done | lia..].
Qed.

Lemma zero_m_range_witness :
  (exists m', sctp_zero_m [[1; 2]; [3; 4; 5]] 3 2 = Some m'
     /\ concat m' = [1; 2; 3] ++ replicate 2 0 ++ [] /\ map length m' = [2; 3]%nat)
  /\ sctp_zero_m [[1; 2]; [3; 4; 5]] 1 2 = None.
Proof.
  split.
  - destruct (zero_m_range [[1; 2]; [3; 4; 5]] [1; 2; 3] [4; 5] [] 2) as [H _];
      [reflexivity | reflexivity | lia | reflexivity |]. exact (H eq_refl).
  - destruct (zero_m_range [[1; 2]; [3; 4; 5]] [1] [2; 3] [4; 5] 2) as [_ H];
      [reflexivity | reflexivity | lia | reflexivity |].
    apply (H [] [1; 2] [[3; 4; 5]]); [reflexivity | reflexivity | split; reflexivity].
Defined.

(** ** Cached keys *)

(** The authentication state of one end: its own and the peer's random vector,
    and the text of the shared key in use. *)
Record auth_end (a : auth_assoc) (keyid : Z) (r p text : list Z) : Prop := AuthEnd {
  ae_cache : cache_inv (authinfo a) (shared_keys a);
  ae_random : ai_random (authinfo a) = Some r;
  ae_peer : ai_peer_random (authinfo a) = Some p;
  ae_key : exists sk, sctp_find_sharedkey (shared_keys a) keyid = Some sk /\ key_bytes (sk_key sk) = text;
  ae_keyid : in_u16 keyid;
  ae_ok : Forall in_u8 r /\ Forall in_u8 p;
  ae_size : r <> [] /\ 8 * Z.of_nat (length r + length p + length text) < 4294967296
}.

Definition can_alloc (malloc : Z -> option (list Z)) (n : nat) : Prop :=
  malloc_spec malloc /\ is_Some (malloc (Z.of_nat n)).

Lemma length_assoc_key r p text :
  length (assoc_key_of r p text) = (length r + length p + length text)%nat.
Proof.
  unfold assoc_key_of. rewrite length_app. destruct (key_order r p <=? 0); rewrite length_app; lia.
Qed.

(** The computation of a missing association key. *)
Lemma derive_key malloc a keyid r p text :
  auth_end a keyid r p text -> can_alloc malloc (length r + length p + length text) ->
  forall sk, sctp_find_sharedkey (shared_keys a) keyid = Some sk ->
  sctp_compute_hashkey malloc (ai_random (authinfo a)) (ai_peer_random (authinfo a)) (sk_key sk)
    = Some (Some (assoc_key_of r p text)).
Proof.
  intros [_ -> -> (sk' & E & Ht) _ [Hr Hp] [Hne Hs]] [Hm [b Hb]] sk Hsk. rewrite E in Hsk. injection Hsk as <-.
  assert (length r <> 0%nat) by (intros ?%nil_length_inv; done).
  rewrite <- Ht. apply (hashkey_value malloc r p (sk_key sk') b Hm).
  - split; [done | lia].
  - split; [done | lia].
  - rewrite keylen_bytes, Ht. lia.
  - rewrite keylen_bytes, Ht, <- Hb. f_equal. lia.
Qed.

(** A cached key stands for the association key. *)
Lemma cached_hmac a keyid r p text k :
  auth_end a keyid r p text -> cached_for (authinfo a) (shared_keys a) keyid k ->
  (forall t, hmac_sha1 k t = hmac_sha1 (assoc_key_of r p text) t)
  /\ k <> [] /\ 8 * Z.of_nat (length k) < 4294967296.
Proof.
  intros [_ Er Ep (sk & E & Ht) _ _ [Hne Hs]] Hk. unfold cached_for in Hk.
  rewrite Er, Ep, E in Hk. cbn [mbind option_bind] in Hk. rewrite Ht in Hk.
  cbn [key_bytes from_option id] in Hk. pose proof (length_assoc_key r p text) as Hl.
  assert (length r <> 0%nat) by (intros ?%nil_length_inv; done).
  destruct Hk as [-> | [Hlong ->]].
  - split_and!; [done | intros E0; rewrite E0 in Hl; cbn in Hl; lia | lia].
  - split_and!.
    + intros t. rewrite <- (hmac_sha1_key (assoc_key_of r p text)). f_equal. unfold hmac_key.
      by rewrite (proj2 (Nat.ltb_lt _ _)) by done.
    + intros E0. pose proof (length_sha1 (assoc_key_of r p text)) as Hl'. by rewrite E0 in Hl'.
    + rewrite length_sha1. lia.
Qed.

Lemma cached_hmac_key i keys id k : cached_for i keys id k -> cached_for i keys id (hmac_key k).
Proof.
  unfold cached_for. intros [-> | [Hl ->]].
  - set (full := assoc_key_of _ _ _). unfold hmac_key.
    destruct (Nat.ltb_spec 64 (length full)); [right; split; done | left; done].
  - right. split; [done|]. unfold hmac_key. by rewrite (proj2 (Nat.ltb_ge _ _)) by (rewrite length_sha1; lia).
Qed.

(** Storing a key that stands for the association key of its id. *)
Lemma store_send a keyid r p text k :
  auth_end a keyid r p text -> cached_for (authinfo a) (shared_keys a) keyid k ->
  auth_end (set_authinfo a (set_assoc_key (authinfo a) (Some k) keyid)) keyid r p text.
Proof.
  intros [[H1 H2] ? ? ? ? ? ?] Hk. constructor; try done.
  constructor; [intros k' [= <-]; exact Hk | exact H2].
Qed.

Lemma store_recv a keyid r p text k :
  auth_end a keyid r p text -> cached_for (authinfo a) (shared_keys a) keyid k ->
  auth_end (set_authinfo a (set_recv_key (authinfo a) (Some k) keyid)) keyid r p text.
Proof.
  intros [[H1 H2] ? ? ? ? ? ?] Hk. constructor; try done.
  constructor; [exact H1 | intros k' [= <-]; exact Hk].
Qed.

Lemma full_cached a keyid r p text : auth_end a keyid r p text ->
  cached_for (authinfo a) (shared_keys a) keyid (assoc_key_of r p text).
Proof.
  intros [_ Er Ep (sk & E & Ht) _ _ _]. left. rewrite Er, Ep, E. cbn [mbind option_bind].
  rewrite Ht. done.
Qed.

Lemma cache_send_spec malloc a keyid r p text :
  auth_end a keyid r p text -> can_alloc malloc (length r + length p + length text) ->
  exists a' k, cache_send_key malloc a keyid = Some a' /\ auth_end a' keyid r p text
    /\ ai_assoc_key (authinfo a') = Some k /\ ai_assoc_keyid (authinfo a') = keyid
    /\ cached_for (authinfo a') (shared_keys a') keyid k
    /\ peer_hmac_id a' = peer_hmac_id a.
Proof.
  intros Ha Hm. unfold cache_send_key. destruct (Z.eqb_spec keyid (ai_assoc_keyid (authinfo a))) as [E|E];
    [destruct (ai_assoc_key (authinfo a)) as [k|] eqn:Ek|]; cbn [negb orb].
  { exists a, k. split_and!; try done. rewrite E. by apply (ae_cache _ _ _ _ _ Ha). }
  all: destruct (ae_key _ _ _ _ _ Ha) as (sk & Esk & _); rewrite Esk; cbn [mbind option_bind];
    rewrite (derive_key malloc a keyid r p text Ha Hm sk Esk); cbn [mbind option_bind];
    exists (set_authinfo a (set_assoc_key (authinfo a) (Some (assoc_key_of r p text)) keyid)),
      (assoc_key_of r p text); pose proof (full_cached _ _ _ _ _ Ha);
    split_and!; try done; by apply store_send.
Qed.

Lemma cache_recv_spec malloc a keyid r p text :
  auth_end a keyid r p text -> can_alloc malloc (length r + length p + length text) ->
  exists a' k, cache_recv_key malloc a keyid = Some (Some a') /\ auth_end a' keyid r p text
    /\ ai_recv_key (authinfo a') = Some k /\ ai_recv_keyid (authinfo a') = keyid
    /\ cached_for (authinfo a') (shared_keys a') keyid k.
Proof.
  intros Ha Hm. unfold cache_recv_key. destruct (ae_key _ _ _ _ _ Ha) as (sk & Esk & _).
  pose proof (full_cached _ _ _ _ _ Ha) as Hfull.
  destruct (ai_recv_key (authinfo a)) as [k|] eqn:Ek;
    destruct (Z.eqb_spec (ai_recv_keyid (authinfo a)) keyid) as [E|E]; cbn [negb orb].
  { exists a, k. split_and!; try done. rewrite <- E. by apply (ae_cache _ _ _ _ _ Ha). }
  all: rewrite Esk, (derive_key malloc a keyid r p text Ha Hm sk Esk); cbn [mbind option_bind];
    eexists _, (assoc_key_of r p text); (split; [reflexivity|]);
    destruct (store_recv _ _ _ _ _ _ Ha Hfull) as [[? ?] ? ? ? ? ? ?]; split_and!; done.
Qed.

(** ** The AUTH chunk of a packet *)

(** The header of an AUTH chunk: type and flags, length, key id, HMAC id. *)
Definition auth_header (ty fl : Z) (len keyid hmac : Z) : list Z :=
  [ty; fl] ++ htons_bytes len ++ htons_bytes keyid ++ htons_bytes hmac.

Lemma ntohs_htons v : in_u16 v -> Z.shiftl (nth 0 (htons_bytes v) 0) 8 .| nth 1 (htons_bytes v) 0 = v.
Proof.
  intros Hv. cbn [htons_bytes nth]. rewrite !land_255, Z.shiftr_div_pow2 by lia.
  change (2 ^ 8) with 256. rewrite Z.shiftl_mul_pow2 by lia. change (2 ^ 8) with 256.
  rewrite (Z.mod_small (v / 256)) by width_lia.
  assert (Z.land (v / 256 * 256) (v mod 256) = 0) as Hd.
  { apply Z.bits_inj'. intros i Hi. rewrite Z.land_spec, Z.bits_0.
    change 256 with (2 ^ 8). destruct (Z.lt_ge_cases i 8).
    - by rewrite Z.mul_pow2_bits_low.
    - by rewrite Z.mod_pow2_bits_high, andb_false_r. }
  rewrite <- Z.lxor_lor, <- Z.add_nocarry_lxor by done. width_lia.
Qed.

Lemma header_fields ty fl len keyid hmac rest :
  in_u16 len -> in_u16 keyid -> in_u16 hmac ->
  let auth := auth_header ty fl len keyid hmac ++ rest in
  ntohs_at auth 1 = len /\ ntohs_at auth 2 = keyid /\ ntohs_at auth 3 = hmac.
Proof.
  intros H1 H2 H3 auth. split_and!; [rewrite <- (ntohs_htons len H1) | rewrite <- (ntohs_htons keyid H2)
    | rewrite <- (ntohs_htons hmac H3)]; reflexivity.
Qed.

Section Verdict.

Context (malloc : Z -> option (list Z)) (ctx0 : sctp_sha1_context) (stack : list Z).
Hypothesis Hctx : ctx_ok ctx0.

Lemma handle_auth_spec err_ok a keyid r p text m X ty fl len dig Y :
  let hdr := auth_header ty fl len keyid SHA1 in
  auth_end a keyid r p text -> can_alloc malloc (length r + length p + length text) ->
  sctp_auth_is_supported_hmac (local_hmacs a) SHA1 = true ->
  in_u16 len -> 28 <= len -> length dig = 20%nat ->
  concat m = X ++ hdr ++ dig ++ Y -> fits m (Z.of_nat (length X) + 8) 20 = true ->
  8 * (64 + chain_len m) < 4294967296 ->
  exists a' m', sctp_handle_auth malloc ctx0 stack err_ok a (hdr ++ dig) m (Z.of_nat (length X))
    = Some (if bool_decide (dig = hmac_sha1 (assoc_key_of r p text) (hdr ++ replicate 20 0 ++ Y))
            then 0 else -1, a', m')
    /\ auth_end a' keyid r p text /\ concat m' = X ++ hdr ++ replicate 20 0 ++ Y.
Proof.
  intros hdr Ha Hm Hsup Hlen Hge Hdig Hc Hf Hsize. unfold sctp_handle_auth, sizeof_auth_chunk.
  destruct (header_fields ty fl len keyid SHA1 dig Hlen (ae_keyid _ _ _ _ _ Ha)) as (F1 & F2 & F3);
    [vm_compute; split; congruence|]. fold hdr in F1, F2, F3. rewrite F1, F2, F3.
  rewrite (proj2 (Z.ltb_ge len 8)) by lia. rewrite Hsup. cbn [negb].
  destruct (cache_recv_spec malloc a keyid r p text Ha Hm) as (a1 & k & -> & Ha1 & Ek & Eid & Hk).
  cbn [mbind option_bind]. change (sctp_get_hmac_digest_len SHA1) with 20.
  rewrite (proj2 (Z.ltb_ge len (8 + 20))) by lia.
  assert (length hdr = 8%nat) as Hh by reflexivity.
  rewrite length_app, Hh, Hdig. change (Z.of_nat (8 + 20) <? 8 + 20) with false.
  change (Z.to_nat 20) with 20%nat.
  rewrite drop_app_length' by done. rewrite firstn_all2 by lia. cbn [mbind option_bind].
  assert (chain_len m = Z.of_nat (length X + 8 + 20 + length Y)) as Hcl.
  { unfold chain_len. rewrite Hc, !length_app, Hh, Hdig. lia. }
  rewrite u32_id by (unfold in_u32; lia). change (SCTP_SIZE32 20) with 20.
  rewrite zero_m_write by (done || unfold in_u32; lia). change (Z.to_nat 20) with 20%nat.
  destruct (chain_write_spec (replicate 20 0) dig Y m (X ++ hdr)) as (m1 & E1 & Hc1 & Hl1).
  { by rewrite Hc, <- app_assoc. } { done. } { done. }
  { rewrite length_app, Hh. replace (Z.of_nat (length X + 8)) with (Z.of_nat (length X) + 8) by lia. done. }
  rewrite length_app, Hh in E1. replace (Z.of_nat (length X + 8)) with (Z.of_nat (length X) + 8) in E1 by lia.
  rewrite E1. cbn [mbind option_bind]. rewrite <- app_assoc in Hc1.
  destruct (cached_hmac a1 keyid r p text k Ha1 Hk) as (Hmac & Hne & Hkl).
  assert (chain_len m1 = chain_len m) as Hcl1.
  { rewrite Hcl. unfold chain_len. rewrite Hc1, !length_app, Hh, length_replicate. lia. }
  rewrite Ek, compute_hmac_m_spec; [|done | done | | unfold in_u32; lia | done | lia].
  2: { intros ->. change (chain_len []) with 0 in Hcl1. lia. }
  cbn [mbind option_bind]. rewrite Hc1, Nat2Z.id, drop_app_length, Hmac.
  change (from_option id stack (Some ?x)) with x. cbn [from_option id].
  rewrite (firstn_all2 (hmac_sha1 _ _)) by (rewrite length_hmac_sha1; lia).
  exists (set_authinfo a1 (set_recv_key (authinfo a1) (Some (hmac_key k)) (ai_recv_keyid (authinfo a1)))), m1.
  split_and!; [by case_bool_decide | | done]. rewrite Eid. apply store_recv; [done|].
  by apply cached_hmac_key.
Qed.

Lemma fill_spec a keyid r p text m X ty fl kid0 old Y :
  auth_end a keyid r p text -> can_alloc malloc (length r + length p + length text) ->
  peer_hmac_id a = SHA1 -> in_u16 kid0 -> length old = 20%nat ->
  concat m = X ++ auth_header ty fl 28 kid0 SHA1 ++ old ++ Y ->
  fits m (Z.of_nat (length X)) 28 = true -> 8 * (64 + chain_len m) < 4294967296 ->
  let hdr := auth_header ty fl 28 keyid SHA1 in
  exists m' a', sctp_fill_hmac_digest_m malloc ctx0 stack m (Z.of_nat (length X)) a keyid = Some (m', a')
    /\ concat m' = X ++ hdr ++ hmac_sha1 (assoc_key_of r p text) (hdr ++ replicate 20 0 ++ Y) ++ Y
    /\ auth_end a' keyid r p text /\ map length m' = map length m.
Proof.
  intros Ha Hm Hp Hkid Hold Hc Hf Hsize hdr. unfold sctp_fill_hmac_digest_m. rewrite Hp.
  change (Z.to_nat (SCTP_SIZE32 (sctp_get_hmac_digest_len SHA1))) with 20%nat.
  set (hdr0 := auth_header ty fl 28 kid0 SHA1) in *.
  assert (length hdr0 = 8%nat /\ length hdr = 8%nat) as [Hh0 Hh] by done.
  (* the digest is zeroed *)
  destruct (chain_write_spec (replicate 20 0) old Y m (X ++ hdr0)) as (m1 & E1 & Hc1 & Hl1);
    [by rewrite Hc, <- app_assoc | done | done |
     rewrite length_app, Hh0, Nat2Z.inj_add; apply (fits_inside _ _ 28); lia || done |].
  rewrite length_app, Hh0, Nat2Z.inj_add in E1. change (Z.of_nat 8) with 8 in E1.
  rewrite E1. cbn [mbind option_bind].
  destruct (cache_send_spec malloc a keyid r p text Ha Hm) as (a1 & k & -> & Ha1 & Ek & Eid & Hk & Hp1).
  cbn [mbind option_bind].
  (* the key id *)
  destruct (chain_write_spec (htons_bytes keyid) (htons_bytes kid0)
    (htons_bytes SHA1 ++ replicate 20 0 ++ Y) m1 (X ++ [ty; fl] ++ htons_bytes 28))
    as (m2 & E2 & Hc2 & Hl2);
    [rewrite Hc1; unfold hdr0, auth_header; by rewrite <- !app_assoc | done | done |
     rewrite (fits_lengths _ _ _ _ Hl1), length_app, Nat2Z.inj_add; apply (fits_inside _ _ 28); cbn; lia || done |].
  rewrite length_app, Nat2Z.inj_add in E2.
  change (Z.of_nat (length ([ty; fl] ++ htons_bytes 28))) with 4 in E2.
  rewrite E2. cbn [mbind option_bind].
  assert (concat m2 = X ++ hdr ++ replicate 20 0 ++ Y) as Hb2
    by (rewrite Hc2; unfold hdr, auth_header; by rewrite <- !app_assoc).
  (* the digest *)
  destruct (cached_hmac a1 keyid r p text k Ha1 Hk) as (Hmac & Hne & Hkl).
  assert (chain_len m2 = chain_len m) as Hcl.
  { unfold chain_len. rewrite Hb2, Hc, !length_app, Hold.
    by rewrite Hh, Hh0, length_replicate. }
  assert (Z.of_nat (length X) <= chain_len m) as HX by (unfold chain_len; rewrite Hc, length_app; lia).
  rewrite Hp1, Hp, Ek, compute_hmac_m_spec; [|done | done | | unfold in_u32; lia | done | lia].
  2: { intros ->. destruct X; discriminate Hb2. }
  cbn [mbind option_bind]. rewrite Hb2, Nat2Z.id, drop_app_length, Hmac, Eid.
  set (d := hmac_sha1 _ _).
  assert (length d = 20%nat) as Hd by apply length_hmac_sha1.
  destruct (chain_write_spec d (replicate 20 0) Y m2 (X ++ hdr)) as (m3 & E3 & Hc3 & Hl3);
    [by rewrite Hb2, <- app_assoc | by rewrite length_replicate, Hd
    | intros E0; by rewrite E0 in Hd
    | rewrite (fits_lengths _ _ _ _ Hl2), (fits_lengths _ _ _ _ Hl1), length_app, Nat2Z.inj_add, Hd;
      apply (fits_inside _ _ 28); rewrite ?Hh; lia || done |].
  rewrite length_app, Nat2Z.inj_add in E3. change (Z.of_nat (length hdr)) with 8 in E3.
  rewrite E3. cbn [mbind option_bind]. eexists _, _. split; [done|].
  rewrite Hc3, <- app_assoc. split; [done|]. split; [|by rewrite Hl3, Hl2, Hl1].
  apply store_send; [done|]. by apply cached_hmac_key.
Qed.

End Verdict.

(** C22. An incoming AUTH chunk with a supported HMAC and a known key id is
    accepted exactly when its digest is the HMAC, under the association key, of
    the packet from the chunk on with the digest zeroed; whatever key was cached
    before, the cached key afterwards stands for the same association key. *)
Theorem handle_auth_verdict malloc ctx0 stack err_ok a keyid r p text m X ty fl len dig Y :
  let hdr := auth_header ty fl len keyid SCTP_AUTH_HMAC_ID_SHA1 in
  ctx_ok ctx0 -> auth_end a keyid r p text -> can_alloc malloc (length r + length p + length text) ->
  sctp_auth_is_supported_hmac (local_hmacs a) SCTP_AUTH_HMAC_ID_SHA1 = true ->
  in_u16 len -> 28 <= len -> length dig = 20%nat ->
  concat m = X ++ hdr ++ dig ++ Y -> fits m (Z.of_nat (length X) + 8) 20 = true ->
  8 * (64 + chain_len m) < 4294967296 ->
  exists v a' m', sctp_handle_auth malloc ctx0 stack err_ok a (hdr ++ dig) m (Z.of_nat (length X))
      = Some (v, a', m')
    /\ (v = 0 <-> dig = hmac_sha1 (assoc_key_of r p text) (hdr ++ replicate 20 0 ++ Y))
    /\ (v = 0 \/ v = -1) /\ auth_end a' keyid r p text.
Proof.
  intros hdr Hctx Ha Hm Hsup Hlen Hge Hdig Hc Hf Hsize.
  destruct (handle_auth_spec malloc ctx0 stack Hctx err_ok a keyid r p text m X ty fl len dig Y
    Ha Hm Hsup Hlen Hge Hdig Hc Hf Hsize) as (a' & m' & E & Ha' & _).
  eexists _, a', m'. split; [exact E|]. case_bool_decide; naive_solver.
Qed.

Definition demo_end (r p : list Z) : auth_assoc :=
  AuthAssoc (AuthInfo (Some r) 1 (Some p) None None 0 0 0) [SKey (Some [1; 2; 3]) 1 0 0]
    (Some (HmacList 1 1 [1])) None None 1 [].

Definition eight_malloc (n : Z) : option (list Z) := if n =? 8 then demo_malloc 8 else None.

Lemma demo_auth_end r p : length r = 3%nat -> length p = 2%nat -> Forall in_u8 r -> Forall in_u8 p ->
  auth_end (demo_end r p) 0 r p [1; 2; 3].
Proof.
  intros Hr Hp Fr Fp. constructor; try done.
  - by eexists.
  - split; [by destruct r | rewrite Hr, Hp; done].
Qed.

Lemma demo_auth_end' r p : length r = 2%nat -> length p = 3%nat -> Forall in_u8 r -> Forall in_u8 p ->
  auth_end (demo_end r p) 0 r p [1; 2; 3].
Proof.
  intros Hr Hp Fr Fp. constructor; try done.
  - by eexists.
  - split; [by destruct r | rewrite Hr, Hp; done].
Qed.

Lemma demo_can_alloc : can_alloc eight_malloc 8.
Proof. split; [by apply demo_malloc_spec | by eexists]. Qed.

Definition demo_packet (dig : list Z) : list (list Z) :=
  [replicate 12 7; auth_header 0x0f 0 28 0 SHA1 ++ dig; [0; 3; 0; 4]].

Lemma handle_auth_verdict_witness :
  exists v a' m', sctp_handle_auth eight_malloc demo_ctx [] true (demo_end [9; 1; 1] [7; 7])
      (auth_header 0x0f 0 28 0 SHA1 ++ replicate 20 0) (demo_packet (replicate 20 0)) 12
      = Some (v, a', m')
    /\ (v = 0 <-> replicate 20 0 = hmac_sha1 (assoc_key_of [9; 1; 1] [7; 7] [1; 2; 3])
         (auth_header 0x0f 0 28 0 SHA1 ++ replicate 20 0 ++ [0; 3; 0; 4]))
    /\ (v = 0 \/ v = -1) /\ auth_end a' 0 [9; 1; 1] [7; 7] [1; 2; 3].
Proof.
  apply (handle_auth_verdict eight_malloc demo_ctx [] true (demo_end [9; 1; 1] [7; 7]) 0
    [9; 1; 1] [7; 7] [1; 2; 3] (demo_packet (replicate 20 0)) (replicate 12 7) 0x0f 0 28
    (replicate 20 0) [0; 3; 0; 4]).
  - reflexivity.
  - apply demo_auth_end; [reflexivity | reflexivity | repeat constructor; vm_compute; congruence..].
  - exact demo_can_alloc.
  - reflexivity.
  - vm_compute; split; congruence.
  - lia.
  - reflexivity.
  - reflexivity.
  - reflexivity.
  - reflexivity.
Defined.

(** C23. End to end: when the two ends hold each other's random vectors and the
    same shared key, the digest that [sctp_fill_hmac_digest_m] writes into an
    outgoing packet makes [sctp_handle_auth] accept the packet at the other end,
    whatever each end has cached and however the receiver's buffers cut the
    packet, as long as the digest is not cut; both ends keep caches that stand
    for the association key, so the next packet is accepted too. *)
Theorem auth_end_to_end malloc ctx0 stack malloc' ctx1 stack' err_ok a b keyid r p text m X ty fl kid0 old Y :
  ctx_ok ctx0 -> ctx_ok ctx1 ->
  auth_end a keyid r p text -> auth_end b keyid p r text ->
  can_alloc malloc (length r + length p + length text) ->
  can_alloc malloc' (length p + length r + length text) ->
  peer_hmac_id a = SCTP_AUTH_HMAC_ID_SHA1 ->
  sctp_auth_is_supported_hmac (local_hmacs b) SCTP_AUTH_HMAC_ID_SHA1 = true ->
  in_u16 kid0 -> length old = 20%nat ->
  concat m = X ++ auth_header ty fl 28 kid0 SCTP_AUTH_HMAC_ID_SHA1 ++ old ++ Y ->
  fits m (Z.of_nat (length X)) 28 = true -> 8 * (64 + chain_len m) < 4294967296 ->
  exists m' a', sctp_fill_hmac_digest_m malloc ctx0 stack m (Z.of_nat (length X)) a keyid = Some (m', a')
    /\ auth_end a' keyid r p text
    /\ forall received, concat received = concat m' -> fits received (Z.of_nat (length X) + 8) 20 = true ->
       exists b' m'', sctp_handle_auth malloc' ctx1 stack' err_ok b
           (take 28 (drop (length X) (concat m'))) received (Z.of_nat (length X)) = Some (0, b', m'')
         /\ auth_end b' keyid p r text.
Proof.
  intros Hctx0 Hctx1 Ha Hb Hm Hm' Hp Hsup Hkid Hold Hc Hf Hsize.
  destruct (fill_spec malloc ctx0 stack Hctx0 a keyid r p text m X ty fl kid0 old Y Ha Hm Hp Hkid Hold
    Hc Hf Hsize) as (m' & a' & E & Hc' & Ha' & Hl'). exists m', a'. split; [done|]. split; [done|].
  set (d := hmac_sha1 _ _) in Hc'. set (hdr := auth_header ty fl 28 keyid _) in *.
  assert (length d = 20%nat) as Hd by apply length_hmac_sha1.
  intros received Hrc Hrf.
  assert (take 28 (drop (length X) (concat m')) = hdr ++ d) as ->.
  { rewrite Hc', drop_app_length, app_assoc. apply take_app_length'. by rewrite length_app, Hd. }
  destruct (handle_auth_spec malloc' ctx1 stack' Hctx1 err_ok b keyid p r text received X ty fl 28 d Y Hb)
    as (b' & m'' & E' & Hb' & _); try done.
  - by rewrite Hrc, Hc'.
  - unfold chain_len in *. rewrite Hrc, Hc', !length_app, Hd.
    rewrite Hc, !length_app, Hold in Hsize. exact Hsize.
  - exists b', m''. split; [|done]. unfold hdr. rewrite E'. destruct (ae_ok _ _ _ _ _ Ha) as [Hr8 Hp8].
    rewrite bool_decide_true; [done|]. unfold d.
    by rewrite (assoc_key_sym r p text Hr8 Hp8).
Qed.

Lemma auth_end_to_end_witness :
  exists m' a', sctp_fill_hmac_digest_m eight_malloc demo_ctx [] (demo_packet (replicate 20 0xee)) 12
      (demo_end [9; 1; 1] [7; 7]) 0 = Some (m', a')
    /\ auth_end a' 0 [9; 1; 1] [7; 7] [1; 2; 3]
    /\ forall received, concat received = concat m' -> fits received (12 + 8) 20 = true ->
       exists b' m'', sctp_handle_auth eight_malloc demo_ctx [] true (demo_end [7; 7] [9; 1; 1])
           (take 28 (drop 12 (concat m'))) received 12 = Some (0, b', m'')
         /\ auth_end b' 0 [7; 7] [9; 1; 1] [1; 2; 3].
Proof.
  apply (auth_end_to_end eight_malloc demo_ctx [] eight_malloc demo_ctx [] true (demo_end [9; 1; 1] [7; 7])
    (demo_end [7; 7] [9; 1; 1]) 0 [9; 1; 1] [7; 7] [1; 2; 3] (demo_packet (replicate 20 0xee))
    (replicate 12 7) 0x0f 0 0 (replicate 20 0xee) [0; 3; 0; 4]).
  - reflexivity.
  - reflexivity.
  - apply demo_auth_end; [reflexivity | reflexivity | repeat constructor; vm_compute; congruence..].
  - apply demo_auth_end'; [reflexivity | reflexivity | repeat constructor; vm_compute; congruence..].
  - exact demo_can_alloc.
  - exact demo_can_alloc.
  - reflexivity.
  - reflexivity.
  - vm_compute; split; congruence.
  - reflexivity.
  - reflexivity.
  - reflexivity.
  - reflexivity.
Defined.

(** ** The life of shared keys *)

(** What a computation of an HMAC leaves of the key. *)
Lemma hmac_keeps_key ctx temp h key m off d k' : ctx_ok ctx ->
  (forall k, key = Some k -> 8 * Z.of_nat (length k) < 4294967296) ->
  sctp_compute_hmac_m h key m off ctx temp = Some (d, k') ->
  k' = key \/ exists k, key = Some k /\ k' = Some (hmac_key k).
Proof.
  intros Hc Hl. unfold sctp_compute_hmac_m. destruct key as [k|]; [|intros [= <- <-]; by left].
  destruct m as [|b m]; [intros [= <- <-]; by left|]. unfold sctp_get_hmac_digest_len.
  destruct (Z.eqb_spec h SCTP_AUTH_HMAC_ID_SHA1) as [->|]; [|intros [= <- <-]; by left]. cbn [Z.eqb SCTP_AUTH_DIGEST_LEN_SHA1].
  destruct (hash_long_key_spec ctx k temp Hc (Hl k eq_refl)) as (c0 & -> & _). cbn [mbind option_bind].
  destruct (sctp_hmac_m _ _ _ _ _ _ _); [|done]. intros [= _ <-]. right. by exists k.
Qed.

(** The length of what is cached. *)
Lemma cached_size i keys id k B : cached_for i keys id k ->
  Z.of_nat (length (key_bytes (ai_random i)) + length (key_bytes (ai_peer_random i))) <= B ->
  sctp_get_keylen (sctp_find_sharedkey keys id ≫= sk_key) <= 65535 -> 0 <= B ->
  Z.of_nat (length k) <= B + 65535.
Proof.
  rewrite keylen_bytes. intros [-> | [_ ->]] HB Hk H0; [rewrite length_assoc_key; lia | rewrite length_sha1; lia].
Qed.

Section KeyLife.

Context (malloc : Z -> option (list Z)) (ctx0 : sctp_sha1_context) (stack : list Z).
Hypothesis Hmalloc : malloc_spec malloc.
Hypothesis Hctx : ctx_ok ctx0.
Context (r p : list Z).
Hypothesis Hr : key_ok r.
Hypothesis Hp : key_ok p.
Hypothesis Hsize : Z.of_nat (length r + length p) <= 268435456.

(** The operations on the keys, and the two that compute and cache an association key:
    a packet is given its AUTH chunk, or one is checked.  Nothing is asked of the packet. *)
Inductive auth_step : auth_assoc * list Z -> auth_assoc * list Z -> Prop :=
| KeyStep s s' : key_step malloc s s' -> auth_step s s'
| FillStep a held m off keyid m' a' :
    sctp_fill_hmac_digest_m malloc ctx0 stack m off a keyid = Some (m', a') -> auth_step (a, held) (a', held)
| HandleStep a held err_ok auth m off v a' m' :
    sctp_handle_auth malloc ctx0 stack err_ok a auth m off = Some (v, a', m') -> auth_step (a, held) (a', held).

Definition vectors (a : auth_assoc) : Prop := ai_random (authinfo a) = Some r /\ ai_peer_random (authinfo a) = Some p.

Definition life_inv (s : auth_assoc * list Z) : Prop := auth_inv s.1 s.2 /\ vectors s.1.

Lemma text_size a held id : auth_inv a held -> sctp_get_keylen (sctp_find_sharedkey (shared_keys a) id ≫= sk_key) <= 65535.
Proof.
  intros [Hk _]. destruct (sctp_find_sharedkey (shared_keys a) id) as [k|] eqn:E; [|done]. exact (ki_text _ _ _ Hk id k E).
Qed.

Lemma cached_short a held id k : life_inv (a, held) -> cached_for (authinfo a) (shared_keys a) id k ->
  8 * Z.of_nat (length k) < 4294967296.
Proof.
  intros [Hi [Er Ep]] Hk. cbn [fst snd] in *. apply (cached_size _ _ _ _ 268435456) in Hk; [lia | | | done].
  - by rewrite Er, Ep.
  - by eapply text_size.
Qed.

(** A key that was just computed. *)
Lemma computed_cached a held id k : life_inv (a, held) ->
  sctp_compute_hashkey malloc (ai_random (authinfo a)) (ai_peer_random (authinfo a))
    (sctp_find_sharedkey (shared_keys a) id ≫= sk_key) = Some (Some k) ->
  cached_for (authinfo a) (shared_keys a) id k.
Proof.
  intros [Hi [Er Ep]] E. cbn [fst snd] in *. rewrite Er, Ep in E. left.
  apply hashkey_result in E; [|done..|]; [by rewrite Er, Ep|]. pose proof (text_size a held id Hi). lia.
Qed.

Lemma store_send_inv a held k id : life_inv (a, held) ->
  (forall k0, k = Some k0 -> cached_for (authinfo a) (shared_keys a) id k0) ->
  life_inv (set_authinfo a (set_assoc_key (authinfo a) k id), held).
Proof. intros [[Hk [H1 H2]] Hv] Hc. split; [split; [exact Hk | by split] | exact Hv]. Qed.

Lemma store_recv_inv a held k id : life_inv (a, held) ->
  (forall k0, k = Some k0 -> cached_for (authinfo a) (shared_keys a) id k0) ->
  life_inv (set_authinfo a (set_recv_key (authinfo a) k id), held).
Proof. intros [[Hk [H1 H2]] Hv] Hc. split; [split; [exact Hk | by split] | exact Hv]. Qed.

(** What the HMAC leaves of a cached key is one. *)
Lemma hmac_keeps_cached a held h key m off d k' id : life_inv (a, held) ->
  (forall k, key = Some k -> cached_for (authinfo a) (shared_keys a) id k) ->
  sctp_compute_hmac_m h key m off ctx0 stack = Some (d, k') ->
  forall k, k' = Some k -> cached_for (authinfo a) (shared_keys a) id k.
Proof.
  intros Hi Hk E. apply hmac_keeps_key in E; [|done | intros k Ek; by eapply cached_short; eauto].
  destruct E as [-> | (k0 & E0 & ->)]; [done|]. intros k [= <-]. apply cached_hmac_key. by apply Hk.
Qed.

Lemma fill_inv a held m off keyid m' a' : life_inv (a, held) ->
  sctp_fill_hmac_digest_m malloc ctx0 stack m off a keyid = Some (m', a') -> life_inv (a', held).
Proof.
  intros Hi. unfold sctp_fill_hmac_digest_m. destruct (chain_write m _ _) as [m1|]; [|done]. cbn [mbind option_bind].
  destruct (cache_send_key malloc a keyid) as [a1|] eqn:E1; [|done]. cbn [mbind option_bind].
  assert (life_inv (a1, held)) as Hi1.
  { unfold cache_send_key in E1. destruct (_ || _); [|by injection E1 as <-].
    destruct (sctp_compute_hashkey _ _ _ _) as [k|] eqn:Ek; [|done]. injection E1 as <-.
    apply store_send_inv; [done|]. intros k0 ->. by eapply computed_cached. }
  destruct (chain_write m1 _ _) as [m2|]; [|done]. cbn [mbind option_bind].
  destruct (sctp_compute_hmac_m _ _ m2 _ _ _) as [[d k]|] eqn:Eh; [|done]. cbn [mbind option_bind].
  destruct d as [n digest].
  assert (life_inv (set_authinfo a1 (set_assoc_key (authinfo a1) k (ai_assoc_keyid (authinfo a1))), held)) as Hi2.
  { apply store_send_inv; [done|]. eapply hmac_keeps_cached; [done | | exact Eh]. apply Hi1. }
  destruct digest; [|by intros [= _ <-]]. destruct (chain_write m2 _ _); [|done]. by intros [= _ <-].
Qed.

Lemma handle_inv a held err_ok auth m off v a' m' : life_inv (a, held) ->
  sctp_handle_auth malloc ctx0 stack err_ok a auth m off = Some (v, a', m') -> life_inv (a', held).
Proof.
  intros Hi. unfold sctp_handle_auth. destruct (_ <? _); [by intros [= _ <- _]|]. destruct (negb _); [intros [= _ <- _]; by destruct err_ok|].
  destruct (cache_recv_key malloc a _) as [cached|] eqn:E1; [|done]. cbn [mbind option_bind].
  destruct cached as [a1|]; [|by intros [= _ <- _]].
  assert (life_inv (a1, held)) as Hi1.
  { unfold cache_recv_key in E1. destruct (_ || _); [|by injection E1 as <-].
    destruct (sctp_find_sharedkey _ _) as [sk|] eqn:Es; [|done].
    destruct (sctp_compute_hashkey _ _ _ _) as [k|] eqn:Ek; [|done]. injection E1 as <-.
    match goal with |- context [set_authinfo ?x _] => set (a0 := x) end. assert (life_inv (a0, held)) as Hi0 by (unfold a0; by case_match).
    assert (authinfo a0 = authinfo a /\ shared_keys a0 = shared_keys a) as [E0 E0'] by (unfold a0; by case_match).
    rewrite <- E0. apply store_recv_inv; [done|]. intros k0 ->. rewrite E0, E0'. eapply computed_cached; [done|]. rewrite Es. exact Ek. }
  destruct (_ <? _); [by intros [= _ <- _]|]. match goal with |- (?x ≫= _) = _ -> _ => destruct x as [digest|]; [|done] end. cbn [mbind option_bind].
  destruct (sctp_zero_m _ _ _) as [m1|]; [|done]. cbn [mbind option_bind].
  destruct (sctp_compute_hmac_m _ _ m1 _ _ _) as [[[n d] k]|] eqn:Eh; [|done]. cbn [mbind option_bind].
  assert (life_inv (set_authinfo a1 (set_recv_key (authinfo a1) k (ai_recv_keyid (authinfo a1))), held)) as Hi2.
  { apply store_recv_inv; [done|]. eapply hmac_keeps_cached; [done | | exact Eh]. apply Hi1. }
  case_bool_decide; by intros [= _ <- _].
Qed.

Lemma auth_step_inv s s' : auth_step s s' -> life_inv s -> life_inv s'.
Proof.
  intros [s0 s1 H|a held m off keyid m' a' E|a held err_ok auth m off v a' m' E] Hi; [|by eapply fill_inv | by eapply handle_inv].
  destruct Hi as [Hi [Er Ep]]. split; [by eapply key_step_inv|]. destruct (key_step_vectors malloc _ _ H) as [E1 E2].
  split; congruence.
Qed.

Lemma auth_steps_inv s s' : rtc auth_step s s' -> life_inv s -> life_inv s'.
Proof. induction 1; eauto using auth_step_inv. Qed.

End KeyLife.

(** C20. Over any sequence of setting, deleting, activating, deactivating, acquiring and
    releasing shared keys, of giving packets their AUTH chunk and of checking AUTH chunks
    that arrive, in which no key is replaced while queued messages hold references to it:
    the reference count of every key is one more than the references held, the active key
    exists, the keys stay sorted, every association key that is cached for sending or
    receiving is the one derived from the random vectors and the present shared key of its
    id, and giving back a held reference never frees a key that is still in the list. *)
Theorem shared_key_life malloc ctx0 stack r p a a' held :
  malloc_spec malloc -> ctx_ok ctx0 -> key_ok r -> key_ok p -> Z.of_nat (length r + length p) <= 268435456 ->
  initial_auth a -> vectors r p a -> rtc (auth_step malloc ctx0 stack) (a, []) (a', held) ->
  auth_inv a' held /\ vectors r p a'
  /\ forall id, id ∈ held -> is_Some (sctp_auth_key_release a' id).
Proof.
  intros Hm Hc Hr Hp Hs Ha Hv Hsteps.
  destruct (auth_steps_inv malloc ctx0 stack Hm Hc r p Hr Hp Hs _ _ Hsteps) as [Hi Hv'];
    [by split; [apply initial_inv|]|]. cbn [fst snd] in *.
  split; [done|]. split; [done|]. intros id Hid. destruct (release_inv a' held id Hi Hid) as (? & -> & _). by eexists.
Qed.

(** An allocator that returns zeroed memory. *)
Definition life_malloc (n : Z) : option (list Z) := if n <? 0 then None else Some (replicate (Z.to_nat n) 0).

Lemma life_malloc_spec : malloc_spec life_malloc.
Proof.
  intros n b. unfold life_malloc. destruct (Z.ltb_spec n 0); [done|]. intros [= <-]. rewrite length_replicate. lia.
Qed.

(** A key 5 is set, a packet gets its AUTH chunk under it, the key is replaced, a message
    takes a reference, and the key is activated. *)
Lemma shared_key_life_witness : exists a',
  rtc (auth_step life_malloc demo_ctx []) (demo_assoc, []) (a', [5])
  /\ auth_inv a' [5] /\ vectors [9; 1; 1] [7; 7] a'
  /\ forall id, id ∈ [5] -> is_Some (sctp_auth_key_release a' id).
Proof.
  assert (exists a', rtc (auth_step life_malloc demo_ctx []) (demo_assoc, []) (a', [5])) as [a' Hs].
  { eexists. eapply rtc_l; [eapply KeyStep, (KeySet life_malloc demo_assoc [] true 5 [1; 2] 2); [reflexivity | by intros ?%elem_of_nil | lia]|].
    eapply rtc_l; [eapply (FillStep _ _ _ _ [] (demo_packet (replicate 20 0)) 12 5); vm_compute; reflexivity|].
    eapply rtc_l; [eapply KeyStep, (KeySet life_malloc _ [] true 5 [3; 4] 2); [vm_compute; reflexivity | by intros ?%elem_of_nil | lia]|].
    eapply rtc_l; [eapply KeyStep, (KeyAcquire _ _ [] 5); [by eexists | cbn; lia]|].
    eapply rtc_l; [eapply KeyStep, (KeyActivate _ _ [5] 5); vm_compute; reflexivity|].
    apply rtc_refl. }
  exists a'. split; [exact Hs|].
  apply (shared_key_life life_malloc demo_ctx [] [9; 1; 1] [7; 7] demo_assoc a' [5] life_malloc_spec); try exact Hs.
  - reflexivity.
  - split; [repeat constructor; vm_compute; congruence | reflexivity].
  - split; [repeat constructor; vm_compute; congruence | reflexivity].
  - vm_compute. congruence.
  - split; [reflexivity|]. split; reflexivity.
  - split; reflexivity.
Defined.

(** The packet's key is cached, and setting the key anew clears it. *)
Lemma key_change_clears_cache :
  (x ← setopt_auth_key life_malloc true demo_assoc 5 [1; 2] 2;
   y ← sctp_fill_hmac_digest_m life_malloc demo_ctx [] (demo_packet (replicate 20 0)) 12 x.2 5;
   z ← setopt_auth_key life_malloc true y.2 5 [3; 4] 2;
   Some (ai_assoc_key (authinfo y.2), ai_assoc_key (authinfo z.2))) = Some (Some [1; 2; 7; 7; 9; 1; 1], None).
Proof. by vm_compute. Qed.
