(* ===== verification/AuthParamProps.v ===== *)
(** * Properties of the authentication parameters of the handshake

    Reading a packet through [sctp_m_getptr], the verdict on the parameters of an
    INIT, the agreement of the two ends on the random keys, and the INIT that
    makes the receiver write past the end of the key it builds. *)

From S2P Require Import Prelude Sha1 AuthLists AuthKeys AuthKeyProps AuthHmac AuthHmacProps AuthParams.

Open Scope sctp_scope.

(** ** Reading a packet *)

(** [n] bytes of a packet from [off] on. *)
Definition region (b : list Z) (off n : Z) : list Z := take (Z.to_nat n) (drop (Z.to_nat off) b).

Lemma getptr_seek_spec m : forall off, 0 <= off ->
  let '(m', off') := getptr_seek m off in
  drop (Z.to_nat off) (concat m) = drop (Z.to_nat off') (concat m')
  /\ chain_len m - off = chain_len m' - off' /\ 0 <= off'
  /\ match m' with [] => True | b :: _ => off' <= blen b end.
Proof.
  induction m as [|b m IH]; intros off Hoff; [done|].
  cbn [getptr_seek]. unfold blen. destruct (Z.ltb_spec 0 off); [|split_and!; done || lia].
  destruct (Z.ltb_spec off (Z.of_nat (length b))); [split_and!; done || lia|].
  specialize (IH (off - Z.of_nat (length b)) ltac:(lia)).
  destruct (getptr_seek m (off - Z.of_nat (length b))) as [m' off']. destruct IH as (H1 & H2 & H3 & H4).
  split_and!; [|rewrite chain_len_cons; lia | done | done].
  rewrite <- H1. cbn [concat]. rewrite drop_app_ge by lia. f_equal. lia.
Qed.

Lemma getptr_copy_spec m : forall off len room got,
  match m with [] => off = 0 | b :: _ => 0 <= off <= blen b end -> 0 <= len <= room ->
  getptr_copy m off len room got
    = Some (len - Z.min len (chain_len m - off), got ++ region (concat m) off len).
Proof.
  unfold region, blen. induction m as [|b m IH]; intros off len room got Hoff Hlen; cbn [getptr_copy concat].
  { subst off. rewrite drop_nil, take_nil, app_nil_r. do 2 f_equal. unfold chain_len. cbn [concat length]. lia. }
  rewrite chain_len_cons. pose proof (chain_len_nonneg m) as Hc.
  destruct (Z.ltb_spec 0 len); [|replace len with 0 by lia; cbn [Z.to_nat take]; rewrite app_nil_r;
    do 2 f_equal; lia].
  rewrite (proj2 (Z.leb_le _ room)) by (unfold blen; lia). unfold blen.
  rewrite IH; [|destruct m; [done | lia] | lia]. cbn [Z.to_nat drop]. rewrite <- app_assoc.
  do 2 f_equal; [lia|]. f_equal.
  rewrite (drop_app_le b) by lia. rewrite take_app, length_drop.
  set (c := Z.min (Z.of_nat (length b) - off) len).
  replace (take (Z.to_nat len) (drop (Z.to_nat off) b)) with (take (Z.to_nat c) (drop (Z.to_nat off) b)).
  - do 2 f_equal. lia.
  - destruct (Z.le_gt_cases len (Z.of_nat (length b) - off)).
    + do 2 f_equal. lia.
    + rewrite !take_ge; [done | rewrite length_drop; lia..].
Qed.

(** The bytes of the packet, wherever the buffers cut it. *)
Lemma getptr_spec m off len size : 0 <= off -> 0 < len <= size ->
  sctp_m_getptr m off len size
    = Some (if off + len <=? chain_len m then Some (region (concat m) off len) else None).
Proof.
  intros Hoff Hlen. unfold sctp_m_getptr.
  rewrite (proj2 (Z.ltb_ge off 0)), (proj2 (Z.leb_gt len 0)) by lia. cbn [orb].
  pose proof (getptr_seek_spec m off Hoff) as Hs. destruct (getptr_seek m off) as [m' off'].
  destruct Hs as (H1 & H2 & H3 & H4). unfold region. destruct m' as [|b m'].
  { rewrite (proj2 (Z.leb_gt _ (chain_len m))); [done|]. unfold chain_len in H2 at 2. cbn in H2. lia. }
  rewrite H1. cbn [concat]. rewrite chain_len_cons in H2. pose proof (chain_len_nonneg m'). unfold blen in *.
  destruct (Z.leb_spec len (Z.of_nat (length b) - off')).
  - rewrite (proj2 (Z.leb_le _ (chain_len m))) by lia. do 2 f_equal.
    rewrite drop_app_le, take_app_le by (rewrite ?length_drop; lia). done.
  - rewrite getptr_copy_spec by (unfold blen; lia). cbn [mbind option_bind]. rewrite chain_len_cons.
    destruct (Z.leb_spec (off + len) (chain_len m)).
    + rewrite (proj2 (Z.ltb_ge 0 _)) by lia. done.
    + rewrite (proj2 (Z.ltb_lt 0 _)) by lia. done.
Qed.

(** ** Parameters on the wire *)

(** A parameter is its type and its value; on the wire it has a header, and
    padding when another one follows. *)
Definition param_of (p : Z * list Z) : list Z :=
  param_header p.1 (sizeof_paramhdr + blen p.2) ++ p.2.

Definition padding (p : Z * list Z) : list Z :=
  replicate (Z.to_nat (SCTP_SIZE32 (blen (param_of p)) - blen (param_of p))) 0.

Fixpoint encode (ps : list (Z * list Z)) : list Z :=
  match ps with
  | [] => []
  | p :: ps => param_of p ++ match ps with [] => [] | _ :: _ => padding p ++ encode ps end
  end.

Definition wf_param (p : Z * list Z) : Prop := in_u16 p.1 /\ blen p.2 < 65532.

Lemma size32_spec x : SCTP_SIZE32 x = 4 * ((x + 3) / 4).
Proof.
  unfold SCTP_SIZE32. rewrite Z.shiftl_mul_pow2, Z.shiftr_div_pow2 by lia.
  change (2 ^ 2) with 4. lia.
Qed.

Lemma size32_bounds x : x <= SCTP_SIZE32 x <= x + 3.
Proof. rewrite size32_spec. width_lia. Qed.

Lemma length_param_header t n : length (param_header t n) = 4%nat.
Proof. done. Qed.

Lemma blen_header t n : blen (param_header t n) = 4.
Proof. done. Qed.

Lemma blen_app (a b : list Z) : blen (a ++ b) = blen a + blen b.
Proof. unfold blen. rewrite length_app. lia. Qed.

Lemma blen_nonneg (a : list Z) : 0 <= blen a.
Proof. unfold blen. lia. Qed.

Lemma blen_param p : blen (param_of p) = 4 + blen p.2.
Proof. unfold param_of. rewrite blen_app. unfold blen at 1. by rewrite length_param_header. Qed.

Lemma blen_padding p : blen (padding p) = SCTP_SIZE32 (blen (param_of p)) - blen (param_of p).
Proof.
  unfold padding, blen at 1. rewrite length_replicate. pose proof (size32_bounds (blen (param_of p))). lia.
Qed.

Lemma header_values t n rest : in_u16 t -> in_u16 n ->
  ntohs_at (param_header t n ++ rest) 0 = t /\ ntohs_at (param_header t n ++ rest) 1 = n.
Proof.
  intros Ht Hn. unfold param_header. rewrite (u16_id n Hn). split.
  - exact (ntohs_htons t Ht).
  - exact (ntohs_htons n Hn).
Qed.

Lemma region_app X b Y : region (X ++ b ++ Y) (blen X) (blen b) = b.
Proof.
  unfold region, blen. rewrite !Nat2Z.id, drop_app_length. apply take_app_length.
Qed.

(** A walk over parameters, as a fold. *)
Section Run.

Context {St : Type} (step : Z -> list Z -> St -> outcome St).

Fixpoint run_params (ps : list (Z * list Z)) (s : St) : St * option Z :=
  match ps with
  | [] => (s, None)
  | (t, p) :: ps =>
      match step t p s with
      | Next s => run_params ps s
      | Break s => (s, None)
      | Return r s => (s, Some r)
      end
  end.

End Run.

Lemma read_header m limit X t n rest :
  limit <= chain_len m /\ limit < 2147000000 -> concat m = X ++ param_header t n ++ rest -> blen X + 4 <= limit ->
  in_u16 t -> in_u16 n ->
  exists h, sctp_get_next_param m (i32 (blen X)) sizeof_paramhdr sizeof_paramhdr = Some (Some h)
    /\ ntohs_at h 0 = t /\ ntohs_at h 1 = n.
Proof.
  intros Hlimit Hm Hl Ht Hn. pose proof (blen_nonneg X). exists (param_header t n). unfold sctp_get_next_param.
  rewrite i32_id by width_lia. rewrite getptr_spec by (unfold sizeof_paramhdr; lia).
  unfold sizeof_paramhdr. rewrite (proj2 (Z.leb_le _ _)) by lia. split; [|by apply (header_values t n [])].
  do 2 f_equal. rewrite Hm. change 4 with (blen (param_header t n)) at 1. apply region_app.
Qed.

Section EncodedWalk.

Context {St : Type} (wrap : Z -> Z) (stop_before : Z -> Z -> bool) (stop_after : Z -> bool).
Context (param : Z -> Z -> Z -> St -> option (outcome St)).
Context (m : list (list Z)) (limit : Z).

(** The loop body takes the parameter, wherever it is, from [s] to [s'] and goes
    on; and a sequence of them. *)
Definition takes (p : Z * list Z) (s s' : St) : Prop :=
  forall off, 0 <= off -> off + blen (param_of p) <= limit ->
  region (concat m) off (blen (param_of p)) = param_of p ->
  param off p.1 (blen (param_of p)) s = Some (Next s').

Inductive takes_all : list (Z * list Z) -> St -> St -> Prop :=
| takes_nil s : takes_all [] s s
| takes_cons p ps s s' s'' : takes p s s' -> takes_all ps s' s'' -> takes_all (p :: ps) s s''.

Lemma takes_app ps ps' s s' s'' : takes_all ps s s' -> takes_all ps' s' s'' -> takes_all (ps ++ ps') s s''.
Proof. induction 1; [done|]. intros H1. cbn [app]. econstructor; eauto. Qed.

Hypothesis Hlimit : limit <= chain_len m /\ limit < 2147000000.
Hypothesis Hwrap : forall z, 0 <= z <= limit + 3 -> wrap z = z.
Hypothesis Hbefore : forall off plen, 0 <= off -> 4 <= plen -> off + plen <= limit -> stop_before off plen = false.
Hypothesis Hafter : forall off, 0 <= off <= limit + 3 ->
  (off + 4 <= limit -> stop_after off = false) /\ (limit <= off -> stop_after off = true).

Lemma walk_encoded ps : forall fuel X Y s s', takes_all ps s s' ->
  concat m = X ++ encode ps ++ Y -> limit = blen X + blen (encode ps) ->
  ps <> [] -> Forall wf_param ps -> (length ps <= fuel)%nat ->
  walk_from wrap stop_before stop_after param fuel m (blen X) s = Some (s', None).
Proof using Hlimit Hwrap Hbefore Hafter.
  induction ps as [|p ps IH]; intros fuel X Y s s' Htk Hm Hl Hne Hwf Hfuel; [done|].
  inversion Htk as [|? ? ? s1 ? Hp1 Htk1]; subst.
  apply Forall_cons in Hwf as [[Ht Hv] Hwf]. pose proof (blen_nonneg X). pose proof (blen_nonneg p.2).
  pose proof (blen_param p) as Hp. pose proof (size32_bounds (blen (param_of p))).
  cbn [encode] in Hm, Hl. rewrite blen_app in Hl.
  set (more := match ps with [] => [] | _ :: _ => padding p ++ encode ps end) in *.
  pose proof (blen_nonneg more). unfold walk_from.
  destruct (read_header m limit X p.1 (4 + blen p.2) (p.2 ++ more ++ Y)) as (h & -> & Ht' & Hn');
    [done | by rewrite Hm; unfold param_of; rewrite <- !app_assoc | lia | done | width_lia |].
  cbn [mbind option_bind]. destruct fuel as [|fuel]; [cbn in Hfuel; lia|]. cbn [walk].
  rewrite Ht', Hn', Hbefore by lia. rewrite <- Hp.
  rewrite Hp1 by (try lia; by rewrite Hm, <- app_assoc, region_app). cbn [mbind option_bind].
  assert (0 <= blen X + SCTP_SIZE32 (blen (param_of p)) <= limit + 3) as Hoff by lia.
  rewrite Hwrap by done. destruct (Hafter _ Hoff) as [Hgo Hstop]. destruct ps as [|q ps].
  { inversion Htk1; subst. rewrite Hstop; [done|]. change (blen more) with 0 in Hl. lia. }
  assert (blen X + SCTP_SIZE32 (blen (param_of p)) = blen (X ++ param_of p ++ padding p)) as E.
  { rewrite !blen_app, blen_padding. lia. }
  unfold more in Hl, Hm. rewrite blen_app, blen_padding in Hl.
  assert (4 <= blen (encode (q :: ps))).
  { cbn [encode]. rewrite blen_app, blen_param. pose proof (blen_nonneg q.2).
    pose proof (blen_nonneg (match ps with [] => [] | _ :: _ => padding q ++ encode ps end)). lia. }
  rewrite Hgo by lia. rewrite E.
  apply (IH fuel (X ++ param_of p ++ padding p) Y s1 s'); [done | | | done | done | cbn in *; lia].
  - rewrite Hm, <- !app_assoc. done.
  - rewrite !blen_app, blen_padding. lia.
Qed.

End EncodedWalk.

(** ** Any packet as a list of parameters *)

(** The parameters at the start of [b], of which [room] bytes belong to the
    chunk: up to the first one that does not fit or is shorter than a header. *)
Fixpoint parse (fuel : nat) (b : list Z) (room : Z) : list (Z * list Z) :=
  match fuel with
  | O => []
  | S fuel =>
      if blen b <? 4 then []
      else
        let plen := ntohs_at b 1 in
        if (room <? plen) || (plen <? 4) then []
        else (ntohs_at b 0, take (Z.to_nat plen) b)
             :: (if room <=? SCTP_SIZE32 plen then []
                 else parse fuel (drop (Z.to_nat (SCTP_SIZE32 plen)) b) (room - SCTP_SIZE32 plen))
  end.

Definition params_in (b : list Z) (offset limit : Z) : list (Z * list Z) :=
  parse (S (Z.to_nat (limit - offset))) (drop (Z.to_nat offset) b) (limit - offset).

Lemma ntohs_range b i : Forall in_u8 b -> in_u16 (ntohs_at b i).
Proof.
  intros Hb.
  assert (forall k, in_u8 (nth k b 0)) as Hn.
  { intros k. rewrite nth_lookup. destruct (b !! k) eqn:E; [|done]. by apply (Forall_lookup_1 _ _ _ _ Hb) in E. }
  unfold ntohs_at. rewrite Z.shiftl_mul_pow2 by lia. change (2 ^ 8) with 256.
  pose proof (Hn (2 * i)%nat) as H1. pose proof (Hn (2 * i + 1)%nat) as H2.
  change 65536 with (2 ^ 16). apply (lor_bound 16); unfold in_u8 in *; lia.
Qed.

(** Only the first four bytes matter. *)
Lemma ntohs_take (b : list Z) n i : (2 * i + 2 <= n)%nat -> ntohs_at (take n b) i = ntohs_at b i.
Proof.
  intros H. unfold ntohs_at. rewrite !nth_lookup, !lookup_take_lt by lia. done.
Qed.

(** More fuel than a quarter of the room changes nothing. *)
Lemma parse_fuel_le fuel : forall k b room, room < 4 * Z.of_nat fuel ->
  parse (fuel + k) b room = parse fuel b room.
Proof.
  induction fuel as [|fuel IH]; intros k b room Hr.
  { destruct k; [done|]. cbn [Nat.add parse]. destruct (blen b <? 4); [done|].
    destruct (Z.ltb_spec room (ntohs_at b 1)); [done|]. destruct (Z.ltb_spec (ntohs_at b 1) 4); [done|]. lia. }
  cbn [Nat.add parse]. destruct (blen b <? 4); [done|].
  destruct (Z.ltb_spec room (ntohs_at b 1)); [done|]. destruct (Z.ltb_spec (ntohs_at b 1) 4); [done|].
  cbn [orb]. f_equal. destruct (Z.leb_spec room (SCTP_SIZE32 (ntohs_at b 1))); [done|].
  apply IH. pose proof (size32_bounds (ntohs_at b 1)). lia.
Qed.

Lemma parse_fuel b room k : parse (S (Z.to_nat room)) b room = parse (S (Z.to_nat room) + k) b room.
Proof. symmetry. apply parse_fuel_le. lia. Qed.

Definition on_wire (ps : list (Z * list Z)) : list (Z * list Z) := map (fun p => (p.1, param_of p)) ps.

(** Parsing what was encoded. *)
Lemma parse_encode ps : forall fuel Y, Forall wf_param ps -> (length ps < fuel)%nat ->
  parse fuel (encode ps ++ Y) (blen (encode ps)) = on_wire ps.
Proof.
  induction ps as [|p ps IH]; intros [|fuel] Y Hwf Hf; try (cbn in Hf; lia); cbn [parse].
  { destruct (blen _ <? 4); [done|]. change (blen (encode [])) with 0.
    destruct (Z.ltb_spec 0 (ntohs_at (encode [] ++ Y) 1)); [done|].
    by destruct (Z.ltb_spec (ntohs_at (encode [] ++ Y) 1) 4); [|lia]. }
  apply Forall_cons in Hwf as [[Ht Hv] Hwf]. pose proof (blen_param p) as Hp. pose proof (blen_nonneg p.2).
  pose proof (size32_bounds (blen (param_of p))). cbn [encode].
  set (more := match ps with [] => [] | _ :: _ => padding p ++ encode ps end).
  pose proof (blen_nonneg more). pose proof (blen_nonneg Y). rewrite !blen_app, <- app_assoc.
  assert (exists rest, param_of p ++ more ++ Y = param_header p.1 (4 + blen p.2) ++ rest) as [rest Er].
  { eexists. unfold param_of. by rewrite <- app_assoc. }
  destruct (header_values p.1 (4 + blen p.2) rest) as [E0 E1]; [done | width_lia|].
  rewrite <- Er in E0, E1. rewrite E0, E1, <- Hp, (proj2 (Z.ltb_ge _ 4)) by lia.
  rewrite (proj2 (Z.ltb_ge _ (blen (param_of p)))), (proj2 (Z.ltb_ge _ 4)) by lia. cbn [orb on_wire map].
  unfold blen at 1. rewrite Nat2Z.id, take_app_length. f_equal. destruct ps as [|q ps].
  { by rewrite (proj2 (Z.leb_le _ _)) by (change (blen more) with 0; lia). }
  unfold more. rewrite blen_app, blen_padding.
  assert (4 <= blen (encode (q :: ps))).
  { cbn [encode]. rewrite blen_app, blen_param. pose proof (blen_nonneg q.2).
    pose proof (blen_nonneg (match ps with [] => [] | _ :: _ => padding q ++ encode ps end)). lia. }
  rewrite (proj2 (Z.leb_gt _ _)) by lia.
  replace (drop _ _) with (encode (q :: ps) ++ Y).
  - replace (blen (param_of p) + _ - _) with (blen (encode (q :: ps))) by lia. apply IH; [done | cbn in *; lia].
  - rewrite <- (app_assoc (padding p)), (app_assoc (param_of p)), drop_app_ge.
    + rewrite length_app. pose proof (blen_padding p). unfold blen in *.
      replace (_ - _)%nat with 0%nat by lia. done.
    + rewrite length_app. pose proof (blen_padding p). unfold blen in *. lia.
Qed.

Lemma params_in_encode X ps Y : Forall wf_param ps ->
  params_in (X ++ encode ps ++ Y) (blen X) (blen X + blen (encode ps)) = on_wire ps.
Proof.
  intros Hwf. unfold params_in. replace (blen X + blen (encode ps) - blen X) with (blen (encode ps)) by lia.
  unfold blen at 2. rewrite Nat2Z.id, drop_app_length. apply parse_encode; [done|].
  assert (length ps <= length (encode ps))%nat; [|unfold blen; lia].
  clear. induction ps as [|p ps IH]; [done|]. cbn [encode length]. rewrite length_app.
  pose proof (blen_param p). pose proof (blen_nonneg p.2). unfold blen in *.
  destruct ps; [cbn in *; lia|]. rewrite length_app. lia.
Qed.

Section ValidateWalk.

Context {St : Type} (param : Z -> Z -> Z -> St -> option (outcome St)) (step : Z -> list Z -> St -> outcome St).
Context (m : list (list Z)) (limit : Z).
Hypothesis Hlimit : limit <= chain_len m /\ limit < 2147000000.
Hypothesis Hbytes : Forall in_u8 (concat m).
Hypothesis Hparam : forall off t p s, 0 <= off -> 4 <= blen p < 65536 -> off + blen p <= limit ->
  region (concat m) off (blen p) = p -> param off t (blen p) s = Some (step t p s).

Lemma walk_parsed fuel : forall off s, 0 <= off -> 0 <= limit - off < 4 * Z.of_nat fuel ->
  walk_from i32 (fun offset plen => (limit <? i32 (offset + plen)) || (plen <? sizeof_paramhdr))
    (fun offset => limit <=? offset) param fuel m off s
  = Some (run_params step (parse fuel (drop (Z.to_nat off) (concat m)) (limit - off)) s).
Proof using Hlimit Hbytes Hparam.
  induction fuel as [|fuel IH]; intros off s Hoff Hf; [lia|]. unfold walk_from, sctp_get_next_param.
  unfold sizeof_paramhdr at 2 3. rewrite i32_id by width_lia. rewrite getptr_spec by lia.
  cbn [parse mbind option_bind walk]. set (b := drop (Z.to_nat off) (concat m)).
  assert (blen b = Z.max 0 (chain_len m - off)) as Hb.
  { unfold b, blen, chain_len. rewrite length_drop. lia. }
  destruct (Z.leb_spec (off + 4) (chain_len m)); [|rewrite (proj2 (Z.ltb_lt (blen b) 4)) by lia; done].
  rewrite (proj2 (Z.ltb_ge (blen b) 4)) by lia. unfold region. fold b. rewrite !ntohs_take by lia.
  pose proof (ntohs_range b 1 ltac:(by apply Forall_drop)) as Hn. set (n := ntohs_at b 1) in *.
  unfold in_u16 in Hn. rewrite i32_id by width_lia. unfold sizeof_paramhdr.
  replace (limit <? off + n) with (limit - off <? n) by (zbool; lia || done).
  destruct (Z.ltb_spec (limit - off) n); [done|]. destruct (Z.ltb_spec n 4); [done|]. cbn [orb run_params].
  assert (blen (take (Z.to_nat n) b) = n) as Ht.
  { unfold blen. rewrite length_take. unfold blen in Hb. lia. }
  pose proof (Hparam off (ntohs_at b 0) (take (Z.to_nat n) b) s) as Hp. rewrite Ht in Hp.
  rewrite Hp by (try lia; done). cbn [mbind option_bind].
  destruct (step (ntohs_at b 0) (take (Z.to_nat n) b) s) as [s'|s'|r s']; [|done|done].
  pose proof (size32_bounds n). rewrite i32_id by width_lia.
  replace (limit <=? off + SCTP_SIZE32 n) with (limit - off <=? SCTP_SIZE32 n) by (zbool; lia || done).
  destruct (Z.leb_spec (limit - off) (SCTP_SIZE32 n)); [done|].
  specialize (IH (off + SCTP_SIZE32 n) s' ltac:(lia) ltac:(lia)).
  unfold walk_from, sizeof_paramhdr, sctp_get_next_param in IH |- *.
  rewrite ?(i32_id (off + SCTP_SIZE32 n)) in IH |- * by width_lia. rewrite IH. do 2 f_equal.
  f_equal.
  - unfold b. rewrite drop_drop. f_equal. lia.
  - lia.
Qed.

End ValidateWalk.

(** ** The verdict on an INIT *)

(** The value of a parameter on the wire. *)
Definition value (q : Z * list Z) : list Z := drop 4 q.2.

Definition lists_sha1 (v : list Z) : bool :=
  existsb (fun i => ntohs_at v i =? SCTP_AUTH_HMAC_ID_SHA1) (seq 0 (length v / 2)).

Definition is_type (t : Z) (q : Z * list Z) : bool := q.1 =? t.

Definition lists (t c : Z) (q : Z * list Z) : bool := is_type t q && existsb (Z.eqb c) (value q).

Definition lists_asconf (q : Z * list Z) : bool :=
  lists SCTP_SUPPORTED_CHUNK_EXT SCTP_ASCONF q || lists SCTP_SUPPORTED_CHUNK_EXT SCTP_ASCONF_ACK q.

Definition lists_chunks (q : Z * list Z) : bool :=
  is_type SCTP_CHUNK_LIST q && negb (blen q.2 - 4 =? 0).

(** A parameter too large for the buffer it is copied to ends the check. *)
Definition oversize (q : Z * list Z) : bool :=
  ((is_type SCTP_SUPPORTED_CHUNK_EXT q || is_type SCTP_CHUNK_LIST q) && (SCTP_SMALL_CHUNK_STORE <? blen q.2))
  || (is_type SCTP_HMAC_LIST q && (SCTP_PARAM_BUFFER_SIZE <? blen q.2)).

(** A RANDOM that is not of 32 bytes, an HMAC-ALGO without SHA-1. *)
Definition malformed (q : Z * list Z) : bool :=
  (is_type SCTP_RANDOM q && negb (blen q.2 =? 36))
  || (is_type SCTP_HMAC_LIST q && negb (lists_sha1 (value q))).

Fixpoint checked (ps : list (Z * list Z)) : list (Z * list Z) :=
  match ps with
  | [] => []
  | q :: ps => if oversize q then [] else q :: checked ps
  end.

(** The rules of RFC 4895 and RFC 5061: the parameters come together, a CHUNKS
    parameter or ASCONF needs them, and ASCONF and ASCONF-ACK must be listed in
    CHUNKS when ASCONF is supported. *)
Definition verdict (ps : list (Z * list Z)) : Z :=
  let ps := checked ps in
  let auth := existsb (is_type SCTP_RANDOM) ps && existsb (is_type SCTP_HMAC_LIST) ps in
  let asconf := existsb lists_asconf ps in
  if existsb malformed ps then -1
  else if negb auth && (existsb lists_chunks ps || asconf) then -1
  else if asconf && negb (existsb (lists SCTP_CHUNK_LIST SCTP_ASCONF) ps
                          && existsb (lists SCTP_CHUNK_LIST SCTP_ASCONF_ACK) ps) then -2
  else 0.

(** What the loop does with one parameter. *)
Definition validate_step (t : Z) (p : list Z) (f : init_flags) : outcome init_flags :=
  let q := (t, p) in
  if oversize q then Break f
  else if malformed q then Return (-1) f
  else Next (Flags (peer_supports_asconf f || lists_asconf q) (got_random f || is_type SCTP_RANDOM q)
               (got_hmacs f || is_type SCTP_HMAC_LIST q) (got_chklist f || lists_chunks q)
               (saw_asconf f || lists SCTP_CHUNK_LIST SCTP_ASCONF q)
               (saw_asconf_ack f || lists SCTP_CHUNK_LIST SCTP_ASCONF_ACK q)).

Lemma fold_extension types : forall f, foldl note_extension f types
  = Flags (peer_supports_asconf f || (existsb (Z.eqb SCTP_ASCONF) types || existsb (Z.eqb SCTP_ASCONF_ACK) types))
      (got_random f) (got_hmacs f) (got_chklist f) (saw_asconf f) (saw_asconf_ack f).
Proof.
  induction types as [|c types IH]; intros f; cbn [foldl existsb]; [by destruct f; rewrite orb_false_r|].
  rewrite IH. unfold note_extension. rewrite !(Z.eqb_sym c).
  destruct (SCTP_ASCONF =? c), (SCTP_ASCONF_ACK =? c); cbn;
    by rewrite ?orb_true_r.
Qed.

Lemma fold_chunk types : forall f, foldl note_chunk f types
  = Flags (peer_supports_asconf f) (got_random f) (got_hmacs f) (got_chklist f)
      (saw_asconf f || existsb (Z.eqb SCTP_ASCONF) types) (saw_asconf_ack f || existsb (Z.eqb SCTP_ASCONF_ACK) types).
Proof.
  induction types as [|c types IH]; intros f; cbn [foldl existsb]; [by destruct f; rewrite !orb_false_r|].
  rewrite IH. unfold note_chunk. cbn [saw_asconf saw_asconf_ack]. by rewrite !(Z.eqb_sym c), !orb_assoc.
Qed.

Lemma param_bytes_all p : 4 <= blen p -> param_bytes p (blen p - sizeof_paramhdr) = Some (drop 4 p).
Proof.
  intros H. unfold param_bytes, sizeof_paramhdr. rewrite (proj2 (Z.leb_le _ _)) by lia. f_equal.
  apply take_ge. rewrite length_drop. unfold blen. lia.
Qed.

Lemma verify_hmac_words p : 4 <= blen p ->
  let num := (blen p - sizeof_paramhdr) / 2 in
  exists v, param_bytes p (2 * num) = Some v
    /\ negb (sctp_verify_hmac_param v (Z.to_nat num) =? 0) = negb (lists_sha1 (drop 4 p)).
Proof.
  intros H. unfold param_bytes, sizeof_paramhdr. set (num := (blen p - 4) / 2).
  assert (0 <= 2 * num <= blen p - 4) as Hn by (unfold num; width_lia).
  rewrite (proj2 (Z.leb_le _ _)) by lia. eexists. split; [done|]. unfold sctp_verify_hmac_param, lists_sha1.
  change (Z.to_nat 4) with 4%nat.
  replace (length (drop 4 p) / 2)%nat with (Z.to_nat num)
    by (unfold num, blen in *; rewrite length_drop, Z2Nat.inj_div by lia; f_equal; lia).
  assert (forall l, Forall (fun i => (i < Z.to_nat num)%nat) l ->
    existsb (fun i => ntohs_at (take (Z.to_nat (2 * num)) (drop 4 p)) i =? SCTP_AUTH_HMAC_ID_SHA1) l
      = existsb (fun i => ntohs_at (drop 4 p) i =? SCTP_AUTH_HMAC_ID_SHA1) l) as ->.
  { induction 1; cbn [existsb]; [done|]. rewrite ntohs_take by lia. by f_equal. }
  - by destruct (existsb _ _).
  - apply Forall_forall. intros i Hi%elem_of_seq. lia.
Qed.

Section Validate.

Context (m : list (list Z)) (limit : Z).
Hypothesis Hlimit : limit <= chain_len m /\ limit < 2147000000.

Lemma pull_param off p size : 0 <= off -> 4 <= blen p <= size -> off + blen p <= limit ->
  region (concat m) off (blen p) = p -> sctp_get_next_param m off (blen p) size = Some (Some p).
Proof using Hlimit.
  intros H1 H2 H3 H4. unfold sctp_get_next_param. rewrite getptr_spec by lia.
  rewrite (proj2 (Z.leb_le _ _)) by lia. by rewrite H4.
Qed.

Lemma validate_param_step off t p f : 0 <= off -> 4 <= blen p < 65536 -> off + blen p <= limit ->
  region (concat m) off (blen p) = p -> validate_param m off t (blen p) f = Some (validate_step t p f).
Proof using Hlimit.
  intros Hoff Hp Hl Hr. unfold validate_param, validate_step, oversize, malformed, lists_asconf, lists_chunks,
    lists, is_type, value. cbn [fst snd].
  destruct (Z.eqb_spec t SCTP_SUPPORTED_CHUNK_EXT) as [->|_].
  { cbn [Z.eqb Pos.eqb orb andb SCTP_SUPPORTED_CHUNK_EXT SCTP_CHUNK_LIST SCTP_RANDOM SCTP_HMAC_LIST].
    rewrite orb_false_r. destruct (Z.ltb_spec SCTP_SMALL_CHUNK_STORE (blen p)); [done|].
    rewrite pull_param by (done || lia). cbn [mbind option_bind]. rewrite param_bytes_all by lia.
    cbn [mbind option_bind]. rewrite fold_extension. by rewrite !orb_false_r. }
  destruct (Z.eqb_spec t SCTP_RANDOM) as [->|_].
  { cbn [Z.eqb Pos.eqb orb andb SCTP_SUPPORTED_CHUNK_EXT SCTP_CHUNK_LIST SCTP_RANDOM SCTP_HMAC_LIST].
    change (sizeof_paramhdr + SCTP_AUTH_RANDOM_SIZE_REQUIRED) with 36. rewrite !orb_false_r, orb_true_r.
    by destruct (negb (blen p =? 36)). }
  destruct (Z.eqb_spec t SCTP_HMAC_LIST) as [->|_].
  { cbn [Z.eqb Pos.eqb orb andb SCTP_SUPPORTED_CHUNK_EXT SCTP_CHUNK_LIST SCTP_RANDOM SCTP_HMAC_LIST].
    destruct (Z.ltb_spec SCTP_PARAM_BUFFER_SIZE (blen p)); [done|].
    rewrite pull_param by (done || lia). cbn [mbind option_bind].
    destruct (verify_hmac_words p) as (v & -> & E); [lia|]. cbn [mbind option_bind].
    rewrite E, !orb_false_r, orb_true_r. by destruct (lists_sha1 (drop 4 p)). }
  destruct (Z.eqb_spec t SCTP_CHUNK_LIST) as [->|_].
  { cbn [Z.eqb Pos.eqb orb andb SCTP_SUPPORTED_CHUNK_EXT SCTP_CHUNK_LIST SCTP_RANDOM SCTP_HMAC_LIST].
    rewrite orb_false_r. destruct (Z.ltb_spec SCTP_SMALL_CHUNK_STORE (blen p)); [done|].
    rewrite pull_param by (done || lia). cbn [mbind option_bind]. rewrite param_bytes_all by lia.
    cbn [mbind option_bind]. rewrite fold_chunk, !orb_false_r. unfold sizeof_paramhdr.
    destruct (negb (blen p - 4 =? 0)); cbn; by rewrite ?orb_true_r, ?orb_false_r. }
  cbn [orb andb]. rewrite !orb_false_r. by destruct f.
Qed.

End Validate.

Definition merged (f : init_flags) (ps : list (Z * list Z)) : init_flags :=
  Flags (peer_supports_asconf f || existsb lists_asconf ps)
    (got_random f || existsb (is_type SCTP_RANDOM) ps) (got_hmacs f || existsb (is_type SCTP_HMAC_LIST) ps)
    (got_chklist f || existsb lists_chunks ps)
    (saw_asconf f || existsb (lists SCTP_CHUNK_LIST SCTP_ASCONF) ps)
    (saw_asconf_ack f || existsb (lists SCTP_CHUNK_LIST SCTP_ASCONF_ACK) ps).

Lemma run_validate ps : forall f, exists f',
  run_params validate_step ps f = (f', if existsb malformed (checked ps) then Some (-1) else None)
  /\ (existsb malformed (checked ps) = false -> f' = merged f (checked ps)).
Proof.
  induction ps as [|[t p] ps IH]; intros f; cbn [run_params checked].
  { exists f. split; [done|]. intros _. destruct f. unfold merged. cbn. by rewrite !orb_false_r. }
  unfold validate_step at 1. destruct (oversize (t, p)) eqn:Eo.
  { exists f. split; [done|]. intros _. destruct f. unfold merged. cbn. by rewrite !orb_false_r. }
  cbn [existsb]. destruct (malformed (t, p)) eqn:Em; cbn [orb]; [by exists f|].
  match goal with |- context [run_params _ ps ?g] => destruct (IH g) as (f' & -> & Hf) end.
  exists f'. split; [done|]. intros H. rewrite (Hf H). unfold merged.
  cbn [peer_supports_asconf got_random got_hmacs got_chklist saw_asconf saw_asconf_ack existsb].
  by rewrite !orb_assoc.
Qed.

(** C24. The check of the authentication parameters of an INIT: on any packet,
    however it is cut into buffers, [sctp_validate_init_auth_params] ends, stays
    inside the packet and its local buffers, and its result is the verdict of the
    rules on the parameters that the packet contains: 0 to go on, -1 or -2 to
    abort. *)
Theorem validate_init_auth_verdict m offset limit k :
  Forall in_u8 (concat m) -> 0 <= offset <= limit -> limit <= chain_len m -> limit < 2147000000 ->
  sctp_validate_init_auth_params (S (Z.to_nat (limit - offset)) + k) m offset limit
    = Some (verdict (params_in (concat m) offset limit)).
Proof.
  intros Hb Ho Hl Hs. unfold sctp_validate_init_auth_params.
  assert (params_in (concat m) offset limit = parse (S (Z.to_nat (limit - offset)) + k)
    (drop (Z.to_nat offset) (concat m)) (limit - offset)) as -> by apply parse_fuel.
  rewrite (walk_parsed _ validate_step m limit (conj Hl Hs) Hb
    (fun off t p s => validate_param_step m limit (conj Hl Hs) off t p s)) by lia.
  set (ps := parse _ _ _). cbn [mbind option_bind].
  destruct (run_validate ps (Flags false false false false false false)) as (f' & -> & Hf).
  unfold verdict. destruct (existsb malformed (checked ps)) eqn:E; [done|]. rewrite (Hf eq_refl).
  unfold validate_flags, merged. cbn [peer_supports_asconf got_random got_hmacs got_chklist saw_asconf
    saw_asconf_ack orb]. f_equal.
  destruct (existsb lists_asconf (checked ps)), (existsb lists_chunks (checked ps)),
    (existsb (is_type SCTP_RANDOM) (checked ps)), (existsb (is_type SCTP_HMAC_LIST) (checked ps)),
    (existsb (lists SCTP_CHUNK_LIST SCTP_ASCONF) (checked ps)),
    (existsb (lists SCTP_CHUNK_LIST SCTP_ASCONF_ACK) (checked ps)); reflexivity.
Qed.

(** An INIT with RANDOM and HMAC-ALGO, cut in the middle of a header. *)
Definition demo_init : list (list Z) :=
  [[0x80; 0x02; 0]; [36] ++ replicate 32 7 ++ [0x80; 0x04]; [0; 6; 0; 1; 0; 0]].

Lemma validate_init_auth_verdict_witness :
  sctp_validate_init_auth_params (S (Z.to_nat (42 - 0)) + 0) demo_init 0 42 = Some 0
  /\ verdict (params_in (concat demo_init) 0 42) = 0.
Proof.
  assert (verdict (params_in (concat demo_init) 0 42) = 0) as E by (vm_compute; reflexivity).
  split; [|exact E]. rewrite <- E.
  apply (validate_init_auth_verdict demo_init 0 42 0);
    [repeat constructor; vm_compute; congruence | lia | vm_compute; discriminate | lia].
Defined.

(** ** The random key *)

(** Appending to a buffer that is filled up to [length front]. *)
Lemma memcpy_append front rest p pos n : pos = blen front -> n = blen p -> blen p <= blen rest ->
  exists rest', block_memcpy (front ++ rest) pos p n = Some ((front ++ p) ++ rest')
    /\ blen rest' = blen rest - blen p.
Proof.
  intros -> -> H. unfold block_memcpy, blen in *. rewrite length_app.
  rewrite !(proj2 (Z.leb_le _ _)) by lia. cbn [andb]. exists (drop (length p) rest). split.
  - rewrite !Nat2Z.id, take_app_length, firstn_all, <- app_assoc. do 3 f_equal.
    rewrite drop_app_ge by lia. f_equal. lia.
  - rewrite length_drop. lia.
Qed.

Lemma some_bind {A B} (x : A) (f : A -> option B) : (Some x ≫= f) = f x.
Proof. reflexivity. Qed.

(** Append the next piece; [E] is the equation for what is left. *)
Ltac append_next rest E :=
  match goal with |- context [block_memcpy (?front ++ ?r) ?pos ?p ?n] =>
    let H := fresh in
    destruct (memcpy_append front r p pos n) as (rest & H & E);
    [ | | | rewrite H; clear H; rewrite ?some_bind; cbv beta iota] end.

(** RANDOM, CHUNKS and HMAC-ALGO with their headers and without padding. *)
Definition random_key (r cs hs : list Z) : list Z :=
  param_of (SCTP_RANDOM, r) ++ param_of (SCTP_CHUNK_LIST, cs) ++ param_of (SCTP_HMAC_LIST, hs).

(** What the receiver of the three parameters keeps. *)
Definition all_pulled (r cs hs : list Z) : pulled :=
  Pulled (Some (param_of (SCTP_RANDOM, r))) (blen r) (Some (param_of (SCTP_HMAC_LIST, hs))) (blen hs)
    (Some (param_of (SCTP_CHUNK_LIST, cs))) (blen cs).

Lemma concat_key_spec malloc r cs hs : malloc_spec malloc ->
  is_Some (malloc (blen (random_key r cs hs))) ->
  concat_random_key malloc (all_pulled r cs hs) = Some (Some (random_key r cs hs)).
Proof.
  intros Hm [key Hk]. pose proof (Hm _ _ Hk) as Hl.
  pose proof (blen_nonneg r). pose proof (blen_nonneg cs). pose proof (blen_nonneg hs).
  unfold concat_random_key, all_pulled, sctp_alloc_key, random_key in *.
  cbn [p_random random_len p_hmacs hmacs_len p_chunks n_chunks]. unfold sizeof_paramhdr.
  rewrite !blen_app, !blen_param in *. cbn [snd] in *.
  replace (4 + blen r + 4 + blen hs + (4 + blen cs)) with (4 + blen r + (4 + blen cs + (4 + blen hs))) by lia.
  rewrite Hk. fold (blen key) in Hl. change key with ([] ++ key).
  append_next k1 E1; rewrite ?blen_param; cbn [snd]; [done | done | lia |].
  append_next k2 E2; rewrite ?blen_app, ?blen_param; cbn [snd]; [done | done | rewrite E1, blen_param; cbn [snd]; lia |].
  append_next k3 E3; rewrite ?blen_app, ?blen_param; cbn [snd];
    [done | done | rewrite E2, E1, !blen_param; cbn [snd]; lia |].
  rewrite E2, E1, !blen_param in E3. cbn [snd] in E3.
  replace k3 with (@nil Z); [|destruct k3; [done | unfold blen in *; cbn in *; lia]].
  by rewrite app_nil_r, <- app_assoc.
Qed.

(** ** Making the parameters *)

Lemma count_chunks_from l : forall cs i n, drop i (chunks l) = cs -> 0 <= n -> n + blen cs < 65536 ->
  foldl (fun n i => if negb (chunk_at l (Z.of_nat i) =? 0) then u16 (n + 1) else n) n (seq i (length cs))
    = n + blen (listed_from i cs).
Proof.
  unfold blen. induction cs as [|c cs IH]; intros i n Hd Hn Hs; cbn [length seq foldl listed_from]; [cbn; lia|].
  assert (chunk_at l (Z.of_nat i) = c) as ->.
  { unfold chunk_at. rewrite Nat2Z.id, nth_lookup, <- (Nat.add_0_r i), <- lookup_drop, Hd. done. }
  assert (drop (S i) (chunks l) = cs) as Hd' by (rewrite <- Nat.add_1_r, <- drop_drop, Hd; done).
  cbn [length] in Hs. destruct (c =? 0); cbn [negb length].
  - apply IH; [done | done | lia].
  - rewrite u16_id by width_lia. rewrite IH by (done || lia). lia.
Qed.

(** The chunk types an end asks to be authenticated, in order. *)
Definition types_of (l : sctp_auth_chklist) : list Z := listed_from 0 (chunks l).

Lemma count_chunks_types l : chklist_wf l -> count_chunks l = blen (types_of l).
Proof.
  intros Hw. unfold count_chunks. replace 256%nat with (length (chunks l)) by apply (wf_length l Hw).
  rewrite (count_chunks_from l (chunks l) 0 0); [reflexivity | done | lia |]. unfold blen.
  rewrite (wf_length l Hw). lia.
Qed.

Lemma blen_types l : chklist_wf l -> blen (types_of l) = num_chunks l /\ 0 <= num_chunks l <= 252.
Proof.
  intros [Hl Hf Hn Hr]. unfold blen, types_of. rewrite (length_listed 0 (chunks l) Hf), <- Hn. split; [done|].
  rewrite Hn. by apply chklist_count_bound.
Qed.

Lemma serialize_types l room : chklist_wf l -> (256 <= length room)%nat ->
  exists b, sctp_serialize_auth_chunks (Some l) room = Some (blen (types_of l), b)
    /\ take (Z.to_nat (blen (types_of l))) b = types_of l.
Proof.
  intros Hw Hroom. destruct (blen_types l Hw) as [Hb Hn]. unfold sctp_serialize_auth_chunks, blen in *.
  replace 256%nat with (length (chunks l)) by apply (wf_length l Hw).
  rewrite (list_chunks_spec l (chunks l) 0 room 0 eq_refl) by (fold (types_of l); lia).
  cbn [mbind option_bind Nat.add]. fold (types_of l). eexists. split; [done|].
  rewrite take_0, Nat2Z.id. cbn [app]. apply take_app_length.
Qed.

(** In this build a non-empty list of identifiers is SHA-1. *)
Lemma only_sha1 l : hmaclist_wf l -> hmac_ids l <> [] -> hmac_ids l = [SCTP_AUTH_HMAC_ID_SHA1] /\ num_algo l = 1.
Proof.
  intros [Hm Ha Hn Hnd Hk] Hne.
  assert (Z.of_nat (length (hmac_ids l)) = num_algo l) as Hlen.
  { unfold hmac_ids. rewrite length_take. lia. }
  destruct (hmac_ids l) as [|x [|y ids]]; [done | |].
  - apply Forall_cons in Hk as [-> _]. split; [done|]. by rewrite <- Hlen.
  - apply Forall_cons in Hk as [-> [-> _]%Forall_cons].
    apply NoDup_cons in Hnd as [Hnd _]. exfalso. apply Hnd. left.
Qed.

Definition sha1_id : list Z := htons_bytes SCTP_AUTH_HMAC_ID_SHA1.

Lemma serialize_sha1 l : hmaclist_wf l -> hmac_ids l <> [] -> sctp_serialize_hmaclist (Some l) = (2, sha1_id).
Proof. intros Hw Hne. destruct (only_sha1 l Hw Hne) as [E En]. cbn. by rewrite E, En. Qed.

Lemma fill_key_spec rnd key l hm : chklist_wf l -> hmaclist_wf hm -> hmac_ids hm <> [] ->
  blen key = 46 + blen (types_of l) ->
  fill_random_key rnd key 32 (blen (types_of l)) 2 (Some l) (Some hm)
    = Some (random_key (random_bytes rnd 32) (types_of l) sha1_id).
Proof.
  intros Hw Hh Hne Hkey. destruct (blen_types l Hw) as [Hb Hn]. unfold fill_random_key, put_header.
  remember (list_chunks 256 0 l) as write eqn:Ew.
  unfold sizeof_paramhdr. change (4 + 32) with 36. change key with ([] ++ key).
  assert (blen (random_bytes rnd 32) = 32) as Hr
    by (unfold blen, random_bytes; by rewrite length_map, length_seq).
  append_next k1 E1; [done | by rewrite blen_header | rewrite blen_header; lia |]. rewrite blen_header in E1.
  append_next k2 E2; [by rewrite blen_app, blen_header | by rewrite Hr | rewrite E1, Hr; lia |].
  replace (u16 36) with 36 by reflexivity.
  append_next k3 E3; [rewrite !blen_app, Hr, blen_header; reflexivity | by rewrite blen_header
    | rewrite E2, E1, Hr, blen_header; lia |]. rewrite blen_header in E3.
  replace (u16 (36 + 4)) with 40 by reflexivity.
  match goal with |- context [write (?f ++ k3)] => set (front := f) end.
  assert (blen front = 40) as Hf.
  { unfold front. rewrite !blen_app, Hr, !blen_header. reflexivity. }
  assert (write (front ++ k3) (Z.to_nat 40) = Some ((Z.to_nat 40 + length (types_of l))%nat,
    front ++ types_of l ++ drop (Z.to_nat 40 + length (types_of l)) (front ++ k3))) as ->.
  { rewrite Ew. replace 256%nat with (length (chunks l)) by apply (wf_length l Hw).
    rewrite (list_chunks_spec l (chunks l) 0 _ (Z.to_nat 40) eq_refl); fold (types_of l).
    - by rewrite take_app_length' by (unfold blen in Hf; lia).
    - rewrite length_app. unfold blen in *. lia. }
  clear Ew write. cbn [mbind option_bind].
  assert (Z.of_nat (Z.to_nat 40 + length (types_of l)) = 40 + blen (types_of l)) as EN by (unfold blen; lia).
  rewrite EN, (u16_id (40 + _)), (u16_id (40 + _ + 4)) by width_lia. rewrite app_assoc.
  set (k4 := drop _ _).
  assert (blen k4 = 6) as E4.
  { unfold k4, blen in *. rewrite length_drop, length_app. lia. }
  append_next k5 E5; [rewrite blen_app; lia | by rewrite blen_header | rewrite E4, blen_header; lia |].
  rewrite blen_header in E5. rewrite (serialize_sha1 hm Hh Hne).
  append_next k6 E6; [rewrite !blen_app, Hf, blen_header; reflexivity | done | rewrite E5, E4; done |].
  change (blen sha1_id) with 2 in E6.
  replace k6 with (@nil Z); [|destruct k6; [done | unfold blen in *; cbn in *; lia]].
  rewrite app_nil_r. unfold front, random_key, param_of. cbn [fst snd]. rewrite Hr, <- !app_assoc. done.
Qed.

Lemma copy_skeylist_some malloc ok src : malloc_spec malloc -> forall dest,
  exists n keys, sctp_copy_skeylist malloc ok src dest = Some (n, keys).
Proof.
  intros Hm. induction src as [|k src IH]; intros dest; cbn [sctp_copy_skeylist]; [by eexists _, _|].
  assert (exists n, sctp_copy_sharedkey malloc (ok (length src)) k = Some n) as [n ->].
  { unfold sctp_copy_sharedkey, sctp_set_key, sctp_alloc_key. destruct (sctp_alloc_sharedkey _); [|by eexists].
    destruct (sk_key k) as [b|]; [|by eexists]. destruct (malloc _) as [buf|] eqn:E; [|by eexists].
    apply Hm in E. unfold sctp_get_keylen in *. rewrite memcpy_inside by lia. by eexists. }
  rewrite some_bind. destruct n as [n|].
  - destruct (sctp_insert_sharedkey dest (Some n)) as [r dest']. destruct (IH dest') as (c & keys & ->).
    rewrite some_bind. by eexists _, _.
  - destruct (IH dest) as (c & keys & ->). rewrite some_bind. by eexists _, _.
Qed.

(** An endpoint that offers authentication. *)
Record offers (e : auth_ep) (l : sctp_auth_chklist) (h : sctp_hmaclist) : Prop := Offers {
  of_chunks : ep_local_auth_chunks e = Some l;
  of_hmacs : ep_local_hmacs e = Some h;
  of_chunks_wf : chklist_wf l;
  of_hmacs_wf : hmaclist_wf h;
  of_some : hmac_ids h <> []
}.

Lemma copied_ids h g : hmaclist_wf h -> Z.of_nat (length g) = max_algo h ->
  let c := HmacList (max_algo h) (num_algo h) (hmac_ids h ++ drop (Z.to_nat (num_algo h)) g) in
  hmaclist_wf c /\ hmac_ids c = hmac_ids h.
Proof.
  intros [Hm Ha Hn Hnd Hk] Hg c.
  assert (length (hmac_ids h) = Z.to_nat (num_algo h)) as Hl.
  { unfold hmac_ids. rewrite length_take. lia. }
  assert (hmac_ids c = hmac_ids h) as E.
  { unfold hmac_ids at 1. unfold c. cbn [num_algo hmac]. by apply take_app_length'. }
  split; [|done]. constructor; rewrite ?E; unfold c; cbn [max_algo num_algo hmac]; try done.
  rewrite length_app, length_drop, Hl. lia.
Qed.

Section Agreement.

Context (malloc : Z -> option (list Z)) (hmac_memory : Z -> option (list Z)).
Context (skey_ok : nat -> bool) (rnd : nat -> Z).
Hypothesis Hmalloc : malloc_spec malloc.
Hypothesis Hmemory : forall n, 0 <= n -> exists g, hmac_memory n = Some g /\ Z.of_nat (length g) = n.

Definition the_key (rnd : nat -> Z) (l : sctp_auth_chklist) : list Z :=
  random_key (random_bytes rnd 32) (types_of l) sha1_id.

Lemma blen_the_key l : blen (the_key rnd l) = 46 + blen (types_of l).
Proof.
  unfold the_key, random_key. rewrite !blen_app, !blen_param. cbn [snd].
  change (blen sha1_id) with 2. unfold blen at 1, random_bytes. rewrite length_map, length_seq. lia.
Qed.

(** The parameters as they go on the wire. *)
Definition auth_params (rnd : nat -> Z) (l : sctp_auth_chklist) : list (Z * list Z) :=
  [(SCTP_RANDOM, random_bytes rnd 32); (SCTP_HMAC_LIST, sha1_id); (SCTP_CHUNK_LIST, types_of l)].

Lemma initialize_spec e a l h : offers e l h -> is_Some (malloc (blen (the_key rnd l))) ->
  exists a', sctp_initialize_auth_params malloc hmac_memory true skey_ok rnd e a = Some a'
    /\ ai_random (authinfo a') = Some (the_key rnd l) /\ ai_random_len (authinfo a') = 32
    /\ local_auth_chunks a' = Some l
    /\ (exists c, local_hmacs a' = Some c /\ hmaclist_wf c /\ hmac_ids c = hmac_ids h).
Proof.
  intros [El Eh Hw Hh Hne] [key Hkey]. pose proof (Hmalloc _ _ Hkey) as Hlen. rewrite blen_the_key in Hkey, Hlen.
  destruct (blen_types l Hw) as [Hb Hn]. destruct (Hmemory (max_algo h)) as (g & Hg & Hgl); [apply (hw_max _ Hh)|].
  destruct (copied_ids h g Hh Hgl) as [Hc Hids]. destruct (only_sha1 h Hh Hne) as [_ Hnum].
  unfold sctp_initialize_auth_params. rewrite El, Eh, Hg. unfold sctp_copy_hmaclist, sctp_alloc_hmaclist.
  rewrite !some_bind. replace (sctp_copy_chunklist true (Some l)) with (Some l) by reflexivity.
  cbn [hmac num_algo].
  destruct (copy_skeylist_some malloc skey_ok (ep_shared_keys e) Hmalloc (shared_keys a)) as (n & keys & Ek).
  cbn [shared_keys set_authinfo set_local_chunks set_local_hmacs]. rewrite Ek, some_bind.
  rewrite (count_chunks_types l Hw), Hnum. replace (u16 (1 * 2)) with 2 by reflexivity.
  rewrite u16_id by (unfold sizeof_paramhdr, SCTP_AUTH_RANDOM_SIZE_DEFAULT; width_lia).
  unfold sctp_alloc_key, sizeof_paramhdr, SCTP_AUTH_RANDOM_SIZE_DEFAULT.
  replace (3 * 4 + 32 + blen (types_of l) + 2) with (46 + blen (types_of l)) by lia. rewrite Hkey.
  rewrite Hnum in Hc, Hids. rewrite (fill_key_spec rnd key l _ Hw Hc) by (rewrite ?Hids; done).
  rewrite !some_bind. eexists. split; [reflexivity|]. cbn. split_and!; [done | done | done |].
  eexists. split; [done|]. by split.
Qed.

Lemma initiate_spec a l h room st : chklist_wf l -> hmaclist_wf h -> hmac_ids h <> [] ->
  (256 <= length room)%nat ->
  ai_random (authinfo a) = Some (the_key rnd l) -> ai_random_len (authinfo a) = 32 ->
  local_auth_chunks a = Some l -> local_hmacs a = Some h ->
  initiate_auth_params true a room st = Some (foldl put_param st (map param_of (auth_params rnd l))).
Proof.
  intros Hw Hh Hne Hroom Hr Hrl Hl Hhm. destruct (blen_types l Hw) as [Hb Hn].
  unfold initiate_auth_params. rewrite Hr, Hrl, Hl, Hhm. cbn [negb].
  replace (u16 (sizeof_paramhdr + 32)) with 36 by reflexivity.
  rewrite (proj2 (Z.leb_le 36 _)) by (rewrite blen_the_key; lia). rewrite some_bind.
  destruct (serialize_types l room Hw Hroom) as (b & -> & Ht). rewrite some_bind, (serialize_sha1 h Hh Hne).
  destruct (only_sha1 h Hh Hne) as [_ ->]. cbn [sctp_auth_get_chklist_size snd]. rewrite <- Hb, Ht.
  cbn [auth_params map foldl].
  assert (take (Z.to_nat 36) (the_key rnd l) = param_of (SCTP_RANDOM, random_bytes rnd 32)) as ->.
  { unfold the_key, random_key. apply take_app_length'. unfold param_of, random_bytes. cbn [fst snd].
    by rewrite length_app, length_map, length_seq. }
  reflexivity.
Qed.

Lemma initiate_ack_spec e l h room st : offers e l h -> (256 <= length room)%nat ->
  initiate_ack_auth_params true rnd e room st
    = Some (foldl put_param st (map param_of (auth_params rnd l))).
Proof.
  intros [El Eh Hw Hh Hne] Hroom. unfold initiate_ack_auth_params. rewrite El, Eh. cbn [negb].
  rewrite (serialize_sha1 h Hh Hne). destruct (serialize_types l room Hw Hroom) as (b & -> & Ht).
  rewrite some_bind, Ht. cbn [auth_params map foldl]. unfold param_of. cbn [fst snd].
  replace (blen (random_bytes rnd 32)) with 32; [reflexivity|].
  unfold blen, random_bytes. by rewrite length_map, length_seq.
Qed.

End Agreement.

(** The parameters put into a packet one after the other. *)
Definition build (X : list Z) (ps : list (Z * list Z)) : list Z * Z :=
  foldl put_param (X, 0) (map param_of ps).

Lemma foldl_put ps : forall B n,
  (foldl put_param (B, n) (map param_of ps)).1
    = B ++ match ps with [] => [] | _ :: _ => replicate (Z.to_nat n) 0 ++ encode ps end.
Proof.
  induction ps as [|p ps IH]; intros B n; cbn [map foldl]; [by rewrite app_nil_r|].
  unfold put_param at 2. cbn [fst snd]. rewrite IH. cbn [encode]. unfold padding. by rewrite <- !app_assoc.
Qed.

Lemma build_encode X ps : (build X ps).1 = X ++ encode ps.
Proof. unfold build. rewrite foldl_put. by destruct ps. Qed.

(** ** The receiver of the parameters *)

Definition auth_types : list Z := [SCTP_RANDOM; SCTP_HMAC_LIST; SCTP_CHUNK_LIST].

(** A parameter that is not about authentication and lets the loop go on. *)
Definition passes (p : Z * list Z) : bool :=
  if existsb (Z.eqb p.1) other_types then true
  else if p.1 =? SCTP_SUPPORTED_CHUNK_EXT then blen p.2 <=? 508
  else negb (existsb (Z.eqb p.1) auth_types)
       && (existsb (Z.eqb p.1) skipped_types || negb (Z.land p.1 0x8000 =? 0)).

Definition ext_types (ps : list (Z * list Z)) : list Z :=
  concat (map (fun p => if p.1 =? SCTP_SUPPORTED_CHUNK_EXT then p.2 else []) ps).

Lemma fold_load_extension types : forall s, foldl load_extension s types
  = Load (ld_asoc s) (ld_peer_chunks s) (ld_pulled s)
      (let f := ld_flags s in
       Flags (peer_supports_asconf f || existsb (Z.eqb SCTP_ASCONF) types) (got_random f) (got_hmacs f)
         (got_chklist f) (saw_asconf f) (saw_asconf_ack f))
      (ld_auth s || existsb (Z.eqb SCTP_AUTHENTICATION) types)
      (ld_asconf_ack s || existsb (Z.eqb SCTP_ASCONF_ACK) types).
Proof.
  induction types as [|c types IH]; intros s; cbn [foldl existsb].
  { destruct s as [? ? ? [] ? ?]. cbn. by rewrite !orb_false_r. }
  rewrite IH. unfold load_extension. rewrite !(Z.eqb_sym c).
  destruct (Z.eqb_spec SCTP_ASCONF c) as [<-|]; [cbn; by rewrite ?orb_true_r|].
  destruct (Z.eqb_spec SCTP_ASCONF_ACK c) as [<-|]; [cbn; by rewrite ?orb_true_r|].
  by destruct (Z.eqb_spec SCTP_AUTHENTICATION c) as [<-|]; cbn; rewrite ?orb_true_r.
Qed.

Lemma param_bytes_of t v : param_bytes (param_of (t, v)) (blen v) = Some v.
Proof.
  unfold param_bytes. rewrite blen_param. cbn [snd]. rewrite (proj2 (Z.leb_le _ _)) by (unfold sizeof_paramhdr; lia).
  change (drop (Z.to_nat sizeof_paramhdr) (param_of (t, v))) with v. f_equal. apply take_ge. unfold blen. lia.
Qed.

(** Pull a parameter of at most 508 bytes of value. *)
Lemma pull_small m limit (Hlimit : limit <= chain_len m /\ limit < 2147000000) p off :
  0 <= off -> blen p.2 <= 508 -> off + blen (param_of p) <= limit ->
  region (concat m) off (blen (param_of p)) = param_of p ->
  sctp_get_next_param m off (blen (param_of p)) SCTP_PARAM_BUFFER_SIZE = Some (Some (param_of p))
  /\ (SCTP_PARAM_BUFFER_SIZE <? blen (param_of p)) = false
  /\ u16 (blen (param_of p) - sizeof_paramhdr) = blen p.2.
Proof.
  intros Ho Hs Hl Hr. pose proof (blen_nonneg p.2). pose proof (blen_param p).
  unfold SCTP_PARAM_BUFFER_SIZE, sizeof_paramhdr. split_and!.
  - apply (pull_param m limit); done || lia.
  - apply Z.ltb_ge. lia.
  - rewrite u16_id by width_lia. lia.
Qed.

Section Receiver.

Context (hmac_memory : Z -> option (list Z)) (other : Z -> Z -> Z -> option Z).
Context (m : list (list Z)) (limit : Z).
Hypothesis Hlimit : limit <= chain_len m /\ limit < 2147000000.
Hypothesis Hother : forall t off n, other t off n = None.

#[local] Abbreviation lparam := (load_param hmac_memory true other m).
#[local] Abbreviation ltakes := (takes lparam m limit).

Lemma load_passes p s : passes p = true ->
  ltakes p s (if p.1 =? SCTP_SUPPORTED_CHUNK_EXT then foldl load_extension s p.2 else s).
Proof.
  intros Hp off Ho Hl Hr. unfold load_param, passes in *.
  destruct (existsb (Z.eqb p.1) other_types) eqn:Et.
  { rewrite Hother. destruct (Z.eqb_spec p.1 SCTP_SUPPORTED_CHUNK_EXT) as [E|]; [|done].
    rewrite E in Et. done. }
  destruct (Z.eqb_spec p.1 SCTP_SUPPORTED_CHUNK_EXT) as [E|E].
  - apply Z.leb_le in Hp. pose proof (blen_nonneg p.2). pose proof (blen_param p).
    rewrite (proj2 (Z.ltb_ge _ _)) by (unfold SCTP_PARAM_BUFFER_SIZE; lia).
    rewrite (pull_param m limit) by (done || (unfold SCTP_PARAM_BUFFER_SIZE; lia)). rewrite some_bind.
    rewrite (proj2 (Z.ltb_ge _ sizeof_paramhdr)) by (unfold sizeof_paramhdr; lia).
    replace (blen (param_of p) - sizeof_paramhdr) with (blen p.2) by (unfold sizeof_paramhdr; lia).
    destruct p as [t v]. by rewrite param_bytes_of, some_bind.
  - apply andb_true_iff in Hp as [Ha Hp]. cbn [auth_types existsb] in Ha. rewrite !negb_orb in Ha.
    apply andb_true_iff in Ha as [H1 Ha]. apply andb_true_iff in Ha as [H2 Ha]. apply andb_true_iff in Ha as [H3 _].
    apply negb_true_iff in H1 as ->. apply negb_true_iff in H2 as ->. apply negb_true_iff in H3 as ->.
    destruct (existsb (Z.eqb p.1) skipped_types); [done|]. cbn [orb] in Hp. by apply negb_true_iff in Hp as ->.
Qed.

Lemma load_pass_all ps : Forall (fun p => passes p = true) ps ->
  forall s, takes_all lparam m limit ps s (foldl load_extension s (ext_types ps)).
Proof.
  induction 1 as [|p ps Hp _ IH]; intros s; [constructor|].
  econstructor; [by apply load_passes|]. unfold ext_types. cbn [map concat].
  rewrite foldl_app. destruct (p.1 =? SCTP_SUPPORTED_CHUNK_EXT); apply IH.
Qed.

Definition three_loaded (rnd : nat -> Z) (l : sctp_auth_chklist) (s : load_state) : load_state :=
  let f := ld_flags s in
  Load (set_peer_hmacs (ld_asoc s) (hmaclist_of (hmac_memory 1) 1 [SCTP_AUTH_HMAC_ID_SHA1]))
    (chklist_of true (ld_peer_chunks s) (types_of l))
    (all_pulled (random_bytes rnd 32) (types_of l) sha1_id)
    (Flags (peer_supports_asconf f) true true true (saw_asconf f || existsb (Z.eqb SCTP_ASCONF) (types_of l))
       (saw_asconf_ack f || existsb (Z.eqb SCTP_ASCONF_ACK) (types_of l)))
    (ld_auth s) (ld_asconf_ack s).

Lemma load_three rnd l s : chklist_wf l ->
  got_random (ld_flags s) = false -> got_hmacs (ld_flags s) = false -> got_chklist (ld_flags s) = false ->
  takes_all lparam m limit (auth_params rnd l) s (three_loaded rnd l s).
Proof.
  intros Hw Hr Hh Hc. destruct (blen_types l Hw) as [Hb Hn].
  assert (blen (random_bytes rnd 32) = 32) as Hr32 by (unfold blen, random_bytes; by rewrite length_map, length_seq).
  econstructor; [|econstructor; [|econstructor; [|constructor]]].
  - intros off Ho Hl Hreg. destruct (pull_small m limit Hlimit (SCTP_RANDOM, random_bytes rnd 32) off Ho ltac:(cbn [snd]; lia) Hl Hreg) as (Ep & Es & Eu).
    unfold load_param. cbn [existsb fst other_types]. rewrite Es, Hr, Ep. cbn [Z.eqb Pos.eqb orb SCTP_RANDOM
      SCTP_SUPPORTED_CHUNK_EXT]. rewrite some_bind, Eu. cbn [snd]. rewrite Hr32. reflexivity.
  - intros off Ho Hl Hreg. destruct (pull_small m limit Hlimit (SCTP_HMAC_LIST, sha1_id) off Ho ltac:(done) Hl Hreg) as (Ep & Es & Eu).
    unfold load_param. cbn [existsb fst other_types ld_flags got_hmacs]. rewrite Es, Hh, Ep.
    cbn [Z.eqb Pos.eqb orb SCTP_HMAC_LIST SCTP_RANDOM SCTP_SUPPORTED_CHUNK_EXT]. rewrite some_bind, Eu. reflexivity.
  - intros off Ho Hl Hreg. destruct (pull_small m limit Hlimit (SCTP_CHUNK_LIST, types_of l) off Ho ltac:(cbn [snd]; lia) Hl Hreg) as (Ep & Es & Eu).
    unfold load_param. cbn [existsb fst other_types ld_flags got_chklist]. rewrite Es, Hc, Ep.
    cbn [Z.eqb Pos.eqb orb SCTP_HMAC_LIST SCTP_RANDOM SCTP_SUPPORTED_CHUNK_EXT SCTP_CHUNK_LIST].
    rewrite some_bind, Eu. cbn [snd]. rewrite param_bytes_of, some_bind, fold_chunk.
    unfold three_loaded, all_pulled. cbn [ld_asoc ld_peer_chunks ld_pulled ld_flags ld_auth ld_asconf_ack
      p_random random_len p_hmacs hmacs_len p_chunks n_chunks peer_supports_asconf got_random got_hmacs
      saw_asconf saw_asconf_ack]. rewrite Hr32. reflexivity.
Qed.

End Receiver.

Lemma auth_params_wf rnd l : chklist_wf l -> Forall wf_param (auth_params rnd l).
Proof.
  intros Hw. destruct (blen_types l Hw) as [Hb Hn]. unfold auth_params.
  assert (blen (random_bytes rnd 32) = 32) as Hr by (unfold blen, random_bytes; by rewrite length_map, length_seq).
  repeat constructor; cbn [snd]; rewrite ?Hr; try done; lia.
Qed.

Lemma ext_types_app ps ps' : ext_types (ps ++ ps') = ext_types ps ++ ext_types ps'.
Proof. unfold ext_types. by rewrite map_app, concat_app. Qed.

Lemma clear_keys_random a k : authinfo (sctp_clear_cachedkeys a k) = authinfo a
  \/ (ai_random (authinfo (sctp_clear_cachedkeys a k)) = ai_random (authinfo a)
      /\ ai_random_len (authinfo (sctp_clear_cachedkeys a k)) = ai_random_len (authinfo a)
      /\ ai_peer_random (authinfo (sctp_clear_cachedkeys a k)) = ai_peer_random (authinfo a)).
Proof.
  right. unfold sctp_clear_cachedkeys. destruct (k =? ai_assoc_keyid (authinfo a)); cbn [authinfo set_authinfo];
    destruct (_ =? _); done.
Qed.

(** The packet of an end that offers authentication with the extensions of
    [ps]; ASCONF needs the two ASCONF chunk types to be authenticated. *)
Definition offer_ok (ps : list (Z * list Z)) (l : sctp_auth_chklist) : Prop :=
  existsb (Z.eqb SCTP_AUTHENTICATION) (ext_types ps) = true
  /\ (existsb (Z.eqb SCTP_ASCONF) (ext_types ps) = true ->
      existsb (Z.eqb SCTP_ASCONF) (types_of l) = true /\ existsb (Z.eqb SCTP_ASCONF_ACK) (types_of l) = true).

Section LoadSpec.

Context (malloc hmac_memory : Z -> option (list Z)) (other : Z -> Z -> Z -> option Z).
Hypothesis Hmalloc : malloc_spec malloc.
Hypothesis Hother : forall t off n, other t off n = None.

Lemma load_spec rnd l ack0 auth asconf b pc m X pre post Y k :
  let ps := pre ++ auth_params rnd l ++ post in
  let limit := blen X + blen (encode ps) in
  chklist_wf l -> is_Some (malloc (blen (the_key rnd l))) ->
  Forall wf_param (pre ++ post) -> Forall (fun p => passes p = true) (pre ++ post) -> offer_ok (pre ++ post) l ->
  concat m = X ++ encode ps ++ Y -> limit < 2147000000 ->
  exists b' asconf', load_auth_params malloc hmac_memory true other (length ps + k) ack0 auth asconf b pc m (blen X) limit
      = Some (0, b', chklist_of true pc (types_of l), (auth, asconf'))
    /\ ai_peer_random (authinfo b') = Some (the_key rnd l)
    /\ peer_hmacs b' = hmaclist_of (hmac_memory 1) 1 [SCTP_AUTH_HMAC_ID_SHA1].
Proof using Hmalloc Hother.
  intros ps limit Hw Hkey Hwf Hpass [Hauth Hasc] Hm Hlim.
  apply Forall_app in Hwf as [Hwf1 Hwf2]. apply Forall_app in Hpass as [Hp1 Hp2].
  rewrite ext_types_app, existsb_app in Hauth. rewrite ext_types_app, existsb_app in Hasc.
  assert (limit <= chain_len m /\ limit < 2147000000) as Hl.
  { split; [|done]. unfold chain_len, limit. rewrite Hm. unfold blen. rewrite !length_app. lia. }
  pose proof (blen_nonneg X). pose proof (blen_nonneg (encode ps)).
  set (s0 := Load b pc nothing_pulled (Flags false false false false false false) false ack0).
  assert (exists s, takes_all (load_param hmac_memory true other m) m limit ps s0 s
    /\ s = foldl load_extension (three_loaded hmac_memory rnd l (foldl load_extension s0 (ext_types pre))) (ext_types post))
    as (s & Htk & Es).
  { eexists. split; [|done]. apply takes_app with (s' := foldl load_extension s0 (ext_types pre)).
    { by apply load_pass_all. }
    eapply takes_app; [|by apply load_pass_all].
    by apply load_three; rewrite ?fold_load_extension. }
  unfold load_auth_params.
  rewrite (walk_encoded i32 _ _ _ m limit Hl) with (ps := ps) (Y := Y) (s' := s); try done; try lia.
  - rewrite some_bind. unfold load_finish. rewrite Es, !fold_load_extension. unfold three_loaded.
    cbn [ld_asoc ld_peer_chunks ld_pulled ld_flags ld_auth ld_asconf_ack peer_supports_asconf got_random got_hmacs
      got_chklist saw_asconf saw_asconf_ack orb s0 negb andb].
    rewrite Hauth. cbn [negb andb]. rewrite !andb_true_r, andb_false_r.
    rewrite (concat_key_spec malloc _ _ _ Hmalloc Hkey).
    destruct (existsb (Z.eqb SCTP_ASCONF) (ext_types pre) || existsb (Z.eqb SCTP_ASCONF) (ext_types post)) eqn:E;
      [destruct (Hasc eq_refl) as [-> ->]|]; cbn [negb andb orb]; rewrite !some_bind; eexists _, _;
      (split; [done|]); split; unfold sctp_clear_cachedkeys; repeat (destruct (_ =? _)); reflexivity.
  - intros z Hz. apply i32_id. width_lia.
  - intros off plen H1 H2 H3. rewrite i32_id by width_lia.
    rewrite (proj2 (Z.ltb_ge limit _)), (proj2 (Z.eqb_neq plen 0)) by lia. done.
  - unfold ps. by destruct pre.
  - unfold ps. apply Forall_app. split; [done|]. apply Forall_app. split; [by apply auth_params_wf | done].
Qed.

End LoadSpec.

(** The lists are rebuilt from the parameters. *)
Lemma chklist_rebuilt l pc : chklist_wf l -> chklist_of true pc (types_of l) = Some l.
Proof.
  intros Hw. unfold chklist_of. destruct (listed_members l Hw) as [Hr Hmem]. fold (types_of l) in Hr, Hmem.
  assert (match pc with Some _ => Some sctp_clear_chunklist | None => sctp_alloc_chunklist true end
    = Some sctp_clear_chunklist) as -> by (by destruct pc).
  rewrite <- (rebuild l (types_of l) Hw Hr Hmem) at 2. generalize sctp_clear_chunklist as x. clear Hr Hmem.
  induction (types_of l) as [|c cs IH]; intros x; [done|]. cbn [foldl].
  assert ((sctp_auth_add_chunk c (Some x)).2 = Some (add_chunk x c)) as ->; [|apply IH].
  unfold add_chunk, sctp_auth_add_chunk. by destruct (restricted c); [|destruct (_ =? 0)].
Qed.

Lemma sha1_rebuilt memory : (exists g, memory = Some g /\ Z.of_nat (length g) = 1) ->
  exists c, hmaclist_of memory 1 [SCTP_AUTH_HMAC_ID_SHA1] = Some c /\ hmac_ids c = [SCTP_AUTH_HMAC_ID_SHA1].
Proof.
  intros (g & -> & Hg). destruct g as [|x [|y g]]; cbn in Hg; [lia | | lia]. eexists. split; reflexivity.
Qed.

Lemma passes_not_auth p : passes p = true ->
  (p.1 =? SCTP_RANDOM) = false /\ (p.1 =? SCTP_HMAC_LIST) = false /\ (p.1 =? SCTP_CHUNK_LIST) = false.
Proof.
  unfold passes. intros Hp. rewrite !Z.eqb_neq.
  split_and!; intros E; rewrite E in Hp; done.
Qed.

Section CookieSpec.

Context (malloc hmac_memory : Z -> option (list Z)) (skey_ok : nat -> bool).
Hypothesis Hmalloc : malloc_spec malloc.
Context (m : list (list Z)) (limit : Z).
Hypothesis Hlimit : limit <= chain_len m /\ limit < 2147000000.

#[local] Abbreviation cparam := (cookie_param hmac_memory true m).

Lemma cookie_pass_all ps : Forall (fun p => passes p = true) ps -> forall s, takes_all cparam m limit ps s s.
Proof.
  induction 1 as [|p ps Hp _ IH]; intros s; [constructor|]. econstructor; [|apply IH].
  intros off _ _ _. destruct (passes_not_auth p Hp) as (H1 & H2 & H3). unfold cookie_param.
  destruct s as [a v]. by rewrite H1, H2, H3.
Qed.

Lemma cookie_three rnd l a : chklist_wf l -> (exists g, hmac_memory 1 = Some g) ->
  takes_all cparam m limit (auth_params rnd l) (a, nothing_pulled)
    (set_local_chunks (set_local_hmacs a (hmaclist_of (hmac_memory 1) 1 [SCTP_AUTH_HMAC_ID_SHA1]))
       (chklist_of true (local_auth_chunks a) (types_of l)),
     all_pulled (random_bytes rnd 32) (types_of l) sha1_id).
Proof using Hlimit.
  intros Hw [g Hg]. destruct (blen_types l Hw) as [Hb Hn].
  assert (blen (random_bytes rnd 32) = 32) as Hr32 by (unfold blen, random_bytes; by rewrite length_map, length_seq).
  assert (forall p off, 0 <= off -> off + blen (param_of p) <= limit -> i32 off = off) as Hi.
  { intros p off Ho Hl. apply i32_id. pose proof (blen_nonneg (param_of p)). width_lia. }
  econstructor; [|econstructor; [|econstructor; [|constructor]]]; intros off Ho Hl Hreg;
    pose proof (Hi _ off Ho Hl) as Eo; unfold cookie_param; cbn [fst].
  - destruct (pull_small m limit Hlimit (SCTP_RANDOM, random_bytes rnd 32) off Ho ltac:(cbn [snd]; lia) Hl Hreg)
      as (Ep & Es & Eu).
    rewrite Es, Eo, Ep. cbn [Z.eqb Pos.eqb SCTP_RANDOM]. rewrite some_bind, Eu. reflexivity.
  - destruct (pull_small m limit Hlimit (SCTP_HMAC_LIST, sha1_id) off Ho ltac:(done) Hl Hreg) as (Ep & Es & Eu).
    rewrite Es, Eo, Ep. cbn [Z.eqb Pos.eqb SCTP_HMAC_LIST SCTP_RANDOM]. rewrite some_bind, Eu.
    change (blen (SCTP_HMAC_LIST, sha1_id).2 / 2) with 1. rewrite Hg. reflexivity.
  - destruct (pull_small m limit Hlimit (SCTP_CHUNK_LIST, types_of l) off Ho ltac:(cbn [snd]; lia) Hl Hreg)
      as (Ep & Es & Eu).
    rewrite Es, Eo, Ep. cbn [Z.eqb Pos.eqb SCTP_HMAC_LIST SCTP_RANDOM SCTP_CHUNK_LIST].
    rewrite some_bind, Eu. cbn [snd]. rewrite param_bytes_of, some_bind, Hg. reflexivity.
Qed.

Lemma cookie_finish_spec e a rnd l : is_Some (malloc (blen (the_key rnd l))) ->
  exists a', cookie_finish malloc skey_ok e a (all_pulled (random_bytes rnd 32) (types_of l) sha1_id) = Some a'
    /\ ai_random (authinfo a') = Some (the_key rnd l) /\ ai_random_len (authinfo a') = 32
    /\ local_auth_chunks a' = local_auth_chunks a /\ local_hmacs a' = local_hmacs a
    /\ peer_hmac_id a' = sctp_negotiate_hmacid (peer_hmacs a) (local_hmacs a).
Proof using Hmalloc.
  intros Hkey. unfold cookie_finish. rewrite (concat_key_spec malloc _ _ _ Hmalloc Hkey), some_bind.
  cbn [random_len all_pulled].
  replace (blen (random_bytes rnd 32)) with 32 by (unfold blen, random_bytes; by rewrite length_map, length_seq).
  match goal with |- context [sctp_copy_skeylist malloc skey_ok ?x ?y] =>
    destruct (copy_skeylist_some malloc skey_ok x Hmalloc y) as (n & keys & ->) end.
  rewrite some_bind. eexists. split; [reflexivity|]. fold (the_key rnd l).
  cbn [authinfo set_shared_keys set_authinfo set_peer_hmac_id local_auth_chunks local_hmacs peer_hmac_id].
  unfold sctp_clear_cachedkeys. repeat (destruct (_ =? _)); repeat split.
Qed.

End CookieSpec.

Lemma cookie_spec malloc hmac_memory skey_ok rnd l e a m X pre post Y k :
  let ps := pre ++ auth_params rnd l ++ post in
  malloc_spec malloc -> (exists g, hmac_memory 1 = Some g /\ Z.of_nat (length g) = 1) ->
  chklist_wf l -> is_Some (malloc (blen (the_key rnd l))) ->
  Forall wf_param (pre ++ post) -> Forall (fun p => passes p = true) (pre ++ post) ->
  concat m = X ++ encode ps ++ Y -> blen X + blen (encode ps) < 2147000000 ->
  exists a', sctp_auth_get_cookie_params malloc hmac_memory true skey_ok (length ps + k) e a m (blen X)
      (blen (encode ps)) = Some a'
    /\ ai_random (authinfo a') = Some (the_key rnd l) /\ ai_random_len (authinfo a') = 32
    /\ local_auth_chunks a' = Some l
    /\ exists c, local_hmacs a' = Some c /\ hmac_ids c = [SCTP_AUTH_HMAC_ID_SHA1]
         /\ peer_hmac_id a' = sctp_negotiate_hmacid (peer_hmacs a) (Some c).
Proof.
  intros ps Hm (g & Hg & Hgl) Hw Hkey Hwf Hpass Hc Hlim.
  apply Forall_app in Hwf as [Hwf1 Hwf2]. apply Forall_app in Hpass as [Hp1 Hp2].
  set (limit := blen X + blen (encode ps)) in *. pose proof (blen_nonneg X). pose proof (blen_nonneg (encode ps)).
  assert (limit <= chain_len m /\ limit < 2147000000) as Hl.
  { split; [|done]. unfold chain_len, limit. rewrite Hc. unfold blen. rewrite !length_app. lia. }
  unfold sctp_auth_get_cookie_params. rewrite (u32_id (blen (encode ps) + blen X)) by width_lia.
  replace (blen (encode ps) + blen X) with limit by (unfold limit; lia).
  match goal with |- context [walk_from u32 _ _ _ _ _ _ ?s0] =>
    assert (exists s, takes_all (cookie_param hmac_memory true m) m limit ps s0 s
      /\ s = (set_local_chunks (set_local_hmacs a (hmaclist_of (hmac_memory 1) 1 [SCTP_AUTH_HMAC_ID_SHA1]))
               (chklist_of true (local_auth_chunks a) (types_of l)),
             all_pulled (random_bytes rnd 32) (types_of l) sha1_id)) as (s & Htk & Es) end.
  { eexists. split; [|done]. eapply takes_app; [by apply cookie_pass_all|].
    eapply takes_app; [|by apply cookie_pass_all]. apply cookie_three; [done | done | by exists g]. }
  rewrite (walk_encoded u32 _ _ _ m limit Hl) with (ps := ps) (Y := Y) (s' := s); try done; try lia.
  - rewrite some_bind, Es.
    match goal with |- context [cookie_finish _ _ e ?a1 _] =>
      destruct (cookie_finish_spec malloc skey_ok Hm e a1 rnd l Hkey) as (a' & -> & H1 & H2 & H3 & H4 & H5) end.
    exists a'. split; [done|]. split; [done|]. split; [done|].
    rewrite H3, H4, H5. cbn [local_auth_chunks local_hmacs peer_hmacs set_local_chunks set_local_hmacs].
    split; [by apply chklist_rebuilt|]. destruct (sha1_rebuilt (hmac_memory 1)) as (c & -> & Ec); [by exists g|].
    by exists c.
  - intros z Hz. apply u32_id. width_lia.
  - intros off plen Ho Hpl Hle. rewrite u32_id by width_lia.
    rewrite (proj2 (Z.eqb_neq plen 0)), (proj2 (Z.ltb_ge limit _)) by lia. done.
  - intros off Ho. unfold sizeof_paramhdr. rewrite u32_id by width_lia.
    split; intros Hx; [apply Z.ltb_ge | apply Z.ltb_lt]; lia.
  - unfold ps. by destruct pre.
  - unfold ps. apply Forall_app. split; [done|]. apply Forall_app. split; [by apply auth_params_wf | done].
Qed.

(** ** Agreement on the random keys *)

(** C25. The two ends agree on the client's random key: whatever the client's
    endpoint offers, the key that [sctp_initialize_auth_params] builds from it is
    the key that the receiver of the INIT builds from the three parameters in it,
    however other parameters surround them and buffers cut the packet; the
    receiver also ends up with the client's list of chunk types, and keeps using
    authentication. *)
Theorem init_key_agreement malloc hmac_memory skey_ok rnd e l h a room X pre
  malloc' hmac_memory' other ack0 asconf b pc :
  malloc_spec malloc -> (forall n, 0 <= n -> exists g, hmac_memory n = Some g /\ Z.of_nat (length g) = n) ->
  offers e l h -> (256 <= length room)%nat -> malloc_spec malloc' -> (forall t off n, other t off n = None) ->
  is_Some (malloc (46 + num_chunks l)) -> is_Some (malloc' (46 + num_chunks l)) ->
  exists a' key st, sctp_initialize_auth_params malloc hmac_memory true skey_ok rnd e a = Some a'
    /\ ai_random (authinfo a') = Some key
    /\ initiate_auth_params true a' room (build X pre) = Some st
    /\ forall post m Y, let packet := (foldl put_param st (map param_of post)).1 in
       Forall wf_param (pre ++ post) -> Forall (fun p => passes p = true) (pre ++ post) ->
       offer_ok (pre ++ post) l -> concat m = packet ++ Y -> blen packet < 2147000000 ->
       exists b' asconf', load_auth_params malloc' hmac_memory' true other (length pre + 3 + length post)
           ack0 true asconf b pc m (blen X) (blen packet) = Some (0, b', Some l, (true, asconf'))
         /\ ai_peer_random (authinfo b') = Some key.
Proof.
  intros Hm Hmem Hof Hroom Hm' Hot Ha Ha'. pose proof (of_chunks_wf _ _ _ Hof) as Hw.
  destruct (blen_types l Hw) as [Hb _]. rewrite <- Hb, <- (blen_the_key rnd) in Ha, Ha'.
  destruct (initialize_spec malloc hmac_memory skey_ok rnd Hm Hmem e a l h Hof Ha) as (a' & E & Hk & Hkl & Hl & c & Hc & Hcw & Hids).
  exists a', (the_key rnd l), (build X (pre ++ auth_params rnd l)). split; [done|]. split; [done|]. split.
  { unfold build at 2. rewrite map_app, foldl_app.
    apply initiate_spec with (h := c); [done | done | | done..]. rewrite Hids. apply (of_some _ _ _ Hof). }
  intros post m Y packet Hwf Hpass Hok Hcm Hlim.
  assert (packet = X ++ encode (pre ++ auth_params rnd l ++ post)) as Ep.
  { unfold packet, build. rewrite <- foldl_app, <- map_app, app_assoc. apply build_encode. }
  rewrite Ep in *. rewrite blen_app in *. rewrite <- app_assoc in Hcm.
  destruct (load_spec malloc' hmac_memory' other Hm' Hot rnd l ack0 true asconf b pc m X pre post Y 0 Hw Ha'
    Hwf Hpass Hok Hcm Hlim) as (b' & asconf' & El & Hpr & _).
  exists b', asconf'. split; [|done]. rewrite (chklist_rebuilt l pc Hw) in El. rewrite <- El. f_equal.
  rewrite !length_app. cbn [auth_params length]. lia.
Qed.

(** An allocator that never fails. *)
Definition any_malloc (n : Z) : option (list Z) := if n <? 0 then None else Some (replicate (Z.to_nat n) 0).

Lemma any_malloc_spec : malloc_spec any_malloc.
Proof.
  intros n b. unfold any_malloc. destruct (Z.ltb_spec n 0); [done|]. intros [= <-]. rewrite length_replicate. lia.
Qed.

Definition demo_types : sctp_auth_chklist := foldl add_chunk sctp_clear_chunklist [SCTP_ASCONF; SCTP_ASCONF_ACK].
Definition demo_ids : sctp_hmaclist := HmacList 1 1 [1].
Definition demo_ep : auth_ep := AuthEp [SKey None 1 0 0] 0 (Some demo_ids) (Some demo_types) [].

Lemma demo_offers : offers demo_ep demo_types demo_ids.
Proof.
  constructor; [done | done | | | done].
  - apply add_chunks_spec; [exact cleared_wf | repeat constructor; unfold SCTP_ASCONF, SCTP_ASCONF_ACK; lia].
  - constructor; [done | done | vm_compute; split; discriminate | apply NoDup_singleton | repeat constructor].
Qed.

Definition new_assoc : auth_assoc := AuthAssoc (AuthInfo None 0 None None None 0 0 0) [] None None None 0 [].

(** The extensions parameter of the packets below: AUTH, ASCONF, ASCONF-ACK. *)
Definition demo_ext : list (Z * list Z) :=
  [(SCTP_SUPPORTED_CHUNK_EXT, [SCTP_AUTHENTICATION; SCTP_ASCONF; SCTP_ASCONF_ACK])].

Lemma any_memory n : 0 <= n -> exists g, any_malloc n = Some g /\ Z.of_nat (length g) = n.
Proof.
  intros Hn. exists (replicate (Z.to_nat n) 0). unfold any_malloc. rewrite (proj2 (Z.ltb_ge n 0)) by done.
  rewrite length_replicate. split; [done | lia].
Qed.

Lemma demo_offer_ok : offer_ok (demo_ext ++ []) demo_types.
Proof. split; [done|]. intros _. split; vm_compute; reflexivity. Qed.

Lemma demo_ext_wf : Forall wf_param (demo_ext ++ []) /\ Forall (fun p => passes p = true) (demo_ext ++ []).
Proof. split; [repeat constructor; vm_compute; congruence | repeat constructor]. Qed.

Lemma init_key_agreement_witness :
  exists a' key st, sctp_initialize_auth_params any_malloc any_malloc true (fun _ => true) Z.of_nat demo_ep new_assoc = Some a'
    /\ ai_random (authinfo a') = Some key
    /\ initiate_auth_params true a' (replicate 256 0) (build [1; 2] demo_ext) = Some st
    /\ exists b' asconf', load_auth_params any_malloc any_malloc true (fun _ _ _ => None) (1 + 3 + 0)
           false true true new_assoc None [st.1] 2 (blen st.1) = Some (0, b', Some demo_types, (true, asconf'))
         /\ ai_peer_random (authinfo b') = Some key.
Proof.
  destruct (init_key_agreement any_malloc any_malloc (fun _ => true) Z.of_nat demo_ep demo_types demo_ids new_assoc
    (replicate 256 0) [1; 2] demo_ext any_malloc any_malloc (fun _ _ _ => None) false true new_assoc None)
    as (a' & key & st & E1 & E2 & E3 & H).
  - exact any_malloc_spec.
  - exact any_memory.
  - exact demo_offers.
  - vm_compute. lia.
  - exact any_malloc_spec.
  - reflexivity.
  - vm_compute. eexists. reflexivity.
  - vm_compute. eexists. reflexivity.
  - exists a', key, st. split; [exact E1|]. split; [exact E2|]. split; [exact E3|].
    apply (H [] [st.1] []); [apply demo_ext_wf | apply demo_ext_wf | exact demo_offer_ok | reflexivity |].
    assert (length st.1 = 60%nat) as El.
    { vm_compute in E1. injection E1 as <-. vm_compute in E3. injection E3 as <-. reflexivity. }
    unfold blen. cbn [map foldl]. rewrite El. reflexivity.
Defined.

(** C26. The two ends agree on the server's random key: the server keeps nothing
    when it answers an INIT, and yet the key that it builds later from the cookie
    that comes back is the one the client builds from the INIT-ACK; its lists of
    chunk types and HMAC identifiers are the endpoint's again, and the identifier
    for the peer is negotiated from the latter. *)
Theorem cookie_key_agreement rnd e l h room X pre malloc hmac_memory other ack0 asconf b pc
  malloc' hmac_memory' skey_ok a :
  offers e l h -> (256 <= length room)%nat ->
  malloc_spec malloc -> malloc_spec malloc' -> (forall t off n, other t off n = None) ->
  (exists g, hmac_memory' 1 = Some g /\ Z.of_nat (length g) = 1) ->
  is_Some (malloc (46 + num_chunks l)) -> is_Some (malloc' (46 + num_chunks l)) ->
  exists key st, initiate_ack_auth_params true rnd e room (build X pre) = Some st
    /\ forall post, let packet := (foldl put_param st (map param_of post)).1 in
       Forall wf_param (pre ++ post) -> Forall (fun p => passes p = true) (pre ++ post) ->
       offer_ok (pre ++ post) l -> blen packet < 2147000000 ->
       (forall m Y, concat m = packet ++ Y ->
          exists b' asconf', load_auth_params malloc hmac_memory true other (length pre + 3 + length post)
              ack0 true asconf b pc m (blen X) (blen packet) = Some (0, b', Some l, (true, asconf'))
            /\ ai_peer_random (authinfo b') = Some key)
       /\ (forall m X' Y, concat m = X' ++ drop (length X) packet ++ Y -> blen X' + blen packet < 2147000000 ->
          exists a', sctp_auth_get_cookie_params malloc' hmac_memory' true skey_ok (length pre + 3 + length post)
              e a m (blen X') (blen packet - blen X) = Some a'
            /\ ai_random (authinfo a') = Some key /\ ai_random_len (authinfo a') = 32
            /\ local_auth_chunks a' = Some l
            /\ exists c, local_hmacs a' = Some c /\ hmac_ids c = hmac_ids h
                 /\ peer_hmac_id a' = sctp_negotiate_hmacid (peer_hmacs a) (Some c)).
Proof.
  intros Hof Hroom Hm Hm' Hot Hmem Ha Ha'. pose proof (of_chunks_wf _ _ _ Hof) as Hw.
  destruct (only_sha1 h (of_hmacs_wf _ _ _ Hof) (of_some _ _ _ Hof)) as [Hids _].
  destruct (blen_types l Hw) as [Hb _]. rewrite <- Hb, <- (blen_the_key rnd) in Ha, Ha'.
  exists (the_key rnd l), (build X (pre ++ auth_params rnd l)). split.
  { unfold build at 2. rewrite map_app, foldl_app. by apply (initiate_ack_spec rnd e l h). }
  intros post packet Hwf Hpass Hok Hlim.
  assert (packet = X ++ encode (pre ++ auth_params rnd l ++ post)) as Ep.
  { unfold packet, build. rewrite <- foldl_app, <- map_app, app_assoc. apply build_encode. }
  rewrite Ep in *. rewrite blen_app in *.
  assert (length pre + 3 + length post = length (pre ++ auth_params rnd l ++ post) + 0)%nat as El.
  { rewrite !length_app. cbn [auth_params length]. lia. }
  rewrite El. split.
  - intros m Y Hcm. rewrite <- app_assoc in Hcm.
    destruct (load_spec malloc hmac_memory other Hm Hot rnd l ack0 true asconf b pc m X pre post Y 0 Hw Ha
      Hwf Hpass Hok Hcm Hlim) as (b' & asconf' & E & Hpr & _).
    exists b', asconf'. split; [|done]. by rewrite (chklist_rebuilt l pc Hw) in E.
  - intros m X' Y Hcm Hlim'. rewrite drop_app_length in Hcm. pose proof (blen_nonneg X).
    replace (blen X + _ - blen X) with (blen (encode (pre ++ auth_params rnd l ++ post))) by lia.
    destruct (cookie_spec malloc' hmac_memory' skey_ok rnd l e a m X' pre post Y 0 Hm' Hmem Hw Ha' Hwf Hpass Hcm)
      as (a' & E & H1 & H2 & H3 & c & H4 & H5 & H6); [lia|].
    exists a'. split_and!; [done | done | done | done |]. exists c. by rewrite Hids.
Qed.

Lemma cookie_key_agreement_witness :
  exists key st, initiate_ack_auth_params true Z.of_nat demo_ep (replicate 256 0) (build [1; 2] demo_ext) = Some st
    /\ (exists b' asconf', load_auth_params any_malloc any_malloc true (fun _ _ _ => None) (1 + 3 + 0)
           false true true new_assoc None [st.1] 2 (blen st.1) = Some (0, b', Some demo_types, (true, asconf'))
         /\ ai_peer_random (authinfo b') = Some key)
    /\ (exists a', sctp_auth_get_cookie_params any_malloc any_malloc true (fun _ => true) (1 + 3 + 0)
           demo_ep new_assoc [drop 2 st.1] 0 (blen st.1 - 2) = Some a'
         /\ ai_random (authinfo a') = Some key /\ local_auth_chunks a' = Some demo_types).
Proof.
  destruct (cookie_key_agreement Z.of_nat demo_ep demo_types demo_ids (replicate 256 0) [1; 2] demo_ext
    any_malloc any_malloc (fun _ _ _ => None) false true new_assoc None any_malloc any_malloc (fun _ => true) new_assoc)
    as (key & st & E & H).
  - exact demo_offers.
  - vm_compute. lia.
  - exact any_malloc_spec.
  - exact any_malloc_spec.
  - reflexivity.
  - apply any_memory. lia.
  - vm_compute. eexists. reflexivity.
  - vm_compute. eexists. reflexivity.
  - assert (length st.1 = 60%nat) as El by (vm_compute in E; injection E as <-; reflexivity).
    destruct (H []) as [H1 H2]; [apply demo_ext_wf | apply demo_ext_wf | exact demo_offer_ok
      | unfold blen; cbn [map foldl]; rewrite El; reflexivity |].
    exists key, st. split; [exact E|]. split; [apply (H1 [st.1] []); reflexivity|].
    destruct (H2 [drop 2 st.1] [] []) as (a' & H3 & H4 & _ & H5 & _);
      [reflexivity | unfold blen; cbn [map foldl length]; rewrite El; reflexivity |].
    exists a'. split; [exact H3|]. split; [exact H4 | exact H5].
Defined.

(** ** The INIT without RANDOM *)

Lemma memcpy_outside block off p n : blen block < off + n -> block_memcpy block off p n = None.
Proof.
  intros H. unfold block_memcpy. rewrite (proj2 (Z.leb_gt (off + n) _)) by done. by rewrite andb_false_r.
Qed.

Lemma concat_key_overflows malloc v p key :
  p_random v = None -> p_hmacs v = Some p -> 0 <= hmacs_len v -> 0 <= n_chunks v -> malloc_spec malloc ->
  malloc (sizeof_paramhdr + random_len v + sizeof_paramhdr + hmacs_len v
    + match p_chunks v with Some _ => sizeof_paramhdr + n_chunks v | None => 0 end) = Some key ->
  concat_random_key malloc v = None.
Proof.
  intros Hr Hh H1 H2 Hm Hk. unfold concat_random_key, sctp_alloc_key. rewrite Hr, Hh.
  pose proof (Hm _ _ Hk) as Hl. unfold sizeof_paramhdr in *.
  destruct (p_chunks v) as [c|]; [|rewrite Z.add_0_r in Hk]; rewrite Hk, !some_bind; cbv beta iota;
    rewrite memcpy_outside by (unfold blen; lia); reflexivity.
Qed.

(** An HMAC-ALGO parameter with SHA-1 is taken over. *)
Lemma hmac_taken hmac_memory other m limit v s : limit <= chain_len m /\ limit < 2147000000 ->
  blen v <= 508 -> lists_sha1 v = true -> got_hmacs (ld_flags s) = false ->
  exists s', takes (load_param hmac_memory true other m) m limit (SCTP_HMAC_LIST, v) s s'
    /\ ld_pulled s' = Pulled (p_random (ld_pulled s)) (random_len (ld_pulled s))
         (Some (param_of (SCTP_HMAC_LIST, v))) (blen v) (p_chunks (ld_pulled s)) (n_chunks (ld_pulled s))
    /\ ld_auth s' = ld_auth s /\ got_chklist (ld_flags s') = got_chklist (ld_flags s)
    /\ peer_supports_asconf (ld_flags s') = peer_supports_asconf (ld_flags s).
Proof.
  intros Hl Hv Hsha Hg. pose proof (blen_nonneg v). pose proof (blen_param (SCTP_HMAC_LIST, v)) as Hp. cbn [snd] in Hp.
  destruct (verify_hmac_words (param_of (SCTP_HMAC_LIST, v))) as (w & Ew & Ev); [lia|].
  rewrite Hp in Ew, Ev. unfold sizeof_paramhdr in Ew, Ev. replace (4 + blen v - 4) with (blen v) in Ew, Ev by lia.
  change (drop 4 (param_of (SCTP_HMAC_LIST, v))) with v in Ev. rewrite Hsha in Ev.
  eexists. split.
  - intros off Ho Hle Hr. destruct (pull_small m limit Hl (SCTP_HMAC_LIST, v) off Ho Hv Hle Hr) as (F1 & F2 & F3).
    unfold load_param. cbn [existsb fst other_types]. rewrite F2, F1, F3, Hg.
    cbn [Z.eqb Pos.eqb orb SCTP_HMAC_LIST SCTP_RANDOM SCTP_SUPPORTED_CHUNK_EXT snd].
    rewrite some_bind, Ew, some_bind, Ev. cbn [negb]. unfold param_words. rewrite Ew, !some_bind. reflexivity.
  - by split_and!.
Qed.

(** An INIT with an HMAC-ALGO parameter and no RANDOM passes
    [sctp_validate_init_auth_params], and makes the receiver write the whole
    parameter, whose contents the peer chooses, behind the end of the key it
    allocated: the missing RANDOM is counted in the size of the key but the
    position for the next copy is not set back. *)
Theorem missing_random_overflows malloc hmac_memory other ack0 auth asconf b pc X v Y m :
  malloc_spec malloc -> is_Some (malloc (8 + blen v)) -> Forall in_u8 (concat m) ->
  blen v <= 508 -> lists_sha1 v = true ->
  let packet := (build X [(SCTP_HMAC_LIST, v)]).1 in
  concat m = packet ++ Y -> blen packet < 2147000000 ->
  sctp_validate_init_auth_params (S (Z.to_nat (blen packet - blen X))) m (blen X) (blen packet) = Some 0
  /\ load_auth_params malloc hmac_memory true other 1 ack0 auth asconf b pc m (blen X) (blen packet) = None.
Proof.
  intros Hm [key Hk] Hu8 Hv Hsha packet Hc Hlim. pose proof (blen_nonneg X). pose proof (blen_nonneg v).
  assert (packet = X ++ encode [(SCTP_HMAC_LIST, v)]) as Ep by apply build_encode.
  assert (Forall wf_param [(SCTP_HMAC_LIST, v)]) as Hwf by (repeat constructor; cbn [snd]; try done; lia).
  assert (blen packet = blen X + blen (encode [(SCTP_HMAC_LIST, v)])) as Eb by (by rewrite Ep, blen_app).
  assert (encode [(SCTP_HMAC_LIST, v)] = param_of (SCTP_HMAC_LIST, v)) as Ee by apply app_nil_r.
  pose proof (blen_param (SCTP_HMAC_LIST, v)) as Hp. cbn [snd] in Hp.
  assert (blen packet <= chain_len m) as Hl by (unfold chain_len; rewrite Hc; unfold blen; rewrite length_app; lia).
  split.
  - rewrite <- (Nat.add_0_r (S _)), validate_init_auth_verdict by (done || (rewrite Eb, Ee, Hp; lia)).
    rewrite Hc, Eb, Ep, <- app_assoc, params_in_encode by done. unfold verdict, on_wire. cbn [map checked fst].
    replace (oversize _) with false; [|symmetry; unfold oversize; cbn [is_type fst snd andb orb Z.eqb Pos.eqb
      SCTP_HMAC_LIST SCTP_SUPPORTED_CHUNK_EXT SCTP_CHUNK_LIST]; apply Z.ltb_ge; unfold SCTP_PARAM_BUFFER_SIZE; lia].
    cbn [existsb checked]. replace (malformed _) with false; [reflexivity|].
    unfold malformed, value. cbn [snd]. change (drop 4 (param_of (SCTP_HMAC_LIST, v))) with v. by rewrite Hsha.
  - unfold load_auth_params.
    match goal with |- context [walk_from i32 _ _ _ _ _ _ ?s0] =>
      destruct (hmac_taken hmac_memory other m (blen packet) v s0 (conj Hl Hlim) Hv Hsha eq_refl)
        as (s & Htk & Hs & Ha & Hg & Hsup) end.
    cbn [ld_pulled nothing_pulled p_random random_len p_chunks n_chunks ld_auth ld_flags got_chklist
      peer_supports_asconf] in Hs, Ha, Hg, Hsup.
    rewrite (walk_encoded i32 _ _ _ m (blen packet) (conj Hl Hlim)) with (ps := [(SCTP_HMAC_LIST, v)]) (Y := Y) (s' := s);
      try done; try lia.
    + rewrite some_bind. unfold load_finish. rewrite Ha, Hg, Hsup. cbn [negb andb].
      rewrite (concat_key_overflows malloc (ld_pulled s) (param_of (SCTP_HMAC_LIST, v)) key); rewrite ?Hs; try done.
      cbn [random_len hmacs_len p_chunks]. unfold sizeof_paramhdr. rewrite <- Hk. f_equal. lia.
    + intros z Hz. apply i32_id. width_lia.
    + intros off plen Ho Hpl Hle. rewrite i32_id by width_lia.
      rewrite (proj2 (Z.ltb_ge (blen packet) _)), (proj2 (Z.eqb_neq plen 0)) by lia. done.
    + econstructor; [exact Htk | constructor].
    + by rewrite Hc, Ep, <- app_assoc.
Qed.

Lemma missing_random_overflows_witness :
  sctp_validate_init_auth_params (S (Z.to_nat (8 - 2))) [[1; 2; 0x80; 0x04; 0; 6; 0; 1]] 2 8 = Some 0
  /\ load_auth_params any_malloc any_malloc true (fun _ _ _ => None) 1 false true true new_assoc None
       [[1; 2; 0x80; 0x04; 0; 6; 0; 1]] 2 8 = None.
Proof.
  apply (missing_random_overflows any_malloc any_malloc (fun _ _ _ => None) false true true new_assoc None [1; 2] [0; 1] []
    [[1; 2; 0x80; 0x04; 0; 6; 0; 1]]).
  - exact any_malloc_spec.
  - vm_compute. eexists. reflexivity.
  - repeat constructor; vm_compute; congruence.
  - vm_compute. discriminate.
  - reflexivity.
  - reflexivity.
  - reflexivity.
Defined.
