(* ===== verification/RecvQueue.v ===== *)
(** * A fragment in the queue of its stream

    [sctp_queue_data_for_reasm]: when a fragment that has not been taken before has been
    queued, the stream holds it, whatever order the fragments of its messages come in. *)

From Stdlib Require Import Sorted.
From S2P Require Import AuthParams AuthParamProps.
From S2P Require Import Prelude Serial Tailq TsnMap TsnMapInv Sack Mbuf MbufProps Reasm ReasmQueue RecvData.
From S2P Require Import RecvPlan RecvInv RecvOps RecvDeliver RecvMerge.

Open Scope sctp_scope.

Lemma Forall2_impl_in {A B} (P Q : A -> B -> Prop) l k :
  Forall2 P l k -> (forall x y, x ∈ l -> y ∈ k -> P x y -> Q x y) -> Forall2 Q l k.
Proof. induction 1; intros HPQ; constructor; [apply HPQ; set_solver | set_solver]. Qed.

Section Queue.
Context (msg : nat -> nat -> option message) (env : rx_env) (Henv : env_ok env).
Context (Hplan : plan_ok msg (pd_point env)).

(** ** Fragments of different messages *)

(** The messages of a stream lie behind each other. *)
Lemma plan_order sid j m k m' :
  msg sid j = Some m -> msg sid (S j + k)%nat = Some m' -> frag_tsn m (m_size m) + Z.of_nat k <= m_tsn m'.
Proof.
  intros Hm. revert m'. induction k as [|k IH]; intros m' Hm'.
  - rewrite Nat.add_0_r in Hm'. pose proof (po_next _ _ Hplan _ _ _ _ Hm Hm'). lia.
  - rewrite Nat.add_succ_r in Hm'. destruct (po_down _ _ Hplan _ _ _ Hm') as [m1 Hm1].
    specialize (IH m1 Hm1). pose proof (po_next _ _ Hplan _ _ _ _ Hm1 Hm') as Hn.
    pose proof (msg_some _ _ Hplan _ _ _ Hm1). unfold frag_tsn in *. lia.
Qed.

Lemma plan_lt sid j m j' m' : msg sid j = Some m -> msg sid j' = Some m' -> (j < j')%nat ->
  frag_tsn m (m_size m) + (Z.of_nat j' - Z.of_nat j - 1) <= m_tsn m'.
Proof.
  intros Hm Hm' Hlt. pose proof (plan_order sid j m (j' - S j) m' Hm) as H.
  replace (S j + (j' - S j))%nat with j' in H by lia. specialize (H Hm'). lia.
Qed.

Lemma frag_unique sid j m i sid' j' m' i' :
  msg sid j = Some m -> msg sid' j' = Some m' -> (i < m_size m)%nat -> (i' < m_size m')%nat ->
  frag_tsn m i = frag_tsn m' i' -> sid = sid' /\ j = j'.
Proof.
  intros Hm Hm' Hi Hi' E. pose proof (po_apart _ _ Hplan _ _ _ _ _ _ _ _ Hm Hm' Hi Hi' E) as <-. split; [done|].
  destruct (Nat.lt_trichotomy j j') as [H | [H | H]]; [exfalso | done | exfalso].
  - pose proof (plan_lt _ _ _ _ _ Hm Hm' H). unfold frag_tsn in *. lia.
  - pose proof (plan_lt _ _ _ _ _ Hm' Hm H). unfold frag_tsn in *. lia.
Qed.

(** Another fragment does not change what a message holds. *)
Lemma waits_ext R R' sid j c :
  (forall m i, msg sid j = Some m -> (i < m_size m)%nat -> has R' (frag_tsn m i) <-> has R (frag_tsn m i)) ->
  waits msg R sid j c -> waits msg R' sid j c.
Proof.
  intros He (m & r & l & Hm & Hct & Hon & Htop & Hl & Hh & Hr & H0). exists m, r, l. split; [done|].
  split; [done|]. split; [done|]. pose proof (msg_some _ _ Hplan _ _ _ Hm) as Hs.
  split; [|split; [done|split; [|done]]].
  - intros Hn. destruct (Htop Hn) as [H1 H2 H3].
    assert (Elast : has R' (frag_tsn m (m_size m - 1)) <-> has R (frag_tsn m (m_size m - 1))) by (apply He; [done | lia]).
    split; [|done|].
    + rewrite H1. destruct (decide _), (decide _); tauto.
    + intros H. apply H3. tauto.
  - intros i Hi. rewrite He by done. by apply Hh.
Qed.

Lemma waits_apart R sid j m i sid' j' c :
  msg sid j = Some m -> (i < m_size m)%nat -> ~ (sid = sid' /\ j = j') -> waits msg R sid' j' c ->
  waits msg (receive R (frag_tsn m i)) sid' j' c.
Proof.
  intros Hm Hi Hne. apply waits_ext. intros m' i' Hm' Hi'. rewrite has_receive. split; [|auto].
  intros [E |]; [|done]. destruct Hne. by eapply frag_unique.
Qed.

(** ** Storing and merging *)

(** The result is what the code makes of one control. *)
Lemma store_absorb_spec R C s sid p x c j m r l i chk :
  controls s !! p = Some c -> strm s sid = Some x -> msg sid j = Some m -> ctl_at sid j m r l c -> (1 < m_size m)%nat ->
  on_strm_q c = SCTP_ON_ORDERED -> holds R m r l -> r ∉ l -> top_at R m c ->
  (i < m_size m)%nat -> ~ has R (frag_tsn m i) -> chunk_at m i chk -> rec_ppid chk = m_ppid m ->
  tracks (receive R (frag_tsn m i)) C s -> (forall k, (k < m_size m)%nat -> recent C (frag_tsn m k)) ->
  exists s' c', ('(aborted, s) ← store_fragment env p chk s;
                 if (aborted : bool) then Some (true, s)
                 else s ← absorb_ready env sid p s; Some (false, s)) = Some (false, s') /\
    tracks (receive R (frag_tsn m i)) C s' /\ core_of s' = core_of (put_ctl p c' s) /\
    waits msg (receive R (frag_tsn m i)) sid j c'.
Proof.
  intros Hc Hx Hm Hct Hn Hon Hh Hr Htop Hi Hni Hchk Hpp HT Hrec.
  set (R' := receive R (frag_tsn m i)) in *.
  assert (Hir : (r <= i)%nat).
  { destruct (Nat.le_gt_cases r i) as [|Hlt]; [done|]. exfalso. apply Hni, Hh; [lia|]. by left. }
  assert (exists s1 c1 r1 l1, store_fragment env p chk s = Some (false, s1) /\ tracks R' C s1 /\
            core_of s1 = core_of (put_ctl p c1 s) /\ ctl_at sid j m r1 l1 c1 /\ on_strm_q c1 = SCTP_ON_ORDERED /\
            top_at R' m c1 /\ holds R' m r1 l1 /\ (r1 < m_size m)%nat /\ (r1 = 0%nat -> (r1 ∉ l1) /\ l1 <> []))
    as (s1 & c1 & r1 & l1 & -> & HT1 & C1 & Hct1 & Hon1 & Htop1 & Hh1 & Hr1 & H01).
  { destruct (Nat.eq_dec i 0) as [-> | Hi0].
    - assert (r = 0%nat) as -> by lia.
      destruct (store_first msg env Henv Hplan R' C s sid p c j m l chk)
        as (s1 & c1 & E & HT1 & C1 & Hct1 & [Hon1 Htp1] & Hl1); try done.
      { apply has_this. } { by apply Hrec. }
      exists s1, c1, 1%nat, l. split; [done|]. split; [done|]. split; [done|]. split; [done|].
      split; [congruence|]. split; [|split; [|split; [lia | done]]].
      + destruct Htop as [H1 H2 H3].
        assert (Elast : has R' (frag_tsn m (m_size m - 1)) <-> has R (frag_tsn m (m_size m - 1)))
          by (apply has_other; lia).
        split; [|by rewrite Htp1|].
        * rewrite Hl1, H1. destruct (decide _), (decide _); tauto.
        * intros H. rewrite Htp1. apply H3. tauto.
      + intros k Hk. subst R'. destruct (Nat.eq_dec k 0) as [-> |].
        * split; [left; lia | intros _; apply has_this].
        * rewrite has_other by done. rewrite (Hh k Hk). split; [intros [|]; [lia | auto] | intros [|]; [lia | auto]].
    - destruct (store_other msg env Henv Hplan R C s sid p c j m r l i chk)
        as (s1 & c1 & l1 & E & HT1 & C1 & Hct1 & Hon1 & Htop1 & Hl1); try done; [lia|].
      exists s1, c1, r, l1. split; [done|]. split; [done|]. split; [done|]. split; [done|].
      split; [congruence|]. split; [done|]. split; [|split; [lia|]].
      + intros k Hk. subst R'. rewrite Hl1. destruct (Nat.eq_dec k i) as [-> |].
        * split; [auto | intros _; apply has_this].
        * rewrite has_other by done. rewrite (Hh k Hk). naive_solver.
      + intros ->. split.
        * rewrite Hl1. intros [|]; [lia | done].
        * intros ->. specialize (Hl1 i). apply elem_of_nil with i, Hl1. by left. }
  cbn [mbind option_bind]. unfold absorb_ready.
  assert (Hc1 : controls s1 !! p = Some c1).
  { change (k_store (core_of s1) !! p = Some c1). rewrite C1. apply lookup_insert_eq. }
  change (ctl s1 p) with (controls s1 !! p). rewrite Hc1. cbn [mbind option_bind].
  rewrite (ct_first _ _ _ _ _ _ Hct1).
  destruct (Nat.eqb_spec r1 0) as [E0 | Hne].
  { cbn [Z.eqb mbind option_bind]. destruct (H01 E0). exists s1, c1. split; [done|]. split; [done|]. split; [done|].
    exists m, r1, l1. repeat (split; [done|]). split; [lia|]. split; [done|]. split; [done|]. by right. }
  cbn [Z.eqb]. rewrite (ct_incl _ _ _ _ _ _ Hct1) by lia.
  rewrite frag_tsn_succ. replace (S (r1 - 1)) with r1 by lia.
  assert (Hx1 : strm s1 sid = Some x).
  { change (k_strm (core_of s1) !! sid = Some x). rewrite C1. exact Hx. }
  pose proof (ct_waiting _ _ _ _ _ _ Hct1) as Hw1. rewrite Forall_forall in Hw1.
  destruct (absorb_spec msg env Henv Hplan R' C sid p x j m l1 s1 c1 r1 (reasm c1))
    as (s2 & c2 & r2 & l2 & E & HT2 & C2 & Hct2 & [Hon2 Htp2] & Hh2 & Hr2 & Hle & Hl2); try done; [lia | | |].
  { intros k Hk. specialize (Hw1 k Hk). apply Hh1; [lia|]. by right. }
  { intros k Hk. specialize (Hw1 k Hk). apply Hrec. lia. }
  rewrite E. cbn [mbind option_bind]. exists s2, c2. split; [done|]. split; [done|]. split.
  { rewrite C2. unfold core_of in *. cbn in *. injection C1 as -> -> -> -> -> -> ->. by rewrite insert_insert_eq. }
  assert (Hh' : holds R' m r2 l2).
  { intros k Hk. rewrite (Hh1 k Hk). symmetry. by apply Hh2. }
  pose proof (ct_bound _ _ _ _ _ _ Hct2).
  exists m, r2, l2. split; [done|]. split; [done|]. split; [congruence|]. split; [|split; [|split; [done|split; [done | left; lia]]]].
  - intros _. destruct Htop1 as [H1 H2 H3]. split; [|by rewrite Htp2 | by rewrite Htp2].
    rewrite Hl2, H1. destruct (Nat.ltb_spec r1 r2), (Nat.eqb_spec r2 (m_size m)); simpl; try done.
    rewrite decide_True; [done|]. apply Hh'; [lia | left; lia].
  - intros ->. rewrite Hl2. destruct (Nat.ltb_spec r1 (m_size m)); [|lia]. by rewrite Nat.eqb_refl.
Qed.

(** ** The queue of the stream *)

(** What a stream holds after fragment [i] of message [j]: [p] is the control of the
    message, new in the queue or not. *)
Lemma stream_store R store sid x D js u v ju jv p j m i c' :
  stream_at msg R store sid x D js -> length u = length ju ->
  (inqueue x = u ++ v /\ js = ju ++ jv) \/ (inqueue x = u ++ p :: v /\ js = ju ++ j :: jv) ->
  Forall (fun k => (k < j)%nat) ju -> Forall (fun k => (j < k)%nat) jv -> p ∉ u ++ v ->
  Z.of_nat D <= Z.of_nat j < Z.of_nat D + 16384 -> msg sid j = Some m -> (i < m_size m)%nat ->
  waits msg (receive R (frag_tsn m i)) sid j c' ->
  stream_at msg (receive R (frag_tsn m i)) (<[p := c']> store) sid (x <| inqueue := u ++ p :: v |>) D (ju ++ j :: jv).
Proof.
  intros [H1 H2 H3 H4 H5 H6 H7 H8] Hlen Hq Hju Hjv Hp Hwin Hm Hi Hw.
  assert (Hq5 : Forall2 (fun p j => exists c, store !! p = Some c /\ waits msg R sid j c) (u ++ v) (ju ++ jv)).
  { destruct Hq as [[Eq Ej] | [Eq Ej]]; rewrite Eq, Ej in H5; [done|].
    apply Forall2_app_inv in H5 as [Ha Hb]; [|done]. apply Forall2_cons in Hb as [_ Hb]. by apply Forall2_app. }
  assert (Hin : forall k, k ∈ js -> k ∈ ju ++ j :: jv).
  { destruct Hq as [[_ ->] | [_ ->]]; [|done]. intros k. rewrite !elem_of_app, elem_of_cons. tauto. }
  assert (Hkeep : forall q k, q ∈ u ++ v -> k <> j -> (exists c, store !! q = Some c /\ waits msg R sid k c) ->
            exists c, <[p := c']> store !! q = Some c /\ waits msg (receive R (frag_tsn m i)) sid k c).
  { intros q k Hqin Hne (c & Hc & Hwc). exists c. split.
    - rewrite lookup_insert_ne; [done|]. intros ->. done.
    - eapply waits_apart; [exact Hm | exact Hi | | exact Hwc]. intros [_ ->]. done. }
  split; try done.
  - intros k Hk. destruct (H4 k Hk) as (m' & Hm' & Hc'). exists m'. split; [done|]. intros i' Hi'.
    rewrite has_receive. right. by apply Hc'.
  - change (inqueue (x <| inqueue := u ++ p :: v |>)) with (u ++ p :: v).
    apply Forall2_app_inv in Hq5 as [Ha Hb]; [|done]. apply Forall2_app; [|constructor].
    + eapply Forall2_impl_in; [exact Ha|]. intros q k Hqin Hk. apply Hkeep; [set_solver|].
      rewrite Forall_forall in Hju. specialize (Hju k Hk). lia.
    + exists c'. by rewrite lookup_insert_eq.
    + eapply Forall2_impl_in; [exact Hb|]. intros q k Hqin Hk. apply Hkeep; [set_solver|].
      rewrite Forall_forall in Hjv. specialize (Hjv k Hk). lia.
  - destruct Hq as [[_ ->] | [_ ->]]; [by apply sorted_insert | done].
  - destruct Hq as [[_ ->] | [_ ->]]; [|done]. apply Forall_app in H7 as [Ha Hb]. apply Forall_app. split; [done|].
    by constructor.
  - intros k m' i' Hm' Hk Hi' Hh. apply has_receive in Hh as [E | Hh]; [|by eapply Hin, H8].
    destruct (frag_unique _ _ _ _ _ _ _ _ Hm' Hm Hi' Hi E) as [_ ->]. apply elem_of_app. right. by left.
Qed.

(** A stream is not concerned by a fragment of another one. *)
Lemma stream_apart R store store' sid x D js sid' j m i :
  stream_at msg R store sid x D js -> msg sid' j = Some m -> (i < m_size m)%nat -> sid' <> sid ->
  (forall p c, store !! p = Some c -> sinfo_stream c = Z.of_nat sid -> store' !! p = Some c) ->
  stream_at msg (receive R (frag_tsn m i)) store' sid x D js.
Proof.
  intros [H1 H2 H3 H4 H5 H6 H7 H8] Hm Hi Hne Hkeep. split; try done.
  - intros k Hk. destruct (H4 k Hk) as (m' & Hm' & Hc'). exists m'. split; [done|]. intros i' Hi'.
    rewrite has_receive. right. by apply Hc'.
  - eapply Forall2_impl; [exact H5|]. intros q k (c & Hc & Hw). exists c. split.
    + apply Hkeep; [done|]. destruct Hw as (m' & r & l & _ & Hct & _). apply Hct.
    + eapply waits_apart; [exact Hm | exact Hi | | exact Hw]. intros [-> _]. done.
  - intros k m' i' Hm' Hk Hi' Hh. apply has_receive in Hh as [E | Hh]; [|by eapply H8].
    destruct (frag_unique _ _ _ _ _ _ _ _ Hm' Hm Hi' Hi E) as [-> _]. done.
Qed.

(** ** The whole function *)

(** The control [p] of message [j] is new, or found in the queue. *)
Definition control_for (R : received) (s : receiver) (x : stream_in) (js : list nat) (sid j : nat) (m : message)
    (p : nat) (created : bool) : Prop :=
  if created then
    exists c, controls s !! p = Some c /\ ctl_at sid j m 0 [] c /\ last_frag_seen c = 0 /\ top_fsn c = 0xffffffff /\
      (j ∉ js) /\ p ∉ inqueue x
  else
    exists u v ju jv, inqueue x = u ++ p :: v /\ js = ju ++ j :: jv /\ length u = length ju.

Lemma sorted_middle (ju jv : list nat) j :
  StronglySorted lt (ju ++ j :: jv) -> Forall (fun k => (k < j)%nat) ju /\ Forall (fun k => (j < k)%nat) jv.
Proof.
  induction ju as [|k ju IH]; simpl; intros Hs; apply StronglySorted_inv in Hs as [Hs Hlt]; [by split|].
  destruct (IH Hs) as [H1 H2]. split; [|done]. constructor; [|done].
  apply Forall_app in Hlt as [_ Hlt]. by apply Forall_cons in Hlt as [? _].
Qed.

Lemma queue_for_reasm_spec R C s sid x D js j m i p created chk :
  strm s sid = Some x -> stream_at msg R (controls s) sid x D js -> read_queue s = [] ->
  msg sid j = Some m -> (1 < m_size m)%nat -> (i < m_size m)%nat -> ~ has R (frag_tsn m i) ->
  Z.of_nat D <= Z.of_nat j < Z.of_nat D + 16384 -> C < frag_tsn m i <= C + half32 ->
  tracks (receive R (frag_tsn m i)) C s -> recents msg R C sid D ->
  control_for R s x js sid j m p created -> chunk_at m i chk -> rec_ppid chk = m_ppid m ->
  exists s' x' js', sctp_queue_data_for_reasm env p chk created (u32 (frag_tsn m i)) s = Some (false, s') /\
    progress msg sid (receive R (frag_tsn m i)) C s s' x' D D /\
    stream_at msg (receive R (frag_tsn m i)) (controls s') sid x' D js'.
Proof.
  intros Hx Hst Hrd Hm Hn Hi Hni Hwin Hz HT Hrec Hfor Hchk Hpp. set (R' := receive R (frag_tsn m i)) in *.
  unfold sctp_queue_data_for_reasm.
  pose proof (queue_nodup msg _ _ _ _ _ _ Hst) as Hnd.
  destruct created; unfold control_for in Hfor.
  - destruct Hfor as (c & Hc & Hct & Hl0 & Ht0 & Hj & Hp).
    change (ctl s p) with (controls s !! p). rewrite Hc. cbn [mbind option_bind].
    rewrite (ct_stream _ _ _ _ _ _ Hct), (ct_ordered _ _ _ _ _ _ Hct), Nat2Z.id.
    set (s0 := on_ack _ s).
    destruct (place_spec env Henv s0 sid x p c js j) as (u & v & ju & jv & s1 & Eq & Ej & Hlen & Hju & Hjv & E1 & A1 & C1);
      [done | done | apply Hct | apply Hct | done | by eapply stream_numbered | by eapply stream_close | apply Hst | done |].
    rewrite E1. cbn [mbind option_bind]. rewrite A1. change (arrays (ack s0)) with (arrays (ack s)).
    destruct HT as (B & Hmx & Hnx & HR & HF). rewrite (repr_cum _ _ _ _ _ _ HR), u32_add_l, u32_eqb by lia.
    rewrite eo_data, (ca_first _ _ _ Hchk) by done. cbn [Z.eqb andb].
    assert (Hchkfirst : (frag_tsn m i =? C + 1) && true && negb (i =? 0)%nat = false).
    { destruct (Z.eqb_spec (frag_tsn m i) (C + 1)) as [E|]; [|done]. destruct (Nat.eqb_spec i 0); [done|]. exfalso.
      assert (Hh : has R (frag_tsn m (i - 1))).
      { pose proof (repr_below _ _ _ _ _ _ HR (frag_tsn m (i - 1))) as H. unfold R' in H.
        rewrite has_other in H by lia. apply H. unfold frag_tsn in *. lia. }
      apply Hj. eapply (sa_all _ _ _ _ _ _ _ Hst j m (i - 1)); [done | lia | lia | done]. }
    rewrite Hchkfirst. cbn [mbind option_bind].
    assert (HT1 : tracks R' C s1) by (eapply tracks_arrays; [exact A1 | by exists B, Hmx, Hnx]).
    injection C1 as F1 F2 F3 F4 F5 F6 F7. change (strmin s0) with (strmin s) in *.
    change (controls s0) with (controls s) in *. change (read_queue s0) with (read_queue s) in *.
    assert (Hplaced : placed c = c <| on_strm_q := SCTP_ON_ORDERED |>).
    { unfold placed. rewrite (ct_whole _ _ _ _ _ _ Hct). by destruct (Nat.eqb_spec (m_size m) 1); [lia|]. }
    assert (Hnone : forall k, (k < m_size m)%nat -> ~ has R (frag_tsn m k)).
    { intros k Hk Hh. apply Hj. eapply (sa_all _ _ _ _ _ _ _ Hst j m k); [done | lia | lia | done]. }
    destruct (store_absorb_spec R C s1 sid p (x <| inqueue := u ++ p :: v |>) (placed c) j m 0 [] i chk)
      as (s2 & c2 & E2 & HT2 & C2 & Hw2); try done.
    { by rewrite F2, lookup_insert_eq. }
    { unfold strm. rewrite F1, list_lookup_insert_eq; [done|]. by apply lookup_lt_Some in Hx. }
    { rewrite Hplaced. destruct Hct. by split. }
    { intros k Hk. split; [intros Hh; by apply Hnone in Hh | intros [H%Nat.nlt_0_r | H%elem_of_nil]; done]. }
    { apply not_elem_of_nil. }
    { rewrite Hplaced. split; [| by left |].
      - change (last_frag_seen _) with (last_frag_seen c). rewrite Hl0. rewrite decide_False; [done|]. apply Hnone. lia.
      - intros Hh. exfalso. apply (Hnone (m_size m - 1)%nat); [lia | done]. }
    { intros k Hk. eapply Hrec; [|exact Hm | done]. lia. }
    replace (Z.to_nat (Z.of_nat sid)) with sid in E2 by lia.
    rewrite E2. exists s2, (x <| inqueue := u ++ p :: v |>), (ju ++ j :: jv). split; [done|].
    injection C2 as G1 G2 G3 G4 G5 G6 G7. change (controls s2) with (k_store (core_of s2)).
    assert (Ecs : controls s2 = <[p := c2]> (controls s)).
    { rewrite G2, F2. apply insert_insert_eq. }
    split.
    + split; try done; try congruence.
      * intros q c' Hq Hne. rewrite Ecs, lookup_insert_ne; [done|]. intros ->. rewrite Hc in Hq. injection Hq as <-.
        apply Hne, Hct.
      * intros q Hq. rewrite Ecs, lookup_insert_ne; [done|]. intros ->. congruence.
      * exists []. rewrite G6, F6, app_nil_r, Nat.sub_diag. done.
    + change (k_store (core_of s2)) with (controls s2). rewrite Ecs.
      eapply stream_store; try done; [by left|]. by rewrite <- Eq.
  - destruct Hfor as (u & v & ju & jv & Eq & Ej & Hlen).
    pose proof (sa_queue _ _ _ _ _ _ _ Hst) as Hq. rewrite Eq, Ej in Hq.
    apply Forall2_app_inv in Hq as [_ Hq]; [|done]. apply Forall2_cons in Hq as [(c & Hc & Hw) _].
    destruct Hw as (m' & r & l & Hm' & Hct & Hon & Htop & Hl & Hh & Hr & H0). assert (m' = m) as -> by congruence.
    change (ctl s p) with (controls s !! p). rewrite Hc. cbn [mbind option_bind].
    rewrite (ct_stream _ _ _ _ _ _ Hct), (ct_ordered _ _ _ _ _ _ Hct), Nat2Z.id, andb_false_r.
    destruct (store_absorb_spec R C s sid p x c j m r l i chk) as (s2 & c2 & E2 & HT2 & C2 & Hw2); try done.
    { by apply Htop. }
    { intros k Hk. eapply Hrec; [|exact Hm | done]. lia. }
    rewrite E2. exists s2, (x <| inqueue := u ++ p :: v |>), (ju ++ j :: jv). split; [done|].
    injection C2 as G1 G2 G3 G4 G5 G6 G7. cbn in G1, G2.
    assert (Ex : x <| inqueue := u ++ p :: v |> = x) by (rewrite <- Eq; by destruct x).
    destruct (sorted_middle ju jv j) as [Hju Hjv]; [rewrite <- Ej; apply Hst|].
    split.
    + split; try done; try congruence.
      * rewrite G1, Ex. by rewrite list_insert_id.
      * intros q c' Hq Hne. rewrite G2, lookup_insert_ne; [done|]. intros ->. rewrite Hc in Hq. injection Hq as <-.
        apply Hne, Hct.
      * intros q Hq. rewrite G2, lookup_insert_ne; [done|]. intros ->. congruence.
      * exists []. rewrite G6, app_nil_r, Nat.sub_diag. done.
    + rewrite G2. eapply stream_store; try done; [by right|].
      rewrite Eq in Hnd. apply NoDup_app in Hnd as (_ & Hd & Hnd). apply NoDup_cons in Hnd as [Hpv _].
      rewrite elem_of_app. intros [Hpu | ?]; [|done]. apply (Hd p Hpu). by left.
Qed.

End Queue.

(** ** A DATA chunk on the wire

    What the receiver reads of a chunk that lies in a packet, wherever the mbufs of the
    packet cut it: the fields of its header, and its user data. *)


(** The bytes [b] lie in the packet at [offset]. *)
Record packet_has (m : list mbuf) (offset : Z) (b : list Z) : Prop := PacketHas {
  ph_ok : chain_ok m;
  ph_offset : 0 <= offset;
  ph_end : offset + Z.of_nat (length b) <= chain_len m;
  ph_small : chain_len m < M_COPYALL;
  ph_bytes : slice offset (Z.of_nat (length b)) (chain_bytes m) = b
}.

Section Wire.

Lemma slice_prefix off n k l : n <= k -> slice off n l = take (Z.to_nat n) (slice off k l).
Proof. intros ?. unfold slice. rewrite take_take. f_equal. lia. Qed.

Lemma slice_shift off a n k l :
  0 <= off -> 0 <= a -> a + n <= k -> slice (off + a) n l = slice a n (slice off k l).
Proof.
  intros ???. unfold slice. rewrite skipn_firstn_comm, take_take, drop_drop. f_equal; [lia|]. f_equal. lia.
Qed.

(** Fields of 16 and 32 bits. *)
Lemma be16_put v l : in_u16 v -> be16 (put16 v ++ l) = v.
Proof. unfold in_u16. intros ?. simpl. Z.div_mod_to_equations. lia. Qed.

Lemma be32_put v l : in_u32 v -> be32 (put32 v ++ l) = v.
Proof. unfold in_u32. intros ?. simpl. Z.div_mod_to_equations. lia. Qed.

Lemma le32_put v l : in_u32 v -> le32 (put32_le v ++ l) = v.
Proof. unfold in_u32. intros ?. simpl. Z.div_mod_to_equations. lia. Qed.

Lemma encode_length flags tsn sid ssn ppid payload :
  length (encode_data flags tsn sid ssn ppid payload) = (16 + length payload)%nat.
Proof. done. Qed.

Lemma getptr_slice m off n size : 0 <= off -> 0 < n <= size -> off + n <= chain_len m ->
  AuthParams.sctp_m_getptr (map m_bytes m) off n size = Some (Some (slice off n (chain_bytes m))).
Proof.
  intros Ho Hn Hl. rewrite AuthParamProps.getptr_spec by lia. rewrite (proj2 (Z.leb_le _ _)); [done|]. exact Hl.
Qed.

Lemma data_header_spec m offset flags tsn sid ssn ppid payload :
  packet_has m offset (encode_data flags tsn sid ssn ppid payload) ->
  in_u32 tsn -> in_u16 sid -> in_u16 ssn -> in_u32 ppid ->
  data_chunk_header SCTP_DATA m offset = Some (DataHdr SCTP_DATA flags tsn sid ssn tsn ppid 16).
Proof.
  intros [Hok Ho He Hs Hb] Ht Hsid Hssn Hp. rewrite encode_length in *. unfold data_chunk_header.
  change (SCTP_DATA =? SCTP_IDATA) with false. cbv beta iota.
  rewrite getptr_slice by lia. cbn [mbind option_bind].
  rewrite (slice_prefix _ _ (Z.of_nat (16 + length payload))), Hb by lia.
  set (b := take _ _). pose proof (be32_put tsn [] Ht) as E1. pose proof (be16_put sid [] Hsid) as E2.
  pose proof (be16_put ssn [] Hssn) as E3. pose proof (le32_put ppid [] Hp) as E4.
  change (be32 (drop 4 b)) with (be32 (put32 tsn ++ [])). change (be16 (drop 8 b)) with (be16 (put16 sid ++ [])).
  change (be16 (drop 10 b)) with (be16 (put16 ssn ++ [])). change (le32 (drop 12 b)) with (le32 (put32_le ppid ++ [])).
  change (nth 1 b 0) with flags. by rewrite E1, E2, E3, E4.
Qed.

(** The user data: the same bytes for the last chunk of a packet, which may be followed by
    padding, and for any other. *)
Lemma take_payload_spec env h m offset flags tsn sid ssn ppid payload last s :
  packet_has m offset (encode_data flags tsn sid ssn ppid payload) -> (forall k, rx_alloc env k = true) ->
  dh_clen h = 16 -> payload <> [] ->
  exists d s', take_payload env h m offset (Z.of_nat (length payload)) last s = Some (Some d, s') /\
    chain_bytes d = payload /\ core_of s' = core_of s /\ arrays (ack s') = arrays (ack s).
Proof.
  intros [Hok Ho He Hs Hb] Ha Hh Hne. rewrite encode_length in *.
  assert (Hpay : slice (offset + 16) (Z.of_nat (length payload)) (chain_bytes m) = payload).
  { rewrite (slice_shift _ _ _ (Z.of_nat (16 + length payload))), Hb by lia. unfold slice.
    change (drop (Z.to_nat 16) (encode_data flags tsn sid ssn ppid payload)) with payload. apply take_ge. lia. }
  assert (Hlen : (0 < length payload)%nat) by (destruct payload; [done | simpl; lia]).
  unfold take_payload. rewrite Hh. destruct last.
  - destruct (m_adj_bytes m (offset + 16) Hok) as [Hok1 Hb1]. rewrite (proj2 (Z.leb_le 0 (offset + 16))) in Hb1 by lia.
    set (d := m_adj m (offset + 16)) in *.
    assert (Hl : chain_len d = chain_len m - (offset + 16)).
    { unfold chain_len. rewrite Hb1, length_drop. unfold chain_len in He. lia. }
    set (d' := if Z.of_nat (length payload) <? chain_len d then _ else d).
    assert (Hd' : chain_bytes d' = payload).
    { rewrite <- Hpay. unfold slice. rewrite <- Hb1. subst d'. rewrite Hl.
      destruct (Z.ltb_spec (Z.of_nat (length payload)) (chain_len m - (offset + 16))) as [Hlt | Hge].
      - destruct (m_adj_bytes d (- (chain_len m - (offset + 16) - Z.of_nat (length payload))) Hok1) as [_ ->].
        destruct (Z.leb_spec 0 (- (chain_len m - (offset + 16) - Z.of_nat (length payload)))); [lia|].
        rewrite Hl. f_equal. lia.
      - symmetry. apply take_ge. rewrite Hb1, length_drop. unfold chain_len in *. lia. }
    destruct d' as [|x d'']; [by subst payload|]. by eexists _, s.
  - destruct (m_copym_slice (fun k => rx_alloc env (allocs s + k)) m (offset + 16) (Z.of_nat (length payload)))
      as (r & -> & Hr & Hd); [done | | lia | unfold M_COPYALL in *; lia | lia |].
    { intros ->. unfold chain_len in He. simpl in He. lia. }
    cbn [mbind option_bind]. destruct Hr as [d ->]; [auto|]. destruct (Hd d eq_refl) as [_ Hbd].
    rewrite (proj2 (Z.eqb_neq (Z.of_nat (length payload)) M_COPYALL)), Hpay in Hbd by lia.
    destruct d as [|x d']; [by subst payload|]. by eexists _, _.
Qed.

End Wire.
