(* ===== verification/RecvStream.v ===== *)
(** * The streams while a chunk is handled

    How near the messages in the queues are to each other and to the cumulative TSN, and
    what the steps of the handler do to the invariant of all streams; then messages in one
    piece. *)

From Stdlib Require Import Sorted.
From S2P Require Import Prelude Serial Tailq TsnMap TsnMapInv Sack Mbuf MbufProps Reasm ReasmQueue RecvData.
From S2P Require Import RecvPlan RecvInv RecvOps RecvDeliver RecvMerge RecvQueue.

Open Scope sctp_scope.

Section Streams.
Context (msg : nat -> nat -> option message) (env : rx_env) (Henv : env_ok env).
Context (Hplan : plan_ok msg (pd_point env)).

(** ** Distances *)

Lemma not_complete R m : ~ complete R m -> exists i, (i < m_size m)%nat /\ ~ has R (frag_tsn m i).
Proof.
  intros H. destruct (decide (Forall (fun i => has R (frag_tsn m i)) (seq 0 (m_size m)))) as [Hf | Hf].
  - destruct H. intros i Hi. rewrite Forall_forall in Hf. apply Hf, elem_of_seq. lia.
  - apply not_Forall_Exists in Hf; [|apply _]. apply Exists_exists in Hf as (i & Hi%elem_of_seq & Hn).
    exists i. split; [lia | done].
Qed.

Lemma plan_below sid D j m : msg sid j = Some m -> (D <= j)%nat -> is_Some (msg sid D).
Proof.
  intros Hm Hle. replace j with (D + (j - D))%nat in Hm by lia. revert m Hm.
  induction (j - D)%nat as [|k IH]; intros m Hm; [rewrite Nat.add_0_r in Hm; eauto|].
  rewrite Nat.add_succ_r in Hm. destruct (po_down _ _ Hplan _ _ _ Hm) as [m' Hm']. eauto.
Qed.

(** Of the first message that is not complete, a fragment is above the cumulative TSN. *)
Lemma gap_above R C s sid D m :
  tracks R C s -> complete_prefix msg R sid D -> msg sid D = Some m ->
  exists i, (i < m_size m)%nat /\ ~ has R (frag_tsn m i) /\ C < frag_tsn m i.
Proof.
  intros HT [_ Hno] Hm. destruct (not_complete R m (Hno m Hm)) as (i & Hi & Hn). exists i.
  split; [done|]. split; [done|]. destruct (Z.lt_ge_cases C (frag_tsn m i)) as [|Hge]; [done|].
  destruct Hn. by eapply tracks_below.
Qed.

Lemma recents_prefix R C s sid D :
  tracks R C s -> complete_prefix msg R sid D -> recents msg R (C + 1) sid D.
Proof.
  intros HT Hp j m i Hj Hm Hi. destruct (plan_below _ _ _ _ Hm Hj) as [mD HD].
  destruct (gap_above _ _ _ _ _ _ HT Hp HD) as (k & Hk & _ & Hgt).
  pose proof (mo_few _ _ (po_msg _ _ Hplan _ _ _ HD)). unfold recent.
  destruct (Nat.eq_dec j D) as [-> |].
  - assert (m = mD) as -> by congruence. unfold frag_tsn in *. lia.
  - pose proof (plan_lt _ _ Hplan _ _ _ _ _ HD Hm). unfold frag_tsn in *. lia.
Qed.

Lemma recents_down R R' C C' sid D : C' <= C -> recents msg R C sid D -> recents msg R' C' sid D.
Proof. intros Hle H j m i Hj Hm Hi. specialize (H j m i Hj Hm Hi). unfold recent in *. lia. Qed.

(** Fragments that the arrays have a place for belong to messages near the next one. *)
Lemma window R C s sid D j m i :
  tracks R C s -> complete_prefix msg R sid D -> msg sid j = Some m -> (i < m_size m)%nat ->
  ~ has R (frag_tsn m i) -> frag_tsn m i <= C + 8449 -> Z.of_nat D <= Z.of_nat j < Z.of_nat D + 16384.
Proof.
  intros HT Hp Hm Hi Hn Hle. destruct (Nat.lt_ge_cases j D) as [Hlt | Hge].
  { destruct Hp as [Hp _]. destruct (Hp j Hlt) as (m' & Hm' & Hc). assert (m' = m) as -> by congruence.
    destruct Hn. by apply Hc. }
  destruct (plan_below _ _ _ _ Hm Hge) as [mD HD].
  destruct (gap_above _ _ _ _ _ _ HT Hp HD) as (k & Hk & _ & Hgt).
  destruct (Nat.eq_dec j D) as [-> |]; [lia|].
  pose proof (plan_lt _ _ Hplan _ _ _ _ _ HD Hm). unfold frag_tsn in *. lia.
Qed.

(** ** Steps that deliver nothing *)

Record quiet (s s' : receiver) : Prop := Quiet {
  qu_strm : strmin s' = strmin s;
  qu_store : controls s' = controls s;
  qu_next : next_control s' = next_control s;
  qu_read : read_queue s' = read_queue s;
  qu_reset : resetHead s' = resetHead s;
  qu_state : assoc_state (ack s') = assoc_state (ack s);
  qu_eff : exists e, effects s' = effects s ++ e /\ Forall (fun e => aborts e = false) e /\ deliveries e = []
}.

Lemma quiet_core s s' : core_of s' = core_of s -> quiet s s'.
Proof. intros [= E1 E2 E3 E4 E5 E6 E7]. split; try done. exists []. by rewrite app_nil_r. Qed.

Lemma quiet_emit e s : aborts e = false -> delivery_of e = None -> quiet s (emit e s).
Proof.
  intros He Hd. split; try done. exists [e]. split; [done|]. split; [by repeat constructor|].
  unfold deliveries. simpl. by rewrite Hd.
Qed.

Lemma quiet_steps s1 s2 s3 : quiet s1 s2 -> quiet s2 s3 -> quiet s1 s3.
Proof.
  intros [A1 A2 A3 A4 A5 A6 (e1 & E1 & F1 & G1)] [B1 B2 B3 B4 B5 B6 (e2 & E2 & F2 & G2)]. split; try congruence.
  exists (e1 ++ e2). split; [by rewrite E2, E1, app_assoc|]. split; [by apply Forall_app|].
  by rewrite deliveries_app, G1, G2.
Qed.

Lemma stream_ok_quiet R s s' sid x D js : quiet s s' -> stream_ok msg R s sid x D js -> stream_ok msg R s' sid x D js.
Proof.
  intros [A1 A2 A3 A4 A5 A6 (e & E & F & G)] [H1 H2 H3 H4]. split; [| |done|].
  - unfold strm in *. by rewrite A1.
  - by rewrite A2.
  - by rewrite E, deliveries_app, G, app_nil_r.
Qed.

Lemma queues_quiet R n s s' : quiet s s' -> queues_ok msg R n s -> queues_ok msg R n s'.
Proof.
  intros Hq [H1 H2 H3 H4 H5 H6 H7]. pose proof Hq as [A1 A2 A3 A4 A5 A6 (e & E & F & G)]. split; try congruence.
  - intros p. rewrite A2, A3. apply H4.
  - rewrite E. by apply Forall_app.
  - intros sid Hs. destruct (H7 sid Hs) as (x & D & js & H). exists x, D, js. by eapply stream_ok_quiet.
Qed.

(** A new control, not in any queue. *)
Lemma stream_store_keep R store store' sid x D js :
  (forall p c, store !! p = Some c -> store' !! p = Some c) ->
  stream_at msg R store sid x D js -> stream_at msg R store' sid x D js.
Proof.
  intros Hk [H1 H2 H3 H4 H5 H6 H7 H8]. split; try done. eapply Forall2_impl; [exact H5|].
  intros p j (c & Hc & Hw). exists c. auto.
Qed.

Lemma new_ctl_keep R n s c p c' : queues_ok msg R n s -> controls s !! p = Some c' ->
  controls (new_ctl c s).2 !! p = Some c'.
Proof.
  intros Hq Hp. simpl. rewrite lookup_insert_ne; [done|]. intros <-. rewrite (qo_fresh _ _ _ _ Hq) in Hp by lia. done.
Qed.

Lemma stream_ok_new R n s c sid x D js :
  queues_ok msg R n s -> stream_ok msg R s sid x D js -> stream_ok msg R (new_ctl c s).2 sid x D js.
Proof.
  intros Hq [H1 H2 H3 H4]. split; try done. eapply stream_store_keep; [|exact H2]. intros p c' Hp.
  by eapply new_ctl_keep.
Qed.

Lemma queues_new R n s c : queues_ok msg R n s -> queues_ok msg R n (new_ctl c s).2.
Proof.
  intros Hq. pose proof Hq as [H1 H2 H3 H4 H5 H6 H7]. split; try done.
  - intros p Hp. simpl in *. rewrite lookup_insert_ne by lia. apply H4. lia.
  - intros sid Hs. destruct (H7 sid Hs) as (x & D & js & H). exists x, D, js. by eapply stream_ok_new.
Qed.

(** ** Steps on one stream *)

Lemma on_stream_app sid a b : on_stream sid (a ++ b) = on_stream sid a ++ on_stream sid b.
Proof. unfold on_stream. apply filter_app. Qed.

Lemma on_stream_sent sid sid' j n :
  on_stream sid (sent_from msg sid' j n) = if decide (sid = sid') then sent_from msg sid' j n else [].
Proof.
  unfold sent_from, on_stream. revert j. induction n as [|n IH]; intros j; simpl; [by destruct (decide _)|].
  unfold sent at 1. destruct (msg sid' j) as [m|] eqn:Em; simpl; [|rewrite IH; unfold sent at 2; rewrite Em; done].
  rewrite filter_cons, IH. unfold sent at 3. rewrite Em. simpl.
  destruct (decide (sid = sid')) as [-> | Hne]; [by rewrite decide_True|]. rewrite decide_False; [done|]. lia.
Qed.

Lemma prefix_apart R sid D sid' j m i :
  complete_prefix msg R sid D -> msg sid' j = Some m -> (i < m_size m)%nat -> sid' <> sid ->
  complete_prefix msg (receive R (frag_tsn m i)) sid D.
Proof.
  intros [H1 H2] Hm Hi Hne. split.
  - intros k Hk. destruct (H1 k Hk) as (m' & Hm' & Hc). exists m'. split; [done|]. intros i' Hi'.
    rewrite has_receive. right. by apply Hc.
  - intros m' Hm' Hc. apply (H2 m' Hm'). intros i' Hi'. specialize (Hc i' Hi').
    apply has_receive in Hc as [E |]; [|done].
    destruct (frag_unique _ _ Hplan _ _ _ _ _ _ _ _ Hm' Hm Hi' Hi E) as [-> _]. done.
Qed.

(** A fragment of one stream is taken, and the stream goes on from there. *)
Lemma queues_progress R n s s' C sid j m i x x' D D' js js' :
  queues_ok msg R n s -> stream_ok msg R s sid x D js -> msg sid j = Some m -> (i < m_size m)%nat ->
  progress msg sid (receive R (frag_tsn m i)) C s s' x' D D' ->
  stream_at msg (receive R (frag_tsn m i)) (controls s') sid x' D' js' ->
  complete_prefix msg (receive R (frag_tsn m i)) sid D' ->
  queues_ok msg (receive R (frag_tsn m i)) n s'.
Proof.
  intros [H1 H2 H3 H4 H5 H6 H7] [S1 S2 S3 S4] Hm Hi [P1 P2 P3 P4 P5 P6 P7 P8 P9 (e & E & F & G)] Hst Hpre.
  pose proof (lookup_lt_Some _ _ _ S1) as Hlen.
  split; try congruence.
  - intros p Hp. rewrite P5 in Hp. auto.
  - rewrite E. by apply Forall_app.
  - by rewrite P2, length_insert.
  - intros k Hk. destruct (decide (k = sid)) as [-> | Hne].
    + exists x', D', js'. split; [|done|done|].
      * unfold strm. rewrite P2. by apply list_lookup_insert_eq.
      * rewrite E, deliveries_app, on_stream_app, S4, G, on_stream_sent, decide_True by done.
        replace D' with (D + (D' - D))%nat at 2 by lia. by rewrite sent_from_app.
    + destruct (H7 k Hk) as (xk & Dk & jsk & [K1 K2 K3 K4]). exists xk, Dk, jsk. split.
      * unfold strm in *. by rewrite P2, list_lookup_insert_ne.
      * apply (stream_apart _ _ Hplan R (controls s) _ k xk Dk jsk sid j m i); try done.
        intros p c Hp Hc. apply P3; [done|]. rewrite Hc. lia.
      * by apply (prefix_apart _ _ _ sid j m i); auto.
      * rewrite E, deliveries_app, on_stream_app, K4, G, on_stream_sent, decide_False by done. apply app_nil_r.
Qed.

End Streams.

(** ** Messages in one piece, and the end of the handler

    A message that is next goes to the application at once, together with what was waiting
    for it; another one is put into the queue of its stream. *)

Section Single.
Context (msg : nat -> nat -> option message) (env : rx_env) (Henv : env_ok env).
Context (Hplan : plan_ok msg (pd_point env)).

(** The stream after message [D], which was not in its queue, has been delivered. *)
Lemma stream_next R store store' sid x D js m v :
  stream_at msg R store sid x D js -> msg sid D = Some m -> m_size m = 1%nat -> D ∉ js -> v = u32 (Z.of_nat D) ->
  (forall p c, p ∈ inqueue x -> store !! p = Some c -> store' !! p = Some c) ->
  stream_at msg (receive R (frag_tsn m 0)) store' sid (x <| last_mid_delivered := v |>) (S D) js.
Proof.
  intros [H1 H2 H3 H4 H5 H6 H7 H8] Hm Hn Hj -> Hkeep. assert (Hs : (0 < m_size m)%nat) by lia.
  split; try done.
  - cbn. f_equal. lia.
  - intros j Hlt. destruct (Nat.eq_dec j D) as [-> |].
    + exists m. split; [done|]. intros i Hi. replace i with 0%nat by lia. apply has_this.
    + destruct (H4 j) as (m' & Hm' & Hc); [lia|]. exists m'. split; [done|]. intros i Hi.
      rewrite has_receive. right. by apply Hc.
  - eapply Forall2_impl_in; [exact H5|]. intros p j Hp Hin (c & Hc & Hw). exists c. split; [by apply Hkeep|].
    eapply waits_apart; [done | exact Hm | done | | exact Hw]. intros [_ ->]. done.
  - rewrite Forall_forall in H7 |- *. intros j Hin. specialize (H7 j Hin). simpl in *.
    assert (j <> D) by (intros ->; done). lia.
  - intros j m' i Hm' Hle Hi Hh. apply has_receive in Hh as [E |]; [|eapply H8; [done | lia | done | done]].
    destruct (frag_unique _ _ Hplan _ _ _ _ _ _ _ _ Hm' Hm Hi Hs E) as [_ ->]. lia.
Qed.

(** The control of a whole message. *)
Lemma whole_text sid j m c : ctl_at sid j m 1 [] c -> m_size m = 1%nat -> chain_bytes (data c) = m_text m.
Proof. intros Hct Hn. destruct (complete_ctl _ _ _ _ _ _ Hct (eq_sym Hn)) as [H _]. done. Qed.

(** Handing it over. *)
Lemma hand_single R C s s1 sid x D js p c m x1 v :
  strm s sid = Some x -> stream_at msg R (controls s) sid x D js -> controls s !! p = Some c -> p ∉ inqueue x ->
  msg sid D = Some m -> ctl_at sid D m 1 [] c -> m_size m = 1%nat -> D ∉ js -> read_queue s = [] ->
  core_of s1 = Core (<[sid := x1]> (strmin s)) (controls s) (next_control s) [] (resetHead s) (effects s) (assoc_state (ack s)) ->
  tracks (receive R (frag_tsn m 0)) C s1 -> v = u32 (Z.of_nat D) ->
  exists s2, sctp_add_to_readq env p 1 s1 = Some s2 /\ strm s2 sid = Some x1 /\
    let s' := put_strm sid (x <| last_mid_delivered := v |>) s2 in
    progress msg sid (receive R (frag_tsn m 0)) C s s' (x <| last_mid_delivered := v |>) D (S D) /\
    stream_at msg (receive R (frag_tsn m 0)) (controls s') sid (x <| last_mid_delivered := v |>) (S D) js.
Proof.
  intros Hx Hst Hc Hp Hm Hct Hn Hj Hrd [= E1 E2 E3 E4 E5 E6 E7] HT Hv.
  pose proof (lookup_lt_Some _ _ _ Hx) as Hlen.
  destruct (text_some msg env Hplan _ _ _ Hm) as [Hne Hsmall]. pose proof (whole_text _ _ _ _ Hct Hn) as Htext.
  destruct (add_to_readq_up env Henv _ C s1 p c HT) as (s2 & E & HT2 & C2).
  { by rewrite E2. } { done. } { by rewrite Htext. }
  { rewrite chain_len_text, Htext. pose proof (eo_pd _ Henv). lia. }
  injection C2 as F1 F2 F3 F4 F5 F6 F7. exists s2. split; [done|].
  assert (Hs2 : strm s2 sid = Some x1).
  { unfold strm. rewrite F1, E1. by apply list_lookup_insert_eq. }
  split; [done|]. set (s' := put_strm _ _ s2).
  assert (Hho : handed_over s s' sid (x <| last_mid_delivered := v |>) p
            (Upcall (chain_bytes (data c)) (sinfo_stream c) (u16 (mid c)) (sinfo_flags c) (sinfo_ppid c) (sinfo_tsn c)
               (sinfo_cumtsn c) true)).
  { unfold handed_over, core_of. cbn. rewrite F1, F2, F3, F4, F5, F6, F7, E1, E2, E3, E5, E6, E7.
    by rewrite list_insert_insert_eq. }
  destruct (ct_tsn _ _ _ _ _ _ Hct) as [Htsn Hppid]; [lia|]. split.
  - eapply handed_progress; [exact Hho | by eapply tracks_arrays; [|exact HT2] | exact Hc | apply Hct | exact Hm |].
    unfold upcall_for. simpl. by rewrite Htext, Htsn, Hppid, (ct_stream _ _ _ _ _ _ Hct), (ct_mid _ _ _ _ _ _ Hct), u16_idem.
  - pose proof (f_equal k_store Hho) as Ek. simpl in Ek. change (controls s') with (controls s2) in *. rewrite Ek.
    eapply stream_next; try done. intros q c' Hq Hqc. rewrite lookup_delete_ne; [done|]. by intros ->.
Qed.

Lemma last_mid_gt R store sid x D js j :
  stream_at msg R store sid x D js -> Z.of_nat D <= Z.of_nat j < Z.of_nat D + 16384 ->
  SCTP_MID_GT 0 (last_mid_delivered x) (u16 (Z.of_nat j)) = false.
Proof.
  intros Hst Hw. rewrite (sa_last _ _ _ _ _ _ _ Hst).
  rewrite (mid_gt_spec _ _ (Z.of_nat D - 1) (Z.of_nat j)) by (rewrite ?u16_u32, ?u16_idem; done || lia).
  apply Z.ltb_ge. lia.
Qed.

Lemma last_mid_ge R store sid x D js j :
  stream_at msg R store sid x D js -> Z.of_nat D <= Z.of_nat j < Z.of_nat D + 16384 ->
  SCTP_MID_GE 0 (last_mid_delivered x) (u16 (Z.of_nat j)) = false.
Proof.
  intros Hst Hw. rewrite (sa_last _ _ _ _ _ _ _ Hst).
  rewrite (mid_ge_spec _ _ (Z.of_nat D - 1) (Z.of_nat j)) by (rewrite ?u16_u32, ?u16_idem; done || lia).
  apply Z.leb_gt. lia.
Qed.

Lemma next_mid_eq R store sid x D js j :
  stream_at msg R store sid x D js -> Z.of_nat D <= Z.of_nat j < Z.of_nat D + 16384 ->
  SCTP_MID_EQ 0 (u32 (last_mid_delivered x + 1)) (u16 (Z.of_nat j)) = (D =? j)%nat.
Proof.
  intros Hst Hw. rewrite (sa_last _ _ _ _ _ _ _ Hst), u32_add_l.
  rewrite (mid_eq_spec _ _ (Z.of_nat D) (Z.of_nat j)); [| |by rewrite u16_idem | lia].
  - destruct (Nat.eqb_spec D j) as [-> |]; [apply Z.eqb_refl | apply Z.eqb_neq; lia].
  - rewrite u16_u32. f_equal. lia.
Qed.

(** [sctp_queue_data_to_stream] *)
Lemma queue_to_stream_spec R C s sid x D js j p c m :
  strm s sid = Some x -> stream_at msg R (controls s) sid x D js -> complete_prefix msg R sid D ->
  controls s !! p = Some c -> p ∉ inqueue x ->
  msg sid j = Some m -> ctl_at sid j m 1 [] c -> last_frag_seen c = 1 -> m_size m = 1%nat -> j ∉ js ->
  Z.of_nat D <= Z.of_nat j < Z.of_nat D + 16384 -> read_queue s = [] ->
  tracks (receive R (frag_tsn m 0)) C s -> recents msg R C sid D ->
  exists need s' x' D' js', sctp_queue_data_to_stream env p false s = Some (false, need, s') /\
    progress msg sid (receive R (frag_tsn m 0)) C s s' x' D D' /\
    stream_at msg (receive R (frag_tsn m 0)) (controls s') sid x' D' js' /\
    (need = false -> complete_prefix msg (receive R (frag_tsn m 0)) sid D').
Proof.
  intros Hx Hst Hpre Hc Hp Hm Hct Hlast Hn Hj Hwin Hrd HT Hrec. set (R' := receive R (frag_tsn m 0)) in *.
  assert (Hs : (0 < m_size m)%nat) by lia.
  unfold sctp_queue_data_to_stream. change (ctl s p) with (controls s !! p). rewrite Hc. cbn [mbind option_bind].
  rewrite (ct_stream _ _ _ _ _ _ Hct), Nat2Z.id, Hx, eo_data, (ct_mid _ _ _ _ _ _ Hct) by done. cbn [mbind option_bind].
  rewrite (last_mid_gt _ _ _ _ _ _ _ Hst Hwin), (next_mid_eq _ _ _ _ _ _ _ Hst Hwin).
  destruct (Nat.eqb_spec D j) as [<- | Hne].
  - (* next: delivered, and what waited for it *)
    destruct (ct_tsn _ _ _ _ _ _ Hct) as [Htsn Hppid]; [lia|]. rewrite Htsn.
    match goal with |- context [mark_non_revokable env _ ?t] =>
      destruct (mark_spec env R' C t (m_tsn m)) as (s1 & -> & HT1 & C1) end;
      [by eapply tracks_arrays; [|exact HT] | | |].
    { replace (m_tsn m) with (frag_tsn m 0) by (unfold frag_tsn; lia). apply has_this. }
    { replace (m_tsn m) with (frag_tsn m 0) by (unfold frag_tsn; lia). eapply Hrec; [|exact Hm|]; lia. }
    cbn [mbind option_bind].
    set (x1 := x <| last_mid_delivered := u32 (last_mid_delivered x + 1) |>) in *.
    assert (Hv : u32 (last_mid_delivered x + 1) = u32 (Z.of_nat D)) by (by eapply next_mid).
    destruct (hand_single R C s s1 sid x D js p c m x1 (u32 (last_mid_delivered x + 1)))
      as (s2 & E & Hs2 & Hpg & Hst2); try done.
    { rewrite C1. unfold core_of. cbn. by rewrite Hrd. }
    rewrite E. cbn [mbind option_bind]. rewrite Hs2. cbn [mbind option_bind]. fold x1 in Hpg, Hst2.
    assert (Ep : put_strm sid x1 s2 = s2).
    { unfold put_strm. rewrite list_insert_id by done. by destruct s2. }
    rewrite Ep in Hpg, Hst2.
    destruct (deliver_singles_spec msg env Henv Hplan R' C sid (inqueue x1) js s2 x1 (S D) false)
      as (need & s3 & x3 & D3 & js3 & E3 & Hpg3 & Hst3 & Hpre3); try done.
    { apply Hpg. } { apply Hpg. }
    { eapply recents_le; [|eapply recents_down; [|exact Hrec]]; [lia | lia]. }
    rewrite E3. cbn [mbind option_bind]. exists need, s3, x3, D3, js3. split; [done|].
    split; [by eapply progress_trans|]. done.
  - set (s0 := on_ack _ s).
    destruct (place_spec env Henv s0 sid x p c js j) as (u & v & ju & jv & s1 & Eq & Ej & Hlen & Hju & Hjv & E1 & A1 & C1);
      [done | done | apply Hct | apply Hct | done | by eapply stream_numbered | by eapply stream_close | apply Hst | done |].
    rewrite E1. cbn [mbind option_bind].
    injection C1 as F1 F2 F3 F4 F5 F6 F7. change (strmin s0) with (strmin s) in *.
    change (controls s0) with (controls s) in *. change (read_queue s0) with (read_queue s) in *.
    exists false, s1, (x <| inqueue := u ++ p :: v |>), D, (ju ++ j :: jv). split; [done|].
    assert (HT1 : tracks R' C s1) by (by eapply tracks_arrays; [|exact HT]).
    assert (Hplaced : ctl_at sid j m 1 [] (placed c) /\ last_frag_seen (placed c) = 1).
    { unfold placed. rewrite (ct_whole _ _ _ _ _ _ Hct), Hn. cbn [Nat.eqb]. split; [|done].
      destruct Hct. split; try done; [by rewrite Hn]. }
    destruct Hplaced as [Hct' Hl'].
    split; [|split].
    + split; try done; try congruence.
      * intros q c' Hq Hqne. rewrite F2, lookup_insert_ne; [done|]. intros ->. rewrite Hc in Hq. injection Hq as <-.
        apply Hqne, Hct.
      * intros q Hq. rewrite F2, lookup_insert_ne; [done|]. intros ->. congruence.
      * exists []. rewrite F6, app_nil_r, Nat.sub_diag. done.
    + rewrite F2. eapply stream_store; try done; [by left | by rewrite <- Eq |].
      exists m, 1%nat, []. split; [done|]. split; [done|]. split; [done|]. split; [lia|]. split; [done|].
      split; [|split; [apply not_elem_of_nil | left; lia]].
      intros k Hk. replace k with 0%nat by lia. split; [left; lia | intros _; apply has_this].
    + intros _. destruct Hpre as [H1 H2]. split.
      * intros k Hk. destruct (H1 k Hk) as (m' & Hm' & Hc'). exists m'. split; [done|]. intros i' Hi'.
        unfold R'. rewrite has_receive. right. by apply Hc'.
      * intros m' Hm' Hc'. apply (H2 m' Hm'). intros i' Hi'. specialize (Hc' i' Hi').
        apply has_receive in Hc' as [E |]; [|done].
        destruct (frag_unique _ _ Hplan _ _ _ _ _ _ _ _ Hm' Hm Hi' Hs E) as [_ ->]. done.
Qed.

(** *** The end of the handler *)

Lemma cumack_tracks R C s z : tracks R C s -> has R z -> C < z <= C + half32 ->
  tracks R (if z =? C + 1 then z else C)
    (on_ack (fun a => a <| arrays := data_chunk_cumack (arrays a) (u32 z) |>) s).
Proof.
  intros (B & Hmx & Hnx & HR & HF) Hz Hr. pose proof HR as [HA Cc Cw Cb Cm Cf Cd].
  pose proof (arr_size _ _ _ _ _ HA).
  exists B, Hmx, Hnx. split; [|done]. change (arrays (ack (on_ack _ s))) with (data_chunk_cumack (arrays (ack s)) (u32 z)).
  unfold data_chunk_cumack. rewrite Cc, u32_add_l, u32_eqb by lia. destruct (Z.eqb_spec z (C + 1)) as [E|]; [|done].
  destruct HA as [Lm Lnr Sz Om Onr Eb Em En Be Ab Bi Tm Tn Im In].
  assert (Hzb : z < B + 8 * mapping_array_size (arrays (ack s))).
  { destruct (Z.lt_ge_cases z (B + 8 * mapping_array_size (arrays (ack s)))) as [|Hge]; [done|]. by apply Ab in Hge. }
  assert (Hmax : z <= Z.max Hmx Hnx).
  { specialize (Bi z ltac:(lia)). apply Bi in Hz. unfold seen in Hz. apply orb_true_iff in Hz as [Hz | Hz].
    - specialize (Tm _ Hz). lia.
    - specialize (Tn _ Hz). lia. }
  split; cbn; try done; try lia. intros t Ht. destruct (Z.eq_dec t z) as [-> |]; [done|]. apply Cb. lia.
Qed.

Lemma finish_spec R C s sid x D js h need z :
  strm s sid = Some x -> stream_at msg R (controls s) sid x D js -> tracks R C s -> read_queue s = [] ->
  resetHead s = [] -> recents msg R (C + 1) sid D -> has R z -> C < z <= C + half32 -> dh_tsn h = u32 z ->
  dh_sid h = Z.of_nat sid -> (need = false -> complete_prefix msg R sid D) ->
  exists s' x' D' js' C', finish_data env h need s = Some (Taken, s') /\ progress msg sid R C' s s' x' D D' /\
    stream_at msg R (controls s') sid x' D' js' /\ complete_prefix msg R sid D' /\ C <= C' <= C + 1.
Proof.
  intros Hx Hst HT Hrd Hre Hrec Hz Hr Htsn Hsid Hneed. unfold finish_data. rewrite Htsn, Hsid, Nat2Z.id.
  pose proof (cumack_tracks R C s z HT Hz Hr) as HT1. set (C' := if z =? C + 1 then z else C) in *.
  set (s1 := on_ack _ s) in *. assert (HC' : C <= C' <= C + 1) by (subst C'; destruct (Z.eqb_spec z (C + 1)); lia).
  destruct need.
  - destruct (deliver_reasm_check_spec msg env Henv Hplan R C' sid s1 x D js)
      as (ret & s2 & x2 & D2 & js2 & E & Hpg & Hst2 & Hpre); try done.
    { eapply recents_down; [|exact Hrec]. apply HC'. }
    rewrite E. cbn [mbind option_bind]. unfold finish_resets. rewrite (pg_reset _ _ _ _ _ _ _ _ _ Hpg).
    change (resetHead s1) with (resetHead s). rewrite Hre. cbn [mbind option_bind].
    exists s2, x2, D2, js2, C'. split; [done|]. split; [|done]. destruct Hpg. by split.
  - cbn [mbind option_bind]. unfold finish_resets. change (resetHead s1) with (resetHead s). rewrite Hre.
    cbn [mbind option_bind]. exists s1, x, D, js, C'. split; [done|]. split; [by apply progress_refl|]. auto.
Qed.

End Single.
