(* ===== verification/RecvStep.v ===== *)
(** * The handler of a DATA chunk

    [sctp_process_a_data_chunk] on the chunk of a fragment: it returns, it does not abort
    the association, and when it takes the chunk the receiver's invariant holds for the
    TSNs taken before and the new one; otherwise it holds as before. *)

From Stdlib Require Import Sorted.
From S2P Require Import Prelude Serial Tailq TsnMap TsnMapInv Sack Mbuf MbufProps Reasm ReasmQueue RecvData.
From S2P Require Import RecvPlan RecvInv RecvOps RecvDeliver RecvMerge RecvQueue RecvStream.

Open Scope sctp_scope.

Section Step.
Context (msg : nat -> nat -> option message) (env : rx_env) (Henv : env_ok env).
Context (Hplan : plan_ok msg (pd_point env)).

(** ** What is built from the chunk *)

(** The header of fragment [i] of message [j]. *)
Definition frag_hdr (sid j : nat) (m : message) (i : nat) : data_hdr :=
  DataHdr SCTP_DATA (frag_flags m i) (u32 (frag_tsn m i)) (Z.of_nat sid) (u16 (Z.of_nat j))
    (u32 (frag_tsn m i)) (m_ppid m) 16.

Lemma frag_flags_cases m i :
  frag_flags m i = (if (i =? 0)%nat then 2 else 0) + (if (S i =? m_size m)%nat then 1 else 0).
Proof. done. Qed.

Lemma frag_flags_first m i : has_flag (frag_flags m i) SCTP_DATA_FIRST_FRAG = (i =? 0)%nat.
Proof. rewrite frag_flags_cases. by destruct (i =? 0)%nat, (S i =? m_size m)%nat. Qed.

Lemma frag_flags_last m i : has_flag (frag_flags m i) SCTP_DATA_LAST_FRAG = (S i =? m_size m)%nat.
Proof. rewrite frag_flags_cases. by destruct (i =? 0)%nat, (S i =? m_size m)%nat. Qed.

Lemma frag_flags_ordered m i : has_flag (frag_flags m i) SCTP_DATA_UNORDERED = false.
Proof. rewrite frag_flags_cases. by destruct (i =? 0)%nat, (S i =? m_size m)%nat. Qed.

Lemma frag_flags_sack m i : has_flag (frag_flags m i) SCTP_DATA_SACK_IMMEDIATELY = false.
Proof. rewrite frag_flags_cases. by destruct (i =? 0)%nat, (S i =? m_size m)%nat. Qed.

Lemma frag_flags_whole m i : (i < m_size m)%nat -> not_frag (frag_flags m i) = (m_size m =? 1)%nat.
Proof.
  intros Hi. rewrite frag_flags_cases.
  destruct (Nat.eqb_spec i 0), (Nat.eqb_spec (S i) (m_size m)), (Nat.eqb_spec (m_size m) 1); try done; lia.
Qed.

Lemma frag_flags_kept m i : Z.shiftr (u16 (Z.shiftl (frag_flags m i) 8)) 8 = frag_flags m i.
Proof. rewrite frag_flags_cases. by destruct (i =? 0)%nat, (S i =? m_size m)%nat. Qed.

Lemma build_chunk_at sid j m i len d :
  chain_bytes d = frag m i -> chunk_at m i (build_chunk (frag_hdr sid j m i) len d).
Proof.
  intros Hd. split; try done; [apply frag_flags_first | apply frag_flags_last].
Qed.

(** The new control of a fragment, before the fragment is stored, and of a whole message. *)
Lemma build_frag_at sid j m i d : (1 < m_size m)%nat -> (i < m_size m)%nat ->
  ctl_at sid j m 0 [] (build_control (frag_hdr sid j m i) d) /\
  last_frag_seen (build_control (frag_hdr sid j m i) d) = 0 /\
  top_fsn (build_control (frag_hdr sid j m i) d) = 0xffffffff.
Proof.
  intros Hn Hi. unfold build_control. simpl dh_flags. rewrite frag_flags_whole by done.
  destruct (Nat.eqb_spec (m_size m) 1) as [|Hne]; [lia|]. split; [|done].
  split; try done; try constructor; try (intros; lia).
  - unfold flags_of. cbn. rewrite frag_flags_kept. apply frag_flags_ordered.
  - unfold flags_of. cbn. rewrite frag_flags_kept. by apply frag_flags_whole.
  - destruct (Nat.eqb_spec 0 (m_size m)); [lia | done].
Qed.

Lemma build_whole_at sid j m d :
  msg sid j = Some m -> m_size m = 1%nat -> chain_bytes d = frag m 0 ->
  ctl_at sid j m 1 [] (build_control (frag_hdr sid j m 0) d) /\
  last_frag_seen (build_control (frag_hdr sid j m 0) d) = 1.
Proof.
  intros Hm Hn Hd. unfold build_control. simpl dh_flags. rewrite frag_flags_whole, Hn by lia. cbn [Nat.eqb].
  assert (E1 : concat (take 1 (m_frags m)) = frag m 0) by (rewrite (take_frags m 0) by lia; done).
  pose proof (text_small msg env Henv Hplan _ _ _ 1 Hm) as Hsmall. rewrite E1 in Hsmall.
  split; [|done]. split; try done; try constructor; try (intros; lia).
  - unfold flags_of. cbn. rewrite frag_flags_kept. apply frag_flags_ordered.
  - unfold flags_of. cbn. rewrite frag_flags_kept, frag_flags_whole by lia. done.
  - cbn. by rewrite Hn.
  - cbn [data set_field set_data]. by rewrite E1, <- Hd.
  - rewrite E1. cbn [ctl_length set_field]. change (sum_len d = Z.of_nat (length (frag m 0))).
    rewrite sum_len_spec; rewrite chain_len_text, Hd; [done | lia].
  - cbn. unfold frag_tsn. by rewrite Z.add_0_r.
  - done.
Qed.

(** ** Marking *)

Lemma mark_tracks R B C Hm Hn drain a z :
  held R B C Hm Hn a -> C < z < B + 8 * mapping_array_size a ->
  exists a' Hm' Hn', data_chunk_mark drain a (z - B) (u32 z) = Some a' /\ held (receive R z) B C Hm' Hn' a'.
Proof.
  intros [HR HF] Hz. pose proof HR as [HA Cc Cw Cb Cm Cf Cd]. unfold data_chunk_mark.
  unfold held, fresh in *.
  assert (Hb : forall t, t <= C -> has (receive R z) t) by (intros; rewrite has_receive; auto).
  destruct (drain =? 0).
  - destruct (mark_nr_arr R B Hm Hn a z HA) as (a' & E & HA' & [S1 S2 S3 S4 S5]); [lia|].
    exists a', Hm, (Z.max Hn z). split; [done|]. split; [|lia]. split; rewrite ?S1, ?S3, ?S4, ?S5; try done; lia.
  - destruct (mark_r_arr R B Hm Hn a z HA) as (a' & E & HA' & [S1 S2 S3 S4 S5]); [lia|].
    exists a', (Z.max Hm z), Hn. split; [done|]. split; [|lia]. split; rewrite ?S1, ?S3, ?S4, ?S5; try done; lia.
Qed.

(** ** Taking the chunk *)

(** The place of the message of the chunk in the queue of its stream. *)
Definition found (x : stream_in) (js : list nat) (j : nat) (m : message) (control : option nat) : Prop :=
  match control with
  | Some p => (1 < m_size m)%nat /\ exists u v ju jv, inqueue x = u ++ p :: v /\ js = ju ++ j :: jv /\ length u = length ju
  | None => j ∉ js
  end.

(** The state after the control has been found or made. *)
Record with_control (R : received) (n : nat) (s s' : receiver) (sid : nat) (x : stream_in) (D : nat) (js : list nat)
    (j : nat) (m : message) (i : nat) (d : list mbuf) (p : nat) (created : bool) : Prop := WithControl {
  wc_queues : queues_ok msg R n s';
  wc_stream : stream_ok msg R s' sid x D js;
  wc_arrays : arrays (ack s') = arrays (ack s);
  wc_new : created = true -> controls s' !! p = Some (build_control (frag_hdr sid j m i) d) /\ (j ∉ js) /\ p ∉ inqueue x;
  wc_found : created = false -> found x js j m (Some p)
}.

Lemma control_spec R n s sid x D js j m i d control :
  queues_ok msg R n s -> stream_ok msg R s sid x D js -> found x js j m control ->
  exists p created s', (match control with
       | Some p => (Some (p, false), s)
       | None => let '(ok, s) := alloc_ok env s in
                 if (ok : bool) then let '(p, s) := new_ctl (build_control (frag_hdr sid j m i) d) s in (Some (p, true), s)
                 else (None, s)
       end) = (Some (p, created), s') /\ with_control R n s s' sid x D js j m i d p created.
Proof.
  intros Hq Hs Hf. destruct control as [p|].
  - exists p, false, s. split; [done|]. by split.
  - rewrite (memory_ok _ Henv). cbn [new_ctl]. set (s1 := s <| allocs := S (allocs s) |>).
    assert (Hq1 : queues_ok msg R n s1) by (eapply queues_quiet; [|exact Hq]; by apply quiet_core).
    assert (Hs1 : stream_ok msg R s1 sid x D js) by (eapply stream_ok_quiet; [|exact Hs]; by apply quiet_core).
    eexists _, true, _. split; [reflexivity|]. split; try done.
    + exact (queues_new msg R n s1 _ Hq1).
    + exact (stream_ok_new msg R n s1 _ sid x D js Hq1 Hs1).
    + intros _. cbn. rewrite lookup_insert_eq. split; [done|]. split; [done|]. intros Hin.
      apply list_elem_of_lookup_1 in Hin as [k Hk].
      destruct (Forall2_lookup_l _ _ _ _ _ (sa_queue _ _ _ _ _ _ _ (so_at _ _ _ _ _ _ _ Hs1)) Hk) as (j' & _ & c & Hc & _).
      rewrite (qo_fresh _ _ _ _ Hq1) in Hc by done. done.
Qed.

(** Hypotheses of the part after the lookup: fragment [i] of message [j] has not been
    taken, and the arrays have a place for it. *)
Context (R : received) (B C Hm Hn : Z) (n sid j i : nat) (m : message).
Context (Hmsg : msg sid j = Some m) (Hi : (i < m_size m)%nat) (Hnew : ~ has R (frag_tsn m i)).

Lemma express_spec s x D js p d :
  queues_ok msg R n s -> stream_ok msg R s sid x D js -> held R B C Hm Hn (arrays (ack s)) ->
  C < frag_tsn m i < B + 8 * mapping_array_size (arrays (ack s)) -> frag_tsn m i <= C + half32 ->
  m_size m = 1%nat -> j = D -> inqueue x = [] -> controls s !! p = Some (build_control (frag_hdr sid j m i) d) ->
  chain_bytes d = frag m i ->
  exists s' C', (a ← mark_nr (arrays (ack s)) (frag_tsn m i - B) (u32 (frag_tsn m i));
                 s ← sctp_add_to_readq env p 1 (on_ack (fun k => k <| arrays := a |>) s);
                 x ← strm s sid;
                 finish_data env (frag_hdr sid j m i) false
                   (put_strm sid (x <| last_mid_delivered := u32 (last_mid_delivered x + 1) |>) s)) = Some (Taken, s') /\
    rx_inv msg (receive R (frag_tsn m i)) C' n s' /\ C <= C' <= C + 1.
Proof.
  intros Hq [S1 S2 S3 S4] HR Hz Hz2 Hn1 -> Hempty Hc Hd.
  assert (Hi0 : i = 0%nat) by lia. rewrite Hi0 in *.
  destruct (mark_tracks R B C Hm Hn 0 (arrays (ack s)) (frag_tsn m 0) HR) as (a & Hmx & Hnx & E & HR'); [lia|].
  unfold data_chunk_mark in E. cbn [Z.eqb] in E. rewrite E. cbn [mbind option_bind].
  destruct (build_whole_at sid D m d Hmsg Hn1 Hd) as [Hct _].
  assert (js = []) as ->.
  { pose proof (sa_queue _ _ _ _ _ _ _ S2) as H. rewrite Hempty in H. by apply Forall2_nil_inv_l in H. }
  assert (HT0 : tracks R C s) by (by exists B, Hm, Hn).
  pose proof (recents_prefix msg env Hplan R C s sid D HT0 S3) as Hrec.
  destruct (hand_single msg env Henv Hplan R C s (on_ack (fun k => k <| arrays := a |>) s) sid x D [] p _ m x
              (u32 (last_mid_delivered x + 1)) S1 S2 Hc)
    as (s2 & E2 & Hs2 & Hpg & Hst2); try done.
  { rewrite Hempty. apply not_elem_of_nil. } { apply not_elem_of_nil. } { apply Hq. }
  { unfold core_of. cbn. rewrite list_insert_id by done. by rewrite (qo_read _ _ _ _ Hq). }
  { by exists B, Hmx, Hnx. }
  { by eapply next_mid. }
  rewrite E2. cbn [mbind option_bind]. rewrite Hs2. cbn [mbind option_bind].
  set (s3 := put_strm _ _ s2) in *. set (x3 := x <| last_mid_delivered := _ |>) in *.
  assert (Hpre : complete_prefix msg (receive R (frag_tsn m 0)) sid (S D)).
  { split; [apply Hst2|]. intros m' Hm' Hc'. specialize (Hc' 0%nat (msg_some _ _ Hplan _ _ _ Hm')).
    pose proof (sa_all _ _ _ _ _ _ _ Hst2 (S D) m' 0 Hm' (le_n _) (msg_some _ _ Hplan _ _ _ Hm') Hc') as Hin.
    by apply elem_of_nil in Hin. }
  destruct (finish_spec msg env Henv Hplan (receive R (frag_tsn m 0)) C s3 sid x3 (S D) [] (frag_hdr sid D m 0) false
              (frag_tsn m 0)) as (s4 & x4 & D4 & js4 & C' & E4 & Hpg4 & Hst4 & Hpre4 & HC); try done.
  { eapply progress_strm; [exact Hpg|]. by apply lookup_lt_Some in S1. }
  { apply Hpg. } { apply Hpg. }
  { rewrite (pg_reset _ _ _ _ _ _ _ _ _ Hpg). apply Hq. }
  { eapply recents_le; [|eapply recents_down; [|exact Hrec]]; lia. }
  { apply has_this. } { lia. }
  exists s4, C'. split; [exact E4|]. split; [|exact HC]. split; [apply Hpg4|].
  eapply queues_progress; [done | exact Hq | by split | exact Hmsg | lia | | exact Hst4 | done].
  by eapply progress_trans.
Qed.

(** The arrays have been marked; [s] is the state after that. *)
Record marked (R0 : received) (s : receiver) (x : stream_in) (D : nat) (js : list nat) : Prop := Marked {
  mk_tracks : tracks (receive R0 (frag_tsn m i)) C s;
  mk_queues : queues_ok msg R0 n s;
  mk_stream : stream_ok msg R0 s sid x D js;
  mk_window : Z.of_nat D <= Z.of_nat j < Z.of_nat D + 16384;
  mk_recent : recents msg R0 (C + 1) sid D
}.

(** The end of both branches: the fragment is in the queues, [s'] is the state after that. *)
Lemma close_spec s s' x x' D D' js js' need :
  marked R s x D js -> C < frag_tsn m i <= C + half32 ->
  progress msg sid (receive R (frag_tsn m i)) C s s' x' D D' ->
  stream_at msg (receive R (frag_tsn m i)) (controls s') sid x' D' js' ->
  (need = false -> complete_prefix msg (receive R (frag_tsn m i)) sid D') ->
  exists s2 C', finish_data env (frag_hdr sid j m i) need s' = Some (Taken, s2) /\
    rx_inv msg (receive R (frag_tsn m i)) C' n s2 /\ C <= C' <= C + 1.
Proof.
  intros [M1 M2 M3 M4 M5] Hz Hpg Hst Hneed. pose proof (lookup_lt_Some _ _ _ (so_strm _ _ _ _ _ _ _ M3)) as Hlen.
  destruct (finish_spec msg env Henv Hplan (receive R (frag_tsn m i)) C s' sid x' D' js' (frag_hdr sid j m i) need
              (frag_tsn m i)) as (s2 & x2 & D2 & js2 & C' & E & Hpg2 & Hst2 & Hpre2 & HC); try done.
  { by eapply progress_strm. }
  { apply Hpg. } { apply Hpg. }
  { rewrite (pg_reset _ _ _ _ _ _ _ _ _ Hpg). apply M2. }
  { eapply recents_le; [|eapply recents_down; [|exact M5]]; [apply Hpg | lia]. }
  { apply has_this. }
  exists s2, C'. split; [done|]. split; [|exact HC]. split; [apply Hpg2|].
  eapply queues_progress; [done | exact M2 | exact M3 | exact Hmsg | exact Hi | | exact Hst2 | exact Hpre2].
  by eapply progress_trans.
Qed.

(** A message in one piece that is not next, or that waits behind others. *)
Lemma single_spec s x D js p d :
  marked R s x D js -> C < frag_tsn m i <= C + half32 -> m_size m = 1%nat -> (j ∉ js) -> p ∉ inqueue x ->
  controls s !! p = Some (build_control (frag_hdr sid j m i) d) -> chain_bytes d = frag m i ->
  exists s' C', ('(aborted, need, s) ← queue_single env (frag_hdr sid j m i) p s;
                 if (aborted : bool) then Some (Aborted, s) else finish_data env (frag_hdr sid j m i) need s)
                = Some (Taken, s') /\
    rx_inv msg (receive R (frag_tsn m i)) C' n s' /\ C <= C' <= C + 1.
Proof.
  intros HM Hz Hn1 Hj Hp Hc Hd. pose proof HM as [M1 M2 [S1 S2 S3 S4] M4 M5].
  assert (Hi0 : i = 0%nat) by lia.
  assert (Et : frag_tsn m i = frag_tsn m 0) by by rewrite Hi0.
  assert (Eh : frag_hdr sid j m i = frag_hdr sid j m 0) by by rewrite Hi0.
  destruct (build_whole_at sid j m d Hmsg Hn1) as [Hct Hlast]; [by rewrite Hd, Hi0|]. rewrite <- Eh in Hct, Hlast.
  unfold queue_single. change (ctl s p) with (controls s !! p). rewrite Hc. cbn [mbind option_bind].
  rewrite (qo_reset _ _ _ _ M2). simpl dh_flags. rewrite frag_flags_ordered.
  destruct (queue_to_stream_spec msg env Henv Hplan R C s sid x D js j p _ m S1 S2 S3 Hc Hp Hmsg Hct)
    as (need & s1 & x1 & D1 & js1 & E & Hpg & Hst & Hpre); try done.
  { apply M2. } { by rewrite <- Et. } { eapply recents_down; [|exact M5]. lia. }
  rewrite E. cbn [mbind option_bind]. rewrite <- Et in Hpg, Hst, Hpre. by eapply close_spec.
Qed.

(** A fragment. *)
Lemma fragment_spec s x D js p created d len :
  marked R s x D js -> C < frag_tsn m i <= C + half32 -> (1 < m_size m)%nat -> chain_bytes d = frag m i ->
  (created = true -> controls s !! p = Some (build_control (frag_hdr sid j m i) d) /\ (j ∉ js) /\ p ∉ inqueue x) ->
  (created = false -> found x js j m (Some p)) ->
  exists s' C', ('(aborted, s) ← sctp_queue_data_for_reasm env p (build_chunk (frag_hdr sid j m i) len d) created
                                    (u32 (frag_tsn m i)) s;
                 if (aborted : bool) then Some (Aborted, s) else finish_data env (frag_hdr sid j m i) true s)
                = Some (Taken, s') /\
    rx_inv msg (receive R (frag_tsn m i)) C' n s' /\ C <= C' <= C + 1.
Proof.
  intros HM Hz Hn1 Hd Hnewc Hfound. pose proof HM as [M1 M2 [S1 S2 S3 S4] M4 M5].
  destruct (queue_for_reasm_spec msg env Henv Hplan R C s sid x D js j m i p created
              (build_chunk (frag_hdr sid j m i) len d)) as (s1 & x1 & js1 & E & Hpg & Hst); try done.
  { apply M2. } { eapply recents_down; [|exact M5]. lia. }
  { destruct created; simpl.
    - destruct (Hnewc eq_refl) as (Hc & Hj & Hp). destruct (build_frag_at sid j m i d Hn1 Hi) as (H1 & H2 & H3).
      eexists. done.
    - apply Hfound. done. }
  { by apply build_chunk_at. }
  rewrite E. cbn [mbind option_bind]. by eapply close_spec.
Qed.

Lemma deliver_data_spec s x D js control d len :
  queues_ok msg R n s -> stream_ok msg R s sid x D js -> held R B C Hm Hn (arrays (ack s)) ->
  C < frag_tsn m i < B + 8 * mapping_array_size (arrays (ack s)) -> frag_tsn m i <= C + half32 ->
  found x js j m control -> chain_bytes d = frag m i ->
  exists s' C', deliver_data env (frag_hdr sid j m i) (frag_tsn m i - B) len control d s = Some (Taken, s') /\
    rx_inv msg (receive R (frag_tsn m i)) C' n s' /\ C <= C' <= C + 1.
Proof.
  intros Hq Hs HR Hz Hz2 Hf Hd.
  assert (HT : tracks R C s) by (by exists B, Hm, Hn).
  pose proof (repr_win _ _ _ _ _ _ (proj1 HR)) as Hw. pose proof (arr_size _ _ _ _ _ (repr_arr _ _ _ _ _ _ (proj1 HR))) as Hsz.
  assert (Hwin : Z.of_nat D <= Z.of_nat j < Z.of_nat D + 16384).
  { eapply window; [done | exact HT | apply Hs | exact Hmsg | exact Hi | done | lia]. }
  pose proof (recents_prefix msg env Hplan R C s sid D HT (so_prefix _ _ _ _ _ _ _ Hs)) as Hrec.
  unfold deliver_data. simpl dh_sid. rewrite Nat2Z.id.
  destruct (control_spec R n s sid x D js j m i d control Hq Hs Hf) as (p & created & s1 & -> & [W1 W2 W3 W4 W5]).
  pose proof W2 as [S1 S2 S3 S4]. rewrite S1. cbn [mbind option_bind].
  rewrite (qo_reset _ _ _ _ W1). simpl dh_flags. rewrite frag_flags_whole, frag_flags_ordered, eo_data by done.
  simpl dh_mid. simpl dh_tsn. rewrite (next_mid_eq msg R _ sid x D js j S2 Hwin). rewrite W3.
  destruct (mark_tracks R B C Hm Hn (sctp_do_drain env) (arrays (ack s)) (frag_tsn m i) HR) as (a & Hmx & Hnx & E & HR'); [lia|].
  assert (Hmk : forall s2, core_of s2 = core_of s1 -> arrays (ack s2) = a -> marked R s2 x D js).
  { intros s2 Ec Ea. split; try done.
    - exists B, Hmx, Hnx. by rewrite Ea.
    - eapply queues_quiet; [|exact W1]. by apply quiet_core.
    - eapply stream_ok_quiet; [|exact W2]. by apply quiet_core. }
  destruct (Nat.eqb_spec (m_size m) 1) as [Hn1 | Hn1].
  - (* in one piece: the control is new *)
    assert (created = true) as ->.
    { destruct created; [done|]. destruct (W5 eq_refl) as [H _]. lia. }
    destruct (W4 eq_refl) as (Hc & Hj & Hp). cbn [andb negb orb].
    destruct (Nat.eqb_spec D j) as [HD | HD]; [destruct (inqueue x) as [|q qs] eqn:Eq|]; cbn [andb TAILQ_EMPTY].
    + rewrite <- W3 in HR, Hz |- *. by eapply express_spec.
    + rewrite W3, E. cbn [mbind option_bind]. eapply single_spec; try done; [by apply Hmk | lia | by rewrite Eq].
    + rewrite W3, E. cbn [mbind option_bind]. eapply single_spec; try done; [by apply Hmk | lia].
  - cbn [andb]. rewrite (memory_ok _ Henv). cbn [negb]. change (arrays (ack (s1 <| allocs := _ |>))) with (arrays (ack s1)).
    rewrite W3, E. cbn [mbind option_bind].
    eapply fragment_spec; try done; [by apply Hmk | lia | lia].
Qed.

(** ** The checks before *)

(** What the lookup of the message finds. *)
Lemma find_spec s x D js :
  stream_ok msg R s sid x D js -> Z.of_nat D <= Z.of_nat j < Z.of_nat D + 16384 ->
  exists control, sctp_find_reasm_entry env sid (u16 (Z.of_nat j)) true s = Some control /\
    check_control env (frag_hdr sid j m i) control s = Some (Some control) /\ found x js j m control.
Proof.
  intros [S1 S2 S3 S4] Hwin. unfold sctp_find_reasm_entry. rewrite S1, eo_data by done. cbn [mbind option_bind].
  destruct (find_mid_spec (controls s) (inqueue x) js j) as (r & -> & Hr).
  { by eapply stream_numbered. } { by eapply stream_close. }
  exists r. split; [done|]. destruct r as [p|]; [|done].
  destruct Hr as (u & v & ju & jv & Eq & Ej & Hlen).
  pose proof (sa_queue _ _ _ _ _ _ _ S2) as Hq. rewrite Eq, Ej in Hq.
  apply Forall2_app_inv in Hq as [_ Hq]; [|done]. apply Forall2_cons in Hq as [(c & Hc & Hw) _].
  destruct Hw as (m' & r & l & Hm' & Hct & Hon & Htop & Hl & Hh & Hr & H0). assert (m' = m) as -> by congruence.
  assert (Hn1 : (1 < m_size m)%nat).
  { destruct (Nat.eq_dec (m_size m) 1) as [E1 |]; [|lia]. exfalso. apply Hnew.
    assert (Er : r = m_size m) by (by eapply whole_taken).
    by eapply (holds_all _ _ _ _ Hh Er). }
  split; [|split; [done | by exists u, v, ju, jv]].
  unfold check_control. change (ctl s p) with (controls s !! p). rewrite Hc. cbn [mbind option_bind].
  simpl dh_flags. simpl dh_mid. rewrite frag_flags_ordered, frag_flags_whole, (ct_mid _ _ _ _ _ _ Hct), Z.eqb_refl by done.
  rewrite (ct_ordered _ _ _ _ _ _ Hct). by destruct (Nat.eqb_spec (m_size m) 1); [lia|].
Qed.

Lemma accept_data_spec s pkt offset last :
  queues_ok msg R n s -> (sid < n)%nat -> held R B C Hm Hn (arrays (ack s)) ->
  C < frag_tsn m i < B + 8 * mapping_array_size (arrays (ack s)) -> frag_tsn m i <= C + half32 ->
  packet_has pkt offset (frag_chunk sid j m i) ->
  let r := accept_data env (frag_hdr sid j m i) (frag_tsn m i - B) (16 + Z.of_nat (length (frag m i))) pkt offset last s in
  (exists s' C', r = Some (Taken, s') /\ rx_inv msg (receive R (frag_tsn m i)) C' n s' /\ C <= C' <= C + 1) \/
  (exists s', r = Some (NoRoom, s') /\ no_room env s = true /\ quiet s s' /\ arrays (ack s') = arrays (ack s)).
Proof.
  intros Hq Hsid HR Hz Hz2 Hpkt. destruct (qo_stream _ _ _ _ Hq sid Hsid) as (x & D & js & Hs).
  pose proof Hs as [S1 S2 S3 S4]. assert (HT : tracks R C s) by (by exists B, Hm, Hn).
  pose proof (repr_win _ _ _ _ _ _ (proj1 HR)) as Hw. pose proof (arr_size _ _ _ _ _ (repr_arr _ _ _ _ _ _ (proj1 HR))) as Hsz.
  assert (Hwin : Z.of_nat D <= Z.of_nat j < Z.of_nat D + 16384).
  { eapply window; [done | exact HT | exact S3 | exact Hmsg | exact Hi | done | lia]. }
  destruct (find_spec s x D js Hs Hwin) as (control & E1 & E2 & Hf).
  unfold accept_data. simpl dh_sid. rewrite Nat2Z.id, S1. simpl dh_flags. simpl dh_type.
  change (SCTP_DATA =? SCTP_IDATA) with false. cbn [andb]. rewrite frag_flags_ordered. cbn [negb].
  simpl dh_mid. rewrite E1. cbn [mbind option_bind]. rewrite E2. cbn [mbind option_bind].
  destruct (eo_socket _ Henv) as [hw Ehw]. rewrite Ehw.
  assert (exists inside, (if no_room env s then inside_accepted (frag_hdr sid j m i) control s else Some true) = Some inside
            /\ (no_room env s = false -> inside = true)) as (inside & -> & Hinside).
  { unfold inside_accepted. simpl dh_type. cbn [Z.eqb SCTP_DATA]. destruct (no_room env s); by eexists. }
  cbn [mbind option_bind]. set (s1 := if no_room env s && negb (so_sb_cc s =? 0) then _ else s).
  assert (Hqu : quiet s s1 /\ arrays (ack s1) = arrays (ack s)).
  { subst s1. destruct (_ && _); [|split; [by apply quiet_core | done]]. split; [by apply quiet_emit | done]. }
  destruct Hqu as [Hqu Ha1]. destruct inside; cbn [negb]; cycle 1.
  { right. eexists. split; [reflexivity|]. split; [by destruct (no_room env s); [|specialize (Hinside eq_refl)]|].
    split; [|done]. eapply quiet_steps; [exact Hqu | by apply quiet_core]. }
  left. rewrite eo_data by done. rewrite (last_mid_ge msg R _ sid x D js j S2 Hwin), andb_false_r. simpl dh_clen.
  replace (16 + Z.of_nat (length (frag m i)) - 16) with (Z.of_nat (length (frag m i))) by lia.
  destruct (take_payload_spec env (frag_hdr sid j m i) pkt offset (frag_flags m i) (u32 (frag_tsn m i)) (Z.of_nat sid)
              (u16 (Z.of_nat j)) (m_ppid m) (frag m i) last s1) as (d & s2 & E3 & Hd & C2 & A2); try done.
  { apply Henv. } { by eapply frag_some. }
  rewrite E3. cbn [mbind option_bind].
  eapply deliver_data_spec; try done.
  - eapply queues_quiet; [|exact Hq]. eapply quiet_steps; [exact Hqu | by apply quiet_core].
  - eapply stream_ok_quiet; [|exact Hs]. eapply quiet_steps; [exact Hqu | by apply quiet_core].
  - by rewrite A2, Ha1.
  - by rewrite A2, Ha1.
Qed.

End Step.

(** ** The handler *)

Section Handler.
Context (msg : nat -> nat -> option message) (env : rx_env) (Henv : env_ok env).
Context (Hplan : plan_ok msg (pd_point env)).

(** What becomes of the chunk of fragment [i]. *)
Definition handled (R : received) (C : Z) (n : nat) (z : Z) (s s' : receiver) (v : chunk_verdict) : Prop :=
  match v with
  | Taken => ~ has R z /\ exists C', rx_inv msg (receive R z) C' n s' /\ C <= C' <= C + 1
  | Ignored => (has R z \/ 8 * SCTP_MAPPING_ARRAY <= SCTP_CALC_TSN_TO_GAP (u32 z) (mapping_array_base_tsn (arrays (ack s)))) /\
               rx_inv msg R C n s'
  | NoRoom => no_room env s = true /\ rx_inv msg R C n s'
  | Aborted => False
  end.

Lemma process_chunk_spec R C n s sid j m i pkt offset last high :
  rx_inv msg R C n s -> (sid < n)%nat -> Z.of_nat n <= 65536 -> msg sid j = Some m -> (i < m_size m)%nat ->
  C - half32 < frag_tsn m i <= C + half32 -> packet_has pkt offset (frag_chunk sid j m i) ->
  exists v high' s', sctp_process_a_data_chunk env pkt offset (16 + Z.of_nat (length (frag m i))) last SCTP_DATA high s
      = Some (v, high', s') /\ handled R C n (frag_tsn m i) s s' v.
Proof.
  intros [(B & Hm & Hn & HR & HF) Hq] Hsid Hn16 Hmsg Hi Hz Hpkt.
  pose proof (po_msg _ _ Hplan _ _ _ Hmsg) as [_ _ Hfr _ Hpp _].
  pose proof (Forall_lookup_1 _ _ _ _ Hfr (frag_in m i Hi)) as Hlen. cbv beta in Hlen.
  assert (Hsid16 : in_u16 (Z.of_nat sid)) by (unfold in_u16; lia).
  unfold sctp_process_a_data_chunk.
  rewrite (data_header_spec pkt offset (frag_flags m i) (u32 (frag_tsn m i)) (Z.of_nat sid) (u16 (Z.of_nat j)) (m_ppid m)
             (frag m i)) by (done || apply u32_range || apply u16_range).
  cbn [mbind option_bind]. fold (frag_hdr sid j m i). simpl dh_clen.
  destruct (Z.eqb_spec (16 + Z.of_nat (length (frag m i))) 16) as [|_]; [lia|].
  simpl dh_flags. rewrite frag_flags_sack. rewrite !(memory_ok _ Henv). simpl dh_tsn.
  set (s0 := (s <| allocs := _ |>) <| allocs := _ |>). change (arrays (ack s0)) with (arrays (ack s)).
  destruct (data_chunk_lookup_repr R B C Hm Hn (arrays (ack s)) true true (frag_tsn m i) high HR Hz) as (v & h & a & -> & HR1 & Hv).
  cbn [mbind option_bind]. set (s1 := on_ack _ s0).
  assert (Hq1 : queues_ok msg R n s1) by (eapply queues_quiet; [|exact Hq]; by apply quiet_core).
  assert (Hi1 : rx_inv msg R C n s1) by (split; [by exists B, Hm, Hn | done]).
  destruct v as [| | |gap]; simpl in Hv.
  - do 3 eexists. split; [reflexivity|]. split; [left; apply Hv | done].
  - do 3 eexists. split; [reflexivity|]. split; [|done]. right.
    destruct Hv as (H1 & H2 & ->). pose proof (arr_base _ _ _ _ _ (repr_arr _ _ _ _ _ _ HR)) as Eb.
    pose proof (repr_win _ _ _ _ _ _ HR). pose proof (arr_size _ _ _ _ _ (repr_arr _ _ _ _ _ _ HR)).
    rewrite Eb, calc_gap_spec by lia. unfold SCTP_MAPPING_ARRAY. lia.
  - destruct Hv as (? & _). done.
  - destruct Hv as (-> & Hnew & Hgap). rewrite (eo_gone _ Henv). cbn [orb].
    change (assoc_state (ack s1)) with (assoc_state (ack s)). rewrite (qo_open _ _ _ _ Hq).
    assert (HzC : C < frag_tsn m i).
    { destruct (Z.lt_ge_cases C (frag_tsn m i)) as [|Hge]; [done|]. destruct Hnew. by apply (repr_below _ _ _ _ _ _ HR). }
    destruct (accept_data_spec msg env Henv Hplan R B C Hm Hn n sid j i m Hmsg Hi Hnew s1 pkt offset last)
      as [(s2 & C' & -> & Hinv) | (s2 & -> & Hno & Hqu & A2)]; try done; [change (arrays (ack s1)) with a; lia | lia | |].
    + cbn [mbind option_bind]. do 3 eexists. split; [reflexivity|]. split; [done | by exists C'].
    + cbn [mbind option_bind]. do 3 eexists. split; [reflexivity|]. split.
      * exact Hno.
      * split; [exists B, Hm, Hn; by rewrite A2 | by eapply queues_quiet].
Qed.

End Handler.
