(* ===== verification/RecvPacket.v ===== *)
(** * A packet of DATA chunks

    The loop of [sctp_process_data] over the chunks of a packet: it handles one fragment
    after the other, never aborts, and ends within as many rounds as there are chunks; and
    the acknowledgement at its end. *)

From Stdlib Require Import Sorted.
From S2P Require Import SackProps.
From S2P Require Import Prelude Serial Tailq TsnMap TsnMapInv Sack Mbuf MbufProps Reasm ReasmQueue RecvData.
From S2P Require Import RecvPlan RecvInv RecvOps RecvMerge RecvQueue RecvStream RecvStep.

Open Scope sctp_scope.

(** Chunks in a packet are filled up to a multiple of four bytes. *)
Definition padded (b : list Z) : list Z :=
  b ++ replicate (Z.to_nat (SCTP_SIZE32 (Z.of_nat (length b)) - Z.of_nat (length b))) 0.

Section Packet.
Context (msg : nat -> nat -> option message) (env : rx_env) (Henv : env_ok env).
Context (Hplan : plan_ok msg (pd_point env)).

(** A fragment: its stream, the number of its message, its own number and its TSN and
    bytes. *)
Record fragment := Fragment { fr_sid : nat; fr_j : nat; fr_i : nat; fr_msg : message }.

Definition fr_tsn (f : fragment) : Z := frag_tsn (fr_msg f) (fr_i f).
Definition fr_bytes (f : fragment) : list Z := frag_chunk (fr_sid f) (fr_j f) (fr_msg f) (fr_i f).

(** Fragment [f] is one of the plan, and near the cumulative TSN [C]. *)
Record fragment_ok (n : nat) (f : fragment) : Prop := FragmentOk {
  fo_sid : (fr_sid f < n)%nat;
  fo_msg : msg (fr_sid f) (fr_j f) = Some (fr_msg f);
  fo_i : (fr_i f < m_size (fr_msg f))%nat
}.

Definition near (C : Z) (slack : nat) (z : Z) : Prop := C - half32 + Z.of_nat slack < z <= C + half32.

(** Some of the TSNs have been taken, in order, and only once. *)
Inductive takes : received -> list Z -> received -> Prop :=
| TakesNil R : takes R [] R
| TakesOne R z zs R' : ~ has R z -> takes (receive R z) zs R' -> takes R (z :: zs) R'
| TakesNot R z zs R' : takes R zs R' -> takes R (z :: zs) R'.

Lemma takes_none R zs : takes R zs R.
Proof. induction zs; by constructor. Qed.

(** ** Where the chunks lie *)

Lemma chunk_size32 x : 0 <= x -> x <= SCTP_SIZE32 x < x + 4.
Proof.
  intros Hx. unfold SCTP_SIZE32. rewrite Z.shiftl_mul_pow2, Z.shiftr_div_pow2 by lia. change (2 ^ 2) with 4.
  Z.div_mod_to_equations. lia.
Qed.

Lemma padded_length b : Z.of_nat (length (padded b)) = SCTP_SIZE32 (Z.of_nat (length b)).
Proof.
  unfold padded. rewrite length_app, length_replicate. pose proof (chunk_size32 (Z.of_nat (length b)) ltac:(lia)). lia.
Qed.

Lemma packet_at m pre b post :
  chain_ok m -> chain_len m < M_COPYALL -> chain_bytes m = pre ++ padded b ++ post ->
  packet_has m (Z.of_nat (length pre)) b.
Proof.
  intros Hok Hs Hb. split; try done; [lia| |].
  - unfold chain_len. rewrite Hb. unfold padded. rewrite !length_app. lia.
  - unfold slice. rewrite Hb, !Nat2Z.id, skipn_app, skipn_all, Nat.sub_diag. cbn [app drop skipn].
    unfold padded. rewrite <- app_assoc. apply take_app_length.
Qed.

Lemma chunk_header_spec m pre f post :
  chain_ok m -> chain_len m < M_COPYALL -> chain_bytes m = pre ++ padded (fr_bytes f) ++ post ->
  0 < Z.of_nat (length (frag (fr_msg f) (fr_i f))) < 65520 ->
  chunk_header m (Z.of_nat (length pre)) = Some (Some (SCTP_DATA, 16 + Z.of_nat (length (frag (fr_msg f) (fr_i f))))).
Proof.
  intros Hok Hs Hb Hl. pose proof (packet_at m pre _ post Hok Hs Hb) as [_ Ho He _ Hby].
  unfold fr_bytes, frag_chunk in *. rewrite encode_length in *. unfold chunk_header.
  rewrite getptr_slice by lia. cbn [mbind option_bind].
  rewrite (slice_prefix _ 4 (Z.of_nat (16 + length (frag (fr_msg f) (fr_i f))))), Hby by lia.
  set (b := take _ _). change (nth 0 b 0) with SCTP_DATA.
  change (be16 (drop 2 b)) with (be16 (put16 (16 + Z.of_nat (length (frag (fr_msg f) (fr_i f)))) ++ [])).
  rewrite be16_put; [done|]. unfold in_u16. lia.
Qed.

(** ** The loop *)

Definition chunk_bytes (fs : list fragment) : list Z := concat (map (fun f => padded (fr_bytes f)) fs).

Lemma frag_length n f : fragment_ok n f -> 0 < Z.of_nat (length (frag (fr_msg f) (fr_i f))) < 65520.
Proof.
  intros [_ Hm Hi]. pose proof (po_msg _ _ Hplan _ _ _ Hm) as [_ _ Hfr _ _ _].
  exact (Forall_lookup_1 _ _ _ _ Hfr (frag_in _ _ Hi)).
Qed.

(** The state after a round: [f] was taken or not. *)
Lemma round_spec m n f R C s offset last high k :
  rx_inv msg R C n s -> Z.of_nat n <= 65536 -> fragment_ok n f -> near C (S k) (fr_tsn f) ->
  packet_has m offset (fr_bytes f) ->
  exists v high' s' R' C',
    sctp_process_a_data_chunk env m offset (16 + Z.of_nat (length (frag (fr_msg f) (fr_i f)))) last SCTP_DATA high s
      = Some (v, high', s') /\ v <> Aborted /\ rx_inv msg R' C' n s' /\ C <= C' <= C + 1 /\
    forall zs R2, takes R' zs R2 -> takes R (fr_tsn f :: zs) R2.
Proof.
  intros Hinv Hn [Hsid Hmsg Hi] Hz Hpk. unfold near in Hz.
  destruct (process_chunk_spec msg env Henv Hplan R C n s (fr_sid f) (fr_j f) (fr_msg f) (fr_i f) m offset last high)
    as (v & high' & s' & E & H); try done; [unfold fr_tsn in Hz; lia|]. exists v, high', s'.
  destruct v; simpl in H; [| done | |].
  - destruct H as [_ H]. exists R, C. split; [exact E|]. repeat (split; [done || lia|]). by constructor 3.
  - destruct H as [_ H]. exists R, C. split; [exact E|]. repeat (split; [done || lia|]). by constructor 3.
  - destruct H as (Hnew & C' & H & HC). exists (receive R (fr_tsn f)), C'. split; [exact E|].
    repeat (split; [done || lia|]). by constructor 2.
Qed.

Lemma data_loop_spec m n fuel : forall fs f R C s pre num high,
  rx_inv msg R C n s -> Z.of_nat n <= 65536 -> Forall (fragment_ok n) (f :: fs) ->
  Forall (near C (S (length fs))) (map fr_tsn (f :: fs)) -> chain_ok m -> chain_len m < M_COPYALL ->
  chain_bytes m = pre ++ chunk_bytes (f :: fs) -> (length fs < fuel)%nat ->
  exists offset num' brk high' s' R' C',
    data_loop fuel env m (chain_len m) SCTP_DATA (16 + Z.of_nat (length (frag (fr_msg f) (fr_i f))))
      (Z.of_nat (length pre)) num high s = Some (DataDone offset num' brk high', s') /\
    rx_inv msg R' C' n s' /\ takes R (map fr_tsn (f :: fs)) R' /\ C <= C' <= C + Z.of_nat (S (length fs)).
Proof.
  induction fuel as [|fuel IH]; intros fs f R C s pre num high Hinv Hn Hall Hnear Hok Hsmall Hb Hfuel; [lia|].
  apply Forall_cons in Hall as [Hf Hall]. apply Forall_cons in Hnear as [Hz Hnear].
  pose proof (frag_length n f Hf) as Hlen. unfold chunk_bytes in Hb. cbn [map concat] in Hb. fold (chunk_bytes fs) in Hb.
  pose proof (packet_at m pre _ _ Hok Hsmall Hb) as Hpk.
  set (len := Z.of_nat (length (frag (fr_msg f) (fr_i f)))) in *.
  assert (Hsp : Z.of_nat (length (padded (fr_bytes f))) = SCTP_SIZE32 (16 + len)).
  { rewrite padded_length. unfold fr_bytes, frag_chunk. rewrite encode_length. f_equal. lia. }
  pose proof (chunk_size32 (16 + len) ltac:(lia)) as Hs32.
  assert (Htot : chain_len m = Z.of_nat (length pre) + SCTP_SIZE32 (16 + len) + Z.of_nat (length (chunk_bytes fs))).
  { unfold chain_len. rewrite Hb, !length_app. lia. }
  cbn [data_loop]. destruct (Z.ltb_spec (chain_len m - Z.of_nat (length pre)) (16 + len)); [lia|].
  rewrite eo_data by done. change (SCTP_DATA =? SCTP_DATA) with true. change (SCTP_DATA =? SCTP_IDATA) with false.
  cbn [Z.eqb andb orb]. destruct (Z.ltb_spec (16 + len) 16); [lia|].
  destruct (round_spec m n f R C s (Z.of_nat (length pre))
              (SCTP_SIZE32 (16 + len) =? chain_len m - Z.of_nat (length pre)) high (length fs))
    as (v & high' & s' & R1 & C1 & E & Hv & Hinv1 & HC1 & Htk); try done.
  fold len in E. rewrite E. cbn [mbind option_bind]. clear E.
  assert (Hnext : forall num, exists offset num' brk high2 s2 R' C',
    (if chain_len m <=? Z.of_nat (length pre) + SCTP_SIZE32 (16 + len)
     then Some (DataDone (Z.of_nat (length pre) + SCTP_SIZE32 (16 + len)) num false high', s')
     else ch ← chunk_header m (Z.of_nat (length pre) + SCTP_SIZE32 (16 + len));
          match ch with
          | None => Some (DataDone (chain_len m) num false high', s')
          | Some (type, chk_length) =>
              data_loop fuel env m (chain_len m) type chk_length (Z.of_nat (length pre) + SCTP_SIZE32 (16 + len)) num high' s'
          end) = Some (DataDone offset num' brk high2, s2) /\
    rx_inv msg R' C' n s2 /\ takes R (map fr_tsn (f :: fs)) R' /\ C <= C' <= C + Z.of_nat (S (length fs))).
  { intros num1. destruct fs as [|f' fs].
    - cbn in Htot. destruct (Z.leb_spec (chain_len m) (Z.of_nat (length pre) + SCTP_SIZE32 (16 + len))); [|lia].
      do 5 eexists. exists R1, C1. split; [reflexivity|]. split; [done|]. split; [apply Htk; constructor | lia].
    - pose proof (Forall_inv Hall) as Hf'. pose proof (frag_length n f' Hf') as Hlen'.
      assert (Hb' : chain_bytes m = (pre ++ padded (fr_bytes f)) ++ chunk_bytes (f' :: fs)) by (rewrite Hb; by rewrite app_assoc).
      assert (Hoff : Z.of_nat (length pre) + SCTP_SIZE32 (16 + len) = Z.of_nat (length (pre ++ padded (fr_bytes f))))
        by (rewrite length_app; lia).
      assert (Hpos : 16 < Z.of_nat (length (chunk_bytes (f' :: fs)))).
      { unfold chunk_bytes. cbn [map concat]. rewrite length_app, Nat2Z.inj_add, padded_length.
        unfold fr_bytes, frag_chunk. rewrite encode_length.
        pose proof (chunk_size32 (Z.of_nat (16 + length (frag (fr_msg f') (fr_i f')))) ltac:(lia)). lia. }
      rewrite Hoff. destruct (Z.leb_spec (chain_len m) (Z.of_nat (length (pre ++ padded (fr_bytes f))))); [lia|].
      rewrite (chunk_header_spec m _ f' (chunk_bytes fs) Hok Hsmall) by done.
      cbn [mbind option_bind].
      destruct (IH fs f' R1 C1 s' (pre ++ padded (fr_bytes f)) num1 high') as
        (o & nm & brk & h2 & s2 & R2 & C2 & E & Hinv2 & Htk2 & HC2); try done.
      { eapply Forall_impl; [exact Hnear|]. unfold near. cbn [length]. intros z. lia. }
      { simpl in Hfuel. lia. }
      rewrite E. exists o, nm, brk, h2, s2, R2, C2. split; [done|]. split; [done|]. split; [by apply Htk|].
      cbn [length] in *. lia. }
  destruct v; [apply Hnext | done | | apply Hnext].
  do 5 eexists. exists R1, C1. split; [reflexivity|]. split; [done|]. split; [apply Htk, takes_none | lia].
Qed.

End Packet.

(** ** Acknowledging leaves the set of TSNs alone

    Whatever [sctp_sack_check] decides, with or without memory and for both kinds of SACK,
    the arrays stand for the same set afterwards. *)

Section Ack.

(** [a'] acknowledges what [a] does. *)
Definition same_tsns (R : received) (B C : Z) (a a' : ack_state) : Prop :=
  (exists Hm Hn, Repr R B C Hm Hn (arrays a')) /\ assoc_state a' = assoc_state a.

Lemma finish_sack_keeps header flags room num nr_num limited a st c a' :
  finish_sack header flags room num nr_num limited a st = Some (c, a') ->
  exists m, a' = a <| arrays := m |> /\ (m = arrays a \/ m = (arrays a) <| numduptsns := 0 |>).
Proof.
  unfold finish_sack. intros H. destruct (_ && _).
  - destruct (put_dups _ _ _ _ _ _ _) as [d|]; [|done]. cbn [mbind option_bind] in H. injection H as _ <-. eauto.
  - cbn [mbind option_bind] in H. injection H as _ <-. eauto.
Qed.

Lemma fill_sack_keeps type flags a space buf c a' :
  fill_sack type flags a space buf = Some (c, a') ->
  exists m, a' = a <| arrays := m |> /\ (m = arrays a \/ m = (arrays a) <| numduptsns := 0 |>).
Proof.
  unfold fill_sack. intros H. destruct (gap_blocks _ _ _ _) as [[st lim]|]; [|done]. cbn [mbind option_bind] in H.
  destruct (_ && _); [|by eapply finish_sack_keeps].
  destruct (nr_gap_blocks _ _ _) as [r|]; [|done]. cbn [mbind option_bind] in H. by eapply finish_sack_keeps.
Qed.

Lemma no_memory_keeps R B C Hm Hn a b :
  Repr R B C Hm Hn (arrays b) -> assoc_state b = assoc_state a -> same_tsns R B C a (sack_no_memory b).
Proof.
  intros HR He. unfold sack_no_memory. destruct (negb _); (split; [|done]); exists Hm, Hn; [done|].
  by apply SackProps.repr_flags.
Qed.

Lemma send_sack_keeps R B C Hm Hn env a a' :
  Repr R B C Hm Hn (arrays a) -> C + 1 < B + 8 -> ~ has R (C + 1) ->
  sctp_send_sack env a = Some a' -> same_tsns R B C a a'.
Proof.
  intros HR H8 Hno. unfold sctp_send_sack. destruct (last_data_chunk_from a) as [from|].
  2: { intros [= <-]. split; [by exists Hm, Hn | done]. }
  destruct (slide_idle _ _ _ _ _ _ HR H8 Hno) as (m & -> & HRm & _). cbn [mbind option_bind]. cbv zeta.
  set (a1 := match remove_chunk _ _ with Some _ => _ | None => _ end).
  assert (H1 : arrays a1 = m /\ assoc_state a1 = assoc_state a) by (subst a1; by destruct (remove_chunk _ _)).
  destruct H1 as [Ea1 Es1].
  assert (Hgo : forall b, arrays b = m -> assoc_state b = assoc_state a -> same_tsns R B C a (sack_no_memory b)).
  { intros b Eb Es. eapply no_memory_keeps; [by rewrite Eb | done]. }
  destruct (negb _ && _). { intros [= <-]. by apply Hgo. }
  destruct (env_mbuf _ _) as [[trailing buf]|]; [|intros [= <-]; by apply Hgo].
  set (a2 := (if (0 <? _) && _ then _ else _) : ack_state).
  set (flags := (if (0 <? _) && _ then _ else _) : Z).
  set (a3 := a2 <| freed_by_sorcv_sincelast := 0 |>).
  assert (H3 : arrays a3 = m /\ assoc_state a3 = assoc_state a).
  { subst a3 a2. clearbody a1. by destruct (_ && _). }
  clearbody a3. destruct H3 as [Ea3 Es3].
  destruct (fill_sack _ flags a3 _ buf) as [[c a4]|] eqn:Ef; [|done]. cbn [mbind option_bind]. intros [= <-].
  apply fill_sack_keeps in Ef as (m' & -> & Hm'). split; [|done]. exists Hm, Hn. cbn. rewrite Ea3 in Hm'.
  destruct (SackProps.repr_flags R B C Hm Hn m 0 HRm) as [Hf1 Hf2]. by destruct Hm' as [-> | ->].
Qed.

Lemma sack_check_keeps R B C Hm Hn env gap a b a' :
  Repr R B C Hm Hn (arrays a) -> fresh B Hm Hn -> sctp_sack_check env gap a = Some (b, a') ->
  exists B' C', same_tsns R B' C' a a' /\ C <= C' /\ ~ has R (C' + 1) /\ C' + 1 < B' + 8.
Proof.
  intros HR HF. unfold sctp_sack_check.
  destruct (slide_repr _ _ _ _ _ _ HR HF) as (B' & C' & Hm' & Hn' & m & -> & HR' & HB & H8 & HC & Hno).
  cbn [mbind option_bind]. cbv zeta. intros H. exists B', C'. split; [|done].
  assert (Hst : forall a1 a2, arrays a1 = m -> assoc_state a1 = assoc_state a -> sctp_send_sack env a1 = Some a2 ->
                same_tsns R B' C' a a2).
  { intros a1 a2 E1 E2 E. eapply send_sack_keeps in E as [E3 E4]; [|by rewrite E1 | done..].
    split; [done | congruence]. }
  assert (Hid : forall a1, arrays a1 = m -> assoc_state a1 = assoc_state a -> same_tsns R B' C' a a1).
  { intros a1 E1 E2. split; [exists Hm', Hn'; by rewrite E1 | done]. }
  destruct (_ =? SCTP_STATE_SHUTDOWN_SENT).
  - destruct (SCTP_TSN_GT _ _).
    + destruct (sctp_send_sack _ _) as [a2|] eqn:E; [|done]. cbn [mbind option_bind] in H. injection H as _ <-.
      by eapply Hst; [| |exact E].
    + injection H as _ <-. by apply Hid.
  - destruct (sack_now _ _ _); [destruct (dac_delays _ _)|].
    + injection H as _ <-. by apply Hid.
    + destruct (sctp_send_sack _ _) as [a2|] eqn:E; [|done]. cbn [mbind option_bind] in H. injection H as _ <-.
      by eapply Hst; [| |exact E].
    + injection H as _ <-. by apply Hid.
Qed.

End Ack.
