(* ===== verification/RecvProps.v ===== *)
(** * Properties of the receive path

    Ordered delivery as a refinement: the receiver, with its arrays, queues, controls and
    chains of mbufs, does what a set of TSNs does ([RecvPlan]).  Then the packets, the wire
    format, and what the code does outside the conditions of these theorems. *)

From Stdlib Require Import Sorted.
From S2P Require Import Prelude Serial Tailq TsnMap TsnMapInv TsnMapProps Sack Mbuf MbufProps Reasm ReasmQueue.
From S2P Require Import RecvData RecvPlan RecvInv RecvOps RecvMerge RecvQueue RecvStream RecvStep RecvPacket.

Open Scope sctp_scope.

(** ** The start of an association *)

(** [sctp_process_init], the part that opens the streams. *)
Definition open_streams (streamincnt : nat) : list stream_in := replicate streamincnt (StreamIn [] [] 0xffffffff 0).

Definition start (a : ack_state) (n : nat) : receiver :=
  Receiver a (open_streams n) ∅ 0 [] 0 0 0 [] [] 0 [].

Section Delivery.
Context (msg : nat -> nat -> option message) (env : rx_env) (Henv : env_ok env).
Context (Hplan : plan_ok msg (pd_point env)) (n : nat) (Hn : Z.of_nat n <= 65536).

(** ** Any sequence of chunks *)

(** [s'] differs from [s] in the acknowledgement state, counters and allocations only. *)
Record same_queues (s s' : receiver) : Prop := SameQueues {
  sq_strm : strmin s' = strmin s;
  sq_store : controls s' = controls s;
  sq_next : next_control s' = next_control s;
  sq_read : read_queue s' = read_queue s;
  sq_reset : resetHead s' = resetHead s;
  sq_eff : effects s' = effects s;
  sq_open : has_flag (assoc_state (ack s')) SCTP_STATE_CLOSED_SOCKET = false
}.

(** One step, with the set of TSNs taken: the chunk of a fragment arrives, for the first
    time or again, in any packet; or something else happens that leaves the set and the
    queues alone: the arrays are slid, a SACK is sent, the application makes room. *)
Inductive rx_step : received * receiver -> received * receiver -> Prop :=
| ChunkStep R s C f m offset last high v high' s' :
    fragment_ok msg n f -> tracks R C s -> near C 0 (fr_tsn f) -> packet_has m offset (fr_bytes f) ->
    sctp_process_a_data_chunk env m offset (Z.of_nat (length (fr_bytes f))) last SCTP_DATA high s = Some (v, high', s') ->
    rx_step (R, s) (match v with Taken => receive R (fr_tsn f) | _ => R end, s')
| OtherStep R s C s' : same_queues s s' -> tracks R C s' -> rx_step (R, s) (R, s').

Lemma bytes_length f :
  Z.of_nat (length (fr_bytes f)) = 16 + Z.of_nat (length (frag (fr_msg f) (fr_i f))).
Proof. unfold fr_bytes, frag_chunk. rewrite encode_length. lia. Qed.

Lemma step_inv R s R' s' C : rx_inv msg R C n s -> rx_step (R, s) (R', s') -> exists C', rx_inv msg R' C' n s'.
Proof.
  intros [_ Hq] Hstep. inversion Hstep as [R0 s0 C0 f m offset last high v high' s1 [F1 F2 F3] HT Hz Hpk E|R0 s0 C0 s1 [] HT]; subst.
  - unfold near in Hz. rewrite bytes_length in E.
    destruct (process_chunk_spec msg env Henv Hplan R C0 n s (fr_sid f) (fr_j f) (fr_msg f) (fr_i f) m offset last high)
      as (v1 & h1 & s2 & E1 & H); try done; [unfold fr_tsn in Hz; lia|].
    rewrite E in E1. injection E1 as <- <- <-. destruct v; simpl in H; [| done | |]; [| |destruct H as (_ & C' & H & _); by exists C'];
      destruct H as [_ H]; by exists C0.
  - exists C0. split; [done|]. destruct Hq as [Q1 Q2 Q3 Q4 Q5 Q6 Q7]. split; try congruence.
    + intros p. rewrite sq_store0, sq_next0. apply Q4.
    + intros sid Hs. destruct (Q7 sid Hs) as (x & D & js & [S1 S2 S3 S4]). exists x, D, js. split; [| |done|].
      * unfold strm in *. congruence.
      * congruence.
      * congruence.
Qed.

Lemma start_inv a tsn :
  in_u32 tsn -> arrays a = new_map tsn -> has_flag (assoc_state a) SCTP_STATE_CLOSED_SOCKET = false ->
  (forall sid j m i, msg sid j = Some m -> (i < m_size m)%nat -> tsn <= frag_tsn m i) ->
  rx_inv msg (Received tsn ∅) (tsn - 1) n (start a n).
Proof.
  intros Ht Ha Hopen Hmin. split.
  - exists tsn, (tsn - 1), (tsn - 1). cbn. rewrite Ha. split; [by apply (init_repr blank_map _ true true)|]. split; lia.
  - split; try done; [apply length_replicate|]. intros sid Hs. exists (StreamIn [] [] 0xffffffff 0), 0%nat, [].
    assert (Hnone : forall j m i, msg sid j = Some m -> (i < m_size m)%nat -> ~ has (Received tsn ∅) (frag_tsn m i)).
    { intros j m i Hm Hi [H | H]; [|by apply elem_of_empty in H]. simpl in H. specialize (Hmin sid j m i Hm Hi). lia. }
    split; try done.
    + unfold strm. cbn. unfold open_streams. by apply lookup_replicate_2.
    + split; try done; try constructor; [intros j Hj; lia|]. intros j m i Hm _ Hi Hh. by destruct (Hnone j m i Hm Hi).
    + split; [intros j Hj; lia|]. intros m Hm Hc. pose proof (mo_some _ _ (po_msg _ _ Hplan _ _ _ Hm)) as H0.
      by apply (Hnone _ _ 0%nat Hm H0), Hc.
Qed.

Lemma run_inv a tsn R s :
  in_u32 tsn -> arrays a = new_map tsn -> has_flag (assoc_state a) SCTP_STATE_CLOSED_SOCKET = false ->
  (forall sid j m i, msg sid j = Some m -> (i < m_size m)%nat -> tsn <= frag_tsn m i) ->
  rtc rx_step (Received tsn ∅, start a n) (R, s) -> exists C, rx_inv msg R C n s.
Proof.
  intros Ht Ha Hopen Hmin Hrun. pose proof (start_inv a tsn Ht Ha Hopen Hmin) as H0.
  assert (H : exists C, rx_inv msg (Received tsn ∅) C n (start a n)) by eauto. clear H0.
  remember (Received tsn ∅, start a n) as x eqn:Ex. remember (R, s) as y eqn:Ey.
  assert (Hgen : forall x y, rtc rx_step x y -> (exists C, rx_inv msg x.1 C n x.2) -> exists C, rx_inv msg y.1 C n y.2).
  { clear -Henv Hplan Hn. induction 1 as [|[R1 s1] [R2 s2] y Hs _ IH]; [done|]. intros [C HC]. apply IH. by eapply step_inv. }
  specialize (Hgen x y Hrun). subst. by apply Hgen.
Qed.

(** ** The theorems *)

(** C3. From the start of an association, and whatever chunks of the peer's messages arrive
    in whatever order and however often, in packets cut into mbufs in any way: on every
    stream the application has got exactly the messages before the first one of which a
    fragment has not been taken, whole, in order and once, each with its stream, number,
    protocol identifier and TSN; and the association has not been aborted.  The TSNs may
    wrap around any number of times.  (Ordered DATA chunks, an application with a callback,
    messages below the size from which they are delivered in parts.) *)
Theorem ordered_delivery a tsn R s :
  in_u32 tsn -> arrays a = new_map tsn -> has_flag (assoc_state a) SCTP_STATE_CLOSED_SOCKET = false ->
  (forall sid j m i, msg sid j = Some m -> (i < m_size m)%nat -> tsn <= frag_tsn m i) ->
  rtc rx_step (Received tsn ∅, start a n) (R, s) ->
  (forall sid, (sid < n)%nat -> exists D, complete_prefix msg R sid D /\
     on_stream sid (deliveries (effects s)) = sent_from msg sid 0 D) /\
  Forall (fun e => aborts e = false) (effects s).
Proof.
  intros Ht Ha Hopen Hmin Hrun. destruct (run_inv a tsn R s Ht Ha Hopen Hmin Hrun) as (C & _ & Hq).
  split; [|apply Hq]. intros sid Hsid. destruct (qo_stream _ _ _ _ Hq sid Hsid) as (x & D & js & [_ _ H1 H2]).
  by exists D.
Qed.

(** C4. In every such state the handler returns for every chunk of the peer's messages whose
    TSN is less than half the number space away: it never uses freed memory, never reads
    outside a buffer and never aborts the association.  A chunk that is ignored has been
    taken before or lies beyond the 4096 TSNs the arrays can grow to, one for which there is
    no room finds the receiver over its limits, and any other one is taken for the first
    time. *)
Theorem chunk_always_handled a tsn R s C f m offset last high :
  in_u32 tsn -> arrays a = new_map tsn -> has_flag (assoc_state a) SCTP_STATE_CLOSED_SOCKET = false ->
  (forall sid j m i, msg sid j = Some m -> (i < m_size m)%nat -> tsn <= frag_tsn m i) ->
  rtc rx_step (Received tsn ∅, start a n) (R, s) ->
  fragment_ok msg n f -> tracks R C s -> near C 0 (fr_tsn f) -> packet_has m offset (fr_bytes f) ->
  exists v high' s',
    sctp_process_a_data_chunk env m offset (Z.of_nat (length (fr_bytes f))) last SCTP_DATA high s = Some (v, high', s') /\
    match v with
    | Taken => ~ has R (fr_tsn f)
    | Ignored => has R (fr_tsn f) \/
        8 * SCTP_MAPPING_ARRAY <= SCTP_CALC_TSN_TO_GAP (u32 (fr_tsn f)) (mapping_array_base_tsn (arrays (ack s)))
    | NoRoom => no_room env s = true
    | Aborted => False
    end.
Proof.
  intros Ht Ha Hopen Hmin Hrun [F1 F2 F3] HT Hz Hpk. unfold near in Hz.
  destruct (run_inv a tsn R s Ht Ha Hopen Hmin Hrun) as (C0 & _ & Hq).
  destruct (process_chunk_spec msg env Henv Hplan R C n s (fr_sid f) (fr_j f) (fr_msg f) (fr_i f) m offset last high)
    as (v & high' & s' & E & H); try done; [unfold fr_tsn in Hz; lia|].
  exists v, high', s'. rewrite bytes_length. split; [exact E|].
  destruct v; [exact (proj1 H) | exact H | exact (proj1 H) | exact (proj1 H)].
Qed.

(** ** Packets *)



End Delivery.

(** C36. What a sender encodes, the receiver reads: from a packet in which the chunk lies at
    any offset, cut into mbufs anywhere, as its last chunk (perhaps with padding behind it)
    or before others, [sctp_process_a_data_chunk] gets the flags, TSN, stream, number and
    protocol identifier that were written, and exactly the user data. *)
Theorem data_chunk_roundtrip env m offset flags tsn sid ssn ppid payload last s :
  packet_has m offset (encode_data flags tsn sid ssn ppid payload) -> payload <> [] ->
  in_u32 tsn -> in_u16 sid -> in_u16 ssn -> in_u32 ppid -> (forall k, rx_alloc env k = true) ->
  exists h d s', data_chunk_header SCTP_DATA m offset = Some h /\
    take_payload env h m offset (16 + Z.of_nat (length payload) - dh_clen h) last s = Some (Some d, s') /\
    (dh_flags h, dh_tsn h, dh_sid h, dh_mid h, dh_fsn h, dh_ppid h) = (flags, tsn, sid, ssn, tsn, ppid) /\
    chain_bytes d = payload.
Proof.
  intros Hpk Hne Ht Hs Hn Hp Ha. set (h := DataHdr SCTP_DATA flags tsn sid ssn tsn ppid 16).
  destruct (take_payload_spec env h m offset flags tsn sid ssn ppid payload last s Hpk Ha eq_refl Hne)
    as (d & s' & E & Hd & _). exists h, d, s'. split; [by eapply data_header_spec|].
  replace (16 + Z.of_nat (length payload) - dh_clen h) with (Z.of_nat (length payload)) by (cbn; lia). done.
Qed.

(** C37. Chunks that are refused.  One without user data aborts the association and changes
    nothing else.  One for a stream that does not exist is never taken: its TSN, if it is
    new and has a place in the arrays, counts as received (so that the peer does not send
    it again) and the peer is told about the stream, once; if it is not new it counts as a
    duplicate.  In no case do the queues change. *)
Theorem refused_chunks env R C s m offset flags z sid ssn ppid payload last high :
  env_ok env -> tracks R C s -> has_flag (assoc_state (ack s)) SCTP_STATE_CLOSED_SOCKET = false -> near C 0 z ->
  in_u16 sid -> in_u16 ssn -> in_u32 ppid -> packet_has m offset (encode_data flags (u32 z) sid ssn ppid payload) ->
  let r := sctp_process_a_data_chunk env m offset (16 + Z.of_nat (length payload)) last SCTP_DATA high s in
  (payload = [] -> r = Some (Aborted, high, abort (loc 14) s)) /\
  (payload <> [] -> strm s (Z.to_nat sid) = None ->
   exists high' s', r = Some (Ignored, high', s') /\
     strmin s' = strmin s /\ controls s' = controls s /\ read_queue s' = read_queue s /\
     ((effects s' = effects s /\ tracks R C s' /\
       (has R z \/ 8 * SCTP_MAPPING_ARRAY <= SCTP_CALC_TSN_TO_GAP (u32 z) (mapping_array_base_tsn (arrays (ack s))))) \/
      (~ has R z /\ effects s' = effects s ++ [InvalidStream sid] /\ exists C', tracks (receive R z) C' s'))).
Proof.
  intros Henv HT Hopen Hz Hsid Hssn Hpp Hpk. unfold near in Hz. cbv zeta. unfold sctp_process_a_data_chunk.
  rewrite (data_header_spec m offset flags (u32 z) sid ssn ppid payload) by (done || apply u32_range).
  cbn [mbind option_bind]. simpl dh_clen. split.
  { intros ->. change (16 + Z.of_nat (length []) =? 16) with true. done. }
  intros Hne Hstrm. destruct (Z.eqb_spec (16 + Z.of_nat (length payload)) 16) as [E|_].
  { destruct payload; [done | simpl length in E; lia]. }
  simpl dh_flags. set (s0 := if has_flag flags _ then _ else s). rewrite !(memory_ok _ Henv). simpl dh_tsn.
  set (s1 := (s0 <| allocs := _ |>) <| allocs := _ |>).
  assert (Hs1 : core_of s1 = core_of s) by (subst s1 s0; by destruct (has_flag flags SCTP_DATA_SACK_IMMEDIATELY)).
  assert (Hb1 : mapping_array_base_tsn (arrays (ack s1)) = mapping_array_base_tsn (arrays (ack s)))
    by (subst s1 s0; by destruct (has_flag flags SCTP_DATA_SACK_IMMEDIATELY)).
  assert (HT1 : tracks R C s1).
  { destruct HT as (B & Hm & Hk & HR & HF). exists B, Hm, Hk. split; [|done].
    subst s1 s0. destruct (has_flag flags SCTP_DATA_SACK_IMMEDIATELY); [|done]. by apply SackProps.repr_flags. }
  clearbody s1. clear HT s0. injection Hs1 as E1 E2 E3 E4 E5 E6 E7. destruct HT1 as (B & Hm & Hk & HR & HF).
  destruct (data_chunk_lookup_repr R B C Hm Hk (arrays (ack s1)) true true z high HR) as (v & h & a & -> & HRa & Hv); [lia|].
  cbn [mbind option_bind]. set (s2 := on_ack _ s1).
  assert (HT2 : tracks R C s2) by (by exists B, Hm, Hk).
  destruct v as [| | |gap]; simpl in Hv.
  - exists h, s2. split; [done|]. split; [done|]. split; [done|]. split; [done|]. left. split; [done|]. split; [done|].
    left. apply Hv.
  - exists h, s2. split; [done|]. split; [done|]. split; [done|]. split; [done|]. left. split; [done|]. split; [done|].
    right. destruct Hv as (H1 & H2 & ->). pose proof (arr_base _ _ _ _ _ (repr_arr _ _ _ _ _ _ HR)) as Eb.
    pose proof (repr_win _ _ _ _ _ _ HR). pose proof (arr_size _ _ _ _ _ (repr_arr _ _ _ _ _ _ HR)).
    rewrite <- Hb1, Eb, calc_gap_spec by lia. unfold SCTP_MAPPING_ARRAY. lia.
  - destruct Hv as (? & _). done.
  - destruct Hv as (-> & Hnew & Hgap). rewrite (eo_gone _ Henv). cbn [orb].
    change (assoc_state (ack s2)) with (assoc_state (ack s1)). rewrite E7, Hopen.
    assert (HzC : C < z).
    { destruct (Z.lt_ge_cases C z) as [|Hge]; [done|]. destruct Hnew. by apply (repr_below _ _ _ _ _ _ HR). }
    unfold accept_data. simpl dh_sid. change (strm s2 (Z.to_nat sid)) with (strmin s1 !! Z.to_nat sid). rewrite E1.
    unfold strm in Hstrm. rewrite Hstrm. simpl dh_tsn. change (arrays (ack s2)) with a.
    destruct (mark_tracks R B C Hm Hk 0 a z) as (a' & Hm' & Hk' & Em & Hheld); [by split | lia|].
    unfold data_chunk_mark in Em. cbn [Z.eqb] in Em. rewrite Em. cbn [mbind option_bind].
    do 2 eexists. split; [reflexivity|]. split; [done|]. split; [done|]. split; [done|]. right. split; [done|].
    split; [cbn; by rewrite E6|].
    pose proof (cumack_tracks (receive R z) C (on_ack (fun k => k <| arrays := a' |>) s2) z) as Hcum.
    eexists. eapply tracks_arrays; [|apply Hcum]; [reflexivity | by exists B, Hm', Hk' | apply has_this | lia].
Qed.
