(* ===== verification/RecvExamples.v ===== *)
(** * A receiver with two streams

    Concrete runs: the theorems of [RecvProps] applied to chunks that arrive in reverse
    order, and what the code does outside their conditions. *)

From S2P Require Import Prelude Serial Tailq TsnMap TsnMapInv TsnMapProps Sack Mbuf MbufProps Reasm ReasmQueue.
From S2P Require Import RecvData RecvPlan RecvInv RecvOps RecvQueue RecvStream RecvStep RecvPacket RecvProps.

Open Scope sctp_scope.

(** An application with a callback and a receive buffer of [hiwat] bytes; memory is always
    there. *)
Definition ex_rx_env (hiwat : Z) : rx_env := RxEnv 0 (Some hiwat) 131072 true false false 0 1000 (fun _ => true).

Definition ex_ack (tsn : Z) : ack_state :=
  AckState (new_map tsn) 8 262144 262144 0 0 0 0 0 0 200 2 0 0 0 0 [] 0 None 0 false.

(** One mbuf with the bytes [b]. *)
Definition one_mbuf (b : list Z) : list mbuf := [Mbuf b 0 (Some 2048) None].

(** The chunk of a fragment arrives in a packet of its own. *)
Definition arrive (env : rx_env) (f : fragment) (s : receiver) : option (chunk_verdict * Z * receiver) :=
  sctp_process_a_data_chunk env (one_mbuf (fr_bytes f)) 0 (Z.of_nat (length (fr_bytes f))) true SCTP_DATA 0 s.

Definition after (env : rx_env) (f : fragment) (s : receiver) : receiver :=
  match arrive env f s with Some (_, _, s) => s | None => s end.

(** ** Reverse order *)

(** Two messages on stream 0, the second in two fragments, and one on stream 1. *)
Definition ex_list : list (nat * Z * list (list Z)) := [(0%nat, 51, [[1; 2]]); (0%nat, 51, [[3]; [4; 5]]); (1%nat, 53, [[6]])].
Definition ex_plan : nat -> nat -> option message := plan_of 100 ex_list.

Definition ex_m0 : message := Message 100 51 [[1; 2]].
Definition ex_m1 : message := Message 101 51 [[3]; [4; 5]].
Definition ex_m2 : message := Message 103 53 [[6]].

Definition ex_f0 : fragment := Fragment 0 0 0 ex_m0.
Definition ex_f1 : fragment := Fragment 0 1 0 ex_m1.
Definition ex_f2 : fragment := Fragment 0 1 1 ex_m1.
Definition ex_f3 : fragment := Fragment 1 0 0 ex_m2.

Definition ex_env1 : rx_env := ex_rx_env 262144.
Definition ex_s0 : receiver := start (ex_ack 100) 2.
Definition ex_s1 : receiver := after ex_env1 ex_f3 ex_s0.
Definition ex_s2 : receiver := after ex_env1 ex_f2 ex_s1.
Definition ex_s3 : receiver := after ex_env1 ex_f1 ex_s2.
Definition ex_s4 : receiver := after ex_env1 ex_f0 ex_s3.

Definition ex_R0 : received := Received 100 ∅.
Definition ex_R3 : received := receive (receive (receive ex_R0 103) 102) 101.
Definition ex_R4 : received := receive ex_R3 100.

Lemma ex_env1_ok : env_ok ex_env1.
Proof. by split; try done; eexists. Qed.

Lemma ex_plan_ok : plan_ok ex_plan (pd_point ex_env1).
Proof.
  apply plan_of_ok. change (pd_point ex_env1) with 131072.
  repeat constructor; simpl; try lia; try (intros H; vm_compute in H; by destruct H); unfold in_u32; lia.
Qed.

Lemma ex_plan_from sid j m i : ex_plan sid j = Some m -> (i < m_size m)%nat -> 100 <= frag_tsn m i.
Proof.
  intros Hm%list_elem_of_lookup_2%of_stream_elem%assign_tsn_ge _. unfold frag_tsn. simpl in Hm. lia.
Qed.

Lemma one_mbuf_has b : Z.of_nat (length b) <= 2048 -> packet_has (one_mbuf b) 0 b.
Proof.
  intros Hl. assert (Eb : chain_bytes (one_mbuf b) = b) by apply app_nil_r.
  split; try done.
  - constructor; [|done]. split; cbn; unfold m_len, m_end; cbn; try lia; done.
  - unfold chain_len. by rewrite Eb.
  - unfold chain_len, M_COPYALL. rewrite Eb. lia.
  - rewrite Eb. apply slice_all. lia.
Qed.

(** Steps whose effect on the arrays is that of a new TSN. *)
Lemma ex_step s s' R f h :
  implements (arrays (ack s)) (RcvSpec R 100 99) -> event_ok (arrays (ack s)) Slide = true ->
  fragment_ok ex_plan 2 f -> 100 <= fr_tsn f <= 2147483648 -> Z.of_nat (length (fr_bytes f)) <= 2048 ->
  arrive ex_env1 f s = Some (Taken, h, s') ->
  data_step (arrays (ack s)) (u32 (fr_tsn f)) true true (Some false) = Some (AnsTaken, arrays (ack s')) ->
  rx_step ex_plan ex_env1 2 (R, s) (receive R (fr_tsn f), s') /\
  implements (arrays (ack s')) (RcvSpec (receive R (fr_tsn f)) 100 (if fr_tsn f =? 99 + 1 then 99 + 1 else 99)).
Proof.
  intros Himp Hev Hf Hz Hl E Ed. split.
  - eapply (ChunkStep _ _ _ R s 99 f (one_mbuf (fr_bytes f)) 0 true 0 Taken); [done | | | by apply one_mbuf_has | exact E].
    + destruct Himp as (Hm & Hn & HR). exists 100, Hm, Hn. split; [exact HR|].
      eapply fresh_of_bool; [apply HR | done].
    + unfold near. lia.
  - eapply (taken_implements _ _ _ _ (u32 (fr_tsn f))) in Ed; [|exact Himp | apply u32_range].
    assert (Eu : unwrap 99 (u32 (fr_tsn f)) = fr_tsn f).
    { unfold unwrap. rewrite u32_sub_r. rewrite u32_id by (unfold in_u32; lia). lia. }
    by rewrite Eu in Ed.
Qed.


Lemma ex_start_implements : implements (arrays (ack ex_s0)) (RcvSpec ex_R0 100 99).
Proof. apply (new_map_implements 100). unfold in_u32. lia. Qed.

Lemma ex_fragments_ok : Forall (fragment_ok ex_plan 2) [ex_f3; ex_f2; ex_f1; ex_f0].
Proof. repeat constructor. Qed.

(** The steps, with the arrays between them. *)
Lemma ex_run3 : rtc (rx_step ex_plan ex_env1 2) (ex_R0, ex_s0) (ex_R3, ex_s3) /\
  implements (arrays (ack ex_s3)) (RcvSpec ex_R3 100 99).
Proof.
  pose proof ex_fragments_ok as Hok. rewrite !Forall_cons in Hok. destruct Hok as (F3 & F2 & F1 & _).
  destruct (ex_step ex_s0 ex_s1 ex_R0 ex_f3 103 ex_start_implements) as [H1 I1];
    [by vm_compute | done | unfold fr_tsn, frag_tsn; cbn; lia | by vm_compute | by vm_compute | by vm_compute |].
  destruct (ex_step ex_s1 ex_s2 (receive ex_R0 103) ex_f2 102 I1) as [H2 I2];
    [by vm_compute | done | unfold fr_tsn, frag_tsn; cbn; lia | by vm_compute | by vm_compute | by vm_compute |].
  destruct (ex_step ex_s2 ex_s3 (receive (receive ex_R0 103) 102) ex_f1 101 I2) as [H3 I3];
    [by vm_compute | done | unfold fr_tsn, frag_tsn; cbn; lia | by vm_compute | by vm_compute | by vm_compute |].
  split; [|exact I3]. eapply rtc_l; [exact H1|]. eapply rtc_l; [exact H2|]. eapply rtc_l; [exact H3|]. apply rtc_refl.
Qed.

Lemma ex_run4 : rtc (rx_step ex_plan ex_env1 2) (ex_R0, ex_s0) (ex_R4, ex_s4).
Proof.
  destruct ex_run3 as [H3 I3]. eapply rtc_r; [exact H3|].
  pose proof ex_fragments_ok as Hok. rewrite !Forall_cons in Hok. destruct Hok as (_ & _ & _ & F0 & _).
  destruct (ex_step ex_s3 ex_s4 ex_R3 ex_f0 100 I3) as [H4 _];
    [by vm_compute | done | unfold fr_tsn, frag_tsn; cbn; lia | by vm_compute | by vm_compute | by vm_compute | exact H4].
Qed.

Lemma ex_s3_tracks : tracks ex_R3 99 ex_s3.
Proof.
  destruct ex_run3 as [_ (Hm & Hn & HR)]. exists 100, Hm, Hn. split; [exact HR|].
  eapply fresh_of_bool; [apply HR | by vm_compute].
Qed.

Lemma ordered_delivery_witness :
  (forall sid, (sid < 2)%nat -> exists D, complete_prefix ex_plan ex_R4 sid D /\
     on_stream sid (deliveries (effects ex_s4)) = sent_from ex_plan sid 0 D) /\
  Forall (fun e => aborts e = false) (effects ex_s4) /\
  map dl_text (on_stream 0 (deliveries (effects ex_s4))) = [[1; 2]; [3; 4; 5]].
Proof.
  assert (H : (forall sid, (sid < 2)%nat -> exists D, complete_prefix ex_plan ex_R4 sid D /\
     on_stream sid (deliveries (effects ex_s4)) = sent_from ex_plan sid 0 D) /\
     Forall (fun e => aborts e = false) (effects ex_s4)).
  { apply (ordered_delivery ex_plan ex_env1 ex_env1_ok ex_plan_ok 2 ltac:(lia) (ex_ack 100) 100);
      [unfold in_u32; lia | done | done | exact ex_plan_from | exact ex_run4]. }
  destruct H as [H1 H2]. split; [exact H1|]. split; [exact H2 | by vm_compute].
Defined.

Lemma chunk_always_handled_witness :
  exists v high s',
    sctp_process_a_data_chunk ex_env1 (one_mbuf (fr_bytes ex_f0)) 0 (Z.of_nat (length (fr_bytes ex_f0))) true SCTP_DATA 0
      ex_s3 = Some (v, high, s') /\
    match v with
    | Taken => ~ has ex_R3 (fr_tsn ex_f0)
    | Ignored => has ex_R3 (fr_tsn ex_f0) \/
        8 * SCTP_MAPPING_ARRAY
          <= SCTP_CALC_TSN_TO_GAP (u32 (fr_tsn ex_f0)) (mapping_array_base_tsn (arrays (ack ex_s3)))
    | NoRoom => no_room ex_env1 ex_s3 = true
    | Aborted => False
    end.
Proof.
  apply (chunk_always_handled ex_plan ex_env1 ex_env1_ok ex_plan_ok 2 ltac:(lia) (ex_ack 100) 100 ex_R3 ex_s3 99).
  - unfold in_u32. lia.
  - done.
  - done.
  - exact ex_plan_from.
  - apply ex_run3.
  - by repeat constructor.
  - exact ex_s3_tracks.
  - unfold near, fr_tsn, frag_tsn. cbn. lia.
  - apply one_mbuf_has. cbn. lia.
Defined.



Lemma data_chunk_roundtrip_witness :
  exists h d s', data_chunk_header SCTP_DATA (one_mbuf (encode_data 3 100 0 7 51 [1; 2; 3])) 0 = Some h /\
    take_payload ex_env1 h (one_mbuf (encode_data 3 100 0 7 51 [1; 2; 3])) 0 (16 + Z.of_nat (length [1; 2; 3]) - dh_clen h)
      false ex_s0 = Some (Some d, s') /\
    (dh_flags h, dh_tsn h, dh_sid h, dh_mid h, dh_fsn h, dh_ppid h) = (3, 100, 0, 7, 100, 51) /\
    chain_bytes d = [1; 2; 3].
Proof.
  apply data_chunk_roundtrip; [apply one_mbuf_has; cbn; lia | done | width_lia | width_lia | width_lia | width_lia | done].
Defined.

Lemma refused_chunks_witness :
  let c := encode_data 3 (u32 101) 9 0 51 [1] in
  let r := sctp_process_a_data_chunk ex_env1 (one_mbuf c) 0 (16 + Z.of_nat (length [1])) true SCTP_DATA 0 ex_s0 in
  ([1] = [] -> r = Some (Aborted, 0, abort (loc 14) ex_s0)) /\
  ([1] <> [] -> strm ex_s0 (Z.to_nat 9) = None ->
   exists high' s', r = Some (Ignored, high', s') /\
     strmin s' = strmin ex_s0 /\ controls s' = controls ex_s0 /\ read_queue s' = read_queue ex_s0 /\
     ((effects s' = effects ex_s0 /\ tracks ex_R0 99 s' /\
       (has ex_R0 101 \/ 8 * SCTP_MAPPING_ARRAY
          <= SCTP_CALC_TSN_TO_GAP (u32 101) (mapping_array_base_tsn (arrays (ack ex_s0))))) \/
      (~ has ex_R0 101 /\ effects s' = effects ex_s0 ++ [InvalidStream 9] /\ exists C', tracks (receive ex_R0 101) C' s'))).
Proof.
  apply (refused_chunks ex_env1 ex_R0 99 ex_s0 (one_mbuf (encode_data 3 (u32 101) 9 0 51 [1])) 0 3 101 9 0 51 [1] true 0).
  - exact ex_env1_ok.
  - apply (start_inv ex_plan ex_env1 ex_plan_ok 2 (ex_ack 100) 100);
      [unfold in_u32; lia | done | done | exact ex_plan_from].
  - done.
  - unfold near. lia.
  - width_lia.
  - width_lia.
  - width_lia.
  - apply one_mbuf_has. cbn. lia.
Defined.

(** ** Outside the conditions *)

(** [top_fsn] starts at [0xffffffff], and the first fragment does not set it: when the TSNs
    of a message straddle the half of the number space, and the last fragment arrives
    before one in the middle, the one in the middle aborts the association. *)
Definition straddling : message := Message 0x7ffffffd 51 [[1]; [2]; [3]].

Lemma straddling_message_aborts :
  exists high s', arrive ex_env1 (Fragment 0 0 1 straddling)
    (after ex_env1 (Fragment 0 0 2 straddling) (after ex_env1 (Fragment 0 0 0 straddling) (start (ex_ack 0x7ffffffd) 1)))
    = Some (Aborted, high, s').
Proof. do 2 eexists. by vm_compute. Qed.

(** Messages that are delivered in parts: a receive buffer of 8 bytes makes it 4 bytes. *)
Definition small_env : rx_env := ex_rx_env 8.
Definition in_parts : message := Message 100 51 [[1; 2; 3; 4; 5]; [6]].
Definition next_one : message := Message 102 51 [[7]].

(** The next message of the stream is delivered between the parts. *)
Lemma partial_delivery_overtaken :
  map (fun d => (dl_ssn d, dl_text d, dl_eor d))
    (deliveries (effects (after small_env (Fragment 0 0 1 in_parts) (after small_env (Fragment 0 1 0 next_one)
       (after small_env (Fragment 0 0 0 in_parts) (start (ex_ack 100) 1))))))
  = [(0, [1; 2; 3; 4; 5], false); (1, [7], true); (0, [6], true)].
Proof. by vm_compute. Qed.

(** After the last part nothing is queued, and bytes are still counted as queued. *)
Lemma partial_delivery_keeps_bytes :
  let s := after small_env (Fragment 0 0 1 in_parts) (after small_env (Fragment 0 0 0 in_parts) (start (ex_ack 100) 1)) in
  controls s = ∅ /\ read_queue s = [] /\ map inqueue (strmin s) = [[]] /\ size_on_all_streams (ack s) = 4.
Proof. by vm_compute. Qed.

Definition closed_env : rx_env := RxEnv 0 (Some 8) 131072 true true false 0 1000 (fun _ => true).

(** When the application cannot read any more, a message that is long enough to be
    delivered in parts is freed while it is still in the queue of its stream. *)
Lemma shut_down_reader_uses_freed :
  arrive closed_env (Fragment 0 0 0 in_parts) (start (ex_ack 100) 1) = None.
Proof. by vm_compute. Qed.

(** An unknown chunk of length 0 whose type asks to be skipped is looked at for ever: no
    number of rounds is enough. *)
Lemma zero_length_chunk_loops env m length offset num high s fuel :
  idata_supported env = 0 -> offset < length -> chunk_header m offset = Some (Some (0x83, 0)) ->
  data_loop fuel env m length 0x83 0 offset num high s = None.
Proof.
  intros Hi Ho Hch. revert num high s. induction fuel as [|fuel IH]; intros num high s; [done|].
  cbn [data_loop]. destruct (Z.ltb_spec (length - offset) 0); [lia|]. rewrite Hi. cbn [Z.eqb andb orb].
  change (0x83 =? SCTP_DATA) with false. change (0x83 =? SCTP_IDATA) with false. cbn [orb].
  change (existsb (Z.eqb 0x83) misplaced_types) with false. unfold report_unknown.
  change (Z.land 0x83 0x40 =? 0) with true. cbn [mbind option_bind]. change (Z.land 0x83 0x80 =? 0) with false.
  cbv iota. change (SCTP_SIZE32 0) with 0. rewrite Z.add_0_r. destruct (Z.leb_spec length offset); [lia|].
  rewrite Hch. cbn [mbind option_bind]. apply IH.
Qed.
