(* ===== verification/EndToEnd.v ===== *)
(** * From application to application

    The runs of a sender: what the application queues, and [sctp_fill_outqueue] whenever a
    packet is built, in any order.  The chunks of a run are the fragments of the
    application's messages, one message after the other; [sctp_fill_outqueue] returns; and a
    receiver ([RecvProps]) that gets these chunks, in whatever order and however often,
    hands the sender's messages to its application. *)

From S2P Require Import Serial TsnMap TsnMapInv TsnMapProps SackTable Sack Reasm RecvData RecvPlan RecvInv RecvOps RecvPacket RecvProps RecvExamples.
From S2P Require Import Prelude Chunk Mbuf MbufProps AuthLists Tailq StreamSched SchedProps MsgOut MsgOutInv MsgOutProps.

Open Scope sctp_scope.

(** ** Packets *)

(** The scheduler stays with the stream whose message is under way. *)
Definition held (cur : option outgoing) (s : out_state) : Prop :=
  (forall e, cur = Some e -> locked_on_sending (os_sched s) = Some e.1.1) /\
  (forall sid, locked_on_sending (os_sched s) = Some sid -> outqueue sid s <> []).

Lemma held_grown cur s s' : grown s s' -> held cur s -> held cur s'.
Proof.
  intros [G1 _ G3 _] [H1 H2]. split; rewrite G3; [done|]. intros sid Hl Hq. destruct (G1 sid) as [new E]. rewrite Hq in E.
  symmetry in E. apply app_nil in E as [E _]. by apply (H2 sid).
Qed.

Section Fill.
Context (n : nat) (tsn : Z).

Lemma wheel_next_member a t x : wheel_next a t = Some x -> x ∈ wheel a.
Proof.
  unfold wheel_next. destruct t as [t|].
  - destruct (TAILQ_NEXT (wheel a) t) as [y|] eqn:E; [intros [= <-]; by eapply tailq_next_in|].
    unfold TAILQ_FIRST. destruct (wheel a); [done|]. intros [= <-]. left.
  - unfold TAILQ_FIRST. destruct (wheel a); [done|]. intros [= <-]. left.
Qed.

Lemma default_again_member fuel a cmt net t x : default_again fuel a cmt net t = Some (Some x) -> x ∈ wheel a.
Proof.
  revert t. induction fuel as [|fuel IH]; intros t; [done|]. simpl.
  destruct (rejected a cmt net (wheel_next a t)).
  - destruct (opt_eqb _ _); [done | apply IH].
  - intros [= E]. by eapply wheel_next_member.
Qed.

Lemma queue_stream done cur s x : out_inv n tsn None done cur s -> outqueue x s <> [] -> (x < n)%nat.
Proof.
  intros Hi Hq. apply (oi_dom _ _ _ _ _ _ Hi). apply nonempty_in_store. change (TAILQ_EMPTY (outqueue x s) = false).
  by destruct (outqueue x s).
Qed.

Lemma select_ok env net done cur s x : good_env env -> out_inv n tsn None done cur s -> held cur s ->
  select env net s = Some (Some x) -> (x < n)%nat /\ at_work x cur.
Proof.
  intros [Hm _] Hi [H1 H2] Hsel. assert (E : sctp_ss_select_stream (ss env) = sctp_ss_default_select).
  { unfold ss. destruct (oe_module env); done || discriminate Hm. }
  unfold select in Hsel. rewrite E in Hsel. unfold sctp_ss_default_select in Hsel.
  destruct (locked_on_sending (os_sched s)) as [y|] eqn:El.
  - injection Hsel as <-. split; [by apply (queue_stream done cur s), H2|]. destruct cur as [e|]; [|done]. specialize (H1 e eq_refl). simpl. congruence.
  - apply default_again_member in Hsel. split.
    + apply (oi_dom _ _ _ _ _ _ Hi). apply nonempty_in_store. by apply (oi_serving _ _ _ _ _ _ Hi).
    + destruct cur as [e|]; [|done]. by specialize (H1 e eq_refl).
Qed.

(** The scheduler's note of the stream served. *)
Lemma scheduled_ok env done cur s x : good_env env -> out_inv n tsn None done cur s -> (x < n)%nat -> at_work x cur ->
  let s' := on_sched (fun a => sctp_ss_scheduled (ss env) a x) s in out_inv n tsn None done cur s' /\ held cur s'.
Proof.
  intros [Hm _] Hi Hx Hw s'. assert (E : s' = on_sched (fun a => sctp_ss_default_scheduled a x) s).
  { unfold s', ss. destruct (oe_module env); done || discriminate Hm. }
  rewrite E. clear s' E. set (s' := on_sched _ s). split.
  - eapply quiet_step_inv; [|exact Hi]. split; try done.
    + by eexists.
    + intros q. by apply same_message_refl.
  - split.
    + intros e ->. simpl in Hw. subst x. destruct (oi_cur _ _ _ _ _ _ Hi e eq_refl) as ((_ & _ & Hne & _) & q & p & sp & Hq & Em & _).
      unfold s'. cbn. unfold lock_after. rewrite (oi_idata _ _ _ _ _ _ Hi). cbn.
      change (so_outqueue (strq_of (os_sched s) e.1.1)) with (outqueue e.1.1 s). unfold TAILQ_FIRST. rewrite Hq.
      change (sp_of (os_sched s) q) with (msg_of q s). rewrite (msg_of_at _ _ _ _ Em).
      destruct (outqueue e.1.1 s) as [|q' rest] eqn:Eq; [done|]. injection Hq as ->.
      destruct (oi_stream _ _ _ _ _ _ Hi e.1.1 Hx) as (spent & live & old & S1 & _ & _ & S4 & S5).
      assert (Hfr : frags_on e.1.1 (Some e) = e.2) by (simpl; by rewrite decide_True). rewrite Hfr in *.
      destruct S4 as [->|[Hz _]]; [|by rewrite Hz in Hne]. rewrite Eq in S1. simpl in S1. subst live. destruct S5 as [(p0 & sp0 & E0 & _ & T & _) _].
      rewrite Em in E0. simplify_eq. rewrite T by done. by destruct e.2.
    + intros sid. unfold s'. cbn. unfold lock_after. change (so_outqueue (strq_of (os_sched s) x)) with (outqueue x s).
      destruct (idata_supported (os_sched s) =? 0); [|done]. destruct (outqueue x s) as [|q0 r0] eqn:Eq; [done|]. cbn [TAILQ_FIRST head].
      destruct (_ =? 1); [|done]. intros [= <-]. change (outqueue x s <> []). by rewrite Eq.
Qed.

Lemma fill_behaved fuel env net ats k space_left frag_point strq s r :
  good_point env frag_point -> fill_loop fuel env net ats k space_left frag_point false strq s = Some r ->
  os_behaved r.2 = true -> os_behaved s = true.
Proof.
  intros Hp. revert k space_left strq s. induction fuel as [|fuel IH]; intros k space_left strq s; [done|]. simpl.
  destruct strq as [x|]; [|by intros [= <-]]. destruct (Z.leb_spec space_left 0) as [|Hsp]; [by intros [= <-]|].
  destruct (run_ops env (at_before (ats k)) s) as [s1|] eqn:Eu; [|done]. cbn [mbind option_bind].
  destruct (sctp_move_to_outqueue _ _ _ _ _ _ _) as [[[m s2] u2]|] eqn:Em; [|done]. cbn [mbind option_bind].
  set (s3 := on_sched _ s2). intros H Hb. eapply run_ops_behaved; [exact Eu|]. eapply move_behaved; [done | done | exact Em |].
  change (os_behaved s3 = true). destruct (mv_giveup m || mv_bail m); [by injection H as <-|].
  destruct (select env net s3) as [next|]; [|done]. cbn [mbind option_bind] in H. by eapply IH.
Qed.

Lemma fill_loop_ok fuel env net ats k space_left frag_point strq done cur s r :
  good_env env -> good_point env frag_point -> (forall k, at_chunk (ats k) = true /\ at_head (ats k) = true) ->
  out_inv n tsn None done cur s -> held cur s -> (forall x, strq = Some x -> (x < n)%nat /\ at_work x cur) ->
  fill_loop fuel env net ats k space_left frag_point false strq s = Some r -> os_behaved r.2 = true ->
  exists done' cur', out_inv n tsn None done' cur' r.2 /\ held cur' r.2.
Proof.
  intros He Hp Ha. revert k space_left strq done cur s. induction fuel as [|fuel IH]; intros k space_left strq dn cur s Hi Hh Hx; [done|].
  simpl. destruct strq as [x|]; [|intros [= <-] _; by exists dn, cur].
  destruct (Z.leb_spec space_left 0) as [|Hsp]; [intros [= <-] _; by exists dn, cur|].
  destruct (run_ops env (at_before (ats k)) s) as [s1|] eqn:Eu; [|done]. cbn [mbind option_bind].
  destruct (sctp_move_to_outqueue _ _ _ _ _ _ _) as [[[m s2] u2]|] eqn:Em; [|done]. cbn [mbind option_bind].
  set (s3 := on_sched _ s2). intros Hrun Hb. destruct (Hx x eq_refl) as [Hxn Hxw].
  assert (Hb3 : os_behaved s3 = true).
  { destruct (mv_giveup m || mv_bail m); [by injection Hrun as <-|].
    destruct (select env net s3) as [next|]; [|done]. cbn [mbind option_bind] in Hrun. by eapply fill_behaved. }
  assert (Hb1 : os_behaved s1 = true) by (by eapply move_behaved).
  destruct (run_ops_ok env n tsn None dn cur (at_before (ats k)) s s1) as [Hi1 Hg1]; [done..|].
  destruct (move_ok env n tsn dn cur (ats k) x space_left frag_point s1 m s2 u2) as (dn' & cur' & Hi2 & Hw2); try done; [apply Ha..|].
  destruct (scheduled_ok env dn' cur' s2 x) as [Hi3 Hh3]; [done..|]. fold s3 in Hi3, Hh3.
  destruct (mv_giveup m || mv_bail m); [injection Hrun as <-; by exists dn', cur'|].
  destruct (select env net s3) as [next|] eqn:Es; [|done]. cbn [mbind option_bind] in Hrun.
  eapply IH; [exact Hi3 | exact Hh3 | | exact Hrun | exact Hb]. intros y ->. by eapply select_ok.
Qed.

Lemma fill_ok fuel env net ats frag_point done cur s r :
  good_env env -> good_point env frag_point -> (forall k, at_chunk (ats k) = true /\ at_head (ats k) = true) ->
  out_inv n tsn None done cur s -> held cur s ->
  sctp_fill_outqueue fuel env net ats frag_point false s = Some r -> os_behaved r.2 = true ->
  exists done' cur', out_inv n tsn None done' cur' r.2 /\ held cur' r.2.
Proof.
  intros He Hp Ha Hi Hh. unfold sctp_fill_outqueue. rewrite (u32_id frag_point) by (destruct Hp; unfold in_u32; lia).
  destruct (select env net s) as [strq|] eqn:Es; [|done]. cbn [mbind option_bind].
  destruct (fill_loop _ _ _ _ _ _ _ _ _ _) as [[b s1]|] eqn:Ef; [|done]. cbn [mbind option_bind fst snd].
  destruct (sctp_ss_packet_done _ _ _ _ _) as [a|] eqn:Ed; [|done]. cbn [mbind option_bind]. intros [= <-]. cbn [snd]. intros Hb.
  assert (Ea : a = os_sched s1).
  { revert Ed. unfold ss. destruct He as [Hm _]. destruct (oe_module env); try discriminate Hm; cbn; by intros [= <-]. }
  assert (Hs : s1 <| os_sched := a |> = s1) by (rewrite Ea; by destruct s1). rewrite Hs in *.
  refine (fill_loop_ok fuel env net ats 0 _ frag_point strq done cur s (b, s1) He Hp Ha Hi Hh _ Ef Hb).
  intros x ->. by eapply select_ok.
Qed.

End Fill.

(** ** Runs of a sender *)

(** An association with [n] streams at its start ([sctp_init_asoc]). *)
Definition out_start (n : nat) (tsn : Z) : out_state :=
  OutState
    (Asoc None None [] [] (seq 0 n) (map_seq 0 (map (fun i => StreamOut [] false 0 (Z.of_nat i)) (seq 0 n))) ∅ 0 0)
    ∅ (map_seq 0 (replicate n (StrmState 0 0 0 SCTP_STREAM_OPENING false))) [] tsn 0 0 0 0 0 false None [] 0 [] [] true.

(** The application does something; a packet is filled; or the chunks on the send queue are
    sent, and counters change. *)
Inductive out_step : out_state -> out_state -> Prop :=
| UserStep env o s s' : good_env env -> run_op env o s = Some s' -> out_step s s'
| FillStep env net ats fuel frag_point s r :
    good_env env -> good_point env frag_point -> (forall k, at_chunk (ats k) = true /\ at_head (ats k) = true) ->
    sctp_fill_outqueue fuel env net ats frag_point false s = Some r -> out_step s r.2
| SendStep s s' : unseen s s' -> os_behaved s' = os_behaved s -> out_step s s'.

Section Run.
Context (n : nat) (tsn : Z).

Lemma start_stream i : (i < n)%nat -> strq_of (os_sched (out_start n tsn)) i = StreamOut [] false 0 (Z.of_nat i).
Proof.
  intros Hi. unfold strq_of. cbn. rewrite lookup_map_seq_0, list_lookup_fmap. rewrite (proj2 (lookup_seq 0 n i i)) by lia. done.
Qed.

Lemma start_dom i : is_Some (streams (os_sched (out_start n tsn)) !! i) <-> (i < n)%nat.
Proof. cbn. rewrite lookup_map_seq_0, lookup_lt_is_Some, length_map, length_seq. done. Qed.

Lemma start_queue i : outqueue i (out_start n tsn) = [] /\ so_linked (strq_of (os_sched (out_start n tsn)) i) = false.
Proof.
  destruct (decide (i < n)%nat) as [Hi|Hi]; [unfold outqueue; by rewrite start_stream|].
  unfold outqueue, strq_of. destruct (streams (os_sched (out_start n tsn)) !! i) eqn:E; [|done].
  destruct Hi. apply start_dom. by eexists.
Qed.

Lemma out_start_inv : in_u32 tsn -> out_inv n tsn None [] None (out_start n tsn) /\ held None (out_start n tsn).
Proof.
  intros Ht. split; [|by split]. split; try done.
  - split; [split; [constructor|]|]; intros p.
    + destruct (start_queue p) as [_ E]. rewrite E. cbn. split; [by intros ?%elem_of_nil | done].
    + destruct (start_queue p) as [E _]. unfold queue_empty. unfold outqueue in E. rewrite E. cbn. split; [by intros ?%elem_of_nil | done].
  - intros i. apply start_dom.
  - intros i Hi. by rewrite start_stream.
  - intros i Hi. eexists. split; [cbn; rewrite lookup_map_seq_0; by apply lookup_replicate_2 | done].
  - cbn. rewrite Z.add_0_r. by rewrite u32_id.
  - constructor.
  - intros i Hi. exists [], [], []. destruct (start_queue i) as [E _]. rewrite E. split_and!; try done. by left.
Qed.

Lemma out_step_behaved s s' : out_step s s' -> os_behaved s' = true -> os_behaved s = true.
Proof.
  intros [env o s0 s1 _ H|env net ats fuel fp s0 r He Hp Ha H|s0 s1 _ E] Hb; [by eapply run_op_behaved | | congruence].
  revert H. unfold sctp_fill_outqueue. rewrite (u32_id fp) by (destruct Hp; unfold in_u32; lia).
  destruct (select env net s0) as [strq|] eqn:Es; [|done]. cbn [mbind option_bind].
  destruct (fill_loop _ _ _ _ _ _ _ _ _ _) as [[b s1]|] eqn:Ef; [|done]. cbn [mbind option_bind fst snd].
  destruct (sctp_ss_packet_done _ _ _ _ _) as [a|]; [|done]. cbn [mbind option_bind]. intros [= <-]. by eapply fill_behaved.
Qed.

Lemma out_step_ok done cur s s' : out_step s s' -> out_inv n tsn None done cur s -> held cur s -> os_behaved s' = true ->
  exists done' cur', out_inv n tsn None done' cur' s' /\ held cur' s'.
Proof.
  intros [env o s0 s1 He H|env net ats fuel fp s0 r He Hp Ha H|s0 s1 Hun E] Hi Hh Hb.
  - exists done, cur. destruct (run_op_ok env n tsn None done cur o s0 s1) as [Hi1 Hg]; try done. split; [done|].
    by eapply held_grown.
  - by eapply fill_ok.
  - exists done, cur. split; [eapply quiet_step_inv; [by apply unseen_quiet | done]|]. eapply held_grown; [by apply unseen_grown | done].
Qed.

Lemma out_run_ok s : in_u32 tsn -> rtc out_step (out_start n tsn) s -> os_behaved s = true ->
  exists done cur, out_inv n tsn None done cur s /\ held cur s.
Proof.
  intros Ht Hrun Hb. assert (H0 : exists done cur, out_inv n tsn None done cur (out_start n tsn) /\ held cur (out_start n tsn)).
  { exists [], None. by apply out_start_inv. }
  revert H0. generalize (out_start n tsn) Hrun. clear Hrun. intros s0 Hrun. induction Hrun as [s0|s0 s1 s2 Hs Hrun IH]; [done|].
  intros (done & cur & Hi & Hh). apply (IH Hb). eapply out_step_ok; [exact Hs | exact Hi | exact Hh|].
  clear -Hrun Hb. induction Hrun as [|a b c Hab _ IHr]; [done|]. eapply out_step_behaved; eauto.
Qed.

End Run.

(** ** The plan of a run *)

(** What the peer is to get: the messages that are finished, and the one under way with a
    fragment for the rest. *)
Definition run_plan (done : list outgoing) (cur : option outgoing) : list outgoing :=
  done ++ match cur with Some e => [opened e] | None => [] end.

Section Plans.

Lemma wire_prefix tsn done cur : exists rest,
  chunks_of tsn (fun _ => 0%nat) (run_plan done cur) = wire tsn done cur ++ rest.
Proof.
  unfold run_plan, wire. destruct cur as [[[sid ppid] frags]|]; [|exists []; by rewrite !app_nil_r].
  rewrite chunks_of_snoc. cbn [opened fst snd Nat.add]. unfold message_chunks at 1. rewrite length_app. cbn [length].
  rewrite Nat.add_1_r, seq_S, map_app, app_assoc. by eexists.
Qed.

Lemma plan_chunk tsn sent l sid j m i : of_stream sid (assign tsn l) !! j = Some m -> (i < m_size m)%nat ->
  tsn <= frag_tsn m i /\ chunks_of tsn sent l !! Z.to_nat (frag_tsn m i - tsn) = Some (frag_chunk sid (sent sid + j) m i).
Proof.
  revert tsn sent j. induction l as [|[[s p] f] l IH]; intros tsn sent j; [done|]. cbn [assign chunks_of].
  rewrite of_stream_cons. set (sent' := fun x => if (x =? s)%nat then S (sent x) else sent x).
  assert (Hlen : length (message_chunks s (sent s) (Message tsn p f) (length f)) = length f)
    by (unfold message_chunks; by rewrite length_map, length_seq).
  assert (Hlater : forall j', of_stream sid (assign (tsn + Z.of_nat (length f)) l) !! j' = Some m -> (i < m_size m)%nat ->
    tsn <= frag_tsn m i /\ (message_chunks s (sent s) (Message tsn p f) (length f) ++ chunks_of (tsn + Z.of_nat (length f)) sent' l)
      !! Z.to_nat (frag_tsn m i - tsn) = Some (frag_chunk sid (sent' sid + j') m i)).
  { intros j' Hj Hi. destruct (IH _ sent' j' Hj Hi) as [H1 H2]. split; [lia|]. rewrite lookup_app_r by (rewrite Hlen; lia). rewrite Hlen, <- H2. f_equal. lia. }
  case_decide as Es; [subst s; destruct j as [|j]|]; cbn [app lookup list_lookup].
  - intros [= <-] Hi. unfold m_size, frag_tsn in *. cbn [m_frags m_tsn] in *. split; [lia|].
    rewrite lookup_app_l by (rewrite Hlen; lia). replace (Z.to_nat (tsn + Z.of_nat i - tsn)) with i by lia.
    unfold message_chunks. rewrite list_lookup_fmap, (proj2 (lookup_seq 0 (length f) i i)) by lia. by rewrite Nat.add_0_r.
  - intros Hj Hi. destruct (Hlater j Hj Hi) as [H1 H2]. split; [done|]. rewrite H2. unfold sent'. rewrite Nat.eqb_refl. do 2 f_equal. lia.
  - intros Hj Hi. destruct (Hlater j Hj Hi) as [H1 H2]. split; [done|]. rewrite H2. unfold sent'.
    by rewrite (proj2 (Nat.eqb_neq sid s)) by congruence.
Qed.

Lemma chunk_from tsn sent l k b : chunks_of tsn sent l !! k = Some b ->
  exists sid j m i, of_stream sid (assign tsn l) !! j = Some m /\ (i < m_size m)%nat /\ frag_tsn m i = tsn + Z.of_nat k
    /\ b = frag_chunk sid (sent sid + j) m i /\ exists e, e ∈ l /\ e.1.1 = sid.
Proof.
  revert tsn sent k. induction l as [|[[s p] f] l IH]; intros tsn sent k; [done|]. cbn [assign chunks_of].
  set (sent' := fun x => if (x =? s)%nat then S (sent x) else sent x).
  assert (Hlen : length (message_chunks s (sent s) (Message tsn p f) (length f)) = length f)
    by (unfold message_chunks; by rewrite length_map, length_seq).
  intros H. apply lookup_app_Some in H as [H|[Hk H]].
  - pose proof (lookup_lt_Some _ _ _ H) as Hk. rewrite Hlen in Hk. unfold message_chunks in H.
    rewrite list_lookup_fmap, (proj2 (lookup_seq 0 (length f) k k)) in H by lia. injection H as <-.
    exists s, 0%nat, (Message tsn p f), k. rewrite of_stream_cons, decide_True by done. unfold frag_tsn, m_size. cbn.
    split_and!; try done; [by rewrite Nat.add_0_r|]. exists (s, p, f). split; [left | done].
  - rewrite Hlen in *. destruct (IH _ _ _ H) as (sid & j & m & i & H1 & H2 & H3 & H4 & e & He & Hes).
    exists sid, (if decide (s = sid) then S j else j), m, i. rewrite of_stream_cons. split_and!; [by case_decide | done | lia | |].
    + rewrite H4. unfold sent'. case_decide as E.
      * rewrite E, Nat.eqb_refl. f_equal. lia.
      * by rewrite (proj2 (Nat.eqb_neq sid s)) by congruence.
    + exists e. split; [by right | done].
Qed.

Lemma stream_texts tsn l sid : map (fun m => (m_ppid m, m_text m)) (of_stream sid (assign tsn l)) = texts_of sid l.
Proof.
  revert tsn. induction l as [|[[s p] f] l IH]; intros tsn; [done|]. cbn [assign]. rewrite of_stream_cons. unfold texts_of.
  rewrite filter_cons. cbn [fst]. repeat case_decide; try congruence; cbn [app map fst snd m_ppid m_text]; [f_equal|]; apply IH.
Qed.

Lemma sent_texts tsn l sid D : (D <= length (texts_of sid l))%nat ->
  map (fun d => (dl_ppid d, dl_text d)) (sent_from (plan_of tsn l) sid 0 D) = take D (texts_of sid l).
Proof.
  rewrite <- (stream_texts tsn). rewrite length_map. unfold sent_from, plan_of, sent.
  set (ms := of_stream sid (assign tsn l)). intros HD.
  assert (H : forall k d, (k + d <= length ms)%nat ->
    map (fun d => (dl_ppid d, dl_text d)) (omap (fun j => m ← ms !! j; Some (Delivery (Z.of_nat sid) (u16 (Z.of_nat j)) (m_ppid m) (u32 (m_tsn m)) (m_text m) true)) (seq k d))
    = take d (drop k (map (fun m => (m_ppid m, m_text m)) ms))).
  { intros k d. revert k. induction d as [|d IHd]; intros k Hk; [done|]. cbn [seq].
    destruct (lookup_lt_is_Some_2 ms k) as [m Hm]; [lia|].
    rewrite (drop_S _ (m_ppid m, m_text m) k) by (by rewrite list_lookup_fmap, Hm). cbn [take]. rewrite <- IHd by lia.
    cbn. by rewrite Hm. }
  exact (H 0%nat D HD).
Qed.

End Plans.

(** ** The theorems *)

(** Every message, and one byte more, is below the size from which the receiver delivers in
    parts. *)
Definition small_messages (pd : Z) (s : out_state) : Prop :=
  Forall (fun e => Z.of_nat (length e.2.2) + 1 < pd) (os_said s).

(** The TSNs of the run do not cross [0x7fffffff]. *)
Definition clear_of_half (tsn k : Z) : Prop :=
  tsn + k < 2147483647 \/ 2147483647 <= tsn /\ tsn + k < 4294967296 + 2147483647.

Section Theorems.

Lemma inv_texts n tsn done cur s sid : out_inv n tsn None done cur s -> (sid < n)%nat ->
  exists later, map text_of (said_on sid s) = texts_of sid done ++ later /\
    (forall e, cur = Some e -> e.1.1 = sid -> exists rest more, later = (e.1.2, concat e.2 ++ rest) :: more) /\
    (outqueue sid s = [] -> later = []).
Proof.
  intros Hi Hs. destruct (oi_stream _ _ _ _ _ _ Hi sid Hs) as (spent & live & old & E1 & E2 & E3 & E4 & E5).
  exists (map text_of (entries s (frags_on sid cur) live)). split_and!.
  - by rewrite E2, map_app, E3.
  - intros e -> He. destruct (oi_cur _ _ _ _ _ _ Hi e eq_refl) as ((_ & _ & Hne & _) & q & p & sp & H1 & H2 & H3).
    assert (Hf : frags_on sid (Some e) = e.2) by (simpl; by rewrite decide_True). rewrite Hf in *.
    destruct E4 as [->|[Hz _]]; [|by rewrite Hz in Hne]. rewrite He, E1 in H1. destruct live as [|q' r]; [done|]. injection H1 as ->.
    cbn [app entries map]. unfold entry at 1, text_of at 1. rewrite H2. cbn [fst snd]. rewrite H3. by eexists _, _.
  - intros Ho. rewrite Ho in E1. symmetry in E1. apply app_nil in E1 as [_ ->]. done.
Qed.

Lemma assign_elem tsn l e : e ∈ assign tsn l -> exists x, x ∈ l /\ e.1 = x.1.1 /\ m_ppid e.2 = x.1.2 /\ m_frags e.2 = x.2 /\
  tsn <= m_tsn e.2 /\ m_tsn e.2 + Z.of_nat (length x.2) <= tsn + Z.of_nat (total l).
Proof.
  revert tsn. induction l as [|[[s p] f] l IH]; intros tsn; [by intros ?%elem_of_nil|]. cbn [assign].
  rewrite total_cons. cbn [snd]. intros [-> | He]%elem_of_cons.
  - exists (s, p, f). split_and!; [left | done | done | done | cbn; lia | cbn; lia].
  - destruct (IH _ He) as (x & H1 & H2 & H3 & H4 & H5 & H6). exists x. split_and!; [by right | done | done | done | lia | lia].
Qed.

Lemma said_small pd s sid t : small_messages pd s -> t ∈ map text_of (said_on sid s) -> Z.of_nat (length t.2) + 1 < pd.
Proof.
  unfold small_messages. rewrite Forall_forall. intros H Ht. apply list_elem_of_fmap in Ht as (e & -> & He).
  apply list_elem_of_filter in He as [_ He]. exact (H e He).
Qed.

Lemma in_texts sid l x : x ∈ l -> x.1.1 = sid -> (x.1.2, concat x.2) ∈ texts_of sid l.
Proof. intros Hx Hs. apply list_elem_of_fmap. exists x. split; [done|]. by apply list_elem_of_filter. Qed.

Lemma frags_few (l : list (list Z)) : Forall (fun f => 0 < Z.of_nat (length f) < 65520) l -> (length l <= length (concat l))%nat.
Proof. induction 1 as [|f l Hf _ IH]; simpl; [done|]. rewrite length_app. lia. Qed.

Lemma plan_messages_ok n tsn done cur s pd : in_u32 tsn -> out_inv n tsn None done cur s -> pd <= 1073741824 -> small_messages pd s ->
  clear_of_half tsn (Z.of_nat (length (os_log s))) ->
  Forall (fun e => message_ok pd e.2) (assign tsn (run_plan done cur)).
Proof.
  intros Ht Hi Hpd Hsm Hhalf. apply Forall_forall. intros e He. destruct (assign_elem _ _ _ He) as (x & Hx & E1 & E2 & E3 & E4 & E5).
  pose proof (Forall2_length _ _ _ (oi_wire _ _ _ _ _ _ Hi)) as Hlen. rewrite wire_length in Hlen.
  assert (Hplan : (total (run_plan done cur) <= length (os_log s) + 1)%nat).
  { unfold run_plan. destruct cur as [c|]; [|rewrite app_nil_r; lia]. rewrite total_snoc. unfold opened. cbn. rewrite length_app. cbn. lia. }
  assert (Hgood : cut_well n x /\ Z.of_nat (length (concat x.2)) < pd).
  { unfold run_plan in Hx. apply elem_of_app in Hx as [Hx|Hx].
    - pose proof (oi_done _ _ _ _ _ _ Hi) as Hd. rewrite Forall_forall in Hd. specialize (Hd x Hx). split; [done|].
      destruct (inv_texts _ _ _ _ _ x.1.1 Hi (proj1 Hd)) as (later & H1 & _).
      pose proof (said_small pd s x.1.1 (x.1.2, concat x.2) Hsm) as H. rewrite H1 in H. cbn in H.
      assert (Hin : (x.1.2, concat x.2) ∈ texts_of x.1.1 done ++ later) by (apply elem_of_app; left; by apply in_texts). specialize (H Hin). lia.
    - destruct cur as [c|]; [|by apply elem_of_nil in Hx]. apply list_elem_of_singleton in Hx as ->.
      destruct (oi_cur _ _ _ _ _ _ Hi c eq_refl) as [(W1 & W2 & W3 & W4) _].
      split; [split_and!; cbn; try done; [by destruct c.2 | apply Forall_app; split; [done|]; constructor; [simpl; lia | done]]|].
      destruct (inv_texts _ _ _ _ _ c.1.1 Hi W1) as (later & H1 & H2 & _). destruct (H2 c eq_refl eq_refl) as (rest & more & ->).
      pose proof (said_small pd s c.1.1 (c.1.2, concat c.2 ++ rest) Hsm) as H. rewrite H1 in H. cbn [snd] in H.
      assert (Hin : (c.1.2, concat c.2 ++ rest) ∈ texts_of c.1.1 done ++ (c.1.2, concat c.2 ++ rest) :: more) by (apply elem_of_app; right; left).
      specialize (H Hin). unfold opened. cbn. rewrite concat_app, length_app. cbn. rewrite length_app in H. lia. }
  destruct Hgood as [(W1 & W2 & W3 & W4) Hsize]. pose proof (frags_few _ W4) as Hfew. unfold clear_of_half in Hhalf.
  split; unfold m_size, m_text, frag_tsn; rewrite ?E2, ?E3; try done.
  - destruct x.2; [done | simpl; lia].
  - lia.
  - intros Hlast i Hi'. unfold u32 in *.
    assert (R1 : tsn <= m_tsn e.2) by lia.
    assert (R2 : m_tsn e.2 + Z.of_nat (length x.2) <= tsn + Z.of_nat (length (os_log s)) + 1) by lia. clear - Ht Hlast Hi' R1 R2 Hhalf. unfold in_u32 in Ht.
    Z.div_mod_to_equations. lia.
Qed.

(** C2. In every run of a sender whose application keeps the rules: the chunks made so far
    are those of a list of finished messages, and of at most one message under way, each
    message cut into fragments of 1 to 65519 bytes that follow each other; and on every
    stream the finished messages are the first ones the application has handed over, whole
    and in order, with the one under way next.  When a stream's queue is empty, everything
    said on it is finished.  The application may hand over messages, whole or in parts,
    between the packets and whenever the code drops the send lock.  (Ordered messages
    without I-DATA, the default or the round-robin scheduler, memory for headers.) *)
Theorem messages_cut_in_order n tsn s (Ht : in_u32 tsn) (Hrun : rtc out_step (out_start n tsn) s) (Hb : os_behaved s = true) :
  exists done cur,
    Forall2 carries (os_log s) (wire tsn done cur) /\
    Forall (cut_well n) (done ++ match cur with Some e => [e] | None => [] end) /\
    forall sid, (sid < n)%nat -> exists later, map text_of (said_on sid s) = texts_of sid done ++ later /\
      (forall e, cur = Some e -> e.1.1 = sid -> exists rest more, later = (e.1.2, concat e.2 ++ rest) :: more) /\
      (outqueue sid s = [] -> later = []).
Proof.
  destruct (out_run_ok n tsn s Ht Hrun Hb) as (done & cur & Hi & _). exists done, cur. split_and!.
  - apply (oi_wire _ _ _ _ _ _ Hi).
  - apply Forall_app. split; [apply (oi_done _ _ _ _ _ _ Hi)|]. destruct cur as [e|]; [|done].
    constructor; [|done]. by apply (oi_cur _ _ _ _ _ _ Hi).
  - intros sid Hs. by apply (inv_texts n tsn).
Qed.

(** The fragments of the plan with TSNs of the run are the chunks made. *)
Lemma plan_is_log n tsn done cur s : out_inv n tsn None done cur s ->
  (forall f, fragment_ok (plan_of tsn (run_plan done cur)) n f -> fr_tsn f < tsn + Z.of_nat (length (os_log s)) ->
     exists c, os_log s !! Z.to_nat (fr_tsn f - tsn) = Some c /\ carries c (fr_bytes f)) /\
  (forall k c, os_log s !! k = Some c -> exists f, fragment_ok (plan_of tsn (run_plan done cur)) n f /\
     fr_tsn f = tsn + Z.of_nat k /\ carries c (fr_bytes f)).
Proof.
  intros Hi. pose proof (oi_wire _ _ _ _ _ _ Hi) as Hw. pose proof (Forall2_length _ _ _ Hw) as Hlen.
  destruct (wire_prefix tsn done cur) as [rest Hpre]. split.
  - intros [sid j i m] [F1 F2 F3] Hlt. unfold fr_tsn, fr_bytes in *. cbn [fr_sid fr_j fr_i fr_msg] in *.
    destruct (plan_chunk tsn (fun _ => 0%nat) _ sid j m i F2 F3) as [H1 H2]. rewrite Hpre, lookup_app_l in H2 by lia.
    destruct (Forall2_lookup_r _ _ _ _ _ Hw H2) as (c & Hc & Hcar). by exists c.
  - intros k c Hc. destruct (Forall2_lookup_l _ _ _ _ _ Hw Hc) as (b & Hb & Hcar).
    assert (Hb' : chunks_of tsn (fun _ => 0%nat) (run_plan done cur) !! k = Some b).
    { rewrite Hpre. by apply lookup_app_l_Some. }
    destruct (chunk_from _ _ _ _ _ Hb') as (sid & j & m & i & H1 & H2 & H3 & -> & e & He & Hes).
    exists (Fragment sid j i m). split; [|by split]. split; [|done | done]. cbn.
    unfold run_plan in He. apply elem_of_app in He as [He|He].
    + pose proof (oi_done _ _ _ _ _ _ Hi) as Hd. rewrite Forall_forall in Hd. rewrite <- Hes. apply (Hd e He).
    + destruct cur as [c0|]; [|by apply elem_of_nil in He]. apply list_elem_of_singleton in He as ->. rewrite <- Hes.
      by destruct (oi_cur _ _ _ _ _ _ Hi c0 eq_refl) as [(? & _) _].
Qed.

Lemma assign_app tsn l l' : assign tsn (l ++ l') = assign tsn l ++ assign (tsn + Z.of_nat (total l)) l'.
Proof.
  revert tsn. induction l as [|[[s p] f] l IH]; intros tsn; cbn [assign app]; [by rewrite Z.add_0_r|].
  rewrite IH, total_cons. cbn [snd]. do 3 f_equal. lia.
Qed.

(** The plan of a run on one stream. *)
Lemma plan_stream tsn done cur sid :
  of_stream sid (assign tsn (run_plan done cur)) = of_stream sid (assign tsn done) ++
    match cur with
    | Some e => if decide (e.1.1 = sid) then [Message (tsn + Z.of_nat (total done)) e.1.2 (e.2 ++ [[0]])] else []
    | None => []
    end.
Proof.
  unfold run_plan. rewrite assign_app. unfold of_stream at 1. rewrite omap_app. f_equal.
  destruct cur as [[[s p] f]|]; [|done]. cbn. by case_decide.
Qed.

Lemma stream_count tsn done sid : length (of_stream sid (assign tsn done)) = length (texts_of sid done).
Proof. by rewrite <- (stream_texts tsn), length_map. Qed.

(** The messages that have arrived as a whole are finished ones. *)
Lemma prefix_finished n tsn done cur s R sid D : out_inv n tsn None done cur s ->
  (forall t, tsn + Z.of_nat (length (os_log s)) <= t -> ~ has R t) ->
  complete_prefix (plan_of tsn (run_plan done cur)) R sid D -> (D <= length (texts_of sid done))%nat.
Proof.
  intros Hi Hsent [Hall _]. destruct (decide (D <= length (texts_of sid done))%nat) as [|Hgt]; [done|]. exfalso.
  destruct (Hall (length (texts_of sid done))) as (m & Hm & Hc); [lia|]. unfold plan_of in Hm. rewrite plan_stream in Hm.
  rewrite lookup_app_r, (stream_count tsn), Nat.sub_diag in Hm by (rewrite (stream_count tsn); lia).
  destruct cur as [e|]; [|done]. case_decide; [|done]. injection Hm as <-.
  pose proof (Forall2_length _ _ _ (oi_wire _ _ _ _ _ _ Hi)) as Hlen. rewrite wire_length in Hlen.
  apply (Hsent (tsn + Z.of_nat (length (os_log s)))); [lia|]. specialize (Hc (length e.2)). unfold frag_tsn, m_size in Hc. cbn in Hc.
  rewrite length_app in Hc. cbn in Hc. replace (tsn + Z.of_nat (length (os_log s))) with (tsn + Z.of_nat (total done) + Z.of_nat (length e.2)) by lia.
  apply Hc. lia.
Qed.

(** When everything has arrived, all finished messages have. *)
Lemma finished_prefix n tsn done cur s R sid D : out_inv n tsn None done cur s ->
  (forall t, tsn <= t < tsn + Z.of_nat (length (os_log s)) -> has R t) ->
  complete_prefix (plan_of tsn (run_plan done cur)) R sid D -> (length (texts_of sid done) <= D)%nat.
Proof.
  intros Hi Hgot [_ Hnext]. destruct (decide (length (texts_of sid done) <= D)%nat) as [|Hlt]; [done|]. exfalso.
  destruct (lookup_lt_is_Some_2 (of_stream sid (assign tsn done)) D) as [m Hm]; [rewrite (stream_count tsn); lia|].
  apply (Hnext m); [unfold plan_of; rewrite plan_stream; by apply lookup_app_l_Some|]. intros i Hlti.
  apply list_elem_of_lookup_2, of_stream_elem, assign_elem in Hm as (x & _ & _ & _ & H3 & H4 & H5). cbn [snd] in *.
  pose proof (Forall2_length _ _ _ (oi_wire _ _ _ _ _ _ Hi)) as Hlen. rewrite wire_length in Hlen.
  apply Hgot. unfold frag_tsn, m_size in *. rewrite H3 in *. lia.
Qed.

(** C1. From application to application.  For every run of a sender there is a plan of
    messages whose fragments are exactly the chunks that have been made, with the TSNs from
    the initial one on; and whatever of these chunks reach a receiver, in whatever order,
    however often and in packets cut into mbufs in any way, on every stream the receiving
    application has got a prefix of what the sending application has handed over, with the
    protocol identifiers, whole, in order and once.  When all the chunks have arrived and
    the stream's queue is empty, it has got everything.  (The conditions above on the
    sender; messages below the size from which they are delivered in parts.) *)
Theorem messages_delivered_end_to_end n tsn s env a
  (Ht : in_u32 tsn) (Hn : Z.of_nat n <= 65536) (Hrun : rtc out_step (out_start n tsn) s) (Hb : os_behaved s = true)
  (Henv : env_ok env) (Hpd : pd_point env <= 1073741824) (Hsmall : small_messages (pd_point env) s)
  (Hhalf : clear_of_half tsn (Z.of_nat (length (os_log s))))
  (Ha : arrays a = new_map tsn) (Hopen : has_flag (assoc_state a) SCTP_STATE_CLOSED_SOCKET = false) :
  exists msg : nat -> nat -> option message,
    (forall f, fragment_ok msg n f -> fr_tsn f < tsn + Z.of_nat (length (os_log s)) ->
       exists c, os_log s !! Z.to_nat (fr_tsn f - tsn) = Some c /\ carries c (fr_bytes f)) /\
    (forall k c, os_log s !! k = Some c -> exists f, fragment_ok msg n f /\ fr_tsn f = tsn + Z.of_nat k /\ carries c (fr_bytes f)) /\
    forall R s', rtc (rx_step msg env n) (Received tsn ∅, start a n) (R, s') ->
      (forall t, tsn + Z.of_nat (length (os_log s)) <= t -> ~ has R t) ->
      forall sid, (sid < n)%nat -> exists D,
        map (fun d => (dl_ppid d, dl_text d)) (on_stream sid (deliveries (effects s'))) = take D (map text_of (said_on sid s)) /\
        ((forall t, tsn <= t < tsn + Z.of_nat (length (os_log s)) -> has R t) -> outqueue sid s = [] -> D = length (said_on sid s)).
Proof.
  destruct (out_run_ok n tsn s Ht Hrun Hb) as (done & cur & Hi & _). destruct (plan_is_log n tsn done cur s Hi) as [P1 P2].
  exists (plan_of tsn (run_plan done cur)). split; [exact P1|]. split; [exact P2|]. intros R s' Hrx Hsent sid Hs.
  pose proof (plan_of_ok _ _ _ (plan_messages_ok n tsn done cur s _ Ht Hi Hpd Hsmall Hhalf)) as Hplan.
  destruct (ordered_delivery _ env Henv Hplan n Hn a tsn R s' Ht Ha Hopen) as [Hdel _]; [|exact Hrx|].
  { intros sid0 j m i Hm Hlt. by apply (plan_chunk tsn (fun _ => 0%nat) _ sid0 j m i Hm Hlt). }
  destruct (Hdel sid Hs) as (D & [Hall Hnext] & ->). destruct (inv_texts _ _ _ _ _ sid Hi Hs) as (later & Hsaid & _ & Hlater).
  pose proof (prefix_finished n tsn done cur s R sid D Hi Hsent (conj Hall Hnext)) as HD.
  assert (Hplan_texts : exists u, texts_of sid (run_plan done cur) = texts_of sid done ++ u).
  { unfold run_plan, texts_of. rewrite filter_app, map_app. by eexists. }
  destruct Hplan_texts as [u Hu]. exists D. split.
  - rewrite sent_texts by (rewrite Hu, length_app; lia). by rewrite Hu, Hsaid, !take_app_le.
  - intros Hgot Hempty. rewrite (Hlater Hempty), app_nil_r in Hsaid.
    pose proof (finished_prefix n tsn done cur s R sid D Hi Hgot (conj Hall Hnext)) as HD'.
    rewrite <- (length_map text_of), Hsaid. lia.
Qed.

End Theorems.

(** ** [sctp_fill_outqueue] returns *)

(** The bytes the application has handed over. *)
Definition said_bytes (s : out_state) : nat := sum_list_with (fun e => length e.2.2) (os_said s).

(** No message is bound to a destination, or the destination does not matter. *)
Definition any_path (env : out_env) (s : out_state) : Prop :=
  oe_cmt_on_off env <> 0 \/ forall q p, pendings (os_sched s) !! q = Some p -> sp_net p = None.

Definition silent (ats : nat -> attempt) : Prop :=
  forall k, at_before (ats k) = [] /\ at_users (ats k) = [] /\ at_chunk (ats k) = true /\ at_head (ats k) = true.

Section Sums.

Lemma sum_plus {A} (f g : A -> nat) l : sum_list_with (fun x => (f x + g x)%nat) l = (sum_list_with f l + sum_list_with g l)%nat.
Proof. induction l as [|x l IH]; simpl; lia. Qed.

Lemma sum_at (v k b n : nat) : sum_list_with (fun i => if (i =? k)%nat then v else 0%nat) (seq b n) =
  if decide (b <= k < b + n)%nat then v else 0%nat.
Proof.
  revert b. induction n as [|n IH]; intros b; simpl; [by rewrite decide_False by lia|]. rewrite IH.
  destruct (Nat.eqb_spec b k); repeat case_decide; lia.
Qed.

Lemma sum_zero {A} (l : list A) : sum_list_with (fun _ => 0%nat) l = 0%nat.
Proof. by induction l. Qed.

(** The parts of a list, by a key below [n]. *)
Lemma sum_parts {A} (key : A -> nat) (g : A -> nat) n l : Forall (fun x => (key x < n)%nat) l ->
  sum_list_with (fun i => sum_list_with g (filter (fun x => key x = i) l)) (seq 0 n) = sum_list_with g l.
Proof.
  induction 1 as [|x l Hx _ IH]; simpl.
  { apply sum_zero. }
  rewrite <- IH. transitivity (sum_list_with (fun i => ((if (i =? key x)%nat then g x else 0) + sum_list_with g (filter (fun x => key x = i) l))%nat) (seq 0 n)).
  - clear IH. induction (seq 0 n) as [|i r IHr]; simpl; [done|]. rewrite IHr, filter_cons. f_equal.
    destruct (Nat.eqb_spec i (key x)); case_decide; simpl; congruence || lia.
  - rewrite sum_plus, sum_at, decide_True by lia. done.
Qed.

Lemma sum_mono {A} (f g : A -> nat) l : (forall x, x ∈ l -> (f x <= g x)%nat) -> (sum_list_with f l <= sum_list_with g l)%nat.
Proof.
  induction l as [|x l IH]; simpl; intros H; [done|]. pose proof (H x ltac:(left)).
  assert (sum_list_with f l <= sum_list_with g l)%nat by (apply IH; intros; apply H; by right). lia.
Qed.

Lemma total_sum l : total l = sum_list_with (fun e => length e.2) l.
Proof. induction l as [|e l IH]; [done|]. rewrite total_cons, IH. done. Qed.

End Sums.

Section Returns.
Context (n : nat) (tsn : Z).

(** There are no more chunks than bytes. *)
Lemma log_bound done cur s : out_inv n tsn None done cur s -> (length (os_log s) <= said_bytes s)%nat.
Proof.
  intros Hi. rewrite (Forall2_length _ _ _ (oi_wire _ _ _ _ _ _ Hi)), wire_length. fold (MsgOutInv.total done).
  set (c := match cur with Some e => length e.2 | None => 0%nat end).
  assert (Hdone : Forall (fun e => (e.1.1 < n)%nat) done) by (eapply Forall_impl; [exact (oi_done _ _ _ _ _ _ Hi)|]; by intros e []).
  assert (Hc : c = sum_list_with (fun sid => length (frags_on sid cur)) (seq 0 n)).
  { unfold c. destruct cur as [e|]; simpl; [|by rewrite sum_zero].
    destruct (oi_cur _ _ _ _ _ _ Hi e eq_refl) as [(Hn & _) _].
    transitivity (sum_list_with (fun i => if (i =? e.1.1)%nat then length e.2 else 0%nat) (seq 0 n)).
    - rewrite sum_at, decide_True by lia. done.
    - induction (seq 0 n) as [|i r IHr]; simpl; [done|]. rewrite IHr. f_equal.
      destruct (Nat.eqb_spec i e.1.1); case_decide; congruence || done. }
  assert (Hparts : (sum_list_with (fun sid => sum_list_with (fun e => length e.2.2) (said_on sid s)) (seq 0 n) <= said_bytes s)%nat).
  { unfold said_bytes, said_on. clear. induction (os_said s) as [|x l IH]; simpl.
    - by rewrite sum_zero.
    - transitivity (sum_list_with (fun i => ((if (i =? x.2.1.1)%nat then length x.2.2 else 0) +
        sum_list_with (fun e => length e.2.2) (filter (fun e => e.2.1.1 = i) l))%nat) (seq 0 n)).
      + clear IH. apply Nat.eq_le_incl. induction (seq 0 n) as [|i r IHr]; simpl; [done|]. rewrite IHr, filter_cons. f_equal.
        destruct (Nat.eqb_spec i x.2.1.1); case_decide; simpl; congruence || lia.
      + rewrite sum_plus, sum_at. case_decide; lia. }
  etransitivity; [|exact Hparts]. rewrite Hc, total_sum, <- (sum_parts (fun e => e.1.1) _ n done Hdone), <- sum_plus.
  apply sum_mono. intros sid Hsid%elem_of_seq. destruct (inv_texts _ _ _ _ _ sid Hi) as (later & H1 & H2 & _); [lia|].
  assert (Hs : sum_list_with (fun e => length e.2.2) (said_on sid s) = sum_list_with (fun t => length t.2) (map text_of (said_on sid s))).
  { clear. induction (said_on sid s) as [|x l IH]; simpl; [done|]. by rewrite IH. }
  rewrite Hs, H1, sum_list_with_app. apply Nat.add_le_mono.
  - unfold texts_of. pose proof (oi_done _ _ _ _ _ _ Hi) as Hd. clear -Hd. induction done as [|e l IH]; [done|].
    apply Forall_cons in Hd as [(_ & _ & _ & W) Hd]. rewrite filter_cons. case_decide; simpl; [|auto]. specialize (IH Hd).
    pose proof (frags_few _ W). lia.
  - unfold frags_on. destruct cur as [e|]; [|simpl; lia]. case_decide as E; [|simpl; lia]. destruct (H2 e eq_refl E) as (rest & more & ->).
    destruct (oi_cur _ _ _ _ _ _ Hi e eq_refl) as [(_ & _ & _ & W) _]. pose proof (frags_few _ W). simpl. rewrite length_app. lia.
Qed.

Lemma wheel_shrinks s s' : serving (os_sched s) -> serving (os_sched s') -> idle_step s s' ->
  wheel (os_sched s') ⊆ wheel (os_sched s).
Proof.
  intros [_ H1] [_ H2] (_ & _ & Hq & _) x Hx. apply H1. apply H2 in Hx. destruct (outqueue x s) eqn:E.
  - specialize (Hq x E). change (TAILQ_EMPTY (outqueue x s') = false) in Hx. by rewrite Hq in Hx.
  - change (TAILQ_EMPTY (outqueue x s) = false). by rewrite E.
Qed.

(** What is left to do: bytes that are not in chunks yet, and streams with messages. *)
Definition left_over (s : out_state) : nat := (said_bytes s - length (os_log s) + length (wheel (os_sched s)))%nat.

Lemma left_over_falls s s' x : serving (os_sched s) -> serving (os_sched s') -> idle_step s s' -> outqueue x s <> [] ->
  (length (os_log s') <= said_bytes s')%nat ->
  os_log s' = os_log s /\ outqueue x s' = [] \/ length (os_log s') = S (length (os_log s)) -> (left_over s' < left_over s)%nat.
Proof.
  intros Hs Hs' Hid Hx Hb Hc. pose proof (wheel_shrinks _ _ Hs Hs' Hid) as Hsub. unfold left_over.
  assert (Es : said_bytes s' = said_bytes s) by (unfold said_bytes; by destruct Hid as (-> & _)). rewrite Es in *.
  destruct Hs as [[Hnd _] Hm], Hs' as [[Hnd' _] Hm'].
  destruct Hc as [[-> Hempty]|Hc].
  - assert (Hin : x ∈ wheel (os_sched s)) by (apply Hm; change (TAILQ_EMPTY (outqueue x s) = false); by destruct (outqueue x s)).
    assert (Hout : x ∉ wheel (os_sched s')) by (intros H; apply Hm' in H; change (TAILQ_EMPTY (outqueue x s') = false) in H; by rewrite Hempty in H).
    assert (Hlen : (length (x :: wheel (os_sched s')) <= length (wheel (os_sched s)))%nat).
    { apply submseteq_length, NoDup_submseteq; [by constructor|]. intros y Hy. apply elem_of_cons in Hy as [-> | Hy]; auto. }
    simpl in Hlen. lia.
  - assert (Hlen : (length (wheel (os_sched s')) <= length (wheel (os_sched s)))%nat) by (by apply submseteq_length, NoDup_submseteq).
    lia.
Qed.

Lemma any_path_kept env s s' : idle_step s s' -> any_path env s -> any_path env s'.
Proof.
  intros (_ & _ & _ & Hn) [H|H]; [by left|]. right. intros q p' Hp. destruct (Hn q p' Hp) as (p & Hp' & ->). eauto.
Qed.

Lemma not_rejected env net s strq : any_path env s -> rejected (os_sched s) (oe_cmt_on_off env) (Some net) strq = false.
Proof.
  intros H. unfold rejected. destruct strq as [x|]; [|done]. destruct H as [H|H]; [by rewrite (proj2 (Z.eqb_neq _ _) H)|].
  apply andb_false_intro2. unfold bound_elsewhere. destruct (TAILQ_FIRST _) as [q|]; [|done]. unfold sp_of.
  destruct (pendings (os_sched s) !! q) as [p|] eqn:E; [|done]. simpl. by rewrite (H q p E).
Qed.

(** The selection returns a stream with messages. *)
Lemma select_total env net done cur s : good_env env -> out_inv n tsn None done cur s -> held cur s -> any_path env s ->
  exists r, select env net s = Some r /\ forall x, r = Some x -> outqueue x s <> [].
Proof.
  intros [Hm _] Hi [_ H2] Hp. assert (E : sctp_ss_select_stream (ss env) = sctp_ss_default_select).
  { unfold ss. destruct (oe_module env); done || discriminate Hm. }
  unfold select. rewrite E. unfold sctp_ss_default_select. destruct (locked_on_sending (os_sched s)) as [y|] eqn:El.
  - eexists. split; [done|]. intros x [= <-]. by apply H2.
  - cbn [default_again]. rewrite not_rejected by done. eexists. split; [done|]. intros x Hx%wheel_next_member.
    apply (oi_serving _ _ _ _ _ _ Hi) in Hx. change (TAILQ_EMPTY (outqueue x s) = false) in Hx. intros Hq. by rewrite Hq in Hx.
Qed.

Lemma fill_loop_total fuel env net ats k space_left frag_point strq done cur s :
  good_env env -> good_point env frag_point -> silent ats -> out_inv n tsn None done cur s -> held cur s -> any_path env s ->
  os_behaved s = true -> (forall x, strq = Some x -> outqueue x s <> [] /\ at_work x cur) -> (left_over s < fuel)%nat ->
  exists r, fill_loop fuel env net ats k space_left frag_point false strq s = Some r.
Proof.
  intros He Hp Ha. revert k space_left strq done cur s. induction fuel as [|fuel IH]; intros k space_left strq dn cur s Hi Hh Hpath Hb Hx Hf; [lia|].
  simpl. destruct strq as [x|]; [|by eexists]. destruct (Z.leb_spec space_left 0) as [|Hsp]; [by eexists|].
  destruct (Ha k) as (A1 & A2 & A3 & A4). rewrite A1. cbn [run_ops mbind option_bind]. destruct (Hx x eq_refl) as [Hxq Hxw].
  pose proof (queue_stream n tsn dn cur s x Hi Hxq) as Hxn.
  destruct (move_total env n tsn He dn cur (ats k) x space_left frag_point s) as (m & s2 & Em & Hid & Hcase); [done..|].
  rewrite Em. cbn [mbind option_bind]. set (s3 := on_sched _ s2).
  destruct (mv_giveup m || mv_bail m) eqn:Eg; [by eexists|]. destruct Hcase as [Hbad|Hcase]; [done|].
  assert (Hb2 : os_behaved s2 = true) by (destruct Hid as (_ & -> & _); done).
  destruct (move_ok env n tsn dn cur (ats k) x space_left frag_point s m s2 []) as (dn' & cur' & Hi2 & Hw2); [done..|].
  destruct (scheduled_ok n tsn env dn' cur' s2 x) as [Hi3 Hh3]; [done..|]. fold s3 in Hi3, Hh3.
  assert (E3 : same_outline s2 s3 /\ wheel (os_sched s3) = wheel (os_sched s2)).
  { assert (E : s3 = on_sched (fun a => sctp_ss_default_scheduled a x) s2).
    { unfold s3, ss. destruct He as [Hm _]. destruct (oe_module env); done || discriminate Hm. }
    rewrite E. split; [|done]. split; [|done]. split_and!; [done | done | done |]. by apply nets_same. }
  destruct E3 as [[Hid3 Hl3] Hwh]. pose proof (idle_trans _ _ _ Hid Hid3) as Hid'.
  pose proof (any_path_kept env s s3 Hid' Hpath) as Hpath3.
  destruct (select_total env net dn' cur' s3 He Hi3 Hh3 Hpath3) as (next & Es & Hnext). rewrite Es. cbn [mbind option_bind].
  assert (Hlt : (left_over s3 < left_over s)%nat).
  { apply (left_over_falls s s3 x); [apply (oi_serving _ _ _ _ _ _ Hi) | apply (oi_serving _ _ _ _ _ _ Hi3) | done | done | by eapply log_bound|].
    destruct Hcase as [[H1 H2]|H1]; [left; split; [congruence | by destruct Hid3 as (_ & _ & Hq & _); auto] | right; congruence]. }
  eapply (IH (S k) _ next dn' cur' s3); try done; [|lia].
  intros y ->. split; [by apply Hnext|]. by eapply (select_ok n tsn env net dn' cur' s3 y).
Qed.

(** C6. In every such state [sctp_fill_outqueue] returns, whatever the order in which the
    scheduler serves the streams and wherever copies of data fail, while the application is
    silent and no message is bound to another destination: fuel for a round per byte handed
    over and per stream is enough, although the space that is left can wrap around. *)
Theorem fill_outqueue_returns s env net ats frag_point (Ht : in_u32 tsn) (Hrun : rtc out_step (out_start n tsn) s)
  (Hb : os_behaved s = true) (He : good_env env) (Hp : good_point env frag_point) (Ha : silent ats) (Hpath : any_path env s) :
  exists r, sctp_fill_outqueue (S (said_bytes s + n)) env net ats frag_point false s = Some r.
Proof.
  destruct (out_run_ok n tsn s Ht Hrun Hb) as (done & cur & Hi & Hh). unfold sctp_fill_outqueue.
  rewrite (u32_id frag_point) by (destruct Hp; unfold in_u32; lia).
  destruct (select_total env net done cur s He Hi Hh Hpath) as (strq & Es & Hsel). rewrite Es. cbn [mbind option_bind].
  destruct (fill_loop_total (S (said_bytes s + n)) env net ats 0
    (even_word (u32 (u32 (on_mtu net - on_overhead net) - SCTP_DATA_CHUNK_OVERHEAD s))) frag_point strq done cur s) as [r Hr]; try done.
  - intros x ->. split; [by apply Hsel|]. by eapply (select_ok n tsn env net done cur s x).
  - assert (Hwheel : (length (wheel (os_sched s)) <= n)%nat).
    { destruct (oi_serving _ _ _ _ _ _ Hi) as [[Hnd _] Hm]. rewrite <- (length_seq n 0). apply submseteq_length, NoDup_submseteq; [done|].
      intros x Hx. apply elem_of_seq. apply Hm, nonempty_in_store in Hx. apply (oi_dom _ _ _ _ _ _ Hi) in Hx. lia. }
    unfold left_over. lia.
  - rewrite Hr. cbn [mbind option_bind].
    assert (Hd : exists a, sctp_ss_packet_done (ss env) (S (S (length (wheel (os_sched r.2))))) (oe_cmt_on_off env) (Some (on_id net)) (os_sched r.2) = Some a).
    { unfold ss. destruct He as [Hm _]. destruct (oe_module env); try discriminate Hm; by eexists. }
    destruct Hd as [a ->]. by eexists.
Qed.

End Returns.

(** ** A sender with two streams *)

(** The settings: scheduler, explicit end of records, bytes in flight. *)
Definition ex_sender (m : ss_module) (eeor : bool) (flight : Z) : out_env :=
  OutEnv m 0 8 (Timeval 100 0) None 0 eeor true 262144 flight 20 20 true 5 (fun _ => true).

(** A call with all the bytes, with [max_len] room in the send buffer. *)
Definition ex_say (sid : nat) (bytes : list Z) (max_len : Z) (eor : bool) : user_op :=
  UBegin true (fun _ => true) (SendInfo sid 0 0 7 0 None) bytes None max_len eor.

(** Nothing fails, and the application is silent. *)
Definition ex_quiet : nat -> attempt := fun _ => Attempt [] true (fun _ => true) true true [].

Definition ex_fill (env : out_env) (mtu frag_point : Z) (ats : nat -> attempt) (s : out_state) : option (bool * out_state) :=
  sctp_fill_outqueue 50 env (OutNet 0 mtu 32) ats frag_point (oe_explicit_eor env) s.

Definition ex_oenv : out_env := ex_sender SCTP_SS_DEFAULT false 0.

(** A message of 80 bytes on stream 0, in two parts; between them a packet is built; then
    another message of 50 bytes on stream 1, and a second packet. *)
Definition ex_ops1 : list user_op := [ex_say 0 (repeat 1 80) 74 false].
Definition ex_ops2 : list user_op :=
  [UMore (fun _ => true) 0 (SendInfo 0 0 0 7 0 None) (repeat 2 6) false false; UDone 0 0; ex_say 1 (repeat 3 50) 100000 false; UDone 1 1].

Definition ex_o0 : out_state := out_start 2 100.
Definition ex_o1 : out_state := default ex_o0 (run_ops ex_oenv ex_ops1 ex_o0).
Definition ex_o2 : out_state := match ex_fill ex_oenv 100 20 ex_quiet ex_o1 with Some r => r.2 | None => ex_o1 end.
Definition ex_o3 : out_state := default ex_o2 (run_ops ex_oenv ex_ops2 ex_o2).
Definition ex_o4 : out_state := match ex_fill ex_oenv 100 20 ex_quiet ex_o3 with Some r => r.2 | None => ex_o3 end.

(** TSN, stream, number, flags and length of a chunk. *)
Definition ex_show (c : data_chunk) : Z * Z * Z * Z * Z := (dc_tsn c, dc_sid c, dc_mid c, dc_rcv_flags c, dc_book_size c).

(** The chunks made so far, and those of the second packet. *)
Lemma ex_first_packet : map ex_show (os_log ex_o2) = [(100, 0, 0, 2, 36)].
Proof. by vm_compute. Qed.

Lemma ex_second_packet : map ex_show (drop 1 (os_log ex_o4))
  = [(101, 0, 0, 0, 36); (102, 0, 0, 0, 36); (103, 0, 0, 1, 36); (104, 1, 0, 2, 36); (105, 1, 0, 0, 36); (106, 1, 0, 1, 26)].
Proof. by vm_compute. Qed.

Lemma ex_good_env : good_env ex_oenv.
Proof. split; [done|]. simpl. lia. Qed.

Lemma ex_good_point : good_point ex_oenv 20.
Proof. split; simpl; lia. Qed.

Lemma run_ops_steps env l s s' : good_env env -> run_ops env l s = Some s' -> rtc out_step s s'.
Proof.
  intros He. revert s. induction l as [|o l IH]; intros s; simpl; [intros [= ->]; apply rtc_refl|].
  destruct (run_op env o s) as [s1|] eqn:E; [|done]. cbn [mbind option_bind]. intros H.
  eapply rtc_l; [by eapply UserStep | by apply IH].
Qed.

Lemma ex_fill_steps mtu s r : ex_fill ex_oenv mtu 20 ex_quiet s = Some r -> rtc out_step s r.2.
Proof. intros H. apply rtc_once. eapply FillStep; [apply ex_good_env | apply ex_good_point | | exact H]. done. Qed.

Lemma ex_run_o3 : rtc out_step ex_o0 ex_o3.
Proof.
  transitivity ex_o1; [apply (run_ops_steps _ ex_ops1 _ _ ex_good_env); by vm_compute|].
  transitivity ex_o2; [|apply (run_ops_steps _ ex_ops2 _ _ ex_good_env); by vm_compute].
  unfold ex_o2. destruct (ex_fill _ _ _ _ ex_o1) as [r|] eqn:E; [by eapply ex_fill_steps | apply rtc_refl].
Qed.

Lemma ex_run_o4 : rtc out_step ex_o0 ex_o4.
Proof.
  transitivity ex_o3; [exact ex_run_o3|]. unfold ex_o4.
  destruct (ex_fill _ _ _ _ ex_o3) as [r|] eqn:E; [by eapply ex_fill_steps | apply rtc_refl].
Qed.

Lemma messages_cut_in_order_witness :
  os_behaved ex_o2 = true /\
  exists done cur,
    Forall2 carries (os_log ex_o2) (wire 100 done cur) /\
    Forall (cut_well 2) (done ++ match cur with Some e => [e] | None => [] end) /\
    forall sid, (sid < 2)%nat -> exists later, map text_of (said_on sid ex_o2) = texts_of sid done ++ later /\
      (forall e, cur = Some e -> e.1.1 = sid -> exists rest more, later = (e.1.2, concat e.2 ++ rest) :: more) /\
      (outqueue sid ex_o2 = [] -> later = []).
Proof.
  split; [by vm_compute|]. apply (messages_cut_in_order 2 100 ex_o2).
  - unfold in_u32. lia.
  - transitivity ex_o1; [apply (run_ops_steps _ ex_ops1 _ _ ex_good_env); by vm_compute|].
    unfold ex_o2. destruct (ex_fill _ _ _ _ ex_o1) as [r|] eqn:E; [by eapply ex_fill_steps | apply rtc_refl].
  - by vm_compute.
Defined.

Lemma messages_delivered_end_to_end_witness :
  (outqueue 0 ex_o4 = [] /\ outqueue 1 ex_o4 = []) /\
  map text_of (said_on 0 ex_o4) = [(7, repeat 1 74 ++ repeat 2 6)] /\
  exists msg : nat -> nat -> option message,
    (forall f, fragment_ok msg 2 f -> fr_tsn f < 100 + Z.of_nat (length (os_log ex_o4)) ->
       exists c, os_log ex_o4 !! Z.to_nat (fr_tsn f - 100) = Some c /\ carries c (fr_bytes f)) /\
    (forall k c, os_log ex_o4 !! k = Some c -> exists f, fragment_ok msg 2 f /\ fr_tsn f = 100 + Z.of_nat k /\ carries c (fr_bytes f)) /\
    forall R s', rtc (rx_step msg ex_env1 2) (Received 100 ∅, start (ex_ack 100) 2) (R, s') ->
      (forall t, 100 + Z.of_nat (length (os_log ex_o4)) <= t -> ~ has R t) ->
      forall sid, (sid < 2)%nat -> exists D,
        map (fun d => (dl_ppid d, dl_text d)) (on_stream sid (deliveries (effects s'))) = take D (map text_of (said_on sid ex_o4)) /\
        ((forall t, 100 <= t < 100 + Z.of_nat (length (os_log ex_o4)) -> has R t) -> outqueue sid ex_o4 = [] ->
         D = length (said_on sid ex_o4)).
Proof.
  split; [by vm_compute|]. split; [by vm_compute|]. apply (messages_delivered_end_to_end 2 100 ex_o4 ex_env1 (ex_ack 100)).
  - unfold in_u32. lia.
  - lia.
  - exact ex_run_o4.
  - by vm_compute.
  - exact ex_env1_ok.
  - by vm_compute.
  - apply (bool_decide_unpack _). by vm_compute.
  - left. by vm_compute.
  - done.
  - done.
Defined.

Lemma fill_outqueue_returns_witness :
  said_bytes ex_o3 = 130%nat /\
  exists r, sctp_fill_outqueue 133 ex_oenv (OutNet 0 100 32) ex_quiet 20 false ex_o3 = Some r.
Proof.
  split; [by vm_compute|]. apply (fill_outqueue_returns 2 100 ex_o3 ex_oenv (OutNet 0 100 32) ex_quiet 20).
  - unfold in_u32. lia.
  - exact ex_run_o3.
  - by vm_compute.
  - exact ex_good_env.
  - exact ex_good_point.
  - by intros k.
  - right. intros q p. assert (E : map_Forall (fun _ p => sp_net p = None) (pendings (os_sched ex_o3))) by (apply (bool_decide_eq_true_1 _); by vm_compute).
    apply E.
Defined.

(** The chunks, as they lie in their mbufs, arrive at a receiver in the reverse order. *)
Definition ex_arrive (s : receiver) (c : data_chunk) : receiver :=
  match sctp_process_a_data_chunk ex_env1 (dc_data c) 0 (dc_book_size c) true SCTP_DATA 0 s with
  | Some (_, _, s) => s
  | None => s
  end.

Lemma ex_from_application_to_application :
  map (fun d => (dl_sid d, dl_ppid d, dl_text d)) (deliveries (effects (foldl ex_arrive (start (ex_ack 100) 2) (rev (os_log ex_o4)))))
  = [(1, 7, repeat 3 50); (0, 7, repeat 1 74 ++ repeat 2 6)].
Proof. by vm_compute. Qed.

(** ** Outside the conditions *)

Definition ex_packets (env : out_env) (mtu frag_point : Z) (ats : nat -> attempt) (l : list user_op) : option out_state :=
  s ← run_ops env l (out_start 2 100); r ← ex_fill env mtu frag_point ats s; Some r.2.

(** The message is marked as begun before the chunk is allocated.  When that fails, the
    next attempt makes a first fragment that is not flagged as one. *)
Definition no_chunk_memory : nat -> attempt := fun _ => Attempt [] false (fun _ => true) true true [].

Lemma failed_allocation_loses_first_flag :
  (s ← ex_packets ex_oenv 100 20 no_chunk_memory [ex_say 0 (repeat 1 50) 100000 false; UDone 0 0];
   r ← ex_fill ex_oenv 200 20 ex_quiet s; Some (map ex_show (os_log s), map ex_show (os_log r.2)))
  = Some ([], [(100, 0, 0, 0, 36); (101, 0, 0, 0, 36); (102, 0, 0, 1, 26)]).
Proof. by vm_compute. Qed.

(** A message that is complete is cut at the fragmentation point only.  When that is more
    than the space left, the difference wraps around, and all the rest follows into the
    packet: here 300 bytes in chunks for an MTU of 100. *)
Lemma full_packet_overfilled :
  (s ← ex_packets ex_oenv 100 80 ex_quiet [ex_say 0 (repeat 1 300) 100000 false; UDone 0 0]; Some (map ex_show (os_log s)))
  = Some [(100, 0, 0, 2, 96); (101, 0, 0, 0, 96); (102, 0, 0, 0, 96); (103, 0, 0, 1, 76)].
Proof. by vm_compute. Qed.

(** With explicit end of records the space left, then close to [2^32], is also what a
    fragment may have, and the 16 bits of a chunk's length wrap around. *)
Definition ex_say_part (sid : nat) (bytes : list Z) : user_op := ex_say sid bytes 100000 true.

Lemma long_chunk_length_wraps :
  (s ← ex_packets (ex_sender SCTP_SS_DEFAULT true 0) 100 80 ex_quiet
         [UBegin true (fun _ => true) (SendInfo 0 SCTP_EOR 0 7 0 None) (repeat 1 80) None 100000 true; UDone 0 0;
          ex_say_part 1 (repeat 2 (Z.to_nat 70000))]; Some (map ex_show (os_log s)))
  = Some [(100, 0, 0, 3, 96); (101, 1, 0, 2, 70016 - 65536)].
Proof. by vm_compute. Qed.

(** The priority scheduler does not look at [locked_on_sending]: the fragments of the
    message on stream 0 come between those of the message on stream 1. *)
Lemma priority_interleaves :
  (let env := ex_sender SCTP_SS_PRIORITY false 0 in
   s ← ex_packets env 68 20 ex_quiet [ex_say 1 (repeat 1 80) 74 false];
   s ← run_ops env [UMore (fun _ => true) 0 (SendInfo 1 0 0 7 0 None) (repeat 1 6) false false; UDone 0 1;
                    ex_say 0 (repeat 2 30) 100000 false; UDone 1 0] s;
   r ← ex_fill env 200 20 ex_quiet s; Some (locked_on_sending (os_sched s), map ex_show (os_log r.2)))
  = Some (Some 1%nat, [(100, 1, 0, 2, 36); (101, 0, 0, 2, 36); (102, 1, 0, 0, 36); (103, 0, 0, 1, 26); (104, 1, 0, 0, 36);
                       (105, 1, 0, 1, 36)]).
Proof. by vm_compute. Qed.

(** The milliseconds of a lifetime are multiplied in 32 bits: of 4294.968 seconds 4294.000704
    are left. *)
Lemma lifetime_wraps :
  sp_ts (sctp_set_prsctp_policy (Timeval 0 0)
    (Queued [] None (Timeval 0 0) 0 4294968 0 0 SCTP_PR_SCTP_TTL 0 0 false false false false)) = Timeval 4294 704.
Proof. by vm_compute. Qed.

(** A thread that continues a message looks for the last message of the queue, and keeps the
    pointer; one that another thread has completed meanwhile may have been sent and freed. *)
Lemma continued_message_freed :
  (s ← run_ops ex_oenv [ex_say 0 (repeat 1 80) 74 false; UMore (fun _ => true) 0 (SendInfo 0 0 0 7 0 None) (repeat 1 6) false false;
                        UDone 0 0] (out_start 2 100);
   r ← ex_fill ex_oenv 200 100 ex_quiet s;
   Some (map ex_show (os_log r.2), perform ex_oenv (UMore (fun _ => true) 0 (SendInfo 0 0 0 7 0 None) [1] false false) r.2))
  = Some ([(100, 0, 0, 3, 96)], None).
Proof. by vm_compute. Qed.
