(* ===== verification/CongState.v ===== *)
(** * Congestion control: data

    The state that [sctp_cc_functions.c] and the round-trip estimator of
    [sctputil.c] work on: a destination, the association, the two module-specific
    structures of a destination, and the system-wide settings.  Every field is an
    integer of the C type given in the source; operations reduce what they store.

    A function on a destination returns [None] when the C code would divide by
    zero or read outside the table of high-speed parameters. *)

From S2P Require Import Prelude.
From S2P Require Export Chunk.
Open Scope sctp_scope.

(** [struct htcp]: the state of H-TCP on one path. *)
Record htcp := Htcp {
  alpha : Z;
  beta : Z;
  modeswitch : Z;
  last_cong : Z;
  undo_last_cong : Z;
  bytes_acked : Z;
  bytecount : Z;
  minRTT : Z;
  maxRTT : Z;
  undo_maxRTT : Z;
  undo_old_maxB : Z;
  minB : Z;
  maxB : Z;
  old_maxB : Z;
  Bi : Z;
  lasttime : Z
}.

Definition htcp_eta (r : htcp) : htcp :=
  Htcp (alpha r) (beta r) (modeswitch r) (last_cong r) (undo_last_cong r)
    (bytes_acked r) (bytecount r) (minRTT r) (maxRTT r) (undo_maxRTT r)
    (undo_old_maxB r) (minB r) (maxB r) (old_maxB r) (Bi r) (lasttime r).

#[export] Instance set_alpha : FieldUpdate alpha := ltac:(field_update htcp_eta alpha).
#[export] Instance set_beta : FieldUpdate beta := ltac:(field_update htcp_eta beta).
#[export] Instance set_modeswitch : FieldUpdate modeswitch := ltac:(field_update htcp_eta modeswitch).
#[export] Instance set_last_cong : FieldUpdate last_cong := ltac:(field_update htcp_eta last_cong).
#[export] Instance set_undo_last_cong : FieldUpdate undo_last_cong := ltac:(field_update htcp_eta undo_last_cong).
#[export] Instance set_bytes_acked : FieldUpdate bytes_acked := ltac:(field_update htcp_eta bytes_acked).
#[export] Instance set_bytecount : FieldUpdate bytecount := ltac:(field_update htcp_eta bytecount).
#[export] Instance set_minRTT : FieldUpdate minRTT := ltac:(field_update htcp_eta minRTT).
#[export] Instance set_maxRTT : FieldUpdate maxRTT := ltac:(field_update htcp_eta maxRTT).
#[export] Instance set_undo_maxRTT : FieldUpdate undo_maxRTT := ltac:(field_update htcp_eta undo_maxRTT).
#[export] Instance set_undo_old_maxB : FieldUpdate undo_old_maxB := ltac:(field_update htcp_eta undo_old_maxB).
#[export] Instance set_minB : FieldUpdate minB := ltac:(field_update htcp_eta minB).
#[export] Instance set_maxB : FieldUpdate maxB := ltac:(field_update htcp_eta maxB).
#[export] Instance set_old_maxB : FieldUpdate old_maxB := ltac:(field_update htcp_eta old_maxB).
#[export] Instance set_Bi : FieldUpdate Bi := ltac:(field_update htcp_eta Bi).
#[export] Instance set_lasttime : FieldUpdate lasttime := ltac:(field_update htcp_eta lasttime).

(** [struct rtcc_cc]: the state of the RTT-based module on one path. *)
Record rtcc_cc := Rtcc {
  tls : timeval;
  lbw : Z;
  lbw_rtt : Z;
  bw_bytes : Z;
  bw_tot_time : Z;
  new_tot_time : Z;
  bw_bytes_at_last_rttc : Z;
  cwnd_at_bw_set : Z;
  vol_reduce : Z;
  steady_step : Z;
  step_cnt : Z;
  ret_from_eq : Z;
  use_dccc_ecn : Z;
  tls_needs_set : Z;
  last_step_state : Z;
  rtt_set_this_sack : Z;
  last_inst_ind : Z
}.

Definition rtcc_cc_eta (r : rtcc_cc) : rtcc_cc :=
  Rtcc (tls r) (lbw r) (lbw_rtt r) (bw_bytes r) (bw_tot_time r)
    (new_tot_time r) (bw_bytes_at_last_rttc r) (cwnd_at_bw_set r)
    (vol_reduce r) (steady_step r) (step_cnt r) (ret_from_eq r)
    (use_dccc_ecn r) (tls_needs_set r) (last_step_state r)
    (rtt_set_this_sack r) (last_inst_ind r).

#[export] Instance set_tls : FieldUpdate tls := ltac:(field_update rtcc_cc_eta tls).
#[export] Instance set_lbw : FieldUpdate lbw := ltac:(field_update rtcc_cc_eta lbw).
#[export] Instance set_lbw_rtt : FieldUpdate lbw_rtt := ltac:(field_update rtcc_cc_eta lbw_rtt).
#[export] Instance set_bw_bytes : FieldUpdate bw_bytes := ltac:(field_update rtcc_cc_eta bw_bytes).
#[export] Instance set_bw_tot_time : FieldUpdate bw_tot_time := ltac:(field_update rtcc_cc_eta bw_tot_time).
#[export] Instance set_new_tot_time : FieldUpdate new_tot_time := ltac:(field_update rtcc_cc_eta new_tot_time).
#[export] Instance set_bw_bytes_at_last_rttc : FieldUpdate bw_bytes_at_last_rttc := ltac:(field_update rtcc_cc_eta bw_bytes_at_last_rttc).
#[export] Instance set_cwnd_at_bw_set : FieldUpdate cwnd_at_bw_set := ltac:(field_update rtcc_cc_eta cwnd_at_bw_set).
#[export] Instance set_vol_reduce : FieldUpdate vol_reduce := ltac:(field_update rtcc_cc_eta vol_reduce).
#[export] Instance set_steady_step : FieldUpdate steady_step := ltac:(field_update rtcc_cc_eta steady_step).
#[export] Instance set_step_cnt : FieldUpdate step_cnt := ltac:(field_update rtcc_cc_eta step_cnt).
#[export] Instance set_ret_from_eq : FieldUpdate ret_from_eq := ltac:(field_update rtcc_cc_eta ret_from_eq).
#[export] Instance set_use_dccc_ecn : FieldUpdate use_dccc_ecn := ltac:(field_update rtcc_cc_eta use_dccc_ecn).
#[export] Instance set_tls_needs_set : FieldUpdate tls_needs_set := ltac:(field_update rtcc_cc_eta tls_needs_set).
#[export] Instance set_last_step_state : FieldUpdate last_step_state := ltac:(field_update rtcc_cc_eta last_step_state).
#[export] Instance set_rtt_set_this_sack : FieldUpdate rtt_set_this_sack := ltac:(field_update rtcc_cc_eta rtt_set_this_sack).
#[export] Instance set_last_inst_ind : FieldUpdate last_inst_ind := ltac:(field_update rtcc_cc_eta last_inst_ind).

(** [struct sctp_nets]: a destination of the association, the fields congestion
    control and the round-trip estimator use.  The union [cc_mod] has one field
    per member: a module touches only its own member, and [setopt_pluggable_cc]
    makes the contents of both unspecified when the module changes. *)
Record sctp_nets := Nets {
  mtu : Z;
  ssthresh : Z;
  last_cwr_tsn : Z;
  cwr_window_tsn : Z;
  ecn_ce_pkt_cnt : Z;
  lost_cnt : Z;
  lastsa : Z;
  lastsv : Z;
  rtt : Z;
  RTO : Z;
  htcp_ca : htcp;
  rtcc : rtcc_cc;
  flight_size : Z;
  cwnd : Z;
  prev_cwnd : Z;
  ecn_prev_cwnd : Z;
  partial_bytes_acked : Z;
  net_ack : Z;
  fast_recovery_tsn : Z;
  fast_retran_loss_recovery : Z;
  fast_retran_ip : Z;
  new_pseudo_cumack : Z;
  RTO_measured : Z;
  last_hs_used : Z;
  lan_type : Z
}.

Definition sctp_nets_eta (r : sctp_nets) : sctp_nets :=
  Nets (mtu r) (ssthresh r) (last_cwr_tsn r) (cwr_window_tsn r)
    (ecn_ce_pkt_cnt r) (lost_cnt r) (lastsa r) (lastsv r) (rtt r) (RTO r)
    (htcp_ca r) (rtcc r) (flight_size r) (cwnd r) (prev_cwnd r)
    (ecn_prev_cwnd r) (partial_bytes_acked r) (net_ack r) (fast_recovery_tsn
    r) (fast_retran_loss_recovery r) (fast_retran_ip r) (new_pseudo_cumack
    r) (RTO_measured r) (last_hs_used r) (lan_type r).

#[export] Instance set_mtu : FieldUpdate mtu := ltac:(field_update sctp_nets_eta mtu).
#[export] Instance set_ssthresh : FieldUpdate ssthresh := ltac:(field_update sctp_nets_eta ssthresh).
#[export] Instance set_last_cwr_tsn : FieldUpdate last_cwr_tsn := ltac:(field_update sctp_nets_eta last_cwr_tsn).
#[export] Instance set_cwr_window_tsn : FieldUpdate cwr_window_tsn := ltac:(field_update sctp_nets_eta cwr_window_tsn).
#[export] Instance set_ecn_ce_pkt_cnt : FieldUpdate ecn_ce_pkt_cnt := ltac:(field_update sctp_nets_eta ecn_ce_pkt_cnt).
#[export] Instance set_lost_cnt : FieldUpdate lost_cnt := ltac:(field_update sctp_nets_eta lost_cnt).
#[export] Instance set_lastsa : FieldUpdate lastsa := ltac:(field_update sctp_nets_eta lastsa).
#[export] Instance set_lastsv : FieldUpdate lastsv := ltac:(field_update sctp_nets_eta lastsv).
#[export] Instance set_rtt : FieldUpdate rtt := ltac:(field_update sctp_nets_eta rtt).
#[export] Instance set_RTO : FieldUpdate RTO := ltac:(field_update sctp_nets_eta RTO).
#[export] Instance set_htcp_ca : FieldUpdate htcp_ca := ltac:(field_update sctp_nets_eta htcp_ca).
#[export] Instance set_rtcc : FieldUpdate rtcc := ltac:(field_update sctp_nets_eta rtcc).
#[export] Instance set_flight_size : FieldUpdate flight_size := ltac:(field_update sctp_nets_eta flight_size).
#[export] Instance set_cwnd : FieldUpdate cwnd := ltac:(field_update sctp_nets_eta cwnd).
#[export] Instance set_prev_cwnd : FieldUpdate prev_cwnd := ltac:(field_update sctp_nets_eta prev_cwnd).
#[export] Instance set_ecn_prev_cwnd : FieldUpdate ecn_prev_cwnd := ltac:(field_update sctp_nets_eta ecn_prev_cwnd).
#[export] Instance set_partial_bytes_acked : FieldUpdate partial_bytes_acked := ltac:(field_update sctp_nets_eta partial_bytes_acked).
#[export] Instance set_net_ack : FieldUpdate net_ack := ltac:(field_update sctp_nets_eta net_ack).
#[export] Instance set_fast_recovery_tsn : FieldUpdate fast_recovery_tsn := ltac:(field_update sctp_nets_eta fast_recovery_tsn).
#[export] Instance set_fast_retran_loss_recovery : FieldUpdate fast_retran_loss_recovery := ltac:(field_update sctp_nets_eta fast_retran_loss_recovery).
#[export] Instance set_fast_retran_ip : FieldUpdate fast_retran_ip := ltac:(field_update sctp_nets_eta fast_retran_ip).
#[export] Instance set_new_pseudo_cumack : FieldUpdate new_pseudo_cumack := ltac:(field_update sctp_nets_eta new_pseudo_cumack).
#[export] Instance set_RTO_measured : FieldUpdate RTO_measured := ltac:(field_update sctp_nets_eta RTO_measured).
#[export] Instance set_last_hs_used : FieldUpdate last_hs_used := ltac:(field_update sctp_nets_eta last_hs_used).
#[export] Instance set_lan_type : FieldUpdate lan_type := ltac:(field_update sctp_nets_eta lan_type).

(** A chunk on the sent queue ([struct sctp_tmit_chunk]): [whoTo] is the place of
    its destination in [nets]. *)
Record tmit_chunk := TmitChunk { tsn : Z; whoTo : nat; cwnd_at_send : Z }.

(** [struct sctp_association]: the destinations, the recovery window, the limits and
    the queues (the send queue by the TSNs of its chunks). *)
Record sctp_association := Asoc {
  nets : list sctp_nets;
  congestion_control_module : Z;
  sending_seq : Z;
  send_queue : list Z;
  sent_queue : list tmit_chunk;
  asoc_fast_recovery_tsn : Z;
  asoc_fast_retran_loss_recovery : Z;
  peers_rwnd : Z;
  numnets : Z;
  max_burst : Z;
  max_cwnd : Z;
  sctp_cmt_on_off : Z;
  seen_a_sack_this_pkt : Z;
  use_precise_time : Z;
  minrto : Z;
  maxrto : Z;
  initial_rto : Z;
  sat_network : Z;
  sat_network_lockout : Z;
  sat_t3_loss_recovery : Z;
  total_flight : Z;
  sctp_sws_sender : Z
}.

Definition sctp_association_eta (r : sctp_association) : sctp_association :=
  Asoc (nets r) (congestion_control_module r) (sending_seq r) (send_queue r)
    (sent_queue r) (asoc_fast_recovery_tsn r)
    (asoc_fast_retran_loss_recovery r) (peers_rwnd r) (numnets r) (max_burst
    r) (max_cwnd r) (sctp_cmt_on_off r) (seen_a_sack_this_pkt r)
    (use_precise_time r) (minrto r) (maxrto r) (initial_rto r) (sat_network
    r) (sat_network_lockout r) (sat_t3_loss_recovery r) (total_flight r)
    (sctp_sws_sender r).

#[export] Instance set_nets : FieldUpdate nets := ltac:(field_update sctp_association_eta nets).
#[export] Instance set_congestion_control_module : FieldUpdate congestion_control_module := ltac:(field_update sctp_association_eta congestion_control_module).
#[export] Instance set_sending_seq : FieldUpdate sending_seq := ltac:(field_update sctp_association_eta sending_seq).
#[export] Instance set_send_queue : FieldUpdate send_queue := ltac:(field_update sctp_association_eta send_queue).
#[export] Instance set_sent_queue : FieldUpdate sent_queue := ltac:(field_update sctp_association_eta sent_queue).
#[export] Instance set_asoc_fast_recovery_tsn : FieldUpdate asoc_fast_recovery_tsn := ltac:(field_update sctp_association_eta asoc_fast_recovery_tsn).
#[export] Instance set_asoc_fast_retran_loss_recovery : FieldUpdate asoc_fast_retran_loss_recovery := ltac:(field_update sctp_association_eta asoc_fast_retran_loss_recovery).
#[export] Instance set_peers_rwnd : FieldUpdate peers_rwnd := ltac:(field_update sctp_association_eta peers_rwnd).
#[export] Instance set_numnets : FieldUpdate numnets := ltac:(field_update sctp_association_eta numnets).
#[export] Instance set_max_burst : FieldUpdate max_burst := ltac:(field_update sctp_association_eta max_burst).
#[export] Instance set_max_cwnd : FieldUpdate max_cwnd := ltac:(field_update sctp_association_eta max_cwnd).
#[export] Instance set_sctp_cmt_on_off : FieldUpdate sctp_cmt_on_off := ltac:(field_update sctp_association_eta sctp_cmt_on_off).
#[export] Instance set_seen_a_sack_this_pkt : FieldUpdate seen_a_sack_this_pkt := ltac:(field_update sctp_association_eta seen_a_sack_this_pkt).
#[export] Instance set_use_precise_time : FieldUpdate use_precise_time := ltac:(field_update sctp_association_eta use_precise_time).
#[export] Instance set_minrto : FieldUpdate minrto := ltac:(field_update sctp_association_eta minrto).
#[export] Instance set_maxrto : FieldUpdate maxrto := ltac:(field_update sctp_association_eta maxrto).
#[export] Instance set_initial_rto : FieldUpdate initial_rto := ltac:(field_update sctp_association_eta initial_rto).
#[export] Instance set_sat_network : FieldUpdate sat_network := ltac:(field_update sctp_association_eta sat_network).
#[export] Instance set_sat_network_lockout : FieldUpdate sat_network_lockout := ltac:(field_update sctp_association_eta sat_network_lockout).
#[export] Instance set_sat_t3_loss_recovery : FieldUpdate sat_t3_loss_recovery := ltac:(field_update sctp_association_eta sat_t3_loss_recovery).
#[export] Instance set_total_flight : FieldUpdate total_flight := ltac:(field_update sctp_association_eta total_flight).
#[export] Instance set_sctp_sws_sender : FieldUpdate sctp_sws_sender := ltac:(field_update sctp_association_eta sctp_sws_sender).

(** The system-wide settings ([SCTP_BASE_SYSCTL]). *)
Record sysctl := Sysctl {
  sctp_initial_cwnd : Z;
  sctp_L2_abc_variable : Z;
  sctp_rttvar_bw : Z;
  sctp_rttvar_rtt : Z;
  sctp_rttvar_eqret : Z;
  sctp_steady_step : Z;
  sctp_use_dccc_ecn : Z
}.


(** ** Constants *)

Definition SCTP_CMT_OFF : Z := 0.
Definition SCTP_CMT_BASE : Z := 1.
Definition SCTP_CMT_RPV1 : Z := 2.
Definition SCTP_CMT_RPV2 : Z := 3.
Definition SCTP_CMT_MPTCP : Z := 4.

Definition SCTP_INITIAL_CWND : Z := 4380.
Definition sizeof_sctphdr : Z := 12.
Definition SHIFT_MPTCP_MULTI_N : Z := 40.
Definition SHIFT_MPTCP_MULTI_Z : Z := 16.
Definition SHIFT_MPTCP_MULTI : Z := 8.

Definition SCTP_INST_LOOSING : Z := 1.
Definition SCTP_INST_NEUTRAL : Z := 2.
Definition SCTP_INST_GAINING : Z := 3.

Definition SCTP_LAN_UNKNOWN : Z := 0.
Definition SCTP_LAN_LOCAL : Z := 1.
Definition SCTP_LAN_INTERNET : Z := 2.

Definition SCTP_RTT_SHIFT : Z := 3.
Definition SCTP_RTT_VAR_SHIFT : Z := 2.

Definition ALPHA_BASE : Z := 128.
Definition BETA_MIN : Z := 64.
Definition BETA_MAX : Z := 102.

(** ** Arithmetic *)

(** Unsigned division; the C code does not survive a zero divisor. *)
Definition udiv (a b : Z) : option Z := if b =? 0 then None else Some (a / b).

Lemma udiv_some a b : b <> 0 -> udiv a b = Some (a / b).
Proof. intros. unfold udiv. by destruct (Z.eqb_spec b 0). Qed.

(** C's [min] and [max] macros. *)
Definition cmin (a b : Z) : Z := if b <? a then b else a.
Definition cmax (a b : Z) : Z := if b <? a then a else b.

(** [net->mtu - sizeof(struct sctphdr)]: the size of type [size_t]. *)
Definition mtu_less_header (net : sctp_nets) : Z := u64 (mtu net - sizeof_sctphdr).

(** Comparisons read as in the source. *)
Notation "a >? b" := (Z.ltb b a) (at level 70, no associativity, only parsing) : sctp_scope.
Notation "a >=? b" := (Z.leb b a) (at level 70, no associativity, only parsing) : sctp_scope.

(** [TAILQ_FOREACH] over the destinations, adding up. *)
Definition sum_nets (f : sctp_nets -> Z) (l : list sctp_nets) : Z :=
  fold_left (fun acc net => acc + f net) l 0.

(** One destination of the association, by its place in [nets]. *)
Definition on_net (asoc : sctp_association) (i : nat)
  (f : sctp_nets -> option sctp_nets) : option sctp_association :=
  net ← nets asoc !! i;
  net ← f net;
  Some (asoc <| nets := <[i := net]> (nets asoc) |>).
