(* ===== verification/CongCtl.v ===== *)
(** * Congestion control: the common functions and the RTT-based module

    The first two thirds of [sctp_cc_functions.c]: the initial window, the
    reaction to acknowledgements, fast retransmits, timeouts, ECN marks and
    dropped-packet reports, in the plain variant and in the variants that couple
    the paths of an association (resource pooling and the MPTCP-like one), and the
    functions of the RTT-based module.

    A function on one destination takes and returns the destination; the loops
    over [asoc->nets] are recursive functions on the list of destinations.  Sums
    that the source recomputes in front of a loop are definitions of their own. *)

From S2P Require Import Prelude CongState.
Open Scope sctp_scope.

(** ** The limit and the initial window *)

Definition sctp_enforce_cwnd_limit (asoc : sctp_association) (net : sctp_nets) : sctp_nets :=
  if (max_cwnd asoc >? 0) && (cwnd net >? max_cwnd asoc) && (cwnd net >? mtu_less_header net)
  then
    let net := net <| cwnd := max_cwnd asoc |> in
    if cwnd net <? mtu_less_header net
    then net <| cwnd := u32 (mtu_less_header net) |>
    else net
  else net.

(** The window of a fresh path, shared by two functions of the source. *)
Definition initial_window (sys : sysctl) (asoc : sctp_association) (net : sctp_nets) : Z :=
  let cwnd_in_mtu := sctp_initial_cwnd sys in
  if cwnd_in_mtu =? 0
  then cmin (u32 (mtu net * 4)) (cmax (u32 (2 * mtu net)) SCTP_INITIAL_CWND)
  else
    let cwnd_in_mtu :=
      if (max_burst asoc >? 0) && (cwnd_in_mtu >? max_burst asoc)
      then max_burst asoc else cwnd_in_mtu in
    u32 (u64 (mtu_less_header net * cwnd_in_mtu)).

(** Resource pooling is on. *)
Definition pooling (asoc : sctp_association) : bool :=
  (sctp_cmt_on_off asoc =? SCTP_CMT_RPV1) || (sctp_cmt_on_off asoc =? SCTP_CMT_RPV2).

Definition sctp_set_initial_cc_param (sys : sysctl) (asoc : sctp_association)
  (net : sctp_nets) : option sctp_nets :=
  let net := net <| cwnd := initial_window sys asoc net |> in
  net ← (if pooling asoc then
           c ← udiv (cwnd net) (numnets asoc);
           let net := net <| cwnd := c |> in
           Some (if cwnd net <? mtu_less_header net
                 then net <| cwnd := u32 (mtu_less_header net) |> else net)
         else Some net);
  let net := sctp_enforce_cwnd_limit asoc net in
  Some (net <| ssthresh := peers_rwnd asoc |>).

(** ** Fast retransmit *)

(** The sums over all paths that resource pooling uses here. *)
Definition fr_ucwnd_sbw (l : list sctp_nets) : Z :=
  let t := u64 (sum_nets (fun net => if lastsa net >? 0 then cwnd net / lastsa net else 0) l) in
  if t =? 0 then 1 else t.

(** The new threshold of a path when resource pooling is on. *)
Definition fr_pooled_ssthresh (asoc : sctp_association) (t_ssthresh t_cwnd t_ucwnd_sbw : Z)
  (net : sctp_nets) : option sctp_nets :=
  net ← (if sctp_cmt_on_off asoc =? SCTP_CMT_RPV1 then
           q ← udiv (u64 (u64 (4 * mtu net) * ssthresh net)) t_ssthresh;
           Some (net <| ssthresh := u32 q |>)
         else Some net);
  net ← (if sctp_cmt_on_off asoc =? SCTP_CMT_RPV2 then
           let srtt := u32 (lastsa net) in
           let srtt := if srtt =? 0 then 1 else srtt in
           q ← udiv (u64 (u64 (4 * mtu net) * cwnd net)) (u64 (srtt * t_ucwnd_sbw));
           Some (net <| ssthresh := u32 q |>)
         else Some net);
  let net := if (cwnd net >? t_cwnd / 2) && (ssthresh net <? u32 (cwnd net - t_cwnd / 2))
             then net <| ssthresh := u32 (cwnd net - t_cwnd / 2) |> else net in
  Some (if ssthresh net <? mtu net then net <| ssthresh := mtu net |> else net).

(** The reduction of one path. *)
Definition fr_reduce (asoc : sctp_association) (t_ssthresh t_cwnd t_ucwnd_sbw : Z)
  (net : sctp_nets) : option sctp_nets :=
  net ← (if pooling asoc then fr_pooled_ssthresh asoc t_ssthresh t_cwnd t_ucwnd_sbw net
         else
           let net := net <| ssthresh := cwnd net / 2 |> in
           Some (if ssthresh net <? u32 (mtu net * 2)
                 then net <| ssthresh := u32 (2 * mtu net) |> else net));
  Some (sctp_enforce_cwnd_limit asoc (net <| cwnd := ssthresh net |>)).

(** Opening the recovery window, the part the three modules share: it ends before
    the first chunk still to be sent. *)
Definition fr_recovery_tsn (asoc : sctp_association) : Z :=
  match send_queue asoc with
  | [] => u32 (sending_seq asoc - 1)
  | lchk :: _ => u32 (lchk - 1)
  end.

Definition fr_enter_recovery (asoc : sctp_association) (net : sctp_nets) :
  sctp_association * sctp_nets :=
  (asoc <| asoc_fast_retran_loss_recovery := 1 |>
        <| asoc_fast_recovery_tsn := fr_recovery_tsn asoc |>,
   net <| partial_bytes_acked := 0 |>
       <| fast_retran_loss_recovery := 1 |>
       <| fast_recovery_tsn := fr_recovery_tsn asoc |>).

(** The loop over the destinations, with the module's reduction as argument.  Also
    returns the places of the destinations whose SEND timer is stopped and started
    again. *)
Fixpoint fr_loop (reduce : sctp_nets -> option sctp_nets) (asoc : sctp_association)
  (i : nat) (l : list sctp_nets) : option (sctp_association * list sctp_nets * list nat) :=
  match l with
  | [] => Some (asoc, [], [])
  | net :: rest =>
      '(asoc, net, restarted) ←
        (if ((asoc_fast_retran_loss_recovery asoc =? 0) || (sctp_cmt_on_off asoc >? 0)) &&
            (net_ack net >? 0)
         then
           net ← reduce net;
           let '(asoc, net) := fr_enter_recovery asoc net in
           Some (asoc, net, [i])
         else Some (asoc, net, []));
      '(asoc, rest, more) ← fr_loop reduce asoc (S i) rest;
      Some (asoc, net :: rest, restarted ++ more)
  end.

Definition fr_update (reduce : sctp_nets -> option sctp_nets) (asoc : sctp_association) :
  option (sctp_association * list nat) :=
  '(asoc, l, restarted) ← fr_loop reduce asoc 0 (nets asoc);
  Some (asoc <| nets := l |>, restarted).

Definition sctp_cwnd_update_after_fr (asoc : sctp_association) :
  option (sctp_association * list nat) :=
  let '(t_ssthresh, t_cwnd, t_ucwnd_sbw) :=
    if pooling asoc
    then (u32 (sum_nets ssthresh (nets asoc)), u32 (sum_nets cwnd (nets asoc)),
          fr_ucwnd_sbw (nets asoc))
    else (0, 0, 0) in
  fr_update (fr_reduce asoc t_ssthresh t_cwnd t_ucwnd_sbw) asoc.

(** ** The RTT-based limit on growth *)

(** The assignments to the module's own structure. *)
Definition upd_rtcc (f : rtcc_cc -> rtcc_cc) (net : sctp_nets) : sctp_nets :=
  net <| rtcc := f (rtcc net) |>.

(** A step of a steady state is counted; [true] when it is time to step down. *)
Definition count_step (c : rtcc_cc) : bool * rtcc_cc :=
  let c := c <| step_cnt := if last_step_state c =? 5 then u16 (step_cnt c + 1) else 1 |> in
  let c := c <| last_step_state := 5 |> in
  ((step_cnt c =? steady_step c) ||
   ((step_cnt c >? steady_step c) && (step_cnt c mod steady_step c =? 0)), c).

(** "Try a step down": [true] when the window was reduced. *)
Definition step_down (net : sctp_nets) : bool * sctp_nets :=
  if cwnd net >? u32 (4 * mtu net)
  then (true, upd_rtcc (fun c => c <| vol_reduce := u32 (vol_reduce c + 1) |>)
                (net <| cwnd := u32 (cwnd net - mtu net) |>))
  else (false, upd_rtcc (fun c => c <| step_cnt := 0 |>) net).

(** Remember the bandwidth, the round-trip time and the window they were seen at. *)
Definition lock_bw (nbw : Z) (net : sctp_nets) : sctp_nets :=
  upd_rtcc (fun c => c <| lbw := nbw |> <| lbw_rtt := rtt net |>
                       <| cwnd_at_bw_set := cwnd net |>) net.

Definition cc_bw_same (net : sctp_nets) (nbw rtt_offset inst_ind : Z) : Z * sctp_nets :=
  let c := rtcc net in
  if rtt net >? u64 (lbw_rtt c + rtt_offset) then
    if negb (steady_step c =? 0) && negb (inst_ind =? SCTP_INST_LOOSING) then
      let '(down, c) := count_step c in
      let net := net <| rtcc := c |> in
      (1, if down then (step_down net).2 else net)
    else (1, net)
  else if rtt net <? u64 (lbw_rtt c - rtt_offset) then
    let settle net :=
      (if (inst_ind =? SCTP_INST_GAINING) || (inst_ind =? SCTP_INST_NEUTRAL) then 1 else 0,
       lock_bw nbw net) in
    if negb (steady_step c =? 0) then
      if (last_step_state c =? 5) && (step_cnt c >? steady_step c)
      then (1, net <| rtcc := c <| step_cnt := 0 |> |>)
      else settle (net <| rtcc := c <| last_step_state := 6 |> <| step_cnt := 0 |> |>)
    else settle net
  else
    let '(done, net) :=
      if negb (steady_step c =? 0) && negb (inst_ind =? SCTP_INST_LOOSING) then
        let '(down, c) := count_step c in
        let net := net <| rtcc := c |> in
        if down then step_down net else (false, net)
      else (false, net) in
    if done then (1, net)
    else if (inst_ind =? SCTP_INST_GAINING) || (inst_ind =? SCTP_INST_NEUTRAL) then (1, net)
    else (ret_from_eq (rtcc net), net).

(** "Did we voluntarily give up some? if so take one back", and the step state. *)
Definition take_back (asoc : sctp_association) (net : sctp_nets) (inst_ind state : Z) : sctp_nets :=
  if steady_step (rtcc net) =? 0 then net
  else
    let net :=
      if negb (vol_reduce (rtcc net) =? 0) && negb (inst_ind =? SCTP_INST_GAINING) then
        let net := sctp_enforce_cwnd_limit asoc (net <| cwnd := u32 (cwnd net + mtu net) |>) in
        upd_rtcc (fun c => c <| vol_reduce := u32 (vol_reduce c - 1) |>) net
      else net in
    upd_rtcc (fun c => c <| last_step_state := state |> <| step_cnt := 0 |>) net.

Definition cc_bw_decrease (asoc : sctp_association) (net : sctp_nets)
  (nbw rtt_offset inst_ind : Z) : Z * sctp_nets :=
  let out_decision net :=
    (if inst_ind =? SCTP_INST_GAINING then 1 else 0, lock_bw nbw net) in
  if rtt net >? u64 (lbw_rtt (rtcc net) + rtt_offset) then
    if (cwnd net >? cwnd_at_bw_set (rtcc net)) && negb (inst_ind =? SCTP_INST_LOOSING) then
      (1, if negb (ret_from_eq (rtcc net) =? 0)
          then net <| ssthresh := u32 (cwnd net - 1) |> <| partial_bytes_acked := 0 |>
          else net)
    else out_decision (take_back asoc net inst_ind 2)
  else if rtt net <? u64 (lbw_rtt (rtcc net) - rtt_offset)
  then out_decision (take_back asoc net inst_ind 3)
  else out_decision (take_back asoc net inst_ind 4).

Definition cc_bw_increase (net : sctp_nets) (nbw : Z) : Z * sctp_nets :=
  let net := if steady_step (rtcc net) =? 0 then net
             else upd_rtcc (fun c => c <| last_step_state := 0 |> <| step_cnt := 0 |>
                                       <| vol_reduce := 0 |>) net in
  (0, lock_bw nbw net).

(** The instantaneous indication of [cc_bw_limit]. *)
Definition inst_indication (sys : sysctl) (net : sctp_nets) (nbw : Z) : Z * sctp_nets :=
  let c := rtcc net in
  if rtt_set_this_sack c =? 0 then (last_inst_ind c, net)
  else
    let bytes_for_this_rtt := u64 (bw_bytes c - bw_bytes_at_last_rttc c) in
    let net := upd_rtcc (fun c => c <| rtt_set_this_sack := 0 |>
                                    <| bw_bytes_at_last_rttc := bw_bytes c |>) net in
    let div := rtt net / 1000 in
    if rtt net =? 0 then (last_inst_ind c, net)
    else if div =? 0 then (last_inst_ind c, net)
    else
      let inst_bw := bytes_for_this_rtt / div in
      let inst_off := Z.shiftr inst_bw (sctp_rttvar_bw sys) in
      (if inst_bw >? nbw then SCTP_INST_GAINING
       else if u64 (inst_bw + inst_off) <? nbw then SCTP_INST_LOOSING
       else SCTP_INST_NEUTRAL, net).

Definition cc_bw_limit (sys : sysctl) (asoc : sctp_association) (net : sctp_nets) (nbw : Z) :
  Z * sctp_nets :=
  let '(inst_ind, net) := inst_indication sys net nbw in
  let bw_offset := Z.shiftr (lbw (rtcc net)) (sctp_rttvar_bw sys) in
  let '(ret, net) :=
    if nbw >? u64 (lbw (rtcc net) + bw_offset) then cc_bw_increase net nbw
    else
      let rtt_offset := Z.shiftr (lbw_rtt (rtcc net)) (sctp_rttvar_rtt sys) in
      if nbw <? u64 (lbw (rtcc net) - bw_offset)
      then cc_bw_decrease asoc net nbw rtt_offset inst_ind
      else cc_bw_same net nbw rtt_offset inst_ind in
  (ret, upd_rtcc (fun c => c <| last_inst_ind := inst_ind |>) net).

(** ** Acknowledgements *)

(** The sums over all paths, computed when the paths are coupled. *)
Record sack_totals := SackTotals {
  t_ssthresh : Z;
  t_ucwnd_sbw : Z;
  mptcp_like_alpha : Z
}.

(** The loop that computes them: the sum of thresholds, of windows per round-trip
    time, of windows in packets per round-trip time, and the best path. *)
Fixpoint sack_sums (l : list sctp_nets) (t_ssthresh t_ucwnd_sbw t_path_mptcp max_path : Z) :
  option (Z * Z * Z * Z) :=
  match l with
  | [] => Some (t_ssthresh, t_ucwnd_sbw, t_path_mptcp, max_path)
  | net :: rest =>
      let t_ssthresh := u32 (t_ssthresh + ssthresh net) in
      let srtt := u32 (lastsa net) in
      if srtt >? 0 then
        let t_ucwnd_sbw := u64 (t_ucwnd_sbw + cwnd net / srtt) in
        p ← udiv (u64 (Z.shiftl (cwnd net) SHIFT_MPTCP_MULTI_Z)) (u64 (mtu net * srtt));
        let t_path_mptcp := u64 (t_path_mptcp + p) in
        tmp ← udiv (u64 (Z.shiftl (cwnd net) SHIFT_MPTCP_MULTI_N))
                   (u64 (mtu net * u32 (srtt * srtt)));
        sack_sums rest t_ssthresh t_ucwnd_sbw t_path_mptcp
          (if tmp >? max_path then tmp else max_path)
      else sack_sums rest t_ssthresh t_ucwnd_sbw t_path_mptcp max_path
  end.

Definition sack_prepare (asoc : sctp_association) : option sack_totals :=
  '(t_ss, t_sbw, alpha) ←
    (if pooling asoc || (sctp_cmt_on_off asoc =? SCTP_CMT_MPTCP) then
       '(t_ss, t_sbw, t_path_mptcp, max_path) ← sack_sums (nets asoc) 0 0 0 0;
       alpha ← (if t_path_mptcp >? 0
                then udiv max_path (u64 (t_path_mptcp * t_path_mptcp)) else Some 1);
       Some (t_ss, t_sbw, alpha)
     else Some (0, 0, 1));
  Some (SackTotals (if t_ss =? 0 then 1 else t_ss) (if t_sbw =? 0 then 1 else t_sbw) alpha).

(** The increase of the window in slow start. *)
Definition slow_start_incr (sys : sysctl) (asoc : sctp_association) (t : sack_totals)
  (net : sctp_nets) : option Z :=
  let abc := sctp_L2_abc_variable sys in
  let cmt := sctp_cmt_on_off asoc in
  if cmt =? SCTP_CMT_RPV1 then
    limit ← udiv (u64 (u64 (mtu net * abc) * ssthresh net)) (t_ssthresh t);
    incr ← udiv (u64 (net_ack net * ssthresh net)) (t_ssthresh t);
    let incr := if u32 incr >? u32 limit then u32 limit else u32 incr in
    Some (if incr =? 0 then 1 else incr)
  else if cmt =? SCTP_CMT_RPV2 then
    let srtt := u32 (lastsa net) in
    let srtt := if srtt =? 0 then 1 else srtt in
    limit ← udiv (u64 (u64 (mtu net * abc) * cwnd net)) (u64 (srtt * t_ucwnd_sbw t));
    incr ← udiv (u64 (net_ack net * cwnd net)) (u64 (srtt * t_ucwnd_sbw t));
    let incr := if u32 incr >? u32 limit then u32 limit else u32 incr in
    Some (if incr =? 0 then 1 else incr)
  else if cmt =? SCTP_CMT_MPTCP then
    let limit := u32 (Z.shiftr (u64 (u64 (mtu net * mptcp_like_alpha t) * abc)) SHIFT_MPTCP_MULTI) in
    let incr := u32 (Z.shiftr (u64 (net_ack net * mptcp_like_alpha t)) SHIFT_MPTCP_MULTI) in
    let incr := if incr >? limit then limit else incr in
    let incr := if incr >? net_ack net then net_ack net else incr in
    Some (if incr >? mtu net then mtu net else incr)
  else
    let incr := net_ack net in
    Some (if incr >? u32 (mtu net * abc) then u32 (mtu net * abc) else incr).

(** The increase of the window in congestion avoidance. *)
Definition avoidance_incr (asoc : sctp_association) (t : sack_totals) (net : sctp_nets) :
  option Z :=
  let cmt := sctp_cmt_on_off asoc in
  if cmt =? SCTP_CMT_RPV1 then
    incr ← udiv (u64 (mtu net * ssthresh net)) (t_ssthresh t);
    Some (if u32 incr =? 0 then 1 else u32 incr)
  else if cmt =? SCTP_CMT_RPV2 then
    let srtt := u32 (lastsa net) in
    let srtt := if srtt =? 0 then 1 else srtt in
    incr ← udiv (u64 (mtu net * cwnd net)) (u64 (srtt * t_ucwnd_sbw t));
    Some (if u32 incr =? 0 then 1 else u32 incr)
  else if cmt =? SCTP_CMT_MPTCP then
    let incr := u32 (Z.shiftr (u64 (mptcp_like_alpha t * cwnd net)) SHIFT_MPTCP_MULTI) in
    Some (if incr >? mtu net then mtu net else incr)
  else Some (mtu net).

(** The window of a path on which something was acknowledged is full. *)
Definition window_full (net : sctp_nets) : bool :=
  u32 (flight_size net + net_ack net) >=? cwnd net.

(** The update of the window when the cumulative acknowledgement moved. *)
Definition sack_grow (sys : sysctl) (asoc : sctp_association) (t : sack_totals)
  (net : sctp_nets) : option sctp_nets :=
  if cwnd net <=? ssthresh net then
    if window_full net then
      incr ← slow_start_incr sys asoc t net;
      Some (sctp_enforce_cwnd_limit asoc (net <| cwnd := u32 (cwnd net + incr) |>))
    else Some net
  else
    let net := net <| partial_bytes_acked := u32 (partial_bytes_acked net + net_ack net) |> in
    if window_full net && (partial_bytes_acked net >=? cwnd net) then
      let net := net <| partial_bytes_acked := u32 (partial_bytes_acked net - cwnd net) |> in
      incr ← avoidance_incr asoc t net;
      Some (sctp_enforce_cwnd_limit asoc (net <| cwnd := u32 (cwnd net + incr) |>))
    else Some net.

(** The bandwidth measurement of the RTT-based module; [true]: hold, no update. *)
Definition sack_measure (sys : sysctl) (asoc : sctp_association) (use_rtcc : bool)
  (net : sctp_nets) : bool * sctp_nets :=
  let c := rtcc net in
  if use_rtcc && (tls_needs_set c >? 0) then
    let nbw := if new_tot_time c / 1000 >? 0 then bw_bytes c / (new_tot_time c / 1000)
               else bw_bytes c in
    if negb (lbw c =? 0) then
      let '(ret, net) := cc_bw_limit sys asoc net nbw in
      (negb (ret =? 0), net)
    else
      let c := c <| lbw := nbw |> <| lbw_rtt := rtt net |> in
      let c := if negb (rtt_set_this_sack c =? 0)
               then c <| rtt_set_this_sack := 0 |> <| bw_bytes_at_last_rttc := bw_bytes c |>
               else c in
      (false, net <| rtcc := c |>)
  else (false, net).

(** The loop over the destinations; in loss recovery it ends at the first one on
    which something was acknowledged. *)
Fixpoint sack_loop (sys : sysctl) (asoc : sctp_association) (accum_moved will_exit : Z)
  (use_rtcc : bool) (t : sack_totals) (l : list sctp_nets) : option (list sctp_nets) :=
  match l with
  | [] => Some []
  | net :: rest =>
      if net_ack net =? 0 then
        rest ← sack_loop sys asoc accum_moved will_exit use_rtcc t rest; Some (net :: rest)
      else if negb (asoc_fast_retran_loss_recovery asoc =? 0) && (will_exit =? 0) &&
              (sctp_cmt_on_off asoc =? 0)
      then Some (net :: rest)
      else
        let '(hold, net) := sack_measure sys asoc use_rtcc net in
        net ← (if hold then Some net
               else if negb (accum_moved =? 0) ||
                       ((sctp_cmt_on_off asoc >? 0) && negb (new_pseudo_cumack net =? 0))
               then sack_grow sys asoc t net
               else Some net);
        rest ← sack_loop sys asoc accum_moved will_exit use_rtcc t rest;
        Some (net :: rest)
  end.

Definition sctp_cwnd_update_after_sack_common (sys : sysctl) (asoc : sctp_association)
  (accum_moved will_exit : Z) (use_rtcc : bool) : option sctp_association :=
  t ← sack_prepare asoc;
  l ← sack_loop sys asoc accum_moved will_exit use_rtcc t (nets asoc);
  Some (asoc <| nets := l |>).

Definition sctp_cwnd_update_after_sack (sys : sysctl) (asoc : sctp_association)
  (accum_moved will_exit : Z) : option sctp_association :=
  sctp_cwnd_update_after_sack_common sys asoc accum_moved will_exit false.

Definition sctp_cwnd_update_rtcc_after_sack (sys : sysctl) (asoc : sctp_association)
  (accum_moved will_exit : Z) : option sctp_association :=
  sctp_cwnd_update_after_sack_common sys asoc accum_moved will_exit true.

(** ** Leaving the potentially-failed state, timeouts *)

Definition sctp_cwnd_update_exit_pf_common (net : sctp_nets) : sctp_nets :=
  net <| cwnd := mtu net |>.

(** The sum of windows per round-trip time of this function. *)
Definition to_ucwnd_sbw (l : list sctp_nets) : Z :=
  let t := u64 (sum_nets (fun net => let srtt := u32 (lastsa net) in
                                     if srtt >? 0 then cwnd net / srtt else 0) l) in
  if t <? 1 then 1 else t.

(** The new threshold of a path when resource pooling is on. *)
Definition to_pooled_ssthresh (asoc : sctp_association) (net : sctp_nets) : option sctp_nets :=
  let t_ssthresh := u32 (sum_nets ssthresh (nets asoc)) in
  let t_cwnd := u32 (sum_nets cwnd (nets asoc)) in
  let t_ucwnd_sbw := to_ucwnd_sbw (nets asoc) in
  let t_ssthresh := if t_ssthresh <? 1 then 1 else t_ssthresh in
  net ← (if sctp_cmt_on_off asoc =? SCTP_CMT_RPV1 then
           q ← udiv (u64 (u64 (4 * mtu net) * ssthresh net)) t_ssthresh;
           Some (net <| ssthresh := u32 q |>)
         else
           let srtt := u32 (lastsa net) in
           let srtt := if srtt =? 0 then 1 else srtt in
           let cc_delta := u64 (t_ucwnd_sbw * srtt) / 2 in
           Some (if cc_delta <? t_cwnd then net <| ssthresh := u32 (t_cwnd - cc_delta) |>
                 else net <| ssthresh := mtu net |>));
  let net := if (cwnd net >? t_cwnd / 2) && (ssthresh net <? u32 (cwnd net - t_cwnd / 2))
             then net <| ssthresh := u32 (cwnd net - t_cwnd / 2) |> else net in
  Some (if ssthresh net <? mtu net then net <| ssthresh := mtu net |> else net).

Definition sctp_cwnd_update_after_timeout (asoc : sctp_association) (net : sctp_nets) :
  option sctp_nets :=
  net ← (if pooling asoc then to_pooled_ssthresh asoc net
         else Some (net <| ssthresh := cmax (cwnd net / 2) (u32 (4 * mtu net)) |>));
  Some (net <| cwnd := mtu net |> <| partial_bytes_acked := 0 |>).

(** ** ECN marks, dropped-packet reports, bursts *)

Definition sctp_cwnd_update_after_ecn_echo_common (net : sctp_nets)
  (in_window num_pkt_lost : Z) (use_rtcc : bool) : sctp_nets :=
  if use_rtcc && (lan_type net =? SCTP_LAN_LOCAL) && negb (use_dccc_ecn (rtcc net) =? 0) then
    if in_window =? 0 then
      let net := if ecn_prev_cwnd net <? cwnd net
                 then net <| cwnd := u32 (ecn_prev_cwnd net - u32 (mtu net * num_pkt_lost)) |>
                 else net <| cwnd := cwnd net / 2 |> in
      net <| ssthresh := u32 (cwnd net - u32 (num_pkt_lost * mtu net)) |>
    else
      net <| ssthresh := u32 (ssthresh net - u32 (mtu net * num_pkt_lost)) |>
          <| cwnd := u32 (cwnd net - u32 (mtu net * num_pkt_lost)) |>
  else if in_window =? 0 then
    let net := net <| ssthresh := cwnd net / 2 |> in
    let net := if ssthresh net <? mtu net
               then net <| ssthresh := mtu net |> <| RTO := u32 (Z.shiftl (RTO net) 1) |>
               else net in
    net <| cwnd := ssthresh net |>
  else net.

Definition sctp_cwnd_update_after_ecn_echo (net : sctp_nets) (in_window num_pkt_lost : Z) :
  sctp_nets :=
  sctp_cwnd_update_after_ecn_echo_common net in_window num_pkt_lost false.

Definition sctp_cwnd_update_rtcc_after_ecn_echo (net : sctp_nets) (in_window num_pkt_lost : Z) :
  sctp_nets :=
  sctp_cwnd_update_after_ecn_echo_common net in_window num_pkt_lost true.

(** What the report says is available on the path, at most the bandwidth itself. *)
Definition bandwidth_available (net : sctp_nets) (bottle_bw : Z) : Z :=
  let bw_avail := u32 (u64 (bottle_bw * rtt net) / 1000000) in
  if bw_avail >? bottle_bw then bottle_bw else bw_avail.

(** How much of the overload is ours, less what was already taken back. *)
Definition drop_portion (net : sctp_nets) (on_queue incr : Z) : option Z :=
  seg_inflight ← udiv (flight_size net) (mtu net);
  seg_onqueue ← udiv on_queue (mtu net);
  portion ← udiv (u32 (incr * u32 (i32 seg_inflight))) (u32 (i32 seg_onqueue));
  let my_portion := i32 portion in
  Some (if cwnd net >? flight_size net then
          let diff_adj := i32 (u32 (cwnd net - flight_size net)) in
          if diff_adj >? my_portion then 0 else i32 (my_portion - diff_adj)
        else my_portion).

(** The branch "no room for anything else". *)
Definition drop_overload (asoc : sctp_association) (net : sctp_nets) (on_queue bw_avail : Z) :
  option sctp_nets :=
  let net := net <| partial_bytes_acked := 0 |> in
  let incr := u32 (on_queue - bw_avail) in
  let net := if negb (seen_a_sack_this_pkt asoc =? 0)
             then net <| cwnd := prev_cwnd net |> else net in
  my_portion ← drop_portion net on_queue incr;
  let net := net <| cwnd := u32 (cwnd net - my_portion) |> in
  let net := if cwnd net <=? mtu net then net <| cwnd := mtu net |> else net in
  Some (net <| ssthresh := u32 (cwnd net - 1) |>).

(** [bottle_bw] and [current_onq] are the fields of the chunk in host order; the
    values left in the caller's variables are returned first. *)
Definition sctp_cwnd_update_after_packet_dropped (asoc : sctp_association) (net : sctp_nets)
  (bottle_bw current_onq : Z) : option (Z * Z * sctp_nets) :=
  let on_queue := if current_onq <? flight_size net then flight_size net else current_onq in
  let bw_avail := bandwidth_available net bottle_bw in
  net ← (if on_queue >? bw_avail then drop_overload asoc net on_queue bw_avail
         else
           let incr := Z.shiftr (u32 (bw_avail - on_queue)) 2 in
           let incr := if (max_burst asoc >? 0) && (u32 (max_burst asoc * mtu net) <? incr)
                       then u32 (max_burst asoc * mtu net) else incr in
           Some (net <| cwnd := u32 (cwnd net + incr) |>));
  let net := if cwnd net >? bw_avail then net <| cwnd := bw_avail |> else net in
  let net := if cwnd net <? mtu net then net <| cwnd := mtu net |> else net in
  Some (bottle_bw, on_queue, sctp_enforce_cwnd_limit asoc net).

Definition sctp_cwnd_update_after_output (asoc : sctp_association) (net : sctp_nets)
  (burst_limit : Z) : sctp_nets :=
  let net := if ssthresh net <? cwnd net then net <| ssthresh := cwnd net |> else net in
  if negb (burst_limit =? 0)
  then sctp_enforce_cwnd_limit asoc
         (net <| cwnd := u32 (flight_size net + u32 (burst_limit * mtu net)) |>)
  else net.

(** ** The functions of the RTT-based module *)

Definition sctp_cwnd_update_rtcc_tsn_acknowledged (net : sctp_nets) (send_size : Z) : sctp_nets :=
  upd_rtcc (fun c => c <| bw_bytes := u64 (bw_bytes c + send_size) |>) net.

(** [timevalsub]. *)
Definition timevalsub (t1 t2 : timeval) : timeval :=
  let sec := tv_sec t1 - tv_sec t2 in
  let usec := tv_usec t1 - tv_usec t2 in
  if usec <? 0 then Timeval (sec - 1) (usec + 1000000) else Timeval sec usec.

Definition sctp_cwnd_prepare_rtcc_net_for_sack (now : timeval) (net : sctp_nets) : sctp_nets :=
  if tls_needs_set (rtcc net) >? 0 then
    let ltls := timevalsub now (tls (rtcc net)) in
    upd_rtcc (fun c => c <| new_tot_time := u64 (tv_sec ltls * 1000000 + tv_usec ltls) |>) net
  else net.

(** "Clear the old bw.. we went to 0 in-flight". *)
Definition forget_bandwidth (c : rtcc_cc) : rtcc_cc :=
  let c := c <| lbw_rtt := 0 |> <| cwnd_at_bw_set := 0 |> <| lbw := 0 |>
             <| bw_bytes_at_last_rttc := 0 |> <| vol_reduce := 0 |> <| bw_tot_time := 0 |>
             <| bw_bytes := 0 |> <| tls_needs_set := 0 |> in
  if steady_step c =? 0 then c
  else c <| vol_reduce := 0 |> <| step_cnt := 0 |> <| last_step_state := 0 |>.

Definition sctp_cwnd_new_rtcc_transmission_begins (sys : sysctl) (asoc : sctp_association)
  (net : sctp_nets) : sctp_nets :=
  if lbw (rtcc net) =? 0 then net
  else
    let net := upd_rtcc forget_bandwidth net in
    if ret_from_eq (rtcc net) =? 0 then net
    else
      let w := initial_window sys asoc net in
      if cwnd net >? w then net <| cwnd := w |> else net.

Definition sctp_set_rtcc_initial_cc_param (sys : sysctl) (asoc : sctp_association)
  (net : sctp_nets) : option (sctp_association * sctp_nets) :=
  net ← sctp_set_initial_cc_param sys asoc net;
  Some (asoc <| use_precise_time := 1 |>,
        upd_rtcc (fun c =>
          c <| lbw_rtt := 0 |> <| cwnd_at_bw_set := 0 |> <| vol_reduce := 0 |> <| lbw := 0 |>
            <| bw_bytes_at_last_rttc := 0 |> <| bw_tot_time := 0 |> <| bw_bytes := 0 |>
            <| tls_needs_set := 0 |>
            <| ret_from_eq := u8 (sctp_rttvar_eqret sys) |>
            <| steady_step := u16 (sctp_steady_step sys) |>
            <| use_dccc_ecn := u8 (sctp_use_dccc_ecn sys) |>
            <| step_cnt := 0 |> <| last_step_state := 0 |>) net).

Definition SCTP_CC_OPT_RTCC_SETMODE : Z := 0x2000.
Definition SCTP_CC_OPT_USE_DCCC_ECN : Z := 0x2001.
Definition SCTP_CC_OPT_STEADY_STEP : Z := 0x2002.
Definition EFAULT : Z := 14.
Definition EINVAL : Z := 22.

(** The socket option: [(error, association, assoc_value)]. *)
Definition sctp_cwnd_rtcc_socket_option (asoc : sctp_association) (setorget option value : Z) :
  Z * sctp_association * Z :=
  let set_all f := asoc <| nets := map (upd_rtcc f) (nets asoc) |> in
  let get f := match nets asoc with
               | [] => (EFAULT, asoc, value)
               | net :: _ => (0, asoc, f (rtcc net))
               end in
  let flag f := if negb (value =? 0) && negb (value =? 1) then (EINVAL, asoc, value)
                else (0, set_all f, value) in
  if setorget =? 1 then
    if option =? SCTP_CC_OPT_RTCC_SETMODE then flag (fun c => c <| ret_from_eq := value |>)
    else if option =? SCTP_CC_OPT_USE_DCCC_ECN then flag (fun c => c <| use_dccc_ecn := value |>)
    else if option =? SCTP_CC_OPT_STEADY_STEP
    then (0, set_all (fun c => c <| steady_step := u16 value |>), value)
    else (EINVAL, asoc, value)
  else
    if option =? SCTP_CC_OPT_RTCC_SETMODE then get ret_from_eq
    else if option =? SCTP_CC_OPT_USE_DCCC_ECN then get use_dccc_ecn
    else if option =? SCTP_CC_OPT_STEADY_STEP then get steady_step
    else (EINVAL, asoc, value).

Definition sctp_cwnd_update_rtcc_packet_transmitted (now : timeval) (net : sctp_nets) : sctp_nets :=
  if tls_needs_set (rtcc net) =? 0
  then upd_rtcc (fun c => c <| tls := now |> <| tls_needs_set := 2 |>) net else net.

Definition sctp_rtt_rtcc_calculated (net : sctp_nets) : sctp_nets :=
  upd_rtcc (fun c => c <| rtt_set_this_sack := 1 |>) net.
