(* ===== verification/CongMod.v ===== *)
(** * Congestion control: HighSpeed TCP, H-TCP and the table of modules

    The last third of [sctp_cc_functions.c], and the callers of the modules that
    keep state of their own: the round-trip estimator of [sctputil.c], the timer
    backoff of [sctp_timer.c], the ECN-Echo and dropped-packet handlers of
    [sctp_input.c], and the socket option that changes the module.

    The tick count ([sctp_get_tick_count]) is an argument, read once per call of a
    module function; [hz] is 1000, so a tick is a millisecond. *)

From S2P Require Import Prelude Serial CongState CongCtl.
Open Scope sctp_scope.

Definition hz : Z := 1000.

(** ** HighSpeed TCP *)

Record sctp_hs_raise_drop := Hs { hs_cwnd : Z; increase : Z; drop_percent : Z }.

Definition SCTP_HS_TABLE_SIZE : nat := 73.

Definition sctp_cwnd_adjust : list sctp_hs_raise_drop := [
  Hs 38 1 50; Hs 118 2 44; Hs 221 3 41; Hs 347 4 38; Hs 495 5 37; Hs 663 6 35;
  Hs 851 7 34; Hs 1058 8 33; Hs 1284 9 32; Hs 1529 10 31; Hs 1793 11 30;
  Hs 2076 12 29; Hs 2378 13 28; Hs 2699 14 28; Hs 3039 15 27; Hs 3399 16 27;
  Hs 3778 17 26; Hs 4177 18 26; Hs 4596 19 25; Hs 5036 20 25; Hs 5497 21 24;
  Hs 5979 22 24; Hs 6483 23 23; Hs 7009 24 23; Hs 7558 25 22; Hs 8130 26 22;
  Hs 8726 27 22; Hs 9346 28 21; Hs 9991 29 21; Hs 10661 30 21; Hs 11358 31 20;
  Hs 12082 32 20; Hs 12834 33 20; Hs 13614 34 19; Hs 14424 35 19; Hs 15265 36 19;
  Hs 16137 37 19; Hs 17042 38 18; Hs 17981 39 18; Hs 18955 40 18; Hs 19965 41 17;
  Hs 21013 42 17; Hs 22101 43 17; Hs 23230 44 17; Hs 24402 45 16; Hs 25618 46 16;
  Hs 26881 47 16; Hs 28193 48 16; Hs 29557 49 15; Hs 30975 50 15; Hs 32450 51 15;
  Hs 33986 52 15; Hs 35586 53 14; Hs 37253 54 14; Hs 38992 55 14; Hs 40808 56 14;
  Hs 42707 57 13; Hs 44694 58 13; Hs 46776 59 13; Hs 48961 60 13; Hs 51258 61 13;
  Hs 53677 62 12; Hs 56230 63 12; Hs 58932 64 12; Hs 61799 65 12; Hs 64851 66 11;
  Hs 68113 67 11; Hs 71617 68 11; Hs 75401 69 10; Hs 79517 70 10; Hs 84035 71 10;
  Hs 89053 72 10; Hs 94717 73 9].

(** [sctp_cwnd_adjust[0].cwnd]: below it the normal rules apply. *)
Definition hs_floor : Z :=
  match sctp_cwnd_adjust with row :: _ => hs_cwnd row | [] => 0 end.

(** The loop that finds the row, from row [i] on. *)
Fixpoint hs_search (cur_val : Z) (i : nat) (rows : list sctp_hs_raise_drop) : option nat :=
  match rows with
  | [] => None
  | row :: rest => if cur_val <? hs_cwnd row then Some i else hs_search cur_val (S i) rest
  end.

Definition sctp_hs_cwnd_increase (asoc : sctp_association) (net : sctp_nets) :
  option sctp_nets :=
  let cur_val := Z.shiftr (cwnd net) 10 in
  net ← (if cur_val <? hs_floor then
           Some (if net_ack net >? mtu net
                 then net <| cwnd := u32 (cwnd net + mtu net) |>
                 else net <| cwnd := u32 (cwnd net + net_ack net) |>)
         else
           let last := Z.to_nat (last_hs_used net) in
           let indx := default (SCTP_HS_TABLE_SIZE - 1)%nat
                         (hs_search cur_val last (drop last sctp_cwnd_adjust)) in
           let net := net <| last_hs_used := u8 (Z.of_nat indx) |> in
           row ← sctp_cwnd_adjust !! indx;
           Some (net <| cwnd := u32 (cwnd net + Z.shiftl (increase row) 10) |>));
  Some (sctp_enforce_cwnd_limit asoc net).

(** The loop that walks the table back computes a variable nobody reads. *)
Definition sctp_hs_cwnd_decrease (asoc : sctp_association) (net : sctp_nets) :
  option sctp_nets :=
  let cur_val := Z.shiftr (cwnd net) 10 in
  net ← (if cur_val <? hs_floor then
           let net := net <| ssthresh := cwnd net / 2 |> in
           let net := if ssthresh net <? u32 (mtu net * 2)
                      then net <| ssthresh := u32 (2 * mtu net) |> else net in
           Some (net <| cwnd := ssthresh net |>)
         else
           row ← sctp_cwnd_adjust !! Z.to_nat (last_hs_used net);
           let net := net <| ssthresh :=
                        u32 (cwnd net - u32 (cwnd net / 100 * drop_percent row)) |> in
           let net := net <| cwnd := ssthresh net |> in
           let cur_val := Z.shiftr (cwnd net) 10 in
           Some (if cur_val <? hs_floor then net <| last_hs_used := 0 |> else net));
  Some (sctp_enforce_cwnd_limit asoc net).

Definition sctp_hs_cwnd_update_after_fr (asoc : sctp_association) :
  option (sctp_association * list nat) :=
  fr_update (sctp_hs_cwnd_decrease asoc) asoc.

Definition hs_grow (asoc : sctp_association) (net : sctp_nets) : option sctp_nets :=
  if cwnd net <=? ssthresh net then
    if window_full net then sctp_hs_cwnd_increase asoc net else Some net
  else
    let net := net <| partial_bytes_acked := u32 (partial_bytes_acked net + net_ack net) |> in
    if window_full net && (partial_bytes_acked net >=? cwnd net) then
      let net := net <| partial_bytes_acked := u32 (partial_bytes_acked net - cwnd net) |> in
      Some (sctp_enforce_cwnd_limit asoc (net <| cwnd := u32 (cwnd net + mtu net) |>))
    else Some net.

(** The loop of the HighSpeed and the H-TCP module, with the module's growth. *)
Fixpoint mod_sack_loop (grow : sctp_nets -> option sctp_nets) (asoc : sctp_association)
  (accum_moved will_exit : Z) (l : list sctp_nets) : option (list sctp_nets) :=
  match l with
  | [] => Some []
  | net :: rest =>
      if net_ack net =? 0 then
        rest ← mod_sack_loop grow asoc accum_moved will_exit rest; Some (net :: rest)
      else if negb (asoc_fast_retran_loss_recovery asoc =? 0) && (will_exit =? 0) &&
              (sctp_cmt_on_off asoc =? 0)
      then Some (net :: rest)
      else
        net ← (if negb (accum_moved =? 0) ||
                  ((sctp_cmt_on_off asoc >? 0) && negb (new_pseudo_cumack net =? 0))
               then grow net else Some net);
        rest ← mod_sack_loop grow asoc accum_moved will_exit rest;
        Some (net :: rest)
  end.

Definition sctp_hs_cwnd_update_after_sack (asoc : sctp_association) (accum_moved will_exit : Z) :
  option sctp_association :=
  l ← mod_sack_loop (hs_grow asoc) asoc accum_moved will_exit (nets asoc);
  Some (asoc <| nets := l |>).

(** ** H-TCP *)

Definition between (seq1 seq2 seq3 : Z) : bool := u32 (seq3 - seq2) >=? u32 (seq1 - seq2).

Definition htcp_cong_time (ticks : Z) (ca : htcp) : Z := u32 (ticks - last_cong ca).

Definition htcp_ccount (ticks : Z) (ca : htcp) : option Z :=
  udiv (htcp_cong_time ticks ca) (minRTT ca).

Definition htcp_reset (ticks : Z) (ca : htcp) : htcp :=
  ca <| undo_last_cong := last_cong ca |> <| undo_maxRTT := maxRTT ca |>
     <| undo_old_maxB := old_maxB ca |> <| last_cong := u32 ticks |>.

Definition measure_rtt (ticks : Z) (net : sctp_nets) : option sctp_nets :=
  let srtt := u32 (Z.shiftr (lastsa net) SCTP_RTT_SHIFT) in
  let ca := htcp_ca net in
  let ca := if (minRTT ca >? srtt) || (minRTT ca =? 0) then ca <| minRTT := srtt |> else ca in
  if (fast_retran_ip net =? 0) && (ssthresh net <? 0xFFFF) then
    n ← htcp_ccount ticks ca;
    let ca :=
      if n >? 3 then
        let ca := if maxRTT ca <? minRTT ca then ca <| maxRTT := minRTT ca |> else ca in
        if (maxRTT ca <? srtt) && (srtt <=? u32 (maxRTT ca + 20))
        then ca <| maxRTT := srtt |> else ca
      else ca in
    Some (net <| htcp_ca := ca |>)
  else Some (net <| htcp_ca := ca |>).

(** The throughput estimate, when a round trip has passed. *)
Definition update_throughput (ticks : Z) (net : sctp_nets) (ca : htcp) : option htcp :=
  q ← udiv (bytecount ca) (mtu net);
  cur_Bi ← udiv (u32 (q * hz)) (u32 (ticks - lasttime ca));
  n ← htcp_ccount ticks ca;
  let ca :=
    if n <=? 3 then ca <| Bi := cur_Bi |> <| maxB := cur_Bi |> <| minB := cur_Bi |>
    else
      let ca := ca <| Bi := u32 (u32 (3 * Bi ca) + cur_Bi) / 4 |> in
      let ca := if Bi ca >? maxB ca then ca <| maxB := Bi ca |> else ca in
      if minB ca >? maxB ca then ca <| minB := maxB ca |> else ca in
  Some (ca <| bytecount := 0 |> <| lasttime := u32 ticks |>).

Definition measure_achieved_throughput (ticks : Z) (net : sctp_nets) : option sctp_nets :=
  let ca := htcp_ca net in
  let ca := if fast_retran_ip net =? 0 then ca <| bytes_acked := u16 (net_ack net) |> else ca in
  if fast_retran_ip net =? 1
  then Some (net <| htcp_ca := ca <| bytecount := 0 |> <| lasttime := u32 ticks |> |>)
  else
    let ca := ca <| bytecount := u32 (bytecount ca + net_ack net) |> in
    let pkts := if Z.shiftr (alpha ca) 7 =? 0 then 1 else Z.shiftr (alpha ca) 7 in
    ca ← (if (bytecount ca >=? u32 (cwnd net - u32 (pkts * mtu net))) &&
             (u32 (ticks - lasttime ca) >=? minRTT ca) && (minRTT ca >? 0)
          then update_throughput ticks net ca else Some ca);
    Some (net <| htcp_ca := ca |>).

Definition htcp_beta_update (ca : htcp) (minRTT maxRTT : Z) : option htcp :=
  let cur_maxB := maxB ca in
  let prev_maxB := old_maxB ca in
  let ca := ca <| old_maxB := maxB ca |> in
  if negb (between (u32 (5 * cur_maxB)) (u32 (4 * prev_maxB)) (u32 (6 * prev_maxB)))
  then Some (ca <| beta := BETA_MIN |> <| modeswitch := 0 |>)
  else if negb (modeswitch ca =? 0) && (minRTT >? 10) && negb (maxRTT =? 0) then
    q ← udiv (u32 (Z.shiftl minRTT 7)) maxRTT;
    let ca := ca <| beta := u8 q |> in
    Some (if beta ca <? BETA_MIN then ca <| beta := BETA_MIN |>
          else if beta ca >? BETA_MAX then ca <| beta := BETA_MAX |> else ca)
  else Some (ca <| beta := BETA_MIN |> <| modeswitch := 1 |>).

(** The factor of the increase: it grows with the time since the last congestion. *)
Definition htcp_factor (diff : Z) : Z :=
  if diff >? hz then
    let diff := u32 (diff - hz) in
    u32 (1 + u32 (u32 (10 * diff) + u32 (diff / 2 * (diff / 2)) / hz) / hz)
  else 1.

Definition htcp_alpha_update (ticks : Z) (ca : htcp) : option htcp :=
  let factor := htcp_factor (htcp_cong_time ticks ca) in
  factor ← (if negb (minRTT ca =? 0) then
              scale ← udiv (Z.shiftl hz 3) (u32 (10 * minRTT ca));
              let scale := cmin (cmax scale 4) 80 in
              factor ← udiv (u32 (Z.shiftl factor 3)) scale;
              Some (if factor =? 0 then 1 else factor)
            else Some factor);
  let ca := ca <| alpha := u16 (u32 (u32 (2 * factor) * (128 - beta ca))) |> in
  Some (if alpha ca =? 0 then ca <| alpha := ALPHA_BASE |> else ca).

Definition htcp_param_update (ticks : Z) (net : sctp_nets) : option sctp_nets :=
  let min := minRTT (htcp_ca net) in
  let max := maxRTT (htcp_ca net) in
  ca ← htcp_beta_update (htcp_ca net) min max;
  ca ← htcp_alpha_update ticks ca;
  Some (net <| htcp_ca :=
          if (min >? 0) && (max >? min)
          then ca <| maxRTT := u32 (min + u32 (u32 (max - min) * 95) / 100) |> else ca |>).

Definition htcp_recalc_ssthresh (ticks : Z) (net : sctp_nets) : option (Z * sctp_nets) :=
  net ← htcp_param_update ticks net;
  q ← udiv (cwnd net) (mtu net);
  Some (cmax (u32 (Z.shiftr (u32 (q * beta (htcp_ca net))) 7 * mtu net)) (u32 (2 * mtu net)), net).

Definition htcp_cong_avoid (sys : sysctl) (ticks : Z) (asoc : sctp_association)
  (net : sctp_nets) : option sctp_nets :=
  if cwnd net <=? ssthresh net then
    Some (if window_full net then
            let most := u32 (mtu net * sctp_L2_abc_variable sys) in
            sctp_enforce_cwnd_limit asoc
              (if net_ack net >? most then net <| cwnd := u32 (cwnd net + most) |>
               else net <| cwnd := u32 (cwnd net + net_ack net) |>)
          else net)
  else
    net ← measure_rtt ticks net;
    q ← udiv (partial_bytes_acked net) (mtu net);
    net ← (if u32 (Z.shiftr (u32 (q * alpha (htcp_ca net))) 7 * mtu net) >=? cwnd net then
             let net := net <| cwnd := u32 (cwnd net + mtu net) |>
                            <| partial_bytes_acked := 0 |> in
             let net := sctp_enforce_cwnd_limit asoc net in
             ca ← htcp_alpha_update ticks (htcp_ca net);
             Some (net <| htcp_ca := ca |>)
           else Some (net <| partial_bytes_acked :=
                              u32 (partial_bytes_acked net + net_ack net) |>));
    Some (net <| htcp_ca := (htcp_ca net) <| bytes_acked := u16 (mtu net) |> |>).

Definition htcp_init (ticks : Z) (net : sctp_nets) : sctp_nets :=
  net <| htcp_ca := Htcp ALPHA_BASE BETA_MIN 0 (u32 ticks) 0 (u16 (mtu net)) 0 0 0 0 0 0 0 0 0 0 |>.

Definition sctp_htcp_set_initial_cc_param (ticks : Z) (asoc : sctp_association)
  (net : sctp_nets) : sctp_nets :=
  let net := net <| cwnd := cmin (u32 (mtu net * 4))
                              (cmax (u32 (2 * mtu net)) SCTP_INITIAL_CWND) |>
                 <| ssthresh := peers_rwnd asoc |> in
  htcp_init ticks (sctp_enforce_cwnd_limit asoc net).

Definition htcp_grow (sys : sysctl) (ticks : Z) (asoc : sctp_association) (net : sctp_nets) :
  option sctp_nets :=
  net ← htcp_cong_avoid sys ticks asoc net;
  measure_achieved_throughput ticks net.

Definition sctp_htcp_cwnd_update_after_sack (sys : sysctl) (ticks : Z) (asoc : sctp_association)
  (accum_moved will_exit : Z) : option sctp_association :=
  l ← mod_sack_loop (htcp_grow sys ticks asoc) asoc accum_moved will_exit (nets asoc);
  Some (asoc <| nets := l |>).

(** Reset as if the state changed, and the new threshold: the step that the
    reactions to fast retransmit, timeout and ECN share. *)
Definition htcp_congestion (ticks : Z) (net : sctp_nets) : option sctp_nets :=
  '(ss, net) ← htcp_recalc_ssthresh ticks (net <| htcp_ca := htcp_reset ticks (htcp_ca net) |>);
  Some (net <| ssthresh := ss |>).

Definition htcp_reduce (ticks : Z) (asoc : sctp_association) (net : sctp_nets) :
  option sctp_nets :=
  net ← htcp_congestion ticks net;
  Some (sctp_enforce_cwnd_limit asoc (net <| cwnd := ssthresh net |>)).

Definition sctp_htcp_cwnd_update_after_fr (ticks : Z) (asoc : sctp_association) :
  option (sctp_association * list nat) :=
  fr_update (htcp_reduce ticks asoc) asoc.

Definition sctp_htcp_cwnd_update_after_timeout (ticks : Z) (net : sctp_nets) :
  option sctp_nets :=
  net ← htcp_congestion ticks net;
  Some (net <| cwnd := mtu net |> <| partial_bytes_acked := 0 |>).

Definition sctp_htcp_cwnd_update_after_ecn_echo (ticks : Z) (asoc : sctp_association)
  (net : sctp_nets) (in_window : Z) : option sctp_nets :=
  if in_window =? 0 then
    net ← htcp_congestion ticks net;
    let net := if ssthresh net <? mtu net
               then net <| ssthresh := mtu net |> <| RTO := u32 (Z.shiftl (RTO net) 1) |>
               else net in
    Some (sctp_enforce_cwnd_limit asoc (net <| cwnd := ssthresh net |>))
  else Some net.

(** ** The table of modules *)

Definition SCTP_CC_RFC2581 : Z := 0.
Definition SCTP_CC_HSTCP : Z := 1.
Definition SCTP_CC_HTCP : Z := 2.
Definition SCTP_CC_RTCC : Z := 3.

(** [struct sctp_cc_functions].  Functions that are NULL in some modules are
    options; the dropped-packet and burst functions are the same in all modules. *)
Record cc_functions := CcFunctions {
  cc_set_initial : sctp_association -> sctp_nets -> option (sctp_association * sctp_nets);
  cc_after_sack : sctp_association -> Z -> Z -> option sctp_association;
  cc_exit_pf : sctp_nets -> sctp_nets;
  cc_after_fr : sctp_association -> option (sctp_association * list nat);
  cc_after_timeout : sctp_association -> sctp_nets -> option sctp_nets;
  cc_after_ecn_echo : sctp_association -> sctp_nets -> Z -> Z -> option sctp_nets;
  cc_after_packet_dropped :
    sctp_association -> sctp_nets -> Z -> Z -> option (Z * Z * sctp_nets);
  cc_after_output : sctp_association -> sctp_nets -> Z -> sctp_nets;
  cc_packet_transmitted : option (sctp_nets -> sctp_nets);
  cc_tsn_acknowledged : option (sctp_nets -> Z -> sctp_nets);
  cc_new_transmission_begins : option (sctp_association -> sctp_nets -> sctp_nets);
  cc_prepare_net_for_sack : option (sctp_nets -> sctp_nets);
  cc_socket_option : option (sctp_association -> Z -> Z -> Z -> Z * sctp_association * Z);
  cc_rtt_calculated : option (sctp_nets -> sctp_nets)
}.

(** The four entries of the table. *)
Definition rfc2581_functions (sys : sysctl) : cc_functions := {|
  cc_set_initial asoc net := net ← sctp_set_initial_cc_param sys asoc net; Some (asoc, net);
  cc_after_sack := sctp_cwnd_update_after_sack sys;
  cc_exit_pf := sctp_cwnd_update_exit_pf_common;
  cc_after_fr := sctp_cwnd_update_after_fr;
  cc_after_timeout := sctp_cwnd_update_after_timeout;
  cc_after_ecn_echo asoc net w n := Some (sctp_cwnd_update_after_ecn_echo net w n);
  cc_after_packet_dropped := sctp_cwnd_update_after_packet_dropped;
  cc_after_output := sctp_cwnd_update_after_output;
  cc_packet_transmitted := None; cc_tsn_acknowledged := None;
  cc_new_transmission_begins := None; cc_prepare_net_for_sack := None;
  cc_socket_option := None; cc_rtt_calculated := None |}.

Definition hstcp_functions (sys : sysctl) : cc_functions := {|
  cc_set_initial asoc net := net ← sctp_set_initial_cc_param sys asoc net; Some (asoc, net);
  cc_after_sack := sctp_hs_cwnd_update_after_sack;
  cc_exit_pf := sctp_cwnd_update_exit_pf_common;
  cc_after_fr := sctp_hs_cwnd_update_after_fr;
  cc_after_timeout := sctp_cwnd_update_after_timeout;
  cc_after_ecn_echo asoc net w n := Some (sctp_cwnd_update_after_ecn_echo net w n);
  cc_after_packet_dropped := sctp_cwnd_update_after_packet_dropped;
  cc_after_output := sctp_cwnd_update_after_output;
  cc_packet_transmitted := None; cc_tsn_acknowledged := None;
  cc_new_transmission_begins := None; cc_prepare_net_for_sack := None;
  cc_socket_option := None; cc_rtt_calculated := None |}.

Definition htcp_functions (sys : sysctl) (ticks : Z) : cc_functions := {|
  cc_set_initial asoc net := Some (asoc, sctp_htcp_set_initial_cc_param ticks asoc net);
  cc_after_sack := sctp_htcp_cwnd_update_after_sack sys ticks;
  cc_exit_pf := sctp_cwnd_update_exit_pf_common;
  cc_after_fr := sctp_htcp_cwnd_update_after_fr ticks;
  cc_after_timeout asoc net := sctp_htcp_cwnd_update_after_timeout ticks net;
  cc_after_ecn_echo asoc net w n := sctp_htcp_cwnd_update_after_ecn_echo ticks asoc net w;
  cc_after_packet_dropped := sctp_cwnd_update_after_packet_dropped;
  cc_after_output := sctp_cwnd_update_after_output;
  cc_packet_transmitted := None; cc_tsn_acknowledged := None;
  cc_new_transmission_begins := None; cc_prepare_net_for_sack := None;
  cc_socket_option := None; cc_rtt_calculated := None |}.

Definition rtcc_functions (sys : sysctl) (now : timeval) : cc_functions := {|
  cc_set_initial := sctp_set_rtcc_initial_cc_param sys;
  cc_after_sack := sctp_cwnd_update_rtcc_after_sack sys;
  cc_exit_pf := sctp_cwnd_update_exit_pf_common;
  cc_after_fr := sctp_cwnd_update_after_fr;
  cc_after_timeout := sctp_cwnd_update_after_timeout;
  cc_after_ecn_echo asoc net w n := Some (sctp_cwnd_update_rtcc_after_ecn_echo net w n);
  cc_after_packet_dropped := sctp_cwnd_update_after_packet_dropped;
  cc_after_output := sctp_cwnd_update_after_output;
  cc_packet_transmitted := Some (sctp_cwnd_update_rtcc_packet_transmitted now);
  cc_tsn_acknowledged := Some sctp_cwnd_update_rtcc_tsn_acknowledged;
  cc_new_transmission_begins := Some (sctp_cwnd_new_rtcc_transmission_begins sys);
  cc_prepare_net_for_sack := Some (sctp_cwnd_prepare_rtcc_net_for_sack now);
  cc_socket_option := Some sctp_cwnd_rtcc_socket_option;
  cc_rtt_calculated := Some sctp_rtt_rtcc_calculated |}.

(** The table, at a tick count and a time of day. *)
Definition sctp_cc_functions (sys : sysctl) (ticks : Z) (now : timeval) (module : Z) :
  option cc_functions :=
  if module =? SCTP_CC_RFC2581 then Some (rfc2581_functions sys)
  else if module =? SCTP_CC_HSTCP then Some (hstcp_functions sys)
  else if module =? SCTP_CC_HTCP then Some (htcp_functions sys ticks)
  else if module =? SCTP_CC_RTCC then Some (rtcc_functions sys now)
  else None.

(** ** The callers *)

(** [SCTP_PLUGGABLE_CC] on an association: the loop sets up every destination anew.
    [junk] is what the bytes of the union mean to the new module. *)
Fixpoint reinit_nets (f : cc_functions) (asoc : sctp_association) (l : list sctp_nets) :
  option (sctp_association * list sctp_nets) :=
  match l with
  | [] => Some (asoc, [])
  | net :: rest =>
      '(asoc, net) ← cc_set_initial f asoc net;
      '(asoc, rest) ← reinit_nets f asoc rest;
      Some (asoc, net :: rest)
  end.

Definition setopt_pluggable_cc (sys : sysctl) (ticks : Z) (now : timeval)
  (junk : sctp_nets -> htcp * rtcc_cc) (asoc : sctp_association) (value : Z) :
  option (Z * sctp_association) :=
  match sctp_cc_functions sys ticks now value with
  | None => Some (EINVAL, asoc)
  | Some f =>
      let l := map (fun net => net <| htcp_ca := (junk net).1 |> <| rtcc := (junk net).2 |>)
                 (nets asoc) in
      '(asoc, l) ← reinit_nets f (asoc <| congestion_control_module := value |>) l;
      Some (0, asoc <| nets := l |>)
  end.

(** [sctp_calculate_rto]: the estimator; [now] is the time in the clock the
    association uses, [told] the start of the measurement. *)
Definition SCTP_RTT_FROM_DATA : Z := 1.
Definition SCTP_LOCAL_LAN_RTT : Z := 900.
Definition SCTP_CLOCK_GRANULARITY : Z := 10.
Definition SCTP_SAT_NETWORK_MIN : Z := 400.

(** The new averages: [rtt] is the measured round-trip time in milliseconds. *)
Definition update_averages (net : sctp_nets) (rtt_ms : Z) : sctp_nets :=
  let net :=
    if negb (RTO_measured net =? 0) then
      let d := i32 (rtt_ms - Z.shiftr (lastsa net) SCTP_RTT_SHIFT) in
      let net := net <| lastsa := i32 (lastsa net + d) |> in
      let d := if d <? 0 then i32 (- d) else d in
      let d := i32 (d - Z.shiftr (lastsv net) SCTP_RTT_VAR_SHIFT) in
      net <| lastsv := i32 (lastsv net + d) |>
    else
      net <| RTO_measured := 1 |>
          <| lastsa := i32 (Z.shiftl rtt_ms SCTP_RTT_SHIFT) |>
          <| lastsv := i32 (Z.shiftl (Z.quot rtt_ms 2) SCTP_RTT_VAR_SHIFT) |> in
  if lastsv net =? 0 then net <| lastsv := SCTP_CLOCK_GRANULARITY |> else net.

Definition clamp_rto (asoc : sctp_association) (rto : Z) : Z :=
  let rto := if rto <? minrto asoc then minrto asoc else rto in
  if rto >? maxrto asoc then maxrto asoc else rto.

Definition sctp_calculate_rto (f : cc_functions) (asoc : sctp_association) (net : sctp_nets)
  (now told : timeval) (rtt_from_sack : Z) : Z * sctp_association * sctp_nets :=
  let d := timevalsub now told in
  let net := net <| rtt := u64 (u64 (1000000 * u64 (tv_sec d)) + u64 (tv_usec d)) |> in
  let rtt_ms := i32 (rtt net / 1000) in
  let net := match cc_rtt_calculated f with
             | Some g => if rtt_from_sack =? SCTP_RTT_FROM_DATA then g net else net
             | None => net
             end in
  let net := if (rtt_from_sack =? SCTP_RTT_FROM_DATA) && (lan_type net =? SCTP_LAN_UNKNOWN)
             then net <| lan_type := if rtt net >? SCTP_LOCAL_LAN_RTT then SCTP_LAN_INTERNET
                                     else SCTP_LAN_LOCAL |>
             else net in
  let first_measure := RTO_measured net =? 0 in
  let net := update_averages net rtt_ms in
  let new_rto := u32 (Z.shiftr (lastsa net) SCTP_RTT_SHIFT + lastsv net) in
  let asoc :=
    if (new_rto >? SCTP_SAT_NETWORK_MIN) && (sat_network_lockout asoc =? 0)
    then asoc <| sat_network := 1 |>
    else if negb first_measure && negb (sat_network asoc =? 0)
    then asoc <| sat_network := 0 |> <| sat_network_lockout := 1 |>
    else asoc in
  (clamp_rto asoc new_rto, asoc, net).

(** [sctp_backoff_on_timeout]. *)
Definition sctp_backoff_on_timeout (f : cc_functions) (asoc : sctp_association)
  (net : sctp_nets) (win_probe num_marked num_abandoned : Z) : option sctp_nets :=
  let net := if RTO net =? 0 then
               net <| RTO := if negb (RTO_measured net =? 0) then minrto asoc
                             else initial_rto asoc |>
             else net in
  let net := net <| RTO := u32 (Z.shiftl (RTO net) 1) |> in
  let net := if RTO net >? maxrto asoc then net <| RTO := maxrto asoc |> else net in
  if (win_probe =? 0) && (negb (num_marked =? 0) || negb (num_abandoned =? 0))
  then cc_after_timeout f asoc net else Some net.

(** [sctp_handle_ecn_echo]: [len] is the chunk length, [ecn_tsn] and
    [num_pkts_since_cwr] its fields.  The last component is the CWR that is sent:
    destination, TSN and flags. *)
Definition sizeof_ecne : Z := 12.
Definition sizeof_old_ecne : Z := 8.
Definition SCTP_CWR_REDUCE_OVERRIDE : Z := 1.
Definition SCTP_CWR_IN_SAME_WINDOW : Z := 2.

(** The search for the marked chunk ends at the first later TSN. *)
Fixpoint find_sent (l : list tmit_chunk) (t : Z) : option tmit_chunk :=
  match l with
  | [] => None
  | lchk :: rest => if tsn lchk =? t then Some lchk
                    else if SCTP_TSN_GT (tsn lchk) t then None else find_sent rest t
  end.

Fixpoint find_cwr_net (l : list sctp_nets) (i : nat) (t : Z) : option nat :=
  match l with
  | [] => None
  | net :: rest => if t =? last_cwr_tsn net then Some i else find_cwr_net rest (S i) t
  end.

(** The destination of the marked chunk and the override bit. *)
Definition ecn_target (asoc : sctp_association) (ecn_tsn : Z) : option (nat * Z * sctp_association) :=
  match find_sent (sent_queue asoc) ecn_tsn with
  | Some lchk =>
      asoc ← on_net asoc (whoTo lchk) (fun net => Some (net <| ecn_prev_cwnd := cwnd_at_send lchk |>));
      Some (whoTo lchk, 0, asoc)
  | None =>
      match find_cwr_net (nets asoc) 0 ecn_tsn with
      | Some i => Some (i, 0, asoc)
      | None => Some (0%nat, SCTP_CWR_REDUCE_OVERRIDE, asoc)
      end
  end.

(** The reaction of the destination: at most one reduction per window. *)
Definition ecn_react (f : cc_functions) (asoc : sctp_association) (ecn_tsn pkt_cnt window_data_tsn : Z)
  (override_bit : Z) (net : sctp_nets) : option (Z * sctp_nets) :=
  let override := negb (Z.land override_bit SCTP_CWR_REDUCE_OVERRIDE =? 0) in
  if SCTP_TSN_GT ecn_tsn (cwr_window_tsn net) && negb override then
    net ← cc_after_ecn_echo f asoc net 0 (i32 pkt_cnt);
    Some (override_bit,
          net <| cwr_window_tsn := window_data_tsn |>
              <| ecn_ce_pkt_cnt := u32 (ecn_ce_pkt_cnt net + pkt_cnt) |>
              <| lost_cnt := pkt_cnt |> <| last_cwr_tsn := ecn_tsn |>)
  else
    let override_bit := Z.lor override_bit SCTP_CWR_IN_SAME_WINDOW in
    if SCTP_TSN_GT ecn_tsn (last_cwr_tsn net) && negb override then
      let more := pkt_cnt >? lost_cnt net in
      let cnt := if more then i32 (u32 (pkt_cnt - lost_cnt net)) else 1 in
      let net := if more then net <| ecn_ce_pkt_cnt := u32 (ecn_ce_pkt_cnt net + cnt) |> else net in
      let net := net <| lost_cnt := pkt_cnt |> <| last_cwr_tsn := ecn_tsn |> in
      net ← cc_after_ecn_echo f asoc net 1 cnt;
      Some (override_bit, net)
    else Some (override_bit, net).

Definition sctp_handle_ecn_echo (f : cc_functions) (asoc : sctp_association)
  (len ecn_tsn num_pkts_since_cwr : Z) : option (sctp_association * option (nat * Z * Z)) :=
  if negb (len =? sizeof_ecne) && negb (len =? sizeof_old_ecne) then Some (asoc, None)
  else
    let pkt_cnt := if len =? sizeof_old_ecne then 1 else num_pkts_since_cwr in
    let window_data_tsn := match last (send_queue asoc) with
                           | None => u32 (sending_seq asoc - 1)
                           | Some t => t
                           end in
    '(i, override_bit, asoc) ← ecn_target asoc ecn_tsn;
    match nets asoc !! i with
    | None => Some (asoc, None)
    | Some net =>
        '(override_bit, net) ← ecn_react f asoc ecn_tsn pkt_cnt window_data_tsn override_bit net;
        Some (asoc <| nets := <[i := net]> (nets asoc) |>,
              Some (i, last_cwr_tsn net, override_bit))
    end.

(** The end of [sctp_handle_packet_dropped]: the window the peer reports, or the
    change of the congestion window a middle box asks for. *)
Definition packet_dropped_report (f : cc_functions) (asoc : sctp_association) (i : nat)
  (from_middle_box : bool) (bottle_bw on_queue : Z) : option sctp_association :=
  let asoc :=
    if from_middle_box || (bottle_bw =? 0) || (on_queue =? 0) then asoc
    else
      let a_rwnd := if bottle_bw >? on_queue then u32 (bottle_bw - on_queue) else 0 in
      if a_rwnd =? 0 then asoc <| peers_rwnd := 0 |>
      else
        let rwnd := if a_rwnd >? total_flight asoc then u32 (a_rwnd - total_flight asoc) else 0 in
        asoc <| peers_rwnd := if rwnd <? sctp_sws_sender asoc then 0 else rwnd |> in
  if from_middle_box && (sat_t3_loss_recovery asoc =? 0) && negb (sat_network asoc =? 0)
  then on_net asoc i (fun net => '(_, net) ← cc_after_packet_dropped f asoc net bottle_bw on_queue;
                                 Some net)
  else Some asoc.

(** ** A concrete association, for examples

    The default settings, and paths with an MTU of 1500 bytes. *)

Definition ex_sys : sysctl := Sysctl 3 2 4 5 0 20 1.

Definition ex_net : sctp_nets :=
  {| mtu := 1500; ssthresh := 65535; last_cwr_tsn := 0; cwr_window_tsn := 0; ecn_ce_pkt_cnt := 0;
     lost_cnt := 0; lastsa := 800; lastsv := 40; rtt := 100000; RTO := 1000;
     htcp_ca := Htcp 0 0 0 0 0 0 0 0 0 0 0 0 0 0 0 0;
     rtcc := Rtcc (Timeval 0 0) 0 0 0 0 0 0 0 0 0 0 0 0 0 0 0 0;
     flight_size := 4464; cwnd := 4464; prev_cwnd := 4464; ecn_prev_cwnd := 0;
     partial_bytes_acked := 0; net_ack := 0; fast_recovery_tsn := 0;
     fast_retran_loss_recovery := 0; fast_retran_ip := 0; new_pseudo_cumack := 0;
     RTO_measured := 1; last_hs_used := 0; lan_type := SCTP_LAN_INTERNET |}.

Definition ex_asoc (l : list sctp_nets) : sctp_association :=
  {| nets := l; congestion_control_module := SCTP_CC_RFC2581; sending_seq := 5000;
     send_queue := [4990; 4991]; sent_queue := [TmitChunk 4980 0 4464];
     asoc_fast_recovery_tsn := 0; asoc_fast_retran_loss_recovery := 0; peers_rwnd := 65535;
     numnets := Z.of_nat (length l); max_burst := 4; max_cwnd := 0; sctp_cmt_on_off := SCTP_CMT_OFF;
     seen_a_sack_this_pkt := 0; use_precise_time := 0; minrto := 1000; maxrto := 60000;
     initial_rto := 3000; sat_network := 0; sat_network_lockout := 0; sat_t3_loss_recovery := 0;
     total_flight := 4464; sctp_sws_sender := 1500 |}.
