(* ===== verification/CongInv.v ===== *)
(** * Congestion control: the windows stay sane

    What every module owes to the association is the class [CcModule]: each of its
    functions returns (no division by zero, no read outside a table) and keeps the
    invariant [net_ok] of the destinations.  The theorem on sequences of events is
    proved against the class; the four modules are its instances. *)

From S2P Require Import Prelude CongState CongCtl CongMod.
Open Scope sctp_scope.

(** ** The invariant *)

(** The window of a path: at least a packet, and at most the configured limit,
    which itself never goes below a packet. *)
Definition win_ok (cap : Z) (net : sctp_nets) : Prop :=
  in_u32 (cwnd net) /\ mtu net - 12 <= cwnd net /\
  (0 < cap -> cwnd net <= Z.max cap (mtu net)).

(** The bounds of what the rest of the stack keeps on a path: an MTU that holds
    more than the header, and at most 2^30 bytes outstanding or acknowledged. *)
Record path_ok (net : sctp_nets) : Prop := PathOk {
  ok_mtu : 12 < mtu net <= 16384;
  ok_flight : 0 <= flight_size net;
  ok_net_ack : 0 <= net_ack net;
  ok_outstanding : flight_size net + net_ack net <= 1073741824;
  ok_lastsa : in_i32 (lastsa net);
  ok_rtt : in_u64 (rtt net)
}.

Record net_ok (cap : Z) (net : sctp_nets) : Prop := NetOk {
  ok_path : path_ok net;
  ok_win : win_ok cap net;
  ok_ssthresh : in_u32 (ssthresh net);
  ok_pba : in_u32 (partial_bytes_acked net);
  ok_RTO : in_u32 (RTO net)
}.

(** Settings for which no product overflows, and paths that are not coupled. *)
Record sys_ok (sys : sysctl) : Prop := SysOk {
  ok_initial_cwnd : 0 <= sctp_initial_cwnd sys <= 16384;
  ok_abc : 0 <= sctp_L2_abc_variable sys <= 16384;
  ok_rttvar_bw : 0 <= sctp_rttvar_bw sys;
  ok_rttvar_rtt : 0 <= sctp_rttvar_rtt sys
}.

Record limits_ok (asoc : sctp_association) : Prop := LimitsOk {
  ok_cmt : sctp_cmt_on_off asoc = SCTP_CMT_OFF \/ sctp_cmt_on_off asoc = SCTP_CMT_BASE;
  ok_max_burst : 0 <= max_burst asoc <= 16384;
  ok_max_cwnd : in_u32 (max_cwnd asoc);
  ok_peers_rwnd : in_u32 (peers_rwnd asoc);
  ok_rto_limits : in_u32 (minrto asoc) /\ in_u32 (maxrto asoc) /\ in_u32 (initial_rto asoc)
}.

(** Everything but the windows, thresholds and counters of a path is kept. *)
Definition keeps (net net' : sctp_nets) : Prop :=
  mtu net' = mtu net /\ flight_size net' = flight_size net /\
  net_ack net' = net_ack net /\ lastsa net' = lastsa net /\ rtt net' = rtt net.

(** The hypotheses of the invariant as facts for [lia]. *)
Ltac path_facts :=
  repeat match goal with
  | H : net_ok _ _ |- _ => destruct H as [? ? ? ? ?]
  | H : path_ok _ |- _ => destruct H as [? ? ? ? ? ?]
  | H : sys_ok ?s |- _ =>
      lazymatch goal with
      | _ : 0 <= sctp_L2_abc_variable s <= _ |- _ => fail
      | _ => pose proof H as [? ? ? ?]
      end
  | H : limits_ok ?a |- _ =>
      lazymatch goal with
      | _ : 0 <= max_burst a <= _ |- _ => fail
      | _ => pose proof H as [? ? ? ? ?]
      end
  | H : win_ok _ _ |- _ => destruct H as (? & ? & ?)
  | H : keeps _ _ |- _ => destruct H as (? & ? & ? & ? & ?)
  end.

(** Remove the reductions that the bounds make superfluous, in the goal. *)
Ltac unwrap :=
  repeat match goal with
  | |- context [u32 ?e] => rewrite (u32_id e) by (unfold in_u32; lia)
  | |- context [u64 ?e] => rewrite (u64_id e) by (unfold in_u64; lia)
  end.

(** Turn the invariant into facts, remove reductions, split the comparisons of the
    goal, and let [lia] finish. *)
Ltac cong_lia :=
  path_facts; unfold in_u32, in_u64, in_i32 in *; unwrap; zbool; simpl; unwrap;
  Z.div_mod_to_equations; lia.

Lemma keeps_refl net : keeps net net.
Proof. done. Qed.

Lemma keeps_trans net1 net2 net3 : keeps net1 net2 -> keeps net2 net3 -> keeps net1 net3.
Proof. unfold keeps. intros (<- & <- & <- & <- & <-). done. Qed.

Lemma keeps_path net net' : path_ok net -> keeps net net' -> path_ok net'.
Proof. intros [] (E1 & E2 & E3 & E4 & E5). constructor; by rewrite ?E1, ?E2, ?E3, ?E4, ?E5. Qed.

(** ** The limit *)

Lemma mtu_less_header_eq net :
  12 < mtu net <= 16384 -> mtu_less_header net = mtu net - 12.
Proof. intros. unfold mtu_less_header, sizeof_sctphdr. width_lia. Qed.

(** The limited window. *)
Definition limited (cap mtu c : Z) : Z :=
  if (0 <? cap) && (cap <? c) && (mtu - 12 <? c) then Z.max cap (mtu - 12) else c.

Lemma set_cwnd_same net : net <| cwnd := cwnd net |> = net.
Proof. by destruct net. Qed.

(** The function only replaces the window by the limited one. *)
Lemma enforce_eq asoc net :
  12 < mtu net <= 16384 ->
  sctp_enforce_cwnd_limit asoc net =
  net <| cwnd := limited (max_cwnd asoc) (mtu net) (cwnd net) |>.
Proof.
  intros Hm. unfold sctp_enforce_cwnd_limit, limited.
  rewrite mtu_less_header_eq by done. destruct (_ && _ && _) eqn:E; [|by rewrite set_cwnd_same].
  rewrite mtu_less_header_eq by done. simpl.
  destruct (Z.ltb_spec (max_cwnd asoc) (mtu net - 12)).
  - rewrite u32_id by (unfold in_u32; lia). by rewrite Z.max_r by lia.
  - by rewrite Z.max_l by lia.
Qed.

Lemma limited_win cap mtu c :
  12 < mtu <= 16384 -> in_u32 cap -> in_u32 c -> mtu - 12 <= c ->
  in_u32 (limited cap mtu c) /\ mtu - 12 <= limited cap mtu c /\
  (0 < cap -> limited cap mtu c <= Z.max cap mtu).
Proof. intros. unfold limited, in_u32 in *. destruct (_ && _ && _) eqn:E; lia. Qed.

Lemma limited_le cap mtu c : mtu - 12 <= c -> limited cap mtu c <= c.
Proof. unfold limited. destruct (_ && _ && _) eqn:E; lia. Qed.

(** Replacing the window and the threshold by good ones keeps the invariant. *)
Lemma enforce_ok asoc net c :
  limits_ok asoc -> path_ok net -> in_u32 (ssthresh net) ->
  in_u32 (partial_bytes_acked net) -> in_u32 (RTO net) -> in_u32 c -> mtu net - 12 <= c ->
  net_ok (max_cwnd asoc) (sctp_enforce_cwnd_limit asoc (net <| cwnd := c |>)).
Proof.
  intros Hl Hp Hs Hb Hr Hc Hlow. rewrite enforce_eq by (simpl; apply Hp). simpl.
  constructor; simpl; try done; [|apply limited_win; [apply Hp|apply Hl|done..]].
  eapply keeps_path; [exact Hp|by split_and!].
Qed.

Lemma enforce_keeps asoc net : path_ok net -> keeps net (sctp_enforce_cwnd_limit asoc net).
Proof. intros Hp. rewrite enforce_eq by apply Hp. by split_and!. Qed.

(** ** Safe functions on a destination *)

(** What belongs to the modules on a path. *)
Definition mod_state (net : sctp_nets) : htcp * rtcc_cc * Z * Z :=
  (htcp_ca net, rtcc net, last_hs_used net, lastsa net).

(** The call returns, keeps the invariant, and [M] holds of the result. *)
Definition safe (cap : Z) (M : sctp_nets -> Prop) (net : sctp_nets) (o : option sctp_nets) : Prop :=
  exists net', o = Some net' /\ net_ok cap net' /\ keeps net net' /\ M net'.

(** ... and leaves the modules' part alone. *)
Abbreviation safe_common cap net o := (safe cap (fun net' => mod_state net' = mod_state net) net o).

Lemma safe_weaken cap (M M' : sctp_nets -> Prop) net o :
  safe cap M net o -> (forall net', M net' -> M' net') -> safe cap M' net o.
Proof. intros (net' & ? & ? & ? & ?) HM. exists net'. auto. Qed.

Lemma safe_same cap net : net_ok cap net -> safe_common cap net (Some net).
Proof. intros H. exists net. split_and!; [done..|apply keeps_refl|done]. Qed.

(** A result that differs in window, threshold and acknowledged bytes only. *)
Lemma safe_update cap net c s p r :
  path_ok net -> win_ok cap (net <| cwnd := c |>) -> in_u32 s -> in_u32 p -> in_u32 r ->
  safe_common cap net
    (Some (net <| RTO := r |> <| ssthresh := s |> <| partial_bytes_acked := p |> <| cwnd := c |>)).
Proof.
  intros Hp Hw Hs Hb Hr. eexists. split; [reflexivity|]. split_and!; [|by split_and!|done].
  constructor; simpl; try done. eapply keeps_path; [exact Hp|by split_and!].
Qed.

(** Setting only the window is setting the other fields to what they are. *)
Lemma set_cwnd_alone net c :
  net <| cwnd := c |> =
  net <| RTO := RTO net |> <| ssthresh := ssthresh net |>
      <| partial_bytes_acked := partial_bytes_acked net |> <| cwnd := c |>.
Proof. by destruct net. Qed.

(** Limiting the window is safe when it held a packet. *)
Lemma safe_enforce asoc net0 net :
  limits_ok asoc -> path_ok net0 -> keeps net0 net -> mod_state net = mod_state net0 ->
  in_u32 (ssthresh net) -> in_u32 (partial_bytes_acked net) -> in_u32 (RTO net) ->
  in_u32 (cwnd net) -> mtu net - 12 <= cwnd net ->
  safe_common (max_cwnd asoc) net0 (Some (sctp_enforce_cwnd_limit asoc net)).
Proof.
  intros Hl Hp Hk Hm Hs Hb Hr Hc Hlow.
  pose proof (keeps_path _ _ Hp Hk) as Hp'.
  exists (sctp_enforce_cwnd_limit asoc net). split; [done|].
  split; [rewrite <- (set_cwnd_same net); by apply enforce_ok|].
  rewrite enforce_eq by apply Hp'. split; [|done].
  destruct Hk as (? & ? & ? & ? & ?). by split_and!.
Qed.

#[local] Hint Resolve safe_same keeps_refl : core.

(** A full window holds no more than what is outstanding or acknowledged. *)
Lemma window_full_bound net :
  path_ok net -> window_full net = true -> cwnd net <= flight_size net + net_ack net.
Proof.
  intros Hp. unfold window_full. rewrite u32_id by cong_lia. lia.
Qed.

Section Common.
Context (asoc : sctp_association).
Hypothesis Hlim : limits_ok asoc.
#[local] Abbreviation cap := (max_cwnd asoc).

(** Paths are not coupled. *)
Lemma not_pooling : pooling asoc = false.
Proof using Hlim.
  unfold pooling. destruct (ok_cmt _ Hlim) as [-> | ->]; reflexivity.
Qed.

Lemma not_mptcp : (sctp_cmt_on_off asoc =? SCTP_CMT_MPTCP) = false.
Proof using Hlim. destruct (ok_cmt _ Hlim) as [-> | ->]; reflexivity. Qed.

Lemma initial_window_range sys net :
  sys_ok sys -> 12 < mtu net <= 16384 ->
  in_u32 (initial_window sys asoc net) /\ mtu net - 12 <= initial_window sys asoc net.
Proof using Hlim.
  intros Hsys Hm. unfold initial_window. rewrite mtu_less_header_eq by done.
  destruct Hsys as [[Hi1 Hi2] _ _ _], Hlim as [_ [Hb1 Hb2] _ _ _].
  destruct (Z.eqb_spec (sctp_initial_cwnd sys) 0).
  - unfold cmin, cmax, SCTP_INITIAL_CWND. rewrite !(u32_id (_ * _)) by (unfold in_u32; lia).
    zbool; unfold in_u32; lia.
  - set (k := if (_ : bool) then _ else _).
    assert (Hk : 1 <= k <= 16384) by (subst k; destruct (_ && _) eqn:E; lia).
    clearbody k. rewrite u64_id by (unfold in_u64; nia).
    rewrite u32_id by (unfold in_u32; nia). split; [unfold in_u32; nia | nia].
Qed.

Lemma set_initial_safe sys net :
  sys_ok sys -> path_ok net -> in_u32 (partial_bytes_acked net) -> in_u32 (RTO net) ->
  safe_common cap net (sctp_set_initial_cc_param sys asoc net).
Proof using Hlim.
  intros Hsys Hp Hb Hr. unfold sctp_set_initial_cc_param. rewrite not_pooling. cbn [mbind option_bind].
  destruct (initial_window_range sys net) as [H1 H2]; [done|apply Hp|].
  rewrite enforce_eq by (simpl; apply Hp). simpl.
  eexists. split; [reflexivity|]. split_and!; [|by split_and!|done].
  constructor; simpl; try done; [|apply limited_win; [apply Hp|apply Hlim|done..]|apply Hlim].
  eapply keeps_path; [exact Hp|by split_and!].
Qed.

(** The plain reduction after a fast retransmit. *)
Lemma fr_reduce_safe a b c net :
  net_ok cap net -> safe_common cap net (fr_reduce asoc a b c net).
Proof using Hlim.
  intros Hn. unfold fr_reduce. rewrite not_pooling. cbn [mbind option_bind].
  apply safe_enforce; simpl; try done; try (zbool; first [done | by split_and!]).
  - apply Hn.
  - cong_lia.
  - zbool; apply Hn.
  - zbool; apply Hn.
  - cong_lia.
  - cong_lia.
Qed.

Lemma timeout_safe net :
  net_ok cap net -> safe_common cap net (sctp_cwnd_update_after_timeout asoc net).
Proof using Hlim.
  intros Hn. unfold sctp_cwnd_update_after_timeout. rewrite not_pooling. cbn [mbind option_bind].
  apply (safe_update _ net (mtu net) (cmax (cwnd net / 2) (u32 (4 * mtu net))) 0 (RTO net)).
  - apply Hn.
  - unfold win_ok; simpl. cong_lia.
  - unfold cmax. zbool; cong_lia.
  - done.
  - apply Hn.
Qed.

Lemma exit_pf_safe net :
  net_ok cap net -> safe_common cap net (Some (sctp_cwnd_update_exit_pf_common net)).
Proof using Hlim.
  intros Hn. unfold sctp_cwnd_update_exit_pf_common. rewrite set_cwnd_alone.
  apply safe_update; try apply Hn. unfold win_ok; simpl. cong_lia.
Qed.

(** The usual reaction to an ECN mark. *)
Lemma ecn_echo_safe net in_window n :
  net_ok cap net -> safe_common cap net (Some (sctp_cwnd_update_after_ecn_echo net in_window n)).
Proof using Hlim.
  intros Hn. unfold sctp_cwnd_update_after_ecn_echo, sctp_cwnd_update_after_ecn_echo_common.
  cbn [andb]. destruct (in_window =? 0); [|auto].
  eexists. split; [reflexivity|].
  split_and!; [constructor|split_and!|]; simpl; try (zbool; simpl; done || apply Hn).
  - eapply keeps_path; [apply Hn|]. zbool; by split_and!.
  - unfold win_ok. simpl. destruct (Z.ltb_spec (cwnd net / 2) (mtu net)); simpl; cong_lia.
  - destruct (Z.ltb_spec (cwnd net / 2) (mtu net)); simpl; cong_lia.
  - zbool; simpl; [apply u32_range|apply Hn].
Qed.

(** The report on dropped packets: our portion is defined when a packet's worth is
    on the queue. *)
Lemma drop_portion_some net q incr :
  12 < mtu net <= 16384 -> mtu net <= q < 4294967296 -> exists p, drop_portion net q incr = Some p.
Proof.
  intros Hm Hq. unfold drop_portion.
  assert (Hd : 1 <= q / mtu net < 2147483648) by (Z.div_mod_to_equations; nia).
  rewrite !(udiv_some _ (mtu net)) by lia. cbn [mbind option_bind].
  rewrite udiv_some by width_lia. eexists. reflexivity.
Qed.

Lemma drop_overload_some net q b :
  12 < mtu net <= 16384 -> mtu net <= q < 4294967296 ->
  exists c s, in_u32 c /\ in_u32 s /\
    drop_overload asoc net q b =
    Some (net <| partial_bytes_acked := 0 |> <| cwnd := c |> <| ssthresh := s |>).
Proof using Hlim.
  intros Hm Hq. unfold drop_overload.
  set (net1 := if negb (seen_a_sack_this_pkt asoc =? 0) then _ else _).
  assert (E : exists w, net1 = net <| partial_bytes_acked := 0 |> <| cwnd := w |>).
  { subst net1. case_match; [eexists; reflexivity|]. by exists (cwnd net); destruct net. }
  destruct E as [w ->].
  destruct (drop_portion_some (net <| partial_bytes_acked := 0 |> <| cwnd := w |>) q (u32 (q - b)))
    as [p ->]; [done..|].
  simpl. assert (Hc : in_u32 (u32 (w - p))) by apply u32_range. revert Hc.
  generalize (u32 (w - p)) as c. intros c Hc.
  exists (if c <=? mtu net then mtu net else c).
  exists (u32 ((if c <=? mtu net then mtu net else c) - 1)).
  split_and!; [zbool; unfold in_u32 in *; lia|apply u32_range|].
  by destruct (c <=? mtu net).
Qed.

Lemma packet_dropped_safe net bw onq :
  net_ok cap net -> in_u32 bw -> in_u32 onq ->
  (bandwidth_available net bw < Z.max onq (flight_size net) ->
   mtu net <= Z.max onq (flight_size net)) ->
  safe_common cap net
    ('(_, net') ← sctp_cwnd_update_after_packet_dropped asoc net bw onq; Some net').
Proof using Hlim.
  intros Hn Hb Hq Hm. unfold sctp_cwnd_update_after_packet_dropped.
  set (q := if (onq <? _) then _ else _).
  assert (Eq : q = Z.max onq (flight_size net)) by (subst q; zbool; lia). clearbody q.
  rewrite <- Eq in Hm.
  assert (Hav : in_u32 (bandwidth_available net bw)).
  { unfold bandwidth_available. zbool; [done|apply u32_range]. }
  set (o := if bandwidth_available net bw <? q then _ else _).
  assert (Ho : exists c s p, in_u32 c /\ in_u32 s /\ in_u32 p /\
    o = Some (net <| partial_bytes_acked := p |> <| cwnd := c |> <| ssthresh := s |>)).
  { subst o. destruct (Z.ltb_spec (bandwidth_available net bw) q).
    - destruct (drop_overload_some net q (bandwidth_available net bw)) as (c & s & ? & ? & ->);
        [apply Hn|path_facts; unfold in_u32 in *; lia|]. by exists c, s, 0.
    - eexists (u32 _), (ssthresh net), (partial_bytes_acked net).
      split_and!; [apply u32_range|apply Hn..|reflexivity]. }
  destruct Ho as (c & s & p & Hc & Hs & Hp & ->). cbn [mbind option_bind].
  apply safe_enforce; simpl; try done; try (zbool; simpl; zbool; first [done|by split_and!]).
  - apply Hn.
  - zbool; simpl; zbool; apply Hn.
  - destruct (Z.ltb_spec (bandwidth_available net bw) c); simpl; cong_lia.
  - destruct (Z.ltb_spec (bandwidth_available net bw) c); simpl; cong_lia.
Qed.

Lemma after_output_safe net burst :
  net_ok cap net -> 0 <= burst <= 16384 ->
  safe_common cap net (Some (sctp_cwnd_update_after_output asoc net burst)).
Proof using Hlim.
  intros Hn Hb. unfold sctp_cwnd_update_after_output.
  set (net1 := if (ssthresh net <? cwnd net) then _ else _).
  assert (E : exists s, in_u32 s /\ net1 = net <| ssthresh := s |>).
  { subst net1. case_match; [eexists; split; [|reflexivity]; apply Hn|].
    exists (ssthresh net). split; [apply Hn|by destruct net]. }
  destruct E as (s & Hs & ->).
  destruct (Z.eqb_spec burst 0) as [->|Hne]; cbn [negb].
  - exists (net <| ssthresh := s |>). split; [done|]. split_and!; [|by split_and!|done].
    constructor; simpl; try apply Hn; try done.
    eapply keeps_path; [apply Hn|by split_and!].
  - apply safe_enforce; simpl; try done; try apply Hn.
    + apply u32_range.
    + path_facts. rewrite (u32_id (burst * mtu net)) by (unfold in_u32; nia).
      rewrite u32_id by (unfold in_u32; nia). nia.
Qed.

(** The increase when the paths are not coupled. *)
Lemma slow_start_incr_eq sys t net :
  slow_start_incr sys asoc t net =
  Some (Z.min (net_ack net) (u32 (mtu net * sctp_L2_abc_variable sys))).
Proof using Hlim.
  unfold slow_start_incr. destruct (ok_cmt _ Hlim) as [-> | ->]; cbn -[u32 Z.min]; f_equal;
    zbool; lia.
Qed.

Lemma avoidance_incr_eq t net : avoidance_incr asoc t net = Some (mtu net).
Proof using Hlim.
  unfold avoidance_incr. destruct (ok_cmt _ Hlim) as [-> | ->]; reflexivity.
Qed.

(** Growing a full window by a bounded amount is safe. *)
Lemma grow_safe net0 net incr :
  path_ok net0 -> keeps net0 net -> mod_state net = mod_state net0 ->
  in_u32 (ssthresh net) -> in_u32 (partial_bytes_acked net) -> in_u32 (RTO net) ->
  mtu net - 12 <= cwnd net <= 1073741824 -> 0 <= incr <= 2147483648 ->
  safe_common cap net0 (Some (sctp_enforce_cwnd_limit asoc (net <| cwnd := u32 (cwnd net + incr) |>))).
Proof using Hlim.
  intros Hp Hk Hm Hs Hb Hr Hc Hi.
  assert (12 < mtu net) by (destruct Hk as [-> _]; apply Hp).
  apply safe_enforce; simpl; try done; rewrite u32_id by (unfold in_u32; lia);
    unfold in_u32; lia.
Qed.

Lemma sack_grow_safe sys t net :
  sys_ok sys -> net_ok cap net -> safe_common cap net (sack_grow sys asoc t net).
Proof using Hlim.
  intros Hsys Hn. unfold sack_grow.
  assert (Hfull : forall net', keeps net net' -> cwnd net' = cwnd net -> window_full net' = true ->
    mtu net' - 12 <= cwnd net' <= 1073741824).
  { intros net' Hk Ec Hf. pose proof (keeps_path _ _ (ok_path _ _ Hn) Hk) as Hp'.
    apply window_full_bound in Hf; [|done]. destruct Hk as (-> & _). path_facts. lia. }
  assert (0 <= mtu net * sctp_L2_abc_variable sys <= 1073741824) by (path_facts; nia).
  destruct (cwnd net <=? ssthresh net).
  - destruct (window_full net) eqn:Hf; [|auto]. rewrite slow_start_incr_eq. cbn [mbind option_bind].
    apply grow_safe; try done; try apply Hn; [by apply Hfull|].
    rewrite (u32_id (_ * _)) by (unfold in_u32; lia). path_facts. lia.
  - set (net1 := net <| partial_bytes_acked := _ |>).
    destruct (window_full net1 && _) eqn:Hf.
    + apply andb_true_iff in Hf as [Hf _]. rewrite avoidance_incr_eq. cbn [mbind option_bind].
      apply (grow_safe net (net1 <| partial_bytes_acked := u32 (partial_bytes_acked net1 - cwnd net1) |>));
        try done; try apply Hn; try apply u32_range.
      * apply (Hfull (net1 <| partial_bytes_acked := u32 (partial_bytes_acked net1 - cwnd net1) |>)); done.
      * subst net1. simpl. path_facts. lia.
    + rewrite <- (set_cwnd_same net1), set_cwnd_alone.
      apply (safe_update cap net (cwnd net) (ssthresh net) (u32 (partial_bytes_acked net + net_ack net))
               (RTO net)); try apply Hn. apply u32_range.
Qed.
End Common.

(** ** HighSpeed TCP: the place in the table *)

Definition hs_ok (cap : Z) (net : sctp_nets) : Prop := 0 <= last_hs_used net < 73.

Lemma hs_rows_ok :
  Forall (fun row => 1 <= increase row <= 73 /\ 9 <= drop_percent row <= 50) sctp_cwnd_adjust.
Proof. repeat constructor; simpl; lia. Qed.

Lemma hs_search_range v l i k : hs_search v i l = Some k -> (i <= k < i + length l)%nat.
Proof.
  revert i. induction l as [|row l IH]; simpl; intros i E; [done|].
  destruct (v <? hs_cwnd row); simplify_eq; [lia|]. apply IH in E. lia.
Qed.

Lemma hs_row i : (i < 73)%nat -> exists row, sctp_cwnd_adjust !! i = Some row /\
  1 <= increase row <= 73 /\ 9 <= drop_percent row <= 50.
Proof.
  intros Hi. destruct (lookup_lt_is_Some_2 sctp_cwnd_adjust i) as [row E]; [exact Hi|].
  exists row. split; [done|]. exact (Forall_lookup_1 _ _ _ _ hs_rows_ok E).
Qed.

(** The row found is one of the table, and not before the last one used. *)
Lemma hs_indx_range v (last : nat) :
  (last < 73)%nat ->
  (last <= default (SCTP_HS_TABLE_SIZE - 1)%nat (hs_search v last (drop last sctp_cwnd_adjust)) < 73)%nat.
Proof.
  intros Hl. destruct (hs_search v last _) as [k|] eqn:E; unfold SCTP_HS_TABLE_SIZE; simpl; [|lia].
  apply hs_search_range in E. rewrite length_drop in E. change (length sctp_cwnd_adjust) with 73%nat in E. lia.
Qed.

Section Hs.
Context (asoc : sctp_association).
Hypothesis Hlim : limits_ok asoc.
#[local] Abbreviation cap := (max_cwnd asoc).

(** Limiting the window after a change that sets the table index, too. *)
Lemma safe_enforce_hs net0 net :
  path_ok net0 -> keeps net0 net -> in_u32 (ssthresh net) -> in_u32 (partial_bytes_acked net) ->
  in_u32 (RTO net) -> in_u32 (cwnd net) -> mtu net - 12 <= cwnd net -> 0 <= last_hs_used net < 73 ->
  safe cap (hs_ok cap) net0 (Some (sctp_enforce_cwnd_limit asoc net)).
Proof using Hlim.
  intros Hp Hk Hs Hb Hr Hc Hl Hh.
  destruct (safe_enforce asoc net net) as (net' & E & Hn & Hk' & Hm); try done.
  { by eapply keeps_path. }
  exists net'. split; [done|]. split; [done|]. split; [by eapply keeps_trans|].
  unfold hs_ok. by injection Hm as _ _ ->.
Qed.

Lemma hs_increase_safe net :
  net_ok cap net -> hs_ok cap net -> cwnd net <= 1073741824 ->
  safe cap (hs_ok cap) net (sctp_hs_cwnd_increase asoc net).
Proof using Hlim.
  intros Hn Hh Hc. unfold sctp_hs_cwnd_increase.
  destruct (Z.shiftr (cwnd net) 10 <? hs_floor).
  - cbn [mbind option_bind].
    apply safe_enforce_hs; try (zbool; simpl; first [done|apply Hn|by split_and!|apply u32_range]).
    zbool; simpl; cong_lia.
  - destruct (hs_indx_range (Z.shiftr (cwnd net) 10) (Z.to_nat (last_hs_used net))) as [H1 H2];
      [unfold hs_ok in Hh; lia|].
    set (indx := default _ _) in *. clearbody indx.
    destruct (hs_row indx H2) as (row & -> & Hi & _). cbn [mbind option_bind].
    apply safe_enforce_hs; simpl; try done; try apply Hn; try apply u32_range.
    + rewrite Z.shiftl_mul_pow2 by lia. cong_lia.
    + unfold u8. rewrite Z.mod_small; lia.
Qed.

Lemma hs_decrease_safe net :
  net_ok cap net -> hs_ok cap net -> safe cap (hs_ok cap) net (sctp_hs_cwnd_decrease asoc net).
Proof using Hlim.
  intros Hn Hh. unfold sctp_hs_cwnd_decrease.
  destruct (Z.shiftr (cwnd net) 10 <? hs_floor) eqn:Ef.
  - cbn [mbind option_bind].
    apply safe_enforce_hs; try (zbool; simpl; first [done|apply Hn|by split_and!]).
    all: simpl; cong_lia.
  - destruct (hs_row (Z.to_nat (last_hs_used net))) as (row & -> & _ & Hd); [unfold hs_ok in Hh; lia|].
    cbn [mbind option_bind].
    assert (Hb : in_u32 (u32 (cwnd net - u32 (cwnd net / 100 * drop_percent row))) /\
      mtu net - 12 <= u32 (cwnd net - u32 (cwnd net / 100 * drop_percent row))).
    { apply Z.ltb_ge in Ef. rewrite Z.shiftr_div_pow2 in Ef by lia. change hs_floor with 38 in Ef.
      change (2 ^ 10) with 1024 in Ef. destruct Hn as [Hp [Hc _] _ _ _]. unfold in_u32 in Hc.
      assert (Hq : 0 <= cwnd net / 100 * drop_percent row <= cwnd net / 2)
        by (Z.div_mod_to_equations; nia).
      rewrite (u32_id (_ * _)) by (unfold in_u32; Z.div_mod_to_equations; lia).
      rewrite u32_id by (unfold in_u32; Z.div_mod_to_equations; lia).
      destruct Hp as [Hm _ _ _ _ _]. unfold in_u32. Z.div_mod_to_equations. lia. }
    destruct Hb as [Hb1 Hb2].
    apply safe_enforce_hs; simpl; try (case_match; simpl; first [done|apply Hn|by split_and!]).
    apply Hn.
Qed.
End Hs.

(** ** The RTT-based module: with a limit on the window and without the
    data-center reaction to ECN *)

Definition rtcc_ok (cap : Z) (net : sctp_nets) : Prop :=
  use_dccc_ecn (rtcc net) = 0 /\ 0 < cap <= 2147483648.

Section Rtcc.
Context (sys : sysctl) (asoc : sctp_association).
Hypothesis Hlim : limits_ok asoc.
#[local] Abbreviation cap := (max_cwnd asoc).

(** [net'] is a good successor of [net]. *)
Definition rtcc_next (net net' : sctp_nets) : Prop :=
  net_ok cap net' /\ keeps net net' /\ rtcc_ok cap net'.

Lemma rtcc_next_refl net : net_ok cap net -> rtcc_ok cap net -> rtcc_next net net.
Proof. intros. unfold rtcc_next. by split_and!. Qed.

Lemma rtcc_next_trans net1 net2 net3 :
  rtcc_next net1 net2 -> rtcc_next net2 net3 -> rtcc_next net1 net3.
Proof. intros (_ & Hk & _) (? & ? & ?). split; [done|]. split; [by eapply keeps_trans|done]. Qed.

(** Bookkeeping in the module's structure. *)
Lemma rtcc_next_set net c :
  net_ok cap net -> rtcc_ok cap net -> use_dccc_ecn c = use_dccc_ecn (rtcc net) ->
  rtcc_next net (net <| rtcc := c |>).
Proof.
  intros [Hp Hw Hs Hb Hr] [Hd Hc] E.
  split; [|split; [done|split; [simpl; congruence|done]]].
  constructor; try done. eapply keeps_path; [exact Hp|by split_and!].
Qed.

Lemma count_step_dccc c : use_dccc_ecn (count_step c).2 = use_dccc_ecn c.
Proof. done. Qed.

Lemma step_down_next net :
  net_ok cap net -> rtcc_ok cap net -> rtcc_next net (step_down net).2.
Proof.
  intros Hn Hm. unfold step_down.
  destruct (Z.ltb_spec (u32 (4 * mtu net)) (cwnd net)) as [Hlt|]; simpl.
  - rewrite u32_id in Hlt by (path_facts; unfold in_u32; lia).
    assert (Hn' : net_ok cap (net <| cwnd := u32 (cwnd net - mtu net) |>)).
    { rewrite set_cwnd_alone.
      destruct (safe_update cap net (u32 (cwnd net - mtu net)) (ssthresh net)
                  (partial_bytes_acked net) (RTO net)) as (x & Hx & ? & _); try apply Hn;
        [|by injection Hx as <-].
      unfold win_ok; simpl. cong_lia. }
    eapply (rtcc_next_trans _ (net <| cwnd := _ |>)); [split_and!; [exact Hn'|done|exact Hm]|].
    by apply rtcc_next_set.
  - by apply rtcc_next_set.
Qed.

Lemma lock_bw_next nbw net net' : rtcc_next net net' -> rtcc_next net (lock_bw nbw net').
Proof.
  intros H. eapply rtcc_next_trans; [exact H|]. destruct H as (? & _ & ?). by apply rtcc_next_set.
Qed.

Lemma cc_bw_same_next net nbw off ind :
  net_ok cap net -> rtcc_ok cap net -> rtcc_next net (cc_bw_same net nbw off ind).2.
Proof.
  intros Hn Hm. unfold cc_bw_same.
  assert (Hcount : rtcc_next net (net <| rtcc := (count_step (rtcc net)).2 |>))
    by by apply rtcc_next_set.
  assert (Hdown : rtcc_next net (step_down (net <| rtcc := (count_step (rtcc net)).2 |>)).2)
    by (eapply rtcc_next_trans; [exact Hcount|]; destruct Hcount as (? & _ & ?);
        by apply step_down_next).
  pose proof (rtcc_next_refl net Hn Hm) as Hrefl.
  destruct (count_step (rtcc net)) as [down c'] eqn:Ec. cbn [snd] in *.
  destruct (_ <? rtt net); [|destruct (rtt net <? _)].
  - by destruct (_ && _), down.
  - destruct (negb _); [|by apply lock_bw_next].
    destruct (_ && _); [by apply rtcc_next_set|]. apply lock_bw_next. by apply rtcc_next_set.
  - destruct (_ && _); [|by destruct (_ || _)].
    destruct down; [|by destruct (_ || _)].
    destruct (step_down _) as [[] net'] eqn:Es; cbn [snd] in *; [done|]. by destruct (_ || _).
Qed.

Lemma take_back_next net ind st :
  net_ok cap net -> rtcc_ok cap net -> rtcc_next net (take_back asoc net ind st).
Proof using Hlim.
  intros Hn Hm. unfold take_back.
  destruct (steady_step (rtcc net) =? 0); [by apply rtcc_next_refl|].
  set (net1 := if (_ : bool) then _ else _).
  assert (H1 : rtcc_next net net1).
  { subst net1. destruct (_ && _); [|by apply rtcc_next_refl].
    destruct (safe_enforce asoc net (net <| cwnd := u32 (cwnd net + mtu net) |>))
      as (x & Hx & Hnx & Hkx & Hmx); simpl; try done; try apply Hn; try apply u32_range.
    { destruct Hm as [_ Hc]. cong_lia. }
    injection Hx as Ex. rewrite Ex.
    assert (Hmx' : rtcc_ok cap x)
      by (injection Hmx as _ E _ _; unfold rtcc_ok; rewrite E; exact Hm).
    eapply (rtcc_next_trans _ x); [done|]. by apply rtcc_next_set. }
  eapply rtcc_next_trans; [exact H1|]. destruct H1 as (? & _ & ?). by apply rtcc_next_set.
Qed.

Lemma cc_bw_decrease_next net nbw off ind :
  net_ok cap net -> rtcc_ok cap net -> rtcc_next net (cc_bw_decrease asoc net nbw off ind).2.
Proof using Hlim.
  intros Hn Hm. unfold cc_bw_decrease.
  assert (Hback : forall st, rtcc_next net (lock_bw nbw (take_back asoc net ind st))).
  { intros st. apply lock_bw_next. by apply take_back_next. }
  destruct (_ <? rtt net); [|destruct (rtt net <? _)]; [|apply Hback..].
  destruct (_ && _); [|apply Hback]. simpl.
  destruct (negb _); [|by apply rtcc_next_refl].
  split_and!; [|done|apply Hm..].
  constructor; simpl; try apply Hn; try done; [|apply u32_range].
  eapply keeps_path; [apply Hn|by split_and!].
Qed.

Lemma cc_bw_limit_next net nbw :
  net_ok cap net -> rtcc_ok cap net -> rtcc_next net (cc_bw_limit sys asoc net nbw).2.
Proof using Hlim.
  intros Hn Hm. unfold cc_bw_limit.
  assert (H1 : rtcc_next net (inst_indication sys net nbw).2).
  { unfold inst_indication. pose proof (rtcc_next_refl net Hn Hm).
    repeat (case_match; try done); by apply rtcc_next_set. }
  destruct (inst_indication sys net nbw) as [ind net1]. cbn [snd] in H1.
  destruct H1 as (Hn1 & Hk1 & Hm1).
  match goal with |- context [let '(_, _) := ?e in _] => assert (H2 : rtcc_next net1 e.2) end.
  { destruct (_ <? nbw).
    - apply lock_bw_next. destruct (_ =? 0); [by apply rtcc_next_refl|by apply rtcc_next_set].
    - destruct (nbw <? _); [by apply cc_bw_decrease_next|by apply cc_bw_same_next]. }
  destruct (if _ <? nbw then _ else _) as [ret net2]. cbn [snd] in *.
  eapply rtcc_next_trans; [by split_and!|]. eapply rtcc_next_trans; [exact H2|].
  destruct H2 as (? & _ & ?). by apply rtcc_next_set.
Qed.

Lemma sack_measure_next use_rtcc net :
  net_ok cap net -> rtcc_ok cap net -> rtcc_next net (sack_measure sys asoc use_rtcc net).2.
Proof using Hlim.
  intros Hn Hm. unfold sack_measure.
  destruct (_ && _); [|by apply rtcc_next_refl].
  destruct (negb _).
  - match goal with |- context [cc_bw_limit ?a ?b ?c ?d] =>
      pose proof (cc_bw_limit_next c d Hn Hm) as H; destruct (cc_bw_limit a b c d) end.
    exact H.
  - simpl. apply rtcc_next_set; [done..|]. by case_match.
Qed.

Lemma new_transmission_next net :
  sys_ok sys -> net_ok cap net -> rtcc_ok cap net ->
  rtcc_next net (sctp_cwnd_new_rtcc_transmission_begins sys asoc net).
Proof using Hlim.
  intros Hsys Hn Hm. unfold sctp_cwnd_new_rtcc_transmission_begins.
  destruct (lbw (rtcc net) =? 0); [by apply rtcc_next_refl|].
  assert (H2 : rtcc_next net (upd_rtcc forget_bandwidth net)).
  { apply rtcc_next_set; [done..|]. unfold forget_bandwidth. by case_match. }
  revert H2. generalize (upd_rtcc forget_bandwidth net) as net2. intros net2 H2.
  destruct (ret_from_eq (rtcc net2) =? 0); [done|].
  destruct (Z.ltb_spec (initial_window sys asoc net2) (cwnd net2)) as [Hlt|]; [|done].
  destruct H2 as (Hn2 & Hk2 & Hm2).
  destruct (initial_window_range asoc Hlim sys net2) as [Hi1 Hi2]; [done|apply Hn2|].
  split_and!; [|done|apply Hm2..].
  rewrite set_cwnd_alone.
  destruct (safe_update cap net2 (initial_window sys asoc net2) (ssthresh net2)
              (partial_bytes_acked net2) (RTO net2)) as (x & Hx & ? & _); try apply Hn2;
    [|by injection Hx as <-].
  unfold win_ok; simpl. path_facts. split_and!; [done|done|lia].
Qed.
End Rtcc.

(** ** H-TCP: with a limit on the window, and a measured round-trip time of at least
    a millisecond *)

Record htcp_wf (ca : htcp) : Prop := HtcpWf {
  ok_alpha : 1 <= alpha ca < 65536;
  ok_beta : BETA_MIN <= beta ca <= BETA_MAX;
  ok_minRTT : 0 <= minRTT ca < 268435456;
  ok_bytecount : in_u32 (bytecount ca)
}.

Definition htcp_ok (cap : Z) (net : sctp_nets) : Prop :=
  htcp_wf (htcp_ca net) /\ 8 <= lastsa net /\ 0 < cap <= 2147483648.

Section Htcp.
Context (sys : sysctl) (ticks : Z) (asoc : sctp_association).
Hypothesis Hlim : limits_ok asoc.
#[local] Abbreviation cap := (max_cwnd asoc).

(** A change of the module's structure alone. *)
Lemma set_htcp_safe net ca :
  net_ok cap net -> htcp_wf ca -> 8 <= lastsa net /\ 0 < cap <= 2147483648 ->
  safe cap (htcp_ok cap) net (Some (net <| htcp_ca := ca |>)).
Proof.
  intros [Hp Hw Hs Hb Hr] Hca Hl. eexists. split; [reflexivity|].
  split; [|split; [done|by split]]. constructor; try done.
  eapply keeps_path; [exact Hp|by split_and!].
Qed.

(** Two safe steps in a row. *)
Lemma safe_bind net o k :
  safe cap (htcp_ok cap) net o ->
  (forall net', net_ok cap net' -> htcp_ok cap net' -> safe cap (htcp_ok cap) net' (k net')) ->
  safe cap (htcp_ok cap) net (o ≫= k).
Proof.
  intros (net1 & -> & Hn & Hk & Hm) H. destruct (H net1 Hn Hm) as (net2 & E & Hn2 & Hk2 & Hm2).
  exists net2. split; [exact E|]. split; [done|]. split; [by eapply keeps_trans|done].
Qed.

Lemma beta_update_wf ca a b :
  htcp_wf ca ->
  exists ca', htcp_beta_update ca a b = Some ca' /\ htcp_wf ca' /\ minRTT ca' = minRTT ca.
Proof.
  intros [Ha Hb Hm Hc]. unfold htcp_beta_update.
  destruct (negb (between _ _ _)); [eexists; split; [reflexivity|]; split; [|done];
    constructor; simpl; unfold BETA_MIN, BETA_MAX; done || lia|].
  destruct (_ && negb (b =? 0)) eqn:E.
  - rewrite udiv_some by lia. eexists. split; [reflexivity|].
    simpl. unfold BETA_MIN, BETA_MAX in *. zbool; (split; [|done]);
      constructor; simpl; unfold BETA_MIN, BETA_MAX; done || lia.
  - eexists; split; [reflexivity|]; split; [|done];
    constructor; simpl; unfold BETA_MIN, BETA_MAX; done || lia.
Qed.

Lemma alpha_update_wf ca :
  htcp_wf ca -> exists ca', htcp_alpha_update ticks ca = Some ca' /\ htcp_wf ca' /\
    minRTT ca' = minRTT ca.
Proof.
  intros [Ha Hb Hm Hc]. unfold htcp_alpha_update.
  set (o := if negb (minRTT ca =? 0) then _ else _).
  assert (Ho : exists fa, o = Some fa).
  { subst o. destruct (Z.eqb_spec (minRTT ca) 0); cbn [negb]; [eauto|].
    rewrite udiv_some by (rewrite u32_id by (unfold in_u32; lia); lia). cbn [mbind option_bind].
    rewrite udiv_some; [eauto|]. unfold cmin, cmax. zbool; lia. }
  destruct Ho as [fa ->]. cbn [mbind option_bind]. simpl.
  eexists. split; [reflexivity|].
  match goal with |- context [u16 ?e] => pose proof (u16_range e) as Hr end.
  unfold in_u16 in Hr. zbool; (split; [|done]); constructor; simpl; done || (unfold ALPHA_BASE; lia).
Qed.

Lemma param_update_safe net :
  net_ok cap net -> htcp_ok cap net -> safe cap (htcp_ok cap) net (htcp_param_update ticks net).
Proof.
  intros Hn [Hw Hl]. unfold htcp_param_update.
  destruct (beta_update_wf (htcp_ca net) (minRTT (htcp_ca net)) (maxRTT (htcp_ca net)) Hw)
    as (ca1 & -> & Hw1 & E1). cbn [mbind option_bind].
  destruct (alpha_update_wf ca1 Hw1) as (ca2 & -> & Hw2 & E2). cbn [mbind option_bind].
  apply set_htcp_safe; try done. case_match; [|done]. destruct Hw2. by constructor.
Qed.

Lemma congestion_safe net :
  net_ok cap net -> htcp_ok cap net ->
  exists net', htcp_congestion ticks net = Some net' /\ net_ok cap net' /\ keeps net net' /\
    htcp_ok cap net' /\ 2 * mtu net <= ssthresh net'.
Proof.
  intros Hn [Hw Hl]. unfold htcp_congestion, htcp_recalc_ssthresh.
  destruct (set_htcp_safe net (htcp_reset ticks (htcp_ca net))) as (net1 & E1 & Hn1 & Hk1 & Hm1);
    [done|destruct Hw; by constructor|done|].
  injection E1 as ->.
  destruct (param_update_safe net1) as (net2 & -> & Hn2 & Hk2 & Hm2); [done..|].
  cbn [mbind option_bind]. rewrite udiv_some by (path_facts; lia). cbn [mbind option_bind].
  eexists. split; [reflexivity|].
  assert (Hk : keeps net net2) by by eapply keeps_trans.
  assert (Hs : forall x, in_u32 x -> in_u32 (cmax x (u32 (2 * mtu net2)))
             /\ 2 * mtu net <= cmax x (u32 (2 * mtu net2))).
  { intros x Hx. assert (mtu net2 = mtu net) as -> by apply Hk. unfold cmax. path_facts.
    rewrite (u32_id (2 * _)) by (unfold in_u32; lia). zbool; unfold in_u32 in *; lia. }
  split; [constructor|]; simpl; try apply Hn2; try (apply Hs, u32_range).
  - eapply keeps_path; [apply Hn2|done].
  - split; [exact Hk|]. split; [exact Hm2|]. apply Hs, u32_range.
Qed.

(** The window after a congestion event. *)
Lemma htcp_set_window net0 net :
  net_ok cap net0 -> keeps net0 net -> htcp_ok cap net -> in_u32 (cwnd net) ->
  in_u32 (ssthresh net) -> in_u32 (partial_bytes_acked net) -> in_u32 (RTO net) ->
  mtu net - 12 <= cwnd net ->
  safe cap (htcp_ok cap) net0 (Some (sctp_enforce_cwnd_limit asoc net)).
Proof using Hlim.
  intros Hn Hk Hm Hc Hs Hb Hr Hlow.
  assert (Hp : path_ok net) by (eapply keeps_path; [apply Hn|done]).
  destruct (safe_enforce asoc net net) as (net' & E & Hn' & Hk' & Hm'); try done.
  exists net'. split; [done|]. split; [done|]. split; [by eapply keeps_trans|].
  unfold htcp_ok in *. by injection Hm' as -> _ _ ->.
Qed.

Lemma htcp_reduce_safe net :
  net_ok cap net -> htcp_ok cap net -> safe cap (htcp_ok cap) net (htcp_reduce ticks asoc net).
Proof using Hlim.
  intros Hn Hm. unfold htcp_reduce.
  destruct (congestion_safe net) as (net1 & -> & Hn1 & Hk1 & Hm1 & Hs); [done..|].
  cbn [mbind option_bind]. apply htcp_set_window; simpl; try done; try apply Hn1.
  destruct Hk1 as (-> & _). path_facts. lia.
Qed.

Lemma htcp_timeout_safe net :
  net_ok cap net -> htcp_ok cap net ->
  safe cap (htcp_ok cap) net (sctp_htcp_cwnd_update_after_timeout ticks net).
Proof.
  intros Hn Hm. unfold sctp_htcp_cwnd_update_after_timeout.
  destruct (congestion_safe net) as (net1 & -> & Hn1 & Hk1 & Hm1 & Hs); [done..|].
  cbn [mbind option_bind]. eexists. split; [reflexivity|].
  split; [constructor|split; [exact Hk1|exact Hm1]]; simpl; try apply Hn1; try done.
  - eapply keeps_path; [apply Hn1|done].
  - unfold win_ok; simpl. path_facts. unfold in_u32. lia.
Qed.

Lemma htcp_ecn_safe net w :
  net_ok cap net -> htcp_ok cap net ->
  safe cap (htcp_ok cap) net (sctp_htcp_cwnd_update_after_ecn_echo ticks asoc net w).
Proof using Hlim.
  intros Hn Hm. unfold sctp_htcp_cwnd_update_after_ecn_echo.
  destruct (w =? 0); [|by exists net].
  destruct (congestion_safe net) as (net1 & -> & Hn1 & Hk1 & Hm1 & Hs); [done..|].
  cbn [mbind option_bind].
  destruct (Z.ltb_spec (ssthresh net1) (mtu net1)) as [Hlt|].
  { destruct Hk1 as (E & _). path_facts. lia. }
  apply htcp_set_window; simpl; try done; try apply Hn1. lia.
Qed.

Lemma measure_rtt_safe net :
  net_ok cap net -> htcp_ok cap net -> safe cap (htcp_ok cap) net (measure_rtt ticks net).
Proof.
  intros Hn [[Ha Hb Hm Hc] Hl]. unfold measure_rtt.
  assert (Hs : 1 <= Z.shiftr (lastsa net) SCTP_RTT_SHIFT < 268435456).
  { unfold SCTP_RTT_SHIFT. rewrite Z.shiftr_div_pow2 by lia. change (2 ^ 3) with 8.
    path_facts. unfold in_i32 in *. Z.div_mod_to_equations. lia. }
  rewrite (u32_id (Z.shiftr _ _)) by (unfold in_u32; lia).
  set (srtt := Z.shiftr _ _) in *. clearbody srtt.
  set (ca := if (_ || _) then _ else _).
  assert (Hw : htcp_wf ca /\ 1 <= minRTT ca).
  { subst ca. destruct (_ || _) eqn:E; simpl; (split; [by constructor|lia]) || idtac.
    split; [constructor; simpl; done || lia|lia]. }
  destruct Hw as [Hw Hpos]. clearbody ca.
  destruct (_ && _); [|by apply set_htcp_safe].
  unfold htcp_ccount. rewrite udiv_some by lia. cbn [mbind option_bind].
  apply set_htcp_safe; [done| |done]. destruct Hw as [Ha' Hb' Hm' Hc'].
  repeat case_match; by constructor.
Qed.

Lemma throughput_safe net :
  net_ok cap net -> htcp_ok cap net ->
  safe cap (htcp_ok cap) net (measure_achieved_throughput ticks net).
Proof.
  intros Hn [Hw Hl]. unfold measure_achieved_throughput.
  set (ca := if fast_retran_ip net =? 0 then _ else _).
  assert (Hca : htcp_wf ca) by (destruct Hw; subst ca; case_match; by constructor).
  clearbody ca.
  destruct (fast_retran_ip net =? 1).
  { apply set_htcp_safe; [done| |done]. destruct Hca. by constructor. }
  set (ca1 := ca <| bytecount := _ |>).
  assert (Hca1 : htcp_wf ca1) by (destruct Hca; subst ca1; constructor; simpl; try done; apply u32_range).
  clearbody ca1. destruct (_ && (0 <? minRTT ca1)) eqn:E; [|by apply set_htcp_safe].
  unfold update_throughput, htcp_ccount.
  rewrite (udiv_some _ (mtu net)) by (path_facts; lia). cbn [mbind option_bind].
  rewrite (udiv_some _ (u32 (ticks - lasttime ca1))) by lia. cbn [mbind option_bind].
  rewrite (udiv_some _ (minRTT ca1)) by lia. cbn [mbind option_bind].
  apply set_htcp_safe; [done| |done]. destruct Hca1.
  repeat case_match; by constructor.
Qed.

Lemma cong_avoid_safe net :
  sys_ok sys -> net_ok cap net -> htcp_ok cap net ->
  safe cap (htcp_ok cap) net (htcp_cong_avoid sys ticks asoc net).
Proof using Hlim.
  intros Hsys Hn Hm. unfold htcp_cong_avoid.
  assert (Hmost : 0 <= mtu net * sctp_L2_abc_variable sys <= 1073741824) by (path_facts; nia).
  destruct (cwnd net <=? ssthresh net).
  - destruct (window_full net) eqn:Hf; [|by exists net].
    apply window_full_bound in Hf; [|apply Hn].
    rewrite (u32_id (_ * _)) by (unfold in_u32; lia).
    apply htcp_set_window; try (zbool; simpl; first [done|apply Hn|apply u32_range]).
    zbool; simpl; cong_lia.
  - apply safe_bind; [by apply measure_rtt_safe|]. clear net Hn Hm Hmost. intros net Hn Hm.
    rewrite udiv_some by (path_facts; lia). cbn [mbind option_bind].
    apply safe_bind.
    + destruct (_ <=? _) eqn:Hge.
      * set (net1 := net <| cwnd := _ |> <| partial_bytes_acked := _ |>).
        destruct (htcp_set_window net net1) as (net2 & E2 & Hn2 & Hk2 & Hm2); subst net1; simpl;
          try done; try apply Hn; try apply u32_range.
        { destruct Hm as (_ & _ & Hcap). cong_lia. }
        injection E2 as ->. destruct (alpha_update_wf (htcp_ca net2)) as (ca & -> & Hca & _);
          [apply Hm2|]. cbn [mbind option_bind].
        destruct (set_htcp_safe net2 ca) as (net3 & ? & ? & ? & ?); [done..|apply Hm2|].
        exists net3. split; [done|]. split; [done|]. split; [by eapply keeps_trans|done].
      * eexists. split; [reflexivity|]. split; [constructor|split; [done|exact Hm]]; simpl; try apply Hn.
        -- eapply keeps_path; [apply Hn|done].
        -- apply u32_range.
    + clear net Hn Hm. intros net Hn [Hw Hl]. apply set_htcp_safe; [done| |done]. destruct Hw.
      by constructor.
Qed.
End Htcp.

(** ** The association *)

(** [M cap net] is what a module keeps on a path. *)
Definition nets_ok (M : Z -> sctp_nets -> Prop) (cap : Z) (l : list sctp_nets) : Prop :=
  Forall (fun net => net_ok cap net /\ M cap net) l.

Record asoc_ok (M : Z -> sctp_nets -> Prop) (asoc : sctp_association) : Prop := AsocOk {
  ok_limits : limits_ok asoc;
  ok_nets : nets_ok M (max_cwnd asoc) (nets asoc);
  ok_sent : Forall (fun c => (whoTo c < length (nets asoc))%nat) (sent_queue asoc)
}.

(** The call returns, keeps the invariant, and the module in use. *)
Definition asoc_safe (M : Z -> sctp_nets -> Prop) (asoc : sctp_association)
  (o : option sctp_association) : Prop :=
  exists asoc', o = Some asoc' /\ asoc_ok M asoc' /\
    congestion_control_module asoc' = congestion_control_module asoc.

(** What the association relies on. *)
Class CcModule (M : Z -> sctp_nets -> Prop) (f : cc_functions) : Prop := {
  mod_ext cap net net' : mod_state net' = mod_state net -> M cap net -> M cap net';
  mod_sack asoc am we : asoc_ok M asoc -> asoc_safe M asoc (cc_after_sack f asoc am we);
  mod_fr asoc : asoc_ok M asoc -> asoc_safe M asoc (fst <$> cc_after_fr f asoc);
  mod_timeout asoc net : limits_ok asoc -> net_ok (max_cwnd asoc) net -> M (max_cwnd asoc) net ->
    safe (max_cwnd asoc) (M (max_cwnd asoc)) net (cc_after_timeout f asoc net);
  mod_ecn asoc net w n : limits_ok asoc -> net_ok (max_cwnd asoc) net -> M (max_cwnd asoc) net ->
    safe (max_cwnd asoc) (M (max_cwnd asoc)) net (cc_after_ecn_echo f asoc net w n);
  mod_same_exit_pf : cc_exit_pf f = sctp_cwnd_update_exit_pf_common;
  mod_same_drop : cc_after_packet_dropped f = sctp_cwnd_update_after_packet_dropped;
  mod_same_output : cc_after_output f = sctp_cwnd_update_after_output;
  mod_begins asoc net g : cc_new_transmission_begins f = Some g ->
    limits_ok asoc -> net_ok (max_cwnd asoc) net -> M (max_cwnd asoc) net ->
    safe (max_cwnd asoc) (M (max_cwnd asoc)) net (Some (g asoc net));
  mod_bookkeeping net g :
    cc_packet_transmitted f = Some g \/ cc_prepare_net_for_sack f = Some g \/
    (exists h size, cc_tsn_acknowledged f = Some h /\ g = fun net => h net size) ->
    exists r, g net = net <| rtcc := r |> /\ use_dccc_ecn r = use_dccc_ecn (rtcc net);
  mod_rtcc cap net r : use_dccc_ecn r = use_dccc_ecn (rtcc net) -> M cap net ->
    M cap (net <| rtcc := r |>)
}.

Section Loops.
Context (M : Z -> sctp_nets -> Prop).
Hypothesis Hext : forall cap net net', mod_state net' = mod_state net -> M cap net -> M cap net'.

(** A common function keeps what any module keeps. *)
Lemma safe_of_common cap net o :
  safe_common cap net o -> M cap net -> safe cap (M cap) net o.
Proof using Hext. intros H HM. eapply safe_weaken; [exact H|]. intros net' E. exact (Hext _ _ _ E HM). Qed.

Lemma enter_recovery_ok asoc net :
  net_ok (max_cwnd asoc) net -> M (max_cwnd asoc) net ->
  net_ok (max_cwnd asoc) (fr_enter_recovery asoc net).2 /\
  M (max_cwnd asoc) (fr_enter_recovery asoc net).2.
Proof using Hext.
  intros Hn HM. split; [|exact (Hext _ net (fr_enter_recovery asoc net).2 eq_refl HM)].
  constructor; simpl; try apply Hn; [|done]. eapply keeps_path; [apply Hn|done].
Qed.

(** The loop after a fast retransmit: only the recovery window of the association
    changes. *)
Lemma fr_loop_safe reduce cap l :
  (forall net, net_ok cap net -> M cap net -> safe cap (M cap) net (reduce net)) ->
  nets_ok M cap l ->
  forall asoc i, max_cwnd asoc = cap ->
  exists x y l' r, fr_loop reduce asoc i l =
      Some (asoc <| asoc_fast_retran_loss_recovery := x |> <| asoc_fast_recovery_tsn := y |>, l', r) /\
    nets_ok M cap l' /\ length l' = length l.
Proof using Hext.
  intros Hred. induction 1 as [|net l [Hn HM] Hl IH]; intros asoc i Hc.
  { exists (asoc_fast_retran_loss_recovery asoc), (asoc_fast_recovery_tsn asoc), [], [].
    split_and!; [by destruct asoc|constructor|done]. }
  cbn [fr_loop]. destruct (_ && _).
  - destruct (Hred net Hn HM) as (net' & -> & Hn' & Hk & HM'). cbn [mbind option_bind].
    unfold fr_enter_recovery. cbn [mbind option_bind].
    edestruct IH as (x & y & l' & r & -> & Hl' & Hlen); [shelve|]. cbn [mbind option_bind].
    exists x, y. do 2 eexists. split; [reflexivity|]. split; [|by simpl; rewrite Hlen].
    constructor; [|done]. rewrite <- Hc in *. by apply (enter_recovery_ok asoc net').
    Unshelve. done.
  - cbn [mbind option_bind]. destruct (IH asoc (S i) Hc) as (x & y & l' & r & -> & Hl' & Hlen).
    cbn [mbind option_bind]. exists x, y. do 2 eexists. split; [reflexivity|].
    split; [by constructor|by simpl; rewrite Hlen].
Qed.

(** Replacing the destinations by good ones. *)
Lemma set_nets_ok asoc l :
  asoc_ok M asoc -> nets_ok M (max_cwnd asoc) l -> length l = length (nets asoc) ->
  asoc_ok M (asoc <| nets := l |>).
Proof.
  intros [[? ? ? ? ?] Hn Hs] Hl Hlen. constructor; simpl; [by constructor|done|by rewrite Hlen].
Qed.

Lemma fr_update_safe reduce asoc :
  (forall net, net_ok (max_cwnd asoc) net -> M (max_cwnd asoc) net ->
     safe (max_cwnd asoc) (M (max_cwnd asoc)) net (reduce net)) ->
  asoc_ok M asoc -> asoc_safe M asoc (fst <$> fr_update reduce asoc).
Proof using Hext.
  intros Hred Ha. unfold fr_update.
  destruct (fr_loop_safe reduce (max_cwnd asoc) (nets asoc) Hred (ok_nets _ _ Ha) asoc 0)
    as (x & y & l' & r & -> & Hl' & Hlen); [done|].
  eexists. split; [reflexivity|]. split; [|done].
  apply set_nets_ok; [|done..]. destruct Ha as [[? ? ? ? ?] ? ?]. by constructor.
Qed.

Lemma mod_sack_loop_safe grow asoc am we l :
  (forall net, net_ok (max_cwnd asoc) net -> M (max_cwnd asoc) net ->
     safe (max_cwnd asoc) (M (max_cwnd asoc)) net (grow net)) ->
  nets_ok M (max_cwnd asoc) l ->
  exists l', mod_sack_loop grow asoc am we l = Some l' /\ nets_ok M (max_cwnd asoc) l' /\
    length l' = length l.
Proof.
  intros Hg. induction 1 as [|net l [Hn HM] Hl IH]; [exists []; split; [done|]; split; [constructor|done]|].
  cbn [mod_sack_loop]. destruct IH as (l' & E & Hl' & Hlen). rewrite E.
  destruct (net_ack net =? 0).
  { exists (net :: l'). split; [done|]. split; [by constructor|by simpl; rewrite Hlen]. }
  destruct (_ && _ && _); [exists (net :: l); split_and!; [done|by constructor|done]|].
  destruct (_ || _).
  - destruct (Hg net Hn HM) as (net' & -> & Hn' & _ & HM').
    exists (net' :: l'). split; [done|]. split; [by constructor|by simpl; rewrite Hlen].
  - exists (net :: l'). split; [done|]. split; [by constructor|by simpl; rewrite Hlen].
Qed.

(** The loop of the plain and the RTT-based module. *)
Lemma sack_loop_safe sys asoc am we use t l :
  sys_ok sys -> limits_ok asoc ->
  (forall net, net_ok (max_cwnd asoc) net -> M (max_cwnd asoc) net ->
     net_ok (max_cwnd asoc) (sack_measure sys asoc use net).2 /\
     M (max_cwnd asoc) (sack_measure sys asoc use net).2) ->
  nets_ok M (max_cwnd asoc) l ->
  exists l', sack_loop sys asoc am we use t l = Some l' /\ nets_ok M (max_cwnd asoc) l' /\
    length l' = length l.
Proof using Hext.
  intros Hsys Hlim Hmeas. induction 1 as [|net l [Hn HM] Hl IH]; [exists []; split; [done|]; split; [constructor|done]|].
  cbn [sack_loop]. destruct IH as (l' & E & Hl' & Hlen). rewrite E.
  destruct (net_ack net =? 0).
  { exists (net :: l'). split; [done|]. split; [by constructor|by simpl; rewrite Hlen]. }
  destruct (_ && _ && _); [exists (net :: l); split_and!; [done|by constructor|done]|].
  destruct (Hmeas net Hn HM) as [Hn1 HM1].
  destruct (sack_measure sys asoc use net) as [hold net1]. cbn [snd] in *.
  assert (Hs : exists net2, (if hold then Some net1 else if negb (am =? 0) ||
      ((0 <? sctp_cmt_on_off asoc) && negb (new_pseudo_cumack net1 =? 0))
      then sack_grow sys asoc t net1 else Some net1) = Some net2 /\
      net_ok (max_cwnd asoc) net2 /\ M (max_cwnd asoc) net2).
  { destruct hold; [by exists net1|]. destruct (_ || _); [|by exists net1].
    destruct (sack_grow_safe asoc Hlim sys t net1 Hsys Hn1) as (net2 & -> & ? & _ & Hm2).
    exists net2. split; [done|]. split; [done|]. exact (Hext _ _ _ Hm2 HM1). }
  destruct Hs as (net2 & -> & Hn2 & HM2).
  exists (net2 :: l'). split; [done|]. split; [by constructor|by simpl; rewrite Hlen].
Qed.
End Loops.
