(* ===== verification/CongGrowth.v ===== *)
(** * Congestion control: how windows grow and shrink

    What the reactions of the modules do: growth in slow start and congestion
    avoidance, the reduction after a fast retransmit and after ECN marks, the report
    of a middle box, the rows of HighSpeed TCP; and the inputs on which the code
    divides by zero or lets a window wrap. *)

From S2P Require Import Prelude Serial CongState CongCtl CongMod CongInv CongProps.
Open Scope sctp_scope.

(** ** Growth *)

(** A SACK that moves the cumulative acknowledgement and acknowledges [a] bytes on
    every path. *)
Definition ack_bytes (sys : sysctl) (asoc : sctp_association) (a : Z) : option sctp_association :=
  sctp_cwnd_update_after_sack sys
    (asoc <| nets := map (fun net => net <| net_ack := a |>) (nets asoc) |>) 1 0.

Fixpoint ack_all (sys : sysctl) (asoc : sctp_association) (l : list Z) : option sctp_association :=
  match l with
  | [] => Some asoc
  | a :: l => asoc ← ack_bytes sys asoc a; ack_all sys asoc l
  end.

(** The sum of the acknowledged bytes. *)
Definition total (l : list Z) : Z := fold_right Z.add 0 l.

Section Growth.
Context (sys : sysctl) (asoc : sctp_association).
Hypothesis Hlim : limits_ok asoc.
Hypothesis Hnorec : asoc_fast_retran_loss_recovery asoc = 0.

(** One path, one SACK: the update of the path. *)
Lemma ack_bytes_grow net a :
  nets asoc = [net] -> a <> 0 ->
  exists t, ack_bytes sys asoc a =
    (net' ← sack_grow sys asoc t (net <| net_ack := a |>); Some (asoc <| nets := [net'] |>)).
Proof using Hlim Hnorec.
  intros En Ha. unfold ack_bytes. rewrite En. simpl.
  set (asoc1 := asoc <| nets := [net <| net_ack := a |>] |>).
  assert (Hlim1 : limits_ok asoc1) by (destruct Hlim; by constructor).
  unfold sctp_cwnd_update_after_sack, sctp_cwnd_update_after_sack_common.
  destruct (sack_prepare_plain asoc1 Hlim1) as [t ->]. exists t. cbn [mbind option_bind].
  subst asoc1. cbn [nets set_field set_nets]. cbn [sack_loop]. simpl.
  destruct (Z.eqb_spec a 0); [done|]. rewrite Hnorec. cbn [Z.eqb negb andb sack_measure orb].
  assert (Eg : forall n, sack_grow sys (asoc <| nets := [net <| net_ack := a |>] |>) t n =
    sack_grow sys asoc t n) by done.
  rewrite Eg. by destruct (sack_grow sys asoc t _).
Qed.

(** A full window in slow start, without a limit on windows. *)
Lemma ack_slow_start net a :
  nets asoc = [net] -> 12 < mtu net <= 16384 -> sys_ok sys -> max_cwnd asoc = 0 ->
  0 < a <= mtu net * sctp_L2_abc_variable sys ->
  cwnd net <= ssthresh net -> 0 <= cwnd net <= flight_size net -> flight_size net <= 1000000000 ->
  ack_bytes sys asoc a =
  Some (asoc <| nets := [net <| net_ack := a |> <| cwnd := cwnd net + a |>] |>).
Proof using Hlim Hnorec.
  intros En Hp Hsys Hc Ha Hss Hf Hmax.
  destruct (ack_bytes_grow net a En) as [t ->]; [lia|].
  assert (Habc : mtu net * sctp_L2_abc_variable sys <= 16384 * 16384) by (path_facts; nia).
  unfold sack_grow, window_full. simpl. destruct (Z.leb_spec (cwnd net) (ssthresh net)); [|lia].
  rewrite (u32_id (flight_size net + a)) by (unfold in_u32; lia).
  destruct (Z.leb_spec (cwnd net) (flight_size net + a)); [|lia].
  rewrite slow_start_incr_eq by done. cbn [mbind option_bind]. simpl.
  rewrite (u32_id (_ * _)) by (unfold in_u32; lia). rewrite Z.min_l by lia.
  rewrite u32_id by (unfold in_u32; lia).
  unfold sctp_enforce_cwnd_limit. by rewrite Hc.
Qed.

(** Congestion avoidance. *)
Lemma ack_avoidance net a :
  nets asoc = [net] -> 12 < mtu net <= 16384 -> max_cwnd asoc = 0 -> 0 < a <= 1000000 ->
  ssthresh net < cwnd net <= flight_size net -> flight_size net <= 1000000000 ->
  0 <= partial_bytes_acked net < cwnd net ->
  ack_bytes sys asoc a =
  Some (asoc <| nets :=
    [if partial_bytes_acked net + a <? cwnd net
     then net <| net_ack := a |> <| partial_bytes_acked := partial_bytes_acked net + a |>
     else net <| net_ack := a |> <| partial_bytes_acked := partial_bytes_acked net + a - cwnd net |>
              <| cwnd := cwnd net + mtu net |>] |>).
Proof using Hlim Hnorec.
  intros En Hp Hc Ha Hw Hmax Hpba.
  destruct (ack_bytes_grow net a En) as [t ->]; [lia|].
  unfold sack_grow, window_full. simpl. destruct (Z.leb_spec (cwnd net) (ssthresh net)); [lia|].
  rewrite !(u32_id (_ + a)) by (unfold in_u32; lia).
  destruct (Z.leb_spec (cwnd net) (flight_size net + a)); [|lia]. simpl.
  destruct (Z.ltb_spec (partial_bytes_acked net + a) (cwnd net)),
    (Z.leb_spec (cwnd net) (partial_bytes_acked net + a)); try lia; [done|].
  rewrite avoidance_incr_eq by done. cbn [mbind option_bind]. simpl.
  rewrite !u32_id by (path_facts; unfold in_u32; lia).
  unfold sctp_enforce_cwnd_limit. by rewrite Hc.
Qed.
End Growth.

Lemma total_nonneg l : Forall (fun a => 0 < a) l -> 0 <= total l.
Proof. induction 1; simpl; lia. Qed.

Lemma slow_start_run sys net l : forall asoc c,
  sys_ok sys -> limits_ok asoc -> asoc_fast_retran_loss_recovery asoc = 0 -> max_cwnd asoc = 0 ->
  (exists a, nets asoc = [net <| net_ack := a |> <| cwnd := c |>]) ->
  12 < mtu net <= 16384 -> 0 <= c ->
  Forall (fun a => 0 < a <= mtu net * sctp_L2_abc_variable sys) l ->
  c + total l <= ssthresh net -> c + total l <= flight_size net <= 1000000000 ->
  exists a, ack_all sys asoc l =
    Some (asoc <| nets := [net <| net_ack := a |> <| cwnd := c + total l |>] |>).
Proof.
  induction l as [|a l IH]; intros asoc c Hsys Hl Hr Hcap [a0 En] Hm Hc HF Hss Hf.
  { exists a0. simpl. rewrite Z.add_0_r, <- En. by destruct asoc. }
  inversion_clear HF as [|?? Ha Hrest]. simpl in Hss, Hf.
  assert (0 <= total l) by (apply total_nonneg; eapply Forall_impl; [exact Hrest|]; simpl; lia).
  assert (Habc : mtu net * sctp_L2_abc_variable sys <= 16384 * 16384)
    by (destruct Hsys as [_ Habc _ _]; nia).
  simpl. rewrite (ack_slow_start sys asoc Hl Hr _ a En); simpl; try done; try lia.
  set (asoc1 := asoc <| nets := _ |>).
  destruct (IH asoc1 (c + a)) as [a' E]; subst asoc1; simpl; try done; try lia.
  - destruct Hl; by constructor.
  - by exists a.
  - exists a'. rewrite E. by rewrite Z.add_assoc.
Qed.

Lemma avoidance_run sys net l : forall asoc p,
  limits_ok asoc -> asoc_fast_retran_loss_recovery asoc = 0 -> max_cwnd asoc = 0 ->
  (exists a, nets asoc = [net <| net_ack := a |> <| partial_bytes_acked := p |>]) ->
  12 < mtu net <= 16384 -> 0 <= p ->
  Forall (fun a => 0 < a <= 1000000) l -> ssthresh net < cwnd net <= flight_size net ->
  flight_size net <= 1000000000 -> p + total l < cwnd net ->
  exists a, ack_all sys asoc l =
    Some (asoc <| nets := [net <| net_ack := a |> <| partial_bytes_acked := p + total l |>] |>).
Proof.
  induction l as [|a l IH]; intros asoc p Hl Hr Hcap [a0 En] Hm Hp HF Hw Hf Hsum.
  { exists a0. simpl. rewrite Z.add_0_r, <- En. by destruct asoc. }
  inversion_clear HF as [|?? Ha Hrest]. simpl in Hsum.
  assert (0 <= total l) by (apply total_nonneg; eapply Forall_impl; [exact Hrest|]; simpl; lia).
  simpl. rewrite (ack_avoidance sys asoc Hl Hr _ a En); simpl; try done; try lia.
  destruct (Z.ltb_spec (p + a) (cwnd net)); [|lia].
  set (asoc1 := asoc <| nets := _ |>).
  destruct (IH asoc1 (p + a)) as [a' E]; subst asoc1; simpl; try done; try lia.
  - destruct Hl; by constructor.
  - by exists a.
  - exists a'. rewrite E. by rewrite Z.add_assoc.
Qed.

Lemma ack_all_app sys asoc l1 l2 asoc1 :
  ack_all sys asoc l1 = Some asoc1 -> ack_all sys asoc (l1 ++ l2) = ack_all sys asoc1 l2.
Proof.
  revert asoc. induction l1 as [|a l1 IH]; simpl; intros asoc E; [by injection E as ->|].
  destruct (ack_bytes sys asoc a) as [x|]; [|done]. simpl in *. by apply IH.
Qed.

(** C28. Growth of a window that is kept full, on one path without a limit: in slow
    start the window grows by exactly the acknowledged bytes (so it doubles when a
    window is acknowledged), and in congestion avoidance by exactly one MTU when the
    bytes acknowledged since the last increase reach the window, and not before. *)
Theorem window_growth sys asoc net l a :
  sys_ok sys -> limits_ok asoc -> asoc_fast_retran_loss_recovery asoc = 0 -> max_cwnd asoc = 0 ->
  nets asoc = [net] -> 12 < mtu net <= 16384 -> 0 <= cwnd net -> flight_size net <= 1000000000 ->
  0 < a <= 1000000 ->
  (Forall (fun a => 0 < a <= mtu net * sctp_L2_abc_variable sys) l ->
   cwnd net + total l <= ssthresh net -> cwnd net + total l <= flight_size net ->
   exists net', ack_all sys asoc l = Some (asoc <| nets := [net'] |>) /\
     cwnd net' = cwnd net + total l) /\
  (Forall (fun a => 0 < a <= 1000000) l -> ssthresh net < cwnd net <= flight_size net ->
   0 <= partial_bytes_acked net -> partial_bytes_acked net + total l < cwnd net ->
   cwnd net <= partial_bytes_acked net + total l + a ->
   (exists net', ack_all sys asoc l = Some (asoc <| nets := [net'] |>) /\ cwnd net' = cwnd net) /\
   (exists net', ack_all sys asoc (l ++ [a]) = Some (asoc <| nets := [net'] |>) /\
     cwnd net' = cwnd net + mtu net /\
     partial_bytes_acked net' = partial_bytes_acked net + total l + a - cwnd net)).
Proof.
  intros Hsys Hl Hr Hcap En Hm Hc Hf Ha. split.
  - intros HF Hss Hfl. destruct (slow_start_run sys net l asoc (cwnd net)) as [a' E]; try done.
    { exists (net_ack net). rewrite En. by destruct net. }
    rewrite E. by eexists.
  - intros HF Hw Hp Hsum Hge.
    destruct (avoidance_run sys net l asoc (partial_bytes_acked net)) as [a' E]; try done.
    { exists (net_ack net). rewrite En. by destruct net. }
    split; [rewrite E; by eexists|]. rewrite (ack_all_app _ _ _ _ _ E). simpl.
    assert (0 <= total l) by (apply total_nonneg; eapply Forall_impl; [exact HF|]; simpl; lia).
    erewrite ack_avoidance; [| |done|reflexivity|..]; simpl; try done; try lia;
      [|destruct Hl; by constructor].
    destruct (Z.ltb_spec (partial_bytes_acked net + total l + a) (cwnd net)); [lia|].
    eexists. split; [reflexivity|]. simpl. split; [done|lia].
Qed.

(** Twice 3000 bytes in slow start; 20000 bytes in congestion avoidance. *)
Lemma window_growth_witness :
  (exists net', ack_all ex_sys (ex_asoc [ex_net <| flight_size := 20000 |>]) [3000; 1464]
     = Some ((ex_asoc [ex_net <| flight_size := 20000 |>]) <| nets := [net'] |>) /\ cwnd net' = 8928) /\
  (exists net', ack_all ex_sys
       (ex_asoc [ex_net <| flight_size := 20000 |> <| cwnd := 9000 |> <| ssthresh := 8000 |>])
       ([4000; 4000] ++ [2000])
     = Some ((ex_asoc [ex_net <| flight_size := 20000 |> <| cwnd := 9000 |> <| ssthresh := 8000 |>])
               <| nets := [net'] |>) /\ cwnd net' = 10500 /\ partial_bytes_acked net' = 1000).
Proof.
  split.
  - apply (proj1 (window_growth ex_sys (ex_asoc [ex_net <| flight_size := 20000 |>])
      (ex_net <| flight_size := 20000 |>) [3000; 1464] 1 ex_sys_ok (ex_limits_ok _ 0 ltac:(eval_z))
      eq_refl eq_refl eq_refl ltac:(eval_z) ltac:(eval_z) ltac:(eval_z) ltac:(eval_z)));
      [repeat constructor; eval_z|eval_z|eval_z].
  - eapply (proj2 (window_growth ex_sys
      (ex_asoc [ex_net <| flight_size := 20000 |> <| cwnd := 9000 |> <| ssthresh := 8000 |>])
      (ex_net <| flight_size := 20000 |> <| cwnd := 9000 |> <| ssthresh := 8000 |>) [4000; 4000] 2000
      ex_sys_ok (ex_limits_ok _ 0 ltac:(eval_z)) eq_refl eq_refl eq_refl ltac:(eval_z)
      ltac:(eval_z) ltac:(eval_z) ltac:(eval_z)));
      [repeat constructor; eval_z|eval_z..].
Defined.

(** ** Fast retransmit *)

Lemma set_nets_same asoc : asoc <| nets := nets asoc |> = asoc.
Proof. by destruct asoc. Qed.

(** In recovery, or before a path with acknowledged data, the loop changes nothing. *)
Lemma fr_loop_idle reduce asoc i l :
  sctp_cmt_on_off asoc = 0 ->
  asoc_fast_retran_loss_recovery asoc <> 0 \/ Forall (fun net => net_ack net <= 0) l ->
  fr_loop reduce asoc i l = Some (asoc, l, []).
Proof.
  intros Hcmt Hidle. revert i. induction l as [|net l IH]; intros i; [done|].
  cbn [fr_loop]. rewrite Hcmt.
  assert (((asoc_fast_retran_loss_recovery asoc =? 0) || (0 <? 0)) && (0 <? net_ack net) = false) as ->.
  { destruct Hidle as [H|H]; [|inversion_clear H]; zbool; simpl; lia || done. }
  cbn [mbind option_bind]. rewrite IH; [done|]. destruct Hidle as [H|H]; [by left|right; by inversion_clear H].
Qed.

Lemma fr_loop_app reduce l1 l2 : forall asoc i asoc1 l1' r1,
  fr_loop reduce asoc i l1 = Some (asoc1, l1', r1) ->
  fr_loop reduce asoc i (l1 ++ l2) =
    ('(asoc2, l2', r2) ← fr_loop reduce asoc1 (i + length l1)%nat l2;
     Some (asoc2, l1' ++ l2', r1 ++ r2)).
Proof.
  induction l1 as [|net l1 IH]; intros asoc i asoc1 l1' r1 E.
  { injection E as <- <- <-. simpl. rewrite Nat.add_0_r.
    by destruct (fr_loop reduce asoc i l2) as [[[??]?]|]. }
  cbn [fr_loop app] in *.
  destruct (if _ && _ then _ else _) as [[[a n] r]|]; [|done]. cbn [mbind option_bind] in *.
  destruct (fr_loop reduce a (S i) l1) as [[[a1 l1''] r1']|] eqn:E1; [|done].
  cbn [mbind option_bind] in *. injection E as <- <- <-.
  rewrite (IH _ _ _ _ _ E1). cbn [length]. rewrite <- Nat.add_succ_comm.
  destruct (fr_loop reduce a1 _ l2) as [[[??]?]|]; simpl; [|done]. by rewrite app_assoc.
Qed.

(** The window after the plain reduction. *)
Definition halved (net : sctp_nets) : Z := Z.max (cwnd net / 2) (2 * mtu net).

Lemma fr_reduce_halves asoc net :
  limits_ok asoc -> 12 < mtu net <= 16384 -> in_u32 (cwnd net) ->
  exists net', fr_reduce asoc 0 0 0 net = Some net' /\
    ssthresh net' = halved net /\ cwnd net' = limited (max_cwnd asoc) (mtu net) (halved net).
Proof.
  intros Hl Hm Hc. unfold fr_reduce. rewrite not_pooling by done. cbn [mbind option_bind].
  eexists. split; [reflexivity|]. unfold in_u32 in Hc.
  assert (0 <= cwnd net / 2 < 2147483648) by (Z.div_mod_to_equations; lia).
  simpl. rewrite !(u32_id (_ * _)) by (unfold in_u32; lia).
  unfold halved. destruct (Z.ltb_spec (cwnd net / 2) (mtu net * 2));
    rewrite enforce_eq by (simpl; lia); simpl; (split; [lia|]); f_equal; lia.
Qed.

(** C29. A fast retransmit without concurrent multipath transfer: inside a recovery
    window nothing changes; outside, exactly the first path with newly acknowledged
    data is reduced, to half its window but at least two packets (then limited), its
    timer is restarted, and the recovery window opened ends before the next chunk to
    be sent. *)
Theorem fast_retransmit_once asoc pre net post :
  limits_ok asoc -> sctp_cmt_on_off asoc = 0 -> nets asoc = pre ++ net :: post ->
  12 < mtu net <= 16384 -> in_u32 (cwnd net) ->
  Forall (fun net => net_ack net <= 0) pre -> 0 < net_ack net ->
  (asoc_fast_retran_loss_recovery asoc <> 0 -> sctp_cwnd_update_after_fr asoc = Some (asoc, [])) /\
  (asoc_fast_retran_loss_recovery asoc = 0 -> exists net' asoc',
     sctp_cwnd_update_after_fr asoc = Some (asoc', [length pre]) /\
     nets asoc' = pre ++ net' :: post /\
     ssthresh net' = halved net /\
     cwnd net' = limited (max_cwnd asoc) (mtu net) (halved net) /\
     asoc_fast_retran_loss_recovery asoc' = 1 /\
     asoc_fast_recovery_tsn asoc' = fr_recovery_tsn asoc /\
     sctp_cwnd_update_after_fr asoc' = Some (asoc', [])).
Proof.
  intros Hl Hcmt En Hm Hc Hpre Hack. rewrite after_fr_plain by done.
  split; intros Hrec.
  { unfold fr_update. rewrite fr_loop_idle by auto. simpl. by rewrite set_nets_same. }
  destruct (fr_reduce_halves asoc net Hl Hm Hc) as (net1 & Er & Es & Ec).
  assert (Eloop : fr_loop (fr_reduce asoc 0 0 0) asoc 0 (nets asoc) =
    Some ((fr_enter_recovery asoc net1).1, pre ++ (fr_enter_recovery asoc net1).2 :: post, [length pre])).
  { rewrite En. erewrite fr_loop_app by (apply fr_loop_idle; [done|by right]).
    cbn [fr_loop]. rewrite Hrec, Hcmt. destruct (Z.ltb_spec 0 (net_ack net)); [|lia].
    cbn [Z.eqb orb andb]. rewrite Er. unfold fr_enter_recovery. cbn [mbind option_bind].
    rewrite fr_loop_idle; [done|done|by left]. }
  unfold fr_update. rewrite Eloop. cbn [mbind option_bind].
  do 2 eexists. split; [reflexivity|]. simpl. split_and!; try done.
  set (asoc' := set_field nets _ _).
  assert (Hl' : limits_ok asoc') by (destruct Hl; by constructor).
  rewrite after_fr_plain by done. unfold fr_update.
  rewrite fr_loop_idle; [cbn [mbind option_bind]; by rewrite set_nets_same|done|by left].
Qed.

Lemma fast_retransmit_once_witness :
  exists net' asoc',
    sctp_cwnd_update_after_fr (ex_asoc [ex_net; ex_net <| net_ack := 100 |> <| cwnd := 20000 |>; ex_net])
      = Some (asoc', [1%nat]) /\
    nets asoc' = [ex_net] ++ net' :: [ex_net] /\ ssthresh net' = 10000 /\ cwnd net' = 10000 /\
    asoc_fast_retran_loss_recovery asoc' = 1 /\ asoc_fast_recovery_tsn asoc' = 4989 /\
    sctp_cwnd_update_after_fr asoc' = Some (asoc', []).
Proof.
  apply (proj2 (fast_retransmit_once
    (ex_asoc [ex_net; ex_net <| net_ack := 100 |> <| cwnd := 20000 |>; ex_net])
    [ex_net] (ex_net <| net_ack := 100 |> <| cwnd := 20000 |>) [ex_net]
    (ex_limits_ok _ 0 ltac:(eval_z)) eq_refl eq_refl ltac:(eval_z) ltac:(eval_z)
    ltac:(repeat constructor; eval_z) ltac:(eval_z))).
  reflexivity.
Defined.

(** ** ECN marks *)

(** A sequence of ECN-Echo chunks: length, TSN and number of marked packets. *)
Fixpoint ecn_all (f : cc_functions) (asoc : sctp_association) (l : list (Z * Z * Z)) :
  option sctp_association :=
  match l with
  | [] => Some asoc
  | (len, t, n) :: l => '(asoc, _) ← sctp_handle_ecn_echo f asoc len t n; ecn_all f asoc l
  end.

Section Ecn.
Context (sys : sysctl).
#[local] Abbreviation f := (rfc2581_functions sys).

(** One path: the marked chunk was sent there, or the path is taken by default. *)
Lemma ecn_target_one asoc net t :
  nets asoc = [net] -> Forall (fun c => whoTo c = 0%nat) (sent_queue asoc) ->
  exists ob w, ecn_target asoc t = Some (0%nat, ob, asoc <| nets := [net <| ecn_prev_cwnd := w |>] |>) /\
    (forall c, find_sent (sent_queue asoc) t = Some c -> ob = 0).
Proof.
  intros En Hs. unfold ecn_target.
  assert (Easoc : asoc <| nets := [net <| ecn_prev_cwnd := ecn_prev_cwnd net |>] |> = asoc).
  { rewrite <- (set_nets_same asoc) at 2. rewrite En. by destruct net. }
  destruct (find_sent (sent_queue asoc) t) as [c|] eqn:Ef.
  - assert (Ew : whoTo c = 0%nat).
    { revert Ef Hs. generalize (sent_queue asoc). induction l as [|x l IH]; simpl; [done|].
      intros E Hs. inversion_clear Hs. repeat case_match; simplify_eq; auto. }
    rewrite Ew. unfold on_net. rewrite En. simpl. exists 0, (cwnd_at_send c). by split.
  - exists (match find_cwr_net (nets asoc) 0 t with Some _ => 0 | None => SCTP_CWR_REDUCE_OVERRIDE end),
      (ecn_prev_cwnd net).
    rewrite Easoc, En. cbn [find_cwr_net]. by destruct (t =? last_cwr_tsn net).
Qed.

(** A mark of the same window leaves window and threshold alone. *)
Lemma ecn_same_window asoc net len t n :
  nets asoc = [net] -> Forall (fun c => whoTo c = 0%nat) (sent_queue asoc) ->
  SCTP_TSN_GT t (cwr_window_tsn net) = false ->
  exists net' cwr, sctp_handle_ecn_echo f asoc len t n = Some (asoc <| nets := [net'] |>, cwr) /\
    cwnd net' = cwnd net /\ ssthresh net' = ssthresh net /\ cwr_window_tsn net' = cwr_window_tsn net.
Proof.
  intros En Hs Hgt. unfold sctp_handle_ecn_echo. destruct (_ && _).
  { exists net, None. rewrite <- En, set_nets_same. done. }
  destruct (ecn_target_one asoc net t En Hs) as (ob & w & -> & _). cbn [mbind option_bind].
  simpl. unfold ecn_react. simpl. rewrite Hgt. cbn [andb].
  destruct (_ && _); [|by do 2 eexists].
  simpl. do 2 eexists. split; [reflexivity|]. by destruct (lost_cnt net <? _).
Qed.

(** C30. The plain module reduces a window once per window of data: a mark on a chunk of
    a new window halves it (not below a packet, and then the timeout is doubled), and
    no later mark changes it as long as the TSN is not past the data that was queued
    when it was reduced. *)
Theorem ecn_once_per_window asoc net c n l :
  nets asoc = [net] -> Forall (fun c => whoTo c = 0%nat) (sent_queue asoc) ->
  find_sent (sent_queue asoc) (tsn c) = Some c ->
  SCTP_TSN_GT (tsn c) (cwr_window_tsn net) = true ->
  let wend := match last (send_queue asoc) with
              | Some t => t
              | None => u32 (sending_seq asoc - 1)
              end in
  Forall (fun e => SCTP_TSN_GT e.1.2 wend = false) l ->
  exists net1 net' asoc',
    sctp_handle_ecn_echo f asoc sizeof_ecne (tsn c) n =
      Some (asoc <| nets := [net1] |>, Some (0%nat, tsn c, 0)) /\
    cwnd net1 = Z.max (cwnd net / 2) (mtu net) /\
    RTO net1 = (if cwnd net / 2 <? mtu net then u32 (Z.shiftl (RTO net) 1) else RTO net) /\
    ecn_all f (asoc <| nets := [net1] |>) l = Some asoc' /\
    nets asoc' = [net'] /\ cwnd net' = cwnd net1 /\ ssthresh net' = ssthresh net1.
Proof.
  intros En Hs Hf Hgt wend Hl.
  assert (H1 : exists net1, sctp_handle_ecn_echo f asoc sizeof_ecne (tsn c) n =
      Some (asoc <| nets := [net1] |>, Some (0%nat, tsn c, 0)) /\
    cwnd net1 = Z.max (cwnd net / 2) (mtu net) /\
    RTO net1 = (if cwnd net / 2 <? mtu net then u32 (Z.shiftl (RTO net) 1) else RTO net) /\
    cwr_window_tsn net1 = wend).
  { unfold sctp_handle_ecn_echo. cbn [Z.eqb negb andb].
    destruct (ecn_target_one asoc net (tsn c) En Hs) as (ob & w & -> & Hob).
    rewrite (Hob c Hf). simpl. unfold ecn_react. simpl. rewrite Hgt. simpl.
    eexists. split; [reflexivity|].
    unfold sctp_cwnd_update_after_ecn_echo, sctp_cwnd_update_after_ecn_echo_common. simpl.
    destruct (Z.ltb_spec (cwnd net / 2) (mtu net)); simpl; split_and!; done || lia. }
  destruct H1 as (net1 & E1 & Ec & Er & Ew).
  assert (H2 : forall as2, Forall (fun c => whoTo c = 0%nat) (sent_queue as2) ->
    forall net2, nets as2 = [net2] -> cwr_window_tsn net2 = wend ->
    exists net' asoc', ecn_all f as2 l = Some asoc' /\ nets asoc' = [net'] /\
      cwnd net' = cwnd net2 /\ ssthresh net' = ssthresh net2).
  { clearbody wend. clear -Hl. induction Hl as [|[[len t] k] l Hgt Hl IH]; intros as2 Hs net2 En2 Ew2.
    { by exists net2, as2. }
    simpl in Hgt. rewrite <- Ew2 in Hgt.
    destruct (ecn_same_window as2 net2 len t k En2 Hs Hgt) as (net3 & cwr & E & Ec & Ess & Ew).
    cbn [ecn_all]. rewrite E. cbn [mbind option_bind].
    destruct (IH (as2 <| nets := [net3] |>)) with (net2 := net3) as (net' & asoc' & ? & ? & ? & ?);
      [exact Hs|reflexivity|congruence|]. exists net', asoc'. split_and!; congruence. }
  destruct (H2 (asoc <| nets := [net1] |>)) with (net2 := net1) as (net' & asoc' & ? & ? & ? & ?);
    [exact Hs|reflexivity|done|].
  by exists net1, net', asoc'.
Qed.
End Ecn.

Lemma ecn_once_per_window_witness :
  exists net1 net' asoc',
    sctp_handle_ecn_echo (rfc2581_functions ex_sys) (ex_asoc [ex_net]) sizeof_ecne 4980 1 =
      Some ((ex_asoc [ex_net]) <| nets := [net1] |>, Some (0%nat, 4980, 0)) /\
    cwnd net1 = 2232 /\ RTO net1 = 1000 /\
    ecn_all (rfc2581_functions ex_sys) ((ex_asoc [ex_net]) <| nets := [net1] |>) [(12, 4985, 3); (8, 4991, 0)]
      = Some asoc' /\
    nets asoc' = [net'] /\ cwnd net' = cwnd net1 /\ ssthresh net' = ssthresh net1.
Proof.
  apply (ecn_once_per_window ex_sys (ex_asoc [ex_net]) ex_net (TmitChunk 4980 0 4464) 1
    [(12, 4985, 3); (8, 4991, 0)]); [reflexivity|repeat constructor|reflexivity|reflexivity|].
  repeat constructor.
Defined.

(** ** The report of a middle box *)

(** Less than a packet on the queue: the segments on the queue are zero. *)
Lemma drop_portion_none net q incr :
  0 < mtu net -> 0 <= q < mtu net -> drop_portion net q incr = None.
Proof.
  intros Hm Hq. unfold drop_portion. rewrite !(udiv_some _ (mtu net)) by lia.
  cbn [mbind option_bind]. by rewrite (Z.div_small q) by lia.
Qed.

Lemma drop_overload_none asoc net q b :
  0 < mtu net -> 0 <= q < mtu net -> drop_overload asoc net q b = None.
Proof.
  intros Hm Hq. unfold drop_overload. case_match; by rewrite drop_portion_none.
Qed.

(** The queue the code works with. *)
Lemma on_queue_eq net onq :
  (if onq <? flight_size net then flight_size net else onq) = Z.max onq (flight_size net).
Proof. zbool; lia. Qed.

(** The reaction to a dropped-packet report divides by zero exactly when the larger
    of the reported queue and the flight is over the bandwidth available but below
    one packet; the numbers are the sender's choice, so a report of bandwidth 0 and
    queue 1 stops the stack when less than a packet is in flight and the association
    counts as a satellite network.  Otherwise it returns with a window of at most the
    bandwidth available, or a packet, and not below a packet. *)
Theorem packet_dropped_exact asoc net bw onq f i :
  limits_ok asoc -> net_ok (max_cwnd asoc) net -> in_u32 bw -> in_u32 onq ->
  let q := Z.max onq (flight_size net) in
  let av := bandwidth_available net bw in
  (av < q < mtu net ->
   sctp_cwnd_update_after_packet_dropped asoc net bw onq = None /\
   (cc_after_packet_dropped f = sctp_cwnd_update_after_packet_dropped ->
    nets asoc !! i = Some net -> sat_t3_loss_recovery asoc = 0 -> sat_network asoc <> 0 ->
    packet_dropped_report f asoc i true bw onq = None)) /\
  (~ av < q < mtu net ->
   exists net', sctp_cwnd_update_after_packet_dropped asoc net bw onq = Some (bw, q, net') /\
     cwnd net' <= Z.max (mtu net) av /\ mtu net - 12 <= cwnd net').
Proof.
  intros Hl Hn Hb Hq q av. split.
  - intros [H1 H2].
    assert (E : sctp_cwnd_update_after_packet_dropped asoc net bw onq = None).
    { unfold sctp_cwnd_update_after_packet_dropped. rewrite on_queue_eq. fold q av.
      destruct (Z.ltb_spec av q); [|lia].
      rewrite drop_overload_none; [done|path_facts; lia|]. path_facts. unfold in_u32 in *. lia. }
    split; [done|]. intros Hf Ei Ht3 Hsat. unfold packet_dropped_report. cbn [orb].
    rewrite Ht3. destruct (Z.eqb_spec (sat_network asoc) 0); [done|]. cbn [Z.eqb negb andb].
    unfold on_net. rewrite Ei. simpl. by rewrite Hf, E.
  - intros Hno.
    destruct (packet_dropped_safe asoc Hl net bw onq) as (net' & E & Hn' & Hk & _); try done.
    { fold q av. lia. }
    unfold sctp_cwnd_update_after_packet_dropped in *. rewrite on_queue_eq in *. fold q av in E |- *.
    destruct (if av <? q then _ else _) as [net1|]; [|done]. cbn [mbind option_bind] in *.
    injection E as E. eexists. split; [reflexivity|]. rewrite E.
    split; [|destruct Hk as (<- & _); apply Hn'].
    set (net3 := if cwnd (if av <? cwnd net1 then _ else _) <? _ then _ else _) in E.
    assert (Hm3 : mtu net3 = mtu net).
    { destruct Hk as (<- & _). rewrite <- E. unfold sctp_enforce_cwnd_limit. by repeat case_match. }
    rewrite <- E, enforce_eq by (rewrite Hm3; apply Hn). simpl.
    assert (Hc3 : mtu net3 <= cwnd net3 <= Z.max (mtu net3) av).
    { subst net3. destruct (Z.ltb_spec av (cwnd net1)); simpl; zbool; simpl; lia. }
    pose proof (limited_le (max_cwnd asoc) (mtu net3) (cwnd net3)). lia.
Qed.

Lemma packet_dropped_exact_witness :
  packet_dropped_report (rfc2581_functions ex_sys)
    ((ex_asoc [ex_net <| flight_size := 0 |>]) <| sat_network := 1 |>) 0 true 0 1 = None /\
  exists net', sctp_cwnd_update_after_packet_dropped (ex_asoc [ex_net]) ex_net 1000000 5000
      = Some (1000000, 5000, net') /\
    cwnd net' <= Z.max 1500 (bandwidth_available ex_net 1000000) /\ 1500 - 12 <= cwnd net'.
Proof.
  split.
  - apply (packet_dropped_exact ((ex_asoc [ex_net <| flight_size := 0 |>]) <| sat_network := 1 |>)
      (ex_net <| flight_size := 0 |>) 0 1 (rfc2581_functions ex_sys) 0);
      [|constructor; [constructor; eval_z|eval_z..]|eval_z|eval_z|eval_z|reflexivity..|discriminate].
    constructor; [left; reflexivity|eval_z..].
  - apply (packet_dropped_exact (ex_asoc [ex_net]) ex_net 1000000 5000 (rfc2581_functions ex_sys) 0);
      [exact (ex_limits_ok [ex_net] 0 ltac:(eval_z))|constructor; [constructor; eval_z|eval_z..]|eval_z|eval_z|].
    vm_compute. intros [H _]. discriminate H.
Defined.

(** ** HighSpeed TCP *)

(** The row the comments ask for: the first one whose window is larger. *)
Definition hs_reference (kbytes : Z) : nat :=
  default (SCTP_HS_TABLE_SIZE - 1)%nat (hs_search kbytes 0 sctp_cwnd_adjust).

(** Starting the search at a row that is not past the right one finds the same row. *)
Lemma hs_search_skip v l n i :
  Forall (fun row => hs_cwnd row <= v) (take n l) -> (n <= length l)%nat ->
  hs_search v (i + n) (drop n l) = hs_search v i l.
Proof.
  revert l i. induction n as [|n IH]; intros l i HF Hn; [by rewrite Nat.add_0_r, drop_0|].
  destruct l as [|row l]; simpl in *; [lia|]. inversion_clear HF as [|?? Hr HF'].
  destruct (Z.ltb_spec v (hs_cwnd row)); [lia|].
  rewrite <- (IH l (S i)) by (done || lia). by rewrite Nat.add_succ_r.
Qed.

(** Every row before the reference row has a window that is not larger. *)
Lemma hs_search_before v l i k :
  hs_search v i l = Some k -> Forall (fun row => hs_cwnd row <= v) (take (k - i) l).
Proof.
  revert i. induction l as [|row l IH]; intros i E; simpl in E; [done|].
  destruct (Z.ltb_spec v (hs_cwnd row)).
  - injection E as ->. rewrite Nat.sub_diag. constructor.
  - pose proof (hs_search_range _ _ _ _ E). replace (k - i)%nat with (S (k - S i)) by lia.
    constructor; [done|]. by apply IH.
Qed.

Lemma hs_search_none v l i : hs_search v i l = None -> Forall (fun row => hs_cwnd row <= v) l.
Proof.
  revert i. induction l as [|row l IH]; intros i E; simpl in E; [constructor|].
  destruct (Z.ltb_spec v (hs_cwnd row)); [done|]. constructor; [done|]. by eapply IH.
Qed.

Lemma hs_reference_reached v last :
  (last <= hs_reference v)%nat ->
  default (SCTP_HS_TABLE_SIZE - 1)%nat (hs_search v last (drop last sctp_cwnd_adjust)) = hs_reference v.
Proof.
  unfold hs_reference. intros Hle.
  rewrite <- (hs_search_skip v sctp_cwnd_adjust last 0); [done| |].
  - destruct (hs_search v 0 sctp_cwnd_adjust) as [k|] eqn:E; simpl in Hle.
    + apply hs_search_before in E. rewrite Nat.sub_0_r in E.
      replace last with (last `min` k)%nat by lia. rewrite <- take_take. by apply Forall_take.
    + by eapply Forall_take, hs_search_none.
  - destruct (hs_search v 0 sctp_cwnd_adjust) as [k|] eqn:E; simpl in Hle.
    + apply hs_search_range in E. lia.
    + change (length sctp_cwnd_adjust) with 73%nat. unfold SCTP_HS_TABLE_SIZE in Hle. lia.
Qed.

(** HighSpeed TCP: while the remembered row is not past the right one, an increase
    uses the first row of the table whose window is larger than the current one.  A
    decrease that stays in the range of the table does not move the remembered row
    back (the loop that computes the new row discards it), so the next increase still
    uses at least the row of the larger window. *)
Theorem hs_rows asoc net :
  limits_ok asoc -> max_cwnd asoc = 0 -> net_ok 0 net -> cwnd net <= 1073741824 ->
  0 <= last_hs_used net < 73 -> hs_floor <= Z.shiftr (cwnd net) 10 ->
  (Z.to_nat (last_hs_used net) <= hs_reference (Z.shiftr (cwnd net) 10))%nat ->
  (exists row net', sctp_cwnd_adjust !! hs_reference (Z.shiftr (cwnd net) 10) = Some row /\
     sctp_hs_cwnd_increase asoc net = Some net' /\
     cwnd net' = cwnd net + increase row * 1024 /\
     last_hs_used net' = Z.of_nat (hs_reference (Z.shiftr (cwnd net) 10))) /\
  (forall net1, sctp_hs_cwnd_decrease asoc net = Some net1 -> hs_floor <= Z.shiftr (cwnd net1) 10 ->
     last_hs_used net1 = last_hs_used net).
Proof.
  intros Hl Hcap Hn Hc Hlast Hfl Href.
  assert (Hr : (hs_reference (Z.shiftr (cwnd net) 10) < 73)%nat).
  { rewrite <- (hs_reference_reached _ _ Href). apply hs_indx_range. lia. }
  split.
  - destruct (hs_row _ Hr) as (row & Erow & Hi & _). exists row.
    unfold sctp_hs_cwnd_increase. destruct (Z.ltb_spec (Z.shiftr (cwnd net) 10) hs_floor); [lia|].
    rewrite (hs_reference_reached _ _ Href), Erow. cbn [mbind option_bind].
    eexists. split; [done|]. split; [reflexivity|].
    rewrite enforce_eq by (simpl; apply Hn). simpl. rewrite Hcap. unfold limited. simpl.
    rewrite Z.shiftl_mul_pow2 by lia. change (2 ^ 10) with 1024.
    split; [apply u32_id; path_facts; unfold in_u32 in *; lia|unfold u8; apply Z.mod_small; lia].
  - intros net1. unfold sctp_hs_cwnd_decrease.
    destruct (Z.ltb_spec (Z.shiftr (cwnd net) 10) hs_floor); [lia|].
    destruct (hs_row (Z.to_nat (last_hs_used net))) as (row & -> & _); [lia|].
    cbn [mbind option_bind]. intros E Hfl1. injection E as E. revert Hfl1. rewrite <- E.
    unfold sctp_enforce_cwnd_limit. rewrite Hcap. simpl.
    destruct (Z.ltb_spec (Z.shiftr (u32 (cwnd net - u32 (cwnd net / 100 * drop_percent row))) 10) hs_floor);
      simpl; [|done]. lia.
Qed.

(** Row 3 is used at 300 kilobytes; after a loss at that row the row is kept although
    the window, 186 kilobytes, belongs to row 2. *)
Lemma hs_rows_witness :
  (exists row net', sctp_cwnd_adjust !! hs_reference 300 = Some row /\
     sctp_hs_cwnd_increase (ex_asoc []) (ex_net <| cwnd := 307200 |>) = Some net' /\
     cwnd net' = 307200 + increase row * 1024 /\ last_hs_used net' = 3) /\
  (exists net1, sctp_hs_cwnd_decrease (ex_asoc []) (ex_net <| cwnd := 307200 |> <| last_hs_used := 3 |>)
      = Some net1 /\ last_hs_used net1 = 3 /\ hs_reference (Z.shiftr (cwnd net1) 10) = 2%nat).
Proof.
  split.
  - apply (hs_rows (ex_asoc []) (ex_net <| cwnd := 307200 |>) (ex_limits_ok [] 0 ltac:(eval_z)));
      [reflexivity| |eval_z|eval_z|eval_z|vm_compute; lia].
    constructor; [constructor; eval_z|eval_z..].
  - eexists. split; [reflexivity|]. split; [|reflexivity].
    apply (proj2 (hs_rows (ex_asoc []) (ex_net <| cwnd := 307200 |> <| last_hs_used := 3 |>)
      (ex_limits_ok [] 0 ltac:(eval_z)) eq_refl ltac:(constructor; [constructor; eval_z|eval_z..])
      ltac:(eval_z) ltac:(eval_z) ltac:(eval_z) ltac:(vm_compute; lia))); [reflexivity|eval_z].
Defined.

(** ** Division by zero and wrapping *)

(** A path on which the square of the smoothed round-trip time is 0 in 32 bits. *)
Definition srtt_square_wraps (net : sctp_nets) : Prop :=
  0 < u32 (lastsa net) /\ u32 (u32 (lastsa net) * u32 (lastsa net)) = 0.

Lemma sack_sums_none l : Exists srtt_square_wraps l ->
  forall a b c d, sack_sums l a b c d = None.
Proof.
  induction 1 as [net l [Hpos Hsq]|net l _ IH]; intros a b c d; cbn [sack_sums].
  - destruct (Z.ltb_spec 0 (u32 (lastsa net))); [|lia].
    destruct (udiv _ (u64 (mtu net * u32 (lastsa net)))); [|done]. cbn [mbind option_bind].
    rewrite Hsq, Z.mul_0_r. done.
  - destruct (Z.ltb_spec 0 (u32 (lastsa net))); [|apply IH].
    destruct (udiv _ (u64 (mtu net * u32 (lastsa net)))); [|done]. cbn [mbind option_bind].
    destruct (udiv _ _); [|done]. cbn [mbind option_bind]. apply IH.
Qed.

Lemma fr_loop_none reduce asoc i l :
  0 < sctp_cmt_on_off asoc -> Exists (fun net => 0 < net_ack net) l ->
  (forall net, reduce net = None) -> fr_loop reduce asoc i l = None.
Proof.
  intros Hcmt He Hred. revert asoc i Hcmt. induction He as [net l Hack|net l _ IH]; intros asoc i Hcmt;
    cbn [fr_loop]; (destruct (Z.ltb_spec 0 (sctp_cmt_on_off asoc)); [|lia]); rewrite orb_true_r; cbn [andb].
  - destruct (Z.ltb_spec 0 (net_ack net)); [|lia]. by rewrite Hred.
  - destruct (Z.ltb_spec 0 (net_ack net)); [by rewrite Hred|]. cbn [mbind option_bind].
    by rewrite IH.
Qed.

(** The coupled modes divide by zero.  With the first variant of resource pooling
    a fast retransmit does so when the thresholds of the paths add up to 0 in 32 bits
    (two paths to a peer that announces a window of 2^31 bytes), while the reaction to
    a timeout guards the same division; with each of the three coupled modes every
    acknowledgement does so when the smoothed round-trip time of some path is 8.192
    seconds (65536 in the scaled unit) or another value whose square is 0 in 32 bits. *)
Theorem coupled_modes_divide_by_zero sys asoc net am we use :
  (sctp_cmt_on_off asoc = SCTP_CMT_RPV1 -> u32 (sum_nets ssthresh (nets asoc)) = 0 ->
   Exists (fun net => 0 < net_ack net) (nets asoc) ->
   sctp_cwnd_update_after_fr asoc = None /\
   exists net', sctp_cwnd_update_after_timeout asoc net = Some net' /\ cwnd net' = mtu net) /\
  (sctp_cmt_on_off asoc = SCTP_CMT_RPV1 \/ sctp_cmt_on_off asoc = SCTP_CMT_RPV2 \/
   sctp_cmt_on_off asoc = SCTP_CMT_MPTCP ->
   Exists srtt_square_wraps (nets asoc) ->
   sctp_cwnd_update_after_sack_common sys asoc am we use = None).
Proof.
  split.
  - intros Hcmt Hsum Hack. assert (Hp : pooling asoc = true) by (unfold pooling; by rewrite Hcmt).
    split.
    + unfold sctp_cwnd_update_after_fr, fr_update. rewrite Hp, fr_loop_none; [done| |done|].
      * rewrite Hcmt. reflexivity.
      * intros x. unfold fr_reduce, fr_pooled_ssthresh. rewrite Hp, Hcmt, Hsum. done.
    + unfold sctp_cwnd_update_after_timeout, to_pooled_ssthresh. rewrite Hp, Hcmt, Hsum.
      simpl. eexists. split; [reflexivity|]. simpl. by repeat case_match.
  - intros Hcmt He. unfold sctp_cwnd_update_after_sack_common, sack_prepare, pooling.
    destruct Hcmt as [-> | [-> | ->]]; cbn [Z.eqb orb]; by rewrite sack_sums_none.
Qed.

Lemma coupled_modes_divide_by_zero_witness :
  sctp_cwnd_update_after_fr
    ((ex_asoc [ex_net <| ssthresh := 2147483648 |> <| net_ack := 100 |>;
               ex_net <| ssthresh := 2147483648 |>]) <| sctp_cmt_on_off := SCTP_CMT_RPV1 |>) = None /\
  sctp_cwnd_update_after_sack_common ex_sys
    ((ex_asoc [ex_net; ex_net <| lastsa := 65536 |>]) <| sctp_cmt_on_off := SCTP_CMT_MPTCP |>)
    1 0 false = None.
Proof.
  split.
  - apply (proj1 (coupled_modes_divide_by_zero ex_sys
      ((ex_asoc [ex_net <| ssthresh := 2147483648 |> <| net_ack := 100 |>;
                 ex_net <| ssthresh := 2147483648 |>]) <| sctp_cmt_on_off := SCTP_CMT_RPV1 |>)
      ex_net 1 0 false)); [reflexivity|reflexivity|]. left. reflexivity.
  - apply (proj2 (coupled_modes_divide_by_zero ex_sys
      ((ex_asoc [ex_net; ex_net <| lastsa := 65536 |>]) <| sctp_cmt_on_off := SCTP_CMT_MPTCP |>)
      ex_net 1 0 false)); [right; right; reflexivity|]. right. left. split; reflexivity.
Defined.

(** H-TCP in congestion avoidance divides by zero on a path whose smoothed round-trip
    time is below a millisecond: the least round-trip time seen is then 0. *)
Theorem htcp_divides_by_zero sys ticks asoc net we :
  nets asoc = [net] -> net_ack net <> 0 -> asoc_fast_retran_loss_recovery asoc = 0 ->
  ssthresh net < cwnd net -> ssthresh net < 65535 -> fast_retran_ip net = 0 ->
  minRTT (htcp_ca net) = 0 -> 0 <= lastsa net < 8 ->
  sctp_htcp_cwnd_update_after_sack sys ticks asoc 1 we = None.
Proof.
  intros En Ha Hr Hw Hss Hf Hmin Hl. unfold sctp_htcp_cwnd_update_after_sack. rewrite En.
  cbn [mod_sack_loop]. destruct (Z.eqb_spec (net_ack net) 0); [done|]. rewrite Hr.
  cbn [Z.eqb negb andb orb]. unfold htcp_grow, htcp_cong_avoid.
  destruct (Z.leb_spec (cwnd net) (ssthresh net)); [lia|].
  unfold measure_rtt, SCTP_RTT_SHIFT. rewrite Z.shiftr_div_pow2, (Z.div_small (lastsa net)) by lia.
  rewrite Hmin, Hf. destruct (Z.ltb_spec (ssthresh net) 65535); [|lia]. done.
Qed.

(** The data-center reaction to ECN subtracts a packet per lost packet that the peer
    reports from the window at the time of sending, without looking whether it is
    that large: the window wraps to nearly 2^32 bytes. *)
Theorem dccc_window_wraps net n :
  lan_type net = SCTP_LAN_LOCAL -> use_dccc_ecn (rtcc net) <> 0 -> 0 <= ecn_prev_cwnd net < cwnd net ->
  in_u32 (mtu net * n) -> ecn_prev_cwnd net < mtu net * n ->
  cwnd (sctp_cwnd_update_rtcc_after_ecn_echo net 0 n) =
  4294967296 + ecn_prev_cwnd net - mtu net * n.
Proof.
  intros Hlan Hd Hc Hn Hlt. unfold sctp_cwnd_update_rtcc_after_ecn_echo,
    sctp_cwnd_update_after_ecn_echo_common. rewrite Hlan.
  destruct (Z.eqb_spec (use_dccc_ecn (rtcc net)) 0); [done|]. simpl.
  destruct (Z.ltb_spec (ecn_prev_cwnd net) (cwnd net)); [|lia]. simpl.
  rewrite (u32_id (_ * _)) by done. width_lia.
Qed.
