(* ===== verification/CongRto.v ===== *)
(** * The round-trip estimator and the backoff of the retransmission timeout

    [sctp_calculate_rto] of [sctputil.c] over sequences of measurements, and
    [sctp_backoff_on_timeout] of [sctp_timer.c] over sequences of timeouts. *)

From S2P Require Import Prelude CongState CongCtl CongMod CongInv CongProps.
Open Scope sctp_scope.

(** ** Measurements *)

(** A measurement: the time now, the time it started, and where it comes from. *)
Definition measurement : Type := timeval * timeval * Z.

Fixpoint measure_all (f : cc_functions) (asoc : sctp_association) (net : sctp_nets)
  (l : list measurement) : list Z * sctp_association * sctp_nets :=
  match l with
  | [] => ([], asoc, net)
  | (now, told, from) :: l =>
      let '(rto, asoc, net) := sctp_calculate_rto f asoc net now told from in
      let '(rtos, asoc, net) := measure_all f asoc net l in
      (rto :: rtos, asoc, net)
  end.

(** The time that passed, in microseconds. *)
Definition elapsed (now told : timeval) : Z :=
  (tv_sec now - tv_sec told) * 1000000 + (tv_usec now - tv_usec told).

(** A measurement of [a] to [b] milliseconds. *)
Definition measures (a b : Z) (m : measurement) : Prop :=
  0 <= tv_usec m.1.1 < 1000000 /\ 0 <= tv_usec m.1.2 < 1000000 /\
  1000 * a <= elapsed m.1.1 m.1.2 < 1000 * (b + 1).

Lemma timevalsub_elapsed now told :
  0 <= tv_usec now < 1000000 -> 0 <= tv_usec told < 1000000 -> 0 <= elapsed now told ->
  let d := timevalsub now told in
  tv_sec d * 1000000 + tv_usec d = elapsed now told /\ 0 <= tv_sec d /\ 0 <= tv_usec d < 1000000.
Proof.
  intros Hn Ht He. unfold timevalsub, elapsed in *.
  destruct (Z.ltb_spec (tv_usec now - tv_usec told) 0); simpl; lia.
Qed.

(** What the estimator keeps when all round-trip times are [a] to [b] milliseconds. *)
Definition estimate_ok (a b : Z) (net : sctp_nets) : Prop :=
  RTO_measured net = 0 \/
  (8 * a <= lastsa net <= 8 * b + 7 /\ 0 < lastsv net <= 4 * b + 43).

Lemma update_averages_ok a b net r :
  0 <= a -> b <= 1048576 -> a <= r <= b -> estimate_ok a b net ->
  let net' := update_averages net r in
  RTO_measured net' <> 0 /\ 8 * a <= lastsa net' <= 8 * b + 7 /\ 0 < lastsv net' <= 4 * b + 43.
Proof.
  intros Ha Hb Hr Hest. unfold update_averages, SCTP_RTT_SHIFT, SCTP_RTT_VAR_SHIFT,
    SCTP_CLOCK_GRANULARITY.
  set (net1 := if negb (RTO_measured net =? 0) then _ else _).
  assert (H1 : RTO_measured net1 <> 0 /\ 8 * a <= lastsa net1 <= 8 * b + 7 /\
               0 <= lastsv net1 <= 4 * b + 43).
  { subst net1. destruct (Z.eqb_spec (RTO_measured net) 0) as [E|E]; simpl.
    - rewrite !Z.shiftl_mul_pow2, Z.quot_div_nonneg by lia. change (2 ^ 3) with 8.
      change (2 ^ 2) with 4. rewrite !i32_id by (unfold in_i32; Z.div_mod_to_equations; lia).
      split; [done|]. Z.div_mod_to_equations; lia.
    - destruct Hest as [?|[Hsa Hsv]]; [done|].
      rewrite !Z.shiftr_div_pow2 by lia. change (2 ^ 3) with 8. change (2 ^ 2) with 4.
      assert (Hs : a <= lastsa net / 8 <= b) by (Z.div_mod_to_equations; lia).
      assert (Hv : 4 * (lastsv net / 4) <= lastsv net <= 4 * (lastsv net / 4) + 3)
        by (Z.div_mod_to_equations; lia).
      assert (Hsm : 8 * (lastsa net / 8) <= lastsa net <= 8 * (lastsa net / 8) + 7)
        by (Z.div_mod_to_equations; lia).
      set (s := lastsa net / 8) in *. set (v := lastsv net / 4) in *.
      rewrite (i32_id (r - s)) by (unfold in_i32; lia).
      rewrite (i32_id (- _)) by (unfold in_i32; lia).
      rewrite (i32_id (lastsa net + _)) by (unfold in_i32; lia).
      split; [done|]. split; [lia|].
      destruct (Z.ltb_spec (r - s) 0);
        [rewrite (i32_id (- (r - s) - v)) by (unfold in_i32; lia)
        |rewrite (i32_id (r - s - v)) by (unfold in_i32; lia)];
        rewrite i32_id; unfold in_i32; lia. }
  clearbody net1. destruct H1 as (Hm & Hsa & Hsv).
  destruct (Z.eqb_spec (lastsv net1) 0); simpl; split_and!; done || lia.
Qed.

Lemma clamp_rto_range asoc r :
  minrto asoc <= maxrto asoc -> minrto asoc <= clamp_rto asoc r <= maxrto asoc.
Proof. intros. unfold clamp_rto. zbool; lia. Qed.

Lemma calculate_rto_ok a b f asoc net now told from :
  0 <= a -> b <= 1048576 -> measures a b (now, told, from) ->
  (forall g net, cc_rtt_calculated f = Some g -> exists r, g net = net <| rtcc := r |>) ->
  estimate_ok a b net -> minrto asoc <= maxrto asoc ->
  let '(rto, asoc', net') := sctp_calculate_rto f asoc net now told from in
  minrto asoc <= rto <= maxrto asoc /\ minrto asoc' = minrto asoc /\ maxrto asoc' = maxrto asoc /\
  RTO_measured net' <> 0 /\ estimate_ok a b net'.
Proof.
  intros Ha Hb (Hn & Ht & He) Hg Hest Hlim. simpl in *. unfold sctp_calculate_rto.
  destruct (timevalsub_elapsed now told) as (Ed & Hsec & Husec); [done|done|lia|].
  set (d := timevalsub now told) in *. clearbody d.
  rewrite (u64_id (tv_sec d)), (u64_id (tv_usec d)) by (unfold in_u64; nia).
  rewrite (u64_id (1000000 * _)) by (unfold in_u64; lia). rewrite u64_id by (unfold in_u64; lia).
  set (us := 1000000 * tv_sec d + tv_usec d).
  assert (Hms : a <= us / 1000 <= b) by (subst us; Z.div_mod_to_equations; lia).
  clearbody us. simpl. rewrite (i32_id (us / 1000)) by (unfold in_i32; lia).
  set (net1 := match cc_rtt_calculated f with Some _ => _ | None => _ end).
  assert (H1 : estimate_ok a b net1).
  { subst net1. destruct (cc_rtt_calculated f) as [g|]; [|exact Hest].
    destruct (from =? SCTP_RTT_FROM_DATA); [|exact Hest].
    destruct (Hg g (net <| rtt := us |>) eq_refl) as [r ->]. exact Hest. }
  clearbody net1.
  set (net2 := if (from =? SCTP_RTT_FROM_DATA) && _ then _ else net1).
  assert (H2 : estimate_ok a b net2) by (subst net2; by case_match).
  clearbody net2. pose proof (update_averages_ok a b net2 _ Ha Hb Hms H2) as (Hm & Hsa & Hsv).
  set (rto := u32 _). set (asoc1 := if (_ <? rto) && _ then _ else _).
  assert (E1 : minrto asoc1 = minrto asoc /\ maxrto asoc1 = maxrto asoc)
    by (subst asoc1; by repeat case_match).
  destruct E1 as [E1 E2]. split; [rewrite <- E1, <- E2; apply clamp_rto_range; lia|].
  split_and!; [done..|by right].
Qed.

(** C31. When every measured round trip takes between [a] and [b] milliseconds (up to
    2^20), then after any sequence of measurements the smoothed round-trip time is
    between [a] and [b], the variation is positive and at most about four times [b],
    no step overflows, and every retransmission timeout returned is within the
    configured limits. *)
Theorem rto_estimates sys ticks now module f asoc net l a b :
  sctp_cc_functions sys ticks now module = Some f ->
  0 <= a -> b <= 1048576 -> Forall (measures a b) l -> RTO_measured net = 0 ->
  minrto asoc <= maxrto asoc -> l <> [] ->
  let '(rtos, _, net') := measure_all f asoc net l in
  Forall (fun r => minrto asoc <= r <= maxrto asoc) rtos /\
  a <= Z.shiftr (lastsa net') SCTP_RTT_SHIFT <= b /\ 0 < lastsv net' <= 4 * b + 43.
Proof.
  intros Ef Ha Hb HF Hm0 Hlim Hne.
  assert (Hg : forall g net, cc_rtt_calculated f = Some g -> exists r, g net = net <| rtcc := r |>).
  { revert Ef. unfold sctp_cc_functions. repeat case_match; intros E; simplify_eq; simpl;
      intros g n E; simplify_eq; by eexists. }
  assert (Hrun : forall asoc' net0, minrto asoc' = minrto asoc -> maxrto asoc' = maxrto asoc ->
    estimate_ok a b net0 ->
    let '(rtos, _, net') := measure_all f asoc' net0 l in
    Forall (fun r => minrto asoc <= r <= maxrto asoc) rtos /\ RTO_measured net' <> 0 /\ estimate_ok a b net').
  { clear net Hm0. induction HF as [|[[n t] fr] l Hm HF IH]; [done|]. intros asoc' net0 E1 E2 Hest.
    cbn [measure_all].
    pose proof (calculate_rto_ok a b f asoc' net0 n t fr Ha Hb Hm Hg Hest ltac:(lia)) as Hstep.
    destruct (sctp_calculate_rto f asoc' net0 n t fr) as [[rto asoc1] net1].
    destruct Hstep as (Hr & E3 & E4 & Hmeas & Hest1).
    destruct l as [|m l].
    { simpl. split; [|done]. constructor; [lia|constructor]. }
    specialize (IH ltac:(done) asoc1 net1 ltac:(lia) ltac:(lia) Hest1).
    destruct (measure_all f asoc1 net1 (m :: l)) as [[rtos asoc2] net2].
    destruct IH as (? & ? & ?). split; [|done]. constructor; [lia|done]. }
  specialize (Hrun asoc net eq_refl eq_refl (or_introl Hm0)).
  destruct (measure_all f asoc net l) as [[rtos asoc2] net2].
  destruct Hrun as (Hr & Hmeas & [?|[Hsa Hsv]]); [done|].
  split; [done|]. split; [|done]. unfold SCTP_RTT_SHIFT. rewrite Z.shiftr_div_pow2 by lia.
  change (2 ^ 3) with 8. Z.div_mod_to_equations; lia.
Qed.

Lemma rto_estimates_witness :
  let '(rtos, _, net') := measure_all (rtcc_functions ex_sys (Timeval 0 0)) (ex_asoc [])
      (ex_net <| RTO_measured := 0 |>)
      [(Timeval 10 200000, Timeval 10 100000, 1); (Timeval 12 50000, Timeval 11 900000, 0)] in
  Forall (fun r => 1000 <= r <= 60000) rtos /\
  100 <= Z.shiftr (lastsa net') SCTP_RTT_SHIFT <= 150 /\ 0 < lastsv net' <= 4 * 150 + 43.
Proof.
  apply (rto_estimates ex_sys 0 (Timeval 0 0) SCTP_CC_RTCC (rtcc_functions ex_sys (Timeval 0 0))
    (ex_asoc []) (ex_net <| RTO_measured := 0 |>)
    [(Timeval 10 200000, Timeval 10 100000, 1); (Timeval 12 50000, Timeval 11 900000, 0)] 100 150);
    [reflexivity|lia|lia|repeat constructor; eval_z|reflexivity|eval_z|discriminate].
Defined.

(** ** Backoff *)

(** [k] timeouts in a row on which data was marked for retransmission. *)
Fixpoint timeouts (f : cc_functions) (asoc : sctp_association) (net : sctp_nets) (k : nat) :
  option sctp_nets :=
  match k with
  | O => Some net
  | S k => net ← sctp_backoff_on_timeout f asoc net 0 1 0; timeouts f asoc net k
  end.

(** One timeout: the timeout is doubled up to the maximum. *)
Lemma backoff_step sys asoc net :
  limits_ok asoc -> 0 < RTO net <= maxrto asoc -> maxrto asoc < 2147483648 ->
  exists net', sctp_backoff_on_timeout (rfc2581_functions sys) asoc net 0 1 0 = Some net' /\
    RTO net' = Z.min (maxrto asoc) (2 * RTO net) /\ cwnd net' = mtu net /\ mtu net' = mtu net.
Proof.
  intros Hl Hr Hmax. unfold sctp_backoff_on_timeout.
  destruct (Z.eqb_spec (RTO net) 0); [lia|]. simpl.
  rewrite Z.shiftl_mul_pow2, u32_id by (unfold in_u32; lia). change (2 ^ 1) with 2.
  unfold sctp_cwnd_update_after_timeout. rewrite not_pooling by done. cbn [mbind option_bind].
  eexists. split; [reflexivity|].
  destruct (Z.ltb_spec (maxrto asoc) (RTO net * 2)); simpl; split_and!; done || lia.
Qed.

(** After [k] timeouts in a row the retransmission timeout is the original one times
    two to the [k], or the configured maximum if that is less; so it reaches the
    maximum, after at most 31 timeouts, and stays there.  The window is one packet. *)
Theorem backoff_doubles sys asoc net k :
  limits_ok asoc -> 0 < RTO net <= maxrto asoc -> maxrto asoc < 2147483648 ->
  exists net', timeouts (rfc2581_functions sys) asoc net k = Some net' /\
    RTO net' = Z.min (maxrto asoc) (RTO net * 2 ^ Z.of_nat k) /\
    ((31 <= k)%nat -> RTO net' = maxrto asoc) /\
    ((0 < k)%nat -> cwnd net' = mtu net).
Proof.
  intros Hl Hr Hmax.
  assert (H : exists net', timeouts (rfc2581_functions sys) asoc net k = Some net' /\
    RTO net' = Z.min (maxrto asoc) (RTO net * 2 ^ Z.of_nat k) /\ mtu net' = mtu net /\
    ((0 < k)%nat -> cwnd net' = mtu net)).
  { revert net Hr. induction k as [|k IH]; intros net Hr.
    { exists net. simpl. split_and!; [done|lia|done|lia]. }
    cbn [timeouts].
    destruct (backoff_step sys asoc net Hl Hr Hmax) as (net1 & -> & Er & Ec & Em).
    cbn [mbind option_bind]. destruct (IH net1) as (net' & E & Er' & Em' & Ec'); [lia|].
    exists net'. split; [done|]. rewrite Nat2Z.inj_succ, Z.pow_succ_r by lia.
    assert (0 < 2 ^ Z.of_nat k) by (apply Z.pow_pos_nonneg; lia).
    split_and!; [nia|congruence|]. intros _. destruct k; [|rewrite Ec' by lia; done].
    simpl in E. by injection E as <-. }
  destruct H as (net' & E & Er & _ & Ec). exists net'. split_and!; try done.
  intros Hk. rewrite Er. apply Z.min_l.
  assert (2 ^ 31 <= 2 ^ Z.of_nat k) by (apply Z.pow_le_mono_r; lia). nia.
Qed.

Lemma backoff_doubles_witness :
  exists net', timeouts (rfc2581_functions ex_sys) (ex_asoc [ex_net]) ex_net 5 = Some net' /\
    RTO net' = 32000 /\ ((31 <= 5)%nat -> RTO net' = 60000) /\ ((0 < 5)%nat -> cwnd net' = 1500).
Proof.
  apply (backoff_doubles ex_sys (ex_asoc [ex_net]) ex_net 5 (ex_limits_ok _ 0 ltac:(eval_z))); eval_z.
Defined.
