(* ===== verification/RecvFwd.v ===== *)
(** * Receiving user data: FORWARD-TSN and I-FORWARD-TSN chunks (sctp_indata.c)

    [sctp_handle_forward_tsn]: the peer has given up on some messages.  What has arrived
    of them is thrown away ([sctp_flush_reassm_for_str_seq]), a message that the
    application has begun to read is marked, and what waited for them is delivered
    ([sctp_kick_prsctp_reorder_queue]).

    The arrays of received TSNs are moved by [forward_tsn_map] ([TsnMap]).  Fields of the
    association that are written and never read ([fragmented_delivery_inprogress] and
    [control_pdapi] around the notification) are left out, and so are the notifications on
    the read queue. *)

From S2P Require Import Prelude Serial Tailq TsnMap Sack Mbuf AuthParams.
From S2P Require Export Reasm ReasmQueue RecvData.

Open Scope sctp_scope.

Definition PR_SCTP_UNORDERED_FLAG : Z := 1.

(** ** Kicking the queue of a stream *)

(** "subtract pending on streams" and "deliver it to at least the delivery-q". *)
Definition kick_single (env : rx_env) (sid p : nat) (deliver : bool) (s : receiver) : option receiver :=
  c ← ctl s p;
  s ← (if on_strm_q c =? 0 then Some s
       else
         s ← (if on_strm_q c =? SCTP_ON_ORDERED then unlink_ordered sid p s
              else if on_strm_q c =? SCTP_ON_UNORDERED then unlink_unordered sid p s
              else Some s);
         Some (put_ctl p (c <| on_strm_q := 0 |>) s));
  let s := on_ack (leave_streams (ctl_length c)) s in
  x ← strm s sid;
  let s := if deliver then put_strm sid (x <| last_mid_delivered := mid c |>) s else s in
  match so_hiwat env with
  | None => Some s
  | Some _ => s ← mark_non_revokable env (sinfo_tsn c) s; sctp_add_to_readq env p 1 s
  end.

(** Make a fragmented message the next one to deliver. *)
Definition aim_at (sid p : nat) (s : receiver) : option receiver :=
  x ← strm s sid;
  c ← ctl s p;
  Some (put_strm sid (x <| last_mid_delivered := u32 (mid c - 1) |>) s).

(** The first loop: "deliver anything prior to and including the stream no that came in".
    The flag is [need_reasm_check]. *)
Fixpoint kick_old (env : rx_env) (sid : nat) (q : list nat) (m : Z) (s : receiver) : option (bool * receiver) :=
  match q with
  | [] => Some (false, s)
  | p :: q =>
      c ← ctl s p;
      if SCTP_MID_GE (idata_supported env) m (mid c) then
        if not_frag (flags_of c) then s ← kick_single env sid p false s; kick_old env sid q m s
        else if first_frag_seen c =? 0 then kick_old env sid q m s
        else s ← aim_at sid p s; Some (true, s)
      else Some (false, s)
  end.

(** The second loop: "deliver things in queue the normal way". *)
Fixpoint kick_next (env : rx_env) (sid : nat) (q : list nat) (m : Z) (s : receiver) : option (bool * receiver) :=
  match q with
  | [] => Some (false, s)
  | p :: q =>
      c ← ctl s p;
      if SCTP_MID_EQ (idata_supported env) m (mid c) then
        if not_frag (flags_of c) then
          s ← kick_single env sid p true s;
          x ← strm s sid;
          kick_next env sid q (u32 (last_mid_delivered x + 1)) s
        else if first_frag_seen c =? 0 then kick_next env sid q m s
        else s ← aim_at sid p s; Some (true, s)
      else Some (false, s)
  end.

Definition sctp_kick_prsctp_reorder_queue (env : rx_env) (sid : nat) (s : receiver) : option receiver :=
  x ← strm s sid;
  let m := last_mid_delivered x in
  '(need, s) ← kick_old env sid (inqueue x) m s;
  '(stop, s) ←
    (if (need : bool) then
       '(ret, s) ← sctp_deliver_reasm_check env sid s;
       x ← strm s sid;
       let s := if SCTP_MID_GT (idata_supported env) m (last_mid_delivered x)
                then put_strm sid (x <| last_mid_delivered := m |>) s else s in
       Some (ret =? 0, s)
     else Some (false, s));
  if (stop : bool) then Some s
  else
    x ← strm s sid;
    '(need, s) ← kick_next env sid (inqueue x) (u32 (last_mid_delivered x + 1)) s;
    if (need : bool) then '(_, s) ← sctp_deliver_reasm_check env sid s; Some s else Some s.

(** ** Throwing a message away *)

(** The fragments to purge, and those that stay; [limit] holds for unordered DATA. *)
Fixpoint purge_chunks (limit : option Z) (l : list rx_chunk) (a : ack_state) : list rx_chunk * ack_state :=
  match l with
  | [] => ([], a)
  | chk :: l =>
      if (match limit with Some cumtsn => SCTP_TSN_GT (rec_tsn chk) cumtsn | None => false end)
      then (chk :: l, a)
      else purge_chunks limit l (leave_reasm (send_size chk) a)
  end.

Definition sctp_reset_a_control (p : nat) (tsn : Z) (s : receiver) : option receiver :=
  c ← ctl s p;
  let c := c <| fsn_included := tsn |> in
  if on_read_q c =? 0 then Some (put_ctl p c s)
  else
    q ← TAILQ_REMOVE (read_queue s) p;
    Some (put_ctl p (c <| on_read_q := 0 |>) (s <| read_queue := q |>)).

Definition sctp_flush_reassm_for_str_seq (env : rx_env) (sid : nat) (m : Z) (ordered : bool) (cumtsn : Z)
  (s : receiver) : option receiver :=
  control ← sctp_find_reasm_entry env sid m ordered s;
  match control with
  | None => Some s
  | Some p =>
      c ← ctl s p;
      let old_unordered := (idata_supported env =? 0) && negb ordered in
      if old_unordered && SCTP_TSN_GT (fsn_included c) cumtsn then Some s
      else
        let '(kept, a) := purge_chunks (if old_unordered then Some cumtsn else None) (reasm c) (ack s) in
        let s := put_ctl p (c <| reasm := kept |>) (s <| ack := a |>) in
        c ← ctl s p;
        match kept with
        | chk :: rest =>
            s ← sctp_reset_a_control p cumtsn (put_ctl p (c <| data := [] |>) s);
            s ← (if has_flag (rcv_flags chk) SCTP_DATA_FIRST_FRAG then
                   c ← ctl s p;
                   '(_, s) ← sctp_add_chk_to_control env sid p chk (put_ctl p (c <| reasm := rest |>) s); Some s
                 else Some s);
            '(_, s) ← sctp_deliver_reasm_check env sid s; Some s
        | [] =>
            s ← (if on_strm_q c =? SCTP_ON_ORDERED then
                   s ← unlink_ordered sid p s; Some (on_ack (leave_streams (ctl_length c)) s)
                 else if on_strm_q c =? SCTP_ON_UNORDERED then unlink_unordered sid p s
                 else Some s);
            let s := put_ctl p (c <| on_strm_q := 0 |>) s in
            Some (if on_read_q c =? 0 then free_ctl p s else s)
        end
  end.

(** ** The chunk *)

(** The loop over the message identifiers up to [m]. *)
Fixpoint flush_mids (fuel : nat) (env : rx_env) (sid : nat) (m cur_mid : Z) (ordered : bool) (cumtsn : Z)
  (s : receiver) : option receiver :=
  if SCTP_MID_GE (idata_supported env) m cur_mid then
    match fuel with
    | O => None
    | S fuel =>
        s ← sctp_flush_reassm_for_str_seq env sid cur_mid ordered cumtsn s;
        flush_mids fuel env sid m (u32 (cur_mid + 1)) ordered cumtsn s
    end
  else Some s.

Definition flush_fuel (env : rx_env) (m cur_mid : Z) : nat :=
  S (Z.to_nat (if idata_supported env =? 1 then u32 (m - cur_mid) else u16 (m - cur_mid))).

(** The loop over the read queue: a message that is being read is marked. *)
Fixpoint mark_aborted (env : rx_env) (sid : nat) (m : Z) (q : list nat) (s : receiver) : option receiver :=
  match q with
  | [] => Some s
  | p :: q =>
      c ← ctl s p;
      if (Z.to_nat (sinfo_stream c) =? sid)%nat && SCTP_MID_EQ (idata_supported env) (mid c) m then
        let c' := (c <| pdapi_aborted := 1 |>) <| end_added := 1 |> in
        s ← (if on_strm_q c =? SCTP_ON_ORDERED then
               s ← unlink_ordered sid p s; Some (on_ack (leave_streams (ctl_length c)) s)
             else if on_strm_q c =? SCTP_ON_UNORDERED then unlink_unordered sid p s
             else Some s);
        Some (emit (PartialDeliveryAborted p) (put_ctl p (c' <| on_strm_q := 0 |>) s))
      else if (Z.to_nat (sinfo_stream c) =? sid)%nat && SCTP_MID_GT (idata_supported env) (mid c) m then Some s
      else mark_aborted env sid m q s
  end.

(** One entry of the chunk: stream, message identifier, ordered. *)
Definition skip_message (env : rx_env) (sid : nat) (m : Z) (ordered : bool) (cumtsn : Z) (s : receiver)
  : option receiver :=
  x ← strm s sid;
  s ← flush_mids (flush_fuel env m (last_mid_delivered x)) env sid m (last_mid_delivered x) ordered cumtsn s;
  s ← mark_aborted env sid m (read_queue s) s;
  x ← strm s sid;
  let s := if SCTP_MID_GT (idata_supported env) m (last_mid_delivered x)
           then put_strm sid (x <| last_mid_delivered := m |>) s else s in
  sctp_kick_prsctp_reorder_queue env sid s.

(** The loop over the entries, [n] of which are left. *)
Fixpoint skip_entries (n : nat) (env : rx_env) (m : list mbuf) (offset cumtsn : Z) (s : receiver) : option receiver :=
  match n with
  | O => Some s
  | S n =>
      let size := if idata_supported env =? 0 then 4 else 8 in
      r ← sctp_m_getptr (map m_bytes m) offset size size;
      match r with
      | None => Some s
      | Some b =>
          let sid := Z.to_nat (be16 b) in
          let '(mid, ordered) := if idata_supported env =? 0 then (be16 (drop 2 b), true)
                                 else (be32 (drop 4 b), negb (has_flag (be16 (drop 2 b)) PR_SCTP_UNORDERED_FLAG)) in
          match strm s sid with
          | None => Some s
          | Some _ =>
              s ← skip_message env sid mid ordered cumtsn s;
              skip_entries n env m (offset + size) cumtsn s
          end
      end
  end.

(** "Flush all the un-ordered data based on cum-tsn": the streams from [sid] on. *)
Fixpoint flush_unordered (n : nat) (env : rx_env) (sid : nat) (cumtsn : Z) (s : receiver) : option receiver :=
  match n with
  | O => Some s
  | S n =>
      s ← sctp_flush_reassm_for_str_seq env sid 0 false cumtsn s;
      flush_unordered n env (S sid) cumtsn s
  end.

(** [fwd_sz] and [new_cum_tsn] are the fields of the chunk at [offset] of the packet; the
    result is [*abort_flag]. *)
Definition sctp_handle_forward_tsn (env : rx_env) (fwd_sz new_cum_tsn : Z) (m : option (list mbuf)) (offset : Z)
  (s : receiver) : option (bool * receiver) :=
  if fwd_sz <? 8 then Some (false, s)
  else
    let space := match so_hiwat env with Some hiwat => sctp_sbspace (sb_cc (ack s)) hiwat | None => 0 end in
    r ← forward_tsn_map space (arrays (ack s)) new_cum_tsn;
    match r with
    | FwdOld => Some (false, s)
    | FwdAbort a => Some (true, abort (loc 33) (on_ack (fun k => k <| arrays := a |>) s))
    | FwdDone a =>
        let s := on_ack (fun k => k <| arrays := a |>) s in
        s ← (if idata_supported env =? 0 then flush_unordered (length (strmin s)) env 0 new_cum_tsn s
             else Some s);
        let fwd_sz := fwd_sz - 8 in
        let size := if idata_supported env =? 0 then 4 else 8 in
        s ← (match m with
             | Some m => if fwd_sz =? 0 then Some s
                         else skip_entries (Z.to_nat (fwd_sz / size)) env m (offset + 8) new_cum_tsn s
             | None => Some s
             end);
        a ← sctp_slide_mapping_arrays (arrays (ack s));
        Some (false, on_ack (fun k => k <| arrays := a |>) s)
    end.
