(* ===== verification/Jni.v ===== *)
(** * The Java binding: [net_sctp4nat_Sctp.c]

    The native methods behind [net.sctp4nat.origin.Sctp]: they wrap a stack socket
    in a heap object whose address is the handle Java keeps, and pass packets and
    messages between the two sides.  The stack is seen through its API: every call
    is logged with its answer, and the answers are an arbitrary function of the
    log, so each definition is checked against every behaviour of the stack.  The
    Java virtual machine is an argument of the two upcalls.  [None] is undefined
    behaviour: a handle that is not (or no longer) allocated, or an access outside
    an array. *)

From S2P Require Import Prelude.

(** ** The stack API as seen from the binding *)

Definition AF_CONN : Z := 123.
Definition SCTP_UNORDERED : Z := 0x0400.
Definition MSG_NOTIFICATION : Z := 0x2000.
Definition SCTP_ALL_ASSOC : Z := 2.
Definition EINPROGRESS : Z := 115.

(** [struct sockaddr_conn]; the port is in network byte order. *)
Record sockaddr_conn := SockaddrConn { sconn_family : Z; sconn_addr : nat; sconn_port : Z }.

(** The arguments of the options the binding sets. *)
Inductive sockopt :=
| SO_LINGER (l_onoff l_linger : Z)
| SO_SNDBUF (size : Z)
| SO_RCVBUF (size : Z)
| SCTP_ENABLE_STREAM_RESET (assoc_id assoc_value : Z)
| SCTP_NODELAY (on : Z)
| SCTP_EVENT (se_assoc_id se_on se_type : Z).

Record sctp_sndinfo := SndInfo {
  snd_sid : Z; snd_flags : Z; snd_ppid : Z; snd_context : Z; snd_assoc_id : Z
}.

Inductive api_call :=
| usrsctp_init (port : Z)
| usrsctp_sysctl_set_sctp_debug_on (level : Z)
| usrsctp_sysctl_set_sctp_ecn_enable (on : Z)
| usrsctp_finish
| usrsctp_register_address (addr : nat)
| usrsctp_socket (ulp_info : nat)
| usrsctp_set_non_blocking (so : Z) (on : Z)
| usrsctp_setsockopt (so : Z) (o : sockopt)
| usrsctp_bind (so : Z) (a : sockaddr_conn)
| usrsctp_listen (so : Z) (backlog : Z)
| usrsctp_connect (so : Z) (a : sockaddr_conn)
| usrsctp_accept (so : Z)
| usrsctp_close (so : Z)
| usrsctp_shutdown (so : Z) (how : Z)
| usrsctp_sendv (so : Z) (data : list Z) (info : sctp_sndinfo)
| usrsctp_conninput (addr : Z) (data : list Z) (ecn_bits : Z).

(** [SctpSocket], the object behind a handle. *)
Record SctpSocket := Socket { so : Z; localPort : Z }.

(** The heap of handles and the log of the calls with their answers. *)
Record world := World { heap : gmap nat SctpSocket; log : list (api_call * Z) }.

(** A small state monad; [None] is undefined behaviour. *)
Definition M (A : Type) : Type := world -> option (A * world).

Definition ret {A} (x : A) : M A := fun w => Some (x, w).
Definition bind {A B} (m : M A) (f : A -> M B) : M B :=
  fun w => match m w with None => None | Some (x, w) => f x w end.

Declare Scope jni_scope.
Delimit Scope jni_scope with jni.
Notation "x <- m ;; k" := (bind m (fun x => k))
  (at level 100, m at next level, right associativity) : jni_scope.
Notation "m ;;; k" := (bind m (fun _ => k)) (at level 100, right associativity) : jni_scope.
Open Scope jni_scope.

Section Binding.

(** How the stack answers a call, given everything that was called before; and
    the value of [errno] after it. *)
Context (answer : list (api_call * Z) -> api_call -> Z).
Context (errno : list (api_call * Z) -> Z).

Definition call (c : api_call) : M Z :=
  fun w => let r := answer (log w) c in Some (r, World (heap w) (log w ++ [(c, r)])).

Definition get_errno : M Z := fun w => Some (errno (log w), w).

(** Dereferencing a handle. *)
Definition deref (h : nat) : M SctpSocket :=
  fun w => s ← heap w !! h; Some (s, w).

Definition store (h : nat) (s : SctpSocket) : M unit :=
  fun w => match heap w !! h with
           | Some _ => Some (tt, World (<[h := s]> (heap w)) (log w))
           | None => None
           end.

Definition free (h : nat) : M unit :=
  fun w => match heap w !! h with
           | Some _ => Some (tt, World (delete h (heap w)) (log w))
           | None => None
           end.

(** [malloc]: [address] is what it returns, with unspecified contents. *)
Definition malloc_socket (address : option nat) (garbage : SctpSocket) : M (option nat) :=
  fun w => match address with
           | None => Some (None, w)
           | Some h => Some (Some h, World (<[h := garbage]> (heap w)) (log w))
           end.

(** ** Byte order *)

Definition htons (v : Z) : Z := u8 v * 256 + u8 (v / 256).

Definition htonl (v : Z) : Z :=
  u8 v * 16777216 + u8 (v / 256) * 65536 + u8 (v / 65536) * 256 + u8 (v / 16777216).

Definition getSctpSockAddr (addr : nat) (port : Z) : sockaddr_conn :=
  SockaddrConn AF_CONN addr (htons (u16 port)).

(** ** Native methods *)

(** [data_ + off, len] of a Java array; [None] when it is not inside. *)
Definition array_region (data : list Z) (off len : Z) : option (list Z) :=
  if (0 <=? off) && (0 <=? len) && (off + len <=? Z.of_nat (length data))
  then Some (take (Z.to_nat len) (drop (Z.to_nat off) data)) else None.

(** [pkt] is [None] when the array's elements cannot be pinned. *)
Definition on_network_in (ptr : Z) (pkt : option (list Z)) (off len : Z) : M unit :=
  match pkt with
  | None => ret tt
  | Some pkt =>
      fun w => bytes ← array_region pkt off len;
               (call (usrsctp_conninput ptr bytes 0) ;;; ret tt) w
  end.

Definition jni_accept (ptr : nat) : M bool :=
  s <- deref ptr ;;
  new <- call (usrsctp_accept (so s)) ;;
  if negb (new =? 0) then
    call (usrsctp_close (so s)) ;;;
    store ptr (Socket new (localPort s)) ;;;
    ret true
  else ret false.

Definition jni_close (ptr : nat) : M unit :=
  s <- deref ptr ;;
  call (usrsctp_close (so s)) ;;;
  free ptr.

Definition jni_shutdown (ptr : nat) (how : Z) : M Z :=
  s <- deref ptr ;;
  call (usrsctp_shutdown (so s) how).

Definition connectSctp (ptr : nat) (remotePort : Z) : M bool :=
  s <- deref ptr ;;
  r <- call (usrsctp_bind (so s) (getSctpSockAddr ptr (localPort s))) ;;
  if r <? 0 then ret false
  else
    r <- call (usrsctp_connect (so s) (getSctpSockAddr ptr remotePort)) ;;
    e <- get_errno ;;
    if (r <? 0) && negb (e =? EINPROGRESS) then ret false else ret true.

Definition jni_connect (ptr : nat) (remotePort : Z) : M bool := connectSctp ptr remotePort.

(** The [while] loop of [usrsctp_finish]: [n] is how many more turns [count < 5]
    allows. *)
Fixpoint finish_loop (n : nat) (count : Z) : M Z :=
  r <- call usrsctp_finish ;;
  if r =? 0 then ret count
  else match n with
       | O => ret count
       | S n => finish_loop n (count + 1)
       end.

Definition jni_finish : M bool :=
  count <- finish_loop 5 0 ;;
  ret (negb (5 <=? count)).

(** [sctp_debug]: whether the library is built with [SCTP_DEBUG]. *)
Definition jni_init (sctp_debug : bool) (port : Z) : M bool :=
  call (usrsctp_init (u16 port)) ;;;
  (if sctp_debug then call (usrsctp_sysctl_set_sctp_debug_on 0) else ret 0) ;;;
  call (usrsctp_sysctl_set_sctp_ecn_enable 0) ;;;
  ret true.

(** The results of [bind] and [listen] are only printed. *)
Definition jni_listen (ptr : nat) : M unit :=
  s <- deref ptr ;;
  call (usrsctp_bind (so s) (getSctpSockAddr ptr (localPort s))) ;;;
  call (usrsctp_listen (so s) 1) ;;;
  ret tt.

Definition jni_send (ptr : nat) (data : option (list Z)) (off len : Z) (ordered : bool)
  (sid ppid : Z) : M Z :=
  match data with
  | None => ret (-1)
  | Some data =>
      s <- deref ptr ;;
      fun w =>
        bytes ← array_region data off len;
        let flags := if ordered then 0 else Z.lor 0 SCTP_UNORDERED in
        (r <- call (usrsctp_sendv (so s) bytes (SndInfo (u16 sid) flags (htonl (u32 ppid)) 0 0)) ;;
         ret (i32 r)) w
  end.

(** ** Creating a socket *)

Definition SCTP_EVENT_TYPES : list Z :=
  [0x0001; 0x0002; 0x0003; 0x0004; 0x0005; 0x0006; 0x0007; 0x0008; 0x0009; 0x000a; 0x000c;
   0x000d; 0x0002].

(** The loop that subscribes to the events. *)
Fixpoint subscribe (s : Z) (types : list Z) : M bool :=
  match types with
  | [] => ret true
  | t :: types =>
      r <- call (usrsctp_setsockopt s (SCTP_EVENT SCTP_ALL_ASSOC 1 t)) ;;
      if r <? 0 then ret false else subscribe s types
  end.

(** [free(sctpSocket); return 0]. *)
Definition abandon_socket (h : nat) : M Z := free h ;;; ret 0.

Definition jni_socket (address : option nat) (garbage : SctpSocket) (port : Z) : M Z :=
  p <- malloc_socket address garbage ;;
  match p with
  | None => ret 0
  | Some h =>
      call (usrsctp_register_address h) ;;;
      s <- call (usrsctp_socket h) ;;
      if s =? 0 then abandon_socket h
      else
        r <- call (usrsctp_set_non_blocking s 1) ;;
        if r <? 0 then abandon_socket h
        else
          r <- call (usrsctp_setsockopt s (SO_LINGER 1 0)) ;;
          if negb (r =? 0) then abandon_socket h
          else
            call (usrsctp_setsockopt s (SO_SNDBUF (1 * 1024 * 1024))) ;;;
            call (usrsctp_setsockopt s (SO_RCVBUF (1 * 1024 * 1024))) ;;;
            r <- call (usrsctp_setsockopt s (SCTP_ENABLE_STREAM_RESET SCTP_ALL_ASSOC 1)) ;;
            if negb (r =? 0) then abandon_socket h
            else
              r <- call (usrsctp_setsockopt s (SCTP_NODELAY 1)) ;;
              if negb (r =? 0) then abandon_socket h
              else
                ok <- subscribe s SCTP_EVENT_TYPES ;;
                if negb ok then abandon_socket h
                else
                  store h (Socket s port) ;;;
                  ret (Z.of_nat h)
  end.

End Binding.

(** ** Upcalls into Java *)

(** The cached references of [JNI_OnLoad]; [0] is none. *)
Record jni_cache := Cache {
  Sctp_clazz : Z; Sctp_receiveCb : Z; Sctp_sendCb : Z; Sctp_vm : Z
}.

Definition JNI_EVERSION : Z := -3.
Definition JNI_VERSION_1_4 : Z := 0x00010004.

(** What the virtual machine answers: whether the thread can be attached, the
    class, the two method ids and the global reference ([0] when it fails). *)
Record vm_load := VmLoad {
  vl_attach : bool; vl_class : Z; vl_receive : Z; vl_send : Z; vl_global : Z
}.

Definition JNI_OnLoad (vm : Z) (v : vm_load) (c : jni_cache) : Z * jni_cache :=
  if vl_attach v then
    if negb (vl_class v =? 0) then
      if negb (vl_receive v =? 0) then
        if negb (vl_send v =? 0) then
          if negb (vl_global v =? 0)
          then (JNI_VERSION_1_4, Cache (vl_global v) (vl_receive v) (vl_send v) vm)
          else (JNI_EVERSION, c)
        else (JNI_EVERSION, c)
      else (JNI_EVERSION, c)
    else (JNI_EVERSION, c)
  else (JNI_EVERSION, c).

(** The second result is the global reference that is deleted. *)
Definition JNI_OnUnload (attach : bool) (c : jni_cache) : jni_cache * option Z :=
  (Cache 0 0 0 0,
   if negb (Sctp_clazz c =? 0) then if attach then Some (Sctp_clazz c) else None else None).

(** The call of the Java method with its arguments. *)
Inductive java_call :=
| onSctpInboundPacket_java (socketPtr : Z) (data : list Z) (sid ssn tsn ppid context flags : Z)
| onSctpOutboundPacket_java (socketPtr : Z) (data : list Z) (tos set_df : Z).

(** The machine during an upcall: attaching, allocating the array, and what the
    outbound callback returns. *)
Record vm_call := VmCall { vc_attach : bool; vc_array : bool; vc_result : Z }.

Definition callOnSctpInboundPacket (c : jni_cache) (v : vm_call) (socketPtr : Z) (data : list Z)
  (sid ssn tsn ppid context flags : Z) : option java_call :=
  if negb (Sctp_vm c =? 0) && vc_attach v then
    if negb (Sctp_clazz c =? 0) then
      if negb (Sctp_receiveCb c =? 0) then
        if vc_array v
        then Some (onSctpInboundPacket_java socketPtr data sid ssn (i32 tsn) (htonl ppid) context flags)
        else None
      else None
    else None
  else None.

(** The call, if it is made, and the result. *)
Definition callOnSctpOutboundPacket (c : jni_cache) (v : vm_call) (socketPtr : Z) (data : list Z)
  (tos set_df : Z) : option java_call * Z :=
  if negb (Sctp_vm c =? 0) && vc_attach v then
    if negb (Sctp_clazz c =? 0) then
      if negb (Sctp_sendCb c =? 0) then
        if vc_array v
        then (Some (onSctpOutboundPacket_java socketPtr data tos set_df), vc_result v)
        else (None, -1)
      else (None, -1)
    else (None, -1)
  else (None, -1).

Record sctp_rcvinfo := RcvInfo {
  rcv_sid : Z; rcv_ssn : Z; rcv_flags : Z; rcv_ppid : Z; rcv_tsn : Z; rcv_cumtsn : Z; rcv_context : Z;
  rcv_assoc_id : Z
}.

(** The upcall and the return value; [data] is freed when it is not [NULL]. *)
Definition onSctpInboundPacket (c : jni_cache) (v : vm_call) (data : option (list Z))
  (rcv : sctp_rcvinfo) (flags : Z) (ulp_info : Z) : option java_call * Z :=
  match data with
  | None => (None, 1)
  | Some data =>
      (if negb (Z.land flags MSG_NOTIFICATION =? 0)
       then callOnSctpInboundPacket c v ulp_info data 0 0 0 0 0 flags
       else callOnSctpInboundPacket c v ulp_info data (rcv_sid rcv) (rcv_ssn rcv) (rcv_tsn rcv)
              (rcv_ppid rcv) (u16 (rcv_context rcv)) flags, 1)
  end.

Definition onSctpOutboundPacket (c : jni_cache) (v : vm_call) (addr : Z) (buffer : option (list Z))
  (tos set_df : Z) : option java_call * Z :=
  match buffer with
  | None => (None, -1)
  | Some b =>
      if negb (Z.of_nat (length b) =? 0) then
        let '(j, r) := callOnSctpOutboundPacket c v addr b tos set_df in
        if r =? 0 then (j, 0) else (j, -1)
      else (None, -1)
  end.
