(* ===== verification/JniProps.v ===== *)
(** * Properties of the Java binding

    What a new socket is configured with, what a failed creation leaves behind,
    the handles over any sequence of native calls, the result of finishing, and
    the way of a message from one Java side to the other. *)

From S2P Require Import Prelude Jni.

Open Scope jni_scope.

(** ** The log *)

(** The sockets the stack holds open for the binding. *)
Definition open_step (l : list Z) (e : api_call * Z) : list Z :=
  match e with
  | (usrsctp_socket _, r) => if r =? 0 then l else r :: l
  | (usrsctp_accept _, r) => if r =? 0 then l else r :: l
  | (usrsctp_close s, _) => filter (.≠ s) l
  | _ => l
  end.

Definition opened (l : list (api_call * Z)) : list Z := foldl open_step [] l.

(** The addresses that packets are delivered to. *)
Definition registered (l : list (api_call * Z)) (h : nat) : Prop :=
  exists r, (usrsctp_register_address h, r) ∈ l.

(** Calls that set options of one socket. *)
Definition configures (s : Z) (e : api_call * Z) : Prop :=
  match e.1 with
  | usrsctp_set_non_blocking s' _ => s' = s
  | usrsctp_setsockopt s' _ => s' = s
  | _ => False
  end.

Lemma opened_app l l' : opened (l ++ l') = foldl open_step (opened l) l'.
Proof. apply foldl_app. Qed.

Lemma opened_configures s l l' : Forall (configures s) l' -> opened (l ++ l') = opened l.
Proof.
  rewrite opened_app. generalize (opened l) as o. induction 1 as [|e l' He _ IH]; [done|].
  cbn [foldl]. destruct e as [[] r]; try done.
Qed.

Lemma opened_snoc l c r : opened (l ++ [(c, r)]) = open_step (opened l) (c, r).
Proof. by rewrite opened_app. Qed.

Lemma opened_created l h r0 s rest : Forall (configures s) rest ->
  opened (l ++ (usrsctp_register_address h, r0) :: (usrsctp_socket h, s) :: rest)
    = if s =? 0 then opened l else s :: opened l.
Proof.
  intros Hc. rewrite (cons_middle (usrsctp_register_address h, r0)), app_assoc.
  rewrite (cons_middle (usrsctp_socket h, s)), app_assoc, (opened_configures s) by done.
  by rewrite !opened_snoc.
Qed.

Section Binding.

Context (answer : list (api_call * Z) -> api_call -> Z) (errno : list (api_call * Z) -> Z).

Lemma subscribe_spec s types : forall w, exists ok new,
  subscribe answer s types w = Some (ok, World (heap w) (log w ++ new))
  /\ Forall (configures s) new
  /\ (ok = true -> map fst new = map (fun t => usrsctp_setsockopt s (SCTP_EVENT SCTP_ALL_ASSOC 1 t)) types).
Proof.
  induction types as [|t types IH]; intros w.
  { exists true, []. rewrite app_nil_r. destruct w. split_and!; [done | constructor | done]. }
  cbn [subscribe]. unfold bind, Jni.call. set (r := answer _ _). destruct (r <? 0).
  - exists false, [(usrsctp_setsockopt s (SCTP_EVENT SCTP_ALL_ASSOC 1 t), r)].
    split_and!; [done | repeat constructor | done].
  - destruct (IH (World (heap w) (log w ++ [(usrsctp_setsockopt s (SCTP_EVENT SCTP_ALL_ASSOC 1 t), r)])))
      as (ok & new & -> & Hf & Hm). cbn [heap log].
    eexists ok, (_ :: new). split_and!; [by rewrite <- app_assoc | by constructor |].
    intros Hok. cbn [map fst]. by rewrite Hm.
Qed.

(** The calls that configure a new socket. *)
Definition setup_calls (h : nat) (s : Z) : list api_call :=
  [usrsctp_register_address h; usrsctp_socket h; usrsctp_set_non_blocking s 1;
   usrsctp_setsockopt s (SO_LINGER 1 0);
   usrsctp_setsockopt s (SO_SNDBUF 1048576); usrsctp_setsockopt s (SO_RCVBUF 1048576);
   usrsctp_setsockopt s (SCTP_ENABLE_STREAM_RESET SCTP_ALL_ASSOC 1);
   usrsctp_setsockopt s (SCTP_NODELAY 1)]
  ++ map (fun t => usrsctp_setsockopt s (SCTP_EVENT SCTP_ALL_ASSOC 1 t)) SCTP_EVENT_TYPES.

(** What creating a socket does, whatever the stack answers: [s] is the stack's
    socket, [rest] the option calls that were made. *)
Definition created (h : nat) (port : Z) (w w' : world) (r s : Z) (rest : list (api_call * Z)) : Prop :=
  (exists r0, log w' = log w ++ (usrsctp_register_address h, r0) :: (usrsctp_socket h, s) :: rest
              /\ s = answer (log w ++ [(usrsctp_register_address h, r0)]) (usrsctp_socket h))
  /\ Forall (configures s) rest
  /\ ((r = Z.of_nat h /\ s <> 0 /\ heap w' = <[h := Socket s port]> (heap w)
       /\ usrsctp_register_address h :: usrsctp_socket h :: map fst rest = setup_calls h s)
      \/ (r = 0 /\ heap w' = heap w)).

(** Running a call. *)
Lemma run_call {B} c (k : Z -> M B) w :
  bind (call answer c) k w = k (answer (log w) c) (World (heap w) (log w ++ [(c, answer (log w) c)])).
Proof. reflexivity. Qed.

Lemma run_abandon h (w : world) s l : heap w !! h = None ->
  abandon_socket h (World (<[h := s]> (heap w)) l) = Some (0, World (heap w) l).
Proof.
  intros Hh. unfold abandon_socket, bind, free. cbn [heap log]. rewrite lookup_insert_eq.
  by rewrite delete_insert_id.
Qed.

Lemma configured_fail h port (w : world) r0 s rest : Forall (configures s) rest ->
  s = answer (log w ++ [(usrsctp_register_address h, r0)]) (usrsctp_socket h) ->
  created h port w (World (heap w)
    (log w ++ (usrsctp_register_address h, r0) :: (usrsctp_socket h, s) :: rest)) 0 s rest.
Proof. intros Hf Hs. split_and!; [by exists r0 | done | by right]. Qed.

Lemma run_malloc {B} h g (k : option nat -> M B) w :
  bind (malloc_socket (Some h) g) k w = k (Some h) (World (<[h := g]> (heap w)) (log w)).
Proof. reflexivity. Qed.

(** Run the next call and forget where its answer comes from. *)
Ltac run_next r :=
  rewrite run_call; cbn [heap log]; rewrite <- ?app_assoc; cbn [app];
  match goal with |- context [answer ?l ?c] =>
    let Hans := fresh "Hans" in remember (answer l c) as r eqn:Hans in |- * end.

(** A failed step. *)
Ltac run_failed Hh :=
  rewrite (run_abandon _ _ _ _ Hh);
  eexists _, _, _, _; split; [reflexivity|]; apply configured_fail; [by repeat constructor | done].

Lemma jni_socket_spec h g port w : heap w !! h = None ->
  exists r w' s rest, jni_socket answer (Some h) g port w = Some (r, w') /\ created h port w w' r s rest.
Proof.
  intros Hh. unfold jni_socket. rewrite run_malloc. cbv beta iota.
  run_next r0. run_next s. destruct (Z.eqb_spec s 0) as [Hs|Hs]; [run_failed Hh|].
  run_next r1. destruct (r1 <? 0); [run_failed Hh|].
  run_next r2. destruct (negb (r2 =? 0)); [run_failed Hh|].
  run_next r3. run_next r4. run_next r5. destruct (negb (r5 =? 0)); [run_failed Hh|].
  run_next r6. destruct (negb (r6 =? 0)); [run_failed Hh|].
  match goal with |- context [bind (subscribe answer s SCTP_EVENT_TYPES) ?k ?w] =>
    destruct (subscribe_spec s SCTP_EVENT_TYPES w) as (ok & new & E & Hf & Hm) end.
  unfold bind at 1. rewrite E. cbn [heap log]. rewrite <- app_assoc. cbn [app].
  destruct ok; cbn [negb].
  - unfold bind, store, ret. cbn [heap log]. rewrite lookup_insert_eq, insert_insert_eq.
    eexists _, _, s, _. split; [reflexivity|]. split; [by eexists; split|]. split; [by repeat constructor|].
    left. split_and!; [done | done | done |]. unfold setup_calls. cbn [map fst app].
    by rewrite Hm.
  - rewrite (run_abandon _ _ _ _ Hh). eexists _, _, _, _. split; [reflexivity|].
    apply configured_fail; [by repeat constructor | done].
Qed.

End Binding.

(** Creating a socket always returns, a handle or [0].  With a handle, the
    object behind it refers to a new stack socket and the local port, and the
    stack was asked, in this order, to register the handle as an address, to
    create the socket, to make it non-blocking, to delete the association on
    close, for the buffer sizes, stream resets and no Nagle delay, and for every
    notification type of the list; with [0] no object is left allocated. *)
Theorem jni_socket_configured answer h g port w :
  heap w !! h = None -> h <> 0%nat ->
  exists r w' calls, jni_socket answer (Some h) g port w = Some (r, w')
    /\ log w' = log w ++ calls
    /\ if r =? 0 then heap w' = heap w
       else r = Z.of_nat h
            /\ exists s, s <> 0 /\ heap w' = <[h := Socket s port]> (heap w)
               /\ map fst calls = setup_calls h s /\ s ∈ opened (log w').
Proof.
  intros Hh H0. destruct (jni_socket_spec answer h g port w Hh) as (r & w' & s & rest & E & (r0 & El & _) & Hf & Hr).
  exists r, w', ((usrsctp_register_address h, r0) :: (usrsctp_socket h, s) :: rest).
  split; [done|]. split; [done|]. destruct Hr as [(-> & Hs & Hheap & Hc) | (-> & Hheap)]; [|done].
  rewrite (proj2 (Z.eqb_neq _ _)) by lia. split; [done|]. exists s. split_and!; [done | done | exact Hc |].
  rewrite El, opened_created, (proj2 (Z.eqb_neq s 0)) by done. constructor.
Qed.

(** A stack that answers every option with success. *)
Definition kind_answer (l : list (api_call * Z)) (c : api_call) : Z :=
  match c with usrsctp_socket _ => 77 | usrsctp_accept _ => 78 | _ => 0 end.

Lemma jni_socket_configured_witness :
  exists r w' calls, jni_socket kind_answer (Some 4096%nat) (Socket 0 0) 5000 (World ∅ []) = Some (r, w')
    /\ log w' = [] ++ calls
    /\ if r =? 0 then heap w' = ∅
       else r = Z.of_nat 4096
            /\ exists s, s <> 0 /\ heap w' = <[4096%nat := Socket s 5000]> ∅
               /\ map fst calls = setup_calls 4096 s /\ s ∈ opened (log w').
Proof.
  apply (jni_socket_configured kind_answer 4096 (Socket 0 0) 5000 (World ∅ [])); [reflexivity | lia].
Defined.

(** When creating a socket fails after the stack has created it, the stack
    socket stays open and the freed object stays registered as an address:
    nothing refers to either any more, so neither can ever be released. *)
Theorem jni_socket_failure_leaks answer h g port w w' :
  heap w !! h = None -> jni_socket answer (Some h) g port w = Some (0, w') -> h <> 0%nat ->
  heap w' = heap w /\ registered (log w') h
  /\ forall s r0 rest, s <> 0 ->
       log w' = log w ++ (usrsctp_register_address h, r0) :: (usrsctp_socket h, s) :: rest ->
       s ∈ opened (log w').
Proof.
  intros Hh E H0. destruct (jni_socket_spec answer h g port w Hh) as (r & w1 & s & rest & E1 & (r0 & El & _) & Hf & Hr).
  rewrite E in E1. injection E1 as <- <-.
  destruct Hr as [(Hr & _) | (_ & Hheap)]; [lia|]. split; [done|]. split.
  - exists r0. rewrite El. apply elem_of_app. right. constructor.
  - intros s' r0' rest' Hs' El'. rewrite El in El'. apply app_inv_head in El'. injection El' as <- <- <-.
    rewrite El, opened_created, (proj2 (Z.eqb_neq s 0)) by done. constructor.
Qed.

(** The stack refuses [SCTP_NODELAY]. *)
Definition no_nodelay (l : list (api_call * Z)) (c : api_call) : Z :=
  match c with
  | usrsctp_socket _ => 77
  | usrsctp_setsockopt _ (SCTP_NODELAY _) => -1
  | _ => 0
  end.

Lemma jni_socket_failure_leaks_witness :
  exists w', jni_socket no_nodelay (Some 4096%nat) (Socket 0 0) 5000 (World ∅ []) = Some (0, w')
    /\ heap w' = ∅ /\ registered (log w') 4096 /\ 77 ∈ opened (log w').
Proof.
  destruct (jni_socket no_nodelay (Some 4096%nat) (Socket 0 0) 5000 (World ∅ [])) as [[r w']|] eqn:E;
    [|vm_compute in E; discriminate E].
  assert (r = 0) as -> by (vm_compute in E; congruence).
  destruct (jni_socket_failure_leaks no_nodelay 4096 (Socket 0 0) 5000 (World ∅ []) w') as (H1 & H2 & H3);
    [reflexivity | exact E | lia |].
  exists w'. split; [reflexivity|]. split; [exact H1|]. split; [exact H2|].
  eapply (H3 77 0); [discriminate|]. vm_compute in E. injection E as <-. reflexivity.
Defined.

(** ** Finishing *)

(** The log of the attempts: all but the last failed. *)
Lemma finish_loop_spec answer n : forall count w, exists r fails,
  finish_loop answer n count w = Some (count + Z.of_nat (length fails),
    World (heap w) (log w ++ map (fun x => (usrsctp_finish, x)) (fails ++ [r])))
  /\ Forall (fun x => x <> 0) fails /\ (length fails <= n)%nat
  /\ (r <> 0 -> length fails = n).
Proof.
  induction n as [|n IH]; intros count w; cbn [finish_loop]; rewrite run_call;
    generalize (answer (log w) usrsctp_finish) as r; intros r.
  - exists r, []. cbn [length app map Z.of_nat]. rewrite Z.add_0_r. split_and!; [|constructor | lia | done].
    by destruct (r =? 0).
  - destruct (Z.eqb_spec r 0) as [->|Hr].
    + exists 0, []. cbn [length app map Z.of_nat]. rewrite Z.add_0_r. split_and!; [done | constructor | lia | done].
    + destruct (IH (count + 1) (World (heap w) (log w ++ [(usrsctp_finish, r)]))) as (r' & fails & -> & Hf & Hl & Hz).
      exists r', (r :: fails). cbn [heap log length app map]. rewrite <- app_assoc. split_and!.
      * do 2 f_equal. lia.
      * by constructor.
      * lia.
      * intros H. by rewrite Hz.
Qed.

(** Finishing makes up to six attempts and stops at the first success.  It
    reports success exactly when one of the first five succeeded: a sixth
    attempt that succeeds is reported as a failure although the stack is gone. *)
Theorem jni_finish_result answer w :
  exists b fails r, jni_finish answer w = Some (b,
      World (heap w) (log w ++ map (fun x => (usrsctp_finish, x)) (fails ++ [r])))
    /\ Forall (fun x => x <> 0) fails /\ (length fails <= 5)%nat
    /\ (b = true <-> r = 0 /\ (length fails < 5)%nat)
    /\ (length fails = 5%nat -> b = false).
Proof.
  destruct (finish_loop_spec answer 5 0 w) as (r & fails & E & Hf & Hl & Hz).
  unfold jni_finish, bind at 1. rewrite E. unfold ret.
  eexists _, fails, r. split; [done|]. split; [done|]. split; [done|].
  destruct (Z.leb_spec 5 (0 + Z.of_nat (length fails))); cbn [negb]; split.
  - split; [done|]. intros [_ ?]. lia.
  - done.
  - split; [|done]. intros _. split; [|lia]. destruct (Z.eq_dec r 0) as [|Hr]; [done|].
    apply Hz in Hr. lia.
  - intros H5. lia.
Qed.

(** ** Handles *)

(** The native calls on handles. *)
Inductive jop :=
| JSocket (h : nat) (garbage : SctpSocket) (port : Z)
| JAccept (h : nat)
| JClose (h : nat)
| JShutdown (h : nat) (how : Z)
| JConnect (h : nat) (port : Z)
| JListen (h : nat)
| JSend (h : nat) (data : list Z) (off len : Z) (ordered : bool) (sid ppid : Z).

Definition run_jop answer errno (o : jop) (w : world) : option world :=
  match o with
  | JSocket h g port => '(_, w) ← jni_socket answer (Some h) g port w; Some w
  | JAccept h => '(_, w) ← jni_accept answer h w; Some w
  | JClose h => '(_, w) ← jni_close answer h w; Some w
  | JShutdown h how => '(_, w) ← jni_shutdown answer h how w; Some w
  | JConnect h port => '(_, w) ← jni_connect answer errno h port w; Some w
  | JListen h => '(_, w) ← jni_listen answer h w; Some w
  | JSend h data off len ordered sid ppid =>
      '(_, w) ← jni_send answer h (Some data) off len ordered sid ppid w; Some w
  end.

(** What the callers owe: a new object is at a fresh address, the other calls get
    a handle that was not closed, and a range inside the array. *)
Definition jop_allowed (w : world) (o : jop) : Prop :=
  match o with
  | JSocket h _ _ => heap w !! h = None /\ h <> 0%nat
  | JSend h data off len _ _ _ =>
      is_Some (heap w !! h) /\ 0 <= off /\ 0 <= len /\ off + len <= Z.of_nat (length data)
  | JAccept h | JClose h | JShutdown h _ | JConnect h _ | JListen h => is_Some (heap w !! h)
  end.

(** What the stack promises: a new socket is none of the open ones. *)
Definition fresh_sockets (answer : list (api_call * Z) -> api_call -> Z) : Prop :=
  forall l c, match c with
              | usrsctp_socket _ | usrsctp_accept _ => answer l c ∉ opened l
              | _ => True
              end.

(** Every handle owns an open socket, and no two handles the same one. *)
Record handles_ok (w : world) : Prop := HandlesOk {
  ho_open : forall h s, heap w !! h = Some s -> so s ∈ opened (log w);
  ho_own : forall h h' s s', heap w !! h = Some s -> heap w !! h' = Some s' -> so s = so s' -> h = h'
}.

Lemma handles_log w l : handles_ok w -> opened l = opened (log w) -> handles_ok (World (heap w) l).
Proof. intros [H1 H2] E. constructor; cbn [heap log]; [by rewrite E | done]. Qed.

Lemma handles_add w h s port l :
  handles_ok w -> s ∉ opened (log w) -> opened l = s :: opened (log w) ->
  heap w !! h = None -> handles_ok (World (<[h := Socket s port]> (heap w)) l).
Proof.
  intros [H1 H2] Hs Hl Hh. constructor; cbn [heap log].
  - intros h' s' Hl'. rewrite Hl. apply lookup_insert_Some in Hl' as [[_ <-]|[_ Hl']];
      [constructor | constructor; eauto].
  - intros h1 h2 s1 s2 E1 E2 Es.
    apply lookup_insert_Some in E1 as [[<- <-]|[N1 E1]]; apply lookup_insert_Some in E2 as [[<- <-]|[N2 E2]];
      cbn [so] in *; [done | | | by eauto].
    + exfalso. apply Hs. rewrite Es. eauto.
    + exfalso. apply Hs. rewrite <- Es. eauto.
Qed.

Lemma others_stay_open w h s : handles_ok w -> heap w !! h = Some s ->
  forall h' s', h' <> h -> heap w !! h' = Some s' -> so s' ∈ filter (.≠ so s) (opened (log w)).
Proof.
  intros [H1 H2] Hs h' s' Hne Hs'. apply list_elem_of_filter. split; [|eauto].
  intros E. apply Hne. eauto.
Qed.

Lemma jni_close_ok answer w h : handles_ok w -> is_Some (heap w !! h) ->
  exists w', jni_close answer h w = Some (tt, w') /\ handles_ok w' /\ heap w' = delete h (heap w).
Proof.
  intros Hok [s Hs]. unfold jni_close, bind, deref. rewrite Hs. cbn [mbind option_bind call].
  unfold free. cbn [heap log]. rewrite Hs. eexists. split; [done|]. split; [|done].
  constructor; cbn [heap log].
  - intros h' s' [Hne Hs']%lookup_delete_Some. rewrite opened_snoc. cbn [open_step].
    by apply (others_stay_open w h s Hok Hs h' s').
  - intros h1 h2 s1 s2 [_ E1]%lookup_delete_Some [_ E2]%lookup_delete_Some. by apply (ho_own _ Hok).
Qed.

Lemma jni_accept_ok answer w h : fresh_sockets answer -> handles_ok w -> is_Some (heap w !! h) ->
  exists b w', jni_accept answer h w = Some (b, w') /\ handles_ok w'.
Proof.
  intros Hf Hok [s Hs]. unfold jni_accept. unfold bind at 1, deref. rewrite Hs. cbn [mbind option_bind].
  rewrite run_call. pose proof (Hf (log w) (usrsctp_accept (so s))) as Hnew. cbv beta iota in Hnew.
  revert Hnew. generalize (answer (log w) (usrsctp_accept (so s))) as new. intros new Hnew.
  destruct (Z.eqb_spec new 0) as [->|H0]; cbn [negb].
  { eexists _, _. split; [done|]. apply handles_log; [done|]. by rewrite opened_snoc. }
  rewrite run_call. cbn [heap log]. unfold bind, store, ret. cbn [heap log]. rewrite Hs.
  eexists _, _. split; [done|]. generalize (answer (log w ++ [(usrsctp_accept (so s), new)]) (usrsctp_close (so s))) as r.
  intros r. assert (so s ∈ opened (log w)) as Hin by (by apply (ho_open _ Hok h)).
  assert (new <> so s) as Hne by congruence.
  assert (opened ((log w ++ [(usrsctp_accept (so s), new)]) ++ [(usrsctp_close (so s), r)])
    = new :: filter (.≠ so s) (opened (log w))) as El.
  { rewrite !opened_snoc. cbn [open_step]. rewrite (proj2 (Z.eqb_neq new 0)) by done.
    by rewrite filter_cons_True. }
  constructor; cbn [heap log].
  - intros h' s' Hs'. rewrite El. apply lookup_insert_Some in Hs' as [[_ <-]|[Hh Hs']]; [constructor|].
    constructor. by apply (others_stay_open w h s Hok Hs h' s').
  - intros h1 h2 s1 s2 E1 E2 Es.
    apply lookup_insert_Some in E1 as [[<- <-]|[N1 E1]]; apply lookup_insert_Some in E2 as [[<- <-]|[N2 E2]];
      cbn [so] in *; [done | | | by eapply (ho_own _ Hok)].
    + exfalso. apply Hnew. rewrite Es. by eapply (ho_open _ Hok).
    + exfalso. apply Hnew. rewrite <- Es. by eapply (ho_open _ Hok).
Qed.

(** Calls that neither open nor close leave the handles as they are. *)
Definition neutral (c : api_call) : Prop :=
  match c with usrsctp_socket _ | usrsctp_accept _ | usrsctp_close _ => False | _ => True end.

Lemma neutral_ok w c r : neutral c -> handles_ok w -> handles_ok (World (heap w) (log w ++ [(c, r)])).
Proof. intros Hn Hok. apply handles_log; [done|]. rewrite opened_snoc. by destruct c. Qed.

Lemma handles_log_mono w l : handles_ok w -> (forall x, x ∈ opened (log w) -> x ∈ opened l) ->
  handles_ok (World (heap w) l).
Proof. intros [H1 H2] Hl. constructor; cbn [heap log]; eauto. Qed.

Lemma jni_socket_ok answer w h g port : fresh_sockets answer -> handles_ok w -> heap w !! h = None ->
  exists r w', jni_socket answer (Some h) g port w = Some (r, w') /\ handles_ok w'.
Proof.
  intros Hf Hok Hh.
  destruct (jni_socket_spec answer h g port w Hh) as (r & w' & s & rest & E & (r0 & El & Es) & Hc & Hr).
  exists r, w'. split; [done|]. destruct w' as [hp lg]. cbn [heap log] in *.
  pose proof (opened_created (log w) h r0 s rest Hc) as Eo. rewrite <- El in Eo.
  pose proof (Hf (log w ++ [(usrsctp_register_address h, r0)]) (usrsctp_socket h)) as Hn.
  cbv beta iota in Hn. rewrite <- Es, opened_snoc in Hn. cbn [open_step] in Hn.
  destruct Hr as [(_ & Hs & -> & _) | (_ & ->)].
  - rewrite (proj2 (Z.eqb_neq s 0)) in Eo by done. by apply handles_add.
  - apply handles_log_mono; [done|]. intros x Hx. rewrite Eo. destruct (s =? 0); [done | by constructor].
Qed.

(** The calls that make one or two neutral API calls on the handle's socket. *)
Lemma deref_ok {A} (w : world) h (k : SctpSocket -> M A) : is_Some (heap w !! h) ->
  (forall s, exists x w', k s w = Some (x, w') /\ handles_ok w') ->
  exists x w', bind (deref h) k w = Some (x, w') /\ handles_ok w'.
Proof. intros [s Hs] Hk. unfold bind, deref. rewrite Hs. cbn [mbind option_bind]. apply Hk. Qed.

Lemma jop_ok answer errno w o : fresh_sockets answer -> handles_ok w -> jop_allowed w o ->
  exists w', run_jop answer errno o w = Some w' /\ handles_ok w'.
Proof.
  intros Hf Hok Ha.
  assert (forall {A} (m : M A), (exists x w', m w = Some (x, w') /\ handles_ok w') ->
    exists w', ('(_, w) ← m w; Some w) = Some w' /\ handles_ok w') as Hrun.
  { intros A m (x & w' & -> & H). by exists w'. }
  destruct o as [h g port | h | h | h how | h port | h | h data off len ordered sid ppid];
    cbn [run_jop jop_allowed] in *; apply Hrun.
  - apply jni_socket_ok; [done | done | apply Ha].
  - by apply jni_accept_ok.
  - destruct (jni_close_ok answer w h Hok Ha) as (w' & E & H & _). eauto.
  - apply deref_ok; [done|]. intros s. eexists _, _. split; [done|]. by apply neutral_ok.
  - apply deref_ok; [done|]. intros s. rewrite run_call. set (r := answer _ _).
    pose proof (neutral_ok w (usrsctp_bind (so s) (getSctpSockAddr h (localPort s))) r I Hok) as H1.
    destruct (r <? 0); [eexists _, _; by split|]. rewrite run_call. unfold bind, get_errno, ret.
    destruct (_ && _); eexists _, _; (split; [done|]); by apply (neutral_ok (World (heap w) _)).
  - apply deref_ok; [done|]. intros s. rewrite !run_call. eexists _, _. split; [done|].
    apply (neutral_ok (World (heap w) _)); [done|]. by apply neutral_ok.
  - destruct Ha as (Hh & H1 & H2 & H3). apply deref_ok; [done|]. intros s.
    unfold array_region. rewrite !(proj2 (Z.leb_le _ _)) by done. cbn [andb mbind option_bind].
    eexists _, _. split; [done|]. by apply neutral_ok.
Qed.

(** A native call that the callers may make. *)
Inductive jstep answer errno : world -> world -> Prop :=
| JStep o w w' : jop_allowed w o -> run_jop answer errno o w = Some w' -> jstep answer errno w w'.

Lemma empty_handles : handles_ok (World ∅ []).
Proof. constructor; cbn [heap]; intros; by rewrite lookup_empty in *. Qed.

(** C40. Over any sequence of native calls (creating, accepting, connecting,
    listening, sending, shutting down, closing), with a stack that never hands out
    a socket that is still open, and as long as Java passes only handles it has
    not closed and ranges inside its arrays: every live handle owns an open stack
    socket that no other handle owns, every further allowed call completes without
    accessing freed memory or memory outside an array, and after a handle is
    closed its object is gone, so that connecting with it is undefined. *)
Theorem jni_handles_safe answer errno w :
  fresh_sockets answer -> rtc (jstep answer errno) (World ∅ []) w ->
  handles_ok w
  /\ (forall o, jop_allowed w o -> is_Some (run_jop answer errno o w))
  /\ (forall h w', run_jop answer errno (JClose h) w = Some w' ->
        heap w' !! h = None /\ forall port, run_jop answer errno (JConnect h port) w' = None).
Proof.
  intros Hf Hs.
  assert (forall w1 w2, rtc (jstep answer errno) w1 w2 -> handles_ok w1 -> handles_ok w2) as Hinv.
  { induction 1 as [|x y z [o a b Ha Hr] _ IH]; [done|]. intros Hok. apply IH.
    destruct (jop_ok answer errno a o Hf Hok Ha) as (w' & E & H'). rewrite Hr in E. by injection E as <-. }
  pose proof (Hinv _ _ Hs empty_handles) as Hok. split; [done|]. split.
  - intros o Ha. destruct (jop_ok answer errno w o Hf Hok Ha) as (w' & -> & _). by eexists.
  - intros h w' E. destruct (heap w !! h) as [s|] eqn:Hh.
    + destruct (jni_close_ok answer w h Hok (mk_is_Some _ _ Hh)) as (w1 & E1 & _ & Hd).
      cbn [run_jop] in E. rewrite E1 in E. cbn in E. injection E as <-.
      rewrite Hd, lookup_delete_eq. split; [done|]. intros port.
      unfold run_jop, jni_connect, connectSctp, bind at 1, deref. by rewrite Hd, lookup_delete_eq.
    + unfold run_jop, jni_close, bind at 1, deref in E. by rewrite Hh in E.
Qed.

(** A stack that numbers its sockets. *)
Definition counting (l : list (api_call * Z)) (c : api_call) : Z :=
  match c with
  | usrsctp_socket _ | usrsctp_accept _ => 1 + foldr Z.max 0 (opened l)
  | _ => 0
  end.

Lemma counting_fresh : fresh_sockets counting.
Proof.
  assert (forall l x, x ∈ l -> x <= foldr Z.max 0 l) as H.
  { induction l as [|y l IH]; intros x Hx; [by apply not_elem_of_nil in Hx|].
    cbn [foldr]. apply elem_of_cons in Hx as [->|Hx]; [lia|]. specialize (IH _ Hx). lia. }
  intros l []; try done; intros Hin%H; cbn [counting] in Hin; lia.
Qed.

Lemma jni_handles_safe_witness :
  exists w, rtc (jstep counting (fun _ => 0)) (World ∅ []) w /\ handles_ok w
    /\ heap w !! 4096%nat = Some (Socket 2 5000)
    /\ is_Some (run_jop counting (fun _ => 0) (JConnect 4096 5001) w).
Proof.
  assert (exists w1, run_jop counting (fun _ => 0) (JSocket 4096 (Socket 0 0) 5000) (World ∅ []) = Some w1)
    as [w1 E1] by (eexists; vm_compute; reflexivity).
  assert (heap w1 !! 4096%nat = Some (Socket 1 5000)) as H1.
  { vm_compute in E1. injection E1 as <-. reflexivity. }
  assert (exists w2, run_jop counting (fun _ => 0) (JAccept 4096) w1 = Some w2) as [w2 E2].
  { vm_compute in E1. injection E1 as <-. eexists. vm_compute. reflexivity. }
  assert (heap w2 !! 4096%nat = Some (Socket 2 5000)) as H2.
  { vm_compute in E1. injection E1 as <-. vm_compute in E2. injection E2 as <-. reflexivity. }
  assert (rtc (jstep counting (fun _ => 0)) (World ∅ []) w2) as Hr.
  { apply (rtc_l _ _ w1); [apply (JStep _ _ (JSocket 4096 (Socket 0 0) 5000)); [split; [reflexivity | lia] | exact E1]|].
    apply rtc_once. apply (JStep _ _ (JAccept 4096)); [cbn [jop_allowed]; rewrite H1; eexists; reflexivity | exact E2]. }
  destruct (jni_handles_safe counting (fun _ => 0) w2 counting_fresh Hr) as (Hok & Hsafe & _).
  exists w2. split; [exact Hr|]. split; [exact Hok|]. split; [exact H2|].
  apply Hsafe. cbn [jop_allowed]. rewrite H2. eexists. reflexivity.
Defined.

(** ** A message from Java to Java *)

Lemma htonl_bytes a b c d : in_u8 a -> in_u8 b -> in_u8 c -> in_u8 d ->
  htonl (a * 16777216 + b * 65536 + c * 256 + d) = d * 16777216 + c * 65536 + b * 256 + a.
Proof.
  unfold htonl. intros Ha Hb Hc Hd.
  assert ((a * 16777216 + b * 65536 + c * 256 + d) / 256 = a * 65536 + b * 256 + c) as -> by width_lia.
  assert ((a * 16777216 + b * 65536 + c * 256 + d) / 65536 = a * 256 + b) as -> by width_lia.
  assert ((a * 16777216 + b * 65536 + c * 256 + d) / 16777216 = a) as -> by width_lia.
  width_lia.
Qed.

Lemma htonl_involutive v : in_u32 v -> htonl (htonl v) = v.
Proof. intros Hv. unfold htonl at 2. rewrite htonl_bytes by auto with sctp. width_lia. Qed.

(** The references a successful load leaves behind are usable. *)
Definition loaded (c : jni_cache) : Prop :=
  Sctp_vm c <> 0 /\ Sctp_clazz c <> 0 /\ Sctp_receiveCb c <> 0 /\ Sctp_sendCb c <> 0.

Lemma JNI_OnLoad_spec vm v c c' : vm <> 0 -> JNI_OnLoad vm v c = (JNI_VERSION_1_4, c') -> loaded c'.
Proof.
  intros Hvm. unfold JNI_OnLoad, loaded, JNI_EVERSION, JNI_VERSION_1_4.
  destruct (vl_attach v); [|done].
  destruct (Z.eqb_spec (vl_class v) 0); [done|]. destruct (Z.eqb_spec (vl_receive v) 0); [done|].
  destruct (Z.eqb_spec (vl_send v) 0); [done|]. destruct (Z.eqb_spec (vl_global v) 0); [done|].
  intros [= <-]. by split_and!.
Qed.

Lemma inbound_call c v p data sid ssn tsn ppid context flags :
  loaded c -> vc_attach v = true -> vc_array v = true ->
  callOnSctpInboundPacket c v p data sid ssn tsn ppid context flags
    = Some (onSctpInboundPacket_java p data sid ssn (i32 tsn) (htonl ppid) context flags).
Proof.
  intros (H1 & H2 & H3 & _) Ha Hd. unfold callOnSctpInboundPacket. rewrite Ha, Hd.
  by rewrite !(proj2 (Z.eqb_neq _ _)) by done.
Qed.

(** A message that one Java side sends reaches the other as it was sent: the
    stack is given exactly the bytes of the range of the array, the stream number
    and the ordering flag, and whatever the receiving stack reports with these
    bytes, this stream and this payload protocol identifier is passed on to Java
    with the same bytes, stream and identifier (as unsigned numbers), on the
    handle of the receiving socket, once the library is loaded. *)
Theorem message_roundtrip answer w h s data off len ordered sid ppid vm load c0 c v rcv flags ulp :
  heap w !! h = Some s -> 0 <= off -> 0 <= len -> off + len <= Z.of_nat (length data) ->
  vm <> 0 -> JNI_OnLoad vm load c0 = (JNI_VERSION_1_4, c) ->
  vc_attach v = true -> vc_array v = true -> Z.land flags MSG_NOTIFICATION = 0 ->
  exists r bytes info,
    jni_send answer h (Some data) off len ordered sid ppid w
      = Some (i32 r, World (heap w) (log w ++ [(usrsctp_sendv (so s) bytes info, r)]))
    /\ bytes = take (Z.to_nat len) (drop (Z.to_nat off) data)
    /\ length bytes = Z.to_nat len
    /\ (snd_flags info = 0 <-> ordered = true)
    /\ (rcv_sid rcv = snd_sid info -> rcv_ppid rcv = snd_ppid info ->
        onSctpInboundPacket c v (Some bytes) rcv flags ulp
          = (Some (onSctpInboundPacket_java ulp bytes (u16 sid) (rcv_ssn rcv) (i32 (rcv_tsn rcv))
                     (u32 ppid) (u16 (rcv_context rcv)) flags), 1)).
Proof.
  intros Hs Hoff Hlen Hr Hvm Hload Ha Hd Hn.
  pose proof (JNI_OnLoad_spec vm load c0 c Hvm Hload) as Hc.
  unfold jni_send. unfold bind at 1, deref. rewrite Hs. cbn [mbind option_bind].
  unfold array_region. rewrite !(proj2 (Z.leb_le _ _)) by done. cbn [andb mbind option_bind].
  rewrite run_call. eexists _, _, _. split; [reflexivity|]. split; [reflexivity|].
  split; [rewrite length_take, length_drop; lia|]. cbn [snd_flags snd_sid snd_ppid]. split.
  - by destruct ordered.
  - intros Es Ep. unfold onSctpInboundPacket. rewrite Hn, Es, Ep. cbn [Z.eqb negb].
    rewrite inbound_call by done. by rewrite htonl_involutive by auto with sctp.
Qed.

Lemma message_roundtrip_witness :
  exists r bytes info,
    jni_send kind_answer 4096 (Some [9; 8; 7; 6]) 1 2 false 3 51 (World {[4096%nat := Socket 77 5000]} [])
      = Some (i32 r, World {[4096%nat := Socket 77 5000]} ([] ++ [(usrsctp_sendv 77 bytes info, r)]))
    /\ bytes = [8; 7] /\ length bytes = 2%nat
    /\ (snd_flags info = 0 <-> false = true)
    /\ (3 = snd_sid info -> 0x33000000 = snd_ppid info ->
        onSctpInboundPacket (Cache 5 2 3 1) (VmCall true true 0) (Some bytes)
            (RcvInfo 3 0 0 0x33000000 4294967295 0 0 0) 0 4096
          = (Some (onSctpInboundPacket_java 4096 bytes 3 0 (-1) 51 0 0), 1)).
Proof.
  refine (message_roundtrip kind_answer (World {[4096%nat := Socket 77 5000]} []) 4096 (Socket 77 5000)
    [9; 8; 7; 6] 1 2 false 3 51 1 (VmLoad true 4 2 3 5) (Cache 0 0 0 0) (Cache 5 2 3 1)
    (VmCall true true 0) (RcvInfo 3 0 0 0x33000000 4294967295 0 0 0) 0 4096
    _ _ _ _ _ _ _ _ _);
    solve [reflexivity | discriminate | vm_compute; discriminate].
Defined.
